(* ===== verification/_CoqProject ===== *)
-Q . S2P
Prelude.v
KString.v
Csum.v
Alloc.v
Heap.v
Ramfs.v
Blkdev.v
Ext4Disk.v
Ext4Core.v
Ext4Map.v
Ext4Alloc.v
Ext4Dir.v
Ext4Dirent.v
Ext4Journal.v
Ext4Replay.v
Ext4Mount.v
Net.v
Pmm.v
Printk.v
Ports.v
Ata.v
Storage.v
Pci.v
E1000.v
Virtio.v
Input.v
Boot.v
Fdt.v
Vram.v
Console.v
Kprintf.v
VgaText.v
FbConsole.v
Gpu.v
Backlight.v
Acpi.v
Smbios.v
Cmos.v
Irq.v
Descriptors.v
Cpuid.v
Guard.v
Start.v
Panic.v
Exceptions.v
Secure.v
Arm.v
Platform.v
Frames.v
BootFlow.v
