(* ===== verification/Prelude.v ===== *)
(** * Obsidian kernel: verification library

    This is the root file: the header below documents the whole library, and
    the rest of the file is the prelude every other file requires.

    ** The program

    Obsidian is a small freestanding kernel in C (x86, x86_64, arm64). The
    parts with logic of their own, and the files that model them:

    - lib/string.c, lib/udivmod64.c: [KString]. C strings are byte buffers
      scanned to their NUL; memcpy, memmove and memset work on a flat memory,
      because their word loops depend on address alignment. lib/printk.c:
      [Printk] (the formatter), [Kprintf] (printing over any console).
      lib/panic.c: [Panic].
    - fs/ext4_csum.c: [Csum]. The lazily built CRC tables are state.
    - mm/heap.h: [Alloc]. The allocator the clients call is a class
      ([Allocator], with the promises [AllocatorLaws]); a bump allocator is
      its smallest instance.
    - mm/heap_c.c with security/memguard.c: [Heap]. The region is a map of
      16-byte cells, each block header one cell; it is an instance of the
      class. arch/x86/pmm.c and arch/x86_64/pmm.c: [Pmm], the bitmaps of page
      frames at both word widths and the walk of the multiboot tables.
    - fs/ramfs.c: [Ramfs]. The file table over any allocator.
    - drivers/block/blkdev.c: [Blkdev]. The registry of block devices; the
      class [SectorDevice] is what a driver promises, a RAM disk satisfies it.
      drivers/block/ata.c: [Ata], an instance; drivers/block/virtio_blk.c:
      [Virtio]. [Storage] composes ext4, the registry and the ATA driver.
    - fs/ext4_disk.h: [Ext4Disk]. The packed structures as field lists.
    - fs/ext4_core.c: [Ext4Core] (mount state, block IO, checksums,
      descriptors, inodes), [Ext4Map] (extent trees, indirect maps) and
      [Ext4Alloc] (bitmaps, allocation of blocks and inodes).
    - fs/ext4_fsops.c: [Ext4Dir] (building extent trees, truncation,
      directories), with [Ext4Dirent] for the theorems on directory blocks as
      lists of entries. fs/ext4_journal.c: [Ext4Journal], with [Ext4Replay]
      for the writes a replay makes. fs/ext4_mount.c: [Ext4Mount] (paths,
      mounting, the public file API).
    - net/stack.c: [Net]. The stack over the class [Nic] of a polled card.
      drivers/net: [E1000], the driver as an instance of that class, the
      registry and the detection.
    - include/io.h: [Ports]. What is behind the port instructions is a class
      ([Ports]; a state that contains it is an instance of [HasPorts]).
      drivers/bus/pci.c: [Pci]. drivers/input: [Input]. arch/x86*/isr.c:
      [Irq] (interrupt controllers, timer chip, dispatch); [Exceptions] is the
      dispatch with panic and the clock, as both architectures link it.
      drivers/firmware/cmos.c: [Cmos]. drivers/platform: [Platform] (embedded
      controller, ThinkPad sensors, keyboard light).
    - drivers/gpu: [Console] (the console layer, over a record of backend
      operations whose promises are the class [ConsoleLaws]), its two
      backends [VgaText] and [FbConsole] on the windows of video memory of
      [Vram], [Gpu] (detection, Bochs mode setting) and [Backlight].
    - Tables in memory, with reads over a function from addresses to bytes:
      drivers/acpi: [Acpi]. drivers/firmware/smbios.c: [Smbios].
      arch/arm64/fdt.c: [Fdt]. arch/x86*/gdt.c and idt.c: [Descriptors].
    - arch: [Start] (the C entry of the two x86 kernels, page rounding, the
      reboot through the keyboard controller), [Arm] (the PL011 console and
      the entry of the arm64 kernel), [Cpuid] (the strings of the processor).
      security: [Guard] (stack canary, heap poisoning at start).
    - init: [Boot] (command line, clock, the persistence demo), [BootFlow] (the
      standard x86 kernel from kernel_main on: every component above in one
      state, over one machine and one heap; [on] runs a component inside it;
      [serve] dispatches an interrupt to the installed handler).
      [Frames] holds what the initialisers leave alone. secure: [Secure] (the
      recovery kernel: its menu, the memory test, the device list, printed on
      the VGA console).

    ext4 calls the allocator, the block registry and the checksums; its
    theorems are proved for every allocator that satisfies [AllocatorLaws] and
    every device that satisfies [SectorDevice]. Ramfs is proved over
    [AllocatorLaws], the network stack over [NicLaws], the console over
    [ConsoleLaws]. Where a driver's theorem needs its hardware to follow its
    documentation, that is a class too (the disk of [Ata], the card of
    [E1000], the queue device of [Virtio], [DispiCard], [Nvram],
    [EmbeddedController], [Pic]), with a small machine as an instance.

    ** Conventions

    A C integer is a [Z]; unsigned arithmetic wraps with [u8] .. [u64], signed
    conversions with [s8] .. [s64]. Structures kept in memory as bytes are
    byte lists read and written through little-endian loads and stores. A
    function with effects is a computation [M S A], a state passing function
    whose result [None] is undefined behaviour (an access outside an object)
    or fuel that ran out; error codes are ordinary values. NULL is [None]
    where a pointer is an option. Static variables and every buffer shared
    between calls (the two scratch buffers of ext4, the receive buffer of the
    network stack) are fields of the state record, so that a callee that
    clobbers a buffer does so in the model too. [wp] is total correctness (the
    run is defined and returns), [wlp] partial correctness. Definitions
    evaluate by [vm_compute]; each theorem with hypotheses has a lemma
    [.._witness] at a concrete state.

    ** What is shown

    - Storage: a file written through ext4, the registry and the ATA driver is
      read back from the sectors of the disk ([Storage.file_on_ata]), with
      [Ata.ata_sector_device] below it and, above,
      [Ext4Mount.file_write_read_roundtrip], block allocation
      ([Ext4Alloc.e4_alloc_block_near_spec], [e4_free_block_spec]), inodes
      ([Ext4Core.e4_inode_roundtrip]), extent roots
      ([Ext4Dir.extent_tree_roundtrip]), directory blocks as lists of entries
      ([Ext4Dirent]), the writes of a journal replay ([Ext4Replay]) and the
      layout of the disk structures ([Ext4Disk.disk_layout], by evaluation).
    - What ext4 does not do: mounting fails always
      ([Ext4Mount.ext4_mount_never_mounts]), lookup of a name fails always
      ([Ext4Dir.e4_dir_lookup_never_finds]), deep extent trees are read
      through their root alone ([Ext4Map.extent_lookup_reads_root_only]).
    - Memory: kmalloc refines first fit, kfree refines release with
      coalescing, a double free is detected ([Heap]); page frames are handed
      out once and only from available memory ([Pmm]); ramfs refines a finite
      map from names to contents, without leaks ([Ramfs]).
    - Network: polling is safe and terminates on well-formed frames
      ([Net.net_poll_safe]); a long echo request overflows a buffer
      ([Net.net_poll_icmp_overflow]); the e1000 driver keeps the promises of a
      card, and what becomes of a frame that is sent is said for cards however
      slow ([E1000]).
    - Devices: the PCI scan terminates and lists what is there ([Pci]); the
      virtio driver completes its first 21 requests and waits for ever at the
      next ([Virtio]); mouse packets are decoded, the keyboard never delivers
      ([Input]); the interrupt masks are those last set, and the timer's and
      the mouse's interrupts never arrive ([Irq]); registers of the embedded
      controller are read back, sensor values are plausible on any hardware
      ([Platform]).
    - Console: on a framebuffer ([FbConsole.fb_console_draws]) and on VGA text
      ([VgaText.vga_console_shows]) printing shows what an abstract terminal
      shows; detection, mode setting, the framebuffer and the message printed
      on it compose ([Gpu.gpu_init_draws]); formatting stays in its buffer
      ([Printk.kvsnprintf_bounded]); a panic shows its log, and the next boot
      finds its marker ([Panic.panic_recorded]).
    - Firmware tables: ACPI discovery and walk ([Acpi.acpi_bringup_spec]),
      SMBIOS strings ([Smbios.parse_smbios2_spec]), the device tree
      ([Fdt.fdt_init_reads_tree]), the descriptor tables as the processor
      reads them ([Descriptors.descriptor_tables_read_back]), the command line
      ([Boot.cmdline_spec]), the strings and version numbers of the processor
      ([Cpuid.cpu_strings_spec]).
    - Start: what the entry of an x86 kernel hands to kernel_main
      ([Start.boot_hands_over]), the arm64 console over a card that answers
      ([Arm.arm_console]), a session of the recovery kernel up to its reboot
      ([Secure.recovery_session]).
    - The whole kernel: the boot reports the panic of the previous boot exactly
      if there was one and touches nothing else of the CMOS memory
      ([BootFlow.boot_reports_last_panic]), by frame lemmas for every driver
      ([Frames]); after it no key is ever heard, whatever interrupts are served
      ([BootFlow.kernel_hears_no_key]); an exception ends in the panic screen,
      with the wrong text ([Exceptions.exception_report]). [BootFlow.demo_waits]
      runs a whole boot.
    - Library: memcpy, memmove, memset, strcmp, itoa and atoi, the 64-bit
      division and both CRCs equal their reference definitions.

    ** Fuel

    Loops that are not structural take fuel, and the theorems say how much is
    enough. [kmalloc_search] and [kfree_walk] run out exactly when the free
    list does not end, and the theorems show it ends; [read_loop] needs one
    round per byte at most; directory scans advance by at least eight bytes,
    so the block size bounds them; [csum_fold] needs two rounds for a 32-bit
    sum; [net_poll] needs one more than the number of frames to come, since
    each nested poll follows a frame taken from the card; the waiting loops of
    ARP (200000) and TCP (500000), of ATA and of the embedded controller are
    bounded in the code, and where their bodies are costly the rounds are
    counted in binary. The tag walks of [Pmm] need a round per eight bytes,
    [Pci]'s recursion 33 levels because the table of devices has 32 entries,
    [fdt_walk] a round per word of the blob, the SMBIOS walks a byte each, the
    recovery menu a round per key. The last loops of the boot and of the version
    screen do not end: they are defined by their number of rounds, and the
    theorems hold for every number.
    Where the code waits for hardware without a bound ([Virtio]'s used ring,
    the flush of the PS/2 controller, the serial ports, sleeping, the
    PL011, the keyboard controller at a reboot) the fuel is an argument and the theorem's
    hypothesis on the hardware says that it answers within it.

    ** Not modelled

    Messages whose only effect is output (except the packet messages of the
    network stack, those of [E1000]'s detection and of [Gpu], panic's and the
    recovery kernel's), the hardware
    behind ports and MMIO registers beyond what the classes state, assembly,
    the Rust allocator backend, and the parts listed as such in the
    manifest. A message of the boot is an event. The boot is that of x86, where
    the virtio driver is compiled out; interrupts are served in its last loop,
    after the network is polled and while the processor halts, those that come
    earlier as well. Before the framebuffer [Gpu]'s console has no display: the
    text mode is that of [VgaText], and what [Gpu] prints on it is dropped. That a boot reaches its last loop is shown for a machine, not in
    general: it waits for hardware and for tables in memory without a bound.
    The x86_64 copies of isr.c (but for the dispatcher) and cpuid.c repeat the
    x86 ones line by line and have no definitions of their own. *)
From Stdlib Require Export ZArith Lia Bool.
From stdpp Require Export base tactics option list list_numbers numbers.
From Stdlib Require Strings.Ascii Strings.String.
Export String.StringSyntax.

#[export] Set Default Goal Selector "!".

Declare Scope c_scope.
Delimit Scope c_scope with c.
Open Scope Z_scope.

(** ** Machine integers

    A [w]-bit unsigned C integer is a [Z] in [0, 2^w); assignments to a
    variable of that type wrap. Signed conversions are two's complement. *)

Definition u8 (z : Z) : Z := z mod 256.
Definition u16 (z : Z) : Z := z mod 65536.
Definition u32 (z : Z) : Z := z mod 4294967296.
Definition u64 (z : Z) : Z := z mod 18446744073709551616.

Definition s8 (z : Z) : Z := (z + 128) mod 256 - 128.
Definition s32 (z : Z) : Z := (z + 2147483648) mod 4294967296 - 2147483648.
Definition s64 (z : Z) : Z :=
  (z + 9223372036854775808) mod 18446744073709551616 - 9223372036854775808.

(** C truth values of integers, and the test of a flag mask. *)
Definition truthy (z : Z) : bool := negb (z =? 0).
Definition has (flags mask : Z) : bool := truthy (Z.land flags mask).

(** ** Byte buffers *)

Definition byte_ok (b : Z) : Prop := 0 ≤ b < 256.
Definition bytes_ok (l : list Z) : Prop := Forall byte_ok l.

Definition zlen {A} (l : list A) : Z := Z.of_nat (length l).

(** [slice b off n] reads the [n] bytes at offset [off]; [splice b off l]
    overwrites the bytes at [off] with [l]. Outside the buffer both are
    undefined behaviour in C: [None] here. *)
Definition slice (b : list Z) (off n : Z) : option (list Z) :=
  if (0 <=? off) && (0 <=? n) && (off + n <=? zlen b)
  then Some (take (Z.to_nat n) (drop (Z.to_nat off) b)) else None.

Definition splice (b : list Z) (off : Z) (l : list Z) : option (list Z) :=
  if (0 <=? off) && (off + zlen l <=? zlen b)
  then Some (take (Z.to_nat off) b ++ l ++ drop (Z.to_nat off + length l) b)
  else None.

(** Little-endian codec of a machine integer. *)
Fixpoint le_of (l : list Z) : Z :=
  match l with
  | [] => 0
  | b :: r => b + 256 * le_of r
  end.

Fixpoint le_to (n : nat) (v : Z) : list Z :=
  match n with
  | O => []
  | S n' => v mod 256 :: le_to n' (v / 256)
  end.

Definition ld (n : Z) (b : list Z) (off : Z) : option Z :=
  le_of <$> slice b off n.

Definition st (n : Z) (b : list Z) (off v : Z) : option (list Z) :=
  splice b off (le_to (Z.to_nat n) v).

Definition ld8 := ld 1.
Definition ld16 := ld 2.
Definition ld32 := ld 4.
Definition ld64 := ld 8.
Definition st8 := st 1.
Definition st16 := st 2.
Definition st32 := st 4.

Definition zeros (n : Z) : list Z := replicate (Z.to_nat n) 0.

(** The characters of a C literal, without its NUL. *)
Bind Scope string_scope with String.string.
Definition chars (s : String.string) : list Z :=
  (λ c, Z.of_N (Ascii.N_of_ascii c)) <$> String.list_ascii_of_string s.

(** ** The C state monad

    A C function that reads and writes the state [S] and returns an [A] is a
    function [S → option (A * S)]; [None] is undefined behaviour (an access
    outside an object). Error codes are ordinary return values. *)

Definition M (S A : Type) : Type := S → option (A * S).

Definition ret {S A} (a : A) : M S A := λ s, Some (a, s).
Definition bind {S A B} (m : M S A) (k : A → M S B) : M S B :=
  λ s, match m s with Some (a, s') => k a s' | None => None end.
Definition fault {S A} : M S A := λ _, None.
Definition get {S} : M S S := λ s, Some (s, s).
Definition gets {S A} (f : S → A) : M S A := λ s, Some (f s, s).
Definition modify {S} (f : S → S) : M S unit := λ s, Some (tt, f s).
Definition lift {S A} (o : option A) : M S A :=
  λ s, match o with Some a => Some (a, s) | None => None end.

Notation "'let*' x := m 'in' k" := (bind m (λ x, k))
  (at level 10, x pattern, m at level 100, k at level 200,
   format "'[v' 'let*'  x  :=  m  'in' '//' k ']'") : c_scope.
Notation "m ;; k" := (bind m (λ _, k))
  (at level 100, k at level 200, right associativity) : c_scope.
(** [if (m) return e; k]: the error idiom of the C code, for a call [m] that
    returns 0 on success. *)
Notation "'try' m 'else' e 'in' k" := (bind m (λ rc, if truthy rc then ret e else k))
  (at level 10, m at level 100, e at level 100, k at level 200,
   format "'[v' 'try'  m  'else'  e  'in' '//' k ']'") : c_scope.
Open Scope c_scope.

(** Unsigned division: by zero it is undefined behaviour. *)
Definition odiv (a b : Z) : option Z := if b =? 0 then None else Some (a / b).
Definition omod (a b : Z) : option Z := if b =? 0 then None else Some (a mod b).
Definition udiv {S} (a b : Z) : M S Z := λ s, if b =? 0 then None else Some (a / b, s).
Definition umod {S} (a b : Z) : M S Z := λ s, if b =? 0 then None else Some (a mod b, s).

(** [for_ i n body] runs [body i; body (i+1); ...] ([n] rounds): each round
    either goes on ([None]) or makes the enclosing function return. *)
Fixpoint for_ {S R} (i : Z) (n : nat) (body : Z → M S (option R)) : M S (option R) :=
  match n with
  | O => ret None
  | Datatypes.S n' =>
      let* r := body i in
      match r with
      | Some x => ret (Some x)
      | None => for_ (i + 1) n' body
      end
  end.

(** ** Shared lemmas *)

Create HintDb kdb.
Create Rewrite HintDb zlen.
Create Rewrite HintDb machine.

Lemma zlen_nonneg {A} (l : list A) : 0 ≤ zlen l.
Proof. unfold zlen. lia. Qed.
#[export] Hint Resolve zlen_nonneg : kdb.

Lemma zlen_app {A} (l k : list A) : zlen (l ++ k) = zlen l + zlen k.
Proof. unfold zlen. rewrite length_app. lia. Qed.

Lemma zlen_cons {A} (x : A) (l : list A) : zlen (x :: l) = 1 + zlen l.
Proof. unfold zlen. simpl. lia. Qed.

Lemma zlen_nil {A} : zlen (@nil A) = 0.
Proof. reflexivity. Qed.

Lemma zlen_replicate {A} n (x : A) : zlen (replicate n x) = Z.of_nat n.
Proof. unfold zlen. by rewrite length_replicate. Qed.

Lemma zlen_snoc {A} (l : list A) x : zlen (l ++ [x]) = zlen l + 1.
Proof. by rewrite zlen_app, zlen_cons, zlen_nil. Qed.

Lemma zlen_take {A} n (l : list A) :
  0 ≤ n ≤ zlen l → zlen (take (Z.to_nat n) l) = n.
Proof. unfold zlen. rewrite length_take. lia. Qed.

Lemma zlen_drop {A} n (l : list A) :
  0 ≤ n ≤ zlen l → zlen (drop (Z.to_nat n) l) = zlen l - n.
Proof. unfold zlen. rewrite length_drop. lia. Qed.

#[export] Hint Rewrite @zlen_app @zlen_cons @zlen_nil @zlen_replicate : zlen.

(** Turns boolean comparisons in the context into propositions. *)
Ltac bool_prop :=
  repeat match goal with
  | H : (_ && _)%bool = true |- _ => apply andb_true_iff in H as [? ?]
  | H : (_ && _)%bool = false |- _ => apply andb_false_iff in H
  | H : (_ || _)%bool = true |- _ => apply orb_true_iff in H
  | H : (_ || _)%bool = false |- _ => apply orb_false_iff in H as [? ?]
  | H : negb _ = true |- _ => apply negb_true_iff in H
  | H : negb _ = false |- _ => apply negb_false_iff in H
  | H : (_ =? _) = true |- _ => apply Z.eqb_eq in H
  | H : (_ =? _) = false |- _ => apply Z.eqb_neq in H
  | H : (_ <? _) = true |- _ => apply Z.ltb_lt in H
  | H : (_ <? _) = false |- _ => apply Z.ltb_ge in H
  | H : (_ <=? _) = true |- _ => apply Z.leb_le in H
  | H : (_ <=? _) = false |- _ => apply Z.leb_gt in H
  end.

(** Linear arithmetic with [/] and [mod] by constants. *)
Ltac mod_lia := Z.div_mod_to_equations; lia.

(** Case analysis on the condition of the first [if] of the goal. *)
Ltac case_if :=
  match goal with
  | |- context [if ?b then _ else _] =>
      let E := fresh "E" in destruct b eqn:E
  end.

(** Equations of the monad; [mred] runs the pure steps at the head of a
    computation. *)
Lemma bind_eq {S A B} (m : M S A) (k : A → M S B) s a s' :
  m s = Some (a, s') → bind m k s = k a s'.
Proof. intros E. unfold bind. by rewrite E. Qed.
Lemma bind_assoc {S A B C} (m : M S A) (k : A → M S B) (l : B → M S C) s :
  bind (bind m k) l s = bind m (λ x, bind (k x) l) s.
Proof. unfold bind. by destruct (m s) as [[??]|]. Qed.
Lemma bind_ret {S A B} (a : A) (k : A → M S B) s : bind (ret a) k s = k a s.
Proof. reflexivity. Qed.
Lemma bind_gets {S A B} (f : S → A) (k : A → M S B) s : bind (gets f) k s = k (f s) s.
Proof. reflexivity. Qed.
Lemma bind_modify {S B} (f : S → S) (k : unit → M S B) s : bind (modify f) k s = k tt (f s).
Proof. reflexivity. Qed.
Lemma bind_lift {S A B} (a : A) (k : A → M S B) s : bind (lift (Some a)) k s = k a s.
Proof. reflexivity. Qed.
Lemma bind_inv {S A B} (m : M S A) (k : A → M S B) s b s' :
  bind m k s = Some (b, s') → ∃ a s1, m s = Some (a, s1) ∧ k a s1 = Some (b, s').
Proof. unfold bind. destruct (m s) as [[a s1]|]; [eauto|done]. Qed.
Lemma udiv_eq {S} a b (s : S) : b ≠ 0 → udiv a b s = Some (a / b, s).
Proof. intros. unfold udiv. by rewrite (proj2 (Z.eqb_neq b 0)). Qed.
Lemma umod_eq {S} a b (s : S) : b ≠ 0 → umod a b s = Some (a mod b, s).
Proof. intros. unfold umod. by rewrite (proj2 (Z.eqb_neq b 0)). Qed.

Ltac mred := repeat first
  [ rewrite bind_assoc | rewrite bind_gets | rewrite bind_ret | rewrite bind_modify
  | rewrite bind_lift | progress cbv beta ].
(** One step of a computation whose result [E : m s = Some (a, s')] is known. *)
Ltac mstep E := rewrite (bind_eq _ _ _ _ _ E); mred.
(** [udiv]/[umod] by a divisor that [tac] shows non-zero. *)
Ltac mdiv tac := repeat first
  [ erewrite (bind_eq (udiv _ _)) by (apply udiv_eq; tac)
  | erewrite (bind_eq (umod _ _)) by (apply umod_eq; tac) ]; mred.

Lemma u8_range z : 0 ≤ u8 z < 256.
Proof. apply Z.mod_pos_bound. lia. Qed.
Lemma u16_range z : 0 ≤ u16 z < 65536.
Proof. apply Z.mod_pos_bound. lia. Qed.
Lemma u32_range z : 0 ≤ u32 z < 4294967296.
Proof. apply Z.mod_pos_bound. lia. Qed.
Lemma u64_range z : 0 ≤ u64 z < 18446744073709551616.
Proof. apply Z.mod_pos_bound. lia. Qed.

Lemma u8_small z : 0 ≤ z < 256 → u8 z = z.
Proof. apply Z.mod_small. Qed.
Lemma u16_small z : 0 ≤ z < 65536 → u16 z = z.
Proof. apply Z.mod_small. Qed.
Lemma u32_small z : 0 ≤ z < 4294967296 → u32 z = z.
Proof. apply Z.mod_small. Qed.
Lemma u64_small z : 0 ≤ z < 18446744073709551616 → u64 z = z.
Proof. apply Z.mod_small. Qed.
#[export] Hint Rewrite u8_small u16_small u32_small u64_small using lia : machine.

(** Little-endian codec. *)
Lemma length_le_to n v : length (le_to n v) = n.
Proof. revert v. induction n; intros; simpl; auto. Qed.

Lemma le_to_bytes_ok n v : bytes_ok (le_to n v).
Proof.
  revert v. induction n; intros; simpl; constructor; [apply u8_range | apply IHn].
Qed.

Lemma le_of_to n v : le_of (le_to n v) = v mod 256 ^ Z.of_nat n.
Proof.
  revert v. induction n as [|n IH]; intros v.
  { simpl. by rewrite Z.mod_1_r. }
  simpl le_to. simpl le_of. rewrite IH, Nat2Z.inj_succ, Z.pow_succ_r by lia.
  rewrite Z.rem_mul_r by (try apply Z.pow_nonzero; lia). lia.
Qed.

Lemma le_of_range l : bytes_ok l → 0 ≤ le_of l < 256 ^ zlen l.
Proof.
  induction 1 as [|b l Hb Hl IH]; [done|].
  rewrite zlen_cons. simpl le_of.
  replace (1 + zlen l) with (Z.succ (zlen l)) by lia.
  rewrite Z.pow_succ_r by (unfold zlen; lia). unfold byte_ok in Hb. lia.
Qed.

Lemma le_to_of l : bytes_ok l → le_to (length l) (le_of l) = l.
Proof.
  induction 1 as [|b l Hb Hl IH]; [done|].
  unfold byte_ok in Hb. simpl. f_equal.
  - rewrite Z.mul_comm, Z_mod_plus_full. by apply Z.mod_small.
  - rewrite Z.mul_comm, Z.div_add, Z.div_small by lia. done.
Qed.

(** Slices and splices. *)
Lemma slice_Some b off n l :
  slice b off n = Some l ↔
  0 ≤ off ∧ 0 ≤ n ∧ off + n ≤ zlen b ∧
  l = take (Z.to_nat n) (drop (Z.to_nat off) b).
Proof.
  unfold slice. case_if; bool_prop.
  - split; [intros [= <-]; done | by intros (_ & _ & _ & ->)].
  - split; [done|]. intros (? & ? & ? & _). destruct E as [[?|?]%andb_false_iff|?]; bool_prop; lia.
Qed.

Lemma splice_Some b off l b' :
  splice b off l = Some b' ↔
  0 ≤ off ∧ off + zlen l ≤ zlen b ∧
  b' = take (Z.to_nat off) b ++ l ++ drop (Z.to_nat off + length l) b.
Proof.
  unfold splice. case_if; bool_prop.
  - split; [intros [= <-]; done | by intros (_ & _ & ->)].
  - split; [done|]. intros (? & ? & _). destruct E; bool_prop; lia.
Qed.

Lemma slice_zlen b off n l : slice b off n = Some l → zlen l = n.
Proof.
  intros (? & ? & ? & ->)%slice_Some. rewrite zlen_take; [done|].
  rewrite zlen_drop; lia.
Qed.

Lemma slice_is_Some b off n :
  0 ≤ off → 0 ≤ n → off + n ≤ zlen b → is_Some (slice b off n).
Proof. intros. eexists. by apply slice_Some. Qed.

Lemma splice_is_Some b off l :
  0 ≤ off → off + zlen l ≤ zlen b → is_Some (splice b off l).
Proof. intros. eexists. by apply splice_Some. Qed.

Lemma splice_zlen b off l b' : splice b off l = Some b' → zlen b' = zlen b.
Proof.
  intros (? & ? & ->)%splice_Some. unfold zlen in *.
  rewrite !length_app, length_take, length_drop. lia.
Qed.

Lemma slice_bytes_ok b off n l :
  bytes_ok b → slice b off n = Some l → bytes_ok l.
Proof. intros ? (_ & _ & _ & ->)%slice_Some. by apply Forall_take, Forall_drop. Qed.

Lemma splice_bytes_ok b off l b' :
  bytes_ok b → bytes_ok l → splice b off l = Some b' → bytes_ok b'.
Proof.
  intros ? ? (_ & _ & ->)%splice_Some. unfold bytes_ok.
  rewrite !Forall_app. auto using Forall_take, Forall_drop.
Qed.
#[export] Hint Resolve slice_bytes_ok splice_bytes_ok le_to_bytes_ok : kdb.

(** Reading back what was written, and reading elsewhere. *)
Lemma slice_splice_eq b off l b' :
  splice b off l = Some b' → slice b' off (zlen l) = Some l.
Proof.
  intros H. pose proof (splice_zlen _ _ _ _ H).
  apply splice_Some in H as (? & ? & ->). apply slice_Some.
  split_and!; [lia|apply zlen_nonneg|lia|].
  unfold zlen in *. rewrite Nat2Z.id.
  rewrite drop_app_length' by (rewrite length_take; lia).
  by rewrite take_app_length.
Qed.

Lemma lookup_splice b off l b' i :
  splice b off l = Some b' →
  b' !! i = if decide (Z.to_nat off ≤ i < Z.to_nat off + length l)%nat
            then l !! (i - Z.to_nat off)%nat else b !! i.
Proof.
  intros (? & ? & ->)%splice_Some. unfold zlen in *. case_decide.
  - rewrite lookup_app_r by (rewrite length_take; lia).
    rewrite length_take, lookup_app_l by lia. f_equal. lia.
  - destruct (decide (i < Z.to_nat off)%nat).
    + rewrite lookup_app_l by (rewrite length_take; lia).
      by rewrite lookup_take_lt by lia.
    + rewrite lookup_app_r by (rewrite length_take; lia).
      rewrite length_take, lookup_app_r by lia.
      rewrite lookup_drop. f_equal. lia.
Qed.

Lemma slice_splice_ne b off l b' off' n :
  splice b off l = Some b' →
  off' + n ≤ off ∨ off + zlen l ≤ off' →
  slice b' off' n = slice b off' n.
Proof.
  intros H Hd. pose proof (splice_zlen _ _ _ _ H) as Hlen.
  unfold slice. rewrite Hlen. case_if; [|done]. f_equal. bool_prop.
  apply list_eq. intros i.
  destruct (decide (i < Z.to_nat n)%nat).
  - rewrite !lookup_take_lt, !lookup_drop by lia.
    rewrite (lookup_splice _ _ _ _ _ H).
    apply splice_Some in H as (? & ? & ->). unfold zlen in *.
    case_decide; [lia|done].
  - by rewrite !lookup_take_ge by lia.
Qed.

Lemma ld_st_eq n b off v b' :
  0 ≤ n → st n b off v = Some b' → ld n b' off = Some (v mod 256 ^ n).
Proof.
  intros Hn H. unfold st in H. apply slice_splice_eq in H. unfold ld.
  unfold zlen in H. rewrite length_le_to, Z2Nat.id in H by lia.
  rewrite H. simpl. by rewrite le_of_to, Z2Nat.id by lia.
Qed.

Lemma ld_st_ne n b off v b' n' off' :
  0 ≤ n → st n b off v = Some b' → off' + n' ≤ off ∨ off + n ≤ off' →
  ld n' b' off' = ld n' b off'.
Proof.
  intros Hn H Hd. unfold ld. f_equal. eapply slice_splice_ne; [done|].
  unfold zlen. rewrite length_le_to. lia.
Qed.

(** The same, driven by the store. *)
Lemma ld_st_other {n b off v b'} (E : st n b off v = Some b') n' off' :
  0 ≤ n → off' + n' ≤ off ∨ off + n ≤ off' → ld n' b' off' = ld n' b off'.
Proof. intros. by eapply ld_st_ne. Qed.
Lemma ld_st_same {n b off v b'} (E : st n b off v = Some b') :
  0 ≤ n → 0 ≤ v < 256 ^ n → ld n b' off = Some v.
Proof. intros. rewrite (ld_st_eq _ _ _ _ _ ltac:(eassumption) E). f_equal. by apply Z.mod_small. Qed.

Lemma st_zlen n b off v b' : st n b off v = Some b' → zlen b' = zlen b.
Proof. apply splice_zlen. Qed.

Lemma st_bytes_ok n b off v b' : bytes_ok b → st n b off v = Some b' → bytes_ok b'.
Proof. intros ? H. eapply splice_bytes_ok; [done|apply le_to_bytes_ok|exact H]. Qed.

Lemma ld_range n b off v :
  bytes_ok b → ld n b off = Some v → 0 ≤ v < 256 ^ n.
Proof.
  intros Hb H. unfold ld in H. destruct (slice b off n) as [l|] eqn:E; [|done].
  injection H as <-. rewrite <- (slice_zlen _ _ _ _ E).
  apply le_of_range. eauto with kdb.
Qed.

Lemma ld_is_Some n b off :
  0 ≤ off → 0 ≤ n → off + n ≤ zlen b → is_Some (ld n b off).
Proof.
  intros. destruct (slice_is_Some b off n) as [l Hl]; [done..|].
  exists (le_of l). unfold ld. by rewrite Hl.
Qed.

Lemma st_is_Some n b off v :
  0 ≤ off → 0 ≤ n → off + n ≤ zlen b → is_Some (st n b off v).
Proof.
  intros. apply splice_is_Some; [done|]. unfold zlen at 1. rewrite length_le_to. lia.
Qed.

Lemma ld8_eq b o v : b !! Z.to_nat o = Some v → 0 ≤ o → ld8 b o = Some v.
Proof.
  intros Hv Ho. pose proof (lookup_lt_Some _ _ _ Hv). unfold ld8, ld, slice, zlen.
  rewrite !(proj2 (Z.leb_le _ _)) by lia. cbn [andb fmap option_fmap option_map].
  rewrite (drop_S _ _ _ Hv). change (Z.to_nat 1) with 1%nat. cbn [take le_of]. rewrite take_0.
  cbn [le_of]. f_equal. lia.
Qed.

(** A boolean statement about every byte is decided by evaluation. *)
Definition all_bytes : list Z := seqZ 0 256.

Lemma byte_forall (P : Z → bool) b :
  forallb P all_bytes = true → byte_ok b → P b = true.
Proof.
  intros H Hb. rewrite forallb_forall in H. apply H.
  apply list_elem_of_In, elem_of_seqZ. unfold byte_ok in Hb. lia.
Qed.

(** Whether a concrete list is bytes, by evaluation. *)
Lemma bytes_dec l : forallb (λ b, (0 <=? b) && (b <? 256)) l = true → bytes_ok l.
Proof.
  induction l as [|b l IH]; intros H; [constructor|]. cbn [forallb] in H. bool_prop.
  constructor; [by split|by apply IH].
Qed.

Lemma bytes_ok_concat ls : (∀ l, l ∈ ls → bytes_ok l) → bytes_ok (concat ls).
Proof.
  induction ls as [|l ls IH]; intros Hl; [constructor|]. simpl. apply Forall_app. split.
  - apply Hl. by left.
  - apply IH. intros k Hk. apply Hl. by right.
Qed.
Lemma zeros_bytes n : bytes_ok (zeros n).
Proof. by apply Forall_replicate. Qed.
#[export] Hint Resolve zeros_bytes : kdb.

(** Bit operations on disjoint ranges are sums. *)
Lemma lor_disjoint a b k :
  0 ≤ k → a mod 2 ^ k = 0 → 0 ≤ b < 2 ^ k → Z.lor a b = a + b.
Proof.
  intros Hk Ha Hb. rewrite <- Z.add_lor_land.
  replace (Z.land a b) with 0; [lia|].
  symmetry. apply Z.bits_inj'. intros n Hn. rewrite Z.land_spec, Z.bits_0.
  destruct (decide (n < k)).
  - rewrite <- (Z.mod_pow2_bits_low a k n) by lia. by rewrite Ha, Z.bits_0.
  - rewrite <- (Z.mod_small b (2 ^ k)) by done.
    by rewrite Z.mod_pow2_bits_high, andb_false_r by lia.
Qed.

Lemma shiftl_lor a b k :
  0 ≤ k → 0 ≤ b < 2 ^ k → Z.lor (Z.shiftl a k) b = a * 2 ^ k + b.
Proof.
  intros. rewrite Z.shiftl_mul_pow2 by done. apply (lor_disjoint _ _ k); [done| |done].
  apply Z.mod_mul. apply Z.pow_nonzero; lia.
Qed.

Lemma land_ones_low a k : 0 ≤ k → Z.land a (2 ^ k - 1) = a mod 2 ^ k.
Proof. intros. rewrite <- Z.land_ones by done. by rewrite Z.ones_equiv. Qed.

Lemma lxor_range k a b : 0 ≤ k → 0 ≤ a < 2 ^ k → 0 ≤ b < 2 ^ k → 0 ≤ Z.lxor a b < 2 ^ k.
Proof.
  intros Hk Ha Hb.
  replace (Z.lxor a b) with (Z.lxor a b mod 2 ^ k); [apply Z.mod_pos_bound; lia|].
  apply Z.bits_inj'. intros n Hn. destruct (decide (n < k)).
  - by rewrite Z.mod_pow2_bits_low by lia.
  - rewrite Z.mod_pow2_bits_high, Z.lxor_spec by lia.
    rewrite <- (Z.mod_small a (2 ^ k)), <- (Z.mod_small b (2 ^ k)) by done.
    by rewrite !Z.mod_pow2_bits_high by lia.
Qed.

Lemma land_range k a b : 0 ≤ k → 0 ≤ a < 2 ^ k → 0 ≤ Z.land a b < 2 ^ k.
Proof.
  intros Hk Ha. replace (Z.land a b) with (Z.land a b mod 2 ^ k); [apply Z.mod_pos_bound; lia|].
  rewrite <- (Z.mod_small a (2 ^ k)) at 2 by done. rewrite <- !Z.land_ones by done.
  rewrite <- !Z.land_assoc. f_equal. apply Z.land_comm.
Qed.

(** ** Weakest preconditions

    [wp m Q s]: from [s] the computation [m] returns (no undefined behaviour,
    no divergence) and its result satisfies [Q]. *)
Definition wp {S A} (m : M S A) (Q : A → S → Prop) (s : S) : Prop :=
  ∃ a s', m s = Some (a, s') ∧ Q a s'.

Lemma wp_mono {S A} (m : M S A) (P Q : A → S → Prop) s :
  wp m P s → (∀ a s', P a s' → Q a s') → wp m Q s.
Proof. intros (a & s' & ? & ?) HPQ. exists a, s'. auto. Qed.
Lemma wp_bind {S A B} (m : M S A) (k : A → M S B) Q s :
  wp m (λ a, wp (k a) Q) s → wp (bind m k) Q s.
Proof. intros (a & s' & Hm & b & s'' & Hk & HQ). exists b, s''. by rewrite (bind_eq _ _ _ _ _ Hm). Qed.
Lemma wp_ret {S A} (a : A) (Q : A → S → Prop) s : Q a s → wp (ret a) Q s.
Proof. by exists a, s. Qed.
Lemma wp_gets {S A} (f : S → A) (Q : A → S → Prop) s : Q (f s) s → wp (gets f) Q s.
Proof. by exists (f s), s. Qed.
Lemma wp_get {S} (Q : S → S → Prop) s : Q s s → wp get Q s.
Proof. by exists s, s. Qed.
Lemma wp_modify {S} (f : S → S) (Q : unit → S → Prop) s : Q tt (f s) → wp (modify f) Q s.
Proof. by exists tt, (f s). Qed.
Lemma wp_lift {S A} (o : option A) a (Q : A → S → Prop) s : o = Some a → Q a s → wp (lift o) Q s.
Proof. intros -> ?. by exists a, s. Qed.
Lemma wp_udiv {S} a b (Q : Z → S → Prop) s : b ≠ 0 → Q (a / b) s → wp (udiv a b) Q s.
Proof. intros. exists (a / b), s. by rewrite udiv_eq. Qed.
Lemma wp_umod {S} a b (Q : Z → S → Prop) s : b ≠ 0 → Q (a mod b) s → wp (umod a b) Q s.
Proof. intros. exists (a mod b), s. by rewrite umod_eq. Qed.
(** The callee's specification, then the continuation. *)
Lemma wp_call {S A B} (m : M S A) (k : A → M S B) P Q s :
  wp m P s → (∀ a s', P a s' → wp (k a) Q s') → wp (bind m k) Q s.
Proof. intros. apply wp_bind. by eapply wp_mono. Qed.

(** Invariant rule of [for_]: [I i s] holds before round [i]; a round that
    returns establishes the postcondition. *)
Lemma wp_for {S R} (I : Z → S → Prop) (Q : option R → S → Prop) body n : ∀ i s,
  I i s → (∀ s, I (i + Z.of_nat n) s → Q None s) →
  (∀ j s, i ≤ j < i + Z.of_nat n → I j s →
    wp (body j) (λ r s', match r with Some x => Q (Some x) s' | None => I (j + 1) s' end) s) →
  wp (for_ i n body) Q s.
Proof.
  induction n as [|n IH]; intros i s HI Hend Hbody.
  { apply wp_ret, Hend. by rewrite Z.add_0_r. }
  cbn [for_]. eapply wp_call; [apply Hbody; [lia|done]|]. intros [x|] s' H'; [by apply wp_ret|].
  apply IH; [done| |].
  - intros s'' H''. apply Hend. by replace (i + Z.of_nat (Datatypes.S n)) with (i + 1 + Z.of_nat n) by lia.
  - intros j s'' Hj. apply Hbody. lia.
Qed.

(** Runs the pure steps at the head of a [wp] goal. *)
Ltac wp_pure := repeat first
  [ apply wp_bind, wp_gets | apply wp_bind, wp_modify | apply wp_bind, wp_ret
  | apply wp_bind, wp_get | progress cbv beta zeta ].
(** Uses the specification [E : wp m P s] of the next call. *)
Tactic Notation "wp_apply" uconstr(E) := eapply wp_call; [eapply E|cbv beta].

(** Partial correctness: every outcome of [m] from [s] satisfies [Q]. *)
Definition wlp {S A} (m : M S A) (Q : A → S → Prop) (s : S) : Prop :=
  ∀ a s', m s = Some (a, s') → Q a s'.

Lemma wlp_mono {S A} (m : M S A) (P Q : A → S → Prop) s :
  wlp m P s → (∀ a s', P a s' → Q a s') → wlp m Q s.
Proof. intros Hm HPQ a s' E. by apply HPQ, Hm. Qed.
Lemma wlp_bind {S A B} (m : M S A) (k : A → M S B) Q s :
  wlp m (λ a, wlp (k a) Q) s → wlp (bind m k) Q s.
Proof. intros Hm b s' (a & s1 & E1 & E2)%bind_inv. by eapply Hm. Qed.
Lemma wlp_call {S A B} (m : M S A) (k : A → M S B) P Q s :
  wlp m P s → (∀ a s', P a s' → wlp (k a) Q s') → wlp (bind m k) Q s.
Proof. intros. apply wlp_bind. by eapply wlp_mono. Qed.
Lemma wlp_ret {S A} (a : A) (Q : A → S → Prop) s : Q a s → wlp (ret a) Q s.
Proof. by intros HQ ? ? [= <- <-]. Qed.
Lemma wlp_gets {S A} (f : S → A) (Q : A → S → Prop) s : Q (f s) s → wlp (gets f) Q s.
Proof. by intros HQ ? ? [= <- <-]. Qed.
Lemma wlp_modify {S} (f : S → S) (Q : unit → S → Prop) s : Q tt (f s) → wlp (modify f) Q s.
Proof. by intros HQ ? ? [= <- <-]. Qed.
Lemma wlp_lift {S A} (o : option A) (Q : A → S → Prop) s :
  (∀ a, o = Some a → Q a s) → wlp (lift o) Q s.
Proof. intros HQ a s' E. unfold lift in E. destruct o; [|done]. injection E as <- <-. by apply HQ. Qed.
Lemma wlp_udiv {S} a b (Q : Z → S → Prop) s : (b ≠ 0 → Q (a / b) s) → wlp (udiv a b) Q s.
Proof.
  intros HQ x s' E. unfold udiv in E. destruct (Z.eqb_spec b 0); [done|]. injection E as <- <-. by apply HQ.
Qed.
Lemma wlp_umod {S} a b (Q : Z → S → Prop) s : (b ≠ 0 → Q (a mod b) s) → wlp (umod a b) Q s.
Proof.
  intros HQ x s' E. unfold umod in E. destruct (Z.eqb_spec b 0); [done|]. injection E as <- <-. by apply HQ.
Qed.

(** A computation that always returns, seen from where it returns. *)
Lemma wp_wlp {S A} (m : M S A) Q s : wp m Q s → wlp m Q s.
Proof. intros (a & s1 & E & HQ) b s2. rewrite E. by intros [= <- <-]. Qed.

(** Runs the pure steps at the head of a [wlp] goal. *)
Ltac wlp_pure := repeat first
  [ apply wlp_bind, wlp_gets | apply wlp_bind, wlp_modify | apply wlp_bind, wlp_ret
  | apply wlp_bind, wlp_udiv; intros ? | apply wlp_bind, wlp_umod; intros ?
  | apply wlp_bind, wlp_lift; intros ? ? | progress cbv beta zeta ].
