(* ===== verification/KString.v ===== *)
(** * lib/string.c and lib/udivmod64.c

    C strings are byte buffers scanned up to their NUL; reading past the end
    of the buffer is [None]. The memory routines work on a flat memory (the
    index of a byte is its address) because their loops depend on the
    alignment of the destination address. *)
From S2P Require Import Prelude.

(** ** Strings *)

Fixpoint k_strlen (s : list Z) : option Z :=
  match s with
  | [] => None
  | c :: r => if c =? 0 then Some 0 else n ← k_strlen r; Some (n + 1)
  end.

Fixpoint k_strcmp (a b : list Z) : option Z :=
  match a, b with
  | x :: a', y :: b' =>
      if truthy x && (x =? y) then k_strcmp a' b' else Some (u8 x - u8 y)
  | _, _ => None
  end.

Fixpoint k_strncmp (a b : list Z) (n : nat) : option Z :=
  match n with
  | O => Some 0
  | S n' =>
      match a, b with
      | x :: a', y :: b' =>
          if negb (x =? y) then Some (u8 x - u8 y)
          else if x =? 0 then Some 0
          else k_strncmp a' b' n'
      | _, _ => None
      end
  end.

(** The new contents of [dst]. *)
Fixpoint k_strcpy (dst src : list Z) : option (list Z) :=
  match dst, src with
  | _ :: d', c :: s' =>
      if c =? 0 then Some (0 :: d') else r ← k_strcpy d' s'; Some (c :: r)
  | _, _ => None
  end.

(** [Some None] is the NULL result, [Some (Some i)] a pointer to [s + i]. *)
Fixpoint k_strchr_from (i : Z) (s : list Z) (c : Z) : option (option Z) :=
  match s with
  | [] => None
  | x :: r =>
      if x =? 0 then Some (if c =? 0 then Some i else None)
      else if x =? u8 c then Some (Some i)
      else k_strchr_from (i + 1) r c
  end.
Definition k_strchr (s : list Z) (c : Z) : option (option Z) := k_strchr_from 0 s c.

Fixpoint k_strstr_from (i : Z) (hay needle : list Z) (nl : nat) : option (option Z) :=
  match hay with
  | [] => None
  | x :: r =>
      if x =? 0 then Some None
      else
        c ← k_strncmp hay needle nl;
        if c =? 0 then Some (Some i) else k_strstr_from (i + 1) r needle nl
  end.
Definition k_strstr (hay needle : list Z) : option (option Z) :=
  nl ← k_strlen needle; k_strstr_from 0 hay needle (Z.to_nat nl).

(** [k_itoa64]: the digits go to [tmp] least significant first; [tmp] has
    room for 70 of them, which 64 rounds of the loop never exceed. *)
Definition itoa_digit (d : Z) : Z := if d <? 10 then 48 + d else 97 + (d - 10).

Fixpoint itoa_loop (fuel : nat) (val base : Z) : list Z :=
  match fuel with
  | O => []
  | S f => if val =? 0 then [] else itoa_digit (val mod base) :: itoa_loop f (val / base) base
  end.

(** The bytes stored to [out], NUL included. *)
Definition k_itoa64 (val base : Z) : list Z :=
  let base := if (base <? 2) || (36 <? base) then 10 else base in
  if val =? 0 then [48; 0] else rev (itoa_loop 64 val base) ++ [0].

(** [k_atoi] accumulates in an [int]; overflow is undefined behaviour. *)
Definition int_ok (z : Z) : option Z :=
  if (-2147483648 <=? z) && (z <=? 2147483647) then Some z else None.

Fixpoint atoi_loop (n : Z) (s : list Z) : option Z :=
  match s with
  | [] => None
  | c :: r =>
      if c =? 0 then Some n
      else if (c <? 48) || (57 <? c) then Some n
      else n' ← int_ok (n * 10 + (c - 48)); atoi_loop n' r
  end.

Definition k_atoi (s : list Z) : option Z :=
  match s with
  | c :: r => if c =? 45 then n ← atoi_loop 0 r; Some (- n) else atoi_loop 0 s
  | [] => None
  end.

(** The new contents of [dst]: at most [n] bytes copied, the rest zeroed. *)
Fixpoint k_strncpy (dst src : list Z) (n : nat) : option (list Z) :=
  match n with
  | O => Some dst
  | S n' =>
      match src, dst with
      | c :: s', _ :: d' =>
          if c =? 0
          then splice dst 0 (replicate n 0)
          else r ← k_strncpy d' s' n'; Some (c :: r)
      | _, _ => None
      end
  end.

(** ** Memory routines *)

(** One access of [k] bytes: load at [s], store at [d]. *)
Definition move (k : Z) (mem : list Z) (d s : Z) : option (list Z) :=
  l ← slice mem s k; splice mem d l.

(** [while (((uintptr_t)d & 3) && n)]: bytes up to the next word boundary. *)
Fixpoint memcpy_head (n : nat) (mem : list Z) (d s : Z) : option (nat * list Z * Z * Z) :=
  match n with
  | O => Some (O, mem, d, s)
  | S n' =>
      if Z.land d 3 =? 0 then Some (n, mem, d, s)
      else mem' ← move 1 mem d s; memcpy_head n' mem' (d + 1) (s + 1)
  end.

(** [while (n >= 4)]: one [u32] at a time. *)
Fixpoint memcpy_words (n : nat) (mem : list Z) (d s : Z) : option (nat * list Z * Z * Z) :=
  match n with
  | S (S (S (S n'))) =>
      mem' ← move 4 mem d s; memcpy_words n' mem' (d + 4) (s + 4)
  | _ => Some (n, mem, d, s)
  end.

(** [while (n--)]: the remaining bytes. *)
Fixpoint memcpy_tail (n : nat) (mem : list Z) (d s : Z) : option (list Z) :=
  match n with
  | O => Some mem
  | S n' => mem' ← move 1 mem d s; memcpy_tail n' mem' (d + 1) (s + 1)
  end.

Definition memcpy (mem : list Z) (dst src : Z) (n : nat) : option (list Z) :=
  '(n1, mem1, d1, s1) ← memcpy_head n mem dst src;
  '(n2, mem2, d2, s2) ← memcpy_words n1 mem1 d1 s1;
  memcpy_tail n2 mem2 d2 s2.

(** The descending loop of [memmove]: [while (n--) *--d = *--s]. *)
Fixpoint memmove_down (n : nat) (mem : list Z) (d s : Z) : option (list Z) :=
  match n with
  | O => Some mem
  | S n' => mem' ← move 1 mem (d - 1) (s - 1); memmove_down n' mem' (d - 1) (s - 1)
  end.

Definition memmove (mem : list Z) (dst src : Z) (n : nat) : option (list Z) :=
  if (dst =? src) || (Z.of_nat n =? 0) then Some mem
  else if dst <? src then memcpy_tail n mem dst src
  else memmove_down n mem (dst + Z.of_nat n) (src + Z.of_nat n).

Fixpoint memset_head (n : nat) (mem : list Z) (d v : Z) : option (nat * list Z * Z) :=
  match n with
  | O => Some (O, mem, d)
  | S n' =>
      if Z.land d 3 =? 0 then Some (n, mem, d)
      else mem' ← splice mem d [v]; memset_head n' mem' (d + 1) v
  end.

Fixpoint memset_words (n : nat) (mem : list Z) (d vw : Z) : option (nat * list Z * Z) :=
  match n with
  | S (S (S (S n'))) => mem' ← st32 mem d vw; memset_words n' mem' (d + 4) vw
  | _ => Some (n, mem, d)
  end.

Fixpoint memset_tail (n : nat) (mem : list Z) (d v : Z) : option (list Z) :=
  match n with
  | O => Some mem
  | S n' => mem' ← splice mem d [v]; memset_tail n' mem' (d + 1) v
  end.

Definition memset (mem : list Z) (dst val : Z) (n : nat) : option (list Z) :=
  let v := u8 val in
  let vw := u32 (Z.lor (Z.lor (Z.lor v (Z.shiftl v 8)) (Z.shiftl v 16)) (Z.shiftl v 24)) in
  '(n1, mem1, d1) ← memset_head n mem dst v;
  '(n2, mem2, d2) ← memset_words n1 mem1 d1 vw;
  memset_tail n2 mem2 d2 v.

(** [memcmp], [bcmp] and their common loop [mem_cmp]. *)
Fixpoint mem_cmp (a b : list Z) (n : nat) : option Z :=
  match n with
  | O => Some 0
  | S n' =>
      match a, b with
      | x :: a', y :: b' => if negb (x =? y) then Some (x - y) else mem_cmp a' b' n'
      | _, _ => None
      end
  end.
Definition memcmp := mem_cmp.
Definition bcmp := mem_cmp.

(** ** 64-bit division (lib/udivmod64.c) *)

(** The loop body for bit [i], from the state [(quot, rem)]. *)
Definition udivmod_step (num den : Z) (i : nat) (qr : Z * Z) : Z * Z :=
  let '(quot, rem) := qr in
  let rem := u64 (Z.lor (Z.shiftl rem 1) (Z.land (Z.shiftr num (Z.of_nat i)) 1)) in
  if den <=? rem
  then (Z.lor quot (u64 (Z.shiftl 1 (Z.of_nat i))), rem - den)
  else (quot, rem).

(** [for (i = n - 1; i >= 0; i--)]. *)
Fixpoint udivmod_loop (n : nat) (num den : Z) (qr : Z * Z) : Z * Z :=
  match n with
  | O => qr
  | S i => udivmod_loop i num den (udivmod_step num den i qr)
  end.

(** The quotient and [*rem_out]. *)
Definition udivmoddi4 (num den : Z) : Z * Z :=
  if den =? 0 then (0, 0) else udivmod_loop 64 num den (0, 0).

(** ** Lemmas *)

(** A buffer that holds the C string [s]: its bytes, then a NUL. *)
Definition nonul (s : list Z) : Prop := Forall (λ c, c ≠ 0 ∧ byte_ok c) s.
Definition cstr (b s : list Z) : Prop := nonul s ∧ ∃ rest, b = s ++ 0 :: rest.

Lemma k_strlen_cstr b s : cstr b s → k_strlen b = Some (zlen s).
Proof.
  intros [Hs [rest ->]]. induction Hs as [|c s [Hc _] _ IH]; [done|].
  simpl. rewrite (proj2 (Z.eqb_neq c 0) Hc), IH. simpl. f_equal.
  rewrite zlen_cons. lia.
Qed.

(** *** String comparison *)

Lemma k_strcmp_cons x s t : k_strcmp (x :: s) (x :: t) =
  if truthy x then k_strcmp s t else Some 0.
Proof.
  simpl. rewrite Z.eqb_refl, andb_true_r. destruct (truthy x); [done|].
  by rewrite Z.sub_diag.
Qed.

Lemma truthy_true z : z ≠ 0 → truthy z = true.
Proof. intros. unfold truthy. by rewrite (proj2 (Z.eqb_neq z 0)). Qed.

(** The result is the difference of the first differing bytes, so it is zero
    exactly on equal strings. *)
Lemma k_strcmp_total s t ra rb :
  nonul s → nonul t →
  ∃ r, k_strcmp (s ++ 0 :: ra) (t ++ 0 :: rb) = Some r ∧ (r = 0 ↔ s = t).
Proof.
  intros Hs. revert t. induction Hs as [|x s [Hx Hxb] Hs IH]; intros t Ht.
  - destruct Ht as [|y t [Hy Hyb] _]; simpl; eexists; (split; [done|]); [done|].
    unfold byte_ok in Hyb. rewrite (u8_small y) by lia. change (u8 0) with 0.
    split; [lia|done].
  - destruct Ht as [|y t [Hy Hyb] Ht].
    + exists (u8 x). unfold byte_ok in Hxb.
      simpl. rewrite (truthy_true x) by done.
      rewrite (proj2 (Z.eqb_neq x 0)) by done. simpl.
      change (u8 0) with 0. rewrite Z.sub_0_r, (u8_small x) by lia. done.
    + destruct (decide (x = y)) as [->|Hne].
      * destruct (IH t Ht) as (r & Hr & Hiff). exists r. simpl app.
        rewrite k_strcmp_cons, (truthy_true y) by done. split; [done|].
        rewrite Hiff. split; [by intros ->|by intros [= ->]].
      * unfold byte_ok in *. simpl. rewrite (proj2 (Z.eqb_neq x y)) by done.
        rewrite andb_false_r. eexists; split; [done|].
        rewrite !u8_small by lia. split; [lia|congruence].
Qed.

(** [k_strncmp] compares the strings with their NULs, up to [n] bytes. *)
Lemma k_strncmp_total s t ra rb n :
  nonul s → nonul t →
  ∃ r, k_strncmp (s ++ 0 :: ra) (t ++ 0 :: rb) n = Some r ∧ (r = 0 ↔ take n (s ++ [0]) = take n (t ++ [0])).
Proof.
  intros Hs. revert t n. induction Hs as [|x s [Hx Hxb] Hs IH]; intros t n Ht;
    (destruct n as [|n]; [exists 0; by destruct t|]).
  - destruct Ht as [|y t [Hy Hyb] _]; cbn [app k_strncmp take].
    + exists 0. split; [done|]. by rewrite !take_nil.
    + rewrite (proj2 (Z.eqb_neq 0 y)) by done. cbn [negb]. eexists. split; [done|].
      unfold byte_ok in Hyb. rewrite (u8_small y) by lia. change (u8 0) with 0. split; [lia|congruence].
  - unfold byte_ok in Hxb. destruct Ht as [|y t [Hy Hyb] Ht]; cbn [app k_strncmp take].
    + rewrite (proj2 (Z.eqb_neq x 0)) by done. cbn [negb]. eexists. split; [done|].
      rewrite (u8_small x) by lia. change (u8 0) with 0. split; [lia|congruence].
    + destruct (Z.eqb_spec x y) as [<-|Hne]; cbn [negb].
      * rewrite (proj2 (Z.eqb_neq x 0)) by done. destruct (IH t n Ht) as (r & Er & Hr).
        exists r. split; [done|]. rewrite Hr. split; [by intros ->|by intros [= ->]].
      * unfold byte_ok in Hyb. eexists. split; [done|]. rewrite !u8_small by lia. split; [lia|congruence].
Qed.

(** Comparing the first [n] bytes with a pattern that has no NUL among them. *)
Lemma k_strncmp_prefix n : ∀ a b, (n ≤ length a)%nat → (n ≤ length b)%nat → bytes_ok a → nonul (take n b) →
  ∃ r, k_strncmp a b n = Some r ∧ (r = 0 ↔ take n a = take n b).
Proof.
  induction n as [|n IH]; intros a b Ha Hb Hba Hbb; [exists 0; by destruct a, b|].
  destruct a as [|x a], b as [|y b]; cbn [length] in *; try lia. cbn [take] in Hbb.
  inversion_clear Hbb as [|? ? [Hy Hyb] Hbb']. inversion_clear Hba as [|? ? Hx Hba'].
  cbn [k_strncmp take]. destruct (Z.eqb_spec x y) as [<-|Hne]; cbn [negb].
  - rewrite (proj2 (Z.eqb_neq x 0)) by done. destruct (IH a b) as (r & Er & Hr); [lia|lia|done..|].
    exists r. split; [done|]. rewrite Hr. split; [by intros ->|by intros [= ->]].
  - eexists. split; [done|]. unfold byte_ok in *. rewrite !u8_small by lia. split; [lia|congruence].
Qed.

(** [k_strncpy] into a buffer with room for [n] bytes. *)
Lemma k_strncpy_fills dst s rest n :
  nonul s → Z.of_nat n ≤ zlen dst →
  k_strncpy dst (s ++ 0 :: rest) n = Some (take n (s ++ replicate n 0) ++ drop n dst).
Proof.
  intros Hs. revert dst n. induction Hs as [|c s [Hc _] _ IH]; intros dst n Hn;
    (destruct n as [|n]; [by rewrite ?take_0, drop_0; destruct dst|]);
    (destruct dst as [|d dst]; [rewrite zlen_nil in Hn; lia|]).
  - cbn [app k_strncpy]. rewrite Z.eqb_refl. apply splice_Some. unfold zlen in *.
    rewrite length_replicate. split; [lia|]. split; [cbn [length] in *; lia|].
    rewrite firstn_all2 by (rewrite length_replicate; lia). reflexivity.
  - cbn [app k_strncpy]. rewrite (proj2 (Z.eqb_neq c 0)) by done. rewrite zlen_cons in Hn.
    rewrite IH by lia. cbn [mbind option_bind take drop app]. f_equal. f_equal. f_equal.
    rewrite replicate_S_end, app_assoc. symmetry. apply take_app_le. rewrite length_app, length_replicate. lia.
Qed.

(** *** Copying memory *)

(** [move] on a range is well defined inside the memory. *)
Lemma move_Some k mem d s mem' :
  move k mem d s = Some mem' ↔
  ∃ l, slice mem s k = Some l ∧ splice mem d l = Some mem'.
Proof.
  unfold move. destruct (slice mem s k) as [l|] eqn:E; simpl.
  - split; [eauto|]. by intros (? & [= <-] & ?).
  - split; [done|]. by intros (? & ? & ?).
Qed.

Lemma move_is_Some k mem d s :
  0 ≤ k → 0 ≤ d → 0 ≤ s → d + k ≤ zlen mem → s + k ≤ zlen mem →
  is_Some (move k mem d s).
Proof.
  intros. destruct (slice_is_Some mem s k) as [l Hl]; [done..|].
  destruct (splice_is_Some mem d l) as [m Hm]; [done| |].
  { by rewrite (slice_zlen _ _ _ _ Hl). }
  exists m. apply move_Some. eauto.
Qed.

Lemma lookup_move k mem d s mem' i :
  move k mem d s = Some mem' →
  mem' !! i = if decide (Z.to_nat d ≤ i < Z.to_nat d + Z.to_nat k)%nat
              then mem !! (i - Z.to_nat d + Z.to_nat s)%nat else mem !! i.
Proof.
  intros (l & Hl & Hm)%move_Some. rewrite (lookup_splice _ _ _ _ _ Hm).
  pose proof (slice_zlen _ _ _ _ Hl) as Hk.
  apply slice_Some in Hl as (? & ? & ? & ->).
  replace (length (take (Z.to_nat k) (drop (Z.to_nat s) mem))) with (Z.to_nat k)
    by (unfold zlen in Hk; lia).
  case_decide; [|done].
  rewrite lookup_take_lt, lookup_drop by lia. f_equal. lia.
Qed.

Lemma move_zlen k mem d s mem' : move k mem d s = Some mem' → zlen mem' = zlen mem.
Proof. intros (l & _ & H)%move_Some. by eapply splice_zlen. Qed.

(** Copying [k] bytes forward and then the rest is one copy, provided the
    destination starts below the source or the ranges do not meet. *)
Lemma move_forward k n mem d s mem1 :
  0 ≤ k → 0 ≤ n → 0 ≤ d → 0 ≤ s → d + (k + n) ≤ zlen mem → s + (k + n) ≤ zlen mem →
  d ≤ s ∨ s + (k + n) ≤ d →
  move k mem d s = Some mem1 →
  move n mem1 (d + k) (s + k) = move (k + n) mem d s.
Proof.
  intros Hk Hn Hd Hs Hd' Hs' Hov H1.
  pose proof (move_zlen _ _ _ _ _ H1) as Hlen.
  destruct (move_is_Some n mem1 (d + k) (s + k)) as [m2 H2]; [lia..|].
  destruct (move_is_Some (k + n) mem d s) as [m3 H3]; [lia..|].
  rewrite H2, H3. f_equal. apply list_eq. intros i.
  rewrite (lookup_move _ _ _ _ _ _ H2), (lookup_move _ _ _ _ _ _ H3),
    !(lookup_move _ _ _ _ _ _ H1).
  repeat case_decide; try lia; try done; f_equal; lia.
Qed.

(** Likewise backward, when the destination is above the source. *)
Lemma move_backward k n mem d s mem1 :
  0 ≤ k → 0 ≤ n → 0 ≤ d → 0 ≤ s → d + (n + k) ≤ zlen mem → s + (n + k) ≤ zlen mem →
  s ≤ d →
  move k mem (d + n) (s + n) = Some mem1 →
  move n mem1 d s = move (n + k) mem d s.
Proof.
  intros Hk Hn Hd Hs Hd' Hs' Hov H1.
  pose proof (move_zlen _ _ _ _ _ H1) as Hlen.
  destruct (move_is_Some n mem1 d s) as [m2 H2]; [lia..|].
  destruct (move_is_Some (n + k) mem d s) as [m3 H3]; [lia..|].
  rewrite H2, H3. f_equal. apply list_eq. intros i.
  rewrite (lookup_move _ _ _ _ _ _ H2), (lookup_move _ _ _ _ _ _ H3),
    !(lookup_move _ _ _ _ _ _ H1).
  repeat case_decide; try lia; try done; f_equal; lia.
Qed.

Lemma move_0 mem d s : 0 ≤ d ≤ zlen mem → 0 ≤ s ≤ zlen mem → move 0 mem d s = Some mem.
Proof.
  intros. destruct (move_is_Some 0 mem d s) as [m H1]; [lia..|]. rewrite H1.
  f_equal. apply list_eq. intros i. rewrite (lookup_move _ _ _ _ _ _ H1).
  case_decide; [lia|done].
Qed.

(** The precondition of a forward copy, and its preservation by one step. *)
Definition fwd_ok (n : Z) (mem : list Z) (d s : Z) : Prop :=
  0 ≤ d ∧ 0 ≤ s ∧ d + n ≤ zlen mem ∧ s + n ≤ zlen mem ∧ (d ≤ s ∨ s + n ≤ d).

Lemma fwd_ok_step k n mem d s :
  0 ≤ k → 0 ≤ n → fwd_ok (k + n) mem d s →
  ∃ mem1, move k mem d s = Some mem1 ∧ fwd_ok n mem1 (d + k) (s + k) ∧
          move n mem1 (d + k) (s + k) = move (k + n) mem d s.
Proof.
  intros Hk Hn (? & ? & ? & ? & ?).
  destruct (move_is_Some k mem d s) as [m1 Hm]; [lia..|].
  exists m1. split_and!; [done| |by eapply move_forward].
  unfold fwd_ok. rewrite (move_zlen _ _ _ _ _ Hm). lia.
Qed.

Lemma memcpy_tail_move n mem d s :
  fwd_ok (Z.of_nat n) mem d s → memcpy_tail n mem d s = move (Z.of_nat n) mem d s.
Proof.
  revert mem d s. induction n as [|n IH]; intros mem d s Hok.
  { destruct Hok as (? & ? & ? & ? & _). rewrite move_0; [done|lia..]. }
  rewrite Nat2Z.inj_succ, <- Z.add_1_l in *.
  destruct (fwd_ok_step 1 (Z.of_nat n) mem d s) as (m1 & H1 & Hok1 & Heq); [lia..|done|].
  simpl. rewrite H1. simpl. by rewrite IH.
Qed.

Lemma memcpy_words_move n mem d s :
  fwd_ok (Z.of_nat n) mem d s →
  ∃ m mem1 d1 s1, memcpy_words n mem d s = Some (m, mem1, d1, s1) ∧
    fwd_ok (Z.of_nat m) mem1 d1 s1 ∧
    move (Z.of_nat m) mem1 d1 s1 = move (Z.of_nat n) mem d s.
Proof.
  revert mem d s. induction n as [n IH] using lt_wf_ind. intros mem d s Hok.
  destruct n as [|[|[|[|n]]]]; try (by do 4 eexists).
  replace (Z.of_nat (S (S (S (S n))))) with (4 + Z.of_nat n) in * by lia.
  destruct (fwd_ok_step 4 (Z.of_nat n) mem d s) as (m1 & H1 & Hok1 & Heq); [lia..|done|].
  destruct (IH n ltac:(lia) _ _ _ Hok1) as (m & mem2 & d2 & s2 & H2 & Hok2 & Heq2).
  exists m, mem2, d2, s2. split_and!; [|done|by rewrite Heq2].
  simpl. rewrite H1. simpl. exact H2.
Qed.

Lemma memcpy_head_move n mem d s :
  fwd_ok (Z.of_nat n) mem d s →
  ∃ m mem1 d1 s1, memcpy_head n mem d s = Some (m, mem1, d1, s1) ∧
    fwd_ok (Z.of_nat m) mem1 d1 s1 ∧
    move (Z.of_nat m) mem1 d1 s1 = move (Z.of_nat n) mem d s.
Proof.
  revert mem d s. induction n as [|n IH]; intros mem d s Hok; [by do 4 eexists|].
  simpl. case_if; [by do 4 eexists|].
  rewrite Nat2Z.inj_succ, <- Z.add_1_l in *.
  destruct (fwd_ok_step 1 (Z.of_nat n) mem d s) as (m1 & H1 & Hok1 & Heq); [lia..|done|].
  destruct (IH _ _ _ Hok1) as (m & mem2 & d2 & s2 & H2 & Hok2 & Heq2).
  exists m, mem2, d2, s2. rewrite H1. split_and!; [exact H2|done|by rewrite Heq2].
Qed.

Lemma memcpy_move n mem d s :
  fwd_ok (Z.of_nat n) mem d s → memcpy mem d s n = move (Z.of_nat n) mem d s.
Proof.
  intros Hok. unfold memcpy.
  destruct (memcpy_head_move _ _ _ _ Hok) as (n1 & m1 & d1 & s1 & H1 & Hok1 & E1).
  rewrite H1. simpl.
  destruct (memcpy_words_move _ _ _ _ Hok1) as (n2 & m2 & d2 & s2 & H2 & Hok2 & E2).
  rewrite H2. simpl. rewrite memcpy_tail_move by done. congruence.
Qed.

Lemma memmove_down_move n mem d s :
  0 ≤ s → s ≤ d → d + Z.of_nat n ≤ zlen mem →
  memmove_down n mem (d + Z.of_nat n) (s + Z.of_nat n) = move (Z.of_nat n) mem d s.
Proof.
  revert mem. induction n as [|n IH]; intros mem Hs Hsd Hlen.
  { rewrite move_0; [done|lia..]. }
  simpl memmove_down.
  replace (d + Z.of_nat (S n) - 1) with (d + Z.of_nat n) by lia.
  replace (s + Z.of_nat (S n) - 1) with (s + Z.of_nat n) by lia.
  destruct (move_is_Some 1 mem (d + Z.of_nat n) (s + Z.of_nat n)) as [m1 H1]; [lia..|].
  rewrite H1. simpl. rewrite IH by (rewrite ?(move_zlen _ _ _ _ _ H1); lia).
  replace (Z.of_nat (S n)) with (Z.of_nat n + 1) by lia.
  by eapply move_backward; try lia.
Qed.

(** *** Filling memory *)

Definition fill (mem : list Z) (d v : Z) (n : nat) : option (list Z) :=
  splice mem d (replicate n v).

Lemma fill_step k n mem d v mem1 :
  0 ≤ d → d + Z.of_nat (k + n) ≤ zlen mem →
  fill mem d v k = Some mem1 →
  fill mem1 (d + Z.of_nat k) v n = fill mem d v (k + n).
Proof.
  intros Hd Hlen H1. pose proof (splice_zlen _ _ _ _ H1) as Hl.
  destruct (splice_is_Some mem1 (d + Z.of_nat k) (replicate n v)) as [m2 H2];
    [lia|rewrite zlen_replicate; lia|].
  destruct (splice_is_Some mem d (replicate (k + n) v)) as [m3 H3];
    [lia|rewrite zlen_replicate; lia|].
  unfold fill in *. rewrite H2, H3. f_equal. apply list_eq. intros i.
  rewrite (lookup_splice _ _ _ _ _ H2), (lookup_splice _ _ _ _ _ H3),
    (lookup_splice _ _ _ _ _ H1), !length_replicate.
  repeat case_decide; try lia; try done; rewrite !lookup_replicate_2 by lia; done.
Qed.

Lemma fill_is_Some mem d v n :
  0 ≤ d → d + Z.of_nat n ≤ zlen mem → is_Some (fill mem d v n).
Proof. intros. apply splice_is_Some; [done|]. by rewrite zlen_replicate. Qed.

Lemma memset_tail_fill n mem d v :
  0 ≤ d → d + Z.of_nat n ≤ zlen mem → memset_tail n mem d v = fill mem d v n.
Proof.
  revert mem d. induction n as [|n IH]; intros mem d Hd Hlen.
  { destruct (fill_is_Some mem d v 0) as [m Hm]; [done..|]. rewrite Hm.
    apply splice_Some in Hm as (_ & _ & ->). simpl.
    by rewrite Nat.add_0_r, take_drop. }
  simpl. destruct (fill_is_Some mem d v 1) as [m1 Hm1]; [lia..|].
  pose proof (splice_zlen _ _ _ _ Hm1). change [v] with (replicate 1 v).
  unfold fill in Hm1 at 1. rewrite Hm1. simpl.
  rewrite IH by lia. by apply (fill_step 1 n).
Qed.

Lemma memset_head_fill n mem d v :
  0 ≤ d → d + Z.of_nat n ≤ zlen mem →
  ∃ m mem1 d1, memset_head n mem d v = Some (m, mem1, d1) ∧
    0 ≤ d1 ∧ d1 + Z.of_nat m ≤ zlen mem1 ∧ fill mem1 d1 v m = fill mem d v n.
Proof.
  revert mem d. induction n as [|n IH]; intros mem d Hd Hlen; [by do 3 eexists|].
  simpl. case_if; [by do 3 eexists|].
  destruct (fill_is_Some mem d v 1) as [m1 Hm1]; [lia..|].
  pose proof (splice_zlen _ _ _ _ Hm1).
  destruct (IH m1 (d + 1)) as (m & mem2 & d2 & H2 & ? & ? & Heq); [lia..|].
  exists m, mem2, d2. change [v] with (replicate 1 v). unfold fill in Hm1 at 1.
  rewrite Hm1. split_and!; [exact H2|done..|].
  rewrite Heq. by apply (fill_step 1 n).
Qed.

(** The word pattern built from a byte is that byte four times. *)
Definition byte_word (v : Z) : Z :=
  u32 (Z.lor (Z.lor (Z.lor v (Z.shiftl v 8)) (Z.shiftl v 16)) (Z.shiftl v 24)).

Lemma byte_word_bytes v : 0 ≤ v < 256 → le_to 4 (byte_word v) = replicate 4 v.
Proof.
  intros Hv. pose (P := λ v, bool_decide (le_to 4 (byte_word v) = replicate 4 v)).
  assert (HP : P v = true) by (apply byte_forall; [vm_compute; reflexivity|done]).
  by apply bool_decide_eq_true in HP.
Qed.

Lemma memset_words_fill n mem d v :
  0 ≤ v < 256 → 0 ≤ d → d + Z.of_nat n ≤ zlen mem →
  ∃ m mem1 d1, memset_words n mem d (byte_word v) = Some (m, mem1, d1) ∧
    0 ≤ d1 ∧ d1 + Z.of_nat m ≤ zlen mem1 ∧ fill mem1 d1 v m = fill mem d v n.
Proof.
  intros Hv. revert mem d. induction n as [n IH] using lt_wf_ind. intros mem d Hd Hlen.
  destruct n as [|[|[|[|n]]]]; try (by do 3 eexists).
  destruct (fill_is_Some mem d v 4) as [m1 Hm1]; [lia..|].
  pose proof (splice_zlen _ _ _ _ Hm1).
  destruct (IH n ltac:(lia) m1 (d + 4)) as (m & mem2 & d2 & H2 & ? & ? & Heq); [lia..|].
  exists m, mem2, d2. split_and!; [|done..|].
  - cbn [memset_words]. unfold st32, st. change (Z.to_nat 4) with 4%nat.
    rewrite byte_word_bytes by done. unfold fill in Hm1. by rewrite Hm1.
  - rewrite Heq. by apply (fill_step 4 n).
Qed.

Lemma memset_fill n mem d val :
  0 ≤ d → d + Z.of_nat n ≤ zlen mem → memset mem d val n = fill mem d (u8 val) n.
Proof.
  intros Hd Hlen. unfold memset. pose proof (u8_range val) as Hv.
  destruct (memset_head_fill n mem d (u8 val)) as (n1 & m1 & d1 & H1 & ? & ? & E1); [done..|].
  rewrite H1. simpl.
  destruct (memset_words_fill n1 m1 d1 (u8 val)) as (n2 & m2 & d2 & H2 & ? & ? & E2);
    [done..|].
  fold (byte_word (u8 val)). rewrite H2. simpl.
  rewrite memset_tail_fill by done. congruence.
Qed.

(** *** Decimal conversion *)

(** The digits of [itoa_loop], most significant first, read back by
    [atoi_loop] from any accumulator. *)
Lemma atoi_loop_digits fuel v acc rest :
  0 ≤ v < 10 ^ Z.of_nat fuel → 0 ≤ acc →
  acc * 10 ^ zlen (itoa_loop fuel v 10) + v ≤ 2147483647 →
  atoi_loop acc (rev (itoa_loop fuel v 10) ++ rest) =
  atoi_loop (acc * 10 ^ zlen (itoa_loop fuel v 10) + v) rest.
Proof.
  revert v rest. induction fuel as [|f IH]; intros v rest Hv Hacc Hb.
  { simpl in *. rewrite zlen_nil. f_equal. lia. }
  cbn [itoa_loop] in *. destruct (Z.eqb_spec v 0) as [->|Hv0].
  { simpl. rewrite zlen_nil. f_equal. lia. }
  rewrite zlen_cons in *. simpl rev. rewrite <- app_assoc.
  rewrite Z.pow_add_r, Z.pow_1_r in * by (try lia; apply zlen_nonneg).
  assert (Hdm := Z.div_mod v 10 ltac:(lia)).
  assert (Hr := Z.mod_pos_bound v 10 ltac:(lia)).
  assert (0 ≤ acc * 10 ^ zlen (itoa_loop f (v / 10) 10)).
  { apply Z.mul_nonneg_nonneg; [done|]. apply Z.pow_nonneg. lia. }
  assert (0 ≤ v / 10) by (apply Z.div_pos; lia).
  rewrite IH; [| |done|].
  2: { rewrite Nat2Z.inj_succ, Z.pow_succ_r in Hv by lia. split; [done|].
       apply Z.div_lt_upper_bound; lia. }
  2: lia.
  simpl. unfold itoa_digit. rewrite (proj2 (Z.ltb_lt _ _)) by lia.
  rewrite (proj2 (Z.eqb_neq _ _)) by lia.
  rewrite (proj2 (Z.ltb_ge _ 48)), (proj2 (Z.ltb_ge 57 _)) by lia. simpl.
  unfold int_ok. rewrite (proj2 (Z.leb_le (-2147483648) _)) by lia.
  rewrite (proj2 (Z.leb_le _ 2147483647)) by lia. simpl. f_equal. lia.
Qed.

Lemma itoa_loop_head fuel v l :
  itoa_loop fuel v 10 = l → Forall (λ c, 48 ≤ c ≤ 57) l.
Proof.
  intros <-. revert v. induction fuel as [|f IH]; intros v; simpl; [done|].
  destruct (Z.eqb_spec v 0); [done|]. constructor; [|done].
  assert (Hr := Z.mod_pos_bound v 10 ltac:(lia)). unfold itoa_digit.
  rewrite (proj2 (Z.ltb_lt _ _)) by lia. lia.
Qed.

(** *** Shift-subtract division *)

Lemma lor_high_bit q i : 0 ≤ i → q mod 2 ^ (i + 1) = 0 → Z.lor q (2 ^ i) = q + 2 ^ i.
Proof.
  intros. apply (lor_disjoint _ _ (i + 1)); [lia|done|].
  split; [apply Z.pow_nonneg; lia|]. apply Z.pow_lt_mono_r; lia.
Qed.

(** After the bits above [n] the loop holds the quotient and remainder of
    [num >> n], the quotient scaled by [2^n]. *)
Lemma udivmod_loop_spec n num den :
  0 ≤ num < 2 ^ 64 → 0 < den < 2 ^ 64 → (n ≤ 64)%nat →
  udivmod_loop n num den
    (num / 2 ^ Z.of_nat n / den * 2 ^ Z.of_nat n, (num / 2 ^ Z.of_nat n) mod den) =
  (num / den, num mod den).
Proof.
  intros Hnum Hden. induction n as [|i IH]; intros Hn.
  { simpl. by rewrite Z.div_1_r, Z.mul_1_r. }
  rewrite <- IH by lia. cbn [udivmod_loop]. f_equal.
  set (p := 2 ^ Z.of_nat i). assert (Hp : 0 < p) by (apply Z.pow_pos_nonneg; lia).
  rewrite Nat2Z.inj_succ, Z.pow_succ_r by lia. fold p.
  set (m := num / p).
  assert (Hm2 : num / (2 * p) = m / 2).
  { unfold m. rewrite Z.div_div by lia. f_equal. lia. }
  rewrite Hm2. unfold udivmod_step.
  assert (Hbit : Z.land (Z.shiftr num (Z.of_nat i)) 1 = m mod 2).
  { rewrite Z.shiftr_div_pow2 by lia. fold p. fold m.
    change 1 with (Z.ones 1). by rewrite Z.land_ones by lia. }
  rewrite Hbit. assert (Hm0 := Z.mod_pos_bound m 2 ltac:(lia)).
  rewrite shiftl_lor, Z.pow_1_r by lia.
  set (h := m / 2). assert (Hmh : m = 2 * h + m mod 2) by (apply Z.div_mod; lia).
  assert (Hq := Z.div_mod h den ltac:(lia)).
  assert (Hr := Z.mod_pos_bound h den ltac:(lia)).
  set (q := h / den) in *. set (r := h mod den) in *.
  assert (Hmpos : 0 ≤ m) by (apply Z.div_pos; lia).
  assert (Hmle : m ≤ num) by (apply Z.div_le_upper_bound; nia).
  assert (Hq0 : 0 ≤ q) by (apply Z.div_pos; [apply Z.div_pos|]; lia).
  assert (Hrle : r * 2 + m mod 2 ≤ m) by nia.
  rewrite u64_small by lia.
  assert (Hpow : u64 (Z.shiftl 1 (Z.of_nat i)) = p).
  { rewrite Z.shiftl_1_l. fold p. apply u64_small. split; [lia|].
    unfold p. apply (Z.pow_lt_mono_r 2 (Z.of_nat i) 64); lia. }
  case_if; bool_prop.
  - rewrite Hpow. unfold p at 2.
    rewrite lor_high_bit; [|lia|].
    2: { rewrite Z.pow_add_r, Z.pow_1_r by lia. fold p.
         replace (q * (2 * p)) with (q * (p * 2)) by lia. apply Z.mod_mul. lia. }
    fold p.
    assert (m = den * (2 * q + 1) + (r * 2 + m mod 2 - den)) as Hfin by nia.
    rewrite <- (Z.div_unique m den (2 * q + 1) (r * 2 + m mod 2 - den)) by lia.
    rewrite <- (Z.mod_unique m den (2 * q + 1) (r * 2 + m mod 2 - den)) by lia.
    f_equal. lia.
  - assert (m = den * (2 * q) + (r * 2 + m mod 2)) as Hfin by nia.
    rewrite <- (Z.div_unique m den (2 * q) (r * 2 + m mod 2)) by lia.
    rewrite <- (Z.mod_unique m den (2 * q) (r * 2 + m mod 2)) by lia.
    f_equal. lia.
Qed.

(** ** Properties *)

(** [k_strcmp] on two NUL-terminated strings always returns, and returns
    zero exactly when the strings are equal. *)
Theorem k_strcmp_spec a b s t :
  cstr a s → cstr b t → ∃ r, k_strcmp a b = Some r ∧ (r = 0 ↔ s = t).
Proof. intros [Hs [ra ->]] [Ht [rb ->]]. by apply k_strcmp_total. Qed.

Lemma k_strcmp_spec_witness :
  ∃ r, k_strcmp [97; 98; 0; 7] [97; 0] = Some r ∧ (r = 0 ↔ [97; 98] = [97]).
Proof.
  apply (k_strcmp_spec _ _ [97; 98] [97]);
    (split; [repeat constructor; unfold byte_ok; lia | eexists; reflexivity]).
Defined.

(** [memcpy] (byte head, word body, byte tail) equals one copy of the
    source as it was before the call whenever the destination does not start
    inside the source range above it; in particular for [dst <= src]. *)
Theorem memcpy_spec mem dst src n :
  fwd_ok (Z.of_nat n) mem dst src →
  memcpy mem dst src n = move (Z.of_nat n) mem dst src ∧
  is_Some (memcpy mem dst src n).
Proof.
  intros Hok. rewrite memcpy_move by done. split; [done|].
  destruct Hok as (? & ? & ? & ? & _). by apply move_is_Some; lia.
Qed.

Lemma memcpy_spec_witness :
  memcpy (seqZ 0 16) 1 3 9 = move 9 (seqZ 0 16) 1 3 ∧ is_Some (memcpy (seqZ 0 16) 1 3 9).
Proof. apply (memcpy_spec (seqZ 0 16) 1 3 9). unfold fwd_ok, zlen. simpl. lia. Defined.

(** [memmove] copies the source as it was before the call for every
    overlap of the two ranges. *)
Theorem memmove_spec mem dst src n :
  0 ≤ dst → 0 ≤ src → dst + Z.of_nat n ≤ zlen mem → src + Z.of_nat n ≤ zlen mem →
  memmove mem dst src n = move (Z.of_nat n) mem dst src.
Proof.
  intros. unfold memmove. case_if.
  - apply orb_true_iff in E as [E|E]; bool_prop.
    + subst. destruct (move_is_Some (Z.of_nat n) mem src src) as [m Hm]; [lia..|].
      rewrite Hm. f_equal. apply list_eq. intros i.
      rewrite (lookup_move _ _ _ _ _ _ Hm). case_decide; [f_equal; lia|done].
    + rewrite E, move_0; [done|lia..].
  - bool_prop. case_if; bool_prop.
    + apply memcpy_tail_move. unfold fwd_ok. lia.
    + apply memmove_down_move; lia.
Qed.

Lemma memmove_spec_witness :
  memmove (seqZ 0 16) 5 3 9 = move 9 (seqZ 0 16) 5 3.
Proof. apply (memmove_spec (seqZ 0 16) 5 3 9); unfold zlen; simpl; lia. Defined.

(** [memset] (byte head, word body with the replicated pattern, byte
    tail) stores the low byte of [val] into exactly [n] bytes. *)
Theorem memset_spec mem dst val n :
  0 ≤ dst → dst + Z.of_nat n ≤ zlen mem →
  memset mem dst val n = splice mem dst (replicate n (u8 val)).
Proof. apply memset_fill. Qed.

Lemma memset_spec_witness :
  memset (seqZ 0 16) 1 423 11 = splice (seqZ 0 16) 1 (replicate 11 (u8 423)).
Proof. apply (memset_spec (seqZ 0 16) 1 423 11); unfold zlen; simpl; lia. Defined.

(** printing a non-negative [int] with [k_itoa64] in base ten and reading
    it back with [k_atoi] gives the number. *)
Theorem itoa_atoi_roundtrip v :
  0 ≤ v ≤ 2147483647 → k_atoi (k_itoa64 v 10) = Some v.
Proof.
  intros Hv. unfold k_itoa64. change (if (10 <? 2) || (36 <? 10) then 10 else 10) with 10.
  cbv zeta. destruct (Z.eqb_spec v 0) as [->|Hv0]; [reflexivity|].
  assert (Hd := atoi_loop_digits 64 v 0 [0]).
  rewrite Z.mul_0_l, Z.add_0_l in Hd.
  specialize (Hd ltac:(split; [lia|]; apply Z.le_lt_trans with (10 ^ 10); [lia|];
                       apply Z.pow_lt_mono_r; lia) ltac:(lia) ltac:(lia)).
  pose proof (itoa_loop_head 64 v _ eq_refl) as Hh. apply List.Forall_rev in Hh.
  generalize dependent (itoa_loop 64 v 10). intros ds Hd Hh.
  destruct (rev ds) as [|c l]; [discriminate Hd || exact Hd|].
  apply Forall_cons_1 in Hh as [Hc _]. rewrite <- app_comm_cons in *.
  unfold k_atoi. assert ((c =? 45) = false) as -> by lia. exact Hd.
Qed.

Lemma itoa_atoi_roundtrip_witness : k_atoi (k_itoa64 40312 10) = Some 40312.
Proof. apply (itoa_atoi_roundtrip 40312). lia. Defined.

(** the shift-subtract [__udivmoddi4] computes the 64-bit quotient and
    remainder. *)
Theorem udivmoddi4_spec num den :
  0 ≤ num < 2 ^ 64 → 0 < den < 2 ^ 64 →
  udivmoddi4 num den = (num / den, num mod den).
Proof.
  intros Hnum Hden. unfold udivmoddi4. rewrite (proj2 (Z.eqb_neq den 0)) by lia.
  pose proof (udivmod_loop_spec 64 num den Hnum Hden ltac:(lia)) as H.
  change (Z.of_nat 64) with 64 in H.
  by rewrite (Z.div_small num), Z.div_0_l, Z.mod_0_l in H by lia.
Qed.

Lemma udivmoddi4_spec_witness : udivmoddi4 18446744073709551615 10 = (18446744073709551615 / 10, 18446744073709551615 mod 10).
Proof. apply (udivmoddi4_spec 18446744073709551615 10); lia. Defined.
