(* ===== verification/Csum.v ===== *)
(** * fs/ext4_csum.c: CRC32C and CRC16

    The table-driven checksums, with the lazily built static tables, and
    their equivalence with the bit-at-a-time definition of the two CRCs. *)
From S2P Require Import Prelude.

(** ** The code *)

Record csum_state := CsumState {
  crc32c_table : list Z;
  crc16_table : list Z;
  tables_ready : bool;
}.

(** The statics before the first call. *)
Definition csum_init : csum_state := CsumState (replicate 256 0) (replicate 256 0) false.

Definition crc32c_round (c : Z) : Z :=
  if truthy (Z.land c 1)
  then Z.lxor (Z.shiftr c 1) 0x82F63B78 else Z.shiftr c 1.

Definition crc16_round (r : Z) : Z :=
  if truthy (Z.land r 0x8000)
  then u16 (Z.lxor (Z.shiftl r 1) 0x1021) else u16 (Z.shiftl r 1).

(** [build_tables]: both tables in one loop over [i = 0 .. 255]. *)
Definition build_tables : csum_state :=
  CsumState
    ((λ i, Nat.iter 8 crc32c_round i) <$> seqZ 0 256)
    ((λ i, Nat.iter 8 crc16_round (u16 (Z.shiftl i 8))) <$> seqZ 0 256)
    true.

Definition ensure_tables (st : csum_state) : csum_state :=
  if tables_ready st then st else build_tables.

Fixpoint crc32c_loop (table : list Z) (crc : Z) (buf : list Z) : option Z :=
  match buf with
  | [] => Some crc
  | b :: r =>
      t ← table !! Z.to_nat (Z.land (Z.lxor crc b) 0xFF);
      crc32c_loop table (Z.lxor (Z.shiftr crc 8) t) r
  end.

Definition ext4_crc32c (st : csum_state) (crc : Z) (buf : list Z) : option (Z * csum_state) :=
  let st := ensure_tables st in
  r ← crc32c_loop (crc32c_table st) crc buf; Some (r, st).

Fixpoint crc16_loop (table : list Z) (crc : Z) (buf : list Z) : option Z :=
  match buf with
  | [] => Some crc
  | b :: r =>
      t ← table !! Z.to_nat (Z.land (Z.lxor (Z.shiftr crc 8) b) 0xFF);
      crc16_loop table (u16 (Z.lxor t (Z.shiftl crc 8))) r
  end.

Definition ext4_crc16 (st : csum_state) (crc : Z) (buf : list Z) : option (Z * csum_state) :=
  let st := ensure_tables st in
  r ← crc16_loop (crc16_table st) crc buf; Some (r, st).

(** ** The specification: one bit at a time *)

Definition crc32c_bitwise (crc : Z) (buf : list Z) : Z :=
  foldl (λ c b, Nat.iter 8 crc32c_round (Z.lxor c b)) crc buf.

Definition crc16_bitwise (crc : Z) (buf : list Z) : Z :=
  foldl (λ c b, Nat.iter 8 crc16_round (Z.lxor c (Z.shiftl b 8))) crc buf.

(** The states the statics go through. *)
Inductive csum_reachable : csum_state → Prop :=
| csum_start : csum_reachable csum_init
| csum_built : csum_reachable build_tables.

(** ** Linearity of the CRC rounds *)

Lemma truthy_bit0 c : truthy (Z.land c 1) = Z.testbit c 0.
Proof.
  change 1 with (2 ^ 1 - 1). rewrite land_ones_low, <- Z.bit0_mod by lia.
  unfold truthy. by destruct (Z.testbit c 0).
Qed.

Lemma crc32c_round_alt c :
  crc32c_round c = Z.lxor (Z.shiftr c 1) (if Z.testbit c 0 then 0x82F63B78 else 0).
Proof.
  unfold crc32c_round. rewrite truthy_bit0.
  destruct (Z.testbit c 0); [done|]. by rewrite Z.lxor_0_r.
Qed.

Lemma crc32c_round_lxor a b :
  crc32c_round (Z.lxor a b) = Z.lxor (crc32c_round a) (crc32c_round b).
Proof.
  rewrite !crc32c_round_alt, Z.lxor_spec, Z.shiftr_lxor.
  destruct (Z.testbit a 0), (Z.testbit b 0); simpl xorb; cbv iota;
    apply Z.bits_inj'; intros n Hn; rewrite !Z.lxor_spec, ?Z.bits_0;
    generalize (Z.testbit 0x82F63B78 n) as p, (Z.testbit (Z.shiftr a 1) n) as x,
      (Z.testbit (Z.shiftr b 1) n) as y; by intros [] [] [].
Qed.

Lemma crc32c_rounds_lxor n a b :
  Nat.iter n crc32c_round (Z.lxor a b) =
  Z.lxor (Nat.iter n crc32c_round a) (Nat.iter n crc32c_round b).
Proof. induction n as [|n IH]; [done|]. simpl. by rewrite IH, crc32c_round_lxor. Qed.

(** Bits that are shifted out as zeros leave the polynomial unused. *)
Lemma crc32c_rounds_shiftl n h :
  Nat.iter n crc32c_round (Z.shiftl h (Z.of_nat n)) = h.
Proof.
  revert h. induction n as [|n IH]; intros h; [apply Z.shiftl_0_r|].
  rewrite Nat.iter_succ_r, crc32c_round_alt, Z.shiftl_spec_low by lia.
  rewrite Z.lxor_0_r. rewrite Z.shiftr_shiftl_l by lia.
  rewrite <- (IH h) at 2. f_equal. f_equal. lia.
Qed.

Lemma split_low8 x : x = Z.lxor (Z.shiftl (Z.shiftr x 8) 8) (Z.land x 0xFF).
Proof.
  change 0xFF with (Z.ones 8). apply Z.bits_inj'. intros n Hn.
  rewrite Z.lxor_spec, Z.land_spec, Z.testbit_ones_nonneg by lia.
  destruct (Z.ltb_spec n 8).
  - rewrite Z.shiftl_spec_low by lia. by rewrite andb_true_r, xorb_false_l.
  - rewrite Z.shiftl_spec, Z.shiftr_spec by lia.
    rewrite andb_false_r, xorb_false_r. f_equal. lia.
Qed.

Lemma lxor_byte_shiftr crc b : byte_ok b → Z.shiftr (Z.lxor crc b) 8 = Z.shiftr crc 8.
Proof.
  intros Hb. rewrite Z.shiftr_lxor. rewrite (Z.shiftr_div_pow2 b) by lia.
  unfold byte_ok in Hb. rewrite (Z.div_small b) by lia. apply Z.lxor_0_r.
Qed.

Lemma land_byte x : 0 ≤ Z.land x 0xFF < 256.
Proof.
  change 0xFF with (2 ^ 8 - 1). rewrite land_ones_low by lia.
  apply Z.mod_pos_bound. lia.
Qed.

Lemma crc_table_lookup (f : Z → Z) x :
  (f <$> seqZ 0 256) !! Z.to_nat (Z.land x 0xFF) = Some (f (Z.land x 0xFF)).
Proof.
  pose proof (land_byte x). rewrite list_lookup_fmap, lookup_seqZ_lt by lia.
  simpl. do 2 f_equal. lia.
Qed.

Lemma crc32c_loop_bitwise crc buf :
  bytes_ok buf →
  crc32c_loop (crc32c_table build_tables) crc buf = Some (crc32c_bitwise crc buf).
Proof.
  intros Hb. revert crc. induction Hb as [|b buf Hb _ IH]; intros crc; [done|].
  cbn [crc32c_loop]. cbn [crc32c_table build_tables]. rewrite crc_table_lookup.
  simpl mbind. rewrite IH. f_equal. unfold crc32c_bitwise. cbn [foldl]. f_equal.
  rewrite (split_low8 (Z.lxor crc b)) at 2.
  rewrite crc32c_rounds_lxor. f_equal.
  rewrite (crc32c_rounds_shiftl 8). by rewrite lxor_byte_shiftr.
Qed.

(** *** CRC16, most significant bit first *)

Lemma u16_lxor a b : u16 (Z.lxor a b) = Z.lxor (u16 a) (u16 b).
Proof.
  unfold u16. change 65536 with (2 ^ 16). apply Z.bits_inj'. intros n Hn.
  rewrite Z.lxor_spec. destruct (decide (n < 16)).
  - by rewrite !Z.mod_pow2_bits_low, Z.lxor_spec by lia.
  - by rewrite !Z.mod_pow2_bits_high by lia.
Qed.

Lemma truthy_bit15 r : truthy (Z.land r 0x8000) = Z.testbit r 15.
Proof.
  unfold truthy. destruct (Z.testbit r 15) eqn:E.
  - apply negb_true_iff, Z.eqb_neq. intros H0.
    assert (Z.testbit (Z.land r 0x8000) 15 = true) as H1
      by (rewrite Z.land_spec, E; reflexivity).
    by rewrite H0, Z.bits_0 in H1.
  - apply negb_false_iff, Z.eqb_eq. change 0x8000 with (2 ^ 15).
    apply Z.bits_inj'. intros n Hn. rewrite Z.land_spec, Z.bits_0.
    destruct (decide (n = 15)) as [->|]; [by rewrite E|].
    by rewrite Z.pow2_bits_false, andb_false_r by lia.
Qed.

Lemma crc16_round_alt r :
  crc16_round r = Z.lxor (u16 (Z.shiftl r 1)) (if Z.testbit r 15 then 0x1021 else 0).
Proof.
  unfold crc16_round. rewrite truthy_bit15. destruct (Z.testbit r 15).
  - by rewrite u16_lxor.
  - by rewrite Z.lxor_0_r.
Qed.

Lemma crc16_round_lxor a b :
  crc16_round (Z.lxor a b) = Z.lxor (crc16_round a) (crc16_round b).
Proof.
  rewrite !crc16_round_alt, Z.lxor_spec, Z.shiftl_lxor, u16_lxor.
  destruct (Z.testbit a 15), (Z.testbit b 15); simpl xorb; cbv iota;
    apply Z.bits_inj'; intros n Hn; rewrite !Z.lxor_spec, ?Z.bits_0;
    generalize (Z.testbit 0x1021 n) as p, (Z.testbit (u16 (Z.shiftl a 1)) n) as x,
      (Z.testbit (u16 (Z.shiftl b 1)) n) as y; by intros [] [] [].
Qed.

Lemma crc16_rounds_lxor n a b :
  Nat.iter n crc16_round (Z.lxor a b) =
  Z.lxor (Nat.iter n crc16_round a) (Nat.iter n crc16_round b).
Proof. induction n as [|n IH]; [done|]. simpl. by rewrite IH, crc16_round_lxor. Qed.

Lemma crc16_rounds_low l : byte_ok l → Nat.iter 8 crc16_round l = Z.shiftl l 8.
Proof.
  intros Hl. pose (P := λ l, Nat.iter 8 crc16_round l =? Z.shiftl l 8).
  assert (HP : P l = true) by (apply byte_forall; [vm_compute; reflexivity|done]).
  by apply Z.eqb_eq in HP.
Qed.

Lemma crc16_round_range r : 0 ≤ crc16_round r < 65536.
Proof. unfold crc16_round. case_if; apply u16_range. Qed.

Lemma crc16_table_step crc b :
  0 ≤ crc < 65536 → byte_ok b →
  u16 (Z.lxor (Nat.iter 8 crc16_round
                 (u16 (Z.shiftl (Z.land (Z.lxor (Z.shiftr crc 8) b) 0xFF) 8)))
         (Z.shiftl crc 8)) =
  Nat.iter 8 crc16_round (Z.lxor crc (Z.shiftl b 8)).
Proof.
  intros Hc Hb. set (i := Z.lxor (Z.shiftr crc 8) b).
  assert (Hi : 0 ≤ i < 256).
  { assert (Z.shiftr crc 8 < 256 ∧ 0 ≤ Z.shiftr crc 8) as [? ?].
    { rewrite Z.shiftr_div_pow2 by lia. split; [apply Z.div_lt_upper_bound|apply Z.div_pos]; lia. }
    unfold i. unfold byte_ok in Hb. apply (lxor_range 8); lia. }
  change 0xFF with (2 ^ 8 - 1). rewrite land_ones_low, (Z.mod_small i) by lia.
  rewrite (u16_small (Z.shiftl i 8)) by (rewrite Z.shiftl_mul_pow2; lia).
  rewrite (split_low8 crc) at 2.
  assert (Hl : byte_ok (Z.land crc 0xFF)) by apply land_byte.
  rewrite u16_lxor. rewrite (u16_small (Nat.iter 8 crc16_round _)) by apply crc16_round_range.
  replace (Z.lxor (Z.lxor (Z.shiftl (Z.shiftr crc 8) 8) (Z.land crc 0xFF)) (Z.shiftl b 8))
    with (Z.lxor (Z.shiftl i 8) (Z.land crc 0xFF)).
  2: { unfold i. rewrite Z.shiftl_lxor, !Z.lxor_assoc. f_equal. apply Z.lxor_comm. }
  rewrite crc16_rounds_lxor, (crc16_rounds_low (Z.land crc 0xFF)) by done. f_equal.
  rewrite (split_low8 crc) at 1. rewrite Z.shiftl_lxor, u16_lxor.
  rewrite (u16_small (Z.shiftl (Z.land crc 0xFF) 8))
    by (unfold byte_ok in Hl; rewrite Z.shiftl_mul_pow2; lia).
  unfold u16 at 1. rewrite Z.shiftl_shiftl, Z.shiftl_mul_pow2 by lia.
  change (2 ^ (8 + 8)) with 65536. by rewrite Z.mod_mul, Z.lxor_0_l by lia.
Qed.

Lemma crc16_loop_bitwise crc buf :
  0 ≤ crc < 65536 → bytes_ok buf →
  crc16_loop (crc16_table build_tables) crc buf = Some (crc16_bitwise crc buf).
Proof.
  intros Hc Hb. revert crc Hc. induction Hb as [|b buf Hb _ IH]; intros crc Hc; [done|].
  cbn [crc16_loop]. cbn [crc16_table build_tables].
  rewrite (crc_table_lookup (λ i, Nat.iter 8 crc16_round (u16 (Z.shiftl i 8)))).
  simpl mbind. rewrite IH by apply u16_range. f_equal. unfold crc16_bitwise.
  cbn [foldl]. f_equal. by apply crc16_table_step.
Qed.

Lemma ensure_tables_reachable st : csum_reachable st → ensure_tables st = build_tables.
Proof. by destruct 1. Qed.

Lemma crc32c_bitwise_app crc b1 b2 :
  crc32c_bitwise crc (b1 ++ b2) = crc32c_bitwise (crc32c_bitwise crc b1) b2.
Proof. apply foldl_app. Qed.

Lemma iter_range (f : Z → Z) (P : Z → Prop) n x :
  (∀ y, P y → P (f y)) → P x → P (Nat.iter n f x).
Proof. intros Hf Hx. induction n; simpl; auto. Qed.

Lemma crc32c_round_range c : 0 ≤ c < 2 ^ 32 → 0 ≤ crc32c_round c < 2 ^ 32.
Proof.
  intros Hc. rewrite crc32c_round_alt. apply lxor_range; [lia| |by case_if].
  rewrite Z.shiftr_div_pow2 by lia. split; [apply Z.div_pos; lia|].
  apply Z.div_lt_upper_bound; lia.
Qed.

Lemma crc32c_bitwise_range crc buf :
  bytes_ok buf → 0 ≤ crc < 2 ^ 32 → 0 ≤ crc32c_bitwise crc buf < 2 ^ 32.
Proof.
  intros Hb. revert crc. induction Hb as [|b buf Hb _ IH]; intros crc Hc; [done|].
  unfold crc32c_bitwise. cbn [foldl]. apply IH. apply iter_range.
  { apply crc32c_round_range. }
  unfold byte_ok in Hb. apply lxor_range; lia.
Qed.

(** The pure checksums the file system code computes (the statics only cache
    the tables). *)
Definition crc32c (crc : Z) (buf : list Z) : Z :=
  default 0 (crc32c_loop (crc32c_table build_tables) crc buf).
Definition crc16 (crc : Z) (buf : list Z) : Z :=
  default 0 (crc16_loop (crc16_table build_tables) crc buf).

Lemma crc32c_eq crc buf : bytes_ok buf → crc32c crc buf = crc32c_bitwise crc buf.
Proof. intros. unfold crc32c. by rewrite crc32c_loop_bitwise. Qed.

(** ** Properties *)

(** C39: from every state of the static tables, [ext4_crc32c] returns the
    bit-at-a-time CRC32C (reflected polynomial 0x82F63B78) and stays in 32
    bits. *)
Theorem ext4_crc32c_correct st crc buf :
  csum_reachable st → bytes_ok buf → 0 ≤ crc < 2 ^ 32 →
  ext4_crc32c st crc buf = Some (crc32c_bitwise crc buf, build_tables) ∧
  0 ≤ crc32c_bitwise crc buf < 2 ^ 32.
Proof.
  intros Hst Hb Hc. unfold ext4_crc32c. rewrite ensure_tables_reachable by done.
  rewrite crc32c_loop_bitwise by done. split; [done|]. by apply crc32c_bitwise_range.
Qed.

Lemma ext4_crc32c_correct_witness :
  ext4_crc32c csum_init 0xFFFFFFFF [49; 50; 51] =
    Some (crc32c_bitwise 0xFFFFFFFF [49; 50; 51], build_tables) ∧
  0 ≤ crc32c_bitwise 0xFFFFFFFF [49; 50; 51] < 2 ^ 32.
Proof.
  apply (ext4_crc32c_correct csum_init 0xFFFFFFFF [49; 50; 51]);
    [constructor | repeat constructor; lia | lia].
Defined.

(** [ext4_crc16] returns the bit-at-a-time CRC with polynomial 0x1021,
    most significant bit first. *)
Theorem ext4_crc16_correct st crc buf :
  csum_reachable st → bytes_ok buf → 0 ≤ crc < 65536 →
  ext4_crc16 st crc buf = Some (crc16_bitwise crc buf, build_tables).
Proof.
  intros Hst Hb Hc. unfold ext4_crc16. rewrite ensure_tables_reachable by done.
  by rewrite crc16_loop_bitwise.
Qed.

Lemma ext4_crc16_correct_witness :
  ext4_crc16 build_tables 0xFFFF [49; 50; 51] =
    Some (crc16_bitwise 0xFFFF [49; 50; 51], build_tables).
Proof.
  apply (ext4_crc16_correct build_tables 0xFFFF [49; 50; 51]);
    [constructor | repeat constructor; lia | lia].
Defined.
