(* ===== verification/Alloc.v ===== *)
(** * mm/heap.h: the allocator interface

    The build links one of two allocators behind the same ABI (the C free
    list of mm/heap_c.c or the Rust backend of mm/alloc), so the clients are
    written against this class. A pointer is an address, NULL is [None].

    [al_inv h L] says that [h] is a healthy allocator in which exactly the
    blocks of [L] are live. *)
From S2P Require Import Prelude.

Class Allocator (H : Type) := {
  al_kmalloc : Z → M H (option Z);
  al_kzalloc : Z → M H (option Z);
  al_kfree : option Z → M H unit;
}.

(** What the allocator promises: a call returns, a block it hands out is not
    one of the live ones, and a live block can be given back. *)
Definition al_result (inv : list Z → Prop) (L : list Z) (r : option Z) : Prop :=
  match r with Some p => (p ≠ 0) ∧ (p ∉ L) ∧ inv (p :: L) | None => inv L end.

Class AllocatorLaws (H : Type) `{Allocator H} (al_inv : H → list Z → Prop) := {
  al_perm : ∀ h L L', L ≡ₚ L' → al_inv h L → al_inv h L';
  al_malloc : ∀ h L sz, al_inv h L → 0 < sz < 2 ^ 30 →
    ∃ r h', al_kmalloc sz h = Some (r, h') ∧ al_result (al_inv h') L r;
  al_zalloc : ∀ h L sz, al_inv h L → 0 < sz < 2 ^ 30 →
    ∃ r h', al_kzalloc sz h = Some (r, h') ∧ al_result (al_inv h') L r;
  al_free : ∀ h L p, al_inv h (p :: L) →
    ∃ h', al_kfree (Some p) h = Some (tt, h') ∧ al_inv h' L;
  al_free_null : ∀ h, al_kfree None h = Some (tt, h);
}.

(** ** A bump allocator

    The smallest allocator that keeps the promises: addresses grow by the
    size of each block, freed blocks are only taken off the live list. *)
Record bump := Bump { bump_next : Z; bump_live : list Z }.

Definition bump_alloc (sz : Z) : M bump (option Z) := λ b,
  if sz =? 0 then Some (None, b)
  else Some (Some (bump_next b), Bump (bump_next b + sz) (bump_next b :: bump_live b)).
Definition bump_free (p : option Z) : M bump unit := λ b,
  match p with
  | None => Some (tt, b)
  | Some a => if decide (a ∈ bump_live b)
              then Some (tt, Bump (bump_next b) (filter (λ x, x ≠ a) (bump_live b))) else None
  end.

#[export] Instance bump_allocator : Allocator bump :=
  {| al_kmalloc := bump_alloc; al_kzalloc := bump_alloc; al_kfree := bump_free |}.

Definition bump_inv (b : bump) (L : list Z) : Prop :=
  0 < bump_next b ∧ NoDup L ∧ L ≡ₚ bump_live b ∧ Forall (λ p, 0 < p < bump_next b) L.

Lemma bump_alloc_ok b L sz :
  bump_inv b L → 0 < sz →
  ∃ r b', bump_alloc sz b = Some (r, b') ∧ al_result (bump_inv b') L r.
Proof.
  intros (Hn & Hnd & HL & Hlt) Hsz. unfold bump_alloc. rewrite (proj2 (Z.eqb_neq sz 0)) by lia.
  eexists _, _. split; [done|]. simpl.
  assert (Hni : bump_next b ∉ L).
  { intros Hin. rewrite list.Forall_forall in Hlt. apply Hlt in Hin. lia. }
  split_and!; [lia|done|]. unfold bump_inv. simpl. split_and!; [lia|by constructor|by constructor|].
  constructor; [lia|]. eapply list.Forall_impl; [done|]. simpl. lia.
Qed.

Lemma filter_notin (p : Z) (L : list Z) : p ∉ L → filter (λ x, x ≠ p) L = L.
Proof.
  induction L as [|x L IH]; [done|]. intros [Hne Hni]%not_elem_of_cons.
  rewrite filter_cons_True by done. by rewrite IH.
Qed.

#[export] Instance bump_laws : AllocatorLaws bump bump_inv.
Proof.
  split.
  - intros b L L' Hp (Hn & Hnd & HL & Hlt). split_and!; [done|by rewrite <- Hp|by rewrite <- Hp|].
    by rewrite <- Hp.
  - intros b L sz Hi Hsz. apply bump_alloc_ok; [done|lia].
  - intros b L sz Hi Hsz. apply bump_alloc_ok; [done|lia].
  - intros b L p (Hn & Hnd & HL & Hlt). simpl. unfold bump_free.
    rewrite decide_True by (rewrite <- HL; left). eexists. split; [done|].
    apply list.NoDup_cons in Hnd as [Hni Hnd]. apply list.Forall_cons in Hlt as [_ Hlt].
    unfold bump_inv. simpl. split_and!; [done|done| |done].
    rewrite <- HL. rewrite filter_cons_False by naive_solver.
    by rewrite filter_notin.
  - done.
Qed.
