(* ===== verification/Heap.v ===== *)
(** * mm/heap_c.c and security/memguard.c: the C kernel heap

    The heap region is a map of 16-byte cells: every header offset, block
    size and payload boundary is a multiple of 16, so a cell is either a
    [struct block_hdr] or 16 bytes of payload, read through the same four
    [u32] words. Offsets are relative to [hbase]; an access outside the region
    or off a cell boundary is undefined behaviour. *)
From stdpp Require Import gmap.
From S2P Require Import Prelude Alloc.

(** ** State *)

Record block_hdr := Hdr { magic : Z; size : Z; next_off : Z; used : Z }.

Record heap_stats := Stats {
  total_bytes : Z; used_bytes : Z; free_bytes : Z; high_water : Z;
  alloc_count : Z; free_count : Z; errors : Z;
}.

Record heap := Heap {
  arch64 : bool;           (* width of size_t in the build *)
  hbase : Z;               (* 0 is NULL *)
  hsize : Z;
  free_head : Z;
  cells : gmap Z block_hdr;
  stats : heap_stats;
  poison_count : Z;        (* statics of memguard.c *)
  violation_count : Z;
}.

Definition HDR_SIZE : Z := 16.
Definition ALIGN : Z := 16.
Definition MAGIC_USED : Z := 0x0B51D1A0.
Definition MAGIC_FREE : Z := 0xF4EEB10C.
Definition END_OF_LIST : Z := 0xFFFFFFFF.
Definition POISON_BYTE : Z := 0xA5.

(** [size_t] arithmetic of the build. *)
Definition szt (h : heap) (z : Z) : Z := if arch64 h then u64 z else u32 z.

Definition set_free_head (v : Z) (h : heap) : heap :=
  Heap (arch64 h) (hbase h) (hsize h) v (cells h) (stats h) (poison_count h) (violation_count h).
Definition set_cells (v : gmap Z block_hdr) (h : heap) : heap :=
  Heap (arch64 h) (hbase h) (hsize h) (free_head h) v (stats h) (poison_count h) (violation_count h).
Definition set_stats (v : heap_stats) (h : heap) : heap :=
  Heap (arch64 h) (hbase h) (hsize h) (free_head h) (cells h) v (poison_count h) (violation_count h).
Definition set_memguard (p v : Z) (h : heap) : heap :=
  Heap (arch64 h) (hbase h) (hsize h) (free_head h) (cells h) (stats h) p v.

Definition garbage : block_hdr := Hdr 0 0 0 0.

(** A cell of the region, whatever it holds. *)
Definition cell (h : heap) (off : Z) : block_hdr := default garbage (cells h !! off).
Definition cell_ok (h : heap) (off : Z) : bool :=
  (0 <=? off) && (off + 16 <=? hsize h) && (off mod 16 =? 0).

(** [hdr_at(off)->...]: load and store of a header. *)
Definition ldh (off : Z) : M heap block_hdr :=
  λ h, if cell_ok h off then Some (cell h off, h) else None.
Definition sth (off : Z) (c : block_hdr) : M heap unit :=
  λ h, if cell_ok h off then Some (tt, set_cells (<[off := c]> (cells h)) h) else None.

(** Byte view of cells, for [memset] and [memcpy] on payloads. *)
Definition cell_bytes (c : block_hdr) : list Z :=
  le_to 4 (magic c) ++ le_to 4 (size c) ++ le_to 4 (next_off c) ++ le_to 4 (used c).
Definition bytes_cell (l : list Z) : block_hdr :=
  Hdr (le_of (take 4 l)) (le_of (take 4 (drop 4 l)))
      (le_of (take 4 (drop 8 l))) (le_of (take 4 (drop 12 l))).

(** Stores the bytes [l] at the cell boundary [off], [n] cells at most. *)
Fixpoint put_bytes (n : nat) (off : Z) (l : list Z) : M heap unit :=
  match n with
  | O => ret tt
  | S n' =>
      match l with
      | [] => ret tt
      | _ =>
          let* c := ldh off in
          sth off (bytes_cell (take 16 l ++ drop (length l) (cell_bytes c))) ;;
          put_bytes n' (off + 16) (drop 16 l)
      end
  end.

Fixpoint get_bytes (n : nat) (off : Z) : M heap (list Z) :=
  match n with
  | O => ret []
  | S n' =>
      let* c := ldh off in
      let* r := get_bytes n' (off + 16) in
      ret (cell_bytes c ++ r)
  end.

Definition ncells (bytes : Z) : nat := Z.to_nat ((bytes + 15) / 16).

Definition memset_payload (off v n : Z) : M heap unit :=
  put_bytes (ncells n) off (replicate (Z.to_nat n) v).

Definition memcpy_payload (dst src n : Z) : M heap unit :=
  let* l := get_bytes (ncells n) src in
  put_bytes (ncells n) dst (take (Z.to_nat n) l).

(** ** security/memguard.c *)

Definition memguard_poison_free (off sz : Z) : M heap unit :=
  memset_payload off POISON_BYTE sz ;;
  modify (λ h, set_memguard (u32 (poison_count h + 1)) (violation_count h) h).

(** [ptr] is an absolute address here. *)
Definition memguard_check_allocation (ptr sz align : Z) : M heap bool :=
  if ptr =? 0 then ret false
  else if truthy (Z.land ptr (align - 1)) || (u32 ptr <? 0x100000)
  then modify (λ h, set_memguard (poison_count h) (u32 (violation_count h + 1)) h) ;; ret false
  else ret true.

Definition memguard_violations (h : heap) : Z := violation_count h.

(** ** The allocator *)

Definition align_up (v : Z) : Z := Z.land (u32 (v + ALIGN - 1)) (0xFFFFFFFF - (ALIGN - 1)).

Definition upd_stats (f : heap_stats → heap_stats) : M heap unit :=
  modify (λ h, set_stats (f (stats h)) h).

Definition note_error : M heap unit :=
  upd_stats (λ s, Stats (total_bytes s) (used_bytes s) (free_bytes s) (high_water s)
                    (alloc_count s) (free_count s) (u32 (errors s + 1))).

Definition heap_init (base sz : Z) : M heap bool :=
  modify (λ h, Heap (arch64 h) (align_up base) (align_up sz) 0 (cells h) (stats h)
                 (poison_count h) (violation_count h)) ;;
  let* h := get in
  let first := u32 (szt h (hsize h - HDR_SIZE)) in
  sth 0 (Hdr MAGIC_FREE first END_OF_LIST 0) ;;
  upd_stats (λ s, Stats first (used_bytes s) first (high_water s)
                    (alloc_count s) (free_count s) (errors s)) ;;
  ret true.

Definition note_alloc (sz : Z) : M heap unit :=
  upd_stats (λ s,
    let u := u32 (used_bytes s + sz) in
    Stats (total_bytes s) u (u32 (free_bytes s - sz))
      (if high_water s <? u then u else high_water s)
      (u32 (alloc_count s + 1)) (free_count s) (errors s)).

(** The body of the search loop once [cur] is large enough: split when the
    remainder can hold header and payload, unlink, mark used. *)
Definition split_block (need cur_off : Z) : M heap unit :=
  let* cur := ldh cur_off in
  let* h := get in
  if szt h (need + HDR_SIZE + ALIGN) <=? size cur
  then
    let new_off := u32 (szt h (cur_off + HDR_SIZE + need)) in
    sth new_off (Hdr MAGIC_FREE (u32 (szt h (size cur - need - HDR_SIZE))) (next_off cur) 0) ;;
    let* c := ldh cur_off in
    sth cur_off (Hdr (magic c) need new_off (used c))
  else ret tt.

Definition unlink (prev_off cur_off : Z) : M heap unit :=
  let* c := ldh cur_off in
  if prev_off =? END_OF_LIST
  then modify (set_free_head (next_off c))
  else
    let* p := ldh prev_off in
    sth prev_off (Hdr (magic p) (size p) (next_off c) (used p)).

Definition mark_used (cur_off : Z) : M heap (option Z) :=
  let* c := ldh cur_off in
  sth cur_off (Hdr MAGIC_USED (size c) (next_off c) 1) ;;
  let* h := get in
  let ptr := hbase h + cur_off + HDR_SIZE in
  note_alloc (size c) ;;
  let* _ := memguard_check_allocation ptr (size c) ALIGN in
  ret (Some ptr).

Definition take_block (need prev_off cur_off : Z) : M heap (option Z) :=
  split_block need cur_off ;;
  unlink prev_off cur_off ;;
  mark_used cur_off.

(** [while (cur_off != END_OF_LIST)]; running out of fuel is a list that does
    not end. *)
Fixpoint kmalloc_search (fuel : nat) (need prev_off cur_off : Z) : M heap (option Z) :=
  match fuel with
  | O => fault
  | S f =>
      if cur_off =? END_OF_LIST then note_error ;; ret None
      else
        let* cur := ldh cur_off in
        let* h := get in
        if szt h (need + HDR_SIZE) <=? size cur
        then take_block need prev_off cur_off
        else kmalloc_search f need cur_off (next_off cur)
  end.

(** NULL is [None]; a block address is [Some]. *)
Definition kmalloc (sz : Z) : M heap (option Z) :=
  let* h := get in
  if (sz =? 0) || (hbase h =? 0) then ret None
  else kmalloc_search (S (ncells (hsize h))) (align_up sz) END_OF_LIST (free_head h).

Definition kzalloc (sz : Z) : M heap (option Z) :=
  let* p := kmalloc sz in
  let* h := get in
  match p with
  | Some a => memset_payload (a - hbase h) 0 sz ;; ret p
  | None => ret None
  end.

(** [while (walk != END_OF_LIST && walk < off)]: the neighbours of [off] in
    the free list. *)
Fixpoint kfree_walk (fuel : nat) (off prev_off walk : Z) : M heap (Z * Z) :=
  match fuel with
  | O => fault
  | S f =>
      if negb (walk =? END_OF_LIST) && (walk <? off)
      then let* w := ldh walk in kfree_walk f off walk (next_off w)
      else ret (prev_off, walk)
  end.

(** Linking [off] after [prev_off] and merging with it; the block to go on
    with. *)
Definition link_prev (off prev_off : Z) : M heap Z :=
  if prev_off =? END_OF_LIST then modify (set_free_head off) ;; ret off
  else
    let* p := ldh prev_off in
    sth prev_off (Hdr (magic p) (size p) off (used p)) ;;
    let* p := ldh prev_off in
    let* h := get in
    if szt h (prev_off + HDR_SIZE + size p) =? off
    then
      let* c := ldh off in
      sth prev_off (Hdr (magic p) (u32 (szt h (size p + HDR_SIZE + size c))) (next_off c) (used p)) ;;
      ret prev_off
    else ret off.

Definition merge_next (off : Z) : M heap unit :=
  let* c := ldh off in
  let* h := get in
  if (szt h (off + HDR_SIZE + size c) =? next_off c) && negb (next_off c =? END_OF_LIST)
  then
    let* n := ldh (next_off c) in
    if (magic n =? MAGIC_FREE) && (used n =? 0)
    then sth off (Hdr (magic c) (u32 (szt h (size c + HDR_SIZE + size n))) (next_off n) (used c))
    else ret tt
  else ret tt.

(** Poisoning, accounting and the free mark of a block that is in use. *)
Definition kfree_mark (off : Z) (c : block_hdr) : M heap unit :=
  memguard_poison_free (off + HDR_SIZE) (size c) ;;
  upd_stats (λ s, Stats (total_bytes s) (u32 (used_bytes s - size c))
    (u32 (free_bytes s + size c)) (high_water s) (alloc_count s)
    (u32 (free_count s + 1)) (errors s)) ;;
  sth off (Hdr MAGIC_FREE (size c) (next_off c) 0).

(** Insertion by offset, merging with physically adjacent free blocks. *)
Definition kfree_insert (off : Z) : M heap unit :=
  let* h := get in
  let* (prev_off, walk) :=
    kfree_walk (S (ncells (hsize h))) off END_OF_LIST (free_head h) in
  let* c := ldh off in
  sth off (Hdr (magic c) (size c) walk (used c)) ;;
  let* off := link_prev off prev_off in
  merge_next off.

Definition kfree (ptr : option Z) : M heap unit :=
  match ptr with
  | None => ret tt
  | Some a =>
      let* h := get in
      let off := u32 (a - hbase h - HDR_SIZE) in
      if (s32 off <? 0) || (hsize h <=? off) then note_error
      else
        let* c := ldh off in
        if negb (magic c =? MAGIC_USED) || (used c =? 0) then note_error
        else kfree_mark off c ;; kfree_insert off
  end.

Definition krealloc (ptr : option Z) (sz : Z) : M heap (option Z) :=
  match ptr with
  | None => kmalloc sz
  | Some a =>
      if sz =? 0 then kfree ptr ;; ret None
      else
        let* fresh := kmalloc sz in
        match fresh with
        | None => ret None
        | Some f =>
            let* h := get in
            let* cur := ldh (a - HDR_SIZE - hbase h) in
            memcpy_payload (f - hbase h) (a - hbase h)
              (if size cur <? sz then size cur else sz) ;;
            kfree ptr ;;
            ret (Some f)
        end
  end.

(** A boot-time heap: statics at their initial values. *)
Definition heap_boot (a64 : bool) : heap :=
  Heap a64 0 0 END_OF_LIST ∅ (Stats 0 0 0 0 0 0 0) 0 0.

(** ** The abstract heap: a tiling of the region *)

(** A block is its payload size and whether it is in use. The region is the
    concatenation of the blocks, each a header and its payload. *)
(** Offset after the blocks, and offset of the first free block ([nxt] when
    there is none). *)
Fixpoint fin (off : Z) (bs : list (Z * bool)) : Z :=
  match bs with
  | [] => off
  | (sz, _) :: r => fin (off + 16 + sz) r
  end.

Fixpoint nf (off : Z) (bs : list (Z * bool)) (nxt : Z) : Z :=
  match bs with
  | [] => nxt
  | (sz, u) :: r => if u then nf (off + 16 + sz) r nxt else off
  end.

Definition hdr_ok (c : block_hdr) (sz : Z) (u : bool) (nxt : Z) : Prop :=
  size c = sz ∧
  if u then magic c = MAGIC_USED ∧ used c = 1
  else magic c = MAGIC_FREE ∧ used c = 0 ∧ next_off c = nxt.

Definition cl (m : gmap Z block_hdr) (o : Z) : block_hdr := default garbage (m !! o).

(** The cells hold the headers of the blocks, the free ones chained by
    offset and ending in [nxt]. *)
Fixpoint seg (m : gmap Z block_hdr) (off : Z) (bs : list (Z * bool)) (nxt : Z) : Prop :=
  match bs with
  | [] => True
  | (sz, u) :: r =>
      0 ≤ sz ∧ sz mod 16 = 0 ∧
      hdr_ok (cl m off) sz u (nf (off + 16 + sz) r nxt) ∧
      seg m (off + 16 + sz) r nxt
  end.

(** No two neighbouring blocks are both free. *)
Fixpoint nadj (prev_free : bool) (bs : list (Z * bool)) : Prop :=
  match bs with
  | [] => True
  | (_, u) :: r => (prev_free && negb u)%bool = false ∧ nadj (negb u) r
  end.

(** Geometry of the region. *)
Definition geom (h : heap) : Prop :=
  0 < hbase h ∧ hbase h mod 16 = 0 ∧ hbase h + hsize h < 2 ^ 32 ∧
  0 ≤ hsize h < 2 ^ 31 ∧ hsize h mod 16 = 0.

Definition accounted (s : heap_stats) : Prop :=
  u32 (used_bytes s + free_bytes s) = total_bytes s.

(** The heap [h] implements the tiling [bs]. *)
Definition wfs (h : heap) (bs : list (Z * bool)) : Prop :=
  geom h ∧ fin 0 bs = hsize h ∧ seg (cells h) 0 bs END_OF_LIST ∧
  free_head h = nf 0 bs END_OF_LIST ∧ accounted (stats h).

Definition heap_wf (h : heap) (bs : list (Z * bool)) : Prop := wfs h bs ∧ nadj false bs.

(** Specification of [kmalloc]: first fit, splitting when the rest can hold a
    header and 16 bytes. *)
Definition carve (need sz : Z) : list (Z * bool) :=
  if need + 32 <=? sz then [(need, true); (sz - need - 16, false)] else [(sz, true)].

Fixpoint first_fit (need off : Z) (bs : list (Z * bool)) : option (Z * list (Z * bool)) :=
  match bs with
  | [] => None
  | (sz, u) :: r =>
      if negb u && (need + 16 <=? sz) then Some (off, carve need sz ++ r)
      else '(o, r') ← first_fit need (off + 16 + sz) r; Some (o, (sz, u) :: r')
  end.

(** Specification of [kfree]: the block joins its free neighbours. *)
Definition join_prev (l : list (Z * bool)) (sz : Z) : list (Z * bool) * Z :=
  match list.last l with
  | Some (ps, false) => (removelast l, ps + 16 + sz)
  | _ => (l, sz)
  end.
Definition join_next (sz : Z) (r : list (Z * bool)) : list (Z * bool) :=
  match r with
  | (ns, false) :: r' => (sz + 16 + ns, false) :: r'
  | _ => (sz, false) :: r
  end.
Definition release (l : list (Z * bool)) (sz : Z) (r : list (Z * bool)) : list (Z * bool) :=
  let '(l', s) := join_prev l sz in l' ++ join_next s r.

(** ** Lemmas on tilings *)

Lemma fin_app off l r : fin off (l ++ r) = fin (fin off l) r.
Proof. revert off. induction l as [|[sz u] l IH]; intros; simpl; auto. Qed.

Lemma nf_app off l r nxt : nf off (l ++ r) nxt = nf off l (nf (fin off l) r nxt).
Proof. revert off. induction l as [|[sz [|]] l IH]; intros; simpl; auto. Qed.

Lemma seg_app m off l r nxt :
  seg m off (l ++ r) nxt ↔
  seg m off l (nf (fin off l) r nxt) ∧ seg m (fin off l) r nxt.
Proof.
  revert off. induction l as [|[sz u] l IH]; intros off; simpl; [tauto|].
  rewrite IH, nf_app. tauto.
Qed.

Lemma seg_fin_le m off bs nxt : seg m off bs nxt → off ≤ fin off bs.
Proof.
  revert off. induction bs as [|[sz u] r IH]; intros off; simpl; [lia|].
  intros (? & _ & _ & H). apply IH in H. lia.
Qed.

Lemma seg_fin_mod m off bs nxt : seg m off bs nxt → off mod 16 = 0 → fin off bs mod 16 = 0.
Proof.
  revert off. induction bs as [|[sz u] r IH]; intros off; simpl; [done|].
  intros (? & ? & _ & Hs) Ho. eapply IH; [done|]. mod_lia.
Qed.

Lemma seg_frame m m' off bs nxt :
  seg m off bs nxt → (∀ o, off ≤ o < fin off bs → cl m' o = cl m o) → seg m' off bs nxt.
Proof.
  revert off. induction bs as [|[sz u] r IH]; intros off; simpl; [done|].
  intros (? & ? & Hh & Hs) Hf. pose proof (seg_fin_le _ _ _ _ Hs).
  split_and!; [done..| |].
  - by rewrite Hf by lia.
  - apply IH; [done|]. intros. apply Hf. lia.
Qed.

Lemma nf_range m off bs nxt :
  seg m off bs nxt → nf off bs nxt = nxt ∨ off ≤ nf off bs nxt < fin off bs.
Proof.
  revert off. induction bs as [|[sz [|]] r IH]; intros off; simpl; [by left| |].
  - intros (? & _ & _ & H). pose proof (IH _ H). pose proof (seg_fin_le _ _ _ _ H). lia.
  - intros (? & _ & _ & H). pose proof (seg_fin_le _ _ _ _ H). lia.
Qed.

(** The last free block of [l], which the code calls [prev_off]. *)
Definition all_used (l : list (Z * bool)) : Prop := Forall (λ b, b.2 = true) l.

Definition prev_is (l : list (Z * bool)) (prev : Z) : Prop :=
  (prev = END_OF_LIST ∧ all_used l) ∨
  ∃ l1 ps l2, l = l1 ++ (ps, false) :: l2 ∧ all_used l2 ∧ prev = fin 0 l1.

Lemma prev_is_used l prev sz : prev_is l prev → prev_is (l ++ [(sz, true)]) prev.
Proof.
  intros [[-> H]|(l1 & ps & l2 & -> & H & ->)]; [left|right].
  - split; [done|]. by apply Forall_app_2; repeat constructor.
  - exists l1, ps, (l2 ++ [(sz, true)]). rewrite <- app_assoc. split_and!; [done| |done].
    by apply Forall_app_2; repeat constructor.
Qed.

Lemma prev_is_free l sz : prev_is (l ++ [(sz, false)]) (fin 0 l).
Proof. right. exists l, sz, []. split_and!; [done|constructor|done]. Qed.

Lemma all_used_seg m off l nxt n' : all_used l → seg m off l nxt → seg m off l n'.
Proof.
  intros Hu. revert off. induction Hu as [|[sz u] l Hu Hl IH]; intros off; [done|].
  simpl in Hu. subst u. simpl. unfold hdr_ok. intros (? & ? & ? & ?). eauto.
Qed.

Lemma all_used_nf off l nxt : all_used l → nf off l nxt = nf (fin off l) [] nxt.
Proof.
  intros Hu. revert off. induction Hu as [|[sz u] l Hu Hl IH]; intros off; [done|].
  simpl in Hu. subst u. simpl. apply IH.
Qed.

Definition relink (c : block_hdr) (n : Z) : block_hdr := Hdr (magic c) (size c) n (used c).

Lemma cl_insert m o c : cl (<[o := c]> m) o = c.
Proof. unfold cl. by rewrite lookup_insert_eq. Qed.
Lemma cl_insert_ne m o o' c : o ≠ o' → cl (<[o := c]> m) o' = cl m o'.
Proof. intros. unfold cl. by rewrite lookup_insert_ne. Qed.

(** Pointing the last free block of [l] at [n'] makes [l] a segment that
    continues with [n']. *)
Lemma seg_relink m off l1 ps l2 nxt n' :
  all_used l2 → seg m off (l1 ++ (ps, false) :: l2) nxt →
  seg (<[fin off l1 := relink (cl m (fin off l1)) n']> m) off (l1 ++ (ps, false) :: l2) n'.
Proof.
  intros Hu. rewrite !seg_app. simpl. intros (Hl & ? & ? & (Hsz & Hm & Hus & Hn) & Hr).
  pose proof (seg_fin_le _ _ _ _ Hl). pose proof (seg_fin_le _ _ _ _ Hr).
  split_and!; [|done..| |].
  - eapply seg_frame; [exact Hl|]. intros. apply cl_insert_ne. lia.
  - rewrite cl_insert. unfold relink, hdr_ok. simpl. split_and!; [done..|].
    by rewrite all_used_nf.
  - eapply seg_frame; [eapply all_used_seg; done|]. intros. apply cl_insert_ne. lia.
Qed.

(** ** Running the code on a well-formed heap *)

Lemma ldh_eq h o : cell_ok h o = true → ldh o h = Some (cl (cells h) o, h).
Proof. intros H. unfold ldh. by rewrite H. Qed.

Lemma sth_eq h o c :
  cell_ok h o = true → sth o c h = Some (tt, set_cells (<[o := c]> (cells h)) h).
Proof. intros H. unfold sth. by rewrite H. Qed.

Lemma cells_set m h : cells (set_cells m h) = m.
Proof. reflexivity. Qed.

Lemma cell_ok_true h o :
  0 ≤ o → o + 16 ≤ hsize h → o mod 16 = 0 → cell_ok h o = true.
Proof. intros. unfold cell_ok. rewrite !andb_true_iff. lia. Qed.

Lemma cell_ok_true_inv h o :
  cell_ok h o = true → 0 ≤ o ∧ o + 16 ≤ hsize h ∧ o mod 16 = 0.
Proof. unfold cell_ok. intros. bool_prop. lia. Qed.

Lemma szt_small h z : 0 ≤ z < 2 ^ 32 → szt h z = z.
Proof. intros. unfold szt. case_if; [apply u64_small|apply u32_small]; lia. Qed.

(** Executes loads, stores and state reads whose cells are in the region. *)
Ltac mrun tac :=
  repeat first
    [ erewrite (bind_eq (ldh _)) by (apply ldh_eq; tac)
    | erewrite (bind_eq (sth _ _)) by (apply sth_eq; tac)
    | erewrite (bind_eq get) by reflexivity
    | erewrite (bind_eq (ret _)) by reflexivity
    | erewrite (bind_eq (modify _)) by reflexivity
    | erewrite (bind_eq (upd_stats _)) by reflexivity
    | erewrite (bind_eq note_error) by reflexivity ]; cbv beta.

(** [m'] is [m] below [fin 0 l] but for the link of the last free block. *)
Definition relinked (m m' : gmap Z block_hdr) (l : list (Z * bool)) (prev n : Z) : Prop :=
  ∀ o, 0 ≤ o < fin 0 l → cl m' o = if o =? prev then relink (cl m o) n else cl m o.

Lemma seg_prefix_relink m m' l prev nxt n :
  seg m 0 l nxt → prev_is l prev → fin 0 l < 2 ^ 31 → relinked m m' l prev n →
  seg m' 0 l n.
Proof.
  intros Hs Hp Hlt Hr. destruct Hp as [[-> Hu]|(l1 & ps & l2 & -> & Hu & ->)].
  - eapply seg_frame; [eapply all_used_seg; done|]. intros o Ho. rewrite Hr by done.
    unfold END_OF_LIST. rewrite (proj2 (Z.eqb_neq _ _)) by lia. done.
  - eapply seg_frame; [eapply seg_relink; done|]. intros o Ho. rewrite Hr by done.
    destruct (Z.eqb_spec o (fin 0 l1)) as [->|].
    + by rewrite cl_insert.
    + by rewrite cl_insert_ne.
Qed.

Lemma nf_prefix m l prev nxt n :
  seg m 0 l nxt → prev_is l prev → fin 0 l < 2 ^ 31 →
  nf 0 l n = if prev =? END_OF_LIST then n else nf 0 l nxt.
Proof.
  intros Hs Hp Hlt. destruct Hp as [[-> Hu]|(l1 & ps & l2 & -> & Hu & ->)].
  - rewrite Z.eqb_refl. by rewrite all_used_nf.
  - apply seg_app in Hs as [Hl1 Hr]. rewrite fin_app in Hlt.
    pose proof (seg_fin_le _ _ _ _ Hl1). pose proof (seg_fin_le _ _ _ _ Hr).
    unfold END_OF_LIST. rewrite (proj2 (Z.eqb_neq _ _)) by lia.
    by rewrite !nf_app.
Qed.

(** Replacing the block at [fin 0 l] by the blocks [mid] of the same extent. *)
Lemma seg_replace m m' l sz u mid r prev :
  seg m 0 (l ++ (sz, u) :: r) END_OF_LIST → prev_is l prev → fin 0 (l ++ (sz, u) :: r) < 2 ^ 31 →
  fin (fin 0 l) mid = fin 0 l + 16 + sz →
  relinked m m' l prev (nf (fin 0 l) (mid ++ r) END_OF_LIST) →
  (∀ o, fin 0 l + 16 + sz ≤ o → cl m' o = cl m o) →
  seg m' (fin 0 l) mid (nf (fin 0 l + 16 + sz) r END_OF_LIST) →
  seg m' 0 (l ++ mid ++ r) END_OF_LIST ∧
  nf 0 (l ++ mid ++ r) END_OF_LIST =
    if prev =? END_OF_LIST then nf (fin 0 l) (mid ++ r) END_OF_LIST
    else nf 0 (l ++ (sz, u) :: r) END_OF_LIST.
Proof.
  intros Hs Hp Hlt Hfin Hr Hr2 Hmid.
  apply seg_app in Hs as [Hl (Hsz & Hmod & Hh & Hrs)].
  rewrite fin_app in Hlt. simpl in Hlt. pose proof (seg_fin_le _ _ _ _ Hrs).
  split.
  - rewrite !seg_app, Hfin. split_and!; [|done|].
    + eapply seg_prefix_relink; [done..|lia|done].
    + eapply seg_frame; [exact Hrs|]. intros. apply Hr2. lia.
  - rewrite (nf_app 0 l), (nf_app 0 l). eapply nf_prefix; [done..|lia].
Qed.

Lemma accounted_alloc s sz : accounted s →
  accounted (Stats (total_bytes s) (u32 (used_bytes s + sz)) (u32 (free_bytes s - sz))
    (if high_water s <? u32 (used_bytes s + sz) then u32 (used_bytes s + sz) else high_water s)
    (u32 (alloc_count s + 1)) (free_count s) (errors s)).
Proof.
  unfold accounted, u32. simpl. intros <-. rewrite <- Z.add_mod by lia. f_equal. lia.
Qed.

Lemma memguard_check_ok ptr sz al h :
  ∃ b h', memguard_check_allocation ptr sz al h = Some (b, h') ∧
    arch64 h' = arch64 h ∧ hbase h' = hbase h ∧ hsize h' = hsize h ∧
    free_head h' = free_head h ∧ cells h' = cells h ∧ stats h' = stats h.
Proof.
  unfold memguard_check_allocation. repeat case_if; do 2 eexists; split_and!; reflexivity.
Qed.

(** Facts every operation needs about the block at [fin 0 l]. *)
Lemma wfs_block h l sz u r :
  wfs h (l ++ (sz, u) :: r) →
  0 ≤ fin 0 l ∧ fin 0 l mod 16 = 0 ∧ 0 ≤ sz ∧ sz mod 16 = 0 ∧
  fin 0 l + 16 + sz ≤ hsize h ∧
  hdr_ok (cl (cells h) (fin 0 l)) sz u (nf (fin 0 l + 16 + sz) r END_OF_LIST).
Proof.
  intros (Hg & Hfin & Hs & _ & _). pose proof Hs as Hs'.
  apply seg_app in Hs as [Hl (Hsz & Hmod & Hh & Hr)].
  pose proof (seg_fin_le _ _ _ _ Hl). pose proof (seg_fin_le _ _ _ _ Hr).
  pose proof (seg_fin_mod _ _ _ _ Hl). rewrite fin_app in Hfin. simpl in Hfin.
  split_and!; [lia|auto|done..|lia|done].
Qed.

(** [prev_off], when it is a block, is a free block below the current one. *)
Lemma prev_is_block h l r prev :
  wfs h (l ++ r) → prev_is l prev → prev ≠ END_OF_LIST →
  0 ≤ prev ∧ prev mod 16 = 0 ∧ prev + 16 ≤ fin 0 l ∧ fin 0 l ≤ hsize h.
Proof.
  intros Hw [[-> _]|(l1 & ps & l2 & -> & Hu & ->)] Hp; [done|].
  rewrite <- app_assoc in Hw. simpl in Hw.
  destruct (wfs_block _ _ _ _ _ Hw) as (? & ? & ? & ? & ? & _).
  destruct Hw as (_ & Hfin & Hs & _). apply seg_app in Hs as [_ (_ & _ & _ & Hs)].
  apply seg_app in Hs as [Hl2 Hr].
  pose proof (seg_fin_le _ _ _ _ Hl2). pose proof (seg_fin_le _ _ _ _ Hr).
  rewrite !fin_app in *. simpl in *. rewrite fin_app in Hfin. lia.
Qed.

(** The cells after the optional split. *)
Definition split_cells (need sz off nxt : Z) (m : gmap Z block_hdr) : gmap Z block_hdr :=
  if need + 32 <=? sz
  then <[off := Hdr MAGIC_FREE need (off + 16 + need) 0]>
         (<[off + 16 + need := Hdr MAGIC_FREE (sz - need - 16) nxt 0]> m)
  else m.

Lemma split_block_eq need off sz nxt h :
  geom h → 0 ≤ off → off mod 16 = 0 → 0 ≤ need → need mod 16 = 0 →
  off + 16 + sz ≤ hsize h → hdr_ok (cl (cells h) off) sz false nxt → need + 16 ≤ sz →
  split_block need off h = Some (tt, set_cells (split_cells need sz off nxt (cells h)) h).
Proof.
  intros (? & ? & ? & ? & ?) Ho Hom Hn Hnm Hend (Hs & Hm & Hu & Hnx) Hfit.
  unfold split_block, HDR_SIZE, ALIGN. mrun ltac:(apply cell_ok_true; lia).
  rewrite !szt_small by lia. rewrite Hs. unfold split_cells.
  replace (need + 16 + 16) with (need + 32) by lia. case_if; bool_prop.
  - rewrite !u32_small by lia. cbv zeta.
    mrun ltac:(apply cell_ok_true; simpl; mod_lia).
    rewrite sth_eq by (apply cell_ok_true; simpl; lia). simpl.
    rewrite cl_insert_ne by lia. by rewrite Hm, Hu, Hnx.
  - destruct h; reflexivity.
Qed.

Lemma unlink_eq prev off h :
  geom h → 0 ≤ off → off mod 16 = 0 → off + 16 ≤ hsize h →
  (prev ≠ END_OF_LIST → 0 ≤ prev ∧ prev mod 16 = 0 ∧ prev + 16 ≤ off) →
  unlink prev off h = Some (tt,
    let n := next_off (cl (cells h) off) in
    if prev =? END_OF_LIST then set_free_head n h
    else set_cells (<[prev := relink (cl (cells h) prev) n]> (cells h)) h).
Proof.
  intros (? & ? & ? & ? & ?) Ho Hom Hend Hp. unfold unlink.
  mrun ltac:(apply cell_ok_true; lia). case_if; [done|]. bool_prop.
  specialize (Hp E) as (? & ? & ?). mrun ltac:(apply cell_ok_true; lia).
  by rewrite sth_eq by (apply cell_ok_true; lia).
Qed.

Lemma mark_used_eq off h :
  0 ≤ off → off mod 16 = 0 → off + 16 ≤ hsize h → accounted (stats h) →
  ∃ h', mark_used off h = Some (Some (hbase h + off + 16), h') ∧
    cells h' = <[off := Hdr MAGIC_USED (size (cl (cells h) off))
                         (next_off (cl (cells h) off)) 1]> (cells h) ∧
    free_head h' = free_head h ∧ accounted (stats h') ∧
    arch64 h' = arch64 h ∧ hbase h' = hbase h ∧ hsize h' = hsize h.
Proof.
  intros Ho Hom Hend Hacc. unfold mark_used, HDR_SIZE.
  mrun ltac:(apply cell_ok_true; lia). unfold note_alloc.
  mrun ltac:(apply cell_ok_true; lia).
  match goal with |- context [bind (memguard_check_allocation ?p ?z ?a) _ ?h0] =>
    destruct (memguard_check_ok p z a h0) as (b & h' & Hr & ? & ? & ? & ? & ? & Hst)
  end.
  rewrite (bind_eq _ _ _ _ _ Hr). eexists; split; [reflexivity|].
  split_and!; [done|done| |done..].
  rewrite Hst. by apply accounted_alloc.
Qed.

(** The cells after the whole of [take_block]: [n] is the new head of the rest
    of the free list. *)
Definition taken_cells (need prev sz off nxt n : Z) (m : gmap Z block_hdr) : gmap Z block_hdr :=
  let m1 := split_cells need sz off nxt m in
  let m2 := if prev =? END_OF_LIST then m1 else <[prev := relink (cl m1 prev) n]> m1 in
  <[off := Hdr MAGIC_USED (if need + 32 <=? sz then need else sz) n 1]> m2.

Lemma split_cells_other need sz off nxt m o :
  need + 16 ≤ sz → 0 ≤ need → o ≠ off → o < off ∨ off + 16 + sz ≤ o →
  cl (split_cells need sz off nxt m) o = cl m o.
Proof.
  intros. unfold split_cells. case_if; [|done]. bool_prop.
  by rewrite !cl_insert_ne by lia.
Qed.

Lemma taken_cells_other need prev sz off nxt n m o :
  need + 16 ≤ sz → 0 ≤ need → 0 ≤ o < 2 ^ 31 → o ≠ off → o < off ∨ off + 16 + sz ≤ o →
  cl (taken_cells need prev sz off nxt n m) o = if o =? prev then relink (cl m o) n else cl m o.
Proof.
  intros ? ? ? ? ?. unfold taken_cells. rewrite cl_insert_ne by lia.
  destruct (Z.eqb_spec prev END_OF_LIST) as [->|].
  - rewrite (proj2 (Z.eqb_neq o _)) by (unfold END_OF_LIST; lia). by apply split_cells_other.
  - destruct (Z.eqb_spec o prev) as [->|];
      [rewrite cl_insert|rewrite cl_insert_ne by lia]; by rewrite split_cells_other.
Qed.

Lemma taken_cells_seg need prev sz off nxt n m :
  0 ≤ need → need mod 16 = 0 → 0 ≤ sz → sz mod 16 = 0 → need + 16 ≤ sz →
  (prev ≠ END_OF_LIST → prev < off) → 0 ≤ off → off + sz < 2 ^ 31 →
  seg (taken_cells need prev sz off nxt n m) off (carve need sz) nxt.
Proof.
  intros ? ? ? ? ? Hprev ? ?. unfold carve, taken_cells, split_cells.
  case_if; bool_prop; simpl seg.
  - split_and!; [lia|done|by rewrite cl_insert|lia|mod_lia| |done].
    rewrite cl_insert_ne by lia.
    destruct (Z.eqb_spec prev END_OF_LIST) as [->|Hne];
      [|specialize (Hprev Hne); rewrite cl_insert_ne by lia];
      by rewrite cl_insert_ne, cl_insert by lia.
  - split_and!; [lia|done|by rewrite cl_insert|done].
Qed.

Lemma take_block_eq need prev h l sz r :
  wfs h (l ++ (sz, false) :: r) → prev_is l prev →
  0 ≤ need → need mod 16 = 0 → need + 16 ≤ sz →
  let off := fin 0 l in
  let n := nf off (carve need sz ++ r) END_OF_LIST in
  ∃ h', take_block need prev off h = Some (Some (hbase h + off + 16), h') ∧
    cells h' = taken_cells need prev sz off (nf (off + 16 + sz) r END_OF_LIST) n (cells h) ∧
    free_head h' = (if prev =? END_OF_LIST then n else free_head h) ∧
    accounted (stats h') ∧ arch64 h' = arch64 h ∧ hbase h' = hbase h ∧ hsize h' = hsize h.
Proof.
  intros Hw Hp Hneed Hnm Hfit off n.
  destruct (wfs_block _ _ _ _ _ Hw) as (Ho & Hom & Hsz & Hsm & Hend & Hh).
  pose proof (prev_is_block _ _ _ _ Hw Hp) as Hprev.
  destruct Hw as (Hg & Hfin & Hs & Hfh & Hacc). fold off in Ho, Hom, Hend, Hh, Hprev.
  set (nxt := nf (off + 16 + sz) r END_OF_LIST) in *. unfold take_block.
  rewrite (bind_eq _ _ _ _ _ (split_block_eq _ _ _ _ _ Hg Ho Hom Hneed Hnm Hend Hh Hfit)).
  set (m1 := split_cells need sz off nxt (cells h)).
  assert (Hm1 : cl m1 off = Hdr MAGIC_FREE (if need + 32 <=? sz then need else sz) n 0).
  { unfold m1, split_cells, n, carve. destruct (cl (cells h) off) as [c1 c2 c3 c4] eqn:E.
    destruct Hh as (Hh1 & Hh2 & Hh3 & Hh4). simpl in *. case_if; simpl.
    - by rewrite cl_insert.
    - rewrite E. by subst. }
  rewrite (bind_eq _ _ _ _ _ (unlink_eq prev off (set_cells m1 h) Hg Ho Hom
    ltac:(simpl; lia) ltac:(intros Hne; destruct (Hprev Hne) as (? & ? & ? & ?); auto))).
  simpl cells. rewrite Hm1. simpl next_off.
  set (h2 := if prev =? END_OF_LIST then _ else _).
  assert (Hh2 : stats h2 = stats h ∧ hsize h2 = hsize h ∧ hbase h2 = hbase h ∧ arch64 h2 = arch64 h
    ∧ free_head h2 = (if prev =? END_OF_LIST then n else free_head h)
    ∧ cells h2 = if prev =? END_OF_LIST then m1 else <[prev := relink (cl m1 prev) n]> m1).
  { unfold h2. case_if; simpl; done. }
  destruct Hh2 as (Hst2 & Hsz2 & Hb2 & Ha2 & Hf2 & Hc2).
  destruct (mark_used_eq off h2) as (h' & Hr & Hc' & Hf' & Hacc' & Ha' & Hb' & Hs');
    [done|done|lia|by rewrite Hst2|].
  exists h'. rewrite Hr, Hb2. split_and!; [done| |congruence..].
  assert (cl (cells h2) off = cl m1 off) as Hoff2.
  { rewrite Hc2. destruct (Z.eqb_spec prev END_OF_LIST) as [|Hne]; [done|].
    apply cl_insert_ne. destruct (Hprev Hne). lia. }
  rewrite Hoff2, Hm1, Hc2 in Hc'. exact Hc'.
Qed.

Lemma take_block_spec need prev h l sz r :
  wfs h (l ++ (sz, false) :: r) → prev_is l prev →
  0 ≤ need → need mod 16 = 0 → need + 16 ≤ sz →
  ∃ h', take_block need prev (fin 0 l) h = Some (Some (hbase h + fin 0 l + 16), h') ∧
    wfs h' (l ++ carve need sz ++ r) ∧ hbase h' = hbase h ∧ hsize h' = hsize h.
Proof.
  intros Hw Hp Hneed Hnm Hfit.
  destruct (take_block_eq _ _ _ _ _ _ Hw Hp Hneed Hnm Hfit)
    as (h' & Hr & Hc & Hf & Hacc & Ha & Hb & Hz).
  destruct (wfs_block _ _ _ _ _ Hw) as (Ho & Hom & Hsz & Hsm & Hend & Hh).
  pose proof (prev_is_block _ _ _ _ Hw Hp) as Hprev.
  destruct Hw as (Hg & Hfin & Hs & Hfh & _). pose proof Hg as (? & ? & ? & ? & ?).
  exists h'. split_and!; [done| |done..]. set (off := fin 0 l) in *.
  destruct (seg_replace (cells h) (cells h') l sz false (carve need sz) r prev)
    as [Hseg Hnf]; [done|done|lia| | | | |].
  - fold off. unfold carve. case_if; simpl; lia.
  - intros o Hlt. fold off in Hlt. rewrite Hc. apply taken_cells_other; lia.
  - intros o Hge. fold off in Hge. rewrite Hc.
    destruct (decide (o < 2 ^ 31)).
    + rewrite taken_cells_other by lia. rewrite (proj2 (Z.eqb_neq o prev)); [done|].
      intros ->. unfold END_OF_LIST in Hprev. lia.
    + unfold taken_cells. rewrite cl_insert_ne by lia.
      destruct (Z.eqb_spec prev END_OF_LIST); [by apply split_cells_other; lia|].
      rewrite cl_insert_ne by (destruct Hprev; lia). by apply split_cells_other; lia.
  - fold off. rewrite Hc. apply taken_cells_seg; done || lia.
  - unfold wfs. rewrite Hz. split_and!.
    + unfold geom. by rewrite Hb, Hz.
    + rewrite <- Hfin, !fin_app. simpl. fold off. unfold carve. case_if; simpl; f_equal; lia.
    + done.
    + rewrite Hf, Hnf. case_if; [done|]. by rewrite <- Hfh.
    + done.
Qed.

Lemma wfs_app_cons h l b r : wfs h (l ++ b :: r) ↔ wfs h ((l ++ [b]) ++ r).
Proof. by rewrite <- app_assoc. Qed.

Lemma seg_fin_bound h l r : wfs h (l ++ r) → 0 ≤ fin 0 l ≤ hsize h.
Proof.
  intros (_ & Hfin & Hs & _). apply seg_app in Hs as [Hl Hr].
  pose proof (seg_fin_le _ _ _ _ Hl). pose proof (seg_fin_le _ _ _ _ Hr).
  rewrite fin_app in Hfin. lia.
Qed.

Lemma fin_snoc l sz u : fin 0 (l ++ [(sz, u)]) = fin 0 l + 16 + sz.
Proof. by rewrite fin_app. Qed.

(** [kmalloc_search] from the state in which the blocks [l] have been passed. *)
Lemma kmalloc_search_spec need h r : ∀ l prev fuel,
  wfs h (l ++ r) → prev_is l prev → (length r < fuel)%nat →
  0 ≤ need → need mod 16 = 0 → szt h (need + 16) = need + 16 →
  match first_fit need (fin 0 l) r with
  | Some (o, r') => ∃ h',
      kmalloc_search fuel need prev (nf (fin 0 l) r END_OF_LIST) h = Some (Some (hbase h + o + 16), h') ∧
      wfs h' (l ++ r') ∧ hbase h' = hbase h ∧ hsize h' = hsize h
  | None =>
      kmalloc_search fuel need prev (nf (fin 0 l) r END_OF_LIST) h = (note_error ;; ret None) h
  end.
Proof.
  induction r as [|[sz u] r IH]; intros l prev [|fuel] Hw Hp Hfuel Hn Hnm Hlt;
    [simpl in Hfuel; lia|done|simpl in Hfuel; lia|].
  simpl in Hfuel. pose proof Hw as Hw2. rewrite wfs_app_cons in Hw2.
  destruct (wfs_block _ _ _ _ _ Hw) as (Ho & Hom & Hsz & Hsm & Hend & Hh).
  pose proof Hw as ((_ & _ & _ & Hhs & _) & _).
  destruct u; simpl first_fit; simpl nf.
  - (* a used block is not on the list *)
    specialize (IH (l ++ [(sz, true)]) prev (S fuel) Hw2 (prev_is_used _ _ _ Hp)
                   ltac:(lia) Hn Hnm Hlt).
    rewrite fin_snoc in IH. simpl.
    destruct (first_fit need (fin 0 l + 16 + sz) r) as [[o r']|]; [|exact IH].
    simpl. destruct IH as (h' & ? & Hw' & ?). exists h'.
    by rewrite <- app_assoc in Hw'.
  - (* a free block: big enough, or go on *)
    cbn [kmalloc_search]. rewrite (proj2 (Z.eqb_neq _ END_OF_LIST)) by (unfold END_OF_LIST; lia).
    mrun ltac:(apply cell_ok_true; lia). destruct Hh as (Hhs1 & Hhm & Hhu & Hhn).
    unfold HDR_SIZE. rewrite Hlt, Hhs1. simpl negb. case_if; bool_prop; simpl.
    + destruct (take_block_spec need prev h l sz r) as (h' & ? & ? & ? & ?); [done..|].
      exists h'. done.
    + specialize (IH (l ++ [(sz, false)]) (fin 0 l) fuel Hw2 (prev_is_free _ _)
                     ltac:(lia) Hn Hnm Hlt).
      rewrite fin_snoc, <- Hhn in IH.
      destruct (first_fit need (fin 0 l + 16 + sz) r) as [[o r']|]; [|exact IH].
      simpl. destruct IH as (h' & ? & Hw' & ?). exists h'. by rewrite <- app_assoc in Hw'.
Qed.

Lemma seg_length m off bs nxt : seg m off bs nxt → off + 16 * zlen bs ≤ fin off bs.
Proof.
  revert off. induction bs as [|[sz u] r IH]; intros off; simpl; [unfold zlen; simpl; lia|].
  intros (? & _ & _ & H). apply IH in H. rewrite zlen_cons. lia.
Qed.

(** The rounded size: the addition wraps for the fifteen largest sizes. *)
Lemma align_up_eq v :
  0 ≤ v < 2 ^ 32 → align_up v = if v <=? 0xFFFFFFF0 then 16 * ((v + 15) / 16) else 0.
Proof.
  intros Hv. unfold align_up, ALIGN. destruct (Z.leb_spec v 0xFFFFFFF0).
  2: { unfold u32. replace (v + 16 - 1) with (v - 0xFFFFFFF1 + 1 * 2 ^ 32) by lia.
       rewrite Z.mod_add, Z.mod_small by lia. set (x := v - 0xFFFFFFF1).
       assert (Hx : forallb (λ x, Z.land x (0xFFFFFFFF - (16 - 1)) =? 0) (seqZ 0 15) = true) by reflexivity.
       rewrite forallb_forall in Hx. specialize (Hx x).
       rewrite <- list_elem_of_In, elem_of_seqZ, Z.eqb_eq in Hx. apply Hx. lia. }
  rewrite u32_small by lia. set (x := v + 16 - 1).
  replace (Z.land x (0xFFFFFFFF - (16 - 1))) with (x - x mod 16); [unfold x; mod_lia|].
  change (0xFFFFFFFF - (16 - 1)) with (Z.shiftl (2 ^ 28 - 1) 4).
  replace (x - x mod 16) with (Z.shiftl (Z.shiftr x 4) 4)
    by (rewrite Z.shiftl_mul_pow2, Z.shiftr_div_pow2 by lia; change (2 ^ 4) with 16; mod_lia).
  symmetry. apply Z.bits_inj'. intros n Hn. rewrite Z.land_spec.
  destruct (decide (n < 4)).
  - by rewrite !Z.shiftl_spec_low, andb_false_r by lia.
  - rewrite !Z.shiftl_spec, Z.shiftr_spec by lia.
    replace (n - 4 + 4) with n by lia.
    change (2 ^ 28 - 1) with (Z.ones 28). rewrite Z.testbit_ones_nonneg by lia.
    destruct (Z.ltb_spec (n - 4) 28); [by rewrite andb_true_r|].
    rewrite andb_false_r. rewrite <- (Z.mod_small x (2 ^ 32)) by (unfold x; lia).
    symmetry. apply Z.mod_pow2_bits_high. lia.
Qed.

Lemma align_up_spec v :
  0 ≤ v < 2 ^ 31 → align_up v mod 16 = 0 ∧ v ≤ align_up v < v + 16.
Proof. intros Hv. rewrite align_up_eq, (proj2 (Z.leb_le _ _)) by lia. mod_lia. Qed.

Lemma nadj_app b l r :
  nadj b (l ++ r) ↔ nadj b l ∧
  nadj (match list.last l with Some (_, u) => negb u | None => b end) r.
Proof.
  revert b. induction l as [|[sz u] l IH]; intros b; [simpl; tauto|].
  cbn [nadj app]. rewrite IH. destruct l as [|b2 l]; [simpl; tauto|].
  change (list.last ((sz, u) :: b2 :: l)) with (list.last (b2 :: l)).
  destruct (list.last (b2 :: l)) as [[]|] eqn:E; [tauto|]. by apply last_None in E.
Qed.

Lemma first_fit_nadj need bs : ∀ off b o bs',
  nadj b bs → first_fit need off bs = Some (o, bs') → nadj b bs'.
Proof.
  induction bs as [|[sz u] r IH]; intros off b o bs' Hn; simpl; [done|].
  destruct Hn as [Hb Hr]. case_if.
  - intros [= <- <-]. bool_prop. destruct u; [done|]. unfold carve. case_if; simpl.
    + rewrite andb_false_r. split_and!; [done..|]. done.
    + rewrite andb_false_r. split; [done|].
      destruct r as [|[sz2 u2] r]; [done|]. simpl in *. destruct u2; naive_solver.
  - destruct (first_fit need (off + 16 + sz) r) as [[o2 r2]|] eqn:E2; [|done].
    intros [= <- <-]. simpl. eauto.
Qed.

(** *** kfree *)

(** Storing [k] cells of payload changes those cells only. *)
Lemma put_bytes_ok n : ∀ off l h,
  0 ≤ off → off mod 16 = 0 → off + 16 * Z.of_nat n ≤ hsize h →
  ∃ m, put_bytes n off l h = Some (tt, set_cells m h) ∧
    ∀ o, o < off ∨ off + 16 * Z.of_nat n ≤ o → cl m o = cl (cells h) o.
Proof.
  induction n as [|n IH]; intros off l h Ho Hm Hlen.
  { exists (cells h). split; [destruct h; reflexivity|done]. }
  destruct l as [|x l].
  { exists (cells h). split; [destruct h; reflexivity|done]. }
  cbn [put_bytes]. mrun ltac:(apply cell_ok_true; lia).
  match goal with |- context [put_bytes n _ ?k ?h1] =>
    destruct (IH (off + 16) k h1) as (m & Hr & Hf); [lia|mod_lia|simpl; lia|] end.
  rewrite Hr. exists m. split; [done|].
  intros o Hor. rewrite Hf by lia. simpl. apply cl_insert_ne. lia.
Qed.

Lemma poison_ok off sz h :
  0 ≤ off → off mod 16 = 0 → 0 ≤ sz → sz mod 16 = 0 → off + sz ≤ hsize h →
  ∃ h', memguard_poison_free off sz h = Some (tt, h') ∧
    (∀ o, o < off ∨ off + sz ≤ o → cl (cells h') o = cl (cells h) o) ∧
    arch64 h' = arch64 h ∧ hbase h' = hbase h ∧ hsize h' = hsize h ∧
    free_head h' = free_head h ∧ stats h' = stats h.
Proof.
  intros Ho Hm Hsz Hsm Hlen. unfold memguard_poison_free, memset_payload.
  assert (16 * Z.of_nat (ncells sz) = sz) as Hn.
  { unfold ncells. rewrite Z2Nat.id by (apply Z.div_pos; lia). mod_lia. }
  destruct (put_bytes_ok (ncells sz) off (replicate (Z.to_nat sz) POISON_BYTE) h)
    as (m & Hr & Hf); [done..|lia|].
  rewrite (bind_eq _ _ _ _ _ Hr). eexists; split; [reflexivity|]. simpl.
  split_and!; [|done..]. intros. apply Hf. lia.
Qed.

(** The walk passes the free blocks below [off] and stops at the first one
    above it. *)
Lemma kfree_walk_spec h off nxt l1 : ∀ l0 prev fuel,
  seg (cells h) 0 (l0 ++ l1) nxt → prev_is l0 prev →
  fin 0 (l0 ++ l1) = off → off ≤ hsize h → hsize h < 2 ^ 31 →
  (nxt = END_OF_LIST ∨ off ≤ nxt) → (length l1 < fuel)%nat →
  ∃ prev', kfree_walk fuel off prev (nf (fin 0 l0) l1 nxt) h = Some ((prev', nxt), h) ∧
    prev_is (l0 ++ l1) prev'.
Proof.
  induction l1 as [|[sz u] l1 IH]; intros l0 prev [|fuel] Hs Hp Hfin Hle Hlt Hnxt Hfuel;
    try (simpl in Hfuel; lia).
  - exists prev. simpl. rewrite app_nil_r. split; [|done].
    destruct Hnxt as [->|Hn]; [by rewrite Z.eqb_refl|].
    rewrite (proj2 (Z.ltb_ge nxt off)) by lia. by rewrite andb_false_r.
  - replace (l0 ++ (sz, u) :: l1) with ((l0 ++ [(sz, u)]) ++ l1) in *
      by (rewrite <- app_assoc; done).
    simpl in Hfuel. pose proof Hs as Hs'. rewrite <- app_assoc in Hs'. simpl in Hs'.
    apply seg_app in Hs' as [Hl (Hsz & Hsm & Hh & Hr)].
    pose proof (seg_fin_le _ _ _ _ Hl). pose proof (seg_fin_le _ _ _ _ Hr).
    pose proof (seg_fin_mod _ _ _ _ Hl eq_refl).
    assert (fin (fin 0 l0 + 16 + sz) l1 = off) by (by rewrite <- Hfin, fin_app, fin_snoc).
    destruct u; simpl nf.
    + destruct (IH (l0 ++ [(sz, true)]) prev (S fuel)) as (p & Hw & Hp'); try done.
      { by apply prev_is_used. }
      { lia. }
      exists p. rewrite fin_snoc in Hw. done.
    + destruct (IH (l0 ++ [(sz, false)]) (fin 0 l0) fuel) as (p & Hw & Hp'); try done.
      { apply prev_is_free. }
      { lia. }
      exists p. split; [|done]. cbn [kfree_walk].
      rewrite (proj2 (Z.eqb_neq _ END_OF_LIST)) by (unfold END_OF_LIST; lia).
      rewrite (proj2 (Z.ltb_lt (fin 0 l0) off)) by lia.
      change (negb false && true)%bool with true. cbv iota.
      mrun ltac:(apply cell_ok_true; lia).
      destruct Hh as (_ & _ & _ & ->). by rewrite fin_snoc in Hw.
Qed.

(** A block [sz] between the segments [l] and [r], free but not yet linked. *)
Definition loose (h : heap) (l : list (Z * bool)) (sz : Z) (r : list (Z * bool)) : Prop :=
  geom h ∧ fin 0 l + 16 + sz ≤ hsize h ∧ fin (fin 0 l + 16 + sz) r = hsize h ∧
  0 ≤ sz ∧ sz mod 16 = 0 ∧
  seg (cells h) 0 l (nf (fin 0 l + 16 + sz) r END_OF_LIST) ∧
  seg (cells h) (fin 0 l + 16 + sz) r END_OF_LIST ∧
  free_head h = nf 0 l (nf (fin 0 l + 16 + sz) r END_OF_LIST) ∧
  hdr_ok (cl (cells h) (fin 0 l)) sz false (nf (fin 0 l + 16 + sz) r END_OF_LIST) ∧
  accounted (stats h).

Lemma loose_no_prev h l sz r :
  loose h l sz r → all_used l → wfs (set_free_head (fin 0 l) h) (l ++ (sz, false) :: r).
Proof.
  intros (Hg & ? & Hfin & ? & ? & Hl & Hr & Hf & Hh & Hacc) Hu. unfold wfs. simpl.
  split_and!; [done|by rewrite fin_app| | |done].
  - apply seg_app. simpl. split_and!; [|done..]. by eapply all_used_seg.
  - rewrite nf_app. simpl. by rewrite all_used_nf.
Qed.

Lemma loose_link h l1 ps l2 sz r :
  loose h (l1 ++ (ps, false) :: l2) sz r → all_used l2 →
  let off := fin 0 (l1 ++ (ps, false) :: l2) in
  wfs (set_cells (<[fin 0 l1 := relink (cl (cells h) (fin 0 l1)) off]> (cells h)) h)
      ((l1 ++ (ps, false) :: l2) ++ (sz, false) :: r).
Proof.
  intros (Hg & ? & Hfin & ? & ? & Hl & Hr & Hf & Hh & Hacc) Hu off. fold off in Hh, Hr, Hfin, Hl.
  assert (Hp : 0 ≤ fin 0 l1 < off).
  { apply seg_app in Hl as [Hl1 (? & ? & ? & Hl2)]. pose proof (seg_fin_le _ _ _ _ Hl1).
    pose proof (seg_fin_le _ _ _ _ Hl2). unfold off. rewrite fin_app. simpl. lia. }
  unfold wfs. simpl. split_and!; [done|by rewrite fin_app| | |done].
  - rewrite (seg_app _ _ (l1 ++ (ps, false) :: l2)). fold off. simpl. split_and!; [|done..| |].
    + by eapply seg_relink.
    + by rewrite cl_insert_ne by lia.
    + eapply seg_frame; [exact Hr|]. intros. apply cl_insert_ne. lia.
  - rewrite Hf, !nf_app. done.
Qed.

(** Merging a free block with the free block before it. *)
Lemma wfs_merge h l s1 s2 r c :
  wfs h (l ++ (s1, false) :: (s2, false) :: r) →
  hdr_ok c (s1 + 16 + s2) false (nf (fin 0 l + 16 + (s1 + 16 + s2)) r END_OF_LIST) →
  wfs (set_cells (<[fin 0 l := c]> (cells h)) h) (l ++ (s1 + 16 + s2, false) :: r).
Proof.
  intros (Hg & Hfin & Hs & Hf & Hacc) Hc.
  apply seg_app in Hs as [Hl (? & ? & _ & ? & ? & _ & Hr)]. simpl in Hl.
  pose proof (seg_fin_le _ _ _ _ Hl).
  replace (fin 0 l + 16 + s1 + 16 + s2) with (fin 0 l + 16 + (s1 + 16 + s2)) in * by lia.
  unfold wfs. simpl. split_and!; [done| | | |done].
  - rewrite <- Hfin, !fin_app. simpl. f_equal. lia.
  - apply seg_app. simpl. split_and!; [|lia|mod_lia|by rewrite cl_insert|].
    + eapply seg_frame; [exact Hl|]. intros. apply cl_insert_ne. lia.
    + eapply seg_frame; [exact Hr|]. intros. apply cl_insert_ne. lia.
  - rewrite Hf, !nf_app. done.
Qed.

Lemma join_prev_used l sz :
  (∀ ps l', l ≠ l' ++ [(ps, false)]) → join_prev l sz = (l, sz).
Proof.
  intros H. unfold join_prev. destruct (list.last l) as [[ps [|]]|] eqn:El; [done| |done].
  apply last_Some in El as [l' ->]. by edestruct H.
Qed.

Lemma join_prev_free l ps sz : join_prev (l ++ [(ps, false)]) sz = (l, ps + 16 + sz).
Proof. unfold join_prev. rewrite last_snoc. by rewrite removelast_last. Qed.

Lemma all_used_last l l0 ps :
  all_used l → l ≠ [] → ∀ l', l0 ++ l ≠ l' ++ [(ps, false)].
Proof.
  intros Hu Hne l' Heq. destruct l as [|b l _] using rev_ind; [done|].
  rewrite app_assoc in Heq. apply app_inj_tail in Heq as [_ ->].
  apply Forall_app in Hu as [_ Hu]. by apply Forall_cons_1 in Hu as [? _].
Qed.

Lemma link_prev_spec h l sz r prev :
  loose h l sz r → prev_is l prev →
  ∃ h', link_prev (fin 0 l) prev h = Some (fin 0 (join_prev l sz).1, h') ∧
    wfs h' ((join_prev l sz).1 ++ ((join_prev l sz).2, false) :: r) ∧
    hbase h' = hbase h ∧ hsize h' = hsize h.
Proof.
  intros Hlo Hp. unfold link_prev, HDR_SIZE.
  destruct Hp as [[-> Hu]|(l1 & ps & l2 & -> & Hu & ->)].
  - rewrite Z.eqb_refl. mrun idtac. rewrite join_prev_used.
    2: { destruct l as [|b l]; [intros ? [] ?; done|]. intros ps l'.
         by apply (all_used_last (b :: l) []). }
    eexists. split_and!; [done|by eapply loose_no_prev|done..].
  - pose proof (loose_link _ _ _ _ _ _ Hlo Hu) as Hw.
    pose proof Hlo as (Hg & ? & Hfin & ? & ? & Hl & Hr & Hf & Hh & Hacc).
    pose proof Hg as (? & ? & ? & ? & ?).
    pose proof (seg_fin_mod _ _ _ _ Hl eq_refl) as Hom.
    apply seg_app in Hl as [Hl1 (Hps & Hpm & Hph & Hl2)].
    pose proof (seg_fin_le _ _ _ _ Hl1). pose proof (seg_length _ _ _ _ Hl2) as Hlen.
    pose proof (seg_fin_mod _ _ _ _ Hl1 eq_refl).
    set (off := fin 0 (l1 ++ (ps, false) :: l2)) in *.
    assert (Hoff : off = fin (fin 0 l1 + 16 + ps) l2) by (unfold off; by rewrite fin_app).
    rewrite (proj2 (Z.eqb_neq _ END_OF_LIST)) by (unfold END_OF_LIST, zlen in *; lia).
    unfold zlen in Hlen.
    mrun ltac:(apply cell_ok_true; simpl; lia). rewrite !cells_set, !cl_insert.
    cbn [magic size next_off used].
    destruct Hph as (Hpsz & Hpmag & Hpu & Hpn). rewrite Hpsz, szt_small by lia.
    cbv zeta in Hw. unfold relink in Hw. rewrite Hpsz in Hw.
    destruct l2 as [|b l2].
    + (* adjacent: merge *)
      simpl in Hoff. rewrite Hoff, Z.eqb_refl. rewrite <- Hoff.
      mrun ltac:(apply cell_ok_true; simpl; lia).
      rewrite !cells_set, !cl_insert_ne by lia. destruct Hh as (Hhs & Hhm & Hhu & Hhn).
      rewrite Hhs, Hhn, szt_small, u32_small by lia.
      rewrite join_prev_free. simpl fst. simpl snd. rewrite <- app_assoc in Hw.
      eexists. split_and!; [reflexivity| |done..].
      eapply wfs_merge; [exact Hw|]. unfold hdr_ok. simpl. rewrite Hpmag, Hpu.
      split_and!; try done. f_equal. lia.
    + rewrite (proj2 (Z.eqb_neq _ off)).
      2: { destruct b as [bs bu]. simpl in Hoff, Hlen.
           destruct Hl2 as (? & ? & ? & Hl2). pose proof (seg_fin_le _ _ _ _ Hl2). lia. }
      rewrite join_prev_used.
      2: { intros ps' l'. replace (l1 ++ (ps, false) :: b :: l2)
             with ((l1 ++ [(ps, false)]) ++ b :: l2) by (rewrite <- app_assoc; done).
           by apply all_used_last. }
      eexists. split_and!; [reflexivity|exact Hw|done..].
Qed.

Lemma merge_next_spec h l sz r :
  wfs h (l ++ (sz, false) :: r) →
  ∃ h', merge_next (fin 0 l) h = Some (tt, h') ∧ wfs h' (l ++ join_next sz r) ∧
    hbase h' = hbase h ∧ hsize h' = hsize h.
Proof.
  intros Hw. destruct (wfs_block _ _ _ _ _ Hw) as (Ho & Hom & Hsz & Hsm & Hend & Hh).
  pose proof Hw as (Hg & Hfin & Hs & Hf & Hacc). pose proof Hg as (? & ? & ? & ? & ?).
  apply seg_app in Hs as [Hl (_ & _ & _ & Hr)].
  destruct Hh as (Hhs & Hhm & Hhu & Hhn). unfold merge_next, HDR_SIZE.
  mrun ltac:(apply cell_ok_true; lia). rewrite Hhs, Hhn, szt_small by lia.
  destruct r as [|[ns nu] r].
  { cbn [nf]. rewrite (Z.eqb_refl END_OF_LIST), andb_false_r. eauto 6. }
  destruct nu; cbn [nf join_next].
  - (* the next block is in use: the next free block lies beyond it *)
    destruct Hr as (Hns & _ & _ & Hr). pose proof (nf_range _ _ _ _ Hr) as Hnf.
    rewrite (proj2 (Z.eqb_neq (fin 0 l + 16 + sz) _)) by (unfold END_OF_LIST in *; lia).
    eauto 6.
  - destruct Hr as (Hns & Hnm & (Hn1 & Hn2 & Hn3 & Hn4) & Hr).
    rewrite Z.eqb_refl. pose proof (seg_fin_le _ _ _ _ Hr).
    rewrite fin_app in Hfin. simpl in Hfin.
    rewrite (proj2 (Z.eqb_neq _ END_OF_LIST)) by (unfold END_OF_LIST; lia).
    change (true && negb false)%bool with true. cbv iota.
    mrun ltac:(apply cell_ok_true; mod_lia). rewrite Hn1, Hn2, Hn3, Hn4.
    change ((MAGIC_FREE =? MAGIC_FREE) && (0 =? 0))%bool with true. cbv iota.
    rewrite sth_eq by (apply cell_ok_true; lia). rewrite szt_small, u32_small by lia.
    eexists. split_and!; [reflexivity| |done..]. eapply wfs_merge; [done|].
    unfold hdr_ok. simpl. rewrite Hhm, Hhu. split_and!; try done. f_equal. lia.
Qed.

Lemma nadj_join l sz r u : nadj false (l ++ (sz, u) :: r) → nadj false (release l sz r).
Proof.
  intros Hn. apply nadj_app in Hn as [Hl [_ Hr]].
  assert (Hnext : ∀ b s, (b = true → False) → nadj b (join_next s r)).
  { intros b s Hb. destruct b; [by destruct Hb|].
    destruct r as [|[ns [|]] r], u; simpl in *; naive_solver. }
  unfold release. destruct (list.last l) as [[ps [|]]|] eqn:El.
  - rewrite join_prev_used; [|intros ps' l' ->; by rewrite last_snoc in El].
    apply nadj_app. rewrite El. split; [done|]. by apply Hnext.
  - apply last_Some in El as [l' ->]. rewrite join_prev_free.
    apply nadj_app in Hl as [Hl' [Hlast _]]. apply nadj_app. split; [done|].
    apply Hnext. intros Heq. rewrite Heq in Hlast. done.
  - apply last_None in El as ->. simpl. by apply Hnext.
Qed.

Lemma accounted_free s sz : accounted s →
  accounted (Stats (total_bytes s) (u32 (used_bytes s - sz)) (u32 (free_bytes s + sz))
    (high_water s) (alloc_count s) (u32 (free_count s + 1)) (errors s)).
Proof.
  unfold accounted, u32. simpl. intros <-. rewrite <- Z.add_mod by lia. f_equal. lia.
Qed.

(** A freed block before its insertion: the free list skips it. *)
Definition marked (h : heap) (l : list (Z * bool)) (sz : Z) (r : list (Z * bool)) : Prop :=
  geom h ∧ fin 0 l + 16 + sz ≤ hsize h ∧ fin (fin 0 l + 16 + sz) r = hsize h ∧
  0 ≤ sz ∧ sz mod 16 = 0 ∧
  seg (cells h) 0 l (nf (fin 0 l + 16 + sz) r END_OF_LIST) ∧
  seg (cells h) (fin 0 l + 16 + sz) r END_OF_LIST ∧
  free_head h = nf 0 l (nf (fin 0 l + 16 + sz) r END_OF_LIST) ∧
  (∃ n, cl (cells h) (fin 0 l) = Hdr MAGIC_FREE sz n 0) ∧
  accounted (stats h).

Lemma kfree_mark_spec h l sz r :
  wfs h (l ++ (sz, true) :: r) →
  ∃ h', kfree_mark (fin 0 l) (cl (cells h) (fin 0 l)) h = Some (tt, h') ∧ marked h' l sz r ∧
    hbase h' = hbase h ∧ hsize h' = hsize h.
Proof.
  intros Hw. destruct (wfs_block _ _ _ _ _ Hw) as (Ho & Hom & Hsz & Hsm & Hend & Hh).
  pose proof Hw as (Hg & Hfin & Hs & Hf & Hacc). pose proof Hg as (? & ? & ? & ? & ?).
  apply seg_app in Hs as [Hl (_ & _ & _ & Hr)]. rewrite fin_app in Hfin. simpl in Hfin, Hl.
  set (off := fin 0 l) in *. destruct Hh as (Hhs & Hhm & Hhu).
  unfold kfree_mark, HDR_SIZE. rewrite Hhs.
  destruct (poison_ok (off + 16) sz h) as (h2 & Hp & Hcl & Ha2 & Hb2 & Hz2 & Hf2 & Hst2);
    [lia|mod_lia|done..|lia|].
  rewrite (bind_eq _ _ _ _ _ Hp). mrun idtac.
  rewrite sth_eq by (apply cell_ok_true; simpl; lia).
  eexists. split_and!; [reflexivity| |done..].
  assert (Hcl3 : ∀ n o, o < off ∨ off + 16 + sz ≤ o →
    cl (<[off := n]> (cells h2)) o = cl (cells h) o).
  { intros n o Hor. rewrite cl_insert_ne by lia. apply Hcl. lia. }
  unfold marked, geom. simpl. rewrite Hb2, Hz2. fold off. split_and!; try done; try lia.
  - eapply seg_frame; [exact Hl|]. intros o Hlt. apply Hcl3. fold off in Hlt. lia.
  - eapply seg_frame; [exact Hr|]. intros. apply Hcl3. lia.
  - rewrite Hf2, Hf, nf_app. done.
  - eexists. by rewrite cl_insert.
  - rewrite Hst2. by apply accounted_free.
Qed.

Lemma kfree_insert_spec h l sz r :
  marked h l sz r →
  ∃ h', kfree_insert (fin 0 l) h = Some (tt, h') ∧ wfs h' (release l sz r) ∧
    hbase h' = hbase h ∧ hsize h' = hsize h.
Proof.
  intros (Hg & Hend & Hfin & Hsz & Hsm & Hl & Hr & Hf & [n Hc] & Hacc).
  pose proof Hg as (? & ? & ? & ? & ?). unfold kfree_insert. mrun idtac.
  pose proof (nf_range _ _ _ _ Hr) as Hnx. pose proof (seg_length _ _ _ _ Hl) as Hlen.
  pose proof (seg_fin_le _ _ _ _ Hl). pose proof (seg_fin_mod _ _ _ _ Hl eq_refl).
  unfold zlen in Hlen.
  destruct (kfree_walk_spec h (fin 0 l) (nf (fin 0 l + 16 + sz) r END_OF_LIST) l [] END_OF_LIST
    (S (ncells (hsize h)))) as (prev & Hwalk & Hpi); try done; try lia.
  { left. split; [done|constructor]. }
  { unfold ncells. mod_lia. }
  rewrite Hf, (bind_eq _ _ _ _ _ Hwalk). mrun ltac:(apply cell_ok_true; lia). rewrite Hc.
  cbn [magic size used].
  match goal with |- context [bind (link_prev _ _) _ ?hh] => set (h4 := hh) end.
  assert (Hlo : loose h4 l sz r).
  { unfold loose, h4. simpl. split_and!; try done.
    - eapply seg_frame; [exact Hl|]. intros. apply cl_insert_ne. lia.
    - eapply seg_frame; [exact Hr|]. intros. apply cl_insert_ne. lia.
    - by rewrite cl_insert. }
  destruct (link_prev_spec _ _ _ _ _ Hlo Hpi) as (h5 & Hlp & Hw5 & Hb5 & Hz5).
  rewrite (bind_eq _ _ _ _ _ Hlp).
  destruct (merge_next_spec _ _ _ _ Hw5) as (h6 & Hm & Hw6 & Hb6 & Hz6).
  exists h6. split_and!; [exact Hm| |by rewrite Hb6, Hb5|by rewrite Hz6, Hz5].
  unfold release. by destruct (join_prev l sz).
Qed.

Lemma kfree_live h l sz r :
  wfs h (l ++ (sz, true) :: r) →
  kfree (Some (hbase h + fin 0 l + 16)) h =
  (kfree_mark (fin 0 l) (cl (cells h) (fin 0 l)) ;; kfree_insert (fin 0 l)) h.
Proof.
  intros Hw. destruct (wfs_block _ _ _ _ _ Hw) as (Ho & Hom & Hsz & Hsm & Hend & Hh).
  pose proof Hw as ((? & ? & ? & ? & ?) & _). destruct Hh as (Hhs & Hhm & Hhu).
  unfold kfree. mrun idtac. unfold HDR_SIZE. cbv zeta.
  replace (u32 (hbase h + fin 0 l + 16 - hbase h - 16)) with (fin 0 l)
    by (rewrite u32_small; lia).
  replace (s32 (fin 0 l) <? 0) with false by (unfold s32; symmetry; apply Z.ltb_ge; mod_lia).
  rewrite (proj2 (Z.leb_gt _ (fin 0 l))) by lia. change (false || false)%bool with false. cbv iota.
  mrun ltac:(apply cell_ok_true; lia). rewrite Hhm, Hhu, Z.eqb_refl. done.
Qed.

(** ** Freed headers stay recognisable *)

(** [h'] has the headers' marks of [h], and the same region. *)
Definition same_marks (h h' : heap) : Prop :=
  hbase h' = hbase h ∧ hsize h' = hsize h ∧
  ∀ o, magic (cl (cells h') o) = magic (cl (cells h) o) ∧
       used (cl (cells h') o) = used (cl (cells h) o).

Definition keeps_marks {A} (m : M heap A) : Prop :=
  ∀ h a h', m h = Some (a, h') → same_marks h h'.

Lemma same_marks_refl h : same_marks h h.
Proof. by repeat split. Qed.

Lemma same_marks_trans h1 h2 h3 : same_marks h1 h2 → same_marks h2 h3 → same_marks h1 h3.
Proof.
  intros (Hb & Hz & Hm) (Hb' & Hz' & Hm'). split_and!; [congruence..|].
  intros o. destruct (Hm o), (Hm' o). split; congruence.
Qed.

Lemma keeps_marks_bind {A B} (m : M heap A) (k : A → M heap B) :
  keeps_marks m → (∀ a, keeps_marks (k a)) → keeps_marks (bind m k).
Proof.
  intros Hm Hk h b h' H. unfold bind in H. destruct (m h) as [[a h1]|] eqn:E; [|done].
  eapply same_marks_trans; [by eapply Hm|by eapply Hk].
Qed.

Lemma keeps_marks_pure {A} (m : M heap A) :
  (∀ h a h', m h = Some (a, h') → h' = h) → keeps_marks m.
Proof. intros Hm h a h' ->%Hm. apply same_marks_refl. Qed.

Lemma keeps_marks_ret {A} (a : A) : keeps_marks (ret a).
Proof. apply keeps_marks_pure. by intros ? ? ? [= _ ->]. Qed.
Lemma keeps_marks_get : keeps_marks get.
Proof. apply keeps_marks_pure. by intros ? ? ? [= _ ->]. Qed.
Lemma keeps_marks_head v : keeps_marks (modify (set_free_head v)).
Proof. intros h a h' [= _ <-]. by repeat split. Qed.

(** A load followed by a store that keeps magic and use of the cell. *)
Lemma keeps_marks_update {A} o (k : block_hdr → M heap A) :
  (∀ c h a h', c = cl (cells h) o → k c h = Some (a, h') → same_marks h h') →
  keeps_marks (bind (ldh o) k).
Proof.
  intros Hk h a h' H. unfold bind, ldh in H. destruct (cell_ok h o); [|done].
  by eapply Hk in H.
Qed.

Lemma same_marks_sth h h' o c a :
  magic c = magic (cl (cells h) o) → used c = used (cl (cells h) o) →
  sth o c h = Some (a, h') → same_marks h h'.
Proof.
  intros Hm Hu H. unfold sth in H. destruct (cell_ok h o); [|done].
  injection H as _ <-. split_and!; [done..|]. intros o'. simpl.
  destruct (decide (o = o')) as [->|]; [by rewrite cl_insert | by rewrite cl_insert_ne].
Qed.

Lemma kfree_walk_marks n : ∀ off prev w, keeps_marks (kfree_walk n off prev w).
Proof.
  induction n as [|n IH]; intros off prev w; simpl; [by intros ? ? ? [=]|].
  case_if; [|apply keeps_marks_ret].
  apply keeps_marks_update. intros c h a h' _ H. by eapply IH.
Qed.

Lemma keeps_marks_sth_then {A} o c h (k : M heap A) a h' :
  magic c = magic (cl (cells h) o) → used c = used (cl (cells h) o) → keeps_marks k →
  (sth o c ;; k) h = Some (a, h') → same_marks h h'.
Proof.
  intros Hm Hu Hk H. unfold bind at 1 in H. destruct (sth o c h) as [[x h1]|] eqn:E; [|done].
  eapply same_marks_trans; [by eapply same_marks_sth|by eapply Hk].
Qed.

Lemma ldh_inv {A} o (k : block_hdr → M heap A) h r :
  bind (ldh o) k h = Some r → k (cl (cells h) o) h = Some r.
Proof. unfold bind, ldh. by destruct (cell_ok h o). Qed.

Lemma link_prev_marks off prev : keeps_marks (link_prev off prev).
Proof.
  unfold link_prev. case_if.
  { apply keeps_marks_bind; [apply keeps_marks_head | intros; apply keeps_marks_ret]. }
  apply keeps_marks_update. intros c h a h' -> H.
  eapply keeps_marks_sth_then in H; [done|done|done|]. clear H h a h'.
  apply keeps_marks_update. intros c' h a h' -> H. unfold bind at 1 in H. simpl in H.
  case_match; [|by eapply keeps_marks_ret].
  apply ldh_inv in H. by eapply keeps_marks_sth_then in H; [| | |apply keeps_marks_ret].
Qed.

Lemma merge_next_marks off : keeps_marks (merge_next off).
Proof.
  unfold merge_next. apply keeps_marks_update. intros c h a h' -> H.
  unfold bind at 1 in H. simpl in H. case_match; [|by eapply keeps_marks_ret].
  apply ldh_inv in H. case_match; [|by eapply keeps_marks_ret].
  by eapply same_marks_sth in H.
Qed.

Lemma kfree_insert_marks off : keeps_marks (kfree_insert off).
Proof.
  unfold kfree_insert. apply keeps_marks_bind; [apply keeps_marks_get|]. intros h0.
  apply keeps_marks_bind; [apply kfree_walk_marks|]. intros [prev w].
  apply keeps_marks_update. intros c h a h' -> H.
  eapply keeps_marks_sth_then in H; [done|done|done|].
  apply keeps_marks_bind; [apply link_prev_marks|]. intros. apply merge_next_marks.
Qed.

(** Freeing a block that is not in use only counts the error. *)
Lemma kfree_not_used h o :
  0 ≤ hbase h → 0 ≤ o < 2 ^ 31 → cell_ok h o = true →
  magic (cl (cells h) o) ≠ MAGIC_USED →
  kfree (Some (hbase h + o + 16)) h = note_error h.
Proof.
  intros Hb Ho Hok Hm. pose proof Hok as Hok'. apply cell_ok_true_inv in Hok' as (? & ? & ?).
  unfold kfree. mrun idtac. unfold HDR_SIZE. cbv zeta.
  replace (u32 (hbase h + o + 16 - hbase h - 16)) with o by (rewrite u32_small; lia).
  replace (s32 o <? 0) with false by (unfold s32; symmetry; apply Z.ltb_ge; mod_lia).
  rewrite (proj2 (Z.leb_gt _ o)) by lia. change (false || false)%bool with false. cbv iota.
  mrun ltac:(done). by rewrite (proj2 (Z.eqb_neq _ MAGIC_USED)).
Qed.

(** First fit followed by the release of the block it returned. *)
Lemma first_fit_split need bs : ∀ l0 o bs',
  0 ≤ need → nadj false (l0 ++ bs) → first_fit need (fin 0 l0) bs = Some (o, bs') →
  ∃ l sz r, l0 ++ bs' = l ++ (sz, true) :: r ∧ o = fin 0 l ∧ need ≤ sz ∧
    release l sz r = l0 ++ bs.
Proof.
  induction bs as [|[sz u] bs IH]; intros l0 o bs' Hneed Hn H; [done|]. simpl in H.
  case_match eqn:E.
  - injection H as <- <-. bool_prop. subst u. apply nadj_app in Hn as [_ [Hl Hr]].
    assert (Hjp : ∀ s, join_prev l0 s = (l0, s)).
    { intros s. apply join_prev_used. intros ps l' ->. by rewrite last_snoc in Hl. }
    assert (Hjn : ∀ s, join_next s bs = (s, false) :: bs).
    { intros s. destruct bs as [|[ns [|]] bs]; [done|done|]. simpl in Hr. by destruct Hr. }
    unfold carve. case_if; bool_prop; eexists l0, _, _; (split; [reflexivity|]);
      (split; [done|]); (split; [lia|]); unfold release; rewrite Hjp.
    + simpl. do 3 f_equal. lia.
    + by rewrite Hjn.
  - destruct (first_fit need (fin 0 l0 + 16 + sz) bs) as [[o2 b2]|] eqn:Ef; [|done].
    injection H as <- <-. rewrite <- (fin_snoc l0 sz u) in Ef.
    destruct (IH (l0 ++ [(sz, u)]) o2 b2) as (l & s & r & Heq & -> & Hle & Hrel); [done| |done|].
    { by rewrite <- app_assoc. }
    rewrite <- !app_assoc in *. simpl in *. eauto 8.
Qed.

(** The sizes for which the search compares what it means to: on i386 the room
    for the header wraps on the sixteen sizes excluded. *)
Definition searchable (h : heap) (sz : Z) : Prop :=
  0 < sz < 2 ^ 32 ∧ (arch64 h = true ∨ sz ≤ 0xFFFFFFE0 ∨ 0xFFFFFFF0 < sz).

Lemma searchable_small h sz : 0 < sz < 2 ^ 30 → searchable h sz.
Proof. split; [lia|]. right. left. lia. Qed.

Lemma kmalloc_wf h bs sz :
  heap_wf h bs → searchable h sz →
  ∃ h', heap_wf h' (match first_fit (align_up sz) 0 bs with Some (_, bs') => bs' | None => bs end) ∧
    hbase h' = hbase h ∧ hsize h' = hsize h ∧
    kmalloc sz h = Some (match first_fit (align_up sz) 0 bs with
                         | Some (o, _) => Some (hbase h + o + 16) | None => None end, h').
Proof.
  intros [Hw Hn] Hsz. pose proof Hw as ((? & _ & _ & Hhs & _) & Hfin & Hs & Hf & Hacc).
  destruct Hsz as [Hsz Hwr]. pose proof (align_up_eq sz ltac:(lia)) as Hal.
  assert (Hm : align_up sz mod 16 = 0) by (rewrite Hal; case_if; [mod_lia|done]).
  assert (Hlt : szt h (align_up sz + 16) = align_up sz + 16).
  { unfold szt. rewrite Hal. destruct (Z.leb_spec sz 0xFFFFFFF0); [|by case_if].
    destruct (arch64 h); [apply u64_small; mod_lia|]. destruct Hwr as [|[|]]; [done| |lia].
    apply u32_small. mod_lia. }
  unfold kmalloc. mrun idtac. rewrite (proj2 (Z.eqb_neq sz 0)), (proj2 (Z.eqb_neq (hbase h) 0)) by lia.
  change (false || false)%bool with false. cbv iota. rewrite Hf.
  pose proof (seg_length _ _ _ _ Hs) as Hlen. unfold zlen in Hlen.
  pose proof (kmalloc_search_spec (align_up sz) h bs [] END_OF_LIST (S (ncells (hsize h)))) as Hk.
  specialize (Hk Hw ltac:(left; split; [done|constructor]) ltac:(unfold ncells; mod_lia)
    ltac:(rewrite Hal; case_if; mod_lia) Hm Hlt). simpl fin in Hk.
  destruct (first_fit (align_up sz) 0 bs) as [[o bs']|] eqn:E.
  - destruct Hk as (h' & Hr & Hw' & Hb & Hz). exists h'. split_and!; try done.
    split; [done|]. by eapply first_fit_nadj.
  - rewrite Hk. eexists. split_and!; [|..|reflexivity]; done.
Qed.

Lemma kfree_wf h l sz r :
  heap_wf h (l ++ (sz, true) :: r) →
  ∃ h', kfree (Some (hbase h + fin 0 l + 16)) h = Some (tt, h') ∧
    heap_wf h' (release l sz r) ∧ hbase h' = hbase h ∧ hsize h' = hsize h.
Proof.
  intros [Hw Hn]. rewrite (kfree_live _ _ _ _ Hw).
  destruct (kfree_mark_spec _ _ _ _ Hw) as (h1 & Hm & Hmk & Hb1 & Hz1).
  rewrite (bind_eq _ _ _ _ _ Hm).
  destruct (kfree_insert_spec _ _ _ _ Hmk) as (h2 & Hi & Hw2 & Hb2 & Hz2).
  exists h2. split_and!; [done| |congruence..]. split; [done|]. by eapply nadj_join.
Qed.

(** ** The heap behind the allocator interface *)

(** Addresses of the blocks in use. *)
Fixpoint live_ptrs (base off : Z) (bs : list (Z * bool)) : list Z :=
  match bs with
  | [] => []
  | (sz, u) :: r =>
      let rest := live_ptrs base (off + 16 + sz) r in
      if u then base + off + 16 :: rest else rest
  end.

#[export] Instance heap_allocator : Allocator heap :=
  {| al_kmalloc := kmalloc; al_kzalloc := kzalloc; al_kfree := kfree |}.

Definition heap_inv (h : heap) (L : list Z) : Prop :=
  ∃ bs, heap_wf h bs ∧ L ≡ₚ live_ptrs (hbase h) 0 bs.

Lemma live_app base off l r :
  live_ptrs base off (l ++ r) = live_ptrs base off l ++ live_ptrs base (fin off l) r.
Proof. revert off. induction l as [|[sz [|]] l IH]; intros; simpl; by rewrite ?IH. Qed.

Lemma live_join_next base off s r :
  live_ptrs base off (join_next s r) = live_ptrs base (off + 16 + s) r.
Proof.
  destruct r as [|[ns [|]] r]; simpl; [done|done|]. f_equal. lia.
Qed.

Lemma live_release base l sz r :
  live_ptrs base 0 (release l sz r) =
  live_ptrs base 0 l ++ live_ptrs base (fin 0 l + 16 + sz) r.
Proof.
  unfold release. destruct (list.last l) as [[ps [|]]|] eqn:E.
  - rewrite join_prev_used; [by rewrite live_app, live_join_next|].
    intros ps' l' ->. by rewrite last_snoc in E.
  - apply last_Some in E as [l' ->]. rewrite join_prev_free, live_app, live_join_next.
    rewrite live_app, fin_snoc. simpl. rewrite app_nil_r. do 2 f_equal. lia.
  - apply last_None in E as ->. simpl. by rewrite live_join_next.
Qed.

Lemma live_range m base off bs nxt p :
  seg m off bs nxt → p ∈ live_ptrs base off bs → base + off + 16 ≤ p < base + fin off bs + 16.
Proof.
  revert off. induction bs as [|[sz u] bs IH]; intros off Hs Hp; simpl in *; [by apply not_elem_of_nil in Hp|].
  destruct Hs as (? & _ & _ & Hs). pose proof (seg_fin_le _ _ _ _ Hs).
  destruct u; [apply elem_of_cons in Hp as [->|Hp]; [lia|]|]; specialize (IH _ Hs Hp); lia.
Qed.

Lemma live_split base off bs p :
  p ∈ live_ptrs base off bs → ∃ l sz r, bs = l ++ (sz, true) :: r ∧ p = base + fin off l + 16.
Proof.
  revert off. induction bs as [|[sz u] bs IH]; intros off Hp; simpl in Hp; [by apply not_elem_of_nil in Hp|].
  destruct u; [apply elem_of_cons in Hp as [->|Hp]|].
  - by exists [], sz, bs.
  - destruct (IH _ Hp) as (l & s & r & -> & ->). by exists ((sz, true) :: l), s, r.
  - destruct (IH _ Hp) as (l & s & r & -> & ->). by exists ((sz, false) :: l), s, r.
Qed.

(** The live blocks after a successful first fit. *)
Lemma kmalloc_live h bs sz :
  heap_wf h bs → 0 < sz < 2 ^ 30 →
  ∃ r h', kmalloc sz h = Some (r, h') ∧ hbase h' = hbase h ∧
    match r with
    | None => heap_wf h' bs
    | Some p => ∃ l s r', heap_wf h' (l ++ (s, true) :: r') ∧ p = hbase h + fin 0 l + 16 ∧
        sz ≤ s ∧ live_ptrs (hbase h) 0 bs =
          live_ptrs (hbase h) 0 l ++ live_ptrs (hbase h) (fin 0 l + 16 + s) r'
    end.
Proof.
  intros Hw Hsz. destruct (kmalloc_wf h bs sz Hw (searchable_small _ _ Hsz)) as (h' & Hw' & Hb & _ & Hk).
  destruct (align_up_spec sz) as [_ ?]; [lia|].
  destruct (first_fit (align_up sz) 0 bs) as [[o bs']|] eqn:E; [|by exists None, h'].
  exists (Some (hbase h + o + 16)), h'. split_and!; [done|done|]. destruct Hw as [_ Hn].
  destruct (first_fit_split (align_up sz) bs [] o bs') as (l & s & r & Heq & -> & Hle & Hrel);
    [lia|done|done|]. simpl in Heq, Hrel. subst bs'. exists l, s, r. split_and!; [done|done|lia|].
  rewrite <- Hrel. apply live_release.
Qed.

Lemma heap_result h L bs h' l s r :
  L ≡ₚ live_ptrs (hbase h) 0 bs → heap_wf h' (l ++ (s, true) :: r) → hbase h' = hbase h →
  live_ptrs (hbase h) 0 bs = live_ptrs (hbase h) 0 l ++ live_ptrs (hbase h) (fin 0 l + 16 + s) r →
  al_result (heap_inv h') L (Some (hbase h + fin 0 l + 16)).
Proof.
  intros HL Hw Hb Hlive. pose proof Hw as [((Hpos & _) & _ & Hs & _) _].
  apply seg_app in Hs as [Hl (Hs0 & _ & _ & Hr)]. pose proof (seg_fin_le _ _ _ _ Hl).
  simpl. split_and!; [lia| |].
  - rewrite HL, Hlive, elem_of_app. intros [Hin|Hin].
    + apply (live_range _ _ _ _ _ _ Hl) in Hin. lia.
    + apply (live_range _ _ _ _ _ _ Hr) in Hin. lia.
  - eexists. split; [exact Hw|]. rewrite Hb, live_app, HL, Hlive. simpl.
    by rewrite Permutation_middle.
Qed.

(** Zeroing the payload of a block in use. *)
Lemma memset_payload_wf h l s r v n :
  heap_wf h (l ++ (s, true) :: r) → 0 ≤ n ≤ s →
  ∃ h', memset_payload (fin 0 l + 16) v n h = Some (tt, h') ∧
    heap_wf h' (l ++ (s, true) :: r) ∧ hbase h' = hbase h.
Proof.
  intros [Hw Hn] Hle. destruct (wfs_block _ _ _ _ _ Hw) as (Ho & Hom & Hsz & Hsm & Hend & Hh).
  unfold memset_payload.
  assert (16 * Z.of_nat (ncells n) ≤ s) as Hnc.
  { unfold ncells. rewrite Z2Nat.id by (apply Z.div_pos; lia). mod_lia. }
  destruct (put_bytes_ok (ncells n) (fin 0 l + 16) (replicate (Z.to_nat n) v) h)
    as (m & Hr & Hf); [lia|mod_lia|lia|].
  exists (set_cells m h). split; [done|]. split; [|done]. split; [|done].
  destruct Hw as (Hg & Hfin & Hs & Hfh & Hacc). split_and!; try done.
  apply seg_app in Hs as [Hl (? & ? & _ & Hr')]. apply seg_app.
  split; [|split_and!; [done|done|by rewrite Hf by lia|]].
  - eapply seg_frame; [exact Hl|]. intros. apply Hf. lia.
  - eapply seg_frame; [exact Hr'|]. intros. apply Hf. lia.
Qed.

Lemma kfree_inv h L p : heap_inv h (p :: L) → ∃ h', kfree (Some p) h = Some (tt, h') ∧ heap_inv h' L.
Proof.
  intros (bs & Hw & HL). assert (Hp : p ∈ live_ptrs (hbase h) 0 bs) by (rewrite <- HL; left).
  apply live_split in Hp as (l & s & r & -> & ->).
  destruct (kfree_wf h l s r Hw) as (h' & Hk & Hw' & Hb & _). exists h'. split; [done|].
  eexists. split; [exact Hw'|]. rewrite Hb, live_release. rewrite live_app in HL. simpl in HL.
  rewrite <- Permutation_middle in HL. by apply Permutation_cons_inv in HL.
Qed.

(** The C heap is an allocator in the sense of the interface. *)
#[export] Instance heap_laws : AllocatorLaws heap heap_inv.
Proof.
  split.
  - intros h L L' HP (bs & Hw & HL). exists bs. by rewrite <- HP.
  - intros h L sz (bs & Hw & HL) Hsz.
    destruct (kmalloc_live h bs sz Hw Hsz) as (r & h' & Hk & Hb & Hr). exists r, h'.
    split; [done|]. destruct r as [p|].
    + destruct Hr as (l & s & r & Hw' & -> & _ & Hlive). by eapply heap_result.
    + exists bs. by rewrite Hb.
  - intros h L sz (bs & Hw & HL) Hsz. simpl. unfold kzalloc.
    destruct (kmalloc_live h bs sz Hw Hsz) as (r & h' & Hk & Hb & Hr).
    rewrite (bind_eq _ _ _ _ _ Hk). mrun idtac. destruct r as [p|].
    + destruct Hr as (l & s & r & Hw' & -> & Hle & Hlive).
      destruct (memset_payload_wf h' l s r 0 sz Hw') as (h'' & Hm & Hw'' & Hb''); [lia|].
      replace (hbase h + fin 0 l + 16 - hbase h') with (fin 0 l + 16) by lia.
      rewrite (bind_eq _ _ _ _ _ Hm). eexists _, h''. split; [reflexivity|].
      eapply heap_result; [done..|congruence|done].
    + exists None, h'. split; [done|]. exists bs. by rewrite Hb.
  - intros h L p. apply kfree_inv.
  - done.
Qed.

(** ** Properties *)

(** C34: on a well-formed heap, [kmalloc] of a non-zero 32-bit size always
    returns, and it does exactly what first fit for the rounded size does on the
    tiling of the region by blocks: the new tiling is again well-formed (in
    address order, free blocks chained, no two free neighbours, bytes accounted
    for), and when no free block fits it returns NULL and only counts the error.
    The rounded size is the next multiple of 16 up to 0xFFFFFFF0 and 0 for the
    fifteen sizes above, for which the first free block is handed out, so a block
    shorter than asked for ([kmalloc_rounds_to_zero]). Excluded are, on i386 only,
    the sizes from 0xFFFFFFE1 to 0xFFFFFFF0, for which the comparison itself wraps
    and the free list is ruined ([kmalloc_ruins_list]). *)
Theorem kmalloc_refines_first_fit h bs sz :
  heap_wf h bs → searchable h sz →
  align_up sz = (if sz <=? 0xFFFFFFF0 then 16 * ((sz + 15) / 16) else 0) ∧
  ∃ h', heap_wf h' (match first_fit (align_up sz) 0 bs with Some (_, bs') => bs' | None => bs end) ∧
    hbase h' = hbase h ∧ hsize h' = hsize h ∧
    kmalloc sz h = Some (match first_fit (align_up sz) 0 bs with
                         | Some (o, _) => Some (hbase h + o + 16) | None => None end, h').
Proof. intros Hw Hs. split; [apply align_up_eq; destruct Hs; lia|by apply kmalloc_wf]. Qed.

Lemma kmalloc_refines_first_fit_witness :
  ∃ h, heap_wf h [(48, true); (192, false)] ∧
  ∃ h', heap_wf h' [(48, true); (32, true); (144, false)] ∧ hbase h' = hbase h ∧ hsize h' = hsize h ∧
    kmalloc 20 h = Some (Some (hbase h + 64 + 16), h').
Proof.
  exists (Heap true 0x200000 272 64
    (<[0 := Hdr MAGIC_USED 48 0 1]> (<[64 := Hdr MAGIC_FREE 192 END_OF_LIST 0]> ∅))
    (Stats 256 48 208 48 1 0 0) 0 0).
  assert (Hw : heap_wf (Heap true 0x200000 272 64
    (<[0 := Hdr MAGIC_USED 48 0 1]> (<[64 := Hdr MAGIC_FREE 192 END_OF_LIST 0]> ∅))
    (Stats 256 48 208 48 1 0 0) 0 0) [(48, true); (192, false)]).
  { split; [|by repeat split]. unfold wfs, geom. simpl. repeat split; try lia; reflexivity. }
  split; [exact Hw|].
  exact (proj2 (kmalloc_refines_first_fit _ _ 20 Hw (searchable_small _ 20 ltac:(lia)))).
Defined.

(** A heap with one free block. *)
Definition one_block (a64 : bool) : heap :=
  Heap a64 0x200000 272 0 {[0 := Hdr MAGIC_FREE 256 END_OF_LIST 0]} (Stats 256 0 256 0 0 0 0) 0 0.

(** A request for nearly 4 GiB is answered with a block of no bytes. *)
Example kmalloc_rounds_to_zero :
  (fun '(p, h) => (p, size (cl (cells h) 0))) <$> kmalloc 0xFFFFFFF8 (one_block true) = Some (Some 0x200010, 0).
Proof. reflexivity. Qed.

(** On i386 a slightly smaller one is answered too: the list starts at the block
    handed out, whose header claims the size asked for. *)
Example kmalloc_ruins_list :
  (fun '(p, h) => (p, size (cl (cells h) 0), free_head h)) <$> kmalloc 0xFFFFFFF0 (one_block false) =
    Some (Some 0x200010, 0xFFFFFFF0, 0).
Proof. reflexivity. Qed.

(** C35: freeing the block at any position of a well-formed heap always
    returns and leaves a well-formed heap in which the block has joined the
    free blocks on either side of it. *)
Theorem kfree_refines_release h l sz r :
  heap_wf h (l ++ (sz, true) :: r) →
  ∃ h', kfree (Some (hbase h + fin 0 l + 16)) h = Some (tt, h') ∧
    heap_wf h' (release l sz r) ∧ hbase h' = hbase h ∧ hsize h' = hsize h.
Proof. apply kfree_wf. Qed.

Lemma kfree_refines_release_witness :
  ∃ h, heap_wf h [(48, true); (64, true); (112, false)] ∧
  ∃ h', kfree (Some (hbase h + 64 + 16)) h = Some (tt, h') ∧
    heap_wf h' [(48, true); (192, false)] ∧ hbase h' = hbase h ∧ hsize h' = hsize h.
Proof.
  pose (h := Heap false 0x200000 272 144
    (<[0 := Hdr MAGIC_USED 48 0 1]> (<[64 := Hdr MAGIC_USED 64 0 1]>
      (<[144 := Hdr MAGIC_FREE 112 END_OF_LIST 0]> ∅)))
    (Stats 256 112 144 112 2 0 0) 0 0).
  assert (Hw : heap_wf h ([(48, true)] ++ (64, true) :: [(112, false)])).
  { split; [|by repeat split]. unfold wfs, geom. simpl. repeat split; try lia; reflexivity. }
  exists h. split; [exact Hw|]. exact (kfree_refines_release h [(48, true)] 64 [(112, false)] Hw).
Defined.

Lemma heap_init_run a64 base sz :
  0 < base < 2 ^ 30 → 32 ≤ sz < 2 ^ 30 →
  ∃ h, heap_init base sz (heap_boot a64) = Some (true, h) ∧
    heap_wf h [(align_up sz - 16, false)] ∧ hbase h = align_up base ∧
    free_bytes (stats h) = align_up sz - 16 ∧ used_bytes (stats h) = 0.
Proof.
  intros Hb Hs. destruct (align_up_spec base) as [? ?]; [lia|].
  destruct (align_up_spec sz) as [? ?]; [lia|].
  unfold heap_init. erewrite (bind_eq (modify _)) by reflexivity. mrun idtac. cbn [hsize].
  unfold HDR_SIZE. rewrite szt_small, u32_small by lia. cbv zeta.
  mrun ltac:(apply cell_ok_true; cbn [hsize]; [lia|lia|reflexivity]). eexists. split; [reflexivity|]. unfold heap_wf, wfs, geom, accounted.
  simpl. rewrite cl_insert. unfold hdr_ok. simpl.
  rewrite u32_small by lia. repeat split; try lia. mod_lia.
Qed.

(** [heap_init] on a sane region makes a well-formed heap of one free
    block, every byte of it accounted as free. *)
Theorem heap_init_spec a64 base sz :
  0 < base < 2 ^ 30 → 32 ≤ sz < 2 ^ 30 →
  ∃ h, heap_init base sz (heap_boot a64) = Some (true, h) ∧
    heap_wf h [(align_up sz - 16, false)] ∧ hbase h = align_up base ∧
    free_bytes (stats h) = align_up sz - 16 ∧ used_bytes (stats h) = 0.
Proof. intros. by apply heap_init_run. Qed.

Lemma heap_init_spec_witness :
  ∃ h, heap_init 0x100000 65536 (heap_boot true) = Some (true, h) ∧
    heap_wf h [(align_up 65536 - 16, false)] ∧ hbase h = align_up 0x100000 ∧
    free_bytes (stats h) = align_up 65536 - 16 ∧ used_bytes (stats h) = 0.
Proof. apply (heap_init_spec true 0x100000 65536); lia. Defined.

(** a double free is detected. Freeing a live block and then the same
    pointer again leaves the heap of the first free, with one more error
    counted; in particular the free list is not corrupted. *)
Theorem kfree_twice_detected h l sz r :
  heap_wf h (l ++ (sz, true) :: r) →
  let p := Some (hbase h + fin 0 l + 16) in
  ∃ h' h'', kfree p h = Some (tt, h') ∧ kfree p h' = Some (tt, h'') ∧
    note_error h' = Some (tt, h'') ∧ wfs h'' (release l sz r).
Proof.
  intros [Hw Hn] p. destruct (wfs_block _ _ _ _ _ Hw) as (Ho & Hom & Hsz & Hsm & Hend & _).
  pose proof Hw as ((? & _ & _ & ? & _) & _).
  destruct (kfree_mark_spec _ _ _ _ Hw) as (h1 & Hm & Hmk & Hb1 & Hz1).
  destruct (kfree_insert_spec _ _ _ _ Hmk) as (h2 & Hi & Hw2 & Hb2 & Hz2).
  assert (Hmag : magic (cl (cells h2) (fin 0 l)) = MAGIC_FREE).
  { destruct (kfree_insert_marks _ _ _ _ Hi) as (_ & _ & Hmarks).
    destruct (Hmarks (fin 0 l)) as [-> _]. destruct Hmk as (_&_&_&_&_&_&_&_&[n ->]&_). done. }
  exists h2. eexists. split; [|split; [|split; [reflexivity|done]]].
  - unfold p. rewrite (kfree_live _ _ _ _ Hw). by rewrite (bind_eq _ _ _ _ _ Hm).
  - unfold p. rewrite <- Hb1, <- Hb2. rewrite kfree_not_used; [done|lia..| |by rewrite Hmag].
    apply cell_ok_true; lia.
Qed.

Lemma kfree_twice_detected_witness :
  ∃ h, heap_wf h ([(48, true)] ++ (64, true) :: [(112, false)]) ∧
  let p := Some (hbase h + 64 + 16) in
  ∃ h' h'', kfree p h = Some (tt, h') ∧ kfree p h' = Some (tt, h'') ∧
    note_error h' = Some (tt, h'') ∧ wfs h'' [(48, true); (192, false)].
Proof.
  pose (h := Heap false 0x200000 272 144
    (<[0 := Hdr MAGIC_USED 48 0 1]> (<[64 := Hdr MAGIC_USED 64 0 1]>
      (<[144 := Hdr MAGIC_FREE 112 END_OF_LIST 0]> ∅)))
    (Stats 256 112 144 112 2 0 0) 0 0).
  assert (Hw : heap_wf h ([(48, true)] ++ (64, true) :: [(112, false)])).
  { split; [|by repeat split]. unfold wfs, geom. simpl. repeat split; try lia; reflexivity. }
  exists h. split; [exact Hw|]. exact (kfree_twice_detected h [(48, true)] 64 [(112, false)] Hw).
Defined.

(** Allocating and freeing the block again gives back exactly the tiling
    there was before: no fragmentation is left behind. *)
Theorem kmalloc_kfree_restores h bs sz p h1 :
  heap_wf h bs → 0 < sz < 2 ^ 30 → kmalloc sz h = Some (Some p, h1) →
  ∃ h2, kfree (Some p) h1 = Some (tt, h2) ∧ heap_wf h2 bs.
Proof.
  intros Hh Hsz Hk. destruct (kmalloc_wf h bs sz Hh (searchable_small _ _ Hsz)) as (h' & Hw' & Hb & _ & Hk').
  rewrite Hk in Hk'. destruct (align_up_spec sz) as [_ ?]; [lia|].
  destruct (first_fit (align_up sz) 0 bs) as [[o bs']|] eqn:E; [|done].
  injection Hk' as -> ->. destruct Hh as [_ Hn].
  destruct (first_fit_split (align_up sz) bs [] o bs') as (l & s & r & Heq & -> & _ & Hrel);
    [lia|done|done|]. simpl in Heq, Hrel. subst bs'.
  destruct (kfree_wf h' l s r Hw') as (h2 & Hf & Hw2 & _).
  exists h2. rewrite <- Hb, <- Hrel. done.
Qed.

Lemma kmalloc_kfree_restores_witness :
  ∃ h p h1, heap_wf h [(48, true); (192, false)] ∧ kmalloc 20 h = Some (Some p, h1) ∧
  ∃ h2, kfree (Some p) h1 = Some (tt, h2) ∧ heap_wf h2 [(48, true); (192, false)].
Proof.
  pose (h := Heap true 0x200000 272 64
    (<[0 := Hdr MAGIC_USED 48 0 1]> (<[64 := Hdr MAGIC_FREE 192 END_OF_LIST 0]> ∅))
    (Stats 256 48 208 48 1 0 0) 0 0).
  assert (Hw : heap_wf h [(48, true); (192, false)]).
  { split; [|by repeat split]. unfold wfs, geom. simpl. repeat split; try lia; reflexivity. }
  destruct (kmalloc 20 h) as [[[p|] h1]|] eqn:E; [|by vm_compute in E..].
  exists h, p, h1. split; [exact Hw|]. split; [exact E|].
  exact (kmalloc_kfree_restores h _ 20 p h1 Hw ltac:(lia) E).
Defined.
