(* ===== verification/Ramfs.v ===== *)
(** * fs/ramfs.c: the flat in-memory filesystem

    [files] is the static table; file contents live in heap objects, so the
    state also holds the allocator's state and the contents [objs] of the
    live objects. A [struct ramfs_file *] is the index of its slot, a [char *]
    argument is its buffer or NULL. The filesystem refines a finite map from
    names to contents. *)
From stdpp Require Import gmap.
From S2P Require Import Prelude KString Alloc.
Open Scope c_scope.

Definition RAMFS_NAME_LEN : Z := 32.
Definition RAMFS_MAX_FILES : Z := 32.

Record ramfs_file := RamfsFile {
  name : list Z;
  data : option Z;
  size : Z;
  used : bool;
}.

Section ramfs.
Context {H : Type} `{Allocator H}.

Record ramfs := Ramfs {
  files : list ramfs_file;
  ready : bool;
  heap : H;
  objs : gmap Z (list Z);
}.

Definition set_file (i : nat) (f : ramfs_file) (s : ramfs) : ramfs :=
  Ramfs (<[i := f]> (files s)) (ready s) (heap s) (objs s).

Definition ramfs_init : M ramfs bool :=
  modify (λ s, Ramfs (replicate (Z.to_nat RAMFS_MAX_FILES)
                        (RamfsFile (zeros RAMFS_NAME_LEN) None 0 false))
                     true (heap s) (objs s));;
  ret true.

(** The loop of [lookup] from slot [i] on. *)
Fixpoint lookup_loop (i : nat) (l : list ramfs_file) (nm : list Z) : option (option nat) :=
  match l with
  | [] => Some None
  | f :: r =>
      if used f then
        c ← k_strcmp (name f) nm;
        if c =? 0 then Some (Some i) else lookup_loop (S i) r nm
      else lookup_loop (S i) r nm
  end.

Definition lookup (nm : option (list Z)) : M ramfs (option nat) :=
  let* s := get in
  match nm with
  | Some b => if ready s then lift (lookup_loop 0 (files s) b) else ret None
  | None => ret None
  end.

(** The loop of [ramfs_create]: the first slot that is not in use. *)
Fixpoint free_slot (i : nat) (l : list ramfs_file) : option nat :=
  match l with
  | [] => None
  | f :: r => if used f then free_slot (S i) r else Some i
  end.

Definition ramfs_create (nm : option (list Z)) : M ramfs Z :=
  let* s := get in
  match nm with
  | None => ret (-1)
  | Some b =>
      if negb (ready s) then ret (-1)
      else
        let* n := lift (k_strlen b) in
        if RAMFS_NAME_LEN <=? n then ret (-1)
        else
          let* f := lookup nm in
          match f with
          | Some _ => ret (-1)
          | None =>
              match free_slot 0 (files s) with
              | None => ret (-1)
              | Some i =>
                  let* f := lift (files s !! i) in
                  let* nm' := lift (k_strncpy (name f) b (Z.to_nat (RAMFS_NAME_LEN - 1))) in
                  modify (set_file i (RamfsFile nm' None 0 true));;
                  ret (Z.of_nat i)
              end
          end
  end.

(** A call into the allocator; the objects follow the blocks. *)
Definition heap_call {A} (m : M H A) : M ramfs A := λ s,
  match m (heap s) with
  | Some (a, h) => Some (a, Ramfs (files s) (ready s) h (objs s))
  | None => None
  end.
Definition set_obj (p : Z) (l : list Z) (s : ramfs) : ramfs :=
  Ramfs (files s) (ready s) (heap s) (<[p := l]> (objs s)).
Definition drop_obj (p : Z) (s : ramfs) : ramfs :=
  Ramfs (files s) (ready s) (heap s) (delete p (objs s)).

(** [memcpy(fresh, data, len)] gives the new object its defined bytes. *)
Definition ramfs_write (nm : option (list Z)) (dat : list Z) (len : Z) : M ramfs Z :=
  let* f := lookup nm in
  match f with
  | None => ret (-1)
  | Some i =>
      let* fresh := heap_call (al_kmalloc (if truthy len then len else 1)) in
      match fresh with
      | None => ret (-1)
      | Some p =>
          let* l := lift (slice dat 0 len) in
          modify (set_obj p l);;
          let* s := get in
          let* f := lift (files s !! i) in
          (match data f with
           | Some old => heap_call (al_kfree (Some old));; modify (drop_obj old)
           | None => ret tt
           end);;
          modify (set_file i (RamfsFile (name f) (Some p) len (used f)));;
          ret 0
      end
  end.

(** [memcpy(out, f->data, n)]; nothing is read through NULL when [n] is 0. *)
Definition read_data (s : ramfs) (d : option Z) (n : Z) : option (list Z) :=
  match d with
  | None => if n =? 0 then Some [] else None
  | Some p => l ← objs s !! p; slice l 0 n
  end.

(** The return value and the new contents of [out]. *)
Definition ramfs_read (nm : option (list Z)) (out : option (list Z)) (max_len : Z) :
    M ramfs (Z * option (list Z)) :=
  let* f := lookup nm in
  match f, out with
  | Some i, Some o =>
      let* s := get in
      let* f := lift (files s !! i) in
      let n := if size f <? max_len then size f else max_len in
      let* l := lift (read_data s (data f) n) in
      let* o' := lift (splice o 0 l) in
      ret (s32 n, Some o')
  | _, _ => ret (-1, out)
  end.

Definition ramfs_size (nm : option (list Z)) : M ramfs Z :=
  let* f := lookup nm in
  match f with
  | None => ret 0
  | Some i => let* s := get in let* f := lift (files s !! i) in ret (size f)
  end.

(** [names[n]] is filled for each file in use while there is room. *)
Fixpoint list_loop (l : list ramfs_file) (n max : Z) (names : list (list Z)) :
    option (Z * list (list Z)) :=
  match l with
  | [] => Some (n, names)
  | f :: r =>
      if n <? max then
        if used f then
          d ← names !! Z.to_nat n;
          d' ← k_strncpy d (name f) (Z.to_nat (RAMFS_NAME_LEN - 1));
          list_loop r (n + 1) max (<[Z.to_nat n := d']> names)
        else list_loop r n max names
      else Some (n, names)
  end.

Definition ramfs_list (names : list (list Z)) (max : Z) : M ramfs (Z * list (list Z)) :=
  let* s := get in lift (list_loop (files s) 0 max names).

(** ** Abstraction: a finite map from names to contents *)

(** The C string a name array holds. *)
Fixpoint cname (b : list Z) : list Z :=
  match b with
  | [] => []
  | c :: r => if c =? 0 then [] else c :: cname r
  end.

Definition contents (o : gmap Z (list Z)) (f : ramfs_file) : list Z :=
  match data f with None => [] | Some p => default [] (o !! p) end.
Definition entry (o : gmap Z (list Z)) (f : ramfs_file) : option (list Z * list Z) :=
  if used f then Some (cname (name f), contents o f) else None.
Definition entries (s : ramfs) : list (list Z * list Z) := omap (entry (objs s)) (files s).

(** A name array in use holds a C string; its last byte is always NUL. *)
Definition file_ok (o : gmap Z (list Z)) (f : ramfs_file) : Prop :=
  zlen (name f) = 32 ∧ name f !! 31%nat = Some 0 ∧
  (used f = true → nonul (cname (name f)) ∧ size f = zlen (contents o f) ∧ size f < 2 ^ 30) ∧
  (used f = false → data f = None) ∧ (∀ p, data f = Some p → is_Some (o !! p)).

(** The blocks the table owns. *)
Definition owned (l : list ramfs_file) : list Z := omap data l.
End ramfs.
Arguments ramfs : clear implicits.

Section spec.
Context {H : Type} `{Allocator H} (al_inv : H → list Z → Prop) `{!AllocatorLaws H al_inv}.
(** The blocks of the other users of the heap. *)
Context (L : list Z).

(** The filesystem [s] represents the map [m]. *)
Record Rep (s : ramfs H) (m : gmap (list Z) (list Z)) : Prop := {
  rep_ready : ready s = true;
  rep_len : length (files s) = 32%nat;
  rep_files : Forall (file_ok (objs s)) (files s);
  rep_names : NoDup (entries s).*1;
  rep_heap : al_inv (heap s) (owned (files s) ++ L);
  rep_owned : NoDup (owned (files s) ++ L);
  rep_map : m = list_to_map (entries s);
}.

(** *** Names *)

Lemma cname_app s r : nonul s → cname (s ++ 0 :: r) = s.
Proof.
  induction 1 as [|c s [Hc _] _ IH]; [done|]. simpl.
  by rewrite (proj2 (Z.eqb_neq c 0) Hc), IH.
Qed.
Lemma cname_split b i : b !! i = Some 0 → ∃ r, b = cname b ++ 0 :: r.
Proof.
  revert i. induction b as [|c b IH]; intros i Hi; [done|]. simpl.
  destruct (Z.eqb_spec c 0) as [->|Hc]; [by exists b|].
  destruct i as [|i]; [by injection Hi|]. destruct (IH i Hi) as [r Hr].
  exists r. simpl. by rewrite <- Hr.
Qed.
Lemma file_cstr o f : file_ok o f → used f = true → cstr (name f) (cname (name f)).
Proof. intros (_ & Hl & Hu & _ & _) E. split; [apply Hu, E|]. by eapply cname_split. Qed.

(** [k_strncpy] into a name array whose last byte is NUL. *)
Lemma k_strncpy_cstr d nm r n :
  nonul nm → (length nm ≤ n)%nat → length d = S n → d !! n = Some 0 →
  k_strncpy d (nm ++ 0 :: r) n = Some (nm ++ replicate (S n - length nm) 0).
Proof.
  intros Hnm. revert d n. induction Hnm as [|c nm [Hc _] _ IH]; intros d n Hn Hd Hz.
  - simpl. destruct d as [|x d]; [done|]. destruct n as [|n].
    { simpl in *. destruct d; [|done]. by injection Hz as ->. }
    unfold k_strncpy. simpl (0 =? 0). cbv iota. unfold splice. rewrite length_replicate.
    rewrite (proj2 (Z.leb_le _ _)) by lia.
    rewrite (proj2 (Z.leb_le _ _)) by (unfold zlen; rewrite length_replicate; lia).
    change (Z.to_nat 0) with 0%nat. rewrite Nat.add_0_l. cbn [length app]. replace (S (S n) - 0)%nat with (S (S n)) by lia.
    change (0 :: replicate (S n) 0) with (replicate (S (S n)) 0).
    rewrite (replicate_S_end (S n) 0). cbn [andb]. f_equal. rewrite take_0. rewrite app_nil_l. f_equal.
    apply list_eq. intros j. rewrite lookup_drop. destruct j as [|j].
    { by rewrite Nat.add_0_r, Hz. }
    by rewrite lookup_ge_None_2 by lia.
  - destruct n as [|n]; [simpl in Hn; lia|]. destruct d as [|x d]; [done|]. simpl.
    rewrite (proj2 (Z.eqb_neq c 0) Hc). simpl in *. rewrite (IH d n) by (done || lia). done.
Qed.

(** *** Lookup *)

Lemma omap_mid {A B} (f : A → option B) l1 x l2 y :
  f x = Some y → omap f (l1 ++ x :: l2) = omap f l1 ++ y :: omap f l2.
Proof. intros E. rewrite omap_app. simpl. by rewrite E. Qed.
Lemma omap_mid_none {A B} (f : A → option B) l1 x l2 :
  f x = None → omap f (l1 ++ x :: l2) = omap f l1 ++ omap f l2.
Proof. intros E. rewrite omap_app. simpl. by rewrite E. Qed.

(** The table around slot [j]. *)
Definition slot (l : list ramfs_file) (j : nat) l1 f l2 : Prop :=
  l = l1 ++ f :: l2 ∧ j = length l1.
Lemma slot_lookup l j l1 f l2 : slot l j l1 f l2 → l !! j = Some f.
Proof. intros [-> ->]. by apply list_lookup_middle. Qed.
Lemma slot_insert l j l1 f l2 f' : slot l j l1 f l2 → <[j := f']> l = l1 ++ f' :: l2.
Proof.
  intros [-> ->]. replace (length l1) with (length l1 + 0)%nat by lia.
  by rewrite insert_app_r.
Qed.

Lemma lookup_loop_spec o l b nm i :
  Forall (file_ok o) l → cstr b nm →
  ∃ r, lookup_loop i l b = Some r ∧
    match r with
    | Some j => ∃ k l1 f l2, j = (i + k)%nat ∧ slot l k l1 f l2 ∧ used f = true ∧ cname (name f) = nm
    | None => nm ∉ (omap (entry o) l).*1
    end.
Proof.
  intros Hl Hb. revert i. induction Hl as [|f l Hf Hl IH]; intros i; cbn [lookup_loop].
  { eexists; split; [done|]. apply not_elem_of_nil. }
  destruct (IH (S i)) as (r & E & Hr).
  assert (Hskip : (used f = true → cname (name f) ≠ nm) →
    match r with
    | Some j => ∃ k l1 f' l2, j = (i + k)%nat ∧ slot (f :: l) k l1 f' l2 ∧
                  used f' = true ∧ cname (name f') = nm
    | None => nm ∉ (omap (entry o) (f :: l)).*1
    end).
  { intros Hne. destruct r as [j|].
    - destruct Hr as (k & l1 & f' & l2 & -> & [-> ->] & Hu & Hn).
      exists (S (length l1)), (f :: l1), f', l2. split_and!; [lia|done|done|done].
    - cbn [omap list_omap]. unfold entry at 1. destruct (used f) eqn:E'; [|done].
      cbn [fmap list_fmap fst]. apply not_elem_of_cons.
      split; [|done]. intros ->. by apply (Hne eq_refl). }
  destruct (used f) eqn:Eu; [|exists r; split; [done|by apply Hskip]].
  destruct (k_strcmp_total (cname (name f)) nm) with
    (ra := drop (S (length (cname (name f)))) (name f))
    (rb := drop (S (length nm)) b) as (c & Ec & Hc); [apply Hf, Eu|apply Hb|].
  assert (Hdrop : ∀ x s, cstr x s → s ++ 0 :: drop (S (length s)) x = x).
  { intros x s [_ [rr ->]]. f_equal. rewrite (cons_middle 0 s rr), app_assoc.
    by rewrite drop_app_length' by (rewrite length_app; simpl; lia). }
  rewrite (Hdrop _ _ (file_cstr _ _ Hf Eu)), (Hdrop _ _ Hb) in Ec. rewrite Ec. simpl.
  destruct (Z.eqb_spec c 0) as [->|Hn0].
  - exists (Some i). split; [done|]. exists 0%nat, [], f, l.
    split_and!; [lia|done|done|by apply Hc].
  - exists r. split; [done|]. apply Hskip. intros _ Eq. by apply Hn0, Hc.
Qed.

Lemma rep_lookup_map s m l1 f l2 :
  Rep s m → files s = l1 ++ f :: l2 → used f = true →
  m !! cname (name f) = Some (contents (objs s) f).
Proof.
  intros HR E Eu. rewrite (rep_map _ _ HR). apply elem_of_list_to_map; [apply HR|].
  unfold entries. rewrite E, (omap_mid _ _ _ _ (cname (name f), contents (objs s) f)).
  - apply elem_of_app. right. left.
  - unfold entry. by rewrite Eu.
Qed.

Lemma lookup_spec s m b nm :
  Rep s m → cstr b nm →
  ∃ r, lookup (Some b) s = Some (r, s) ∧
    match r with
    | Some j => ∃ l1 f l2, slot (files s) j l1 f l2 ∧ used f = true ∧ cname (name f) = nm ∧
                  m !! nm = Some (contents (objs s) f)
    | None => m !! nm = None
    end.
Proof.
  intros HR Hb. destruct (lookup_loop_spec (objs s) (files s) b nm 0) as (r & E & Hr);
    [apply HR|done|].
  exists r. unfold lookup. unfold get, bind. rewrite (rep_ready _ _ HR). unfold lift. rewrite E.
  split; [done|]. destruct r as [j|].
  - destruct Hr as (k & l1 & f & l2 & -> & Hs & Hu & <-). exists l1, f, l2.
    split; [done|]. split_and!; [done|done|]. eapply rep_lookup_map; [done|apply Hs|done].
  - rewrite (rep_map _ _ HR). by apply not_elem_of_list_to_map_1.
Qed.

(** *** Keeping the representation *)

Lemma free_slot_spec i l :
  match free_slot i l with
  | Some j => ∃ k l1 f l2, j = (i + k)%nat ∧ slot l k l1 f l2 ∧ used f = false
  | None => Forall (λ f, used f = true) l
  end.
Proof.
  revert i. induction l as [|f l IH]; intros i; cbn [free_slot]; [done|].
  destruct (used f) eqn:Eu.
  - specialize (IH (S i)). destruct (free_slot (S i) l) as [j|]; [|by constructor].
    destruct IH as (k & l1 & f' & l2 & -> & [-> ->] & Hu).
    exists (S (length l1)), (f :: l1), f', l2. split; [lia|done].
  - exists 0%nat, [], f, l. split; [lia|done].
Qed.

(** Contents of a file only depend on the object it owns. *)
Definition agree (o o' : gmap Z (list Z)) (f : ramfs_file) : Prop :=
  ∀ q, data f = Some q → o' !! q = o !! q.
Lemma agree_contents o o' f : agree o o' f → contents o' f = contents o f.
Proof. unfold agree, contents. intros Ha. destruct (data f); [|done]. by rewrite Ha. Qed.
Lemma agree_entry o o' f : agree o o' f → entry o' f = entry o f.
Proof. intros Ha. unfold entry. by rewrite (agree_contents _ _ _ Ha). Qed.
Lemma agree_ok o o' f : agree o o' f → file_ok o f → file_ok o' f.
Proof.
  intros Ha (H1 & H2 & H3 & H5 & H4). unfold file_ok. rewrite (agree_contents _ _ _ Ha).
  split_and!; [done|done|done|done|]. intros p E. rewrite Ha by done. by apply H4.
Qed.
Lemma agree_entries o o' l : Forall (agree o o') l → omap (entry o') l = omap (entry o) l.
Proof.
  intros Hl. apply list_omap_ext, Forall_Forall2_diag.
  eapply list.Forall_impl; [done|]. apply agree_entry.
Qed.
Lemma agree_files o o' l : Forall (agree o o') l → Forall (file_ok o) l → Forall (file_ok o') l.
Proof. intros Ha Ho. induction Ho; inversion Ha; constructor; eauto using agree_ok. Qed.
Lemma agree_refl o f : agree o o f.
Proof. by intros q. Qed.

Lemma list_to_map_mid (k v : list Z) e1 e2 :
  NoDup (e1 ++ (k, v) :: e2).*1 →
  (list_to_map (e1 ++ (k, v) :: e2) : gmap (list Z) (list Z)) =
    <[k := v]> (list_to_map (e1 ++ e2)).
Proof.
  intros Hn. rewrite <- (list_to_map_proper ((k, v) :: e1 ++ e2)); [done| |].
  - by rewrite Permutation_middle.
  - by apply Permutation_middle.
Qed.

(** The table with slot [f] replaced by a file of name [nm], over objects
    that agree on the other files, represents the map updated at [nm]. *)
Lemma rep_replace s m l1 f l2 f' h o nm :
  Rep s m → files s = l1 ++ f :: l2 →
  Forall (agree (objs s) o) (l1 ++ l2) → file_ok o f' → used f' = true →
  cname (name f') = nm → (used f = true ∧ cname (name f) = nm ∨ used f = false ∧ m !! nm = None) →
  al_inv h (owned (l1 ++ f' :: l2) ++ L) → NoDup (owned (l1 ++ f' :: l2) ++ L) →
  Rep (Ramfs (l1 ++ f' :: l2) true h o) (<[nm := contents o f']> m).
Proof.
  intros HR Ef Ha Hf' Hu' Hnm Hcase Hal Hnd.
  apply list.Forall_app in Ha as [Ha1 Ha2].
  pose proof (rep_files _ _ HR) as Hf. rewrite Ef in Hf.
  apply list.Forall_app in Hf as [Hf1 Hf23]. apply list.Forall_cons in Hf23 as [Hf2 Hf3].
  pose proof (rep_names _ _ HR) as Hnames. pose proof (rep_map _ _ HR) as Hm.
  unfold entries in Hnames, Hm. rewrite Ef in Hnames, Hm.
  set (e1 := omap (entry (objs s)) l1) in *. set (e2 := omap (entry (objs s)) l2) in *.
  assert (Hent : omap (entry o) (l1 ++ f' :: l2) = e1 ++ (nm, contents o f') :: e2).
  { rewrite (omap_mid _ _ _ _ (nm, contents o f')) by (unfold entry; by rewrite Hu', Hnm).
    by rewrite !(agree_entries (objs s) o) by done. }
  assert (Hkeys : NoDup (e1 ++ (nm, contents o f') :: e2).*1 ∧
                  <[nm := contents o f']> m = list_to_map (e1 ++ (nm, contents o f') :: e2)).
  { destruct Hcase as [[Hu <-]|[Hu Hno]].
    - rewrite (omap_mid _ _ _ _ (cname (name f), contents (objs s) f)) in Hnames, Hm
        by (unfold entry; by rewrite Hu).
      fold e1 e2 in Hnames, Hm.
      assert (Hn2 : NoDup (e1 ++ (cname (name f), contents o f') :: e2).*1)
        by (rewrite fmap_app in *; done).
      split; [done|]. rewrite Hm, !list_to_map_mid by done. by rewrite insert_insert_eq.
    - rewrite omap_mid_none in Hnames, Hm by (unfold entry; by rewrite Hu).
      fold e1 e2 in Hnames, Hm.
      assert (Hni : nm ∉ (e1 ++ e2).*1).
      { apply not_elem_of_list_to_map_2. by rewrite <- Hm. }
      assert (Hn2 : NoDup (e1 ++ (nm, contents o f') :: e2).*1).
      { rewrite fmap_app in *. cbn [fmap list_fmap fst].
        rewrite <- Permutation_middle. by constructor. }
      split; [done|]. by rewrite list_to_map_mid, Hm. }
  destruct Hkeys as [Hk1 Hk2]. split; simpl; try done.
  - pose proof (rep_len _ _ HR) as Hlen. rewrite Ef in Hlen.
    rewrite length_app in *. simpl in *. done.
  - apply list.Forall_app. split; [by eapply agree_files|]. constructor; [done|]. by eapply agree_files.
  - unfold entries. simpl. by rewrite Hent.
  - unfold entries. simpl. by rewrite Hent.
Qed.

(** A map with a free slot in its table is not full, and vice versa. *)
Lemma rep_size s m : Rep s m → base.size m = length (entries s).
Proof.
  intros HR. rewrite (rep_map _ _ HR), map_size_list_to_map by apply HR.
  done.
Qed.
Lemma entries_le o l : (length (omap (entry o) l) ≤ length l)%nat.
Proof.
  induction l as [|f l IH]; [done|]. cbn [omap list_omap length] in *.
  destruct (entry o f); cbn [length]; unfold omap in *; lia.
Qed.
Lemma entries_full o l :
  Forall (λ f, used f = true) l → length (omap (entry o) l) = length l.
Proof.
  induction 1 as [|f l Hu _ IH]; [done|]. cbn [omap list_omap length] in *. unfold entry at 1.
  rewrite Hu. cbn [length]. by f_equal.
Qed.

Lemma lookup_data_agree (s : ramfs H) (l : list ramfs_file) o :
  (∀ q, q ∈ owned l → o !! q = objs s !! q) → Forall (agree (objs s) o) l.
Proof.
  intros Ho. apply list.Forall_forall. intros f Hf q Hq. apply Ho.
  apply list_elem_of_omap. by exists f.
Qed.

(** *** Creating *)

Lemma create_wp s m b nm :
  Rep s m → cstr b nm →
  ∃ r s', ramfs_create (Some b) s = Some (r, s') ∧
    if decide (zlen nm < 32 ∧ m !! nm = None ∧ (base.size m < 32)%nat)
    then 0 ≤ r < 32 ∧ Rep s' (<[nm := []]> m)
    else r = -1 ∧ s' = s.
Proof.
  intros HR Hb. destruct (lookup_spec s m b nm HR Hb) as (f & El & Hf).
  unfold ramfs_create. unfold get at 1, bind at 1. cbv beta iota. rewrite (rep_ready _ _ HR).
  cbn [negb]. rewrite (k_strlen_cstr b nm Hb). rewrite bind_lift. unfold RAMFS_NAME_LEN.
  destruct (Z.leb_spec 32 (zlen nm)).
  { exists (-1), s. split; [done|]. rewrite decide_False by lia. done. }
  rewrite (bind_eq _ _ _ _ _ El). destruct f as [j|].
  { destruct Hf as (l1 & f & l2 & _ & _ & _ & Hin).
    exists (-1), s. split; [done|]. rewrite decide_False by (rewrite Hin; intros (_ & [=] & _)). done. }
  pose proof (free_slot_spec 0 (files s)) as Hs. pose proof (rep_len _ _ HR) as Hlen.
  destruct (free_slot 0 (files s)) as [j|].
  2: { exists (-1), s. split; [done|]. rewrite decide_False; [done|].
       rewrite (rep_size _ _ HR). unfold entries. rewrite entries_full by done. lia. }
  destruct Hs as (k & l1 & f & l2 & Ej & Hslot & Hu). simpl in Ej. subst j.
  rewrite (slot_lookup _ _ _ _ _ Hslot), bind_lift.
  pose proof (rep_files _ _ HR) as Hok. destruct Hslot as [Efiles ->].
  rewrite Efiles in Hok. apply list.Forall_app in Hok as [Hok1 Hok2].
  apply list.Forall_cons in Hok2 as [(Hzl & H31 & _ & Hno & _) Hok2].
  destruct Hb as [Hnm [rest Eb]].
  assert (Hnl : (length nm ≤ 31)%nat) by (unfold zlen in *; lia).
  rewrite Eb, (k_strncpy_cstr _ _ _ 31) by (done || (unfold zlen in Hzl; lia)).
  rewrite bind_lift, bind_modify. eexists _, _. split; [done|].
  assert (Hl : length (files s) = (length l1 + S (length l2))%nat)
    by (rewrite Efiles, length_app; simpl; lia).
  rewrite decide_True.
  2: { split_and!; [lia|done|]. rewrite (rep_size _ _ HR). unfold entries. rewrite Efiles.
       rewrite omap_mid_none, length_app by (unfold entry; by rewrite Hu).
       pose proof (entries_le (objs s) l1). pose proof (entries_le (objs s) l2). lia. }
  split; [lia|]. unfold set_file. rewrite (slot_insert _ _ _ _ _ _ (conj Efiles eq_refl)).
  rewrite (rep_ready _ _ HR).
  set (f' := RamfsFile (nm ++ replicate (32 - length nm) 0) None 0 true).
  assert (Hrep : nm ++ replicate (32 - length nm) 0 = nm ++ 0 :: replicate (31 - length nm) 0).
  { replace (32 - length nm)%nat with (S (31 - length nm)) by lia. done. }
  assert (Hcn : cname (name f') = nm) by (simpl; rewrite Hrep; by apply cname_app).
  assert (Hf' : file_ok (objs s) f').
  { unfold file_ok. rewrite Hcn. simpl. split_and!; try done.
    - unfold zlen. rewrite length_app, length_replicate. lia.
    - rewrite lookup_app_r, lookup_replicate_2 by lia. done. }
  specialize (Hno Hu).
  assert (Hown : owned (l1 ++ f' :: l2) = owned (files s)).
  { unfold owned. rewrite Efiles, !omap_mid_none by done. done. }
  apply (rep_replace s m l1 f l2 f' (heap s) (objs s) nm); try done.
  - apply list.Forall_forall. intros. apply agree_refl.
  - by right.
  - rewrite Hown. apply HR.
  - rewrite Hown. apply HR.
Qed.

(** *** Writing *)

(** The last steps of [ramfs_write], once the new object [p] is filled: the
    old object goes back to the heap and the slot points to the new one. *)
Lemma write_commit s m l1 f l2 h p l :
  Rep s m → files s = l1 ++ f :: l2 → used f = true → zlen l < 2 ^ 30 →
  p ∉ owned (files s) ++ L → al_inv h (p :: owned (files s) ++ L) →
  let s1 := Ramfs (files s) true h (<[p := l]> (objs s)) in
  let f' := RamfsFile (name f) (Some p) (zlen l) true in
  ∃ h' o, (match data f with
           | Some old => heap_call (al_kfree (Some old));; modify (drop_obj old)
           | None => ret tt
           end) s1 = Some (tt, Ramfs (files s) true h' o) ∧
    Rep (Ramfs (l1 ++ f' :: l2) true h' o) (<[cname (name f) := l]> m).
Proof.
  intros HR Ef Hu Hlen Hp Hh s1 f'.
  pose proof (rep_owned _ _ HR) as Hnd. pose proof (rep_files _ _ HR) as Hok.
  rewrite Ef in Hok. apply list.Forall_app in Hok as [_ Hok].
  apply list.Forall_cons in Hok as [(Hz & Hl31 & Hs & _ & Hd) _].
  set (rest := owned (l1 ++ l2) ++ L).
  assert (Hown' : owned (l1 ++ f' :: l2) ++ L ≡ₚ p :: rest).
  { unfold owned, rest. rewrite (omap_mid _ _ _ _ p) by done.
    unfold owned. rewrite omap_app. by rewrite <- Permutation_middle. }
  assert (Hfinish : ∀ h' o, NoDup (p :: rest) → al_inv h' (p :: rest) →
      o !! p = Some l → Forall (agree (objs s) o) (l1 ++ l2) →
      Rep (Ramfs (l1 ++ f' :: l2) true h' o) (<[cname (name f) := l]> m)).
  { intros h' o Hn Hal Ho Ha.
    assert (Hc : contents o f' = l) by (unfold contents; simpl; by rewrite Ho).
    pose proof (rep_replace s m l1 f l2 f' h' o (cname (name f))) as Hrep. rewrite Hc in Hrep.
    apply Hrep; try done.
    - split_and!; try done.
      + intros _. split_and!; [by apply Hs|by rewrite Hc|done].
      + intros q [= <-]. by rewrite Ho.
    - by left.
    - by eapply al_perm; [|done].
    - by rewrite Hown'. }
  destruct (data f) as [old|] eqn:Ed.
  - assert (Hown : owned (files s) ++ L ≡ₚ old :: rest).
    { unfold owned, rest. rewrite Ef, (omap_mid _ _ _ _ old) by done.
      unfold owned. rewrite omap_app. by rewrite <- Permutation_middle. }
    rewrite Hown in Hp, Hnd.
    destruct (al_free h (p :: rest) old) as (h' & Efree & Hh').
    { eapply al_perm; [|done]. rewrite Hown. constructor. }
    exists h', (delete old (<[p := l]> (objs s))). split.
    { unfold heap_call, bind, modify. simpl. by rewrite Efree. }
    apply not_elem_of_cons in Hp as [Hpo Hpr]. apply list.NoDup_cons in Hnd as [Hor Hnr].
    apply Hfinish; [by constructor|done|by rewrite lookup_delete_ne, lookup_insert_eq|].
    apply lookup_data_agree. intros q Hq.
    rewrite lookup_delete_ne, lookup_insert_ne; [done| |].
    + intros ->. apply Hpr, elem_of_app. by left.
    + intros ->. apply Hor, elem_of_app. by left.
  - assert (Hown : owned (files s) ++ L = rest).
    { unfold owned, rest. rewrite Ef, omap_mid_none by done. by rewrite <- omap_app. }
    rewrite Hown in Hp, Hnd, Hh. exists h, (<[p := l]> (objs s)). split; [done|].
    apply Hfinish; [by constructor|done|by rewrite lookup_insert_eq|].
    apply lookup_data_agree. intros q Hq. rewrite lookup_insert_ne; [done|].
    intros ->. apply Hp, elem_of_app. by left.
Qed.

Lemma slice_take b n : 0 ≤ n ≤ zlen b → slice b 0 n = Some (take (Z.to_nat n) b).
Proof. intros. apply slice_Some. rewrite drop_0. split_and!; try lia. done. Qed.

(** The same map over another state of the heap. *)
Lemma rep_heap_eq s m h :
  Rep s m → al_inv h (owned (files s) ++ L) → Rep (Ramfs (files s) (ready s) h (objs s)) m.
Proof. intros HR Hh. destruct HR. by split. Qed.

Lemma write_wp s m b nm dat len :
  Rep s m → cstr b nm → 0 ≤ len < 2 ^ 30 → len ≤ zlen dat →
  ∃ r s', ramfs_write (Some b) dat len s = Some (r, s') ∧
    match m !! nm with
    | None => r = -1 ∧ s' = s
    | Some _ => ∃ a h, al_kmalloc (if truthy len then len else 1) (heap s) = Some (a, h) ∧
        match a with
        | Some _ => r = 0 ∧ Rep s' (<[nm := take (Z.to_nat len) dat]> m)
        | None => r = -1 ∧ s' = Ramfs (files s) (ready s) h (objs s) ∧ Rep s' m
        end
    end.
Proof.
  intros HR Hb Hlen Hdat. destruct (lookup_spec s m b nm HR Hb) as (f & El & Hf).
  unfold ramfs_write. rewrite (bind_eq _ _ _ _ _ El). destruct f as [j|].
  2: { rewrite Hf. by exists (-1), s. }
  destruct Hf as (l1 & f & l2 & Hslot & Hu & <- & ->).
  destruct (al_malloc (heap s) (owned (files s) ++ L) (if truthy len then len else 1))
    as (r & h & Em & Hr); [apply HR| |].
  { destruct (truthy len) eqn:E; [|lia]. unfold truthy in E. bool_prop. lia. }
  unfold heap_call at 1, bind at 1. rewrite Em. destruct r as [p|].
  2: { eexists _, _. split; [done|]. exists None, h. split; [done|]. split; [done|]. split; [done|].
       by apply rep_heap_eq. }
  destruct Hr as (_ & Hp & Hh). rewrite slice_take by lia. rewrite bind_lift, bind_modify.
  unfold set_obj, get at 1, bind at 1. cbn [files ready heap objs].
  rewrite (slot_lookup _ _ _ _ _ Hslot), bind_lift. rewrite (rep_ready _ _ HR).
  destruct (write_commit s m l1 f l2 h p (take (Z.to_nat len) dat)) as (h' & o & E & HR');
    try done; [apply Hslot|rewrite zlen_take; lia|].
  rewrite (bind_eq _ _ _ _ _ E), bind_modify. exists 0. eexists. split; [done|]. exists (Some p), h.
  split; [done|]. split; [done|]. unfold set_file. cbn [files ready heap objs].
  rewrite (slot_insert _ _ _ _ _ _ Hslot), Hu. by rewrite zlen_take in HR' by lia.
Qed.

(** *** Reading *)

Lemma read_wp s m b nm out max_len :
  Rep s m → cstr b nm → 0 ≤ max_len ≤ zlen out →
  ∃ r out', ramfs_read (Some b) (Some out) max_len s = Some ((r, Some out'), s) ∧
    match m !! nm with
    | None => r = -1 ∧ out' = out
    | Some l => r = Z.min (zlen l) max_len ∧
                out' = take (Z.to_nat max_len) l ++ drop (Z.to_nat r) out
    end.
Proof.
  intros HR Hb Hmax. destruct (lookup_spec s m b nm HR Hb) as (f & El & Hf).
  unfold ramfs_read. rewrite (bind_eq _ _ _ _ _ El). destruct f as [j|].
  2: { rewrite Hf. by exists (-1), out. }
  destruct Hf as (l1 & f & l2 & Hslot & Hu & <- & ->).
  unfold get at 1, bind at 1. rewrite (slot_lookup _ _ _ _ _ Hslot), bind_lift.
  pose proof (rep_files _ _ HR) as Hok. rewrite (proj1 Hslot) in Hok.
  apply list.Forall_app in Hok as [_ Hok].
  apply list.Forall_cons in Hok as [(_ & _ & Hs & _ & Hd) _]. destruct (Hs Hu) as (_ & Hsz & Hlt).
  set (l := contents (objs s) f) in *. rewrite Hsz.
  set (n := if zlen l <? max_len then zlen l else max_len).
  assert (Hn : n = Z.min (zlen l) max_len).
  { unfold n. destruct (Z.ltb_spec (zlen l) max_len); lia. }
  pose proof (zlen_nonneg l) as Hl0.
  assert (Hrd : read_data s (data f) n = Some (take (Z.to_nat n) l)).
  { unfold read_data. unfold l, contents in *. destruct (data f) as [p|].
    - destruct (Hd p eq_refl) as [x Ex]. rewrite Ex in *. simpl in *. apply slice_take. lia.
    - rewrite (zlen_nil (A := Z)) in Hn. rewrite (proj2 (Z.eqb_eq n 0)) by lia. by rewrite take_nil. }
  rewrite Hrd, bind_lift.
  destruct (splice_is_Some out 0 (take (Z.to_nat n) l)) as [o' Eo]; [lia| |].
  { rewrite zlen_take; lia. }
  rewrite Eo, bind_lift. exists (s32 n), o'. split; [done|].
  assert (Hs32 : s32 n = n) by (unfold s32; rewrite Z.mod_small; lia).
  rewrite Hs32. split; [done|]. apply splice_Some in Eo as (_ & _ & ->).
  change (Z.to_nat 0) with 0%nat. rewrite take_0. simpl. f_equal.
  - destruct (Z.ltb_spec (zlen l) max_len).
    + rewrite (take_ge l (Z.to_nat n)), (take_ge l (Z.to_nat max_len)); unfold zlen in *; lia || done.
    + done.
  - f_equal. pose proof (zlen_take n l ltac:(lia)). unfold zlen in *. lia.
Qed.

Lemma size_wp s m b nm :
  Rep s m → cstr b nm →
  ramfs_size (Some b) s = Some (match m !! nm with Some l => zlen l | None => 0 end, s).
Proof.
  intros HR Hb. destruct (lookup_spec s m b nm HR Hb) as (f & El & Hf).
  unfold ramfs_size. rewrite (bind_eq _ _ _ _ _ El). destruct f as [j|].
  2: { by rewrite Hf. }
  destruct Hf as (l1 & f & l2 & Hslot & Hu & <- & ->).
  unfold get at 1, bind at 1. rewrite (slot_lookup _ _ _ _ _ Hslot), bind_lift.
  pose proof (rep_files _ _ HR) as Hok. rewrite (proj1 Hslot) in Hok.
  apply list.Forall_app in Hok as [_ Hok].
  apply list.Forall_cons in Hok as [(_ & _ & Hs & _) _]. by destruct (Hs Hu) as (_ & <- & _).
Qed.

(** *** Listing *)

(** A row of [names]: its last byte is NUL. *)
Definition row_ok (d : list Z) : Prop := length d = 32%nat ∧ d !! 31%nat = Some 0.

Lemma k_strncpy_row d b nm :
  row_ok d → cstr b nm → zlen nm < 32 →
  ∃ d', k_strncpy d b 31 = Some d' ∧ row_ok d' ∧ cname d' = nm.
Proof.
  intros [Hd1 Hd2] [Hnm [rest ->]] Hlen. assert (length nm ≤ 31)%nat by (unfold zlen in *; lia).
  rewrite (k_strncpy_cstr d nm rest 31) by done. eexists. split; [done|].
  replace (32 - length nm)%nat with (S (31 - length nm)) by lia. split_and!.
  - split; [rewrite length_app, length_replicate; lia|].
    rewrite lookup_app_r, lookup_replicate_2 by lia. done.
  - simpl. by apply cname_app.
Qed.

Lemma file_name_len o f : file_ok o f → zlen (cname (name f)) < 32.
Proof.
  intros (Hl & H31 & _). destruct (cname_split _ _ H31) as [r Hr].
  rewrite Hr, zlen_app, zlen_cons in Hl. pose proof (zlen_nonneg r). lia.
Qed.

Lemma list_loop_spec o l n max names :
  Forall (file_ok o) l → Forall row_ok names → 0 ≤ n ≤ max → max ≤ zlen names →
  let got := take (Z.to_nat (max - n)) (omap (entry o) l).*1 in
  ∃ names', list_loop l n max names = Some (n + zlen got, names') ∧
    take (Z.to_nat n) names' = take (Z.to_nat n) names ∧
    cname <$> take (length got) (drop (Z.to_nat n) names') = got.
Proof.
  intros Hl. revert n names. induction Hl as [|f l Hf Hl IH]; intros n names Hrows Hn Hmax got;
    cbn [list_loop].
  { exists names. unfold got. simpl. rewrite take_nil. cbn. rewrite Z.add_0_r. done. }
  destruct (Z.ltb_spec n max).
  2: { exists names. unfold got. replace (max - n) with 0 by lia. cbn. by rewrite Z.add_0_r. }
  unfold got in *. cbn [omap list_omap].
  destruct (used f) eqn:Eu; assert (Ee : entry o f = _) by (unfold entry; by rewrite Eu); rewrite Ee.
  2: { destruct (IH n names Hrows Hn Hmax) as (names' & E & H2 & H3). by exists names'. }
  destruct (lookup_lt_is_Some_2 names (Z.to_nat n)) as [d Ed]; [unfold zlen in *; lia|].
  rewrite Ed. cbn [mbind option_bind].
  destruct (k_strncpy_row d (name f) (cname (name f))) as (d' & Ed' & Hd' & Hc).
  { by eapply list.Forall_lookup_1. } { by eapply file_cstr. } { by eapply file_name_len. }
  change (Z.to_nat (RAMFS_NAME_LEN - 1)) with 31%nat. rewrite Ed'. cbn [mbind option_bind].
  destruct (IH (n + 1) (<[Z.to_nat n := d']> names)) as (names' & E & H2 & H3).
  { by apply Forall_insert. } { lia. } { unfold zlen in *. by rewrite length_insert. }
  replace (Z.to_nat (max - n)) with (S (Z.to_nat (max - (n + 1)))) by lia.
  cbn [fmap list_fmap fst take]. exists names'. rewrite E, zlen_cons.
  split; [do 2 f_equal; unfold omap; lia|].
  assert (Hsn : Z.to_nat (n + 1) = S (Z.to_nat n)) by lia. rewrite Hsn in H2, H3.
  assert (Hnth : names' !! Z.to_nat n = Some d').
  { rewrite <- (lookup_take_lt names' (S (Z.to_nat n))), H2 by lia.
    rewrite lookup_take_lt, list_lookup_insert_eq by (unfold zlen in *; lia). done. }
  split.
  - rewrite <- (Nat.min_l (Z.to_nat n) (S (Z.to_nat n))) by lia. rewrite <- !take_take, H2.
    rewrite !take_take, Nat.min_l by lia. by rewrite take_insert_ge by lia.
  - cbn [length take]. rewrite (drop_S _ _ _ Hnth). cbn [take fmap list_fmap].
    rewrite Hc. f_equal. apply H3.
Qed.

Lemma list_wp s m names max :
  Rep s m → Forall row_ok names → 0 ≤ max ≤ zlen names →
  ∃ n names' ks, ramfs_list names max s = Some ((n, names'), s) ∧
    ks ≡ₚ elements (dom m) ∧ n = Z.min max (Z.of_nat (base.size m)) ∧
    cname <$> take (Z.to_nat n) names' = take (Z.to_nat max) ks.
Proof.
  intros HR Hrows Hmax.
  destruct (list_loop_spec (objs s) (files s) 0 max names) as (names' & E & _ & Hc);
    [apply HR|done|lia|lia|].
  unfold ramfs_list, get, bind, lift. rewrite E.
  rewrite Z.sub_0_r in Hc. rewrite Z.sub_0_r. set (ks := (omap (entry (objs s)) (files s)).*1) in *.
  eexists _, names', ks. split; [done|]. change (Z.to_nat 0) with 0%nat in Hc. rewrite drop_0 in Hc.
  assert (Hn : 0 + zlen (take (Z.to_nat max) ks) = Z.min max (Z.of_nat (base.size m))).
  { rewrite (rep_size _ _ HR). unfold zlen. rewrite length_take. unfold ks, entries.
    rewrite length_fmap. lia. }
  split_and!; [|done|].
  - rewrite (rep_map _ _ HR). rewrite dom_list_to_map_L. 
    symmetry. apply elements_list_to_set. apply HR.
  - replace (Z.to_nat _) with (length (take (Z.to_nat max) ks)) by (unfold zlen; lia). done.
Qed.

Lemma init_rep s : al_inv (heap s) L → NoDup L →
  ∃ s', ramfs_init s = Some (true, s') ∧ Rep s' ∅.
Proof.
  intros Hh Hn. eexists. split; [reflexivity|].
  split; simpl; try done.
  - repeat constructor; try done; intros; done.
  - constructor.
Qed.
End spec.

(** ** The theorems *)

(** on a filesystem that represents the map [m], [ramfs_create] of a
    valid name returns; it adds an empty file exactly when the name fits
    ([RAMFS_NAME_LEN - 1] characters), is new and a slot is free, and
    otherwise returns -1 and changes nothing. *)
Theorem ramfs_create_spec {H} `{Allocator H} al_inv `{!AllocatorLaws H al_inv} L s m b nm :
  Rep al_inv L s m → cstr b nm →
  ∃ r s', ramfs_create (Some b) s = Some (r, s') ∧
    if decide (zlen nm < RAMFS_NAME_LEN ∧ m !! nm = None ∧ Z.of_nat (base.size m) < RAMFS_MAX_FILES)
    then 0 ≤ r < RAMFS_MAX_FILES ∧ Rep al_inv L s' (<[nm := []]> m)
    else r = -1 ∧ s' = s.
Proof.
  intros HR Hb. destruct (create_wp al_inv L s m b nm HR Hb) as (r & s' & E & Hr).
  exists r, s'. split; [done|]. unfold RAMFS_NAME_LEN, RAMFS_MAX_FILES.
  assert (Hz : Z.of_nat (base.size m) < 32 ↔ (base.size m < 32)%nat) by lia.
  rewrite (decide_ext _ _ _ _ (and_iff_compat_l _ (and_iff_compat_l _ Hz))). done.
Qed.

(** C37: [ramfs_write] of a length below 2^30 returns. On an existing name it
    asks the heap for the length (for one byte when it is 0): if the heap has a
    block, the contents become the first [len] bytes of [data], the old object
    goes back to the heap, so nothing leaks, and 0 is returned; only if the heap
    has none it returns -1, and the table and the contents stay as they were. An
    unknown name gives -1 and changes nothing. *)
Theorem ramfs_write_spec {H} `{Allocator H} al_inv `{!AllocatorLaws H al_inv} L s m b nm dat len :
  Rep al_inv L s m → cstr b nm → 0 ≤ len < 2 ^ 30 → len ≤ zlen dat →
  ∃ r s', ramfs_write (Some b) dat len s = Some (r, s') ∧
    match m !! nm with
    | None => r = -1 ∧ s' = s
    | Some _ => ∃ a h, al_kmalloc (if truthy len then len else 1) (heap s) = Some (a, h) ∧
        match a with
        | Some _ => r = 0 ∧ Rep al_inv L s' (<[nm := take (Z.to_nat len) dat]> m)
        | None => r = -1 ∧ s' = Ramfs (files s) (ready s) h (objs s) ∧ Rep al_inv L s' m
        end
    end.
Proof. intros. by eapply write_wp. Qed.

(** [ramfs_read] returns the number of bytes copied, the smaller of the
    file size and [max_len]; it copies a prefix of the contents, leaves the
    rest of [out] and the filesystem as they were, and [ramfs_size] is the
    length of the contents. *)
Theorem ramfs_read_spec {H} `{Allocator H} al_inv `{!AllocatorLaws H al_inv} L s m b nm out max_len :
  Rep al_inv L s m → cstr b nm → 0 ≤ max_len ≤ zlen out →
  (∃ r out', ramfs_read (Some b) (Some out) max_len s = Some ((r, Some out'), s) ∧
    match m !! nm with
    | None => r = -1 ∧ out' = out
    | Some l => r = Z.min (zlen l) max_len ∧
                out' = take (Z.to_nat max_len) l ++ drop (Z.to_nat r) out
    end) ∧
  ramfs_size (Some b) s = Some (match m !! nm with Some l => zlen l | None => 0 end, s).
Proof. intros. split; [by eapply read_wp|by eapply size_wp]. Qed.

(** [ramfs_list] reports each file once, up to [max] of them. *)
Theorem ramfs_list_spec {H} `{Allocator H} al_inv `{!AllocatorLaws H al_inv} L s m names max :
  Rep al_inv L s m → Forall row_ok names → 0 ≤ max ≤ zlen names →
  ∃ n names' ks, ramfs_list names max s = Some ((n, names'), s) ∧
    ks ≡ₚ elements (dom m) ∧ n = Z.min max (Z.of_nat (base.size m)) ∧
    cname <$> take (Z.to_nat n) names' = take (Z.to_nat max) ks.
Proof. intros. by eapply list_wp. Qed.

(** *** Witnesses: a bump heap, one file [a] holding three bytes. *)
Definition demo_file : ramfs_file := RamfsFile (97 :: zeros 31) (Some 64) 3 true.
Definition demo : ramfs bump :=
  Ramfs (demo_file :: replicate 31 (RamfsFile (zeros 32) None 0 false)) true
        (Bump 128 [64]) {[64 := [7; 8; 9]]}.

Lemma demo_rep : Rep bump_inv [] demo {[ [97] := [7; 8; 9] ]}.
Proof.
  split; try done.
  - constructor.
    + split_and!; try done; [|by intros p [= <-]; eexists].
      intros _. split_and!; [|done|done]. repeat constructor; unfold byte_ok; lia.
    + apply Forall_replicate. by split_and!.
  - vm_compute. repeat constructor. set_solver.
  - change (owned (files demo) ++ []) with [64]. split_and!; [done| |done|].
    + apply NoDup_singleton.
    + repeat constructor.
  - change (owned (files demo) ++ []) with [64]. apply NoDup_singleton.
Qed.
Lemma demo_a : cstr [97; 0] [97].
Proof. split; [repeat constructor; unfold byte_ok; lia|by exists []]. Qed.
Lemma demo_bb : cstr [98; 98; 0] [98; 98].
Proof. split; [repeat constructor; unfold byte_ok; lia|by exists []]. Qed.

Lemma ramfs_create_spec_witness :
  ∃ r s', ramfs_create (Some [98; 98; 0]) demo = Some (r, s') ∧
    0 ≤ r < 32 ∧ Rep bump_inv [] s' (<[ [98; 98] := [] ]> {[ [97] := [7; 8; 9] ]}).
Proof.
  destruct (ramfs_create_spec bump_inv [] demo _ _ _ demo_rep demo_bb) as (r & s' & E & Hr).
  exists r, s'. split; [exact E|]. exact Hr.
Defined.

Lemma ramfs_write_spec_witness :
  ∃ r s', ramfs_write (Some [97; 0]) [1; 2; 3; 4] 2 demo = Some (r, s') ∧
    r = 0 ∧ Rep bump_inv [] s' (<[ [97] := [1; 2] ]> {[ [97] := [7; 8; 9] ]}).
Proof.
  destruct (ramfs_write_spec bump_inv [] demo _ _ _ [1; 2; 3; 4] 2 demo_rep demo_a)
    as (r & s' & E & a & h & Ea & Hr); [lia|done|].
  exists r, s'. split; [exact E|]. injection Ea as <- <-. exact Hr.
Defined.

Lemma ramfs_read_spec_witness :
  ∃ r out', ramfs_read (Some [97; 0]) (Some [0; 0; 0; 0]) 4 demo = Some ((r, Some out'), demo) ∧
    r = 3 ∧ out' = [7; 8; 9; 0].
Proof.
  destruct (ramfs_read_spec bump_inv [] demo _ _ _ [0; 0; 0; 0] 4 demo_rep demo_a)
    as [(r & out' & E & Hr) _]; [split; [lia|done]|].
  exists r, out'. split; [exact E|]. destruct Hr as [-> ->]. by split.
Defined.

Lemma ramfs_list_spec_witness :
  ∃ n names' ks, ramfs_list [zeros 32; zeros 32] 2 demo = Some ((n, names'), demo) ∧
    ks ≡ₚ [[97]] ∧ n = 1 ∧ cname <$> take (Z.to_nat n) names' = take 2 ks.
Proof.
  destruct (ramfs_list_spec bump_inv [] demo _ [zeros 32; zeros 32] 2 demo_rep)
    as (n & names' & ks & E & Hks & Hn & Hc); [by repeat constructor|split; [lia|done]|].
  exists n, names', ks. split_and!; [exact E|exact Hks|exact Hn|exact Hc].
Defined.
