(* ===== verification/Blkdev.v ===== *)
(** * drivers/block/blkdev.c: the block-device registry

    [D] is the state of the hardware behind the drivers; the two entry points
    of a [struct blk_device] are functions on it. A device pointer is the
    index of its slot in [devs], NULL is [None]. *)
From S2P Require Import Prelude KString.

Definition BLKDEV_MAX : Z := 4.
Definition BLKDEV_NAME_LEN : Z := 24.

Section blkdev.
Context {D : Type}.

(** [read_sectors(lba, count, buf)]: return code, new contents of the buffer. *)
Definition read_fn : Type := Z → Z → list Z → D → option (Z * list Z * D).
Definition write_fn : Type := Z → Z → list Z → D → option (Z * D).

Record blk_device := BlkDevice {
  name : list Z;
  sectors : Z;
  sector_size : Z;
  present : bool;
  dev_writable : bool;
  read_sectors : option read_fn;
  write_sectors : option write_fn;
}.

Definition blk_zero : blk_device :=
  BlkDevice (zeros BLKDEV_NAME_LEN) 0 0 false false None None.

Record registry := Registry { devs : list blk_device; ndevs : Z }.

Definition blkdev_init : registry :=
  Registry (replicate (Z.to_nat BLKDEV_MAX) blk_zero) 0.

Definition blk_register (dev : option blk_device) (r : registry) : option (bool * registry) :=
  match dev with
  | None => Some (false, r)
  | Some d =>
      match read_sectors d with
      | None => Some (false, r)
      | Some _ =>
          if negb (present d) then Some (false, r)
          else if (BLKDEV_MAX <=? ndevs r) || (sector_size d =? 0) then Some (false, r)
          else
            (* [devs[ndevs] = *dev], then the copy of the name over itself *)
            nm ← k_strncpy (name d) (name d) (Z.to_nat (BLKDEV_NAME_LEN - 1));
            let d' := BlkDevice nm (sectors d) (sector_size d) (present d) (dev_writable d)
                        (read_sectors d) (write_sectors d) in
            if decide (Z.to_nat (ndevs r) < length (devs r))%nat
            then Some (true, Registry (<[Z.to_nat (ndevs r) := d']> (devs r)) (ndevs r + 1))
            else None
      end
  end.

Definition blk_count (r : registry) : Z := ndevs r.

Definition blk_get (r : registry) (idx : Z) : option Z :=
  if (idx <? 0) || (ndevs r <=? idx) then None else Some idx.

Definition blk_first (r : registry) : option Z :=
  if truthy (ndevs r) then Some 0 else None.

(** The device behind a pointer into [devs]. *)
Definition dev_at (r : registry) (d : option Z) : option blk_device :=
  i ← d; devs r !! Z.to_nat i.

Definition out_of_range (d : blk_device) (lba count : Z) : bool :=
  (sectors d <? u64 (lba + count)) && truthy (sectors d).

Definition blk_read (r : registry) (d : option Z) (lba count : Z) (buf : option (list Z))
    (s : D) : option (Z * option (list Z) * D) :=
  match d, buf with
  | Some i, Some b =>
      if count =? 0 then Some (-1, buf, s)
      else
        dv ← dev_at r d;
        if out_of_range dv lba count then Some (-1, buf, s)
        else
          f ← read_sectors dv;
          '(rc, b', s') ← f lba count b s;
          Some (rc, Some b', s')
  | _, _ => Some (-1, buf, s)
  end.

Definition blk_write (r : registry) (d : option Z) (lba count : Z) (buf : option (list Z))
    (s : D) : option (Z * D) :=
  match d, buf with
  | Some i, Some b =>
      if count =? 0 then Some (-1, s)
      else
        dv ← dev_at r d;
        match write_sectors dv with
        | None => Some (-1, s)
        | Some f =>
            if negb (dev_writable dv) then Some (-1, s)
            else if out_of_range dv lba count then Some (-1, s)
            else f lba count b s
        end
  | _, _ => Some (-1, s)
  end.

(** ** What a driver promises

    A driver implements an array of 512-byte sectors: [sector s i] is the
    contents of sector [i] in hardware state [s]. Reading returns the sectors
    and does not change them; writing bytes replaces exactly the sectors
    written. A transfer is below 4 GiB, since drivers count its bytes in 32
    bits. *)
Definition read_range (sector : Z → list Z) (lba : Z) (n : nat) : list Z :=
  concat (sector <$> seqZ lba (Z.of_nat n)).

Definition put_range (sector : Z → list Z) (lba : Z) (n : nat) (b : list Z) : Z → list Z :=
  λ i, if decide (lba ≤ i < lba + Z.of_nat n)
       then take 512 (drop (Z.to_nat ((i - lba) * 512)) b) else sector i.

Class SectorDevice (dv : blk_device) (ok : D → Prop) (sector : D → Z → list Z) := {
  sd_len : ∀ s i, ok s → 0 ≤ i < sectors dv → zlen (sector s i) = 512;
  sd_bytes : ∀ s i, ok s → 0 ≤ i < sectors dv → bytes_ok (sector s i);
  sd_read : ∀ s lba n b, ok s → (0 < n)%nat → 0 ≤ lba → lba + Z.of_nat n ≤ sectors dv →
    Z.of_nat n * 512 ≤ zlen b → Z.of_nat n * 512 < 2 ^ 32 →
    ∃ f s', read_sectors dv = Some f ∧ ok s' ∧ (∀ i, 0 ≤ i → sector s' i = sector s i) ∧
      f lba (Z.of_nat n) b s =
        Some (0, read_range (sector s) lba n ++ drop (n * 512) b, s');
  sd_write : ∀ s lba n b, ok s → (0 < n)%nat → 0 ≤ lba → lba + Z.of_nat n ≤ sectors dv →
    Z.of_nat n * 512 ≤ zlen b → Z.of_nat n * 512 < 2 ^ 32 → bytes_ok b →
    ∃ f s', write_sectors dv = Some f ∧ ok s' ∧
      (∀ i, 0 ≤ i → sector s' i = put_range (sector s) lba n b i) ∧
      f lba (Z.of_nat n) b s = Some (0, s');
  sd_writable : dev_writable dv = true;
  sd_sectors : 0 < sectors dv < 2 ^ 63;
}.
End blkdev.
Arguments blk_device : clear implicits.
Arguments registry : clear implicits.
Arguments read_fn : clear implicits.
Arguments write_fn : clear implicits.

(** ** A RAM disk

    A device whose hardware state is its image; it keeps the promises. *)
Definition ram_read : read_fn (list Z) := λ lba n b img,
  l ← slice img (lba * 512) (n * 512);
  b' ← splice b 0 l;
  Some (0, b', img).
Definition ram_write : write_fn (list Z) := λ lba n b img,
  l ← slice b 0 (n * 512);
  img' ← splice img (lba * 512) l;
  Some (0, img').
Definition ram_disk (n : Z) : blk_device (list Z) :=
  BlkDevice (zeros BLKDEV_NAME_LEN) n 512 true true (Some ram_read) (Some ram_write).
Definition ram_sector (img : list Z) (i : Z) : list Z :=
  take 512 (drop (Z.to_nat (i * 512)) img).

Lemma read_range_ram img lba n :
  0 ≤ lba → read_range (ram_sector img) lba n = take (n * 512) (drop (Z.to_nat (lba * 512)) img).
Proof.
  unfold read_range. revert lba. induction n as [|n IH]; intros lba Hl.
  { by rewrite seqZ_nil by lia. }
  rewrite seqZ_cons by lia. rewrite fmap_cons. cbn [concat].
  replace (Z.pred (Z.of_nat (S n))) with (Z.of_nat n) by lia.
  rewrite IH by lia. unfold ram_sector.
  replace (S n * 512)%nat with (512 + n * 512)%nat by lia.
  replace (Z.to_nat (Z.succ lba * 512)) with (Z.to_nat (lba * 512) + 512)%nat by lia.
  rewrite <- drop_drop. by rewrite take_take_drop.
Qed.

Lemma ram_disk_sectors n : sectors (ram_disk n) = n.
Proof. reflexivity. Qed.

Lemma ram_disk_device n :
  0 < n < 2 ^ 63 → SectorDevice (ram_disk n) (λ img, zlen img = n * 512 ∧ bytes_ok img) ram_sector.
Proof.
  intros Hn. split; rewrite ?ram_disk_sectors; try done.
  - intros img i [Hok _] Hi. unfold ram_sector. change 512%nat with (Z.to_nat 512).
    rewrite zlen_take; [done|]. rewrite zlen_drop; lia.
  - intros img i [_ Hby] Hi. by apply Forall_take, Forall_drop.
  - intros img lba k b [Hok Hby] Hk Hl Hle Hb _. exists ram_read, img. split_and!; try done.
    unfold ram_read. destruct (slice_is_Some img (lba * 512) (Z.of_nat k * 512)) as [l El]; try lia.
    rewrite El. simpl. pose proof (slice_zlen _ _ _ _ El) as Hlen.
    destruct (splice_is_Some b 0 l) as [b' Eb]; [lia..|]. rewrite Eb. simpl.
    apply splice_Some in Eb as (_ & _ & ->). apply slice_Some in El as (_ & _ & _ & ->).
    rewrite read_range_ram by done. unfold zlen in Hlen.
    replace (Z.to_nat (Z.of_nat k * 512)) with (k * 512)%nat in * by lia.
    do 3 f_equal. simpl. do 2 f_equal. lia.
  - intros img lba k b [Hok Hby] Hk Hl Hle Hb _ Hbb. exists ram_write. unfold ram_write.
    destruct (slice_is_Some b 0 (Z.of_nat k * 512)) as [l El]; try lia.
    pose proof (slice_zlen _ _ _ _ El) as Hlen.
    destruct (splice_is_Some img (lba * 512) l) as [img' Ei]; [lia..|].
    exists img'. rewrite El. simpl. rewrite Ei. simpl. split_and!; try done.
    { by rewrite (splice_zlen _ _ _ _ Ei). }
    { eauto with kdb. }
    apply slice_Some in El as (_ & _ & _ & ->). intros i Hi.
    unfold put_range, ram_sector. apply list_eq. intros j.
    destruct (decide (j < 512)%nat).
    2: { case_decide; by rewrite !lookup_take_ge by lia. }
    case_decide; rewrite !lookup_take_lt, !lookup_drop by lia;
      rewrite (lookup_splice _ _ _ _ _ Ei); unfold zlen in *.
    + rewrite decide_True by lia. simpl. rewrite drop_0, lookup_take_lt by lia. f_equal. lia.
    + rewrite decide_False by lia. done.
Qed.
