(* ===== verification/Ext4Disk.v ===== *)
(** * fs/ext4_disk.h: the on-disk layout of ext4

    A packed structure is the list of its fields with their sizes in bytes;
    the offset the code uses for a field is computed from the list. All
    fields are little endian. *)
From stdpp Require Import strings.
From S2P Require Import Prelude.

Fixpoint offset_from (off : Z) (l : list (string * Z)) (f : string) : option Z :=
  match l with
  | [] => None
  | (n, sz) :: r => if String.eqb n f then Some off else offset_from (off + sz) r f
  end.
Definition offset_of (l : list (string * Z)) (f : string) : Z := default (-1) (offset_from 0 l f).
Definition sizeof (l : list (string * Z)) : Z := foldr Z.add 0 l.*2.

Definition ext4_superblock : list (string * Z) := [
  ("inodes_count", 4); ("blocks_count_lo", 4); ("r_blocks_count_lo", 4);
  ("free_blocks_count_lo", 4); ("free_inodes_count", 4); ("first_data_block", 4);
  ("log_block_size", 4); ("log_cluster_size", 4); ("blocks_per_group", 4);
  ("clusters_per_group", 4); ("inodes_per_group", 4); ("mtime", 4); ("wtime", 4);
  ("mnt_count", 2); ("max_mnt_count", 2); ("magic", 2); ("state", 2); ("errors", 2);
  ("minor_rev_level", 2); ("lastcheck", 4); ("checkinterval", 4); ("creator_os", 4);
  ("rev_level", 4); ("def_resuid", 2); ("def_resgid", 2); ("first_ino", 4);
  ("inode_size", 2); ("block_group_nr", 2); ("feature_compat", 4);
  ("feature_incompat", 4); ("feature_ro_compat", 4); ("uuid", 16); ("volume_name", 16);
  ("last_mounted", 64); ("algorithm_usage_bitmap", 4); ("prealloc_blocks", 1);
  ("prealloc_dir_blocks", 1); ("reserved_gdt_blocks", 2); ("journal_uuid", 16);
  ("journal_inum", 4); ("journal_dev", 4); ("last_orphan", 4); ("hash_seed", 16);
  ("def_hash_version", 1); ("jnl_backup_type", 1); ("desc_size", 2);
  ("default_mount_opts", 4); ("first_meta_bg", 4); ("mkfs_time", 4); ("jnl_blocks", 68);
  ("blocks_count_hi", 4); ("r_blocks_count_hi", 4); ("free_blocks_count_hi", 4);
  ("min_extra_isize", 2); ("want_extra_isize", 2); ("flags", 4); ("raid_stride", 2);
  ("mmp_interval", 2); ("mmp_block", 8); ("raid_stripe_width", 4);
  ("log_groups_per_flex", 1); ("checksum_type", 1); ("reserved_pad", 2);
  ("kbytes_written", 8); ("snapshot_inum", 4); ("snapshot_id", 4); ("snapshot_list", 8);
  ("error_count", 4); ("first_error_time", 4); ("first_error_ino", 4);
  ("first_error_block", 8); ("first_error_func", 32); ("first_error_line", 4);
  ("last_error_time", 4); ("last_error_ino", 4); ("last_error_line", 4);
  ("last_error_block", 8); ("last_error_func", 32); ("mount_opts", 64);
  ("usr_quota_inum", 4); ("grp_quota_inum", 4); ("overhead_blocks", 4);
  ("backup_bgs", 8); ("encrypt_algos", 4); ("encrypt_pw_salt", 16); ("lpf_ino", 4);
  ("prj_quota_inum", 4); ("checksum_seed", 4); ("wtime_hi", 4); ("mtime_hi", 4);
  ("mkfs_time_hi", 4); ("lastcheck_hi", 4); ("first_error_time_hi", 4);
  ("last_error_time_hi", 4); ("encrypt_algos_dsc", 4); ("_pad", 368); ("checksum", 4)].

Definition ext4_group_desc : list (string * Z) := [
  ("block_bitmap_lo", 4); ("inode_bitmap_lo", 4); ("inode_table_lo", 4);
  ("free_blocks_count_lo", 2); ("free_inodes_count_lo", 2); ("used_dirs_count_lo", 2);
  ("flags", 2); ("exclude_bitmap_lo", 4); ("block_bitmap_csum_lo", 2);
  ("inode_bitmap_csum_lo", 2); ("itable_unused_lo", 2); ("checksum", 2);
  ("block_bitmap_hi", 4); ("inode_bitmap_hi", 4); ("inode_table_hi", 4);
  ("free_blocks_count_hi", 2); ("free_inodes_count_hi", 2); ("used_dirs_count_hi", 2);
  ("itable_unused_hi", 2); ("exclude_bitmap_hi", 4); ("block_bitmap_csum_hi", 2);
  ("inode_bitmap_csum_hi", 2); ("reserved", 4)].

Definition ext4_inode : list (string * Z) := [
  ("mode", 2); ("uid", 2); ("size_lo", 4); ("atime", 4); ("ctime", 4); ("mtime", 4);
  ("dtime", 4); ("gid", 2); ("links_count", 2); ("blocks_lo", 4); ("flags", 4);
  ("osd1", 4); ("u", 60); ("generation", 4); ("file_acl", 4); ("size_or_dir_acl", 4);
  ("faddr", 4); ("osd2_blocks_hi", 2); ("osd2_file_acl_hi", 2); ("osd2_uid_high", 2);
  ("osd2_gid_high", 2); ("osd2_checksum_lo", 2); ("osd2_reserved2", 2);
  ("extra_isize", 2); ("checksum_hi", 2); ("ctime_extra", 4); ("mtime_extra", 4);
  ("atime_extra", 4); ("crtime", 4); ("crtime_extra", 4); ("version_hi", 4);
  ("projid", 4); ("rest", 96)].

Definition ext4_dirent : list (string * Z) := [
  ("inode", 4); ("rec_len", 2); ("name_len", 1); ("file_type", 1)].
Definition extent_header : list (string * Z) := [
  ("magic", 2); ("entries", 2); ("max", 2); ("depth", 2); ("generation", 4)].
Definition extent_idx : list (string * Z) := [
  ("first_block", 4); ("leaf_lo", 4); ("leaf_hi", 2); ("unused", 2)].
Definition extent_entry : list (string * Z) := [
  ("first_block", 4); ("count", 2); ("start_hi", 2); ("start_lo", 4)].

(** ** Offsets used by the driver *)

Definition sb_inodes_count : Z := Eval vm_compute in offset_of ext4_superblock "inodes_count".
Definition sb_blocks_count_lo : Z := Eval vm_compute in offset_of ext4_superblock "blocks_count_lo".
Definition sb_free_blocks_count_lo : Z := Eval vm_compute in offset_of ext4_superblock "free_blocks_count_lo".
Definition sb_free_inodes_count : Z := Eval vm_compute in offset_of ext4_superblock "free_inodes_count".
Definition sb_first_data_block : Z := Eval vm_compute in offset_of ext4_superblock "first_data_block".
Definition sb_log_block_size : Z := Eval vm_compute in offset_of ext4_superblock "log_block_size".
Definition sb_blocks_per_group : Z := Eval vm_compute in offset_of ext4_superblock "blocks_per_group".
Definition sb_inodes_per_group : Z := Eval vm_compute in offset_of ext4_superblock "inodes_per_group".
Definition sb_mnt_count : Z := Eval vm_compute in offset_of ext4_superblock "mnt_count".
Definition sb_magic : Z := Eval vm_compute in offset_of ext4_superblock "magic".
Definition sb_state : Z := Eval vm_compute in offset_of ext4_superblock "state".
Definition sb_first_ino : Z := Eval vm_compute in offset_of ext4_superblock "first_ino".
Definition sb_inode_size : Z := Eval vm_compute in offset_of ext4_superblock "inode_size".
Definition sb_feature_compat : Z := Eval vm_compute in offset_of ext4_superblock "feature_compat".
Definition sb_feature_incompat : Z := Eval vm_compute in offset_of ext4_superblock "feature_incompat".
Definition sb_feature_ro_compat : Z := Eval vm_compute in offset_of ext4_superblock "feature_ro_compat".
Definition sb_uuid : Z := Eval vm_compute in offset_of ext4_superblock "uuid".
Definition sb_journal_inum : Z := Eval vm_compute in offset_of ext4_superblock "journal_inum".
Definition sb_desc_size : Z := Eval vm_compute in offset_of ext4_superblock "desc_size".
Definition sb_blocks_count_hi : Z := Eval vm_compute in offset_of ext4_superblock "blocks_count_hi".
Definition sb_free_blocks_count_hi : Z := Eval vm_compute in offset_of ext4_superblock "free_blocks_count_hi".
Definition sb_checksum_seed : Z := Eval vm_compute in offset_of ext4_superblock "checksum_seed".
Definition sb_checksum : Z := Eval vm_compute in offset_of ext4_superblock "checksum".

Definition gd_block_bitmap_lo : Z := Eval vm_compute in offset_of ext4_group_desc "block_bitmap_lo".
Definition gd_inode_bitmap_lo : Z := Eval vm_compute in offset_of ext4_group_desc "inode_bitmap_lo".
Definition gd_inode_table_lo : Z := Eval vm_compute in offset_of ext4_group_desc "inode_table_lo".
Definition gd_free_blocks_count_lo : Z := Eval vm_compute in offset_of ext4_group_desc "free_blocks_count_lo".
Definition gd_free_inodes_count_lo : Z := Eval vm_compute in offset_of ext4_group_desc "free_inodes_count_lo".
Definition gd_used_dirs_count_lo : Z := Eval vm_compute in offset_of ext4_group_desc "used_dirs_count_lo".
Definition gd_flags : Z := Eval vm_compute in offset_of ext4_group_desc "flags".
Definition gd_block_bitmap_csum_lo : Z := Eval vm_compute in offset_of ext4_group_desc "block_bitmap_csum_lo".
Definition gd_inode_bitmap_csum_lo : Z := Eval vm_compute in offset_of ext4_group_desc "inode_bitmap_csum_lo".
Definition gd_itable_unused_lo : Z := Eval vm_compute in offset_of ext4_group_desc "itable_unused_lo".
Definition gd_checksum : Z := Eval vm_compute in offset_of ext4_group_desc "checksum".
Definition gd_block_bitmap_hi : Z := Eval vm_compute in offset_of ext4_group_desc "block_bitmap_hi".
Definition gd_inode_bitmap_hi : Z := Eval vm_compute in offset_of ext4_group_desc "inode_bitmap_hi".
Definition gd_inode_table_hi : Z := Eval vm_compute in offset_of ext4_group_desc "inode_table_hi".
Definition gd_free_blocks_count_hi : Z := Eval vm_compute in offset_of ext4_group_desc "free_blocks_count_hi".
Definition gd_free_inodes_count_hi : Z := Eval vm_compute in offset_of ext4_group_desc "free_inodes_count_hi".
Definition gd_used_dirs_count_hi : Z := Eval vm_compute in offset_of ext4_group_desc "used_dirs_count_hi".
Definition gd_itable_unused_hi : Z := Eval vm_compute in offset_of ext4_group_desc "itable_unused_hi".
Definition gd_block_bitmap_csum_hi : Z := Eval vm_compute in offset_of ext4_group_desc "block_bitmap_csum_hi".
Definition gd_inode_bitmap_csum_hi : Z := Eval vm_compute in offset_of ext4_group_desc "inode_bitmap_csum_hi".

Definition in_mode : Z := Eval vm_compute in offset_of ext4_inode "mode".
Definition in_uid : Z := Eval vm_compute in offset_of ext4_inode "uid".
Definition in_size_lo : Z := Eval vm_compute in offset_of ext4_inode "size_lo".
Definition in_atime : Z := Eval vm_compute in offset_of ext4_inode "atime".
Definition in_ctime : Z := Eval vm_compute in offset_of ext4_inode "ctime".
Definition in_mtime : Z := Eval vm_compute in offset_of ext4_inode "mtime".
Definition in_gid : Z := Eval vm_compute in offset_of ext4_inode "gid".
Definition in_links_count : Z := Eval vm_compute in offset_of ext4_inode "links_count".
Definition in_blocks_lo : Z := Eval vm_compute in offset_of ext4_inode "blocks_lo".
Definition in_flags : Z := Eval vm_compute in offset_of ext4_inode "flags".
Definition in_u : Z := Eval vm_compute in offset_of ext4_inode "u".
Definition in_generation : Z := Eval vm_compute in offset_of ext4_inode "generation".
Definition in_size_or_dir_acl : Z := Eval vm_compute in offset_of ext4_inode "size_or_dir_acl".
Definition in_osd2_blocks_hi : Z := Eval vm_compute in offset_of ext4_inode "osd2_blocks_hi".
Definition in_osd2_checksum_lo : Z := Eval vm_compute in offset_of ext4_inode "osd2_checksum_lo".
Definition in_extra_isize : Z := Eval vm_compute in offset_of ext4_inode "extra_isize".
Definition in_checksum_hi : Z := Eval vm_compute in offset_of ext4_inode "checksum_hi".
Definition in_crtime : Z := Eval vm_compute in offset_of ext4_inode "crtime".

Definition de_inode : Z := Eval vm_compute in offset_of ext4_dirent "inode".
Definition de_rec_len : Z := Eval vm_compute in offset_of ext4_dirent "rec_len".
Definition de_name_len : Z := Eval vm_compute in offset_of ext4_dirent "name_len".
Definition de_file_type : Z := Eval vm_compute in offset_of ext4_dirent "file_type".

Definition eh_magic : Z := Eval vm_compute in offset_of extent_header "magic".
Definition eh_entries : Z := Eval vm_compute in offset_of extent_header "entries".
Definition eh_max : Z := Eval vm_compute in offset_of extent_header "max".
Definition eh_depth : Z := Eval vm_compute in offset_of extent_header "depth".
Definition eh_generation : Z := Eval vm_compute in offset_of extent_header "generation".

Definition ix_first_block : Z := Eval vm_compute in offset_of extent_idx "first_block".
Definition ix_leaf_lo : Z := Eval vm_compute in offset_of extent_idx "leaf_lo".
Definition ix_leaf_hi : Z := Eval vm_compute in offset_of extent_idx "leaf_hi".
Definition ix_unused : Z := Eval vm_compute in offset_of extent_idx "unused".

Definition ex_first_block : Z := Eval vm_compute in offset_of extent_entry "first_block".
Definition ex_count : Z := Eval vm_compute in offset_of extent_entry "count".
Definition ex_start_hi : Z := Eval vm_compute in offset_of extent_entry "start_hi".
Definition ex_start_lo : Z := Eval vm_compute in offset_of extent_entry "start_lo".

(** ** Constants *)

Definition EXT4_SUPER_OFF : Z := 1024.
Definition EXT4_MAGIC : Z := 0xEF53.
Definition EXT4_VALID_FS : Z := 0x0001.
Definition FEAT_COMPAT_HAS_JOURNAL : Z := 0x00000004.
Definition FEAT_COMPAT_DIR_INDEX : Z := 0x00000020.
Definition FEAT_INCOMPAT_FILETYPE : Z := 0x00000002.
Definition FEAT_INCOMPAT_RECOVER : Z := 0x00000004.
Definition FEAT_INCOMPAT_JOURNAL_DEV : Z := 0x00000008.
Definition FEAT_INCOMPAT_META_BG : Z := 0x00000010.
Definition FEAT_INCOMPAT_EXTENTS : Z := 0x00000040.
Definition FEAT_INCOMPAT_64BIT : Z := 0x00000080.
Definition FEAT_INCOMPAT_MMP : Z := 0x00000100.
Definition FEAT_INCOMPAT_FLEX_BG : Z := 0x00000200.
Definition FEAT_INCOMPAT_EA_INODE : Z := 0x00000400.
Definition FEAT_INCOMPAT_DIRDATA : Z := 0x00001000.
Definition FEAT_INCOMPAT_CSUM_SEED : Z := 0x00002000.
Definition FEAT_INCOMPAT_LARGEDIR : Z := 0x00004000.
Definition FEAT_INCOMPAT_INLINE_DATA : Z := 0x00008000.
Definition FEAT_INCOMPAT_ENCRYPT : Z := 0x00010000.
Definition FEAT_RO_SPARSE_SUPER : Z := 0x00000001.
Definition FEAT_RO_LARGE_FILE : Z := 0x00000002.
Definition FEAT_RO_GDT_CSUM : Z := 0x00000010.
Definition FEAT_RO_DIR_NLINK : Z := 0x00000020.
Definition FEAT_RO_EXTRA_ISIZE : Z := 0x00000040.
Definition FEAT_RO_BIGALLOC : Z := 0x00000200.
Definition FEAT_RO_METADATA_CSUM : Z := 0x00000400.
Definition FEAT_RO_QUOTA : Z := 0x00000100.
Definition FEAT_RO_PROJECT : Z := 0x00002000.
Definition FEAT_RO_VERITY : Z := 0x00008000.
Definition FEAT_RO_ORPHAN_PRESENT : Z := 0x00010000.
Definition INO_FLAG_EXTENTS : Z := 0x00080000.
Definition INO_FLAG_INDEX_FL : Z := 0x00001000.
Definition EXT4_ROOT_INO : Z := 2.
Definition EXT4_GOOD_OLD_INODE_SIZE : Z := 128.
Definition EXT4_GOOD_OLD_FIRST_INO : Z := 11.
Definition DET_UNKNOWN : Z := 0.
Definition DET_REG : Z := 1.
Definition DET_DIR : Z := 2.
Definition DET_CHR : Z := 3.
Definition DET_BLK : Z := 4.
Definition DET_FIFO : Z := 5.
Definition DET_SOCK : Z := 6.
Definition DET_LNK : Z := 7.
Definition DIRENT_TAIL_MARKER : Z := 0xDE.

(** ** The layout is the documented one *)

(** The offsets written beside the fields of the header file. *)
Definition documented_superblock : list (string * Z) := [
  ("inodes_count", 0); ("blocks_count_lo", 4); ("r_blocks_count_lo", 8); ("free_blocks_count_lo", 0xc);
  ("free_inodes_count", 0x10); ("first_data_block", 0x14); ("log_block_size", 0x18); ("log_cluster_size", 0x1c);
  ("blocks_per_group", 0x20); ("clusters_per_group", 0x24); ("inodes_per_group", 0x28); ("mtime", 0x2c);
  ("wtime", 0x30); ("mnt_count", 0x34); ("max_mnt_count", 0x36); ("magic", 0x38);
  ("state", 0x3a); ("errors", 0x3c); ("minor_rev_level", 0x3e); ("lastcheck", 0x40);
  ("checkinterval", 0x44); ("creator_os", 0x48); ("rev_level", 0x4c); ("def_resuid", 0x50);
  ("def_resgid", 0x52); ("first_ino", 0x54); ("inode_size", 0x58); ("block_group_nr", 0x5a);
  ("feature_compat", 0x5c); ("feature_incompat", 0x60); ("feature_ro_compat", 0x64); ("uuid", 0x68);
  ("volume_name", 0x78); ("last_mounted", 0x88); ("algorithm_usage_bitmap", 0xc8); ("prealloc_blocks", 0xcc);
  ("prealloc_dir_blocks", 0xcd); ("reserved_gdt_blocks", 0xce); ("journal_uuid", 0xd0); ("journal_inum", 0xe0);
  ("journal_dev", 0xe4); ("last_orphan", 0xe8); ("hash_seed", 0xec); ("def_hash_version", 0xfc);
  ("jnl_backup_type", 0xfd); ("desc_size", 0xfe); ("default_mount_opts", 0x100); ("first_meta_bg", 0x104);
  ("mkfs_time", 0x108); ("jnl_blocks", 0x10c); ("blocks_count_hi", 0x150); ("r_blocks_count_hi", 0x154);
  ("free_blocks_count_hi", 0x158); ("min_extra_isize", 0x15c); ("want_extra_isize", 0x15e); ("flags", 0x160);
  ("raid_stride", 0x164); ("mmp_interval", 0x166); ("mmp_block", 0x168); ("raid_stripe_width", 0x170);
  ("log_groups_per_flex", 0x174); ("checksum_type", 0x175); ("reserved_pad", 0x176); ("kbytes_written", 0x178);
  ("snapshot_inum", 0x180); ("snapshot_id", 0x184); ("snapshot_list", 0x188); ("error_count", 0x190);
  ("first_error_time", 0x194); ("first_error_ino", 0x198); ("first_error_block", 0x19c); ("first_error_func", 0x1a4);
  ("first_error_line", 0x1c4); ("last_error_time", 0x1c8); ("last_error_ino", 0x1cc); ("last_error_line", 0x1d0);
  ("last_error_block", 0x1d4); ("last_error_func", 0x1dc); ("mount_opts", 0x1fc); ("usr_quota_inum", 0x23c);
  ("grp_quota_inum", 0x240); ("overhead_blocks", 0x244); ("backup_bgs", 0x248); ("encrypt_algos", 0x250);
  ("encrypt_pw_salt", 0x254); ("lpf_ino", 0x264); ("prj_quota_inum", 0x268); ("checksum_seed", 0x26c);
  ("wtime_hi", 0x270); ("mtime_hi", 0x274); ("mkfs_time_hi", 0x278); ("lastcheck_hi", 0x27c);
  ("first_error_time_hi", 0x280); ("last_error_time_hi", 0x284); ("encrypt_algos_dsc", 0x288); ("checksum", 0x3fc)].
Definition documented_group_desc : list (string * Z) := [
  ("block_bitmap_lo", 0); ("inode_bitmap_lo", 4); ("inode_table_lo", 8); ("free_blocks_count_lo", 0xc);
  ("free_inodes_count_lo", 0xe); ("used_dirs_count_lo", 0x10); ("flags", 0x12); ("exclude_bitmap_lo", 0x14);
  ("block_bitmap_csum_lo", 0x18); ("inode_bitmap_csum_lo", 0x1a); ("itable_unused_lo", 0x1c); ("checksum", 0x1e);
  ("block_bitmap_hi", 0x20); ("inode_bitmap_hi", 0x24); ("inode_table_hi", 0x28); ("free_blocks_count_hi", 0x2c);
  ("free_inodes_count_hi", 0x2e); ("used_dirs_count_hi", 0x30); ("itable_unused_hi", 0x32); ("exclude_bitmap_hi", 0x34);
  ("block_bitmap_csum_hi", 0x38); ("inode_bitmap_csum_hi", 0x3a); ("reserved", 0x3c)].
Definition documented_inode : list (string * Z) := [
  ("mode", 0); ("uid", 2); ("size_lo", 4); ("atime", 8);
  ("ctime", 0xc); ("mtime", 0x10); ("dtime", 0x14); ("gid", 0x18);
  ("links_count", 0x1a); ("blocks_lo", 0x1c); ("flags", 0x20); ("osd1", 0x24);
  ("u", 0x28); ("generation", 0x64); ("file_acl", 0x68); ("size_or_dir_acl", 0x6c);
  ("faddr", 0x70); ("osd2_blocks_hi", 0x74); ("extra_isize", 0x80); ("checksum_hi", 0x82);
  ("ctime_extra", 0x84); ("mtime_extra", 0x88); ("atime_extra", 0x8c); ("crtime", 0x90);
  ("crtime_extra", 0x94); ("version_hi", 0x98); ("projid", 0x9c); ("rest", 0xa0)].

(** The packed structures of the header have the sizes of the ext4
    format, and every field lies at the offset documented beside it. *)
Theorem disk_layout :
  sizeof ext4_superblock = 1024 ∧ sizeof ext4_group_desc = 64 ∧ sizeof ext4_inode = 256 ∧
  sizeof ext4_dirent = 8 ∧ sizeof extent_header = 12 ∧ sizeof extent_idx = 12 ∧
  sizeof extent_entry = 12 ∧
  Forall (λ f, offset_of ext4_superblock f.1 = f.2) documented_superblock ∧
  Forall (λ f, offset_of ext4_group_desc f.1 = f.2) documented_group_desc ∧
  Forall (λ f, offset_of ext4_inode f.1 = f.2) documented_inode.
Proof. repeat split; repeat constructor. Qed.
