(* ===== verification/Ext4Core.v ===== *)
(** * fs/ext4_core.c: block IO, checksums, group descriptors, inodes

    [world] is everything the driver reads and writes: the mount state [e4]
    (with the cached superblock and group descriptors as the packed bytes
    they are), the two shared scratch buffers, the block-device registry, the
    hardware behind it, the allocator, the clock and the statics of the
    journal code. The scratch buffers are shared by every layer, so they are
    named ([S1], [S2]) and passed by name. Uninitialised memory of [n] bytes
    holds [uninit n]. Console messages are not modelled. *)
From S2P Require Import Prelude KString Csum Blkdev Alloc Ext4Disk.

(** ** State *)

Record ext4_fs := E4 {
  dev : option Z;
  block_size : Z;
  sectors_per_block : Z;
  blocks_count : Z;
  inodes_count : Z;
  blocks_per_group : Z;
  inodes_per_group : Z;
  group_count : Z;
  first_data_block : Z;
  inode_size : Z;
  desc_size : Z;
  first_ino : Z;
  feat_compat : Z;
  feat_incompat : Z;
  feat_ro_compat : Z;
  has_extents : bool;
  has_64bit : bool;
  meta_csum : bool;
  gdt_csum : bool;
  csum_seed_feat : bool;
  writable : bool;
  csum_seed : Z;
  uuid : list Z;
  sb : list Z;
  gdt : option (list Z);
}.

(** [memset(&e4, 0, sizeof e4)]. *)
Definition e4_zero : ext4_fs :=
  E4 None 0 0 0 0 0 0 0 0 0 0 0 0 0 0 false false false false false false 0
    (zeros 16) (zeros 1024) None.

Definition upd_dev (v : option Z) (e : ext4_fs) : ext4_fs :=
  E4 v (block_size e) (sectors_per_block e) (blocks_count e) (inodes_count e)
    (blocks_per_group e) (inodes_per_group e) (group_count e) (first_data_block e)
    (inode_size e) (desc_size e) (first_ino e) (feat_compat e) (feat_incompat e)
    (feat_ro_compat e) (has_extents e) (has_64bit e) (meta_csum e) (gdt_csum e)
    (csum_seed_feat e) (writable e) (csum_seed e) (uuid e) (sb e) (gdt e).
Definition upd_feat_incompat (v : Z) (e : ext4_fs) : ext4_fs :=
  E4 (dev e) (block_size e) (sectors_per_block e) (blocks_count e) (inodes_count e)
    (blocks_per_group e) (inodes_per_group e) (group_count e) (first_data_block e)
    (inode_size e) (desc_size e) (first_ino e) (feat_compat e) v
    (feat_ro_compat e) (has_extents e) (has_64bit e) (meta_csum e) (gdt_csum e)
    (csum_seed_feat e) (writable e) (csum_seed e) (uuid e) (sb e) (gdt e).
Definition upd_sb (v : list Z) (e : ext4_fs) : ext4_fs :=
  E4 (dev e) (block_size e) (sectors_per_block e) (blocks_count e) (inodes_count e)
    (blocks_per_group e) (inodes_per_group e) (group_count e) (first_data_block e)
    (inode_size e) (desc_size e) (first_ino e) (feat_compat e) (feat_incompat e)
    (feat_ro_compat e) (has_extents e) (has_64bit e) (meta_csum e) (gdt_csum e)
    (csum_seed_feat e) (writable e) (csum_seed e) (uuid e) v (gdt e).
Definition upd_gdt (v : option (list Z)) (e : ext4_fs) : ext4_fs :=
  E4 (dev e) (block_size e) (sectors_per_block e) (blocks_count e) (inodes_count e)
    (blocks_per_group e) (inodes_per_group e) (group_count e) (first_data_block e)
    (inode_size e) (desc_size e) (first_ino e) (feat_compat e) (feat_incompat e)
    (feat_ro_compat e) (has_extents e) (has_64bit e) (meta_csum e) (gdt_csum e)
    (csum_seed_feat e) (writable e) (csum_seed e) (uuid e) (sb e) v.

(** Statics of fs/ext4_journal.c. *)
Record journal := Journal {
  jin : list Z;
  committed : list Z;       (* the first [n_committed] slots *)
  last_commit_seq : Z;
  revbits : option (list Z);
}.

Record world {D H : Type} := World {
  e4 : ext4_fs;
  scratch1 : option (list Z);
  scratch2 : option (list Z);
  reg : registry D;
  hw : D;
  hp : H;
  clock : Z;                (* uptime_ms() *)
  uninit : Z → list Z;
  jnl : journal;
}.
Arguments world : clear implicits.

(** A field of an object whose type fixes its size ([struct ext4_inode], the
    superblock in [e4]): the access is always inside. *)
Definition fget (n : Z) (b : list Z) (off : Z) : Z := default 0 (ld n b off).
Definition fset (n : Z) (off v : Z) (b : list Z) : list Z := default b (st n b off v).

(** The two scratch buffers. *)
Inductive sbuf := S1 | S2.
#[export] Instance sbuf_eq_dec : EqDecision sbuf.
Proof. solve_decision. Defined.

Section core.
Context {D H : Type} `{Allocator H}.
#[local] Abbreviation W := (world D H).

Definition set_e4 (f : ext4_fs → ext4_fs) (w : W) : W :=
  World _ _ (f (e4 w)) (scratch1 w) (scratch2 w) (reg w) (hw w) (hp w) (clock w) (uninit w) (jnl w).
Definition set_hw (v : D) (w : W) : W :=
  World _ _ (e4 w) (scratch1 w) (scratch2 w) (reg w) v (hp w) (clock w) (uninit w) (jnl w).
Definition set_hp (v : H) (w : W) : W :=
  World _ _ (e4 w) (scratch1 w) (scratch2 w) (reg w) (hw w) v (clock w) (uninit w) (jnl w).
Definition set_jnl (f : journal → journal) (w : W) : W :=
  World _ _ (e4 w) (scratch1 w) (scratch2 w) (reg w) (hw w) (hp w) (clock w) (uninit w) (f (jnl w)).

Definition bufget (b : sbuf) (w : W) : option (list Z) :=
  match b with S1 => scratch1 w | S2 => scratch2 w end.
Definition bufset (b : sbuf) (v : option (list Z)) (w : W) : W :=
  match b with
  | S1 => World _ _ (e4 w) v (scratch2 w) (reg w) (hw w) (hp w) (clock w) (uninit w) (jnl w)
  | S2 => World _ _ (e4 w) (scratch1 w) v (reg w) (hw w) (hp w) (clock w) (uninit w) (jnl w)
  end.

(** Calls into the allocator. *)
Definition heap_call {A} (m : M H A) : M W A :=
  λ w, match m (hp w) with Some (a, h') => Some (a, set_hp h' w) | None => None end.
Definition kmalloc (sz : Z) : M W (option Z) := heap_call (al_kmalloc sz).
Definition kzalloc (sz : Z) : M W (option Z) := heap_call (al_kzalloc sz).
Definition kfree (p : option Z) : M W unit := heap_call (al_kfree p).

(** [memcpy]/[memset] on a scratch buffer and accesses through it. *)
Definition buf_slice (b : sbuf) (off n : Z) : M W (list Z) :=
  let* v := gets (bufget b) in lift (l ← v; slice l off n).
Definition buf_splice (b : sbuf) (off : Z) (l : list Z) : M W unit :=
  let* v := gets (bufget b) in
  let* v' := lift (o ← v; splice o off l) in
  modify (bufset b (Some v')).
Definition buf_ld (n : Z) (b : sbuf) (off : Z) : M W Z :=
  let* l := buf_slice b off n in ret (le_of l).
Definition buf_st (n : Z) (b : sbuf) (off v : Z) : M W unit :=
  buf_splice b off (le_to (Z.to_nat n) v).
Definition buf_zero (b : sbuf) (n : Z) : M W unit := buf_splice b 0 (zeros n).

Definition e4_now : M W Z := let* t := gets clock in ret (t / 1000).

Definition e4_block_buf : sbuf := S1.
Definition e4_block_buf2 : sbuf := S2.

Definition e4_init_scratch (bs : Z) : M W Z :=
  let* u := gets uninit in
  let* p1 := kmalloc bs in
  modify (bufset S1 (const (u bs) <$> p1)) ;;
  let* p2 := kmalloc bs in
  modify (bufset S2 (const (u bs) <$> p2)) ;;
  match p1, p2 with
  | Some _, Some _ => buf_zero S1 bs ;; buf_zero S2 bs ;; ret 0
  | _, _ => ret (-1)
  end.

(** ** Raw block IO *)

Definition e4_read_block (block : Z) (buf : option (list Z)) : M W (Z * option (list Z)) :=
  λ w,
    match dev (e4 w), buf with
    | Some _, Some _ =>
        match blk_read (reg w) (dev (e4 w)) (u64 (block * sectors_per_block (e4 w)))
                (sectors_per_block (e4 w)) buf (hw w) with
        | Some (rc, b', s') => Some ((rc, b'), set_hw s' w)
        | None => None
        end
    | _, _ => Some ((-1, buf), w)
    end.

Definition e4_write_block (block : Z) (buf : option (list Z)) : M W Z :=
  λ w,
    match dev (e4 w), buf with
    | Some _, Some _ =>
        if negb (writable (e4 w)) then Some (-1, w)
        else
          match blk_write (reg w) (dev (e4 w)) (u64 (block * sectors_per_block (e4 w)))
                  (sectors_per_block (e4 w)) buf (hw w) with
          | Some (rc, s') => Some (rc, set_hw s' w)
          | None => None
          end
    | _, _ => Some (-1, w)
    end.

(** The same with a scratch buffer as the memory. *)
Definition read_into (b : sbuf) (block : Z) : M W Z :=
  let* old := gets (bufget b) in
  let* (rc, new) := e4_read_block block old in
  modify (bufset b new) ;; ret rc.
Definition write_from (b : sbuf) (block : Z) : M W Z :=
  let* v := gets (bufget b) in e4_write_block block v.

(** ** Checksums *)

Definition e4_meta_seed (e : ext4_fs) : Z :=
  if csum_seed_feat e then fget 4 (sb e) sb_checksum_seed else csum_seed e.

Definition e4_sb_recompute_checksum : M W unit :=
  modify (set_e4 (λ e, upd_sb (fset 4 sb_checksum (crc32c 0xFFFFFFFF (take 1020 (sb e))) (sb e)) e)).

Definition e4_sync_superblock : M W Z :=
  λ w, match blk_write (reg w) (dev (e4 w)) (EXT4_SUPER_OFF / 512) 2 (Some (sb (e4 w))) (hw w) with
       | Some (rc, s') => Some (rc, set_hw s' w)
       | None => None
       end.

(** [gd] points at offset [off] of [b]; the new contents of [b]. *)
Definition e4_desc_checksum_set (e : ext4_fs) (group : Z) (b : list Z) (off : Z) : option (list Z) :=
  if meta_csum e then
    b ← st16 b (off + gd_checksum) 0;
    d ← slice b off (desc_size e);
    let crc := crc32c (e4_meta_seed e) (le_to 4 group) in
    let crc := crc32c crc d in
    st16 b (off + gd_checksum) (Z.land crc 0xFFFF)
  else if gdt_csum e then
    d1 ← slice b off 30;
    d2 ← slice b (off + 32) (u32 (desc_size e - 32));
    let crc := crc16 0xFFFF (uuid e) in
    let crc := crc16 crc (le_to 4 group) in
    let crc := crc16 crc d1 in
    let crc := crc16 crc d2 in
    st16 b (off + gd_checksum) crc
  else Some b.

(** ** Group descriptors *)

Definition gdt_mod (f : list Z → option (list Z)) : M W unit :=
  let* e := gets e4 in
  let* g := lift (g ← gdt e; f g) in
  modify (set_e4 (upd_gdt (Some g))).
(** [gd->field] for [gd] at offset [off] of the table. *)
Definition gd_ld (n off : Z) : M W Z :=
  let* e := gets e4 in lift (g ← gdt e; ld n g off).
Definition gd_st (n off v : Z) : M W unit := gdt_mod (λ g, st n g off v).

Definition e4_load_gdt : M W Z :=
  let* e := gets e4 in
  let bytes := u32 (desc_size e * group_count e) in
  let gdt_block := u32 (first_data_block e + 1) in
  let* p := kzalloc bytes in
  modify (set_e4 (upd_gdt (const (zeros bytes) <$> p))) ;;
  match p with
  | None => ret (-1)
  | Some _ =>
      let* per_block := udiv (block_size e) (desc_size e) in
      let* r := for_ 0 (Z.to_nat (group_count e)) (λ g,
        let* q := udiv g per_block in
        let* slot := umod g per_block in
        try read_into S1 (u32 (gdt_block + q)) else Some (-1) in
        let* d := buf_slice S1 (slot * desc_size e) (desc_size e) in
        gdt_mod (λ t, splice t (g * desc_size e) d) ;;
        ret None) in
      match r with
      | Some rc => ret rc
      | None =>
          (* the checksum probe of group 0 only prints *)
          let* e := gets e4 in
          let* probe := lift (t ← gdt e; slice t 0 64) in
          let* _ := lift (e4_desc_checksum_set e 0 probe 0) in
          ret 0
      end
  end.

(** The descriptor of a group, as an offset into the table; NULL is [None]. *)
Definition e4_gd (e : ext4_fs) (group : Z) : option Z :=
  if group_count e <=? group then None else Some (u64 (group * desc_size e)).

Definition e4_bitmap_checksum_set (b : sbuf) (inode_bitmap : bool) (gd : Z) : M W unit :=
  let* e := gets e4 in
  if negb (meta_csum e) then ret tt
  else
    let sz := if inode_bitmap then inodes_per_group e / 8 else blocks_per_group e / 8 in
    let* l := buf_slice b 0 sz in
    let crc := crc32c (e4_meta_seed e) l in
    if inode_bitmap then
      gd_st 2 (gd + gd_inode_bitmap_csum_lo) (Z.land crc 0xFFFF) ;;
      if 60 <=? desc_size e then gd_st 2 (gd + gd_inode_bitmap_csum_hi) (Z.shiftr crc 16) else ret tt
    else
      gd_st 2 (gd + gd_block_bitmap_csum_lo) (Z.land crc 0xFFFF) ;;
      if 58 <=? desc_size e then gd_st 2 (gd + gd_block_bitmap_csum_hi) (Z.shiftr crc 16) else ret tt.

Definition e4_sync_gd (group : Z) : M W Z :=
  let* e := gets e4 in
  match e4_gd e group with
  | None => ret (-1)
  | Some gd =>
      gdt_mod (λ t, e4_desc_checksum_set e group t gd) ;;
      let* per_block := udiv (block_size e) (desc_size e) in
      let gdt_block := u32 (first_data_block e + 1) in
      let* q := udiv group per_block in
      let* slot := umod group per_block in
      let blk := u32 (gdt_block + q) in
      try read_into S2 blk else -1 in
      let* e := gets e4 in
      let* d := lift (t ← gdt e; slice t gd (desc_size e)) in
      buf_splice S2 (slot * desc_size e) d ;;
      write_from S2 blk
  end.

(** ** Inodes *)

Definition inode_table_block (e : ext4_fs) (ino : Z) : option Z :=
  g ← odiv (u32 (ino - 1)) (inodes_per_group e);
  match e4_gd e g with
  | None => Some 0
  | Some gd =>
      t ← gdt e;
      tbl ← ld32 t (gd + gd_inode_table_lo);
      if has_64bit e then
        hi ← ld32 t (gd + gd_inode_table_hi);
        Some (Z.lor tbl (Z.shiftl hi 32))
      else Some tbl
  end.

(** Block and offset of an inode in the inode table. *)
Definition inode_pos (e : ext4_fs) (ino : Z) : option (Z * Z) :=
  tbl ← inode_table_block e ino;
  idx ← omod (u32 (ino - 1)) (inodes_per_group e);
  let byte_off := u64 (idx * inode_size e) in
  q ← odiv byte_off (block_size e);
  off ← omod byte_off (block_size e);
  Some (u64 (tbl + q), u32 off).

(** Return code and new contents of [*out]. *)
Definition e4_read_inode (ino : Z) (out : list Z) : M W (Z * list Z) :=
  let* e := gets e4 in
  if (ino <? 1) || (inodes_count e <? ino) then ret (-1, out)
  else
    let* (blk, off) := lift (inode_pos e ino) in
    if u32 (off + inode_size e) <=? block_size e then
      try read_into S1 blk else (-1, out) in
      let* l := buf_slice S1 off (inode_size e) in
      let* out := lift (splice out 0 l) in
      ret (0, out)
    else
      try read_into S1 blk else (-1, out) in
      try read_into S2 (u64 (blk + 1)) else (-1, out) in
      let part := u32 (block_size e - off) in
      let* l1 := buf_slice S1 off part in
      let* out := lift (splice out 0 l1) in
      let* l2 := buf_slice S2 0 (u32 (inode_size e - part)) in
      let* out := lift (splice out part l2) in
      ret (0, out).

Definition e4_write_inode (ino : Z) (inode : list Z) : M W Z :=
  let* e := gets e4 in
  if (ino <? 1) || (inodes_count e <? ino) || negb (writable e) then ret (-1)
  else
    let* (blk, off) := lift (inode_pos e ino) in
    if u32 (off + inode_size e) <=? block_size e then
      try read_into S1 blk else -1 in
      let* l := lift (slice inode 0 (inode_size e)) in
      buf_splice S1 off l ;;
      write_from S1 blk
    else
      let part := u32 (block_size e - off) in
      try read_into S1 blk else -1 in
      let* l1 := lift (slice inode 0 part) in
      buf_splice S1 off l1 ;;
      try write_from S1 blk else -1 in
      try read_into S1 (u64 (blk + 1)) else -1 in
      let* l2 := lift (slice inode part (u32 (inode_size e - part))) in
      buf_splice S1 0 l2 ;;
      write_from S1 (u64 (blk + 1)).

Definition e4_is_dir (inode : list Z) : bool := Z.land (fget 2 inode in_mode) 0xF000 =? 0x4000.
Definition e4_is_regular (inode : list Z) : bool := Z.land (fget 2 inode in_mode) 0xF000 =? 0x8000.

Definition e4_inode_size (e : ext4_fs) (inode : list Z) : Z :=
  let sz := fget 4 inode in_size_lo in
  if e4_is_dir inode then sz
  else if has (feat_ro_compat e) FEAT_RO_LARGE_FILE
  then Z.lor sz (Z.shiftl (fget 4 inode in_size_or_dir_acl) 32)
  else sz.

(** An inode variable on the stack before it is assigned. *)
Definition stack_inode : M W (list Z) := let* u := gets uninit in ret (u 256).

Definition inode_has_csum_hi (e : ext4_fs) (inode : list Z) : bool :=
  (EXT4_GOOD_OLD_INODE_SIZE <? inode_size e) && (6 <=? fget 2 inode in_extra_isize).

Definition e4_inode_checksum_set (e : ext4_fs) (ino : Z) (inode : list Z) : option (list Z) :=
  if negb (meta_csum e) then Some inode
  else
    let has_hi := inode_has_csum_hi e inode in
    let saved_hi := fget 2 inode in_checksum_hi in
    let inode := fset 2 in_osd2_checksum_lo 0 inode in
    let inode := fset 2 in_checksum_hi 0 inode in
    let crc := crc32c (e4_meta_seed e) (le_to 4 ino) in
    let crc := crc32c crc (le_to 4 (fget 4 inode in_generation)) in
    d ← slice inode 0 (inode_size e);
    let crc := crc32c crc d in
    let inode := fset 2 in_osd2_checksum_lo (Z.land crc 0xFFFF) inode in
    Some (fset 2 in_checksum_hi (if has_hi then Z.shiftr crc 16 else saved_hi) inode).

(** [eh] is the start of the scratch buffer [b]. *)
Definition e4_extent_block_checksum_set (ino : Z) (b : sbuf) : M W unit :=
  let* e := gets e4 in
  if negb (meta_csum e) then ret tt
  else
    let* host := stack_inode in
    let* (rc, host) := e4_read_inode ino host in
    if truthy rc then ret tt
    else
      let* mx := buf_ld 2 b eh_max in
      let* l := buf_slice b 0 (12 + mx * 12) in
      let crc := crc32c (e4_meta_seed e) (le_to 4 ino) in
      let crc := crc32c crc (le_to 4 (fget 4 host in_generation)) in
      let crc := crc32c crc l in
      buf_st 4 b (12 + mx * 12) crc.

(** The walk over the records of a directory block: the offset it stops at,
    [None] when a record length is malformed. *)
Fixpoint dirent_walk (fuel : nat) (b : sbuf) (bs d : Z) : M W (option Z) :=
  match fuel with
  | O => fault
  | S f =>
      if d <? bs then
        let* rl := buf_ld 2 b (d + de_rec_len) in
        if (rl <? 8) || truthy (Z.land rl 3) then ret None
        else dirent_walk f b bs (d + rl)
      else ret (Some d)
  end.

Definition e4_dir_block_checksum_set (dir_ino : Z) (b : sbuf) : M W unit :=
  let* e := gets e4 in
  if negb (meta_csum e) then ret tt
  else
    let* host := stack_inode in
    let* (rc, host) := e4_read_inode dir_ino host in
    if truthy rc then ret tt
    else
      let top := block_size e in
      let* d := dirent_walk (S (Z.to_nat top)) b top 0 in
      match d with
      | None => ret tt
      | Some d =>
          if negb (d =? top) then ret tt
          else
            let* ti := buf_ld 4 b (top - 12 + de_inode) in
            let* tn := buf_ld 1 b (top - 12 + de_name_len) in
            let* tr := buf_ld 2 b (top - 12 + de_rec_len) in
            if truthy ti || negb (tn =? DIRENT_TAIL_MARKER) || negb (tr =? 12) then ret tt
            else
              let* l := buf_slice b 0 (u32 (top - 12)) in
              let crc := crc32c (e4_meta_seed e) (le_to 4 dir_ino) in
              let crc := crc32c crc (le_to 4 (fget 4 host in_generation)) in
              let crc := crc32c crc l in
              buf_st 4 b (top - 4) crc
      end.
End core.

(** ** The file system on a disk that works

    The lemmas below are about a mounted file system whose device keeps the
    promises of [SectorDevice]: the disk is an array of blocks. *)
Section disk.
Context {D H : Type} `{Allocator H}.
Context (dv : blk_device D) (ok : D → Prop) (sector : D → Z → list Z)
  `{!SectorDevice dv ok sector}.
#[local] Abbreviation W := (world D H).

(** Contents of block [b] in the hardware state [s]. *)
Definition block_of (spb : Z) (s : D) (b : Z) : list Z :=
  read_range (sector s) (b * spb) (Z.to_nat spb).
Definition disk (w : W) (b : Z) : list Z := block_of (sectors_per_block (e4 w)) (hw w) b.

Definition buf_ok (w : W) (b : sbuf) : Prop :=
  ∃ l, bufget b w = Some l ∧ zlen l = block_size (e4 w) ∧ bytes_ok l.

Record mounted (w : W) : Prop := {
  m_dev : dev_at (reg w) (dev (e4 w)) = Some dv;
  m_hw : ok (hw w);
  m_spb : 0 < sectors_per_block (e4 w) ≤ 16;
  m_bs : block_size (e4 w) = 512 * sectors_per_block (e4 w);
  m_blocks : blocks_count (e4 w) * sectors_per_block (e4 w) ≤ sectors dv;
  m_buf : ∀ b, buf_ok w b;
}.

(** Nothing of the mount state but scratch buffers and hardware differs. *)
Definition same_fs (w w' : W) : Prop :=
  e4 w' = e4 w ∧ reg w' = reg w ∧ hp w' = hp w ∧ clock w' = clock w ∧
  uninit w' = uninit w ∧ jnl w' = jnl w.

Lemma same_fs_refl w : same_fs w w.
Proof. by repeat split. Qed.
Lemma same_fs_trans w1 w2 w3 : same_fs w1 w2 → same_fs w2 w3 → same_fs w1 w3.
Proof. intros (?&?&?&?&?&?) (?&?&?&?&?&?). repeat split; congruence. Qed.

Lemma same_fs_buf w w' b v : same_fs w w' → same_fs w (bufset b v w').
Proof. intros (?&?&?&?&?&?). by destruct b; repeat split. Qed.

Lemma bufget_set b v (w : W) : bufget b (bufset b v w) = v.
Proof. by destruct b. Qed.
Lemma bufget_set_ne b b' v (w : W) : b ≠ b' → bufget b (bufset b' v w) = bufget b w.
Proof. by destruct b, b'. Qed.

Lemma read_range_zlen s lba n :
  ok s → 0 ≤ lba → lba + Z.of_nat n ≤ sectors dv →
  zlen (read_range (sector s) lba n) = Z.of_nat n * 512.
Proof.
  intros Hok. unfold read_range. revert lba. induction n as [|n IH]; intros lba Hl Hle.
  { by rewrite seqZ_nil by lia. }
  rewrite seqZ_cons by lia. rewrite fmap_cons. cbn [concat].
  replace (Z.pred (Z.of_nat (S n))) with (Z.of_nat n) by lia.
  rewrite zlen_app, IH by lia. rewrite (sd_len s lba) by (done || lia). lia.
Qed.

Lemma disk_zlen w b :
  mounted w → 0 ≤ b < blocks_count (e4 w) → zlen (disk w b) = block_size (e4 w).
Proof.
  intros [? Hok Hs Hbs Hbl _] Hb. unfold disk, block_of.
  rewrite read_range_zlen; [lia|done|nia|nia].
Qed.

Lemma disk_bytes w b :
  mounted w → 0 ≤ b < blocks_count (e4 w) → bytes_ok (disk w b).
Proof.
  intros [? Hok Hs Hbs Hbl _] Hb. unfold disk, block_of, read_range. apply bytes_ok_concat.
  intros l Hl. apply list_elem_of_fmap in Hl as (i & -> & Hi).
  apply elem_of_seqZ in Hi. apply sd_bytes; [done|nia].
Qed.

Lemma block_range w b :
  mounted w → 0 ≤ b < blocks_count (e4 w) →
  0 ≤ b * sectors_per_block (e4 w) ∧
  b * sectors_per_block (e4 w) + sectors_per_block (e4 w) ≤ sectors dv ∧
  u64 (b * sectors_per_block (e4 w)) = b * sectors_per_block (e4 w) ∧
  out_of_range dv (b * sectors_per_block (e4 w)) (sectors_per_block (e4 w)) = false.
Proof.
  intros [? Hok Hs Hbs Hbl _] Hb. pose proof sd_sectors as Hsec.
  set (p := b * sectors_per_block (e4 w)).
  assert (0 ≤ p ∧ p + sectors_per_block (e4 w) ≤ sectors dv) as [? ?] by (unfold p; nia).
  split_and!; [lia|lia|rewrite u64_small; lia|].
  unfold out_of_range. rewrite u64_small by lia. apply andb_false_iff. left. lia.
Qed.

(** Reading a block of the disk. *)
Lemma e4_read_block_spec w b buf :
  mounted w → 0 ≤ b < blocks_count (e4 w) → zlen buf = block_size (e4 w) →
  ∃ s', e4_read_block b (Some buf) w = Some ((0, Some (disk w b)), set_hw s' w) ∧ ok s' ∧
    (∀ i, 0 ≤ i → sector s' i = sector (hw w) i).
Proof.
  intros Hm Hb Hlen. pose proof (block_range w b Hm Hb) as (Hr1 & Hr2 & Hu & Ho).
  destruct Hm as [Hdev Hok Hs Hbs Hbl _]. unfold e4_read_block, blk_read.
  destruct (dev (e4 w)) as [i|] eqn:Ei; [|done].
  rewrite (proj2 (Z.eqb_neq (sectors_per_block _) 0)) by lia. rewrite Hdev. simpl.
  rewrite Hu, Ho.
  edestruct (sd_read (hw w) (b * sectors_per_block (e4 w)) (Z.to_nat (sectors_per_block (e4 w))) buf)
    as (f & s' & Hf & Hok' & Hsame & Heq); [done|lia..|].
  rewrite Hf. simpl. rewrite Z2Nat.id in Heq by lia. rewrite Heq. simpl.
  exists s'. split_and!; [|done..]. do 4 f_equal. unfold disk, block_of.
  rewrite drop_ge; [by rewrite app_nil_r|]. unfold zlen in Hlen. lia.
Qed.

(** Writing a block of the disk. *)
Lemma e4_write_block_spec w b buf :
  mounted w → writable (e4 w) = true → 0 ≤ b < blocks_count (e4 w) → zlen buf = block_size (e4 w) →
  bytes_ok buf →
  ∃ s', e4_write_block b (Some buf) w = Some (0, set_hw s' w) ∧ ok s' ∧
    (∀ i, 0 ≤ i → sector s' i = put_range (sector (hw w)) (b * sectors_per_block (e4 w))
                                  (Z.to_nat (sectors_per_block (e4 w))) buf i).
Proof.
  intros Hm Hw Hb Hlen Hby. pose proof (block_range w b Hm Hb) as (Hr1 & Hr2 & Hu & Ho).
  destruct Hm as [Hdev Hok Hs Hbs Hbl _]. unfold e4_write_block, blk_write.
  destruct (dev (e4 w)) as [i|] eqn:Ei; [|done]. rewrite Hw.
  rewrite (proj2 (Z.eqb_neq (sectors_per_block _) 0)) by lia. rewrite Hdev. simpl.
  edestruct (sd_write (hw w) (b * sectors_per_block (e4 w)) (Z.to_nat (sectors_per_block (e4 w))) buf)
    as (f & s' & Hf & Hok' & Hput & Heq); [done|lia..|done|].
  rewrite Hf, sd_writable. simpl. rewrite Hu, Ho. rewrite Z2Nat.id in Heq by lia. rewrite Heq.
  exists s'. done.
Qed.

Lemma read_range_ext f g lba n :
  0 ≤ lba → (∀ i, lba ≤ i < lba + Z.of_nat n → f i = g i) → read_range f lba n = read_range g lba n.
Proof.
  intros Hl Hfg. unfold read_range. f_equal. apply list_fmap_ext.
  intros k i Hi%lookup_seqZ. apply Hfg. lia.
Qed.

Lemma read_put_range f lba n b :
  zlen b = Z.of_nat n * 512 → read_range (put_range f lba n b) lba n = b.
Proof.
  intros Hb. assert (Hgen : ∀ k, (k ≤ n)%nat →
    read_range (put_range f lba n b) (lba + Z.of_nat (n - k)) k = drop ((n - k) * 512) b).
  { unfold read_range. induction k as [|k IH]; intros Hk.
    { rewrite seqZ_nil by lia. simpl. rewrite drop_ge; [done|]. unfold zlen in Hb. lia. }
    rewrite seqZ_cons by lia. rewrite fmap_cons. cbn [concat].
    replace (Z.pred (Z.of_nat (S k))) with (Z.of_nat k) by lia.
    replace (Z.succ (lba + Z.of_nat (n - S k))) with (lba + Z.of_nat (n - k)) by lia.
    rewrite IH by lia. unfold put_range. rewrite decide_True by lia.
    replace (Z.to_nat _) with ((n - S k) * 512)%nat by lia.
    replace ((n - k) * 512)%nat with ((n - S k) * 512 + 512)%nat by lia.
    rewrite <- drop_drop. apply take_drop. }
  specialize (Hgen n (le_n n)). rewrite Nat.sub_diag in Hgen. simpl in Hgen.
  by rewrite drop_0, Z.add_0_r in Hgen.
Qed.

(** ** Scratch buffers over the disk *)

Lemma mounted_frame w w' :
  mounted w → same_fs w w' → ok (hw w') → (∀ b, buf_ok w' b) → mounted w'.
Proof. intros [] (He & Hr & _) Hok Hb. split; rewrite ?He, ?Hr; done. Qed.

Lemma disk_same w s' b :
  mounted w → (∀ i, 0 ≤ i → sector s' i = sector (hw w) i) → 0 ≤ b →
  disk (set_hw s' w) b = disk w b.
Proof.
  intros [_ _ Hs _ _ _] Hsame Hb. unfold disk, block_of. simpl.
  apply read_range_ext; [nia|]. intros i Hi. apply Hsame. nia.
Qed.

Lemma disk_put w s' blk l b :
  mounted w → zlen l = block_size (e4 w) → 0 ≤ blk → 0 ≤ b →
  (∀ i, 0 ≤ i → sector s' i = put_range (sector (hw w)) (blk * sectors_per_block (e4 w))
                                (Z.to_nat (sectors_per_block (e4 w))) l i) →
  disk (set_hw s' w) b = if decide (b = blk) then l else disk w b.
Proof.
  intros [_ _ Hs Hbs _ _] Hl Hblk Hb Hput. unfold disk, block_of. cbn [e4 hw set_hw].
  case_decide as Heq.
  - subst b. rewrite <- (read_put_range (sector (hw w)) (blk * sectors_per_block (e4 w))
      (Z.to_nat (sectors_per_block (e4 w))) l) by (rewrite Z2Nat.id; lia).
    apply read_range_ext; [nia|]. intros i Hi. apply Hput. nia.
  - apply read_range_ext; [nia|]. intros i Hi. rewrite Hput by nia.
    unfold put_range. rewrite decide_False; [done|]. rewrite !Z2Nat.id in * by lia. nia.
Qed.

Lemma bufset_disk b v (w : W) k : disk (bufset b v w) k = disk w k.
Proof. by destruct b. Qed.

Lemma read_into_spec b blk w :
  mounted w → 0 ≤ blk < blocks_count (e4 w) →
  ∃ w', read_into b blk w = Some (0, w') ∧ same_fs w w' ∧ mounted w' ∧
    bufget b w' = Some (disk w blk) ∧ (∀ b', b' ≠ b → bufget b' w' = bufget b' w) ∧
    (∀ k, 0 ≤ k → disk w' k = disk w k).
Proof.
  intros Hm Hblk. destruct (m_buf _ Hm b) as (l & Hl & Hlen & _).
  destruct (e4_read_block_spec w blk l Hm Hblk Hlen) as (s' & Hrd & Hok & Hsame).
  unfold read_into. mred. rewrite Hl. mstep Hrd.
  set (w' := bufset b (Some (disk w blk)) (set_hw s' w)).
  assert (Hfs : same_fs w w') by (apply same_fs_buf; by repeat split).
  exists w'. split_and!; [done|done| |apply bufget_set| |].
  - apply (mounted_frame w); [done|done|by destruct b|].
    intros b'. unfold buf_ok. destruct Hfs as [-> _]. destruct (decide (b' = b)) as [->|Hne].
    + exists (disk w blk). split; [apply bufget_set|]. split; [by apply disk_zlen|by apply disk_bytes].
    + destruct (m_buf _ Hm b') as (l' & Hl' & ?). exists l'. split; [|done].
      unfold w'. by rewrite bufget_set_ne.
  - intros b' Hne. unfold w'. by rewrite bufget_set_ne.
  - intros k Hk. unfold w'. rewrite bufset_disk. by apply disk_same.
Qed.

Lemma write_from_spec b blk w l :
  mounted w → writable (e4 w) = true → 0 ≤ blk < blocks_count (e4 w) → bufget b w = Some l →
  ∃ w', write_from b blk w = Some (0, w') ∧ same_fs w w' ∧ mounted w' ∧
    (∀ b', bufget b' w' = bufget b' w) ∧
    (∀ k, 0 ≤ k → disk w' k = if decide (k = blk) then l else disk w k).
Proof.
  intros Hm Hw Hblk Hl. assert (Hlen : zlen l = block_size (e4 w) ∧ bytes_ok l).
  { destruct (m_buf _ Hm b) as (l' & Hl' & ?). assert (l = l') as -> by congruence. done. }
  destruct Hlen as [Hlen Hby].
  destruct (e4_write_block_spec w blk l Hm Hw Hblk Hlen Hby) as (s' & Hwr & Hok & Hput).
  unfold write_from. mred. rewrite Hl, Hwr. exists (set_hw s' w).
  split_and!; [done|by repeat split| |done|].
  - apply (mounted_frame w); [done|by repeat split|done|]. apply (m_buf _ Hm).
  - intros k Hk. apply disk_put; [done..|lia|done|done].
Qed.

(** Changing the contents of a scratch buffer keeps the system mounted. *)
Lemma mounted_bufset b l w :
  mounted w → zlen l = block_size (e4 w) → bytes_ok l → mounted (bufset b (Some l) w).
Proof.
  intros Hm Hl Hby. apply (mounted_frame w); [done|apply same_fs_buf, same_fs_refl| |].
  { destruct Hm, b; done. }
  intros b'. unfold buf_ok. replace (e4 (bufset b (Some l) w)) with (e4 w) by by destruct b.
  destruct (decide (b' = b)) as [->|Hne].
  - exists l. split; [apply bufget_set|done].
  - destruct (m_buf _ Hm b') as (l' & Hl' & ?). exists l'. by rewrite bufget_set_ne.
Qed.

Lemma buf_slice_eq b off n (w : W) x l :
  bufget b w = Some x → slice x off n = Some l → buf_slice b off n w = Some (l, w).
Proof. intros Hx Hl. unfold buf_slice. mred. rewrite Hx. simpl. by rewrite Hl. Qed.

Lemma buf_splice_eq b off l (w : W) x x' :
  bufget b w = Some x → splice x off l = Some x' →
  buf_splice b off l w = Some (tt, bufset b (Some x') w).
Proof. intros Hx Hl. unfold buf_splice. mred. rewrite Hx. simpl. by rewrite Hl. Qed.

(** ** Inodes as bytes of the flat disk *)

(** Byte [a] of the disk. *)
Definition dbyte (w : W) (a : Z) : option Z :=
  disk w (a / block_size (e4 w)) !! Z.to_nat (a mod block_size (e4 w)).

(** Inode [ino] occupies the bytes from [A] on, all of them on the disk. *)
Definition inode_placed (e : ext4_fs) (ino A : Z) : Prop :=
  1 ≤ ino ≤ inodes_count e ∧ 0 < inode_size e ≤ 256 ∧ inode_size e ≤ block_size e ∧
  ∃ blk off, inode_pos e ino = Some (blk, off) ∧ 0 ≤ blk ∧ 0 ≤ off < block_size e ∧
    A = blk * block_size e + off ∧ A + inode_size e ≤ blocks_count e * block_size e.

Lemma dbyte_block w blk j :
  0 ≤ j < block_size (e4 w) →
  dbyte w (blk * block_size (e4 w) + j) = disk w blk !! Z.to_nat j.
Proof.
  intros Hj. unfold dbyte.
  rewrite Z.div_add_l, Z.div_small, Z.add_0_r by lia.
  by rewrite (Z.add_comm (blk * _)), Z_mod_plus_full, Z.mod_small by lia.
Qed.

Lemma lookup_slice b off n l i :
  slice b off n = Some l → 0 ≤ i < n → l !! Z.to_nat i = b !! Z.to_nat (off + i).
Proof.
  intros (? & ? & ? & ->)%slice_Some Hi. rewrite lookup_take_lt, lookup_drop by lia. f_equal. lia.
Qed.

Lemma lookup_splice_Z b off l b' i :
  splice b off l = Some b' → 0 ≤ i →
  b' !! Z.to_nat i = if decide (off ≤ i < off + zlen l) then l !! Z.to_nat (i - off) else b !! Z.to_nat i.
Proof.
  intros E Hi. rewrite (lookup_splice _ _ _ _ _ E). apply splice_Some in E as (? & ? & _).
  unfold zlen in *. repeat case_decide; try lia; [f_equal; lia|done].
Qed.

Lemma placed_bounds w ino A :
  mounted w → inode_placed (e4 w) ino A →
  0 < block_size (e4 w) ≤ 8192 ∧ 0 ≤ A ∧ blocks_count (e4 w) < 2 ^ 63.
Proof.
  intros [_ _ Hs Hbs Hbl _] (_ & _ & _ & blk & off & _ & Hb & Ho & -> & _).
  pose proof sd_sectors. split_and!; nia.
Qed.

Lemma e4_read_inode_flat w ino A out :
  mounted w → inode_placed (e4 w) ino A → zlen out = 256 →
  ∃ w' out', e4_read_inode ino out w = Some ((0, out'), w') ∧ same_fs w w' ∧ mounted w' ∧
    (∀ k, 0 ≤ k → disk w' k = disk w k) ∧ zlen out' = 256 ∧
    ∀ i, 0 ≤ i < 256 → out' !! Z.to_nat i =
      if decide (i < inode_size (e4 w)) then dbyte w (A + i) else out !! Z.to_nat i.
Proof.
  intros Hm Hp Hout. pose proof (placed_bounds _ _ _ Hm Hp) as (Hbs & _ & Hbc).
  destruct Hp as (Hino & Hisz & Hib & blk & off & Hpos & Hblk & Hoff & -> & Hend).
  unfold e4_read_inode. mred.
  rewrite (proj2 (Z.ltb_ge ino 1)), (proj2 (Z.ltb_ge (inodes_count _) ino)) by lia.
  cbn [orb]. rewrite Hpos. mred. rewrite u32_small by lia.
  assert (blk < blocks_count (e4 w)) by nia.
  destruct (read_into_spec S1 blk w Hm) as (w1 & Hr1 & Hs1 & Hm1 & Hb1 & Ho1 & Hd1); [lia|].
  destruct (Z.leb_spec (off + inode_size (e4 w)) (block_size (e4 w))) as [Hle|Hgt].
  - mstep Hr1. change (truthy 0) with false. cbv iota. mred.
    destruct (slice_is_Some (disk w blk) off (inode_size (e4 w))) as [l Hl]; [lia|lia| |].
    { rewrite disk_zlen by (done || lia). lia. }
    mstep (buf_slice_eq _ _ _ _ _ _ Hb1 Hl). pose proof (slice_zlen _ _ _ _ Hl) as Hll.
    destruct (splice_is_Some out 0 l) as [out' Hout']; [lia|lia|]. rewrite Hout'. mred.
    exists w1, out'. split_and!; [done..|by rewrite (splice_zlen _ _ _ _ Hout')|].
    intros i Hi. rewrite (lookup_splice_Z _ _ _ _ _ Hout') by lia.
    repeat case_decide; try lia; [|done].
    rewrite (lookup_slice _ _ _ _ _ Hl) by lia. rewrite <- Z.add_assoc, dbyte_block by lia.
    f_equal. lia.
  - mstep Hr1. change (truthy 0) with false. cbv iota. mred.
    rewrite u64_small by lia. pose proof Hs1 as [He1 _].
    destruct (read_into_spec S2 (blk + 1) w1 Hm1) as (w2 & Hr2 & Hs2 & Hm2 & Hb2 & Ho2 & Hd2);
      [rewrite He1; nia|]. mstep Hr2. change (truthy 0) with false. cbv iota. mred.
    rewrite !u32_small by (rewrite ?u32_small; lia). set (part := block_size (e4 w) - off) in *.
    destruct (slice_is_Some (disk w blk) off part) as [l1 Hl1]; [lia|lia| |].
    { rewrite disk_zlen by (done || lia). lia. }
    rewrite Hd1 in Hb2 by lia.
    destruct (slice_is_Some (disk w (blk + 1)) 0 (inode_size (e4 w) - part)) as [l2 Hl2]; [lia|lia| |].
    { rewrite disk_zlen by (done || nia). lia. }
    rewrite <- (Ho2 S1) in Hb1 by done. mstep (buf_slice_eq _ _ _ _ _ _ Hb1 Hl1).
    pose proof (slice_zlen _ _ _ _ Hl1). pose proof (slice_zlen _ _ _ _ Hl2).
    destruct (splice_is_Some out 0 l1) as [o1 Ho1']; [lia|lia|]. rewrite Ho1'. mred.
    mstep (buf_slice_eq _ _ _ _ _ _ Hb2 Hl2). pose proof (splice_zlen _ _ _ _ Ho1').
    destruct (splice_is_Some o1 part l2) as [o2 Ho2']; [lia|lia|]. rewrite Ho2'. mred.
    exists w2, o2. split_and!; [done|by eapply same_fs_trans|done| | |].
    { intros. by rewrite Hd2, Hd1. }
    { by rewrite (splice_zlen _ _ _ _ Ho2'), (splice_zlen _ _ _ _ Ho1'). }
    intros i Hi. rewrite (lookup_splice_Z _ _ _ _ _ Ho2'), (lookup_splice_Z _ _ _ _ _ Ho1') by lia.
    repeat case_decide; try lia; [| |done].
    + rewrite (lookup_slice _ _ _ _ _ Hl2) by lia.
      replace (blk * block_size (e4 w) + off + i) with ((blk + 1) * block_size (e4 w) + (i - part)) by lia.
      rewrite dbyte_block by lia. f_equal.
    + rewrite (lookup_slice _ _ _ _ _ Hl1) by lia. rewrite <- Z.add_assoc, dbyte_block by lia.
      f_equal. lia.
Qed.

(** One read-modify-write of a block: the bytes [l] at offset [off] of block
    [blk], and nothing else, change on the disk. *)
Lemma patch_block w blk off l :
  mounted w → writable (e4 w) = true → 0 ≤ blk < blocks_count (e4 w) →
  0 ≤ off → off + zlen l ≤ block_size (e4 w) → bytes_ok l →
  ∃ w1 w2 w', read_into S1 blk w = Some (0, w1) ∧ buf_splice S1 off l w1 = Some (tt, w2) ∧
    write_from S1 blk w2 = Some (0, w') ∧ same_fs w w' ∧ mounted w' ∧
    ∀ a, 0 ≤ a → dbyte w' a =
      let A := blk * block_size (e4 w) + off in
      if decide (A ≤ a < A + zlen l) then l !! Z.to_nat (a - A) else dbyte w a.
Proof.
  intros Hm Hw Hblk Hoff Hl Hby.
  destruct (read_into_spec S1 blk w Hm Hblk) as (w1 & Hr1 & Hs1 & Hm1 & Hb1 & _ & Hd1).
  pose proof (disk_zlen w blk Hm Hblk) as Hlen.
  destruct (splice_is_Some (disk w blk) off l) as [x Hx]; [lia|lia|].
  pose proof (splice_zlen _ _ _ _ Hx) as Hxl. pose proof Hs1 as [He1 _].
  set (w2 := bufset S1 (Some x) w1).
  assert (Hm2 : mounted w2) 
    by (apply mounted_bufset; [done|rewrite He1; lia|]; eapply splice_bytes_ok; [by apply (disk_bytes w)|exact Hby|exact Hx]).
  assert (He2 : e4 w2 = e4 w) by exact He1.
  destruct (write_from_spec S1 blk w2 x) as (w3 & Hw3 & Hs3 & Hm3 & _ & Hd3);
    [done|by rewrite He2|by rewrite He2|done|].
  exists w1, w2, w3. split_and!; [done|by eapply buf_splice_eq|done| |done|].
  { eapply same_fs_trans; [exact Hs1|]. eapply same_fs_trans; [|exact Hs3].
    apply same_fs_buf, same_fs_refl. }
  intros a Ha. cbv zeta. destruct Hs3 as [He3 _]. unfold dbyte.
  assert (Hpos : 0 < block_size (e4 w)) by (destruct Hm; lia).
  replace (e4 w3) with (e4 w) by congruence.
  rewrite Hd3 by (apply Z.div_pos; lia).
  replace (disk w2 (a / block_size (e4 w))) with (disk w (a / block_size (e4 w)))
    by (symmetry; apply Hd1, Z.div_pos; lia).
  pose proof (Z.div_mod a (block_size (e4 w)) ltac:(lia)) as Hdm.
  pose proof (Z.mod_pos_bound a (block_size (e4 w)) Hpos) as Hmb.
  destruct (decide (a / block_size (e4 w) = blk)) as [Heq|Hne].
  - rewrite (lookup_splice_Z _ _ _ _ _ Hx) by lia. rewrite Heq in *.
    repeat case_decide; try lia; [f_equal; lia|done].
  - rewrite decide_False; [done|]. nia.
Qed.

Lemma e4_write_inode_flat w ino A inode :
  mounted w → writable (e4 w) = true → inode_placed (e4 w) ino A → zlen inode = 256 → bytes_ok inode →
  ∃ w', e4_write_inode ino inode w = Some (0, w') ∧ same_fs w w' ∧ mounted w' ∧
    ∀ a, 0 ≤ a → dbyte w' a =
      if decide (A ≤ a < A + inode_size (e4 w)) then inode !! Z.to_nat (a - A) else dbyte w a.
Proof.
  intros Hm Hw Hp Hi Hby. pose proof (placed_bounds _ _ _ Hm Hp) as (Hbs & _ & Hbc).
  destruct Hp as (Hino & Hisz & Hib & blk & off & Hpos & Hblk & Hoff & -> & Hend).
  unfold e4_write_inode. mred.
  rewrite (proj2 (Z.ltb_ge ino 1)), (proj2 (Z.ltb_ge (inodes_count _) ino)) by lia.
  rewrite Hw. cbn [orb negb]. rewrite Hpos. mred. rewrite u32_small by lia.
  assert (blk < blocks_count (e4 w)) by nia.
  destruct (Z.leb_spec (off + inode_size (e4 w)) (block_size (e4 w))) as [Hle|Hgt].
  - destruct (slice_is_Some inode 0 (inode_size (e4 w))) as [l Hl]; [lia..|].
    pose proof (slice_zlen _ _ _ _ Hl) as Hll.
    destruct (patch_block w blk off l) as (w1 & w2 & w3 & Hp1 & Hp2 & Hp3 & Hs & Hm3 & Hd);
      [done|done|lia..|eauto with kdb|].
    mstep Hp1. change (truthy 0) with false. cbv iota. rewrite Hl. mred. mstep Hp2. rewrite Hp3.
    exists w3. split_and!; [done..|]. intros a Ha. rewrite Hd by done. cbv zeta. rewrite Hll.
    case_decide; [|done]. rewrite (lookup_slice _ _ _ _ _ Hl) by lia. done.
  - rewrite u64_small by lia. rewrite !u32_small by (rewrite ?u32_small; lia).
    set (part := block_size (e4 w) - off) in *.
    destruct (slice_is_Some inode 0 part) as [l1 Hl1]; [lia..|].
    destruct (slice_is_Some inode part (inode_size (e4 w) - part)) as [l2 Hl2]; [lia..|].
    pose proof (slice_zlen _ _ _ _ Hl1) as Hll1. pose proof (slice_zlen _ _ _ _ Hl2) as Hll2.
    destruct (patch_block w blk off l1) as (w1 & w2 & w3 & Hp1 & Hp2 & Hp3 & Hs & Hm3 & Hd);
      [done|done|lia..|eauto with kdb|].
    pose proof Hs as [He3 _].
    destruct (patch_block w3 (blk + 1) 0 l2) as (w4 & w5 & w6 & Hp4 & Hp5 & Hp6 & Hs' & Hm6 & Hd');
      [done|by rewrite He3|rewrite He3; nia|lia|rewrite He3; lia|eauto with kdb|].
    mstep Hp1. change (truthy 0) with false. cbv iota. rewrite Hl1. mred. mstep Hp2. mstep Hp3.
    change (truthy 0) with false. cbv iota. mstep Hp4. change (truthy 0) with false. cbv iota.
    rewrite Hl2. mred. mstep Hp5. rewrite Hp6. exists w6.
    split_and!; [done|by eapply same_fs_trans|done|].
    intros a Ha. rewrite Hd', Hd by done. cbv zeta. rewrite He3, Hll1, Hll2.
    repeat case_decide; try lia; try done.
    + rewrite (lookup_slice _ _ _ _ _ Hl2) by lia. f_equal. lia.
    + rewrite (lookup_slice _ _ _ _ _ Hl1) by lia. f_equal.
Qed.

Lemma inode_placed_same w w' ino A :
  same_fs w w' → inode_placed (e4 w) ino A → inode_placed (e4 w') ino A.
Proof. by intros [-> _]. Qed.

(** C6: on a working disk, [e4_write_inode] followed by [e4_read_inode] of
    the same inode returns the inode written, whether or not it straddles two
    blocks; every inode that lies elsewhere on the disk reads as before. *)
Theorem e4_inode_roundtrip w ino A inode out :
  mounted w → writable (e4 w) = true → inode_placed (e4 w) ino A →
  zlen inode = 256 → bytes_ok inode → zlen out = 256 →
  ∃ w1, e4_write_inode ino inode w = Some (0, w1) ∧ mounted w1 ∧
    (∃ w2 res, e4_read_inode ino out w1 = Some ((0, res), w2) ∧
      ∀ i, 0 ≤ i < inode_size (e4 w) → res !! Z.to_nat i = inode !! Z.to_nat i) ∧
    (∀ ino' A', inode_placed (e4 w) ino' A' →
      A' + inode_size (e4 w) ≤ A ∨ A + inode_size (e4 w) ≤ A' →
      ∃ w2 w2' res, e4_read_inode ino' out w1 = Some ((0, res), w2) ∧
        e4_read_inode ino' out w = Some ((0, res), w2')).
Proof.
  intros Hm Hw Hp Hi Hby Ho. pose proof (placed_bounds _ _ _ Hm Hp) as (_ & HA & _).
  destruct (e4_write_inode_flat w ino A inode) as (w1 & Hw1 & Hs1 & Hm1 & Hd1); [done..|].
  exists w1. split; [done|]. split; [done|]. pose proof Hs1 as [He1 _]. split.
  - destruct (e4_read_inode_flat w1 ino A out) as (w2 & res & Hr & _ & _ & _ & _ & Hres);
      [done|by eapply inode_placed_same|done|].
    exists w2, res. split; [done|]. intros i Hin. destruct Hp as (_ & ? & _).
    rewrite Hres by lia. rewrite He1, decide_True by lia. rewrite Hd1, decide_True by lia.
    f_equal. lia.
  - intros ino' A' Hp' Hdis. pose proof (placed_bounds _ _ _ Hm Hp') as (_ & HA' & _).
    destruct (e4_read_inode_flat w1 ino' A' out) as (w2 & res & Hr & _ & _ & _ & Hlen & Hres);
      [done|by eapply inode_placed_same|done|].
    destruct (e4_read_inode_flat w ino' A' out) as (w2' & res' & Hr' & _ & _ & _ & Hlen' & Hres');
      [done|done|done|].
    exists w2, w2', res. split; [done|]. rewrite Hr'. do 3 f_equal.
    apply list_eq. intros i. unfold zlen in *. destruct (decide (i < 256)%nat) as [Hlt|].
    + specialize (Hres (Z.of_nat i) ltac:(lia)). specialize (Hres' (Z.of_nat i) ltac:(lia)).
      rewrite Nat2Z.id in *. rewrite Hres, Hres', He1. case_decide; [|done].
      rewrite Hd1, decide_False by lia. done.
    + rewrite !lookup_ge_None_2 by lia. done.
Qed.
End disk.

(** ** A small file system, for concrete runs

    Sixteen blocks of 1024 bytes on a RAM disk, one group, 32 inodes of 192
    bytes (so that inode 6 straddles two blocks). *)
Definition demo_gdt : list Z :=
  le_to 4 3 ++ le_to 4 4 ++ le_to 4 5 ++ le_to 2 8 ++ le_to 2 20 ++ zeros 16.
Definition demo_e4 : ext4_fs :=
  E4 (Some 0) 1024 2 16 32 16 32 1 1 192 32 11 0 0 0 true false false false false true 0
    (zeros 16) (zeros 1024) (Some demo_gdt).
Definition demo_world (img : list Z) : world (list Z) bump :=
  World _ _ demo_e4 (Some (zeros 1024)) (Some (zeros 1024))
    (Registry (ram_disk 32 :: replicate 3 blk_zero) 1) img (Bump 4096 []) 5000
    (λ n, replicate (Z.to_nat n) 0xA5) (Journal (zeros 256) [] 0 None).

Definition ram_ok (n : Z) (img : list Z) : Prop := zlen img = n * 512 ∧ bytes_ok img.
#[export] Instance demo_disk : SectorDevice (ram_disk 32) (ram_ok 32) ram_sector.
Proof. apply ram_disk_device. lia. Defined.

Lemma zeros_zlen n : 0 ≤ n → zlen (zeros n) = n.
Proof. intros. unfold zeros. rewrite zlen_replicate. lia. Qed.

Lemma demo_mounted img : zlen img = 16384 → bytes_ok img → mounted (ram_disk 32) (ram_ok 32) (demo_world img).
Proof.
  intros Hi Hby. split; simpl; [done|by split|lia|lia|lia|].
  intros b. exists (zeros 1024). split; [by destruct b|]. split; [done|apply zeros_bytes].
Qed.

Lemma e4_inode_roundtrip_witness :
  inode_placed demo_e4 6 (5 * 1024 + 960) ∧
  ∃ w1, e4_write_inode 6 (replicate 256 7) (demo_world (zeros 16384)) = Some (0, w1) ∧
    mounted (ram_disk 32) (ram_ok 32) w1 ∧
    (∃ w2 res, e4_read_inode 6 (zeros 256) w1 = Some ((0, res), w2) ∧
      ∀ i, 0 ≤ i < 192 → res !! Z.to_nat i = (replicate 256 7 : list Z) !! Z.to_nat i) ∧
    (∀ ino' A', inode_placed demo_e4 ino' A' →
      A' + 192 ≤ 5 * 1024 + 960 ∨ 5 * 1024 + 960 + 192 ≤ A' →
      ∃ w2 w2' res, e4_read_inode ino' (zeros 256) w1 = Some ((0, res), w2) ∧
        e4_read_inode ino' (zeros 256) (demo_world (zeros 16384)) = Some ((0, res), w2')).
Proof.
  assert (Hp : inode_placed demo_e4 6 (5 * 1024 + 960)).
  { split; [simpl; lia|]. split; [simpl; lia|]. split; [simpl; lia|].
    exists 5, 960. split; [vm_compute; reflexivity|]. simpl. lia. }
  split; [exact Hp|].
  apply (e4_inode_roundtrip (ram_disk 32) (ram_ok 32) ram_sector (demo_world (zeros 16384)) 6
    (5 * 1024 + 960) (replicate 256 7) (zeros 256)).
  - apply demo_mounted; [by apply zeros_zlen|apply zeros_bytes].
  - reflexivity.
  - exact Hp.
  - reflexivity.
  - by apply bytes_dec.
  - reflexivity.
Defined.
