(* ===== verification/Ext4Map.v ===== *)
(** * fs/ext4_core.c: mapping file blocks to disk blocks

    Extent trees and legacy indirect maps. A result [None] is the return code
    -1; [Some b] is 0 with [*phys_out = b] (0 for a hole). *)
From S2P Require Import Prelude KString Csum Blkdev Alloc Ext4Disk Ext4Core.

Section map.
Context {D H : Type} `{Allocator H}.
#[local] Abbreviation W := (world D H).

(** Entry [i] of a leaf node that starts at offset [base] of [node]. *)
Definition ex_at (node : list Z) (base i : Z) : option (Z * Z * Z) :=
  let o := base + 12 + 12 * i in
  fb ← ld32 node (o + ex_first_block);
  cnt ← ld16 node (o + ex_count);
  hi ← ld16 node (o + ex_start_hi);
  lo ← ld32 node (o + ex_start_lo);
  Some (fb, cnt, Z.lor lo (Z.shiftl hi 32)).

(** [for (u16 i = 0; i < h->entries; i++)] of the leaf level. *)
Fixpoint leaf_scan (n : nat) (node : list Z) (base logical i : Z) : option Z :=
  match n with
  | O => Some 0
  | S n' =>
      '(fb, count, start) ← ex_at node base i;
      let unwritten := 32768 <=? count in
      let cnt := if unwritten then count - 32768 else count in
      if (fb <=? logical) && (logical <? u32 (fb + cnt))
      then Some (if unwritten then 0 else u64 (start + logical - fb))
      else leaf_scan n' node base logical (i + 1)
  end.

(** The index level: the last entry that starts at or below [logical]. *)
Fixpoint idx_scan (n : nat) (node : list Z) (base logical i : Z) (chosen : option Z)
    : option (option Z) :=
  match n with
  | O => Some chosen
  | S n' =>
      fb ← ld32 node (base + 12 + 12 * i + ix_first_block);
      idx_scan n' node base logical (i + 1) (if fb <=? logical then Some i else chosen)
  end.

(** The [for (;;)] over the levels of the tree; [depth] goes down by one in
    each round, so [S depth] rounds are enough. *)
Fixpoint extent_walk (fuel : nat) (inode : list Z) (logical depth node_block : Z)
    : M W (option Z) :=
  match fuel with
  | O => fault
  | S f =>
      if depth =? 0 then
        let* n := lift (ld16 inode (in_u + eh_entries)) in
        let* p := lift (leaf_scan (Z.to_nat n) inode in_u logical 0) in
        ret (Some p)
      else
        try read_into S1 node_block else None in
        let* node := gets scratch1 in
        let* node := lift node in
        let* n := lift (ld16 node eh_entries) in
        let* c := lift (idx_scan (Z.to_nat n) node 0 logical 0 None) in
        match c with
        | None => ret None
        | Some i =>
            let o := 12 + 12 * i in
            let* lo := lift (ld32 node (o + ix_leaf_lo)) in
            let* hi := lift (ld16 node (o + ix_leaf_hi)) in
            extent_walk f inode logical (depth - 1) (Z.lor lo (Z.shiftl hi 32))
        end
  end.

Definition extent_lookup (inode : list Z) (logical : Z) : M W (option Z) :=
  let* magic := lift (ld16 inode (in_u + eh_magic)) in
  if negb (magic =? 0xF30A) then ret None
  else
    let* depth := lift (ld16 inode (in_u + eh_depth)) in
    extent_walk (S (Z.to_nat depth)) inode logical depth 0.

(** [stride = 1; for (k = 0; k < level; k++) stride *= bpp] in [u32]. *)
Definition stride_of (bpp : Z) (level : nat) : Z := Nat.iter level (λ s, u32 (s * bpp)) 1.

(** [for (level = which - 11; level >= 0; level--)]. *)
Fixpoint indirect_walk (level : nat) (bpp remaining ind : Z) : M W (option Z) :=
  if ind =? 0 then ret (Some 0)
  else
    try read_into S1 ind else None in
    let* q := udiv remaining (stride_of bpp level) in
    let* slot := umod q bpp in
    let* nxt := buf_ld 4 S1 (slot * 4) in
    match level with
    | O => ret (Some nxt)
    | S l => indirect_walk l bpp remaining nxt
    end.

Definition u_block (inode : list Z) (i : Z) : Z := fget 4 inode (in_u + 4 * i).

Definition indirect_lookup (inode : list Z) (logical : Z) : M W (option Z) :=
  let* e := gets e4 in
  let bpp := block_size e / 4 in
  let direct_max := 12 in
  let single_max := u32 (direct_max + bpp) in
  let double_max := u32 (single_max + u32 (bpp * bpp)) in
  if logical <? direct_max then ret (Some (u_block inode logical))
  else
    let '(which, remaining) :=
      if logical <? single_max then (12, logical - direct_max)
      else if logical <? double_max then (13, logical - single_max)
      else (14, logical - double_max) in
    indirect_walk (Z.to_nat (which - 11)) bpp remaining (u_block inode which).

Definition e4_bmap (inode : list Z) (file_block : Z) : M W (option Z) :=
  if has (fget 4 inode in_flags) INO_FLAG_EXTENTS
  then extent_lookup inode file_block
  else indirect_lookup inode file_block.
End map.

(** ** Trees of depth one and more *)

Section map_proofs.
Context {D H : Type} `{Allocator H}.
#[local] Abbreviation W := (world D H).

Lemma extent_walk_root inode logical n fuel : ∀ depth nb (w : W),
  ld16 inode (in_u + eh_entries) = Some n →
  wlp (extent_walk fuel inode logical depth nb)
    (λ r _, match r with
            | Some p => leaf_scan (Z.to_nat n) inode in_u logical 0 = Some p
            | None => True end) w.
Proof.
  induction fuel as [|f IH]; intros depth nb w Hn; cbn [extent_walk]; [by intros ? ?|].
  destruct (depth =? 0).
  - rewrite Hn. wlp_pure. by apply wlp_ret; simplify_eq.
  - apply wlp_bind. intros rc w1 _. destruct (truthy rc); [by apply wlp_ret|]. wlp_pure.
    match goal with |- wlp (match ?c with _ => _ end) _ _ => destruct c end; [|by apply wlp_ret].
    wlp_pure. by apply IH.
Qed.

(** whatever the depth of the tree, the block [extent_lookup] returns is
    the one the entries of the inode's root give when they are read as leaf
    entries: the leaf blocks are never consulted. (At depth one and more the
    root holds index entries, so the answer is wrong.) *)
Theorem extent_lookup_reads_root_only (w w' : W) inode logical n p :
  ld16 inode (in_u + eh_entries) = Some n →
  extent_lookup inode logical w = Some (Some p, w') →
  leaf_scan (Z.to_nat n) inode in_u logical 0 = Some p.
Proof.
  intros Hn. change (Some p) with (Some p). intros E.
  assert (Hw : wlp (extent_lookup inode logical) (λ r _, match r with
            | Some p => leaf_scan (Z.to_nat n) inode in_u logical 0 = Some p
            | None => True end) w).
  { unfold extent_lookup. wlp_pure. destruct (negb _); [by apply wlp_ret|]. wlp_pure.
    by apply extent_walk_root. }
  exact (Hw _ _ E).
Qed.
End map_proofs.

(** The root of a depth-one tree whose only leaf is block 11. *)
Definition demo_deep_inode : list Z :=
  zeros 40 ++ le_to 2 0xF30A ++ le_to 2 1 ++ le_to 2 4 ++ le_to 2 1 ++ le_to 4 0 ++
  le_to 4 0 ++ le_to 4 11 ++ le_to 4 0 ++ zeros 192.
Definition demo_deep_img : list Z := take 64 (drop 40 demo_deep_inode) ++ zeros 16320.

Lemma extent_lookup_reads_root_only_witness :
  ∃ w', extent_lookup demo_deep_inode 3 (demo_world demo_deep_img) = Some (Some 3, w') ∧
    leaf_scan (Z.to_nat 1) demo_deep_inode in_u 3 0 = Some 3.
Proof.
  destruct (extent_lookup demo_deep_inode 3 (demo_world demo_deep_img)) as [[r w']|] eqn:E;
    [|by vm_compute in E].
  assert (r = Some 3) as ->.
  { assert (fst <$> extent_lookup demo_deep_inode 3 (demo_world demo_deep_img) = Some (Some 3)) as Hf
      by (vm_compute; reflexivity).
    rewrite E in Hf. simpl in Hf. congruence. }
  exists w'. split; [reflexivity|].
  exact (extent_lookup_reads_root_only (demo_world demo_deep_img) w' demo_deep_inode 3 1 3 eq_refl E).
Defined.
