(* ===== verification/Ext4Alloc.v ===== *)
(** * fs/ext4_core.c: allocation of blocks and inodes

    [None] is the return code -1, [Some x] is 0 with [*out = x]. *)
From S2P Require Import Prelude KString Csum Blkdev Alloc Ext4Disk Ext4Core.

Section alloc.
Context {D H : Type} `{Allocator H}.
#[local] Abbreviation W := (world D H).

Definition blk_of (e : ext4_fs) (group index : Z) : Z :=
  u64 (first_data_block e + group * blocks_per_group e + index).

(** The bitmap goes to [scratch1]; descriptor and block of the bitmap. *)
Definition load_bitmap (inode_map : bool) (group : Z) : M W (option (Z * Z)) :=
  let* e := gets e4 in
  match e4_gd e group with
  | None => ret None
  | Some gd =>
      let* lo := gd_ld 4 (gd + if inode_map then gd_inode_bitmap_lo else gd_block_bitmap_lo) in
      let* blk :=
        if has_64bit e then
          let* hi := gd_ld 4 (gd + if inode_map then gd_inode_bitmap_hi else gd_block_bitmap_hi) in
          ret (Z.lor lo (Z.shiftl hi 32))
        else ret lo in
      try read_into S1 blk else None in
      ret (Some (gd, blk))
  end.

Definition adjust_free_blocks (gd delta : Z) : M W unit :=
  let* e := gets e4 in
  let* c := gd_ld 2 (gd + gd_free_blocks_count_lo) in
  let v := Z.max 0 (c + delta) in
  gd_st 2 (gd + gd_free_blocks_count_lo) (u16 v) ;;
  (if has_64bit e && (44 <=? desc_size e)
   then gd_st 2 (gd + gd_free_blocks_count_hi) (Z.land (Z.shiftr v 16) 0xFFFF) else ret tt) ;;
  let* e := gets e4 in
  let total := s64 (fget 4 (sb e) sb_free_blocks_count_lo
                    + s64 (Z.shiftl (fget 4 (sb e) sb_free_blocks_count_hi) 32) + delta) in
  let total := Z.max 0 total in
  modify (set_e4 (λ e, upd_sb (fset 4 sb_free_blocks_count_hi (u32 (Z.shiftr total 32))
                                (fset 4 sb_free_blocks_count_lo (u32 total) (sb e))) e)).

Definition adjust_free_inodes (gd delta : Z) : M W unit :=
  let* e := gets e4 in
  let* c := gd_ld 2 (gd + gd_free_inodes_count_lo) in
  let v := Z.max 0 (c + delta) in
  gd_st 2 (gd + gd_free_inodes_count_lo) (u16 v) ;;
  (if has_64bit e && (46 <=? desc_size e)
   then gd_st 2 (gd + gd_free_inodes_count_hi) (Z.land (Z.shiftr v 16) 0xFFFF) else ret tt) ;;
  let* e := gets e4 in
  let total := Z.max 0 (s32 (s32 (fget 4 (sb e) sb_free_inodes_count) + delta)) in
  modify (set_e4 (λ e, upd_sb (fset 4 sb_free_inodes_count total (sb e)) e)).

(** First clear bit of the byte [v] below [lim]: [for (bit = 0; bit < 8; ...)]. *)
Fixpoint find_bit (n : nat) (v byte_i bit lim : Z) : option Z :=
  match n with
  | O => None
  | S n' =>
      if lim <=? byte_i * 8 + bit then None
      else if negb (has v (Z.shiftl 1 bit)) then Some bit
      else find_bit n' v byte_i (bit + 1) lim
  end.

(** The scan over the bytes of a bitmap: byte and bit of the first clear bit. *)
Fixpoint find_clear (n : nat) (bm : list Z) (byte_i lim : Z) : option (option (Z * Z)) :=
  match n with
  | O => Some None
  | S n' =>
      v ← ld8 bm byte_i;
      if v =? 0xFF then find_clear n' bm (byte_i + 1) lim
      else
        match find_bit 8 v byte_i 0 lim with
        | Some bit => Some (Some (byte_i, bit))
        | None => find_clear n' bm (byte_i + 1) lim
        end
  end.

(** Bits of group [g]'s bitmap that stand for blocks. *)
Definition group_bits (e : ext4_fs) (g : Z) : Z :=
  if g =? u32 (group_count e - 1)
  then u32 (u64 (blocks_count e - first_data_block e - g * blocks_per_group e))
  else blocks_per_group e.

(** Claims bit [bit] of byte [byte_i] of group [g] in the loaded bitmap. *)
Definition claim_block (g gd blk byte_i bit : Z) : M W Z :=
  let* e := gets e4 in
  let bidx := u32 (byte_i * 8 + bit) in
  let* v := buf_ld 1 S1 byte_i in
  buf_st 1 S1 byte_i (Z.lor v (u8 (Z.shiftl 1 bit))) ;;
  e4_bitmap_checksum_set S1 false gd ;;
  adjust_free_blocks gd (-1) ;;
  let* _ := e4_sync_gd g in
  let* _ := write_from S1 blk in
  buf_zero S2 (block_size e) ;;
  let* _ := write_from S2 (blk_of e g bidx) in
  ret (blk_of e g bidx).

Definition e4_alloc_block_near (hint_group : Z) : M W (option Z) :=
  let* e := gets e4 in
  if negb (writable e) then ret None
  else
    for_ 0 (Z.to_nat (group_count e)) (λ gi,
      let* g := umod (u32 (hint_group + gi)) (group_count e) in
      let* lb := load_bitmap false g in
      match lb with
      | None => ret None
      | Some (gd, blk) =>
          let last_bits := group_bits e g in
          let* bm := gets scratch1 in
          let* c := lift (b ← bm; find_clear (Z.to_nat (u32 (last_bits + 7) / 8)) b 0 last_bits) in
          match c with
          | None => ret None
          | Some (byte_i, bit) =>
              let* r := claim_block g gd blk byte_i bit in
              ret (Some r)
          end
      end).

(** Clearing a bit of the loaded bitmap, shared by the two free functions:
    [bm[idx >> 3] & (1u << (idx & 7))]. *)
Definition bit_mask (idx : Z) : Z := Z.shiftl 1 (Z.land idx 7).

Definition e4_free_block (block : Z) : M W Z :=
  let* e := gets e4 in
  if negb (writable e) || (block <? first_data_block e) || (blocks_count e <=? block)
  then ret (-1)
  else
    let* q := udiv (block - first_data_block e) (blocks_per_group e) in
    let* idx := umod (block - first_data_block e) (blocks_per_group e) in
    let g := u32 q in
    let* lb := load_bitmap false g in
    match lb with
    | None => ret (-1)
    | Some (gd, blk) =>
        let* v := buf_ld 1 S1 (Z.shiftr idx 3) in
        if negb (has v (bit_mask idx)) then ret (-1)
        else
          buf_st 1 S1 (Z.shiftr idx 3) (Z.land v (u8 (Z.lnot (bit_mask idx)))) ;;
          e4_bitmap_checksum_set S1 false gd ;;
          adjust_free_blocks gd 1 ;;
          let* _ := e4_sync_gd g in
          write_from S1 blk
    end.

(** The reserved inodes of group 0 in a bitmap that is made now. *)
Definition mark_reserved (n : nat) : M W unit :=
  let* _ := for_ 0 n (λ i,
    let* v := buf_ld 1 S1 (Z.shiftr i 3) in
    buf_st 1 S1 (Z.shiftr i 3) (Z.lor v (u8 (bit_mask i))) ;;
    ret (@None unit)) in
  ret tt.

Definition init_inode_bitmap (g gd : Z) : M W unit :=
  let* e := gets e4 in
  buf_zero S1 (block_size e) ;;
  (if g =? 0
   then mark_reserved (Z.to_nat (Z.min (u32 (first_ino e - 1)) (inodes_per_group e)))
   else ret tt) ;;
  let* f := gd_ld 2 (gd + gd_flags) in
  gd_st 2 (gd + gd_flags) (Z.land f 0xFFFE) ;;
  gd_st 2 (gd + gd_itable_unused_lo) 0 ;;
  if has_64bit e && (50 <=? desc_size e) then gd_st 2 (gd + gd_itable_unused_hi) 0 else ret tt.

(** Claims bit [i] of group [g] for inode [ino]. *)
Definition claim_inode (g gd blk mode i : Z) : M W unit :=
  let* e := gets e4 in
  let* v := buf_ld 1 S1 (Z.shiftr i 3) in
  buf_st 1 S1 (Z.shiftr i 3) (Z.lor v (u8 (bit_mask i))) ;;
  e4_bitmap_checksum_set S1 true gd ;;
  adjust_free_inodes gd (-1) ;;
  (if has mode 0x4000 then
     let* c := gd_ld 2 (gd + gd_used_dirs_count_lo) in
     let d := u16 (c + 1) in
     gd_st 2 (gd + gd_used_dirs_count_lo) d ;;
     if has_64bit e && (48 <=? desc_size e)
     then gd_st 2 (gd + gd_used_dirs_count_hi) (u16 (Z.shiftr d 16)) else ret tt
   else ret tt) ;;
  let* _ := e4_sync_gd g in
  let* _ := write_from S1 blk in
  ret tt.

Definition e4_alloc_inode (prefer_group mode : Z) : M W (option Z) :=
  let* e := gets e4 in
  if negb (writable e) then ret None
  else
    for_ 0 (Z.to_nat (group_count e)) (λ gi,
      let* g := umod (u32 (prefer_group + gi)) (group_count e) in
      let* lb := load_bitmap true g in
      match lb with
      | None => ret None
      | Some (gd, blk) =>
          let* f := gd_ld 2 (gd + gd_flags) in
          (if has f 1 then init_inode_bitmap g gd else ret tt) ;;
          let start := u32 (first_ino e - 1) in
          for_ start (Z.to_nat (inodes_per_group e - start)) (λ i,
            let* v := buf_ld 1 S1 (Z.shiftr i 3) in
            if has v (bit_mask i) then ret None
            else
              let ino := u32 (g * inodes_per_group e + i + 1) in
              if (ino <? first_ino e) || (inodes_count e <? ino) then ret None
              else claim_inode g gd blk mode i ;; ret (Some ino))
      end).

Definition e4_free_inode (ino : Z) : M W Z :=
  let* e := gets e4 in
  if negb (writable e) || (ino <? first_ino e) || (inodes_count e <? ino) then ret (-1)
  else
    let* g := udiv (u32 (ino - 1)) (inodes_per_group e) in
    let* idx := umod (u32 (ino - 1)) (inodes_per_group e) in
    let* lb := load_bitmap true g in
    match lb with
    | None => ret (-1)
    | Some (gd, blk) =>
        let* v := buf_ld 1 S1 (Z.shiftr idx 3) in
        if negb (has v (bit_mask idx)) then ret (-1)
        else
          buf_st 1 S1 (Z.shiftr idx 3) (Z.land v (u8 (Z.lnot (bit_mask idx)))) ;;
          e4_bitmap_checksum_set S1 true gd ;;
          adjust_free_inodes gd 1 ;;
          let* _ := e4_sync_gd g in
          write_from S1 blk
    end.

Definition e4_count_free (e : ext4_fs) : Z * Z :=
  (fget 4 (sb e) sb_free_blocks_count_lo, fget 4 (sb e) sb_free_inodes_count).
End alloc.

(** ** Bitmaps *)

(** Bit [i] of a bitmap. *)
Definition bit_at (bm : list Z) (i : Z) : bool :=
  Z.testbit (default 0 (bm !! Z.to_nat (i / 8))) (i mod 8).

Lemma has_shiftl v k : 0 ≤ k → has v (Z.shiftl 1 k) = Z.testbit v k.
Proof.
  intros Hk. unfold has, truthy. rewrite Z.shiftl_1_l.
  destruct (Z.testbit v k) eqn:E; [apply negb_true_iff, Z.eqb_neq | apply negb_false_iff, Z.eqb_eq].
  - intros H0. assert (Z.testbit (Z.land v (2 ^ k)) k = true) as Ht.
    { by rewrite Z.land_spec, E, Z.pow2_bits_true. }
    by rewrite H0, Z.bits_0 in Ht.
  - apply Z.bits_inj'. intros n Hn. rewrite Z.land_spec, Z.bits_0, Z.pow2_bits_eqb by done.
    destruct (Z.eqb_spec k n) as [<-|]; [by rewrite E|by rewrite andb_false_r].
Qed.

Lemma bit_mask_eq i : bit_mask i = Z.shiftl 1 (i mod 8).
Proof. unfold bit_mask. change 7 with (2 ^ 3 - 1). by rewrite land_ones_low. Qed.

Lemma bit_at_byte bm y b :
  0 ≤ y → 0 ≤ b < 8 → bit_at bm (y * 8 + b) = Z.testbit (default 0 (bm !! Z.to_nat y)) b.
Proof.
  intros. unfold bit_at. rewrite Z.div_add_l, Z.div_small, Z.add_0_r by lia.
  by rewrite (Z.add_comm (y * 8)), Z_mod_plus_full, Z.mod_small by lia.
Qed.

Lemma find_bit_spec n v y lim : ∀ b,
  0 ≤ b → 
  match find_bit n v y b lim with
  | Some k => b ≤ k < b + Z.of_nat n ∧ y * 8 + k < lim ∧ Z.testbit v k = false ∧
      ∀ j, b ≤ j < k → Z.testbit v j = true
  | None => ∀ j, b ≤ j < b + Z.of_nat n → y * 8 + j < lim → Z.testbit v j = true
  end.
Proof.
  induction n as [|n IH]; intros b Hb; cbn [find_bit]; [intros j; lia|].
  destruct (Z.leb_spec lim (y * 8 + b)); [intros j; lia|].
  rewrite has_shiftl by done. destruct (Z.testbit v b) eqn:Eb; cbn [negb].
  - specialize (IH (b + 1) ltac:(lia)). destruct (find_bit n v y (b + 1) lim) as [k|].
    + destruct IH as (? & ? & ? & IH). split_and!; try done; try lia.
      intros j Hj. destruct (decide (j = b)) as [->|]; [done|apply IH; lia].
    + intros j Hj Hl. destruct (decide (j = b)) as [->|]; [done|apply IH; lia].
  - split_and!; try done; try lia. 
Qed.

Lemma byte_ff k : 0 ≤ k < 8 → Z.testbit 0xFF k = true.
Proof.
  intros Hk. assert (forallb (λ k, Z.testbit 0xFF k) (seqZ 0 8) = true) as Hf by reflexivity.
  rewrite forallb_forall in Hf. apply Hf. apply list_elem_of_In, elem_of_seqZ. lia.
Qed.

Lemma ld8_lookup bm y : 0 ≤ y < zlen bm → ∃ v, ld8 bm y = Some v ∧ bm !! Z.to_nat y = Some v.
Proof.
  intros Hy. destruct (lookup_lt_is_Some_2 bm (Z.to_nat y)) as [v Hv]; [unfold zlen in Hy; lia|].
  exists v. split; [|done]. unfold ld8, ld. destruct (slice_is_Some bm y 1) as [l Hl]; [lia..|].
  rewrite Hl. simpl. pose proof (slice_zlen _ _ _ _ Hl) as Hlen.
  pose proof (lookup_slice _ _ _ _ 0 Hl ltac:(lia)) as H0. rewrite Z.add_0_r, Hv in H0.
  destruct l as [|x [|]]; unfold zlen in Hlen; simpl in *; try lia. injection H0 as ->. f_equal. lia.
Qed.

(** The scan finds the first clear bit below [lim], if there is one. *)
Lemma find_clear_spec bm lim : ∀ n y,
  0 ≤ y → y + Z.of_nat n ≤ zlen bm → lim ≤ (y + Z.of_nat n) * 8 →
  ∃ r, find_clear n bm y lim = Some r ∧
    match r with
    | Some (k, b) => y ≤ k < y + Z.of_nat n ∧ 0 ≤ b < 8 ∧ k * 8 + b < lim ∧
        bit_at bm (k * 8 + b) = false ∧ ∀ i, y * 8 ≤ i < k * 8 + b → bit_at bm i = true
    | None => ∀ i, y * 8 ≤ i < lim → bit_at bm i = true
    end.
Proof.
  induction n as [|n IH]; intros y Hy Hlen Hlim; cbn [find_clear].
  { exists None. split; [done|]. intros i. lia. }
  destruct (ld8_lookup bm y) as (v & Hld & Hv); [lia|]. rewrite Hld. cbn [mbind option_bind].
  assert (Hbits : ∀ i, y * 8 ≤ i < y * 8 + 8 → bit_at bm i = Z.testbit v (i - y * 8)).
  { intros i Hi. replace i with (y * 8 + (i - y * 8)) at 1 by lia.
    rewrite bit_at_byte by lia. by rewrite Hv. }
  destruct (IH (y + 1) ltac:(lia) ltac:(lia) ltac:(lia)) as (r & Hr & Hspec).
  assert (Hskip : (∀ i, y * 8 ≤ i < y * 8 + 8 → i < lim → bit_at bm i = true) →
    match r with
    | Some (k, b) => y ≤ k < y + Z.of_nat (S n) ∧ 0 ≤ b < 8 ∧ k * 8 + b < lim ∧
        bit_at bm (k * 8 + b) = false ∧ ∀ i, y * 8 ≤ i < k * 8 + b → bit_at bm i = true
    | None => ∀ i, y * 8 ≤ i < lim → bit_at bm i = true
    end).
  { intros Hall. destruct r as [[k b]|].
    - destruct Hspec as (? & ? & ? & ? & Hs). split_and!; try done; try lia. intros i Hi.
      destruct (decide (i < y * 8 + 8)); [apply Hall; lia|apply Hs; lia].
    - intros i Hi. destruct (decide (i < y * 8 + 8)); [apply Hall; lia|apply Hspec; lia]. }
  destruct (Z.eqb_spec v 0xFF) as [Hff|Hff].
  { exists r. split; [done|]. apply Hskip. intros i Hi _. rewrite Hbits by done.
    rewrite Hff. apply byte_ff. lia. }
  pose proof (find_bit_spec 8 v y lim 0 ltac:(lia)) as Hfb.
  destruct (find_bit 8 v y 0 lim) as [b|].
  - destruct Hfb as (Hb & Hb2 & Hb3 & Hb4). exists (Some (y, b)). split; [done|].
    split_and!; try done; try lia; [rewrite bit_at_byte, Hv by lia; exact Hb3|].
    intros i Hi. rewrite Hbits by lia. apply Hb4. lia.
  - exists r. split; [done|]. apply Hskip. intros i Hi Hil. rewrite Hbits by done. apply Hfb; lia.
Qed.

(** Storing a byte changes exactly its eight bits. *)
Lemma st8_bits bm y x bm' j :
  0 ≤ y → 0 ≤ j → splice bm y (le_to (Z.to_nat 1) x) = Some bm' →
  bit_at bm' j = if j / 8 =? y then Z.testbit x (j mod 8) else bit_at bm j.
Proof.
  intros Hy Hj Hs. change (le_to (Z.to_nat 1) x) with [x mod 256] in Hs. unfold bit_at.
  rewrite (lookup_splice_Z _ _ _ _ _ Hs) by (apply Z.div_pos; lia).
  change (zlen [x mod 256]) with 1. destruct (Z.eqb_spec (j / 8) y) as [->|Hne].
  - rewrite decide_True, Z.sub_diag by lia.
    change (default 0 ([x mod 256] !! Z.to_nat 0)) with (x mod 2 ^ 8).
    rewrite Z.mod_pow2_bits_low; [done|]. apply Z.mod_pos_bound. lia.
  - rewrite decide_False by lia. done.
Qed.

Lemma idx_split j y b : 0 ≤ b < 8 → j = y * 8 + b ↔ j / 8 = y ∧ j mod 8 = b.
Proof. intros. split; [intros ->; mod_lia | intros []; mod_lia]. Qed.

Lemma u8_shiftl_bits b k : 0 ≤ b < 8 → 0 ≤ k < 8 → Z.testbit (u8 (Z.shiftl 1 b)) k = (k =? b).
Proof.
  intros Hb Hk. unfold u8. change 256 with (2 ^ 8). rewrite Z.mod_pow2_bits_low by lia.
  rewrite Z.shiftl_1_l, Z.pow2_bits_eqb by lia. apply Z.eqb_sym.
Qed.

Lemma set_bit_spec bm y b v bm' j :
  0 ≤ y → 0 ≤ b < 8 → bm !! Z.to_nat y = Some v → 0 ≤ j →
  splice bm y (le_to (Z.to_nat 1) (Z.lor v (u8 (Z.shiftl 1 b)))) = Some bm' →
  bit_at bm' j = (j =? y * 8 + b) || bit_at bm j.
Proof.
  intros Hy Hb Hv Hj Hs. rewrite (st8_bits _ _ _ _ _ Hy Hj Hs).
  pose proof (Z.mod_pos_bound j 8 ltac:(lia)). destruct (Z.eqb_spec (j / 8) y) as [Heq|Hne].
  - rewrite Z.lor_spec, u8_shiftl_bits by lia. unfold bit_at. rewrite Heq, Hv. cbn [default].
    rewrite orb_comm. f_equal. apply eq_true_iff_eq. rewrite !Z.eqb_eq.
    rewrite (idx_split j y b) by done. tauto.
  - rewrite (proj2 (Z.eqb_neq j _)); [done|]. rewrite (idx_split j y b) by done. tauto.
Qed.

Lemma clear_bit_spec bm y b v bm' j :
  0 ≤ y → 0 ≤ b < 8 → bm !! Z.to_nat y = Some v → 0 ≤ j →
  splice bm y (le_to (Z.to_nat 1) (Z.land v (u8 (Z.lnot (Z.shiftl 1 b))))) = Some bm' →
  bit_at bm' j = negb (j =? y * 8 + b) && bit_at bm j.
Proof.
  intros Hy Hb Hv Hj Hs. rewrite (st8_bits _ _ _ _ _ Hy Hj Hs).
  pose proof (Z.mod_pos_bound j 8 ltac:(lia)). destruct (Z.eqb_spec (j / 8) y) as [Heq|Hne].
  - rewrite Z.land_spec. unfold u8. change 256 with (2 ^ 8). rewrite Z.mod_pow2_bits_low by lia.
    rewrite Z.lnot_spec, Z.shiftl_1_l, Z.pow2_bits_eqb by lia. unfold bit_at. rewrite Heq, Hv. cbn [default].
    rewrite andb_comm. do 2 f_equal. apply eq_true_iff_eq. rewrite !Z.eqb_eq.
    rewrite (idx_split j y b) by done. split; [intros ->|intros [_ ->]]; done.
  - rewrite (proj2 (Z.eqb_neq j _)); [done|]. rewrite (idx_split j y b) by done. tauto.
Qed.

(** ** Descriptor tables *)

(** [t'] has the block pointers of the descriptors of [t]. *)
Definition table_same (ds gc : Z) (t t' : list Z) : Prop :=
  zlen t' = zlen t ∧ (bytes_ok t → bytes_ok t') ∧
  ∀ g, 0 ≤ g < gc → slice t' (g * ds) 12 = slice t (g * ds) 12 ∧
    (64 ≤ ds → slice t' (g * ds + 32) 12 = slice t (g * ds + 32) 12).

(** [e'] is [e] but for the counters and checksums. *)
Definition geom_same (e e' : ext4_fs) : Prop :=
  e' = upd_gdt (gdt e') (upd_sb (sb e') e) ∧
  ∃ t t', gdt e = Some t ∧ gdt e' = Some t' ∧ table_same (desc_size e) (group_count e) t t'.

(** Offsets of a descriptor that hold no block pointer. *)
Definition counter_field (ds f n : Z) : Prop := (12 ≤ f ∧ f + n ≤ 32 ∨ 44 ≤ f) ∧ 0 ≤ n ∧ f + n ≤ ds.

Lemma table_same_refl ds gc t : table_same ds gc t t.
Proof. done. Qed.
Lemma table_same_trans ds gc t1 t2 t3 :
  table_same ds gc t1 t2 → table_same ds gc t2 t3 → table_same ds gc t1 t3.
Proof.
  intros (Hl & Hb & H12) (Hl' & Hb' & H23). split; [congruence|]. split; [auto|]. intros g Hg.
  destruct (H12 g Hg) as [E1 E2], (H23 g Hg) as [E3 E4]. split; [congruence|].
  intros Hds. by rewrite E4, E2.
Qed.

Lemma splice_table_same ds gc t g f l t' :
  32 ≤ ds → 0 ≤ g → counter_field ds f (zlen l) → bytes_ok l → splice t (g * ds + f) l = Some t' →
  table_same ds gc t t'.
Proof.
  intros Hds Hg (Hf & Hn & Hle) Hby Hs. split; [by eapply splice_zlen|].
  split; [eauto with kdb|]. intros g' Hg'.
  split; [|intros Hds64]; eapply slice_splice_ne; try exact Hs; destruct (decide (g = g')); try subst; nia.
Qed.

Lemma st_table_same ds gc t g f n v t' :
  32 ≤ ds → 0 ≤ g → counter_field ds f n → st n t (g * ds + f) v = Some t' → table_same ds gc t t'.
Proof.
  intros Hds Hg (Hf & Hn & Hle) Hs. eapply (splice_table_same ds gc t g f); [done|done| |apply le_to_bytes_ok|exact Hs].
  unfold counter_field, zlen. rewrite length_le_to. lia.
Qed.

Lemma ld_table_same ds gc t t' g f n :
  table_same ds gc t t' → 0 ≤ g < gc → 0 ≤ f → 0 ≤ n → f + n ≤ 12 ∨ (64 ≤ ds ∧ 32 ≤ f ∧ f + n ≤ 44) →
  32 ≤ ds → gc * ds ≤ zlen t →
  ld n t' (g * ds + f) = ld n t (g * ds + f).
Proof.
  intros (Hl & _ & Ht) Hg Hf Hn Hc Hds Hlen. destruct (Ht g Hg) as [H1 H2]. unfold ld. f_equal.
  assert (Hsub : ∀ b base k m, 0 ≤ base → 0 ≤ k → 0 ≤ m → k + m ≤ 12 → base + 12 ≤ zlen b →
    slice b (base + k) m = (x ← slice b base 12; slice x k m)).
  { intros b base k m ???? ?. destruct (slice_is_Some b base 12) as [x Hx]; [lia..|].
    rewrite Hx. simpl. destruct (slice_is_Some x k m) as [y Hy]; [lia|lia| |].
    { rewrite (slice_zlen _ _ _ _ Hx). lia. }
    rewrite Hy. apply slice_Some in Hx as (_ & _ & _ & ->), Hy as (_ & _ & _ & ->).
    apply slice_Some. split_and!; try lia. rewrite skipn_firstn_comm, take_take, drop_drop.
    f_equal; [lia|]. f_equal. lia. }
  destruct Hc as [Hc|(Hd64 & Hc1 & Hc2)].
  - rewrite (Hsub t'), (Hsub t) by nia. by rewrite H1.
  - replace (g * ds + f) with (g * ds + 32 + (f - 32)) by lia.
    rewrite (Hsub t'), (Hsub t) by nia. by rewrite H2 by done.
Qed.

Lemma geom_same_trans e1 e2 e3 : geom_same e1 e2 → geom_same e2 e3 → geom_same e1 e3.
Proof.
  intros [He (t1 & t2 & Ht1 & Ht2 & H12)] [He' (t2' & t3 & Ht2' & Ht3 & H23)].
  rewrite Ht2 in Ht2'. injection Ht2' as <-. split.
  - rewrite He', He. done.
  - exists t1, t3. split_and!; [done|done|]. eapply table_same_trans; [done|].
    rewrite He in H23. exact H23.
Qed.

Section alloc_proofs.
Context {D H : Type} `{Allocator H}.
Context (dv : blk_device D) (ok : D → Prop) (sector : D → Z → list Z)
  `{!SectorDevice dv ok sector}.
#[local] Abbreviation W := (world D H).
#[local] Abbreviation mounted := (mounted dv ok).
#[local] Abbreviation disk := (disk sector).

(** The block with the block bitmap of group [g], and the block of the
    descriptor table that holds descriptor [g]. *)
Definition bitmap_of (e : ext4_fs) (g : Z) : Z :=
  match gdt e with
  | Some t =>
      let lo := fget 4 t (g * desc_size e + gd_block_bitmap_lo) in
      if has_64bit e then Z.lor lo (Z.shiftl (fget 4 t (g * desc_size e + gd_block_bitmap_hi)) 32) else lo
  | None => 0
  end.
Definition gdt_block_of (e : ext4_fs) (g : Z) : Z :=
  first_data_block e + 1 + g / (block_size e / desc_size e).

(** The geometry the allocation code relies on. *)
Record alloc_geom (e : ext4_fs) : Prop := {
  ag_gc : 0 < group_count e ≤ 65536;
  ag_fdb : 0 ≤ first_data_block e;
  ag_bpg : 0 < blocks_per_group e ≤ 8 * block_size e;
  ag_bs : 512 ≤ block_size e ≤ 8192;
  ag_ds : 32 ≤ desc_size e ≤ 128;
  ag_64 : has_64bit e = true → 64 ≤ desc_size e;
  ag_gdt : ∃ t, gdt e = Some t ∧ zlen t = group_count e * desc_size e ∧ bytes_ok t;
  ag_blocks : first_data_block e + (group_count e - 1) * blocks_per_group e < blocks_count e ≤
    first_data_block e + group_count e * blocks_per_group e;
  ag_small : blocks_count e < 2 ^ 32;
  ag_gb : ∀ g, 0 ≤ g < group_count e → gdt_block_of e g < blocks_count e;
  ag_bb : ∀ g, 0 ≤ g < group_count e → 0 ≤ bitmap_of e g < blocks_count e;
}.

Lemma geom_same_fields e e' : geom_same e e' →
  block_size e' = block_size e ∧ sectors_per_block e' = sectors_per_block e ∧
  dev e' = dev e ∧ writable e' = writable e ∧ blocks_count e' = blocks_count e ∧
  first_data_block e' = first_data_block e ∧ blocks_per_group e' = blocks_per_group e ∧
  group_count e' = group_count e ∧ desc_size e' = desc_size e ∧ has_64bit e' = has_64bit e ∧
  meta_csum e' = meta_csum e ∧ gdt_csum e' = gdt_csum e ∧ inodes_count e' = inodes_count e ∧
  inodes_per_group e' = inodes_per_group e ∧ inode_size e' = inode_size e ∧ first_ino e' = first_ino e.
Proof. intros [He _]. rewrite He. done. Qed.

Lemma bitmap_of_same e e' g :
  alloc_geom e → geom_same e e' → 0 ≤ g < group_count e → bitmap_of e' g = bitmap_of e g.
Proof.
  intros Hg [He (t & t' & Ht & Ht' & Hs)] Hgr. destruct (ag_gdt _ Hg) as (t0 & Ht0 & Hlen & _).
  rewrite Ht in Ht0. injection Ht0 as <-. unfold bitmap_of. rewrite Ht, Ht'.
  replace (desc_size e') with (desc_size e) by (rewrite He; done).
  replace (has_64bit e') with (has_64bit e) by (rewrite He; done).
  pose proof (ag_ds _ Hg). unfold fget.
  rewrite (ld_table_same _ _ _ _ g gd_block_bitmap_lo 4 Hs) by (unfold gd_block_bitmap_lo; lia).
  destruct (has_64bit e) eqn:E64; [|done]. pose proof (ag_64 _ Hg E64).
  by rewrite (ld_table_same _ _ _ _ g gd_block_bitmap_hi 4 Hs) by (unfold gd_block_bitmap_hi; lia).
Qed.

Lemma alloc_geom_same e e' : alloc_geom e → geom_same e e' → alloc_geom e'.
Proof.
  intros Hg Hs. pose proof (geom_same_fields _ _ Hs) as (Hbs&Hspb&Hdev&Hwr&Hbc&Hfdb&Hbpg&Hgc&Hds&H64&_).
  pose proof Hs as [_ (t & t' & Ht & Ht' & Hl & Hb & _)].
  pose proof (λ g, bitmap_of_same e e' g Hg Hs) as Hsame.
  destruct Hg as [? ? ? ? ? ? (t0 & Ht0 & Hlen & Hb0) ? ? Hgb Hbb].
  split; rewrite ?Hbs, ?Hgc, ?Hfdb, ?Hbpg, ?Hds, ?H64, ?Hbc; try done.
  - exists t'. split; [done|]. assert (t0 = t) as -> by congruence. split; [congruence|auto].
  - intros g Hgr. unfold gdt_block_of. rewrite Hfdb, Hbs, Hds. by apply Hgb.
  - intros g Hgr. rewrite Hsame by done. by apply Hbb.
Qed.

(** Only counters and checksums of the mount state (and, for [quiet], the
    buffers and the disk) differ. *)
Definition quiet (w w' : W) : Prop :=
  geom_same (e4 w) (e4 w') ∧ reg w' = reg w ∧ hp w' = hp w ∧ clock w' = clock w ∧
  uninit w' = uninit w ∧ jnl w' = jnl w.
Definition soft (w w' : W) : Prop :=
  quiet w w' ∧ hw w' = hw w ∧ ∀ b, bufget b w' = bufget b w.

Lemma quiet_trans w1 w2 w3 : quiet w1 w2 → quiet w2 w3 → quiet w1 w3.
Proof.
  intros (?&?&?&?&?&?) (?&?&?&?&?&?). split; [by eapply geom_same_trans|]. repeat split; congruence.
Qed.
Lemma soft_trans w1 w2 w3 : soft w1 w2 → soft w2 w3 → soft w1 w3.
Proof.
  intros (Hq & Hh & Hb) (Hq' & Hh' & Hb'). split; [by eapply quiet_trans|].
  split; [congruence|]. intros b. by rewrite Hb', Hb.
Qed.

Lemma geom_same_refl e : alloc_geom e → geom_same e e.
Proof.
  intros Hg. destruct (ag_gdt _ Hg) as (t & Ht & _). split; [by destruct e|].
  exists t, t. by split_and!.
Qed.
Lemma quiet_refl w : alloc_geom (e4 w) → quiet w w.
Proof. intros. split; [by apply geom_same_refl|by repeat split]. Qed.
Lemma soft_refl w : alloc_geom (e4 w) → soft w w.
Proof. intros. split; [by apply quiet_refl|done]. Qed.

Lemma same_fs_quiet w w' : alloc_geom (e4 w) → same_fs w w' → quiet w w'.
Proof.
  intros Hg (He&?&?&?&?&?). split; [rewrite He; by apply geom_same_refl|done].
Qed.

Lemma mounted_quiet w w' :
  mounted w → quiet w w' → ok (hw w') → (∀ b, buf_ok w' b) → mounted w'.
Proof.
  intros [] (Hg & Hr & _) Hok Hb.
  pose proof (geom_same_fields _ _ Hg) as (Hbs&Hspb&Hdev&Hwr&Hbc&_).
  split; rewrite ?Hr, ?Hbs, ?Hspb, ?Hdev, ?Hbc; done.
Qed.

Lemma soft_mounted w w' : mounted w → soft w w' → mounted w'.
Proof.
  intros Hm (Hq & Hh & Hb). apply (mounted_quiet w); [done|done|rewrite Hh; apply Hm|].
  intros b. destruct (m_buf _ _ _ Hm b) as (l & Hl & Hlen). exists l. rewrite Hb. split; [done|].
  destruct Hq as [Hg _]. by destruct (geom_same_fields _ _ Hg) as (-> & _).
Qed.

Lemma soft_disk w w' k : soft w w' → disk w' k = disk w k.
Proof.
  intros ((Hg & _) & Hh & _). destruct (geom_same_fields _ _ Hg) as (_ & Hspb & _).
  unfold Ext4Core.disk. by rewrite Hspb, Hh.
Qed.

Lemma gdt_mod_wp f w t t' :
  gdt (e4 w) = Some t → f t = Some t' → table_same (desc_size (e4 w)) (group_count (e4 w)) t t' →
  wp (gdt_mod f) (λ _ w', soft w w') w.
Proof.
  intros Ht Hf Hs. unfold gdt_mod. wp_pure. apply wp_bind. eapply wp_lift.
  { rewrite Ht. exact Hf. }
  apply wp_modify. split; [|split; [done|by intros []]].
  split; [|by repeat split]. split; [cbn [e4 set_e4]; clear; by destruct (e4 w)|]. by exists t, t'.
Qed.

Lemma gd_st_wp w g f n v :
  alloc_geom (e4 w) → 0 ≤ g < group_count (e4 w) → counter_field (desc_size (e4 w)) f n →
  wp (gd_st n (g * desc_size (e4 w) + f) v) (λ _ w', soft w w') w.
Proof.
  intros Hg Hgr Hf. destruct (ag_gdt _ Hg) as (t & Ht & Hlen & Htb). pose proof (ag_ds _ Hg).
  pose proof Hf as (_ & ? & ?).
  destruct (st_is_Some n t (g * desc_size (e4 w) + f) v) as [t' Ht'];
    [destruct Hf; nia|done|nia|].
  eapply gdt_mod_wp; [done|exact Ht'|]. eapply st_table_same; [| |exact Hf|exact Ht']; lia.
Qed.

Lemma gd_ld_wp w g f n (Q : Z → W → Prop) :
  alloc_geom (e4 w) → 0 ≤ g < group_count (e4 w) → 0 ≤ f → 0 ≤ n → f + n ≤ desc_size (e4 w) →
  (∀ t, gdt (e4 w) = Some t → Q (fget n t (g * desc_size (e4 w) + f)) w) →
  wp (gd_ld n (g * desc_size (e4 w) + f)) Q w.
Proof.
  intros Hg Hgr Hf Hn Hle HQ. destruct (ag_gdt _ Hg) as (t & Ht & Hlen & Htb).
  destruct (ld_is_Some n t (g * desc_size (e4 w) + f)) as [v Hv]; [nia|done|nia|].
  unfold gd_ld. wp_pure. eapply wp_lift; [rewrite Ht; exact Hv|].
  specialize (HQ t Ht). unfold fget in HQ. by rewrite Hv in HQ.
Qed.

Lemma sb_mod_soft w f : alloc_geom (e4 w) → soft w (set_e4 (λ e, upd_sb (f e) e) w).
Proof.
  intros Hg. destruct (ag_gdt _ Hg) as (t & Ht & _). split; [|split; [done|by intros []]].
  split; [|by repeat split]. split; [cbn [e4 set_e4]; clear; by destruct (e4 w)|]. by exists t, t.
Qed.

Lemma e4_gd_eq e g :
  alloc_geom e → 0 ≤ g < group_count e → e4_gd e g = Some (g * desc_size e).
Proof.
  intros Hg Hgr. unfold e4_gd. rewrite (proj2 (Z.leb_gt _ _)) by lia.
  pose proof (ag_gc _ Hg). pose proof (ag_ds _ Hg). rewrite u64_small; [done|nia].
Qed.

Lemma desc_checksum_ok e g t :
  alloc_geom e → 0 ≤ g < group_count e → zlen t = group_count e * desc_size e →
  ∃ t', e4_desc_checksum_set e g t (g * desc_size e) = Some t' ∧
    table_same (desc_size e) (group_count e) t t'.
Proof.
  intros Hg Hgr Hlen. pose proof (ag_ds _ Hg) as Hds. unfold e4_desc_checksum_set.
  assert (Hcf : counter_field (desc_size e) gd_checksum 2) by (unfold counter_field, gd_checksum; lia).
  assert (Hst : ∀ t v, zlen t = group_count e * desc_size e →
    ∃ t', st16 t (g * desc_size e + gd_checksum) v = Some t' ∧ zlen t' = zlen t ∧
      table_same (desc_size e) (group_count e) t t').
  { intros t1 v Hl1. destruct (st_is_Some 2 t1 (g * desc_size e + gd_checksum) v) as [t' Ht'];
      [unfold gd_checksum; nia..|].
    exists t'. split_and!; [done|by eapply st_zlen|]. eapply st_table_same; [| |exact Hcf|exact Ht']; lia. }
  case_if; [|case_if].
  - destruct (Hst t 0 Hlen) as (t1 & Ht1 & Hl1 & Hs1). rewrite Ht1. simpl.
    destruct (slice_is_Some t1 (g * desc_size e) (desc_size e)) as [d Hd]; [nia..|]. rewrite Hd. simpl.
    edestruct (Hst t1) as (t2 & Ht2 & _ & Hs2); [congruence|]. rewrite Ht2.
    exists t2. split; [done|]. by eapply table_same_trans.
  - destruct (slice_is_Some t (g * desc_size e) 30) as [d1 Hd1]; [nia..|]. rewrite Hd1. simpl.
    rewrite u32_small by lia.
    destruct (slice_is_Some t (g * desc_size e + 32) (desc_size e - 32)) as [d2 Hd2]; [nia..|].
    rewrite Hd2. simpl. edestruct (Hst t) as (t2 & Ht2 & _ & Hs2); [done|]. rewrite Ht2. eauto.
  - exists t. by split.
Qed.

(** Field accesses at [gd + f] where [gd] is descriptor [g]. *)
Lemma adjust_free_blocks_wp w g delta :
  alloc_geom (e4 w) → 0 ≤ g < group_count (e4 w) →
  wp (adjust_free_blocks (g * desc_size (e4 w)) delta) (λ _ w', soft w w') w.
Proof.
  intros Hg Hgr. pose proof (ag_ds _ Hg). unfold adjust_free_blocks. wp_pure. apply wp_bind.
  apply gd_ld_wp; [done|done|unfold gd_free_blocks_count_lo; lia..|]. intros t Ht.
  wp_apply (gd_st_wp w g gd_free_blocks_count_lo 2).
  { done. } { done. } { unfold counter_field, gd_free_blocks_count_lo. lia. }
  intros ? w1 Hs1. pose proof Hs1 as ((Hq1 & _) & _).
  pose proof (geom_same_fields _ _ Hq1) as (_&_&_&_&_&_&_&Hgc&Hds&_).
  pose proof (alloc_geom_same _ _ Hg Hq1) as Hg1.
  apply (wp_call _ _ (λ _ w2, soft w w2)).
  - case_if; [|by apply wp_ret]. bool_prop. rewrite <- Hds.
    eapply wp_mono; [apply (gd_st_wp w1 g gd_free_blocks_count_hi 2); [done|lia|]|].
    + unfold counter_field, gd_free_blocks_count_hi. pose proof (ag_64 _ Hg ltac:(done)). lia.
    + intros ? w2 Hs2. by eapply soft_trans.
  - intros ? w2 Hs2. wp_pure. apply wp_modify. eapply soft_trans; [exact Hs2|].
    apply sb_mod_soft. eapply alloc_geom_same; [exact Hg|apply Hs2].
Qed.

Lemma bitmap_checksum_wp w g b bm :
  alloc_geom (e4 w) → 0 ≤ g < group_count (e4 w) → bufget b w = Some bm → zlen bm = block_size (e4 w) →
  wp (e4_bitmap_checksum_set b false (g * desc_size (e4 w))) (λ _ w', soft w w') w.
Proof.
  intros Hg Hgr Hb Hlen. pose proof (ag_ds _ Hg). pose proof (ag_bpg _ Hg).
  unfold e4_bitmap_checksum_set. wp_pure. case_if; [by apply wp_ret, soft_refl|].
  destruct (slice_is_Some bm 0 (blocks_per_group (e4 w) / 8)) as [l Hl]; [lia|apply Z.div_pos; lia| |].
  { rewrite Hlen. apply Z.div_le_upper_bound; lia. }
  apply wp_bind. exists l, w. split; [by eapply buf_slice_eq|].
  wp_apply (gd_st_wp w g gd_block_bitmap_csum_lo 2).
  { done. } { done. } { unfold counter_field, gd_block_bitmap_csum_lo. lia. }
  intros ? w1 Hs1. case_if; [|by apply wp_ret]. bool_prop.
  pose proof Hs1 as ((Hq1 & _) & _).
  pose proof (geom_same_fields _ _ Hq1) as (_&_&_&_&_&_&_&Hgc&Hds&_). rewrite <- Hds.
  eapply wp_mono; [apply (gd_st_wp w1 g gd_block_bitmap_csum_hi 2)|].
  - by eapply alloc_geom_same.
  - lia.
  - unfold counter_field, gd_block_bitmap_csum_hi. lia.
  - intros ? w2 Hs2. by eapply soft_trans.
Qed.

Lemma gdt_block_bounds e g :
  alloc_geom e → 0 ≤ g < group_count e →
  0 < block_size e / desc_size e ∧ 0 ≤ gdt_block_of e g < blocks_count e ∧
  u32 (u32 (first_data_block e + 1) + g / (block_size e / desc_size e)) = gdt_block_of e g ∧
  0 ≤ g mod (block_size e / desc_size e) * desc_size e ∧
  g mod (block_size e / desc_size e) * desc_size e + desc_size e ≤ block_size e.
Proof.
  intros Hg Hgr. pose proof (ag_ds _ Hg). pose proof (ag_bs _ Hg). pose proof (ag_gb _ Hg g Hgr) as Hb.
  pose proof (ag_small _ Hg). pose proof (ag_fdb _ Hg).
  assert (0 < block_size e / desc_size e) as Hpb by (apply Z.div_str_pos; lia).
  pose proof (Z.div_pos g (block_size e / desc_size e) ltac:(lia) Hpb).
  pose proof (Z.mod_pos_bound g (block_size e / desc_size e) Hpb).
  pose proof (Z.mul_div_le (block_size e) (desc_size e) ltac:(lia)).
  unfold gdt_block_of in *. split_and!; [done|lia|done| |nia|nia].
  rewrite (u32_small (first_data_block e + 1)), u32_small by lia. done.
Qed.

Lemma sync_gd_wp w g :
  mounted w → writable (e4 w) = true → alloc_geom (e4 w) → 0 ≤ g < group_count (e4 w) →
  wp (e4_sync_gd g) (λ rc w', rc = 0 ∧ quiet w w' ∧ mounted w' ∧ bufget S1 w' = bufget S1 w ∧
    ∀ k, 0 ≤ k → k ≠ gdt_block_of (e4 w) g → disk w' k = disk w k) w.
Proof.
  intros Hm Hw Hg Hgr. pose proof (ag_ds _ Hg) as Hds0. unfold e4_sync_gd. wp_pure.
  rewrite e4_gd_eq by done. destruct (ag_gdt _ Hg) as (t & Ht & Hlen & Htb).
  destruct (desc_checksum_ok _ _ _ Hg Hgr Hlen) as (t' & Ht' & Hts).
  eapply wp_call; [exact (gdt_mod_wp _ w t t' Ht Ht' Hts)|cbv beta]. intros ? w1 Hs1.
  destruct (gdt_block_bounds _ _ Hg Hgr) as (Hpb & Hgb & Hu & Hslot & Hslot2).
  pose proof Hs1 as (Hq1 & _ & Hb1). pose proof Hq1 as (Hg1 & _).
  pose proof (geom_same_fields _ _ Hg1) as (Hbs&_&_&Hwr&Hbc&_&_&Hgc&Hds&_).
  apply wp_bind, wp_udiv; [lia|]. wp_pure. apply wp_bind, wp_udiv; [lia|].
  apply wp_bind, wp_umod; [lia|]. rewrite Hu. wp_pure.
  destruct (read_into_spec dv ok sector S2 (gdt_block_of (e4 w) g) w1)
    as (w2 & Hr2 & Hs2 & Hm2 & Hb2 & Ho2 & Hd2); [exact (soft_mounted _ _ Hm Hs1)|lia|].
  apply wp_bind. exists 0, w2. split; [done|]. change (truthy 0) with false. cbv iota. wp_pure.
  pose proof Hs2 as (He2 & _). destruct Hg1 as [_ (t0 & t1 & _ & Ht1 & Hl1 & _)].
  destruct (ag_gdt _ (alloc_geom_same _ _ Hg (proj1 Hq1))) as (t1' & Ht1' & Hlen1 & Htb1).
  rewrite Ht1 in Ht1'. injection Ht1' as <-.
  destruct (slice_is_Some t1 (g * desc_size (e4 w)) (desc_size (e4 w))) as [d Hd]; [nia..|].
  apply wp_bind. eapply wp_lift; [rewrite He2, Ht1, Hds; exact Hd|]. pose proof (slice_zlen _ _ _ _ Hd) as Hdl.
  assert (Hblk : zlen (disk w1 (gdt_block_of (e4 w) g)) = block_size (e4 w)).
  { rewrite <- Hbs. apply (disk_zlen dv ok sector); [exact (soft_mounted _ _ Hm Hs1)|lia]. }
  rewrite He2, Hds.
  destruct (splice_is_Some (disk w1 (gdt_block_of (e4 w) g))
    (g mod (block_size (e4 w) / desc_size (e4 w)) * desc_size (e4 w)) d) as [x Hx]; [lia..|].
  apply wp_bind. eexists _, _. split; [by eapply buf_splice_eq|].
  pose proof (splice_zlen _ _ _ _ Hx) as Hxl.
  set (w3 := bufset S2 (Some x) w2).
  assert (Hm3 : mounted w3) by (apply mounted_bufset; [done|rewrite He2; lia|];
    eapply splice_bytes_ok; [by apply (disk_bytes dv ok sector w1); [exact (soft_mounted _ _ Hm Hs1)|rewrite Hbc; exact Hgb]|by eapply slice_bytes_ok|exact Hx]).
  destruct (write_from_spec dv ok sector S2 (gdt_block_of (e4 w) g) w3 x)
    as (w4 & Hw4 & Hs4 & Hm4 & Hb4 & Hd4); [done|cbn; congruence|cbn; rewrite He2; lia|done|].
  exists 0, w4. split; [done|]. split_and!; [done| |done| |].
  - apply (quiet_trans _ w1); [done|]. apply (quiet_trans _ w2).
    { apply same_fs_quiet; [by eapply alloc_geom_same, Hq1|done]. }
    apply same_fs_quiet; [rewrite He2; by eapply alloc_geom_same, Hq1|].
    eapply same_fs_trans; [|exact Hs4]. apply same_fs_buf, same_fs_refl.
  - rewrite Hb4. unfold w3. rewrite bufget_set_ne by done. by rewrite (Ho2 S1), Hb1 by done.
  - intros k Hk Hne. rewrite Hd4, decide_False by done.
    unfold w3. rewrite bufset_disk, Hd2 by done. by apply soft_disk.
Qed.

Lemma load_bitmap_wp (w : W) g :
  mounted w → alloc_geom (e4 w) → 0 ≤ g < group_count (e4 w) →
  wp (load_bitmap false g) (λ r w', r = Some (g * desc_size (e4 w), bitmap_of (e4 w) g) ∧
    same_fs w w' ∧ mounted w' ∧ bufget S1 w' = Some (disk w (bitmap_of (e4 w) g)) ∧
    ∀ k, 0 ≤ k → disk w' k = disk w k) w.
Proof.
  intros Hm Hg Hgr. pose proof (ag_ds _ Hg). unfold load_bitmap. wp_pure. rewrite e4_gd_eq by done.
  apply wp_bind. apply gd_ld_wp; [done|done|unfold gd_block_bitmap_lo; lia..|]. intros t Ht.
  apply (wp_call _ _ (λ blk w', blk = bitmap_of (e4 w) g ∧ w' = w)).
  - unfold bitmap_of. rewrite Ht. destruct (has_64bit (e4 w)) eqn:E64; [|by apply wp_ret].
    pose proof (ag_64 _ Hg E64). apply wp_bind.
    apply gd_ld_wp; [done|done|unfold gd_block_bitmap_hi; lia..|]. intros t' Ht'.
    rewrite Ht in Ht'. injection Ht' as <-. by apply wp_ret.
  - intros ? ? [-> ->].
    destruct (read_into_spec dv ok sector S1 (bitmap_of (e4 w) g) w)
      as (w2 & Hr2 & Hs2 & Hm2 & Hb2 & Ho2 & Hd2); [done|by apply ag_bb|].
    apply wp_bind. exists 0, w2. split; [done|]. by apply wp_ret.
Qed.

(** Bytes of a scratch buffer. *)
Lemma buf_ld1_wp b y (w : W) x :
  bufget b w = Some x → 0 ≤ y < zlen x →
  wp (buf_ld 1 b y) (λ v w', w' = w ∧ x !! Z.to_nat y = Some v) w.
Proof.
  intros Hb Hy. destruct (ld8_lookup x y Hy) as (v & Hld & Hv).
  destruct (slice_is_Some x y 1) as [l Hl]; [lia..|].
  unfold ld8, ld in Hld. rewrite Hl in Hld. injection Hld as <-.
  exists (le_of l), w. split; [|done]. unfold buf_ld.
  by rewrite (bind_eq _ _ _ _ _ (buf_slice_eq _ _ _ _ _ _ Hb Hl)).
Qed.

Lemma buf_st1_wp b y v (w : W) x :
  bufget b w = Some x → 0 ≤ y < zlen x →
  wp (buf_st 1 b y v) (λ _ w', ∃ x', splice x y (le_to (Z.to_nat 1) v) = Some x' ∧
    zlen x' = zlen x ∧ w' = bufset b (Some x') w) w.
Proof.
  intros Hb Hy. destruct (splice_is_Some x y (le_to (Z.to_nat 1) v)) as [x' Hx'];
    [lia|change (zlen (le_to (Z.to_nat 1) v)) with 1; lia|].
  eexists _, _. split; [by eapply buf_splice_eq|]. exists x'. split_and!; [done|by eapply splice_zlen|done].
Qed.

Lemma buf_zero_wp b (w : W) x :
  bufget b w = Some x → wp (buf_zero b (zlen x)) (λ _ w', w' = bufset b (Some (zeros (zlen x))) w) w.
Proof.
  intros Hb. pose proof (zlen_nonneg x).
  destruct (splice_is_Some x 0 (zeros (zlen x))) as [z Hz]; [lia|rewrite zeros_zlen; lia|].
  eexists _, _. split; [by eapply buf_splice_eq|]. do 2 f_equal.
  apply splice_Some in Hz as (_ & _ & ->). simpl. rewrite drop_ge; [by rewrite app_nil_r|].
  unfold zeros, zlen. rewrite length_replicate. lia.
Qed.

(** Writing a scratch buffer to a block. *)
Lemma write_from_wp b blk (w : W) l :
  mounted w → writable (e4 w) = true → 0 ≤ blk < blocks_count (e4 w) → bufget b w = Some l →
  wp (write_from b blk) (λ rc w', rc = 0 ∧ same_fs w w' ∧ mounted w' ∧
    (∀ b', bufget b' w' = bufget b' w) ∧
    ∀ k, 0 ≤ k → disk w' k = if decide (k = blk) then l else disk w k) w.
Proof.
  intros. destruct (write_from_spec dv ok sector b blk w l) as (w' & ? & ?); [done..|].
  by exists 0, w'.
Qed.

(** Block [idx] of group [g] is a block of the file system. *)
Definition block_in (e : ext4_fs) (g idx : Z) : Prop :=
  0 ≤ g < group_count e ∧ 0 ≤ idx < group_bits e g.

(** *** The order of the search

    A reference for the allocator: the blocks in the order it looks at them, for
    a table [u] of the blocks in use. *)
Definition search_order (e : ext4_fs) (hint : Z) : list (Z * Z) :=
  gi ← seqZ 0 (group_count e);
  let g := (hint + gi) mod group_count e in
  (g,.) <$> seqZ 0 (group_bits e g).

Definition first_free (e : ext4_fs) (u : Z → Z → bool) (hint : Z) : option (Z * Z) :=
  List.find (λ p, negb (u p.1 p.2)) (search_order e hint).

(** [u] with one block more. *)
Definition mark (u : Z → Z → bool) (g idx : Z) : Z → Z → bool :=
  λ g' idx', (bool_decide (g' = g ∧ idx' = idx) || u g' idx')%bool.

(** The blocks [n] requests get, the first one made for file block [fb]: the
    group to start from is that of the file block's number. *)
Fixpoint plan (e : ext4_fs) (u : Z → Z → bool) (fb : Z) (n : nat) : option (list Z) :=
  match n with
  | O => Some []
  | S n' =>
      '(g, idx) ← first_free e u (fb / blocks_per_group e);
      l ← plan e (mark u g idx) (fb + 1) n';
      Some (blk_of e g idx :: l)
  end.

Lemma find_middle {A} (f : A → bool) l1 x l2 :
  Forall (λ y, f y = false) l1 → f x = true → List.find f (l1 ++ x :: l2) = Some x.
Proof. induction 1 as [|y l1 Hy _ IH]; intros Hx; simpl; [by rewrite Hx|]. rewrite Hy. by apply IH. Qed.
Lemma seqZ_split n i : 0 ≤ i < n → seqZ 0 n = seqZ 0 i ++ i :: seqZ (i + 1) (n - i - 1).
Proof.
  intros Hi. replace n with (i + (n - i)) at 1 by lia. rewrite seqZ_app by lia. f_equal.
  rewrite Z.add_0_l, seqZ_cons by lia. do 2 f_equal; lia.
Qed.
Lemma elem_of_search e hint g idx :
  (g, idx) ∈ search_order e hint ↔
  ∃ gi, 0 ≤ gi < group_count e ∧ g = (hint + gi) mod group_count e ∧ 0 ≤ idx < group_bits e g.
Proof.
  unfold search_order. rewrite list_elem_of_bind. split.
  - intros (gi & Hin & Hgi). apply elem_of_seqZ in Hgi. apply list_elem_of_fmap in Hin as (i & [= -> ->] & Hi).
    apply elem_of_seqZ in Hi. exists gi. split_and!; lia.
  - intros (gi & Hgi & -> & Hi). exists gi. rewrite elem_of_seqZ. split; [|lia].
    apply list_elem_of_fmap. exists idx. split; [done|]. apply elem_of_seqZ. lia.
Qed.

Lemma first_free_at e u hint gi g idx :
  0 ≤ gi < group_count e → 0 ≤ idx < group_bits e g → g = (hint + gi) mod group_count e → u g idx = false →
  (∀ j i, 0 ≤ j < gi → 0 ≤ i < group_bits e ((hint + j) mod group_count e) →
    u ((hint + j) mod group_count e) i = true) →
  (∀ i, 0 ≤ i < idx → u g i = true) →
  first_free e u hint = Some (g, idx).
Proof.
  intros Hgi Hidx Hg Hu Hbefore Hbelow. unfold first_free, search_order.
  rewrite (seqZ_split (group_count e) gi) by done. rewrite bind_app, bind_cons. cbv zeta. rewrite <- Hg.
  rewrite (seqZ_split (group_bits e g) idx) by done. rewrite fmap_app, fmap_cons, <- app_assoc, app_assoc.
  apply find_middle; [|simpl; by rewrite Hu]. apply list.Forall_app. split; apply list.Forall_forall.
  - intros [g' i'] (j & Hin & Hj)%list_elem_of_bind. apply elem_of_seqZ in Hj.
    apply list_elem_of_fmap in Hin as (i & [= -> ->] & Hi). apply elem_of_seqZ in Hi. simpl.
    rewrite Hbefore by lia. done.
  - intros [g' i'] (i & [= -> ->] & Hi)%list_elem_of_fmap. apply elem_of_seqZ in Hi. simpl.
    by rewrite Hbelow by lia.
Qed.

Lemma first_free_none e u hint :
  (∀ g idx, block_in e g idx → u g idx = true) → first_free e u hint = None.
Proof.
  intros Hall. unfold first_free. destruct (List.find _ _) as [[g idx]|] eqn:E; [|done].
  apply List.find_some in E as [Hin Hu]. apply list_elem_of_In, elem_of_search in Hin as (gi & Hgi & -> & Hi).
  simpl in Hu. rewrite Hall in Hu; [done|]. split; [|done]. apply Z.mod_pos_bound. lia.
Qed.

(** A plan for [n] blocks is there as soon as [n] blocks are free. *)
Lemma first_free_some e u hint g idx :
  block_in e g idx → u g idx = false → is_Some (first_free e u hint).
Proof.
  intros [Hg Hi] Hu. unfold first_free. destruct (List.find _ _) as [p|] eqn:E; [by eexists|].
  assert (Hin : (g, idx) ∈ search_order e hint).
  { apply elem_of_search. exists ((g - hint) mod group_count e). split; [apply Z.mod_pos_bound; lia|].
    split; [|done]. rewrite Zplus_mod_idemp_r. replace (hint + (g - hint)) with g by lia. symmetry. by apply Z.mod_small. }
  apply list_elem_of_In in Hin. apply (List.find_none _ _ E) in Hin. simpl in Hin. by rewrite Hu in Hin.
Qed.
Lemma length_filter_ne {A} `{EqDecision A} (x : A) l :
  NoDup l → (length l ≤ S (length (filter (λ y, y ≠ x) l)))%nat.
Proof.
  induction 1 as [|y l Hy Hnd IH]; [simpl; lia|]. destruct (decide (y = x)) as [->|Hne].
  - rewrite filter_cons_False by naive_solver. simpl. apply le_n_S.
    assert (Hall : Forall (λ y, y ≠ x) l) by (apply list.Forall_forall; intros z Hz ->; done).
    clear -Hall. induction Hall as [|z l Hz _ IH]; [done|]. rewrite filter_cons_True by done. simpl. lia.
  - rewrite filter_cons_True by done. simpl. lia.
Qed.
Lemma plan_enough e n : ∀ u fb l,
  NoDup l → (n ≤ length l)%nat → (∀ g idx, (g, idx) ∈ l → block_in e g idx ∧ u g idx = false) →
  ∃ blks, plan e u fb n = Some blks ∧ length blks = n.
Proof.
  induction n as [|n IH]; intros u fb l Hnd Hlen Hl; [by exists []|]. cbn [plan].
  destruct l as [|[g0 i0] l0]; [simpl in Hlen; lia|].
  destruct (Hl g0 i0) as [Hb0 Hu0]; [left|].
  destruct (first_free_some e u (fb / blocks_per_group e) g0 i0 Hb0 Hu0) as [[g idx] E]. rewrite E.
  cbn [mbind option_bind]. pose proof (length_filter_ne (g, idx) _ Hnd) as Hf.
  destruct (IH (mark u g idx) (fb + 1) (filter (λ y, y ≠ (g, idx)) ((g0, i0) :: l0))) as (blks & -> & Hb).
  - by apply list.NoDup_filter.
  - simpl length in Hlen, Hf. lia.
  - intros g' i' [Hne Hin]%list_elem_of_filter. destruct (Hl _ _ Hin) as [? Hu]. split; [done|].
    unfold mark. rewrite bool_decide_eq_false_2 by naive_solver. done.
  - eexists. split; [reflexivity|]. simpl. lia.
Qed.

(** The reference only looks at the blocks of the file system, and at the
    geometry. *)
Lemma first_free_ext e u u' hint :
  (∀ g idx, block_in e g idx → u' g idx = u g idx) → first_free e u' hint = first_free e u hint.
Proof.
  intros Hu. unfold first_free.
  assert (Hl : Forall (λ p, u' p.1 p.2 = u p.1 p.2) (search_order e hint)).
  { apply list.Forall_forall. intros [g i] (gi & Hgi & -> & Hi)%elem_of_search. apply Hu. split; [|done].
    apply Z.mod_pos_bound. lia. }
  induction Hl as [|p l Hp _ IH]; [done|]. simpl. by rewrite Hp, IH.
Qed.
Lemma mark_ext e u u' g i :
  (∀ g idx, block_in e g idx → u' g idx = u g idx) →
  ∀ g' idx, block_in e g' idx → mark u' g i g' idx = mark u g i g' idx.
Proof. intros Hu g' idx Hb. unfold mark. by rewrite Hu. Qed.
Lemma plan_ext e n : ∀ u u' fb,
  (∀ g idx, block_in e g idx → u' g idx = u g idx) → plan e u' fb n = plan e u fb n.
Proof.
  induction n as [|n IH]; intros u u' fb Hu; [done|]. cbn [plan]. rewrite (first_free_ext _ u u') by done.
  destruct (first_free _ _ _) as [[g i]|]; [|done]. cbn [mbind option_bind].
  by rewrite (IH (mark u g i) (mark u' g i)) by (by apply mark_ext).
Qed.

Lemma group_bits_bounds e g :
  alloc_geom e → 0 ≤ g < group_count e →
  0 < group_bits e g ≤ blocks_per_group e ∧
  first_data_block e + g * blocks_per_group e + group_bits e g ≤ blocks_count e.
Proof.
  intros Hg Hgr. pose proof (ag_gc _ Hg). pose proof (ag_fdb _ Hg). pose proof (ag_blocks _ Hg).
  pose proof (ag_bpg _ Hg). pose proof (ag_small _ Hg). pose proof (ag_bs _ Hg).
  unfold group_bits. rewrite (u32_small (group_count e - 1)) by lia.
  destruct (Z.eqb_spec g (group_count e - 1)) as [->|Hne].
  - rewrite u64_small, u32_small by (rewrite ?u64_small; nia). nia.
  - nia.
Qed.

Lemma blk_of_bounds e g idx :
  alloc_geom e → block_in e g idx →
  blk_of e g idx = first_data_block e + g * blocks_per_group e + idx ∧
  0 ≤ blk_of e g idx < blocks_count e.
Proof.
  intros Hg [Hgr Hi]. pose proof (group_bits_bounds e g Hg Hgr). pose proof (ag_small _ Hg).
  pose proof (ag_fdb _ Hg). pose proof (ag_bpg _ Hg). unfold blk_of. rewrite u64_small by nia. nia.
Qed.

(** What allocating block [idx] of group [g] does to the disk: the new block
    is zeroed, the bit is set, the descriptor is rewritten. *)
Definition claimed (w w' : W) (g idx : Z) : Prop :=
  quiet w w' ∧ mounted w' ∧
  disk w' (blk_of (e4 w) g idx) = zeros (block_size (e4 w)) ∧
  (bitmap_of (e4 w) g ≠ blk_of (e4 w) g idx →
   ∀ j, 0 ≤ j → bit_at (disk w' (bitmap_of (e4 w) g)) j =
     ((j =? idx) || bit_at (disk w (bitmap_of (e4 w) g)) j)%bool) ∧
  ∀ k, 0 ≤ k → k ≠ blk_of (e4 w) g idx → k ≠ bitmap_of (e4 w) g → k ≠ gdt_block_of (e4 w) g →
    disk w' k = disk w k.

(** Bookkeeping after a bitmap in [S1] has changed: checksum, counters,
    descriptor, then the bitmap itself. *)
Definition commit_bitmap (g gd blk delta : Z) : M W Z :=
  e4_bitmap_checksum_set S1 false gd ;;
  adjust_free_blocks gd delta ;;
  let* _ := e4_sync_gd g in
  write_from S1 blk.

Lemma commit_bitmap_wp (w : W) g delta bm :
  mounted w → writable (e4 w) = true → alloc_geom (e4 w) → 0 ≤ g < group_count (e4 w) →
  bufget S1 w = Some bm →
  wp (commit_bitmap g (g * desc_size (e4 w)) (bitmap_of (e4 w) g) delta)
    (λ rc w', rc = 0 ∧ quiet w w' ∧ mounted w' ∧ disk w' (bitmap_of (e4 w) g) = bm ∧
      ∀ k, 0 ≤ k → k ≠ bitmap_of (e4 w) g → k ≠ gdt_block_of (e4 w) g → disk w' k = disk w k) w.
Proof.
  intros Hm Hw Hg Hgr Hbuf. pose proof (ag_bb _ Hg g Hgr) as Hbb.
  assert (Hlen : zlen bm = block_size (e4 w)).
  { destruct (m_buf _ _ _ Hm S1) as (l & Hl & ? & _). congruence. }
  unfold commit_bitmap. wp_apply (bitmap_checksum_wp w g S1 bm); [done..|]. intros ? w2 Hs2.
  pose proof Hs2 as ((Hg2 & _) & _). pose proof (alloc_geom_same _ _ Hg Hg2) as Hag2.
  pose proof (geom_same_fields _ _ Hg2) as (_&_&_&_&_&_&_&Hgc2&Hds2&_).
  rewrite <- Hds2. wp_apply (adjust_free_blocks_wp w2 g); [done|lia|]. intros ? w3 Hs3.
  pose proof (soft_trans _ _ _ Hs2 Hs3) as Hs13. pose proof (soft_mounted _ _ Hm Hs13) as Hm3.
  pose proof Hs13 as (Hq3 & _ & Hb3). pose proof Hq3 as (Hg3 & _).
  pose proof (geom_same_fields _ _ Hg3) as (Hbs3&_&_&Hwr3&Hbc3&Hfd3&_&Hgc3&Hds3&_).
  pose proof (alloc_geom_same _ _ Hg Hg3) as Hag3.
  wp_apply (sync_gd_wp w3 g); [done|congruence|done|lia|].
  intros ? w4 (_ & Hq4 & Hm4 & Hb4 & Hd4). pose proof Hq4 as (Hg4 & _).
  pose proof (geom_same_fields _ _ (geom_same_trans _ _ _ Hg3 Hg4)) as (_&_&_&Hwr4&Hbc4&_).
  assert (Hgdb : gdt_block_of (e4 w3) g = gdt_block_of (e4 w) g).
  { unfold gdt_block_of. by rewrite Hfd3, Hbs3, Hds3. }
  eapply wp_mono; [eapply (write_from_wp S1 _ w4 bm); [done|congruence|lia|by rewrite Hb4, Hb3]|].
  intros rc w5 (-> & Hs5 & Hm5 & _ & Hd5). split_and!; [done| |done| |].
  - apply (quiet_trans _ w3); [done|]. apply (quiet_trans _ w4); [done|].
    apply same_fs_quiet; [by eapply alloc_geom_same|done].
  - by rewrite Hd5, decide_True by (done || lia).
  - intros k Hk Hn2 Hn3. rewrite Hd5, decide_False by done.
    rewrite Hd4 by congruence. by apply soft_disk.
Qed.

Lemma claim_block_wp (w : W) g y b :
  mounted w → writable (e4 w) = true → alloc_geom (e4 w) → block_in (e4 w) g (y * 8 + b) →
  0 ≤ y → 0 ≤ b < 8 → bufget S1 w = Some (disk w (bitmap_of (e4 w) g)) →
  wp (claim_block g (g * desc_size (e4 w)) (bitmap_of (e4 w) g) y b)
    (λ r w', r = blk_of (e4 w) g (y * 8 + b) ∧ claimed w w' g (y * 8 + b)) w.
Proof.
  intros Hm Hw Hg Hin Hy Hb Hbuf. pose proof Hin as [Hgr Hidx].
  pose proof (group_bits_bounds _ _ Hg Hgr) as [Hgb _]. pose proof (ag_bpg _ Hg). pose proof (ag_bs _ Hg).
  pose proof (ag_bb _ Hg g Hgr) as Hbb. set (bb := bitmap_of (e4 w) g) in *.
  assert (Hlen : zlen (disk w bb) = block_size (e4 w)) by (by apply (disk_zlen dv ok sector)).
  destruct (blk_of_bounds _ _ _ Hg Hin) as [_ Hnb].
  unfold claim_block. wp_pure. rewrite (u32_small (y * 8 + b)) by lia.
  wp_apply (buf_ld1_wp S1 y w _ Hbuf); [lia|]. intros v ? [-> Hv].
  wp_apply (buf_st1_wp S1 y _ w _ Hbuf); [lia|]. intros ? ? (bm' & Hbm' & Hbl & ->).
  assert (Hby : bytes_ok bm') by (eapply st_bytes_ok; [exact (disk_bytes dv ok sector w bb Hm Hbb)|exact Hbm']).
  pose proof (mounted_bufset dv ok S1 bm' w Hm ltac:(lia) Hby) as Hm1.
  destruct (commit_bitmap_wp (bufset S1 (Some bm') w) g (-1) bm') as (rc & w5 & Hc & _ & Hq5 & Hm5 & Hd5 & Hk5);
    [done..|].
  unfold commit_bitmap in Hc.
  (* the four steps of the commit, then zeroing the new block *)
  apply bind_inv in Hc as ([] & wa & Ha & Hc). apply bind_inv in Hc as ([] & wb & Hb' & Hc).
  apply bind_inv in Hc as (r3 & wc & Hc' & Hd').
  apply wp_bind. exists tt, wa. split; [exact Ha|]. apply wp_bind. exists tt, wb. split; [exact Hb'|].
  apply wp_bind. exists r3, wc. split; [exact Hc'|]. apply wp_bind. exists rc, w5. split; [exact Hd'|].
  pose proof Hq5 as (Hg5 & _). pose proof (geom_same_fields _ _ Hg5) as (Hbs5&_&_&Hwr5&Hbc5&_).
  cbn [e4 bufset] in *.
  destruct (m_buf _ _ _ Hm5 S2) as (l2 & Hl2 & Hlen2 & _). rewrite Hbs5 in Hlen2. rewrite <- Hlen2.
  wp_apply (buf_zero_wp S2 w5 l2 Hl2). intros ? ? ->.
  wp_apply (write_from_wp S2 (blk_of (e4 w) g (y * 8 + b))); [|cbn; congruence|cbn; lia|done|].
  { apply (mounted_bufset dv ok); [done| |apply zeros_bytes]. rewrite zeros_zlen; lia. }
  intros ? w7 (_ & Hs7 & Hm7 & _ & Hd7). apply wp_ret. split; [done|]. rewrite Hlen2 in Hd7.
  split_and!; [|done| | |].
  - apply (quiet_trans _ w5); [exact Hq5|]. apply same_fs_quiet; [by eapply alloc_geom_same|].
    eapply same_fs_trans; [|exact Hs7]. apply same_fs_buf, same_fs_refl.
  - by rewrite Hd7, decide_True by lia.
  - intros Hne j Hj. rewrite Hd7, decide_False, bufset_disk by (done || lia). fold bb in Hd5 |- *.
    rewrite Hd5. eapply (set_bit_spec _ _ _ _ _ _ Hy Hb Hv Hj Hbm').
  - intros k Hk Hn1 Hn2 Hn3. rewrite Hd7, decide_False, bufset_disk by done.
    by rewrite Hk5 by done.
Qed.

(** Block [idx] of group [g] is in use according to the bitmap on the disk. *)
Definition in_use (w : W) (g idx : Z) : bool := bit_at (disk w (bitmap_of (e4 w) g)) idx.

(** Nothing happened but reads. *)
Definition only_read (w w' : W) : Prop :=
  same_fs w w' ∧ mounted w' ∧ ∀ k, 0 ≤ k → disk w' k = disk w k.

Lemma only_read_in_use w w' g idx :
  only_read w w' → 0 ≤ bitmap_of (e4 w) g → in_use w' g idx = in_use w g idx.
Proof. intros ((He & _) & _ & Hd) Hb. unfold in_use. rewrite He, Hd; done. Qed.

(** The search in one group. *)
Lemma alloc_group_wp (w : W) g bm :
  alloc_geom (e4 w) → 0 ≤ g < group_count (e4 w) → zlen bm = block_size (e4 w) →
  ∃ r, find_clear (Z.to_nat (u32 (group_bits (e4 w) g + 7) / 8)) bm 0 (group_bits (e4 w) g) = Some r ∧
    match r with
    | Some (y, b) => 0 ≤ y ∧ 0 ≤ b < 8 ∧ block_in (e4 w) g (y * 8 + b) ∧ bit_at bm (y * 8 + b) = false ∧
        ∀ i, 0 ≤ i < y * 8 + b → bit_at bm i = true
    | None => ∀ i, 0 ≤ i < group_bits (e4 w) g → bit_at bm i = true
    end.
Proof.
  intros Hg Hgr Hlen. pose proof (group_bits_bounds _ _ Hg Hgr) as [Hgb _].
  pose proof (ag_bpg _ Hg). pose proof (ag_bs _ Hg). rewrite u32_small by lia.
  edestruct (find_clear_spec bm (group_bits (e4 w) g) (Z.to_nat ((group_bits (e4 w) g + 7) / 8)) 0)
    as (r & Hr & Hs); [lia|rewrite Z2Nat.id by (apply Z.div_pos; lia); mod_lia..|].
  exists r. split; [done|]. destruct r as [[y b]|]; [|done].
  destruct Hs as (Hy & Hb & Hlt & Hc & Hall). split_and!; [lia|lia|lia|split; lia|done|].
  intros i Hi. apply Hall. lia.
Qed.

Lemma hint_group_covers gc hint g :
  0 < gc → 0 ≤ g < gc → 0 ≤ (g - hint) mod gc < gc ∧ (hint + (g - hint) mod gc) mod gc = g.
Proof.
  intros Hgc Hg. split; [by apply Z.mod_pos_bound|].
  rewrite Zplus_mod_idemp_r. replace (hint + (g - hint)) with g by lia. by apply Z.mod_small.
Qed.

Lemma alloc_first_wp (w : W) hint :
  mounted w → writable (e4 w) = true → alloc_geom (e4 w) → 0 ≤ hint < 2 ^ 31 →
  wp (e4_alloc_block_near hint) (λ r w',
    match r with
    | Some blk => ∃ g idx, first_free (e4 w) (in_use w) hint = Some (g, idx) ∧
        block_in (e4 w) g idx ∧ blk = blk_of (e4 w) g idx ∧
        in_use w g idx = false ∧ claimed w w' g idx
    | None => only_read w w' ∧ ∀ g idx, block_in (e4 w) g idx → in_use w g idx = true
    end) w.
Proof.
  intros Hm Hw Hg Hh. pose proof (ag_gc _ Hg) as Hgc. unfold e4_alloc_block_near. wp_pure. rewrite Hw.
  cbn [negb]. apply (wp_for (λ gi w', only_read w w' ∧
    ∀ j g idx, 0 ≤ j < gi → g = (hint + j) mod group_count (e4 w) → block_in (e4 w) g idx →
      in_use w g idx = true)).
  - split; [split; [apply same_fs_refl|by split]|lia].
  - intros w' [Hor Hall]. split; [done|]. intros g idx Hin. pose proof Hin as [Hgr _].
    destruct (hint_group_covers (group_count (e4 w)) hint g) as [Hj Heq]; [lia|done|].
    eapply Hall; [|symmetry; exact Heq|done]. rewrite Z2Nat.id by lia. lia.
  - intros gi w1 Hgi [Hor Hall]. pose proof Hor as ((He1 & _) & Hm1 & Hd1). rewrite Z2Nat.id in Hgi by lia.
    rewrite u32_small by lia. apply wp_bind, wp_umod; [lia|]. set (g := (hint + gi) mod group_count (e4 w)).
    assert (Hgr : 0 ≤ g < group_count (e4 w)) by (apply Z.mod_pos_bound; lia).
    wp_apply (load_bitmap_wp w1 g); [done|by rewrite He1|by rewrite He1|].
    rewrite He1. intros ? w2 (-> & Hs2 & Hm2 & Hb2 & Hd2).
    assert (Hor2 : only_read w w2).
    { split; [by eapply same_fs_trans, Hs2; apply Hor|]. split; [done|]. intros. by rewrite Hd2, Hd1. }
    pose proof (ag_bb _ Hg g Hgr) as Hbb. rewrite Hd1 in Hb2 by lia.
    assert (Hlen : zlen (disk w (bitmap_of (e4 w) g)) = block_size (e4 w))
      by (by apply (disk_zlen dv ok sector)).
    destruct (alloc_group_wp w g _ Hg Hgr Hlen) as (r & Hr & Hspec). pose proof Hor2 as ((He2 & _) & _).
    wp_pure. apply wp_bind. eapply wp_lift; [cbn [bufget] in Hb2; rewrite Hb2; exact Hr|].
    destruct r as [[y b]|].
    + destruct Hspec as (Hy & Hb & Hin & Hclear & Hbelow).
      assert (Hff : first_free (e4 w) (in_use w) hint = Some (g, y * 8 + b)).
      { apply (first_free_at _ _ _ gi); [lia|apply Hin|done|exact Hclear| |exact Hbelow].
        intros j idx Hj Hidx. eapply Hall; [exact Hj|reflexivity|]. split; [apply Z.mod_pos_bound; lia|done]. }
      rewrite <- He2. wp_apply (claim_block_wp w2 g y b); rewrite ?He2; try done.
      { by rewrite Hb2, Hd2, Hd1 by lia. }
      intros ? w3 [-> Hcl]. apply wp_ret. exists g, (y * 8 + b). split; [done|]. split_and!; try done.
      destruct Hor2 as ((_ & Hrest) & _ & Hdd). unfold claimed in *. rewrite He2 in Hcl.
      rewrite !Hdd in Hcl by lia. destruct Hcl as ((Hq & Hq') & ? & ? & ? & Hk).
      split_and!; try done; [|intros; rewrite Hk, Hdd; done].
      split; [by rewrite <- He2|]. destruct Hrest as (?&?&?&?&?), Hq' as (?&?&?&?&?).
      repeat split; congruence.
    + apply wp_ret. split; [done|]. intros j g' idx Hj -> Hin.
      destruct (decide (j = gi)) as [->|]; [|eapply Hall; [|done|done]; lia].
      apply Hspec. apply Hin.
Qed.

Lemma alloc_block_wp (w : W) hint :
  mounted w → writable (e4 w) = true → alloc_geom (e4 w) → 0 ≤ hint < 2 ^ 31 →
  wp (e4_alloc_block_near hint) (λ r w',
    match r with
    | Some blk => ∃ g idx, block_in (e4 w) g idx ∧ blk = blk_of (e4 w) g idx ∧
        in_use w g idx = false ∧ claimed w w' g idx
    | None => only_read w w' ∧ ∀ g idx, block_in (e4 w) g idx → in_use w g idx = true
    end) w.
Proof.
  intros Hm Hw Hg Hh. eapply wp_mono; [by apply alloc_first_wp|].
  intros [blk|] w'; [|done]. intros (g & idx & _ & ?). by exists g, idx.
Qed.

Lemma shiftr3 i : Z.shiftr i 3 = i / 8.
Proof. by rewrite Z.shiftr_div_pow2. Qed.

(** What freeing block [idx] of group [g] does to the disk. *)
Definition released (w w' : W) (g idx : Z) : Prop :=
  quiet w w' ∧ mounted w' ∧
  (∀ j, 0 ≤ j → bit_at (disk w' (bitmap_of (e4 w) g)) j = (negb (j =? idx) && in_use w g j)%bool) ∧
  ∀ k, 0 ≤ k → k ≠ bitmap_of (e4 w) g → k ≠ gdt_block_of (e4 w) g → disk w' k = disk w k.

Lemma free_block_wp (w : W) g idx :
  mounted w → writable (e4 w) = true → alloc_geom (e4 w) → block_in (e4 w) g idx →
  wp (e4_free_block (blk_of (e4 w) g idx)) (λ rc w',
    if in_use w g idx then rc = 0 ∧ released w w' g idx else rc = -1 ∧ only_read w w') w.
Proof.
  intros Hm Hw Hg Hin. pose proof Hin as [Hgr Hidx]. destruct (blk_of_bounds _ _ _ Hg Hin) as [Hblk Hrange].
  pose proof (group_bits_bounds _ _ Hg Hgr) as [Hgb _]. pose proof (ag_bpg _ Hg). pose proof (ag_bs _ Hg).
  pose proof (ag_fdb _ Hg). pose proof (ag_gc _ Hg). pose proof (ag_bb _ Hg g Hgr) as Hbb.
  unfold e4_free_block. wp_pure. rewrite Hw, Hblk.
  rewrite (proj2 (Z.ltb_ge _ (first_data_block _))), (proj2 (Z.leb_gt (blocks_count _) _)) by nia.
  cbn [negb orb]. apply wp_bind, wp_udiv; [lia|]. apply wp_bind, wp_umod; [lia|].
  replace (first_data_block (e4 w) + g * blocks_per_group (e4 w) + idx - first_data_block (e4 w))
    with (g * blocks_per_group (e4 w) + idx) by lia.
  rewrite Z.div_add_l, Z.div_small, Z.add_0_r, u32_small by lia.
  rewrite (Z.add_comm (g * _)), Z_mod_plus_full, Z.mod_small by lia. wp_pure.
  wp_apply (load_bitmap_wp w g); [done..|]. intros ? w2 (-> & Hs2 & Hm2 & Hb2 & Hd2).
  pose proof Hs2 as (He2 & _). rewrite shiftr3.
  assert (Hlen : zlen (disk w (bitmap_of (e4 w) g)) = block_size (e4 w)) by (by apply (disk_zlen dv ok sector)).
  assert (Hy : 0 ≤ idx / 8 < block_size (e4 w)) by mod_lia.
  wp_apply (buf_ld1_wp S1 (idx / 8) w2 _ Hb2); [lia|]. intros v ? [-> Hv].
  pose proof (Z.mod_pos_bound idx 8 ltac:(lia)) as Hmb.
  assert (Hbit : has v (bit_mask idx) = in_use w g idx).
  { rewrite bit_mask_eq, has_shiftl by lia. unfold in_use, bit_at. by rewrite Hv. }
  rewrite Hbit. destruct (in_use w g idx) eqn:Eu; cbn [negb]; [|by apply wp_ret].
  rewrite bit_mask_eq. wp_apply (buf_st1_wp S1 (idx / 8) _ w2 _ Hb2); [lia|].
  intros ? ? (bm' & Hbm' & Hbl & ->).
  assert (Hby : bytes_ok bm') by (eapply st_bytes_ok; [exact (disk_bytes dv ok sector w _ Hm (ag_bb _ Hg g Hgr))|exact Hbm']).
  pose proof (mounted_bufset dv ok S1 bm' w2 Hm2 ltac:(rewrite He2; lia) Hby) as Hm3.
  set (w3 := bufset S1 (Some bm') w2) in *. assert (He3 : e4 w3 = e4 w) by exact He2.
  pose proof (commit_bitmap_wp w3 g 1 bm') as Hc. rewrite He3 in Hc. eapply wp_mono; [apply Hc; done|].
  intros rc w5 (-> & Hq5 & Hm5 & Hd5 & Hk5). split; [done|]. split_and!; [|done| |].
  - eapply quiet_trans; [|exact Hq5]. apply same_fs_quiet; [done|]. eapply same_fs_trans; [exact Hs2|].
    apply (same_fs_buf _ _ S1), same_fs_refl.
  - intros j Hj. rewrite Hd5. rewrite (clear_bit_spec _ _ _ _ _ _ (proj1 Hy) Hmb Hv Hj Hbm').
    f_equal. do 2 f_equal. mod_lia.
  - intros k Hk Hn1 Hn2. rewrite Hk5 by done. by apply Hd2.
Qed.

(** ** The allocator as a set of used blocks *)

(** Blocks that hold bitmaps and descriptors. *)
Definition is_meta (e : ext4_fs) (k : Z) : Prop :=
  ∃ g, 0 ≤ g < group_count e ∧ (k = bitmap_of e g ∨ k = gdt_block_of e g).

(** The metadata blocks of different groups do not overlap. *)
Definition meta_disjoint (e : ext4_fs) : Prop :=
  ∀ g g', 0 ≤ g < group_count e → 0 ≤ g' < group_count e →
    (bitmap_of e g = bitmap_of e g' → g = g') ∧ bitmap_of e g ≠ gdt_block_of e g'.

Definition used (w : W) (k : Z) : Prop :=
  ∃ g idx, block_in (e4 w) g idx ∧ k = blk_of (e4 w) g idx ∧ in_use w g idx = true.
Definition free (w : W) (k : Z) : Prop :=
  ∃ g idx, block_in (e4 w) g idx ∧ k = blk_of (e4 w) g idx ∧ in_use w g idx = false.

(** The allocator's invariant: a working mounted file system in which no
    metadata block is free. *)
Record alloc_inv (w : W) : Prop := {
  ai_mounted : mounted w;
  ai_writable : writable (e4 w) = true;
  ai_geom : alloc_geom (e4 w);
  ai_disjoint : meta_disjoint (e4 w);
  ai_meta : ∀ k, free w k → ¬ is_meta (e4 w) k;
}.

Lemma blk_of_inj e g idx g' idx' :
  alloc_geom e → block_in e g idx → block_in e g' idx' → blk_of e g idx = blk_of e g' idx' →
  g = g' ∧ idx = idx'.
Proof.
  intros Hg Hb Hb' Heq. destruct (blk_of_bounds _ _ _ Hg Hb) as [E1 _], (blk_of_bounds _ _ _ Hg Hb') as [E2 _].
  destruct Hb as [Hgr Hi], Hb' as [Hgr' Hi']. pose proof (group_bits_bounds _ _ Hg Hgr).
  pose proof (group_bits_bounds _ _ Hg Hgr'). assert (g = g') as -> by nia. lia.
Qed.

Lemma geom_same_blk e e' :
  alloc_geom e → geom_same e e' →
  (∀ g idx, blk_of e' g idx = blk_of e g idx) ∧ (∀ g idx, block_in e' g idx ↔ block_in e g idx) ∧
  (∀ g, 0 ≤ g < group_count e → bitmap_of e' g = bitmap_of e g) ∧
  (∀ g, gdt_block_of e' g = gdt_block_of e g) ∧ (∀ k, is_meta e' k ↔ is_meta e k).
Proof.
  intros Hg Hs. pose proof (geom_same_fields _ _ Hs) as (Hbs&_&_&_&Hbc&Hfdb&Hbpg&Hgc&Hds&_).
  assert (Hbm : ∀ g, 0 ≤ g < group_count e → bitmap_of e' g = bitmap_of e g)
    by (intros; by apply bitmap_of_same).
  assert (Hgd : ∀ g, gdt_block_of e' g = gdt_block_of e g)
    by (intros; unfold gdt_block_of; by rewrite Hfdb, Hbs, Hds).
  split_and!; [|..|done|done|].
  - intros g idx. unfold blk_of. by rewrite Hfdb, Hbpg.
  - intros g idx. unfold block_in, group_bits. by rewrite Hgc, Hbc, Hfdb, Hbpg.
  - intros k. unfold is_meta. rewrite Hgc. split; intros (g & Hgr & [Hk|Hk]); exists g; split; try done;
      rewrite ?Hbm, ?Hgd in * by done; tauto.
Qed.

Lemma plan_same e e' n : ∀ u fb,
  alloc_geom e → geom_same e e' → plan e' u fb n = plan e u fb n.
Proof.
  induction n as [|n IH]; intros u fb Hg Hs; [done|]. cbn [plan].
  pose proof (geom_same_fields _ _ Hs) as (_&_&_&_&Hbc&Hfdb&Hbpg&Hgc&_).
  assert (Hff : ∀ h, first_free e' u h = first_free e u h).
  { intros h. unfold first_free, search_order, group_bits. by rewrite Hgc, Hbc, Hfdb, Hbpg. }
  rewrite Hff, Hbpg. destruct (first_free _ _ _) as [[g i]|]; [|done]. cbn [mbind option_bind].
  rewrite IH by done. unfold blk_of. by rewrite Hfdb, Hbpg.
Qed.

(** A change of the mount state that keeps the geometry and the bitmaps keeps
    the set of used blocks. *)
Lemma in_use_frame w w' :
  alloc_geom (e4 w) → geom_same (e4 w) (e4 w') →
  (∀ g, 0 ≤ g < group_count (e4 w) → disk w' (bitmap_of (e4 w) g) = disk w (bitmap_of (e4 w) g)) →
  ∀ g idx, block_in (e4 w) g idx → in_use w' g idx = in_use w g idx.
Proof.
  intros Hg Hs Hd g idx [Hgr _]. unfold in_use.
  rewrite (bitmap_of_same _ _ _ Hg Hs Hgr). by rewrite Hd.
Qed.

(** The set changes by [claimed] exactly in the block allocated. *)
Lemma claimed_in_use w w' g idx g' idx' :
  alloc_inv w → block_in (e4 w) g idx → in_use w g idx = false → claimed w w' g idx →
  block_in (e4 w) g' idx' →
  in_use w' g' idx' = (bool_decide (g' = g ∧ idx' = idx) || in_use w g' idx')%bool.
Proof.
  intros Hi Hb Hf ((Hg & _) & _ & _ & Hbits & Hk) Hb'. pose proof (ai_geom _ Hi) as Hag.
  assert (Hnm : ¬ is_meta (e4 w) (blk_of (e4 w) g idx)) by (apply (ai_meta _ Hi); by exists g, idx).
  pose proof Hb as [Hgr _]. pose proof Hb' as [Hgr' Hidx']. unfold in_use.
  rewrite (bitmap_of_same _ _ _ Hag Hg Hgr'). destruct (decide (g' = g)) as [->|Hne].
  - rewrite Hbits; [|intros Heq; apply Hnm; exists g; auto|lia].
    f_equal. apply eq_true_iff_eq. rewrite Z.eqb_eq, bool_decide_eq_true. tauto.
  - rewrite bool_decide_eq_false_2 by tauto. cbn [orb]. f_equal.
    pose proof (ag_bb _ Hag g' Hgr'). destruct (ai_disjoint _ Hi g' g Hgr' Hgr) as [Hinj Hgd].
    apply Hk; [lia|intros Heq; apply Hnm; exists g'; auto|naive_solver|done].
Qed.

Lemma alloc_inv_frame w w' :
  alloc_inv w → quiet w w' → mounted w' → (∀ k, free w' k → free w k) → alloc_inv w'.
Proof.
  intros Hi (Hg & _) Hm' Hf. pose proof (ai_geom _ Hi) as Hag.
  destruct (geom_same_blk _ _ Hag Hg) as (_ & _ & Hbm & Hgd & Hmeta).
  pose proof (geom_same_fields _ _ Hg) as (_&_&_&Hwr&_&_&_&Hgc&_). split; [done| | | |].
  - rewrite Hwr. apply Hi.
  - by eapply alloc_geom_same.
  - intros g g' Hgr Hgr'. rewrite Hgc in *. rewrite !Hbm, Hgd by done. by apply (ai_disjoint _ Hi).
  - intros k Hk. rewrite Hmeta. by apply (ai_meta _ Hi), Hf.
Qed.

(** One allocation against the set of used blocks. *)
Definition allocated (w w' : W) (blk : Z) : Prop :=
  alloc_inv w' ∧ quiet w w' ∧ free w blk ∧ 0 ≤ blk < blocks_count (e4 w) ∧
  (∀ k, used w' k ↔ used w k ∨ k = blk) ∧ (∀ k, free w' k ↔ free w k ∧ k ≠ blk) ∧
  disk w' blk = zeros (block_size (e4 w)) ∧
  ∀ k, 0 ≤ k → k ≠ blk → ¬ is_meta (e4 w) k → disk w' k = disk w k.

Lemma claimed_allocated w w' g idx :
  alloc_inv w → block_in (e4 w) g idx → in_use w g idx = false → claimed w w' g idx →
  allocated w w' (blk_of (e4 w) g idx).
Proof.
  intros Hi Hb Hf Hcl. pose proof (ai_geom _ Hi) as Hag. pose proof Hcl as (Hq & Hm & Hz & _ & Hk).
  pose proof Hq as (Hg & _). destruct (geom_same_blk _ _ Hag Hg) as (Hblk & Hbin & _ & _ & _).
  assert (Hfree : ∀ k, free w' k ↔ free w k ∧ k ≠ blk_of (e4 w) g idx).
  { intros k. unfold free. setoid_rewrite Hblk. setoid_rewrite Hbin. split.
    - intros (g' & i' & Hb' & -> & Hu). rewrite (claimed_in_use _ _ _ _ _ _ Hi Hb Hf Hcl Hb') in Hu.
      apply orb_false_iff in Hu as [Hne Hu]. apply bool_decide_eq_false in Hne. split; [by exists g', i'|].
      intros Heq. apply Hne. by eapply blk_of_inj.
    - intros [(g' & i' & Hb' & -> & Hu) Hne]. exists g', i'. split_and!; [done|done|].
      rewrite (claimed_in_use _ _ _ _ _ _ Hi Hb Hf Hcl Hb'), Hu, orb_false_r.
      apply bool_decide_eq_false. naive_solver. }
  split_and!; [|done|by exists g, idx|by eapply blk_of_bounds|by eapply blk_of_bounds| |done|done|].
  - eapply alloc_inv_frame; [done|done|done|]. intros k Hk'. by apply Hfree.
  - intros k. unfold used. setoid_rewrite Hblk. setoid_rewrite Hbin. split.
    + intros (g' & i' & Hb' & -> & Hu). rewrite (claimed_in_use _ _ _ _ _ _ Hi Hb Hf Hcl Hb') in Hu.
      apply orb_true_iff in Hu as [Heq|Hu]; [|left; by exists g', i'].
      apply bool_decide_eq_true in Heq as [-> ->]. by right.
    + intros [(g' & i' & Hb' & -> & Hu)| ->].
      * exists g', i'. split_and!; [done|done|].
        by rewrite (claimed_in_use _ _ _ _ _ _ Hi Hb Hf Hcl Hb'), Hu, orb_true_r.
      * exists g, idx. split_and!; [done|done|].
        rewrite (claimed_in_use _ _ _ _ _ _ Hi Hb Hf Hcl Hb). by rewrite bool_decide_eq_true_2.
  - intros k Hk0 Hne Hnm. apply Hk; [done|done| |]; intros ->; apply Hnm; exists g; split; (apply Hb || auto).
Qed.

(** ... and against the reference: the block is the first free one in the
    order of the search. *)
Lemma alloc_used_wp (w : W) hint :
  alloc_inv w → 0 ≤ hint < 2 ^ 31 →
  wp (e4_alloc_block_near hint) (λ r w',
    match first_free (e4 w) (in_use w) hint with
    | Some (g, idx) => r = Some (blk_of (e4 w) g idx) ∧ allocated w w' (blk_of (e4 w) g idx) ∧
        ∀ g' idx', block_in (e4 w) g' idx' → in_use w' g' idx' = mark (in_use w) g idx g' idx'
    | None => r = None ∧ only_read w w' ∧ ∀ k, ¬ free w k
    end) w.
Proof.
  intros Hi Hh. eapply wp_mono; [apply alloc_first_wp; [apply Hi..|done]|].
  intros [blk|] w'; cbv beta.
  - intros (g & idx & -> & Hb & -> & Hf & Hcl). split; [done|]. split; [by apply claimed_allocated|].
    intros g' idx' Hb'. by apply claimed_in_use.
  - intros [Hor Hall]. rewrite first_free_none by done. split; [done|]. split; [done|].
    intros k (g & idx & Hb & _ & Hf). by rewrite Hall in Hf.
Qed.

(** C4: [e4_alloc_block_near] on a working disk. It returns a block whose bit
    was clear in its group's bitmap; afterwards that bit is set and the block
    reads as zeros, and apart from the bitmap and the descriptor block of that
    group nothing else on the disk has changed. It fails only when every
    block of every group is in use, and then it has written nothing. *)
Theorem e4_alloc_block_near_spec (w : W) hint :
  mounted w → writable (e4 w) = true → alloc_geom (e4 w) → 0 ≤ hint < 2 ^ 31 →
  ∃ r w', e4_alloc_block_near hint w = Some (r, w') ∧
    match r with
    | Some blk => ∃ g idx, block_in (e4 w) g idx ∧ blk = blk_of (e4 w) g idx ∧
        in_use w g idx = false ∧ claimed w w' g idx
    | None => only_read w w' ∧ ∀ g idx, block_in (e4 w) g idx → in_use w g idx = true
    end.
Proof. apply alloc_block_wp. Qed.

(** C5: [e4_free_block] of a block in use returns 0 and clears exactly the
    bit of that block; of a block that is already free it returns -1 and
    writes nothing. *)
Theorem e4_free_block_spec (w : W) g idx :
  mounted w → writable (e4 w) = true → alloc_geom (e4 w) → block_in (e4 w) g idx →
  ∃ rc w', e4_free_block (blk_of (e4 w) g idx) w = Some (rc, w') ∧
    if in_use w g idx then rc = 0 ∧ released w w' g idx else rc = -1 ∧ only_read w w'.
Proof. apply free_block_wp. Qed.
End alloc_proofs.

(** ** Concrete runs *)

Lemma demo_geom : alloc_geom demo_e4.
Proof.
  split; simpl; try lia; try done.
  - exists demo_gdt. split; [done|]. split; [done|by apply bytes_dec].
  - intros g Hg. assert (g = 0) as -> by lia. reflexivity.
  - intros g Hg. assert (g = 0) as -> by lia. vm_compute. split; [discriminate|reflexivity].
Qed.

Lemma e4_alloc_block_near_spec_witness :
  let w := demo_world (zeros 16384) in
  ∃ r w', e4_alloc_block_near 0 w = Some (r, w') ∧
    match r with
    | Some blk => ∃ g idx, block_in (e4 w) g idx ∧ blk = blk_of (e4 w) g idx ∧
        in_use ram_sector w g idx = false ∧
        claimed (ram_disk 32) (ram_ok 32) ram_sector w w' g idx
    | None => only_read (ram_disk 32) (ram_ok 32) ram_sector w w' ∧
        ∀ g idx, block_in (e4 w) g idx → in_use ram_sector w g idx = true
    end.
Proof.
  apply (e4_alloc_block_near_spec (ram_disk 32) (ram_ok 32) ram_sector).
  - apply demo_mounted; [by apply zeros_zlen|apply zeros_bytes].
  - reflexivity.
  - exact demo_geom.
  - lia.
Defined.

Lemma e4_free_block_spec_witness :
  let w := demo_world (replicate 16384 0x0F) in
  in_use ram_sector w 0 3 = true ∧
  ∃ rc w', e4_free_block (blk_of (e4 w) 0 3) w = Some (rc, w') ∧
    if in_use ram_sector w 0 3
    then rc = 0 ∧ released (ram_disk 32) (ram_ok 32) ram_sector w w' 0 3
    else rc = -1 ∧ only_read (ram_disk 32) (ram_ok 32) ram_sector w w'.
Proof.
  split; [vm_compute; reflexivity|].
  apply (e4_free_block_spec (ram_disk 32) (ram_ok 32) ram_sector).
  - apply demo_mounted; [vm_compute; reflexivity|by apply Forall_replicate].
  - reflexivity.
  - exact demo_geom.
  - split; vm_compute; split; (discriminate || reflexivity).
Defined.

(** The run itself: the first block of the only group is allocated. *)
Example alloc_demo : fst <$> e4_alloc_block_near 0 (demo_world (zeros 16384)) = Some (Some 1).
Proof. vm_compute. reflexivity. Qed.
