(* ===== verification/Ext4Dir.v ===== *)
(** * fs/ext4_fsops.c: extent-tree construction, truncation, directories *)
From S2P Require Import Prelude KString Csum Blkdev Alloc Ext4Disk Ext4Core Ext4Map Ext4Alloc.

Record run := Run { r_start : Z; r_first : Z; r_count : Z }.

Definition ROOT_MAX_ENTRIES : Z := 4.
Definition EXT4_NAME_MAX : Z := 255.

Section fsops.
Context {D H : Type} `{Allocator H}.
#[local] Abbreviation W := (world D H).

(** [s] starts at the component; the check of its first [len] bytes. *)
Definition path_component_ok (s : list Z) (len : Z) : option bool :=
  if (len =? 0) || (EXT4_NAME_MAX <? len) then Some false
  else
    c ← s !! 0%nat;
    if c =? 47 then Some false
    else l ← slice s 0 len; Some (forallb truthy l).

Definition add_iblocks (e : ext4_fs) (delta_bytes : Z) (inode : list Z) : list Z :=
  let sectors := Z.quot delta_bytes 512 in
  let cur := fget 4 inode in_blocks_lo in
  let cur := if 128 <? inode_size e
             then Z.lor cur (Z.shiftl (fget 2 inode in_osd2_blocks_hi) 32) else cur in
  let cur := Z.max 0 (cur + sectors) in
  let inode := fset 4 in_blocks_lo (u32 cur) inode in
  if 128 <? inode_size e then fset 2 in_osd2_blocks_hi (u16 (Z.shiftr cur 32)) inode else inode.

(** ** Extent-tree building *)

Definition leaf_max (e : ext4_fs) : Z := u32 (block_size e - 12 - if meta_csum e then 4 else 0) / 12.

Definition leaf_capacity (e : ext4_fs) : Z := if truthy (leaf_max e) then leaf_max e else 1.

Definition run_len (r : run) : Z := u16 (if r_count r =? 32768 then 32767 else r_count r).

(** [ex[i] = ...] for the entry at offset [o] of [b]. *)
Definition put_ex (b : list Z) (o : Z) (r : run) : option (list Z) :=
  b ← st32 b (o + ex_first_block) (r_first r);
  b ← st16 b (o + ex_count) (run_len r);
  b ← st32 b (o + ex_start_lo) (u32 (r_start r));
  st16 b (o + ex_start_hi) (u16 (Z.shiftr (r_start r) 32)).

Fixpoint put_runs (b : list Z) (o : Z) (rs : list run) : option (list Z) :=
  match rs with
  | [] => Some b
  | r :: rs' => b ← put_ex b o r; put_runs b (o + 12) rs'
  end.

(** The header of a node at offset [o] of [b]. *)
Definition put_header (b : list Z) (o entries max depth : Z) : option (list Z) :=
  b ← st16 b (o + eh_magic) 0xF30A;
  b ← st16 b (o + eh_entries) (u16 entries);
  b ← st16 b (o + eh_max) (u16 max);
  b ← st16 b (o + eh_depth) depth;
  st32 b (o + eh_generation) 0.

Definition buf_mod (b : sbuf) (f : list Z → option (list Z)) : M W unit :=
  let* v := gets (bufget b) in
  let* v' := lift (o ← v; f o) in
  modify (bufset b (Some v')).

Definition write_leaf (ino : Z) (runs : list run) (from n : Z) : M W (option Z) :=
  let* e := gets e4 in
  let* a := e4_alloc_block_near 0 in
  match a with
  | None => ret None
  | Some blk =>
      buf_zero e4_block_buf (block_size e) ;;
      buf_mod e4_block_buf (λ b, put_header b 0 n (leaf_max e) 0) ;;
      buf_mod e4_block_buf (λ b, put_runs b 12 (take (Z.to_nat n) (drop (Z.to_nat from) runs))) ;;
      e4_extent_block_checksum_set ino e4_block_buf ;;
      try write_from e4_block_buf blk else None in
      ret (Some blk)
  end.

(** [for (l = 0; l < leaves; l++)]: the leaf blocks, [None] when a leaf could not
    be written, and the inode with the sectors of those written added. *)
Fixpoint write_leaves (k : nat) (ino : Z) (runs : list run) (n cap written : Z) (inode : list Z)
    : M W (option (list Z) * list Z) :=
  match k with
  | O => ret (Some [], inode)
  | S k' =>
      let* e := gets e4 in
      let here := if n - written <? cap then n - written else cap in
      let* b := write_leaf ino runs written here in
      match b with
      | None => ret (None, inode)
      | Some blk =>
          let* e := gets e4 in
          let* (r, inode) := write_leaves k' ino runs n cap (written + here)
                               (add_iblocks e (block_size e) inode) in
          ret (cons blk <$> r, inode)
      end
  end.

(** The index entries of the root, from offset [o] of the inode. *)
Fixpoint put_idx (b : list Z) (o : Z) (runs : list run) (n cap written : Z) (blks : list Z)
    : option (list Z) :=
  match blks with
  | [] => Some b
  | blk :: r =>
      rn ← runs !! Z.to_nat written;
      b ← st32 b (o + ix_first_block) (r_first rn);
      b ← st32 b (o + ix_leaf_lo) (u32 blk);
      b ← st16 b (o + ix_leaf_hi) (u16 (Z.shiftr blk 32));
      b ← st16 b (o + ix_unused) 0;
      put_idx b (o + 12) runs n cap (written + if n - written <? cap then n - written else cap) r
  end.

(** Return code and the new inode. *)
Definition build_tree (ino : Z) (runs : list run) (inode : list Z) : M W (Z * list Z) :=
  let* e := gets e4 in
  let n := zlen runs in
  if n <=? ROOT_MAX_ENTRIES then
    let* inode := lift (put_header inode in_u n ROOT_MAX_ENTRIES 0) in
    let* inode := lift (put_runs inode (in_u + 12) runs) in
    ret (0, inode)
  else
    let cap := leaf_capacity e in
    let leaves := (n + cap - 1) / cap in
    if ROOT_MAX_ENTRIES <? leaves then ret (-1, inode)
    else
      let* (r, inode) := write_leaves (Z.to_nat leaves) ino runs n cap 0 inode in
      match r with
      | None => ret (-1, inode)
      | Some blks =>
          let* inode := lift (put_header inode in_u leaves ROOT_MAX_ENTRIES 1) in
          let* inode := lift (put_idx inode (in_u + 12) runs n cap 0 blks) in
          ret (0, inode)
      end.

(** [runs] extended with block [blk] for file block [fb]. *)
Definition add_run (runs : list run) (blk fb : Z) : list run :=
  match list.last runs with
  | Some r =>
      if (u64 (r_start r + r_count r) =? blk) && (u32 (r_first r + r_count r) =? fb)
      then removelast runs ++ [Run (r_start r) (r_first r) (u32 (r_count r + 1))]
      else runs ++ [Run blk (u32 fb) 1]
  | None => [Run blk (u32 fb) 1]
  end.

(** [while (done < count)]; the runs, or [None] for [goto out] with -1. *)
Fixpoint append_loop (k : nat) (start_file_block done : Z) (data : option (list Z))
    (runs : list run) : M W (option (list run)) :=
  match k with
  | O => ret (Some runs)
  | S k' =>
      let* e := gets e4 in
      let* q := udiv (u64 (start_file_block + done)) (blocks_per_group e) in
      let* a := e4_alloc_block_near (u32 q) in
      match a with
      | None => ret None
      | Some blk =>
          match data with
          | Some d =>
              let* l := lift (slice d (done * block_size e) (block_size e)) in
              buf_splice e4_block_buf2 0 l
          | None => buf_zero e4_block_buf2 (block_size e)
          end ;;
          try write_from e4_block_buf2 blk else None in
          append_loop k' start_file_block (done + 1) data
            (add_run runs blk (u64 (start_file_block + done)))
      end
  end.

Definition e4_append_blocks (inode : list Z) (ino start_file_block count : Z)
    (data : option (list Z)) : M W (Z * list Z) :=
  let* p := kzalloc (u32 (16 * u32 (count + 1))) in
  match p with
  | None => ret (-1, inode)
  | Some _ =>
      let* rs := append_loop (Z.to_nat count) start_file_block 0 data [] in
      let* (rc, inode) :=
        match rs with
        | None => ret (-1, inode)
        | Some runs =>
            let* (rc, inode) := build_tree ino runs inode in
            let* e := gets e4 in
            ret (rc, if truthy rc then inode else add_iblocks e (count * block_size e) inode)
        end in
      kfree p ;;
      ret (rc, inode)
  end.

(** ** Truncation *)

(** [for (j = 0; j < cnt; j++) e4_free_block(start + j)]. *)
Definition free_range (start : Z) (cnt : nat) : M W unit :=
  let* _ := for_ 0 cnt (λ j,
    let* _ := e4_free_block (u64 (start + j)) in ret (@None unit)) in
  ret tt.

Fixpoint free_root_extents (n : nat) (inode : list Z) (i freed : Z) : M W Z :=
  match n with
  | O => ret freed
  | S n' =>
      let* (_, count, start) := lift (ex_at inode in_u i) in
      if 32768 <=? count then free_root_extents n' inode (i + 1) freed
      else
        free_range start (Z.to_nat count) ;;
        free_root_extents n' inode (i + 1) (freed + count)
  end.

Definition free_root_leaves (n : nat) (inode : list Z) : M W unit :=
  let* _ := for_ 0 n (λ i,
    let o := in_u + 12 + 12 * i in
    let* lo := lift (ld32 inode (o + ix_leaf_lo)) in
    let* hi := lift (ld16 inode (o + ix_leaf_hi)) in
    let lb := Z.lor lo (Z.shiftl hi 32) in
    (if truthy lb then let* _ := e4_free_block lb in ret tt else ret tt) ;;
    ret (@None unit)) in
  ret tt.

Definition free_extent_tree (inode : list Z) : M W (list Z) :=
  let* e := gets e4 in
  let entries := fget 2 inode (in_u + eh_entries) in
  if negb (fget 2 inode (in_u + eh_magic) =? 0xF30A) || (entries =? 0) then ret inode
  else
    let depth := fget 2 inode (in_u + eh_depth) in
    let* freed :=
      if depth =? 0 then free_root_extents (Z.to_nat (Z.min entries 4)) inode 0 0
      else
        free_root_leaves (Z.to_nat (Z.min entries (fget 2 inode (in_u + eh_max)))) inode ;;
        ret entries in
    let inode := add_iblocks e (- freed * block_size e) inode in
    ret (fset 2 (in_u + eh_depth) 0 (fset 2 (in_u + eh_entries) 0 inode)).

(** [freed] counts the blocks given back. *)
Fixpoint free_indirect_tree (levels : nat) (blk freed : Z) : M W Z :=
  if blk =? 0 then ret freed
  else
    match levels with
    | O => let* _ := e4_free_block blk in ret (u32 (freed + 1))
    | S l =>
        let* e := gets e4 in
        let* u := gets uninit in
        let* p := kmalloc (block_size e) in
        match p with
        | None => ret freed
        | Some _ =>
            let* (rc, snap) := e4_read_block blk (Some (u (block_size e))) in
            if truthy rc then kfree p ;; ret freed
            else
              let* freed := (fix go (n : nat) (i freed : Z) : M W Z :=
                match n with
                | O => ret freed
                | S n' =>
                    let* child := lift (s ← snap; ld32 s (4 * i)) in
                    let* freed := free_indirect_tree l child freed in
                    go n' (i + 1) freed
                end) (Z.to_nat (block_size e / 4)) 0 freed in
              kfree p ;;
              let* _ := e4_free_block blk in
              ret (u32 (freed + 1))
        end
    end.

(** [for (i = 11; i >= 0; i--)] over the direct blocks, [n - 1] first. *)
Fixpoint free_direct (n : nat) (inode : list Z) (freed : Z) : M W (list Z * Z) :=
  match n with
  | O => ret (inode, freed)
  | S i =>
      let b := u_block inode (Z.of_nat i) in
      if b =? 0 then free_direct i inode freed
      else
        let* _ := e4_free_block b in
        free_direct i (fset 4 (in_u + 4 * Z.of_nat i) 0 inode) (u32 (freed + 1))
  end.

Definition e4_truncate (inode : list Z) (new_size : Z) : M W (Z * list Z) :=
  if negb (new_size =? 0) then ret (-1, inode)
  else
    let* e := gets e4 in
    let* inode :=
      if has (fget 4 inode in_flags) INO_FLAG_EXTENTS then free_extent_tree inode
      else
        let* (inode, freed) := free_direct 12 inode 0 in
        let* freed := free_indirect_tree 1 (u_block inode 12) freed in
        let inode := fset 4 (in_u + 48) 0 inode in
        let* freed := free_indirect_tree 2 (u_block inode 13) freed in
        let inode := fset 4 (in_u + 52) 0 inode in
        let* freed := free_indirect_tree 3 (u_block inode 14) freed in
        let inode := fset 4 (in_u + 56) 0 inode in
        ret (add_iblocks e (- freed * block_size e) inode) in
    ret (0, fset 4 in_size_or_dir_acl 0 (fset 4 in_size_lo 0 inode)).

(** ** Directories *)

(** A record of a directory block. *)
Definition de_at (blk : list Z) (d : Z) : option (Z * Z * Z * Z) :=
  ino ← ld32 blk (d + de_inode);
  rl ← ld16 blk (d + de_rec_len);
  nl ← ld8 blk (d + de_name_len);
  ft ← ld8 blk (d + de_file_type);
  Some (ino, rl, nl, ft).

(** [!rl || (rl & 3) || (char * )d + rl > top]. *)
Definition bad_rec (rl d bs : Z) : bool :=
  (rl =? 0) || truthy (Z.land rl 3) || (bs <? d + rl).

(** A directory callback: name (with its NUL), inode, type and context to
    return code and context. *)
Definition dir_cb (C : Type) : Type := list Z → Z → Z → C → option (Z * C).

Fixpoint scan_dirent_block {C} (fuel : nat) (e : ext4_fs) (blk : list Z) (d : Z)
    (cb : dir_cb C) (ctx : C) : option (Z * C) :=
  match fuel with
  | O => None
  | S f =>
      if block_size e <? d + 8 then Some (0, ctx)
      else
        '(ino, rl, nl, ft) ← de_at blk d;
        if bad_rec rl d (block_size e) then Some (0, ctx)
        else if (rl =? block_size e) && (nl =? 0) then Some (0, ctx)
        else if ino =? 0 then scan_dirent_block f e blk (d + rl) cb ctx
        else if (nl =? 0) || (rl - 8 <? nl) || (inodes_count e <? ino) then Some (0, ctx)
        else
          nm ← slice blk (d + 8) nl;
          '(rc, ctx) ← cb (nm ++ [0]) ino ft ctx;
          if truthy rc then Some (rc, ctx)
          else scan_dirent_block f e blk (d + rl) cb ctx
  end.

Definition lookup_cb (want : list Z) : dir_cb Z := λ name ino _ found,
  c ← k_strcmp name want;
  Some (if c =? 0 then (1, ino) else (0, found)).

Definition dir_blocks (e : ext4_fs) (din : list Z) : M W nat :=
  let* q := udiv (u64 (e4_inode_size e din + block_size e - 1)) (block_size e) in
  ret (Z.to_nat q).

(** [for (bi = 0; bi < nblocks; bi++)] of [e4_iterate_dir]. *)
Fixpoint iterate_blocks {C} (n : nat) (din : list Z) (bi : Z) (cb : dir_cb C) (ctx : C)
    : M W (Z * C) :=
  match n with
  | O => ret (0, ctx)
  | S n' =>
      let* r := e4_bmap din bi in
      match r with
      | None => ret (-1, ctx)
      | Some db =>
          if db =? 0 then iterate_blocks n' din (bi + 1) cb ctx
          else
            try read_into e4_block_buf db else (-1, ctx) in
            let* e := gets e4 in
            let* blk := gets (bufget e4_block_buf) in
            let* (rc, ctx) := lift (b ← blk;
              scan_dirent_block (S (Z.to_nat (block_size e))) e b 0 cb ctx) in
            if truthy rc then ret (rc, ctx) else iterate_blocks n' din (bi + 1) cb ctx
      end
  end.

Definition e4_iterate_dir {C} (dir_ino : Z) (cb : dir_cb C) (ctx : C) : M W (Z * C) :=
  let* din := stack_inode in
  let* (rc, din) := e4_read_inode dir_ino din in
  if truthy rc then ret (-1, ctx)
  else if negb (e4_is_dir din) then ret (-1, ctx)
  else
    let* e := gets e4 in
    let* n := dir_blocks e din in
    iterate_blocks n din 0 cb ctx.

(** [None] is -1, [Some ino] is 0 with [*ino_out = ino]. *)
Definition e4_dir_lookup (dir_ino : Z) (name : list Z) : M W (option Z) :=
  let* (rc, found) := e4_iterate_dir dir_ino (lookup_cb name) 0 in
  if truthy rc then ret None
  else if found =? 0 then ret None
  else ret (Some found).

(** The inner loop of [e4_dir_empty]: is there an entry besides the dot
    entries? *)
Fixpoint block_has_entry (fuel : nat) (bs : Z) (blk : list Z) (d : Z) : option bool :=
  match fuel with
  | O => None
  | S f =>
      if bs <? d + 8 then Some false
      else
        '(ino, rl, nl, _) ← de_at blk d;
        if bad_rec rl d bs then Some false
        else if (rl =? bs) && (nl =? 0) then Some false
        else
          dot ← (if truthy ino && ((nl =? 1) || (nl =? 2)) then
                   c0 ← ld8 blk (d + 8);
                   if negb (c0 =? 46) then Some false
                   else if nl =? 1 then Some true
                   else c1 ← ld8 blk (d + 9); Some (c1 =? 46)
                 else Some false);
          if truthy ino && negb dot then Some true
          else block_has_entry f bs blk (d + rl)
  end.

Definition e4_dir_empty (dir_ino : Z) : M W bool :=
  let* din := stack_inode in
  let* (rc, din) := e4_read_inode dir_ino din in
  if truthy rc then ret false
  else
    let* e := gets e4 in
    let* n := dir_blocks e din in
    let* r := for_ 0 n (λ bi,
      let* m := e4_bmap din bi in
      match m with
      | None => ret None
      | Some db =>
          if db =? 0 then ret None
          else
            try read_into e4_block_buf db else None in
            let* blk := gets (bufget e4_block_buf) in
            let* h := lift (b ← blk; block_has_entry (S (Z.to_nat (block_size e))) (block_size e) b 0) in
            ret (if h : bool then Some false else None)
      end) in
    ret (default true r).

(** [(8 + nl + 3) & ~3u]. *)
Definition rec_need (nl : Z) : Z := Z.land (u32 (8 + nl + 3)) 0xFFFFFFFC.

(** Pass 1 of [e4_dir_add_entry] in one block: the record with enough slack
    and the length it keeps. *)
Fixpoint find_slot (fuel : nat) (bs need : Z) (blk : list Z) (d : Z) : option (option (Z * Z * Z)) :=
  match fuel with
  | O => None
  | S f =>
      if bs <? d + 8 then Some None
      else
        '(ino, rl, nl, _) ← de_at blk d;
        if bad_rec rl d bs then Some None
        else
          let real := truthy ino && negb ((rl =? bs) && (nl =? 0)) in
          let minimal := if real then rec_need nl else 0 in
          if need <=? u32 (rl - minimal)
          then Some (Some (d, u16 minimal, u16 (rl - u16 minimal)))
          else find_slot f bs need blk (d + rl)
  end.

(** Shrinks the record at [d] to [keep] bytes and fills the record after it. *)
Definition fill_slot (b : list Z) (d keep rest child ft nl : Z) (name : list Z) : option (list Z) :=
  b ← st16 b (d + de_rec_len) keep;
  b ← st16 b (d + keep + de_rec_len) rest;
  b ← st32 b (d + keep + de_inode) child;
  b ← st8 b (d + keep + de_name_len) (u8 nl);
  b ← st8 b (d + keep + de_file_type) ft;
  nm ← slice name 0 nl;
  splice b (d + keep + 8) nm.

Definition tail_room (e : ext4_fs) : Z := if meta_csum e then 12 else 0.

(** The block of pass 2: one record over the whole block and the checksum
    tail. *)
Definition fresh_dir_block (e : ext4_fs) (child ft nl : Z) (name b : list Z) : option (list Z) :=
  let span := block_size e - tail_room e in
  b ← st32 b de_inode child;
  b ← st16 b de_rec_len (u16 span);
  b ← st8 b de_name_len (u8 nl);
  b ← st8 b de_file_type ft;
  nm ← slice name 0 nl;
  b ← splice b 8 nm;
  if meta_csum e then
    b ← st32 b (span + de_inode) 0;
    b ← st16 b (span + de_rec_len) 12;
    b ← st8 b (span + de_name_len) DIRENT_TAIL_MARKER;
    st8 b (span + de_file_type) 0
  else Some b.

(** Appends the extent [nblocks -> newblk] to the node at offset [o] of [b];
    [Some None] when the node is full. *)
Definition push_extent (b : list Z) (o nblocks newblk : Z) : option (option (list Z)) :=
  n ← ld16 b (o + eh_entries);
  mx ← ld16 b (o + eh_max);
  if mx <=? n then Some None
  else
    b ← put_ex b (o + 12 + 12 * n) (Run newblk (u32 nblocks) 1);
    b ← st16 b (o + eh_entries) (u16 (n + 1));
    Some (Some b).

(** Attaching the new directory block to the inode; [None] is -1. *)
Definition attach_block (dir_ino : Z) (din : list Z) (nblocks newblk : Z) : M W (option (list Z)) :=
  if negb (fget 2 din (in_u + eh_magic) =? 0xF30A) then ret None
  else
    let depth := fget 2 din (in_u + eh_depth) in
    if depth =? 0 then lift (push_extent din in_u nblocks newblk)
    else if depth =? 1 then
      let lst := u16 (fget 2 din (in_u + eh_entries) - 1) in
      let o := in_u + 12 + 12 * lst in
      let* lo := lift (ld32 din (o + ix_leaf_lo)) in
      let* hi := lift (ld16 din (o + ix_leaf_hi)) in
      let lb := Z.lor lo (Z.shiftl hi 32) in
      try read_into e4_block_buf2 lb else None in
      let* leaf := gets (bufget e4_block_buf2) in
      let* leaf := lift (b ← leaf; push_extent b 0 nblocks newblk) in
      match leaf with
      | None => ret None
      | Some b =>
          modify (bufset e4_block_buf2 (Some b)) ;;
          e4_extent_block_checksum_set dir_ino e4_block_buf2 ;;
          try write_from e4_block_buf2 lb else None in
          ret (Some din)
      end
    else ret None.

Definition dir_append_block (dir_ino : Z) (name : list Z) (child ft nl nblocks : Z)
    (din : list Z) : M W Z :=
  let* e := gets e4 in
  if negb (has (fget 4 din in_flags) INO_FLAG_EXTENTS) then ret (-1)
  else
    let* g := udiv (u32 (dir_ino - 1)) (inodes_per_group e) in
    let* a := e4_alloc_block_near g in
    match a with
    | None => ret (-1)
    | Some newblk =>
        buf_zero e4_block_buf (block_size e) ;;
        buf_mod e4_block_buf (fresh_dir_block e child ft nl name) ;;
        e4_dir_block_checksum_set dir_ino e4_block_buf ;;
        try write_from e4_block_buf newblk else -1 in
        let* r := attach_block dir_ino din nblocks newblk in
        match r with
        | None => ret (-1)
        | Some din =>
            let din := fset 4 in_size_lo (u32 (fget 4 din in_size_lo + block_size e)) din in
            let din := add_iblocks e (block_size e) din in
            let* now := e4_now in
            let din := fset 4 in_ctime (u32 now) (fset 4 in_mtime (u32 now) din) in
            try e4_write_inode dir_ino din else -1 in
            let* q := udiv (u64 (newblk - first_data_block e)) (blocks_per_group e) in
            e4_sync_gd (u32 q)
        end
    end.

Definition e4_dir_add_entry (dir_ino : Z) (name : list Z) (child ft : Z) : M W Z :=
  let* din := stack_inode in
  let* (rc, din) := e4_read_inode dir_ino din in
  if truthy rc then ret (-1)
  else if has (fget 4 din in_flags) INO_FLAG_INDEX_FL then ret (-1)
  else
    let* e := gets e4 in
    let* nl := lift (k_strlen name) in
    let need := rec_need nl in
    if u32 (block_size e - tail_room e) <? need then ret (-1)
    else
      let* n := dir_blocks e din in
      let* r := for_ 0 n (λ bi,
        let* m := e4_bmap din bi in
        match m with
        | None => ret None
        | Some db =>
            if db =? 0 then ret None
            else
              try read_into e4_block_buf db else Some (-1) in
              let* blk := gets (bufget e4_block_buf) in
              let* s := lift (b ← blk;
                find_slot (S (Z.to_nat (block_size e))) (block_size e) need b 0) in
              match s with
              | None => ret None
              | Some (d, keep, rest) =>
                  buf_mod e4_block_buf (λ b, fill_slot b d keep rest child ft nl name) ;;
                  e4_dir_block_checksum_set dir_ino e4_block_buf ;;
                  let* rc := write_from e4_block_buf db in
                  ret (Some rc)
              end
        end) in
      match r with
      | Some rc => ret rc
      | None => dir_append_block dir_ino name child ft nl (Z.of_nat n) din
      end.

(** The record of [name] in a block. *)
Fixpoint find_entry (fuel : nat) (bs : Z) (blk name : list Z) (nl : Z) (d : Z) : option (option Z) :=
  match fuel with
  | O => None
  | S f =>
      if bs <? d + 8 then Some None
      else
        '(ino, rl, dn, _) ← de_at blk d;
        if bad_rec rl d bs then Some None
        else
          eq ← (if truthy ino && (dn =? nl)
                then c ← memcmp (drop (Z.to_nat (d + 8)) blk) name (Z.to_nat dn); Some (c =? 0)
                else Some false);
          if eq : bool then Some (Some d) else find_entry f bs blk name nl (d + rl)
  end.

Definition e4_dir_remove_entry (dir_ino : Z) (name : list Z) : M W Z :=
  let* din := stack_inode in
  let* (rc, din) := e4_read_inode dir_ino din in
  if truthy rc then ret (-1)
  else
    let* e := gets e4 in
    let* n := dir_blocks e din in
    let* nl := lift (k_strlen name) in
    let* r := for_ 0 n (λ bi,
      let* m := e4_bmap din bi in
      match m with
      | None => ret None
      | Some db =>
          if db =? 0 then ret None
          else
            try read_into e4_block_buf db else Some (-1) in
            let* blk := gets (bufget e4_block_buf) in
            let* s := lift (b ← blk;
              find_entry (S (Z.to_nat (block_size e))) (block_size e) b name nl 0) in
            match s with
            | None => ret None
            | Some d =>
                buf_st 4 e4_block_buf (d + de_inode) 0 ;;
                e4_dir_block_checksum_set dir_ino e4_block_buf ;;
                let* rc := write_from e4_block_buf db in
                ret (Some rc)
            end
      end) in
    ret (default (-1) r).
End fsops.

(** ** Extent nodes: what is written is what is looked up *)

(** The block a list of runs maps a file block to; 0 is a hole. *)
Fixpoint lookup_runs (rs : list run) (logical : Z) : Z :=
  match rs with
  | [] => 0
  | r :: rs' =>
      if (r_first r <=? logical) && (logical <? r_first r + r_count r)
      then r_start r + (logical - r_first r) else lookup_runs rs' logical
  end.

(** A run that fits an extent entry. *)
Definition run_ok (r : run) : Prop :=
  0 ≤ r_first r ∧ 0 < r_count r < 32768 ∧ r_first r + r_count r < 2 ^ 32 ∧ 0 ≤ r_start r < 2 ^ 48.

(** [b'] is [b] outside the [n] bytes at [o]. *)
Definition same_outside (b b' : list Z) (o n : Z) : Prop :=
  zlen b' = zlen b ∧
  ∀ k off, 0 ≤ k → off + k ≤ o ∨ o + n ≤ off → ld k b' off = ld k b off.

Lemma same_outside_st k b o v b' lo n :
  0 ≤ k → st k b o v = Some b' → lo ≤ o → o + k ≤ lo + n → same_outside b b' lo n.
Proof.
  intros Hk Hs Hlo Hn. split; [by eapply st_zlen|]. intros k' off Hk' Hd.
  eapply ld_st_ne; [exact Hk|exact Hs|lia].
Qed.

Lemma same_outside_trans b1 b2 b3 o n :
  same_outside b1 b2 o n → same_outside b2 b3 o n → same_outside b1 b3 o n.
Proof.
  intros [Hl H12] [Hl' H23]. split; [congruence|]. intros k off Hk Hd. by rewrite H23, H12.
Qed.

Lemma same_outside_widen b b' o n o' n' :
  same_outside b b' o n → o' ≤ o → o + n ≤ o' + n' → same_outside b b' o' n'.
Proof. intros [Hl Hs] ? ?. split; [done|]. intros k off Hk Hd. apply Hs; [done|lia]. Qed.

(** Runs a store whose bounds are known, remembering its effect. *)
Ltac store k b o v b' H :=
  destruct (st_is_Some k b o v) as [b' H]; [lia..|];
  unfold st16, st32, st8; rewrite H; cbn [mbind option_bind].

Lemma start_split s : 0 ≤ s < 2 ^ 48 →
  Z.lor (u32 s mod 256 ^ 4) (Z.shiftl (u16 (Z.shiftr s 32) mod 256 ^ 2) 32) = s.
Proof.
  intros Hs. rewrite Z.lor_comm, Z.shiftr_div_pow2 by lia.
  assert (0 ≤ s / 2 ^ 32 < 65536) by (split; [apply Z.div_pos|apply Z.div_lt_upper_bound]; lia).
  rewrite (u16_small (s / 2 ^ 32)), (Z.mod_small (s / 2 ^ 32)) by lia.
  change (256 ^ 4) with 4294967296. unfold u32. rewrite Zmod_mod.
  rewrite shiftl_lor by (lia || apply Z.mod_pos_bound; lia).
  change (2 ^ 32) with 4294967296. pose proof (Z.div_mod s 4294967296). lia.
Qed.

Lemma put_ex_spec b o r :
  0 ≤ o → o + 12 ≤ zlen b → run_ok r →
  ∃ b', put_ex b o r = Some b' ∧ same_outside b b' o 12 ∧
    ld32 b' (o + ex_first_block) = Some (r_first r) ∧ ld16 b' (o + ex_count) = Some (r_count r) ∧
    ∃ hi lo, ld16 b' (o + ex_start_hi) = Some hi ∧ ld32 b' (o + ex_start_lo) = Some lo ∧
      Z.lor lo (Z.shiftl hi 32) = r_start r.
Proof.
  intros Ho Hlen (Hf & Hc & Hfc & Hs). unfold put_ex, ex_first_block, ex_count, ex_start_lo, ex_start_hi.
  assert (Hrl : run_len r = r_count r).
  { unfold run_len. rewrite (proj2 (Z.eqb_neq _ 32768)) by lia. rewrite u16_small; lia. }
  rewrite Hrl.
  store 4 b (o + 0) (r_first r) b1 H1. pose proof (st_zlen _ _ _ _ _ H1) as Hz1.
  store 2 b1 (o + 4) (r_count r) b2 H2. pose proof (st_zlen _ _ _ _ _ H2) as Hz2.
  store 4 b2 (o + 8) (u32 (r_start r)) b3 H3. pose proof (st_zlen _ _ _ _ _ H3) as Hz3.
  store 2 b3 (o + 6) (u16 (Z.shiftr (r_start r) 32)) b4 H4.
  exists b4. split; [done|]. unfold ld16, ld32. split_and!.
  - eapply same_outside_trans; [eapply same_outside_st; [|exact H1|..]; lia|].
    eapply same_outside_trans; [eapply same_outside_st; [|exact H2|..]; lia|].
    eapply same_outside_trans; [eapply same_outside_st; [|exact H3|..]; lia|].
    eapply same_outside_st; [|exact H4|..]; lia.
  - rewrite (ld_st_other H4), (ld_st_other H3),
      (ld_st_other H2) by lia.
    apply (ld_st_same H1); lia.
  - rewrite (ld_st_other H4), (ld_st_other H3) by lia.
    apply (ld_st_same H2); lia.
  - eexists _, _. split_and!; [eapply ld_st_eq; [lia|exact H4]| |].
    + rewrite (ld_st_other H4) by lia. eapply ld_st_eq; [lia|exact H3].
    + by apply start_split.
Qed.

Lemma put_header_spec b o n mx d :
  0 ≤ o → o + 12 ≤ zlen b → 0 ≤ n < 65536 → 0 ≤ d < 65536 →
  ∃ b', put_header b o n mx d = Some b' ∧ same_outside b b' o 12 ∧
    ld16 b' (o + eh_magic) = Some 0xF30A ∧ ld16 b' (o + eh_entries) = Some n ∧
    ld16 b' (o + eh_depth) = Some d.
Proof.
  intros Ho Hlen Hn Hd. unfold put_header, eh_magic, eh_entries, eh_max, eh_depth, eh_generation.
  store 2 b (o + 0) 0xF30A b1 H1. pose proof (st_zlen _ _ _ _ _ H1) as Hz1.
  store 2 b1 (o + 2) (u16 n) b2 H2. pose proof (st_zlen _ _ _ _ _ H2) as Hz2.
  store 2 b2 (o + 4) (u16 mx) b3 H3. pose proof (st_zlen _ _ _ _ _ H3) as Hz3.
  store 2 b3 (o + 6) d b4 H4. pose proof (st_zlen _ _ _ _ _ H4) as Hz4.
  store 4 b4 (o + 8) 0 b5 H5.
  exists b5. split; [done|]. unfold ld16. split_and!.
  - eapply same_outside_trans; [eapply same_outside_st; [|exact H1|..]; lia|].
    eapply same_outside_trans; [eapply same_outside_st; [|exact H2|..]; lia|].
    eapply same_outside_trans; [eapply same_outside_st; [|exact H3|..]; lia|].
    eapply same_outside_trans; [eapply same_outside_st; [|exact H4|..]; lia|].
    eapply same_outside_st; [|exact H5|..]; lia.
  - rewrite (ld_st_other H5), (ld_st_other H4),
      (ld_st_other H3), (ld_st_other H2) by lia.
    apply (ld_st_same H1); lia.
  - rewrite (ld_st_other H5), (ld_st_other H4),
      (ld_st_other H3) by lia.
    rewrite u16_small in H2 by lia. apply (ld_st_same H2); lia.
  - rewrite (ld_st_other H5) by lia.
    apply (ld_st_same H4); lia.
Qed.

(** The entries of [rs] lie at [o], [o + 12], ... of [b]. *)
Definition node_holds (b : list Z) (base : Z) (i : Z) (rs : list run) : Prop :=
  ∀ k r, rs !! k = Some r → ex_at b base (i + Z.of_nat k) = Some (r_first r, r_count r, r_start r).

Lemma ex_at_outside b b' o n base i :
  same_outside b b' o n → base + 12 + 12 * i + 12 ≤ o ∨ o + n ≤ base + 12 + 12 * i →
  ex_at b' base i = ex_at b base i.
Proof.
  intros [_ Hs] Hd. unfold ex_at, ld32, ld16, ex_first_block, ex_count, ex_start_hi, ex_start_lo.
  by rewrite !Hs by lia.
Qed.

Lemma put_runs_spec rs : ∀ b base i,
  0 ≤ base → 0 ≤ i → base + 12 + 12 * (i + zlen rs) ≤ zlen b → Forall run_ok rs →
  ∃ b', put_runs b (base + 12 + 12 * i) rs = Some b' ∧
    same_outside b b' (base + 12 + 12 * i) (12 * zlen rs) ∧ node_holds b' base i rs.
Proof.
  induction rs as [|r rs IH]; intros b base i Hb Hi Hlen Hok.
  { exists b. by split_and!. }
  apply list.Forall_cons in Hok as [Hr Hok]. rewrite zlen_cons in *. pose proof (zlen_nonneg rs).
  destruct (put_ex_spec b (base + 12 + 12 * i) r) as (b1 & H1 & Hs1 & Hf & Hc & hi & lo & Hhi & Hlo & Hst);
    [lia|lia|done|].
  cbn [put_runs]. rewrite H1. cbn [mbind option_bind]. pose proof Hs1 as [Hl1 _].
  destruct (IH b1 base (i + 1)) as (b2 & H2 & Hs2 & Hn2); [lia|lia|lia|done|].
  replace (base + 12 + 12 * (i + 1)) with (base + 12 + 12 * i + 12) in H2, Hs2 by lia.
  rewrite H2. exists b2. split; [done|]. split.
  - eapply same_outside_trans; [eapply same_outside_widen; [exact Hs1|lia|lia]|].
    eapply same_outside_widen; [exact Hs2|lia|lia].
  - intros [|k] r' Hk.
    + injection Hk as <-. rewrite Z.add_0_r. rewrite (ex_at_outside b1 b2 _ _ _ _ Hs2) by lia.
      unfold ex_at. rewrite Hf, Hc, Hhi, Hlo. cbn [mbind option_bind]. by rewrite Hst.
    + replace (i + Z.of_nat (S k)) with (i + 1 + Z.of_nat k) by lia. by apply Hn2.
Qed.

(** Scanning a leaf that holds [rs]. *)
Lemma leaf_scan_runs rs : ∀ b base i logical,
  node_holds b base i rs → Forall run_ok rs → 0 ≤ logical →
  leaf_scan (length rs) b base logical i = Some (lookup_runs rs logical).
Proof.
  induction rs as [|r rs IH]; intros b base i logical Hn Hok Hl; [done|].
  apply list.Forall_cons in Hok as [(Hf & Hc & Hfc & Hs) Hok].
  cbn [leaf_scan length]. specialize (Hn 0%nat r eq_refl) as H0. rewrite Z.add_0_r in H0. rewrite H0.
  cbn [mbind option_bind]. rewrite (proj2 (Z.leb_gt 32768 _)) by lia. rewrite u32_small by lia.
  cbn [lookup_runs]. destruct (Z.leb_spec (r_first r) logical); cbn [andb];
    [destruct (Z.ltb_spec logical (r_first r + r_count r))|].
  - rewrite u64_small by lia. f_equal. lia.
  - apply IH; [|done|done]. intros k r' Hk. replace (i + 1 + Z.of_nat k) with (i + Z.of_nat (S k)) by lia.
    by apply Hn.
  - apply IH; [|done|done]. intros k r' Hk. replace (i + 1 + Z.of_nat k) with (i + Z.of_nat (S k)) by lia.
    by apply Hn.
Qed.

(** ** Runs built by appending *)

(** The runs cover the file blocks from [s] up to [e], in order. *)
Fixpoint cover (s : Z) (rs : list run) (e : Z) : Prop :=
  match rs with
  | [] => s = e
  | r :: rs' => r_first r = s ∧ 0 < r_count r ∧ cover (s + r_count r) rs' e
  end.

Lemma cover_le s rs e : cover s rs e → s ≤ e.
Proof.
  revert s. induction rs as [|r rs IH]; intros s; simpl; [lia|]. intros (_ & ? & Hc). apply IH in Hc. lia.
Qed.

Lemma cover_snoc s rs r e :
  cover s (rs ++ [r]) e ↔ cover s rs (r_first r) ∧ 0 < r_count r ∧ e = r_first r + r_count r.
Proof.
  revert s. induction rs as [|r' rs IH]; intros s; simpl; [|rewrite IH; tauto].
  split; [intros (-> & ? & ->); auto|intros (-> & ? & ->); auto].
Qed.

Lemma lookup_runs_snoc s rs r e l :
  cover s rs e → s ≤ l →
  lookup_runs (rs ++ [r]) l = if decide (l < e) then lookup_runs rs l else lookup_runs [r] l.
Proof.
  revert s. induction rs as [|r' rs IH]; intros s Hc Hl.
  { simpl in Hc. subst. rewrite decide_False by lia. done. }
  destruct Hc as (Hf & Hp & Hc). pose proof (cover_le _ _ _ Hc). cbn [lookup_runs app].
  destruct (Z.leb_spec (r_first r') l); [|lia]. cbn [andb].
  destruct (Z.ltb_spec l (r_first r' + r_count r')).
  - rewrite decide_True by lia. done.
  - apply (IH (s + r_count r')); [done|lia].
Qed.

(** Appending the block [blk] for file block [e] extends the map by exactly
    that block. *)
Lemma add_run_spec s rs e blk :
  cover s rs e → Forall run_ok rs → 0 ≤ s → e - s < 32767 → e + 1 < 2 ^ 32 → 0 ≤ blk < 2 ^ 48 →
  cover s (add_run rs blk e) (e + 1) ∧ Forall run_ok (add_run rs blk e) ∧
  ∀ l, s ≤ l ≤ e → lookup_runs (add_run rs blk e) l = if decide (l = e) then blk else lookup_runs rs l.
Proof.
  intros Hc Hok Hs Hlen He Hb. pose proof (cover_le _ _ _ Hc).
  assert (Hnew : cover s (rs ++ [Run blk (u32 e) 1]) (e + 1) ∧ Forall run_ok (rs ++ [Run blk (u32 e) 1]) ∧
    ∀ l, s ≤ l ≤ e → lookup_runs (rs ++ [Run blk (u32 e) 1]) l = if decide (l = e) then blk else lookup_runs rs l).
  { rewrite u32_small by lia. split_and!.
    - apply cover_snoc. simpl. auto with lia.
    - apply list.Forall_app. split; [done|]. constructor; [|done]. unfold run_ok. simpl. lia.
    - intros l Hl. rewrite (lookup_runs_snoc s rs _ e) by (done || lia). repeat case_decide; try lia.
      cbn [lookup_runs r_first r_count r_start]. subst l.
      rewrite (proj2 (Z.leb_le e e)), (proj2 (Z.ltb_lt e (e + 1))) by lia. cbn [andb]. lia. }
  unfold add_run. destruct (list.last rs) as [r|] eqn:El.
  2: { apply last_None in El. subst rs. exact Hnew. }
  apply last_Some in El as [rs0 ->]. case_if; [|done]. bool_prop.
  rewrite removelast_last. apply list.Forall_app in Hok as [Hok0 Hr].
  apply list.Forall_cons in Hr as [(Hf & Hcnt & Hfc & Hst) _].
  apply cover_snoc in Hc as (Hc0 & Hpos & He'). pose proof (cover_le _ _ _ Hc0).
  rewrite u64_small in * by lia. rewrite (u32_small (r_count r + 1)) by lia. split_and!.
  - apply cover_snoc. simpl. split_and!; [done|lia|lia].
  - apply list.Forall_app. split; [done|]. constructor; [|done]. unfold run_ok. simpl. lia.
  - intros l Hl. rewrite !(lookup_runs_snoc s rs0 _ (r_first r)) by (done || lia).
    cbn [lookup_runs r_first r_count r_start].
    repeat case_decide; try lia; destruct (Z.leb_spec (r_first r) l); try lia; cbn [andb];
      destruct (Z.ltb_spec l (r_first r + (r_count r + 1))); try lia;
      try destruct (Z.ltb_spec l (r_first r + r_count r)); lia.
Qed.

(** How many runs of consecutive blocks a list has. *)
Fixpoint fragments (blks : list Z) : Z :=
  match blks with
  | [] => 0
  | b :: r => (match r with b' :: _ => if b' =? b + 1 then 0 else 1 | [] => 1 end) + fragments r
  end.

Lemma fragments_snoc blks b :
  fragments (blks ++ [b]) =
  fragments blks + match list.last blks with Some b' => if b =? b' + 1 then 0 else 1 | None => 1 end.
Proof.
  induction blks as [|x [|y r] IH]; [done| |].
  - simpl. case_if; lia.
  - change ((x :: y :: r) ++ [b]) with (x :: y :: (r ++ [b])). cbn [fragments] in *.
    change (list.last (x :: y :: r)) with (list.last (y :: r)).
    change ((y :: r) ++ [b]) with (y :: (r ++ [b])) in IH. cbn [fragments] in IH. lia.
Qed.

(** The last run ends with the last block. *)
Lemma lookup_runs_last s rs r e :
  cover s (rs ++ [r]) e → lookup_runs (rs ++ [r]) (e - 1) = r_start r + r_count r - 1.
Proof.
  intros Hc. pose proof Hc as (Hc0 & Hp & He)%cover_snoc. pose proof (cover_le _ _ _ Hc0).
  rewrite (lookup_runs_snoc s rs _ (r_first r)) by (done || lia). rewrite decide_False by lia.
  cbn [lookup_runs]. rewrite (proj2 (Z.leb_le _ _)), (proj2 (Z.ltb_lt _ _)) by lia. cbn [andb]. lia.
Qed.

(** Appending a block starts a new run unless it is the next block. *)
Lemma add_run_fragments s rs blks blk :
  cover s rs (s + zlen blks) → Forall run_ok rs → 0 ≤ s → zlen blks < 32767 → s + zlen blks + 1 < 2 ^ 32 →
  (∀ i b, blks !! i = Some b → lookup_runs rs (s + Z.of_nat i) = b) →
  zlen rs = fragments blks → zlen (add_run rs blk (s + zlen blks)) = fragments (blks ++ [blk]).
Proof.
  intros Hc Hok Hs Hn He Hmap Hlen. rewrite fragments_snoc, <- Hlen. unfold add_run.
  destruct (list.last rs) as [r|] eqn:El.
  2: { apply last_None in El. subst rs. simpl in Hc. destruct blks as [|b blks]; [done|].
       rewrite zlen_cons in Hc. pose proof (zlen_nonneg blks). lia. }
  apply last_Some in El as [rs0 ->]. pose proof Hc as (Hc0 & Hp & Hend)%cover_snoc.
  pose proof (cover_le _ _ _ Hc0). pose proof (lookup_runs_last _ _ _ _ Hc) as Hlast.
  apply list.Forall_app in Hok as [_ [(Hf & _ & Hfc & Hst) _]%list.Forall_cons].
  destruct (list.last blks) as [b'|] eqn:Eb.
  2: { apply last_None in Eb. subst blks. rewrite zlen_nil in *. lia. }
  apply last_Some in Eb as [blks0 ->]. rewrite zlen_app in *. change (zlen [b']) with 1 in *.
  pose proof (Hmap (length blks0) b' (list_lookup_middle _ _ _ _ eq_refl)) as Hb'.
  replace (s + Z.of_nat (length blks0)) with (s + (zlen blks0 + 1) - 1) in Hb' by (unfold zlen; lia).
  rewrite Hlast in Hb'. rewrite u64_small, u32_small, <- Hend, Z.eqb_refl, andb_true_r by lia.
  rewrite (Z.eqb_sym blk), <- Hb'. replace (r_start r + r_count r - 1 + 1) with (r_start r + r_count r) by lia.
  case_if; rewrite ?removelast_last, !zlen_app; change (zlen [?x]) with 1; unfold zlen; simpl; lia.
Qed.

Section fsops_proofs.
Context {D H : Type} `{Allocator H}.
Context (dv : blk_device D) (ok : D → Prop) (sector : D → Z → list Z)
  `{!SectorDevice dv ok sector}.
Context (al_inv : H → list Z → Prop) `{!AllocatorLaws H al_inv}.
#[local] Abbreviation W := (world D H).
#[local] Abbreviation mounted := (mounted dv ok).
#[local] Abbreviation disk := (disk sector).
#[local] Abbreviation alloc_inv := (alloc_inv dv ok sector).
#[local] Abbreviation allocated := (allocated dv ok sector).
#[local] Abbreviation free := (free sector).
#[local] Abbreviation in_use := (in_use sector).

(** Writing data to an allocated block keeps the allocator's invariant. *)
Lemma write_data_inv (w w' : W) blk l :
  alloc_inv w → ¬ is_meta (e4 w) blk → same_fs w w' → mounted w' →
  (∀ k, 0 ≤ k → disk w' k = if decide (k = blk) then l else disk w k) →
  alloc_inv w' ∧ (∀ k, free w' k ↔ free w k) ∧
  ∀ g idx, block_in (e4 w) g idx → in_use w' g idx = in_use w g idx.
Proof.
  intros Hi Hnm Hs Hm Hd. pose proof (ai_geom _ _ _ _ Hi) as Hag. pose proof Hs as (He & _).
  assert (Hfree : ∀ k, free w' k ↔ free w k).
  { intros k. unfold Ext4Alloc.free, in_use. rewrite He.
    split; intros (g & idx & Hb & -> & Hu); exists g, idx; split_and!; try done;
      pose proof Hb as [Hgr _]; pose proof (ag_bb _ Hag g Hgr);
      (rewrite Hd in * by lia; rewrite decide_False in *; [done|]; intros Heq; apply Hnm; exists g; auto). }
  split; [eapply alloc_inv_frame; [done|by apply same_fs_quiet|done|]; intros k Hk; by apply Hfree|].
  split; [done|]. intros g idx [Hgr _]. pose proof (ag_bb _ Hag g Hgr). unfold Ext4Alloc.in_use.
  rewrite He, Hd, decide_False; [done| |lia]. intros Heq. apply Hnm. exists g. auto.
Qed.

(** State of [e4_append_blocks] after the blocks [blks] of the file have been
    written: block [i] of [data] is on disk block [blks !! i], these blocks
    were free before, and nothing that was in use has changed. *)
Record appended (w0 w : W) (s : Z) (data : list Z) (runs : list run) (blks : list Z) : Prop := {
  ap_inv : alloc_inv w;
  ap_quiet : quiet w0 w;
  ap_data : ∀ i b, blks !! i = Some b →
    slice data (Z.of_nat i * block_size (e4 w0)) (block_size (e4 w0)) = Some (disk w b) ∧
    free w0 b ∧ ¬ free w b ∧ 0 ≤ b < blocks_count (e4 w0);
  ap_free : ∀ k, free w k → free w0 k;
  ap_frame : ∀ k, 0 ≤ k → ¬ free w0 k → ¬ is_meta (e4 w0) k → disk w k = disk w0 k;
  ap_cover : cover s runs (s + zlen blks);
  ap_runs : Forall run_ok runs;
  ap_map : ∀ i b, blks !! i = Some b → lookup_runs runs (s + Z.of_nat i) = b;
  ap_frag : zlen runs = fragments blks;
}.

Lemma appended_start w s data : alloc_inv w → appended w w s data [] [].
Proof.
  intros Hi. split; try done.
  - by apply quiet_refl, Hi.
  - simpl. rewrite zlen_nil. lia.
Qed.

Lemma quiet_meta (w w' : W) k : alloc_geom (e4 w) → quiet w w' → is_meta (e4 w') k ↔ is_meta (e4 w) k.
Proof. intros Hg (Hs & _). by destruct (geom_same_blk _ _ Hg Hs) as (_&_&_&_&->). Qed.

(** One more block: allocated in [w1], written in [w2]. *)
Lemma appended_step (w0 w w1 w2 : W) s data runs blks blk l :
  alloc_geom (e4 w0) → (∀ k, free w0 k → ¬ is_meta (e4 w0) k) →
  appended w0 w s data runs blks → allocated w w1 blk → same_fs w1 w2 → mounted w2 →
  slice data (zlen blks * block_size (e4 w0)) (block_size (e4 w0)) = Some l →
  (∀ k, 0 ≤ k → disk w2 k = if decide (k = blk) then l else disk w1 k) →
  0 ≤ s → zlen blks < 32767 → s + zlen blks + 1 < 2 ^ 32 →
  appended w0 w2 s data (add_run runs blk (s + zlen blks)) (blks ++ [blk]).
Proof.
  intros Hg0 Hm0 Hap (Hi1 & Hq1 & Hfb & Hrange & _ & Hfree1 & _ & Hd1) Hs2 Hm2 Hl Hd2 Hs Hn1 Hn2.
  destruct Hap as [Hi Hq Hdata Hfree Hframe Hcov Hruns Hmap Hfrag].
  pose proof (quiet_trans _ _ _ Hq Hq1) as Hq01.
  pose proof (geom_same_fields _ _ (proj1 Hq)) as (_&_&_&_&Hbc&_).
  assert (Hnm0 : ¬ is_meta (e4 w0) blk) by (apply Hm0, Hfree, Hfb).
  assert (Hnm1 : ¬ is_meta (e4 w1) blk) by (by rewrite (quiet_meta w0 w1 blk Hg0 Hq01)).
  assert (Hm_w : ∀ k, is_meta (e4 w) k ↔ is_meta (e4 w0) k) by (intros; by apply quiet_meta).
  destruct (write_data_inv w1 w2 blk l Hi1 Hnm1 Hs2 Hm2 Hd2) as (Hi2 & Hfree2 & _).
  pose proof (ag_small _ Hg0). rewrite Hbc in Hrange.
  destruct (add_run_spec s runs (s + zlen blks) blk) as (Hc & Hok & Hlook); [done|done|lia..|].
  split; [done| | | | |rewrite zlen_app; change (zlen [blk]) with 1; by rewrite Z.add_assoc|done| |
          by apply add_run_fragments; try done; lia].
  - eapply quiet_trans; [exact Hq01|]. apply same_fs_quiet; [apply Hi1|done].
  - intros i b [Hib|[Hge Hib]]%lookup_app_Some.
    + destruct (Hdata i b Hib) as (Hsl & Hfb0 & Hnf & Hr). rewrite Hd2 by lia.
      rewrite decide_False by (intros ->; done). rewrite Hd1; [| lia|by intros ->|by rewrite Hm_w; apply Hm0].
      split_and!; try done; try lia. rewrite Hfree2, Hfree1. tauto.
    + apply list_lookup_singleton_Some in Hib as [Hi0 ->].
      assert (i = length blks) as -> by lia. rewrite Hd2, decide_True by (done || lia).
      split_and!; [exact Hl|by apply Hfree|rewrite Hfree2, Hfree1; tauto|lia|lia].
  - intros k. rewrite Hfree2, Hfree1. intros [? _]. by apply Hfree.
  - intros k Hk Hnf Hnm. assert (Hne : k ≠ blk) by (intros ->; by apply Hnf, Hfree).
    rewrite Hd2, decide_False by done. rewrite Hd1 by (done || by rewrite Hm_w). by apply Hframe.
  - intros i b [Hib|[Hge Hib]]%lookup_app_Some.
    + pose proof (lookup_lt_Some _ _ _ Hib). unfold zlen in *.
      rewrite Hlook, decide_False by lia. by apply Hmap.
    + apply list_lookup_singleton_Some in Hib as [Hi0 ->]. unfold zlen in *.
      rewrite Hlook, decide_True by lia. done.
Qed.

(** The loop takes the blocks of the plan, and fails when there is none. *)
Lemma append_loop_wp (w0 : W) s data k : ∀ w runs blks,
  alloc_inv w0 → appended w0 w s data runs blks →
  0 ≤ s → zlen blks + Z.of_nat k ≤ 32767 → s + zlen blks + Z.of_nat k < 2 ^ 31 →
  (zlen blks + Z.of_nat k) * block_size (e4 w0) ≤ zlen data → bytes_ok data →
  wp (append_loop k s (zlen blks) (Some data) runs) (λ r w',
    match plan (e4 w0) (in_use w) (s + zlen blks) k with
    | Some blks' => ∃ runs', r = Some runs' ∧ appended w0 w' s data runs' (blks ++ blks') ∧ length blks' = k
    | None => r = None ∧ quiet w0 w' ∧ ∀ b, ¬ free w' b
    end) w.
Proof.
  induction k as [|k IH]; intros w runs blks Hi0 Hap Hs Hk Hsk Hdata Hby; cbn [append_loop plan].
  { apply wp_ret. exists runs. by rewrite app_nil_r. }
  pose proof (ai_geom _ _ _ _ Hi0) as Hg0. pose proof (ap_inv _ _ _ _ _ _ Hap) as Hi.
  pose proof (ap_quiet _ _ _ _ _ _ Hap) as Hq. pose proof (zlen_nonneg blks).
  pose proof (geom_same_fields _ _ (proj1 Hq)) as (Hbs&_&_&_&Hbc&Hfdb&Hbpg&Hgc&_).
  pose proof (ag_bpg _ Hg0). pose proof (ag_bs _ Hg0). wp_pure. rewrite u64_small by lia. rewrite Hbpg.
  apply wp_bind, wp_udiv; [lia|].
  assert (0 ≤ (s + zlen blks) / blocks_per_group (e4 w0) < 2 ^ 31).
  { split; [apply Z.div_pos; lia|]. apply Z.div_lt_upper_bound; [lia|]. nia. }
  rewrite u32_small by lia. wp_apply (alloc_used_wp dv ok sector w); [done|lia|].
  assert (Hff : ∀ h, first_free (e4 w) (in_use w) h = first_free (e4 w0) (in_use w) h).
  { intros h. unfold first_free, search_order, group_bits. by rewrite Hgc, Hbc, Hfdb, Hbpg. }
  rewrite Hff. intros r w1; cbv beta. destruct (first_free _ _ _) as [[g idx]|] eqn:Eff; cbn [mbind option_bind].
  2: { intros (-> & (Hs1 & _ & Hdk) & Hnf). apply wp_ret. split; [done|]. split.
       { apply (quiet_trans _ w); [done|]. apply same_fs_quiet; [apply Hi|done]. }
       destruct Hs1 as (He & _). intros b (g & idx & Hb & -> & Hu).
       apply (Hnf (blk_of (e4 w1) g idx)). rewrite He in *. exists g, idx. split_and!; try done.
       unfold Ext4Alloc.in_use in *. rewrite He in Hu. pose proof Hb as [Hgr _].
       pose proof (ag_bb _ (ai_geom _ _ _ _ Hi) g Hgr). rewrite Hdk in Hu by lia. done. }
  destruct (geom_same_blk _ _ Hg0 (proj1 Hq)) as (Hblk & Hbin & _). rewrite Hblk.
  set (blk := blk_of (e4 w0) g idx). intros (-> & Hal & Hmark).
  pose proof Hal as (Hi1 & Hq1 & Hfb & Hrange & _).
  pose proof (geom_same_fields _ _ (proj1 Hq1)) as (Hbs1&_&_&_&Hbc1&_).
  destruct (slice_is_Some data (zlen blks * block_size (e4 w0)) (block_size (e4 w0))) as [l Hl]; [nia|lia|nia|].
  pose proof (slice_zlen _ _ _ _ Hl) as Hll.
  destruct (m_buf _ _ _ (ai_mounted _ _ _ _ Hi1) S2) as (x & Hx & Hxl & _).
  apply (wp_call _ _ (λ _ w', w' = bufset S2 (Some l) w1)).
  { apply wp_bind. eapply wp_lift; [rewrite Hbs; exact Hl|].
    destruct (splice_is_Some x 0 l) as [x' Hx']; [lia|rewrite Hxl; lia|].
    eexists _, _. split; [by eapply buf_splice_eq|]. do 2 f_equal.
    apply splice_Some in Hx' as (_ & _ & ->). simpl. rewrite drop_ge; [by rewrite app_nil_r|].
    unfold zlen in *. lia. }
  intros ? ? ->.
  wp_apply (write_from_wp dv ok sector S2 blk _ l).
  { apply mounted_bufset; [apply Hi1| |by eapply slice_bytes_ok]. rewrite Hbs1, Hbs. lia. }
  { apply Hi1. } { cbn [e4 bufset]. lia. } { done. }
  intros rc w2 (-> & Hs2 & Hm2 & _ & Hd2). change (truthy 0) with false. cbv iota.
  assert (Hap2 : appended w0 w2 s data (add_run runs blk (s + zlen blks)) (blks ++ [blk])).
  { eapply (appended_step w0 w w1 w2); try done; try lia. apply Hi0. }
  assert (Hplan : plan (e4 w0) (in_use w2) (s + zlen (blks ++ [blk])) k =
    plan (e4 w0) (mark (in_use w) g idx) (s + zlen blks + 1) k).
  { rewrite zlen_app. change (zlen [blk]) with 1. rewrite Z.add_assoc. apply plan_ext.
    intros g' idx' Hb'%Hbin. rewrite <- Hmark by done.
    assert (Hnm1 : ¬ is_meta (e4 w1) blk).
    { rewrite (quiet_meta w w1) by (done || apply Hi). exact (ai_meta _ _ _ _ Hi _ Hfb). }
    apply (write_data_inv w1 w2 blk l); [done..|]. by apply (geom_same_blk _ _ (ai_geom _ _ _ _ Hi) (proj1 Hq1)). }
  replace (zlen blks + 1) with (zlen (blks ++ [blk])) by (by rewrite zlen_app).
  eapply wp_mono; [apply IH; [done|done|lia|rewrite zlen_app; change (zlen [blk]) with 1; lia..|done]|].
  rewrite Hplan. clear Hplan. intros r w'. destruct (plan _ _ _ k) as [blks'|]; cbn [mbind option_bind]; [|done].
  intros (runs' & -> & Hap' & Hlen). exists runs'. rewrite <- app_assoc in Hap'. simpl. auto with lia.
Qed.

Lemma extent_lookup_inline (w : W) inode n rs logical :
  ld16 inode (in_u + eh_magic) = Some 0xF30A → ld16 inode (in_u + eh_depth) = Some 0 →
  ld16 inode (in_u + eh_entries) = Some n → n = zlen rs → node_holds inode in_u 0 rs →
  Forall run_ok rs → 0 ≤ logical →
  extent_lookup inode logical w = Some (Some (lookup_runs rs logical), w).
Proof.
  intros Hm Hd Hn -> Hnode Hok Hl. unfold extent_lookup. rewrite Hm. mred. rewrite Z.eqb_refl. cbn [negb]. rewrite Hd. mred.
  change (S (Z.to_nat 0)) with 1%nat. cbn [extent_walk]. rewrite Z.eqb_refl.
  rewrite Hn. mred. unfold zlen. rewrite Nat2Z.id. by rewrite (leaf_scan_runs rs) by done.
Qed.

Lemma build_tree_inline (w : W) ino runs inode :
  zlen inode = 256 → zlen runs ≤ ROOT_MAX_ENTRIES → Forall run_ok runs →
  ∃ inode', build_tree ino runs inode w = Some ((0, inode'), w) ∧ same_outside inode inode' in_u 60 ∧
    ld16 inode' (in_u + eh_magic) = Some 0xF30A ∧ ld16 inode' (in_u + eh_depth) = Some 0 ∧
    ld16 inode' (in_u + eh_entries) = Some (zlen runs) ∧ node_holds inode' in_u 0 runs.
Proof.
  intros Hlen Hn Hok. pose proof (zlen_nonneg runs). unfold ROOT_MAX_ENTRIES in Hn.
  unfold build_tree. mred. rewrite (proj2 (Z.leb_le _ ROOT_MAX_ENTRIES)) by (unfold ROOT_MAX_ENTRIES; lia).
  destruct (put_header_spec inode in_u (zlen runs) ROOT_MAX_ENTRIES 0) as (i1 & Hp1 & Hs1 & Hm & He & Hd);
    [done|rewrite Hlen; unfold in_u; lia|lia|lia|].
  rewrite Hp1. mred. destruct (put_runs_spec runs i1 in_u 0) as (i2 & Hp2 & Hs2 & Hnode);
    [done|lia|destruct Hs1 as [-> _]; rewrite Hlen; unfold in_u; lia|done|].
  change (in_u + 12 + 12 * 0) with (in_u + 12) in *. rewrite Hp2. mred.
  exists i2. split; [done|]. pose proof Hs2 as [_ Hout]. split.
  { eapply same_outside_trans; [eapply same_outside_widen; [exact Hs1|lia|lia]|].
    eapply same_outside_widen; [exact Hs2|unfold in_u; lia|unfold in_u; lia]. }
  split_and!; [| | |done].
  - unfold ld16. rewrite Hout by (unfold in_u, eh_magic; lia). exact Hm.
  - unfold ld16. rewrite Hout by (unfold in_u, eh_depth; lia). exact Hd.
  - unfold ld16. rewrite Hout by (unfold in_u, eh_entries; lia). exact He.
Qed.

Lemma fset_outside n off v b : 0 ≤ n → same_outside b (fset n off v b) off n.
Proof.
  intros Hn. unfold fset. destruct (st n b off v) as [b'|] eqn:E; [|by split].
  eapply same_outside_st; [done|exact E|lia|lia].
Qed.

(** The fields [add_iblocks] does not touch. *)
Lemma add_iblocks_outside e d inode :
  zlen (add_iblocks e d inode) = zlen inode ∧
  ∀ k off, 0 ≤ k → off + k ≤ in_blocks_lo ∨ in_blocks_lo + 4 ≤ off →
    off + k ≤ in_osd2_blocks_hi ∨ in_osd2_blocks_hi + 2 ≤ off →
    ld k (add_iblocks e d inode) off = ld k inode off.
Proof.
  unfold add_iblocks. set (v := u32 _). set (v' := u16 _).
  destruct (fset_outside 4 in_blocks_lo v inode) as [Hl1 Hs1]; [lia|]. case_if; [|auto].
  destruct (fset_outside 2 in_osd2_blocks_hi v' (fset 4 in_blocks_lo v inode)) as [Hl2 Hs2]; [lia|].
  split; [congruence|]. intros k off Hk Hd1 Hd2. rewrite Hs2, Hs1 by done. done.
Qed.

Lemma node_holds_ext b b' rs :
  (∀ k off, 0 ≤ k → in_u ≤ off → off + k ≤ in_u + 60 → ld k b' off = ld k b off) →
  zlen rs ≤ 4 → node_holds b in_u 0 rs → node_holds b' in_u 0 rs.
Proof.
  intros Hs Hn Hh i r Hi. rewrite <- (Hh i r Hi). apply lookup_lt_Some in Hi as Hlt. unfold zlen in Hn.
  unfold ex_at, ld32, ld16, ex_first_block, ex_count, ex_start_hi, ex_start_lo.
  by rewrite !Hs by (unfold in_u; lia).
Qed.

Lemma alloc_inv_hp (w : W) h : alloc_inv w → alloc_inv (set_hp h w).
Proof. intros [[] ? ? ? ?]. split; [by split|done..]. Qed.

(** The extent tree in [inode] maps the file blocks as [runs] do. *)
Definition maps_runs (inode : list Z) (runs : list run) : Prop :=
  ∀ logical (w : W), 0 ≤ logical →
    extent_lookup inode logical w = Some (Some (lookup_runs runs logical), w).

Lemma build_tree_maps (w : W) ino runs inode e d :
  zlen inode = 256 → zlen runs ≤ ROOT_MAX_ENTRIES → Forall run_ok runs →
  ∃ inode', build_tree ino runs inode w = Some ((0, inode'), w) ∧ same_outside inode inode' in_u 60 ∧
    maps_runs inode' runs ∧ maps_runs (add_iblocks e d inode') runs.
Proof.
  intros Hlen Hn Hok.
  destruct (build_tree_inline w ino runs inode Hlen Hn Hok) as (i & Hb & Hs & Hm & Hd & He & Hnode).
  exists i. split; [done|]. split; [done|]. split.
  - intros l w' Hl. by eapply extent_lookup_inline.
  - destruct (add_iblocks_outside e d i) as [_ Ho].
    assert (Hu : ∀ k off, 0 ≤ k → in_u ≤ off → off + k ≤ in_u + 60 →
      ld k (add_iblocks e d i) off = ld k i off).
    { intros. apply Ho; [done|unfold in_u, in_blocks_lo in *; lia|unfold in_u, in_osd2_blocks_hi in *; lia]. }
    intros l w' Hl. eapply extent_lookup_inline; [| | |done| |done|done].
    + unfold ld16. rewrite Hu by (unfold in_u, eh_magic; lia). exact Hm.
    + unfold ld16. rewrite Hu by (unfold in_u, eh_depth; lia). exact Hd.
    + unfold ld16. rewrite Hu by (unfold in_u, eh_entries; lia). exact He.
    + by eapply node_holds_ext.
Qed.

Lemma kfree_eq (w : W) p L :
  al_inv (hp w) (p :: L) → ∃ h, kfree (Some p) w = Some (tt, set_hp h w) ∧ al_inv h L.
Proof.
  intros Hal. destruct (al_free (hp w) L p Hal) as (h & Hf & Hinv). exists h.
  unfold kfree, heap_call. by rewrite Hf.
Qed.

(** [e4_append_blocks] fails when the heap has no room for the list of runs or
    the disk is full. Otherwise it has written the blocks of the plan, and with at
    most four runs the inode it returns maps them. *)
Lemma append_blocks_run (w : W) inode ino count data L :
  alloc_inv w → al_inv (hp w) L → 0 < count ≤ 32767 → count * block_size (e4 w) ≤ zlen data →
  zlen inode = 256 → bytes_ok data →
  ∃ p h, al_kzalloc (16 * (count + 1)) (hp w) = Some (p, h) ∧
    match p, plan (e4 w) (in_use w) 0 (Z.to_nat count) with
    | Some _, Some blks =>
        ∃ runs w1, append_loop (Z.to_nat count) 0 0 (Some data) [] (set_hp h w) = Some (Some runs, w1) ∧
          appended (set_hp h w) w1 0 data runs blks ∧ zlen blks = count ∧
          (zlen runs ≤ ROOT_MAX_ENTRIES →
            ∃ inode' h', e4_append_blocks inode ino 0 count (Some data) w = Some ((0, inode'), set_hp h' w1) ∧
              maps_runs inode' runs ∧ al_inv h' L ∧
              fget 4 inode' in_flags = fget 4 inode in_flags ∧ zlen inode' = 256)
    | _, _ => ∃ w', e4_append_blocks inode ino 0 count (Some data) w = Some ((-1, inode), w') ∧ al_inv (hp w') L
    end.
Proof.
  intros Hi Hal Hc Hd Hlen Hby. unfold e4_append_blocks.
  rewrite (u32_small (count + 1)), u32_small by lia.
  destruct (al_zalloc (hp w) L (16 * (count + 1)) Hal) as (p & h & Hz & Hres); [lia|].
  assert (Hkz : kzalloc (16 * (count + 1)) w = Some (p, set_hp h w)).
  { unfold kzalloc, heap_call. by rewrite Hz. }
  exists p, h. split; [done|]. destruct p as [p|]; [|rewrite (bind_eq _ _ _ _ _ Hkz); eauto].
  destruct Hres as (_ & _ & Hres). pose proof (alloc_inv_hp w h Hi) as Hi'.
  destruct (append_loop_wp (set_hp h w) 0 data (Z.to_nat count) (set_hp h w) [] [])
    as (r & w1 & Hloop & Hr);
    [done|by apply appended_start|lia|change (zlen []) with 0; lia..|
     change (zlen []) with 0; rewrite Z2Nat.id by lia; exact Hd|exact Hby|].
  change (zlen []) with 0 in Hloop, Hr. change (in_use (set_hp h w)) with (in_use w) in Hr.
  change (e4 (set_hp h w)) with (e4 w) in Hr. change (0 + 0) with 0 in Hr.
  destruct (plan _ _ _ _) as [blks|].
  - destruct Hr as (runs & -> & Hap & Hbl). cbn [app] in Hap. exists runs, w1.
    split; [done|]. split; [done|]. split; [unfold zlen; lia|]. intros Hn.
    rewrite (bind_eq _ _ _ _ _ Hkz), (bind_eq _ _ _ _ _ Hloop).
    pose proof (ap_quiet _ _ _ _ _ _ Hap) as (Hg1 & _ & Hhp & _).
    destruct (build_tree_maps w1 ino runs inode (e4 w1) (count * block_size (e4 w1)))
      as (i' & Hb & Hs & _ & Hmaps); [done|done|by eapply ap_runs|].
    mred. mstep Hb. change (truthy 0) with false. cbv iota.
    destruct (kfree_eq w1 p L) as (h2 & Hf & Hinv); [by rewrite Hhp|]. mstep Hf.
    destruct (add_iblocks_outside (e4 w1) (count * block_size (e4 w1)) i') as [Hl' Ho].
    eexists _, h2. split; [reflexivity|]. split; [done|]. split; [done|].
    destruct Hs as [Hl Hs]. split; [|congruence]. unfold fget. f_equal.
    rewrite Ho by (unfold in_flags, in_blocks_lo, in_osd2_blocks_hi; lia).
    apply Hs; [lia|unfold in_flags, in_u; lia].
  - destruct Hr as (-> & (_ & _ & Hhp & _) & _). rewrite (bind_eq _ _ _ _ _ Hkz), (bind_eq _ _ _ _ _ Hloop).
    destruct (kfree_eq w1 p L) as (h2 & Hf & Hinv); [by rewrite Hhp|].
    mred. mstep Hf. eexists. split; [reflexivity|done].
Qed.
End fsops_proofs.

(** ** Directory lookup *)

(** A callback that returns 0 only when it leaves its context alone. *)
Definition quiet_cb {C} (cb : dir_cb C) : Prop :=
  ∀ nm ino ft c c', cb nm ino ft c = Some (0, c') → c' = c.

Lemma lookup_cb_quiet want : quiet_cb (lookup_cb want).
Proof.
  intros nm ino ft c c'. unfold lookup_cb. destruct (k_strcmp nm want) as [x|]; simpl; [|done].
  destruct (x =? 0); congruence.
Qed.

Lemma scan_quiet {C} (cb : dir_cb C) e blk : quiet_cb cb → ∀ fuel d c c',
  scan_dirent_block fuel e blk d cb c = Some (0, c') → c' = c.
Proof.
  intros Hq. induction fuel as [|f IH]; intros d c c' E; [done|]. cbn [scan_dirent_block] in E.
  destruct (block_size e <? d + 8); [congruence|].
  destruct (de_at blk d) as [[[[ino rl] nl] ft]|]; [|done]. cbn [mbind option_bind] in E.
  destruct (bad_rec _ _ _); [congruence|]. destruct ((rl =? _) && _)%bool; [congruence|].
  destruct (ino =? 0); [by eapply IH|]. destruct (_ || _)%bool; [congruence|].
  destruct (slice blk (d + 8) nl) as [nm|]; [|done]. cbn [mbind option_bind] in E.
  destruct (cb (nm ++ [0]) ino ft c) as [[rc c1]|] eqn:Ecb; [|done]. cbn [mbind option_bind] in E.
  destruct (truthy rc) eqn:Et.
  - injection E as -> ->. done.
  - unfold truthy in Et. bool_prop. subst rc. apply Hq in Ecb as ->. by eapply IH.
Qed.

Section lookup_proofs.
Context {D H : Type} `{Allocator H}.
#[local] Abbreviation W := (world D H).

Lemma iterate_quiet {C} (cb : dir_cb C) din : quiet_cb cb → ∀ n bi c (w : W),
  wlp (iterate_blocks n din bi cb c) (λ r _, fst r = 0 → snd r = c) w.
Proof.
  intros Hq. induction n as [|n IH]; intros bi c w; cbn [iterate_blocks]; [by apply wlp_ret|].
  apply wlp_bind. intros [db|] w1 _; [|by apply wlp_ret]. destruct (db =? 0); [apply IH|].
  apply wlp_bind. intros rc w2 _. destruct (truthy rc); [by apply wlp_ret|].
  wlp_pure. destruct a as [rc' c']. destruct (bufget e4_block_buf w2) as [b|]; [|done].
  cbn [mbind option_bind] in *. destruct (truthy rc') eqn:Et.
  - apply wlp_ret. simpl. intros ->. done.
  - unfold truthy in Et. bool_prop. subst rc'. apply (scan_quiet cb _ _ Hq) in H1 as ->. apply IH.
Qed.

(** [e4_dir_lookup] never finds anything. The callback stops the
    iteration with a non-zero code when the name matches, and the lookup takes
    every non-zero code for an error: whatever the directory holds, every run
    that returns, returns -1. *)
Theorem e4_dir_lookup_never_finds (w : W) dir_ino name r w' :
  e4_dir_lookup dir_ino name w = Some (r, w') → r = None.
Proof.
  revert r w'. change (wlp (e4_dir_lookup dir_ino name) (λ r _, r = None) w). unfold e4_dir_lookup.
  apply (wlp_call _ _ (λ r _, fst r = 0 → snd r = 0)).
  - unfold e4_iterate_dir. apply wlp_bind. intros din w1 _. apply wlp_bind. intros [rc din'] w2 _.
    destruct (truthy rc); [by apply wlp_ret|]. destruct (negb _); [by apply wlp_ret|]. wlp_pure.
    apply wlp_bind. intros n w3 _. apply iterate_quiet, lookup_cb_quiet.
  - intros [rc found] w1 Hf. simpl in Hf. destruct (truthy rc) eqn:Et; [by apply wlp_ret|].
    unfold truthy in Et. bool_prop. rewrite Hf by done. rewrite Z.eqb_refl. by apply wlp_ret.
Qed.
End lookup_proofs.

(** A directory (inode 2) whose only block, block 11, holds the record of the
    file [a], inode 12. *)
Definition demo_dir_inode : list Z :=
  default [] (i ← put_header (fset 2 in_mode 0x41ED (fset 4 in_size_lo 1024
                (fset 4 in_flags INO_FLAG_EXTENTS (zeros 256)))) in_u 1 4 0;
              put_ex i (in_u + 12) (Run 11 0 1)).
Definition demo_dir_block : list Z :=
  default [] (b ← st32 (zeros 1024) de_inode 12; b ← st16 b de_rec_len 1024;
              b ← st8 b de_name_len 1; b ← st8 b de_file_type 1; splice b 8 [97]).
Definition demo_dir_img : list Z :=
  zeros 5120 ++ zeros 192 ++ take 192 demo_dir_inode ++ zeros 5760 ++ demo_dir_block ++ zeros 4096.

Lemma e4_dir_lookup_never_finds_witness :
  ∃ w', fst <$> e4_iterate_dir 2 (λ nm ino _ c, Some (0, c ++ [(nm, ino)])) [] (demo_world demo_dir_img)
          = Some (0, [([97; 0], 12)]) ∧
    e4_dir_lookup 2 [97; 0] (demo_world demo_dir_img) = Some (None, w').
Proof.
  destruct (e4_dir_lookup 2 [97; 0] (demo_world demo_dir_img)) as [[r w']|] eqn:E; [|by vm_compute in E].
  exists w'. split; [vm_compute; reflexivity|].
  by rewrite (e4_dir_lookup_never_finds (demo_world demo_dir_img) 2 [97; 0] r w' E).
Defined.

(** A run no longer than an extent can be, and the part of it that is stored:
    [build_tree] keeps 32767 blocks of a run of 32768. *)
Definition run_fits (r : run) : Prop :=
  0 ≤ r_first r ∧ 0 < r_count r ≤ 32768 ∧ r_first r + r_count r < 2 ^ 32 ∧ 0 ≤ r_start r < 2 ^ 48.
Definition stored (r : run) : run := Run (r_start r) (r_first r) (Z.min 32767 (r_count r)).

Lemma stored_ok r : run_fits r → run_ok (stored r).
Proof. intros (? & ? & ? & ?). unfold run_ok, stored. simpl. lia. Qed.
Lemma stored_short runs : Forall (λ r, r_count r < 32768) runs → map stored runs = runs.
Proof.
  induction 1 as [|[st f c] runs Hr _ IH]; [done|]. cbn [map]. rewrite IH. f_equal. unfold stored.
  simpl in *. f_equal. lia.
Qed.
Lemma put_runs_stored runs : ∀ b o, Forall run_fits runs → put_runs b o (map stored runs) = put_runs b o runs.
Proof.
  induction runs as [|r runs IH]; intros b o Hok; [done|].
  apply list.Forall_cons in Hok as [Hr Hok].
  cbn [put_runs map]. assert (Hp : put_ex b o (stored r) = put_ex b o r).
  { unfold put_ex. destruct Hr as (_ & Hc & _). assert (Hl : run_len (stored r) = run_len r); [|by rewrite Hl].
    unfold run_len, stored. simpl. destruct (Z.eqb_spec (r_count r) 32768) as [->|]; [done|].
    rewrite (proj2 (Z.eqb_neq (Z.min _ _) 32768)) by lia. f_equal. lia. }
  rewrite Hp. destruct (put_ex b o r); [|done]. cbn [mbind option_bind]. by apply IH.
Qed.

(** C36: an extent tree that [build_tree] makes from at most four runs of at most
    32768 blocks is read back by [extent_lookup] for every file block: the disk
    block of the run that contains it, 0 for a hole; the rest of the inode is
    untouched. Of a run of exactly 32768 blocks the last one is not stored and
    reads as a hole unless another run has it; shorter runs are read back as they
    are. *)
Theorem extent_tree_roundtrip {D H} `{Allocator H} (w : world D H) ino runs inode :
  zlen inode = 256 → zlen runs ≤ ROOT_MAX_ENTRIES → Forall run_fits runs →
  ∃ inode', build_tree ino runs inode w = Some ((0, inode'), w) ∧ same_outside inode inode' in_u 60 ∧
    (∀ logical, 0 ≤ logical →
      extent_lookup inode' logical w = Some (Some (lookup_runs (map stored runs) logical), w)) ∧
    (Forall (λ r, r_count r < 32768) runs → ∀ logical, 0 ≤ logical →
      extent_lookup inode' logical w = Some (Some (lookup_runs runs logical), w)).
Proof.
  intros Hl Hn Hok. assert (Hok' : Forall run_ok (map stored runs)).
  { apply Forall_fmap. eapply list.Forall_impl; [exact Hok|]. apply stored_ok. }
  assert (Hn' : zlen (map stored runs) = zlen runs) by (unfold zlen; by rewrite length_map).
  destruct (build_tree_inline w ino (map stored runs) inode) as (i & Hb & ? & ? & ? & ? & ?); [done|lia|done|].
  assert (Hback : ∀ logical, 0 ≤ logical →
    extent_lookup i logical w = Some (Some (lookup_runs (map stored runs) logical), w)).
  { intros. by eapply extent_lookup_inline. }
  exists i. split; [|split; [done|split; [exact Hback|]]].
  - rewrite <- Hb. unfold build_tree. rewrite Hn'. mred. rewrite (proj2 (Z.leb_le _ _) Hn).
    destruct (put_header _ _ _ _ _) as [b|]; [|done]. mred. by rewrite put_runs_stored.
  - intros Hs. by rewrite stored_short in Hback.
Qed.

Lemma extent_tree_roundtrip_witness :
  let runs := [Run 100 0 3; Run 4000000000 3 1; Run 7 10 32768] in
  ∃ inode', build_tree 12 runs (zeros 256) (demo_world []) = Some ((0, inode'), demo_world []) ∧
    same_outside (zeros 256) inode' in_u 60 ∧
    ∀ logical, 0 ≤ logical →
      extent_lookup inode' logical (demo_world []) =
        Some (Some (lookup_runs [Run 100 0 3; Run 4000000000 3 1; Run 7 10 32767] logical), demo_world []).
Proof.
  destruct (extent_tree_roundtrip (demo_world []) 12 [Run 100 0 3; Run 4000000000 3 1; Run 7 10 32768] (zeros 256))
    as (i & Hb & Hs & Hl & _);
    [reflexivity | vm_compute; discriminate | repeat constructor; simpl; lia|].
  exists i. split; [exact Hb|]. split; [exact Hs|exact Hl].
Defined.

(** The last block of the longest run is lost. *)
Example long_run_loses_block :
  (let* (_, i) := build_tree 12 [Run 7 10 32768] (zeros 256) in
   let* a := extent_lookup i (10 + 32766) in let* b := extent_lookup i (10 + 32767) in ret (a, b))
    (demo_world []) = Some ((Some (7 + 32766), Some 0), demo_world []).
Proof. vm_compute. reflexivity. Qed.
