(* ===== verification/Ext4Dirent.v ===== *)
(** * fs/ext4_fsops.c: directory blocks as lists of entries

    A directory block is tiled by records; the entries of the block are its
    live records. The scans and edits that [Ext4Dir] translates from the code
    refine the list of entries: scanning visits it in order, inserting adds
    one entry, removing deletes one. *)
From S2P Require Import Prelude KString Csum Blkdev Alloc Ext4Disk Ext4Core Ext4Map Ext4Alloc Ext4Dir.

(** ** Abstraction *)

(** An entry: name, inode, file type. *)
Definition dentry : Type := list Z * Z * Z.

(** A record: inode, length, name length, type, name. *)
Record drec := Drec { dr_ino : Z; dr_len : Z; dr_nl : Z; dr_ft : Z; dr_name : list Z }.

Definition live (r : drec) : option dentry :=
  if dr_ino r =? 0 then None else Some (dr_name r, dr_ino r, dr_ft r).

(** A live record has a name that fits and an inode of the filesystem. *)
Definition rec_ok (icount : Z) (r : drec) : Prop :=
  8 ≤ dr_len r < 65536 ∧ dr_len r mod 4 = 0 ∧ 0 ≤ dr_nl r < 256 ∧ 0 ≤ dr_ino r < 2 ^ 32 ∧ 0 ≤ dr_ft r < 256 ∧
  (dr_ino r ≠ 0 → 0 < dr_nl r ∧ 8 + dr_nl r ≤ dr_len r ∧ dr_ino r ≤ icount ∧ nonul (dr_name r) ∧
                  zlen (dr_name r) = dr_nl r).

(** The bytes of [blk] from offset [d] on are the records [rs]. *)
Inductive tiled (bs icount : Z) (blk : list Z) : Z → list drec → Prop :=
  | tiled_end d : 0 ≤ d ≤ bs → bs < d + 8 → tiled bs icount blk d []
  | tiled_cons d r rs :
      0 ≤ d → de_at blk d = Some (dr_ino r, dr_len r, dr_nl r, dr_ft r) →
      rec_ok icount r → (dr_ino r ≠ 0 → slice blk (d + 8) (dr_nl r) = Some (dr_name r)) →
      tiled bs icount blk (d + dr_len r) rs → tiled bs icount blk d (r :: rs).

(** The block holds the entries [L]. *)
Definition dir_block (bs icount : Z) (blk : list Z) (L : list dentry) : Prop :=
  zlen blk = bs ∧ bs < 2 ^ 31 ∧ ∃ rs, tiled bs icount blk 0 rs ∧ omap live rs = L.

Definition names (L : list dentry) : list (list Z) := L.*1.*1.

(** What a scan does with its callback: visit in order, stop on a non-zero code. *)
Fixpoint visit {C} (cb : dir_cb C) (L : list dentry) (ctx : C) : option (Z * C) :=
  match L with
  | [] => Some (0, ctx)
  | (nm, ino, ft) :: r =>
      match cb (nm ++ [0]) ino ft ctx with
      | Some (rc, ctx) => if truthy rc then Some (rc, ctx) else visit cb r ctx
      | None => None
      end
  end.

(** ** Records *)

Lemma tiled_range bs ic blk d rs : tiled bs ic blk d rs → 0 ≤ d ≤ bs.
Proof.
  induction 1 as [|d r rs Hd _ Hok _ _ IH]; [done|]. destruct Hok. lia.
Qed.

Lemma rec_head bs ic blk d r rs : tiled bs ic blk d (r :: rs) →
  (bs <? d + 8) = false ∧ bad_rec (dr_len r) d bs = false.
Proof.
  intros Ht. inversion Ht as [|? ? ? Hd Hde Hok Hnm Hrest]; subst. destruct Hok as (? & Hm & _).
  pose proof (tiled_range _ _ _ _ _ Hrest). split; [apply Z.ltb_ge; lia|].
  unfold bad_rec. rewrite (proj2 (Z.eqb_neq _ _)) by lia. rewrite (proj2 (Z.ltb_ge _ _)) by lia.
  replace (Z.land (dr_len r) 3) with (dr_len r mod 4) by (symmetry; apply (land_ones_low _ 2); lia).
  by rewrite Hm.
Qed.

Lemma tiled_end_nil bs ic blk d rs : tiled bs ic blk d rs → bs < d + 8 → rs = [].
Proof.
  intros Ht Hd. destruct Ht as [|d r rs Hd0 _ Hok _ Ht]; [done|].
  destruct Hok. pose proof (tiled_range _ _ _ _ _ Ht). lia.
Qed.

(** The dead record the code takes for a hash-tree fake fills the block. *)
Lemma fake_record bs ic blk d r rs :
  tiled bs ic blk d (r :: rs) → (dr_len r =? bs) && (dr_nl r =? 0) = true →
  dr_ino r = 0 ∧ rs = [].
Proof.
  intros Ht E. apply andb_prop in E as [E1%Z.eqb_eq E2%Z.eqb_eq].
  inversion Ht as [|? ? ? Hd _ Hok _ Hrest]; subst. destruct Hok as (_ & _ & _ & _ & _ & Hlive).
  split.
  - destruct (decide (dr_ino r = 0)) as [|Hne]; [done|]. destruct (Hlive Hne). lia.
  - eapply tiled_end_nil; [exact Hrest|lia].
Qed.

(** ** Scanning *)

Lemma scan_visit {C} e blk (cb : dir_cb C) d rs : tiled (block_size e) (inodes_count e) blk d rs →
  ∀ fuel ctx, block_size e - d < Z.of_nat fuel →
  scan_dirent_block fuel e blk d cb ctx = visit cb (omap live rs) ctx.
Proof.
  induction 1 as [d Hd He|d r rs Hd Hde Hok Hnm Ht IH]; intros [|fuel] ctx Hf; try lia; cbn [scan_dirent_block].
  { by rewrite (proj2 (Z.ltb_lt _ _)) by lia. }
  { pose proof (tiled_range _ _ _ _ _ Ht). destruct Hok. lia. }
  assert (Hcons : tiled (block_size e) (inodes_count e) blk d (r :: rs)) by by constructor.
  destruct (rec_head _ _ _ _ _ _ Hcons) as [E1 E2]. rewrite E1, Hde. cbn [mbind option_bind]. rewrite E2.
  pose proof (fake_record _ _ _ _ _ _ Hcons) as Hfake.
  destruct Hok as (Hlen & _ & Hnl & _ & _ & Hlive).
  cbn [omap list_omap]. unfold live at 1.
  destruct ((dr_len r =? block_size e) && (dr_nl r =? 0)).
  { destruct (Hfake eq_refl) as [-> ->]. done. }
  destruct (Z.eqb_spec (dr_ino r) 0) as [Ez|Hne]; [apply IH; lia|].
  destruct (Hlive Hne) as (Hnl0 & Hfit & Hic & _).
  rewrite (proj2 (Z.eqb_neq _ _)), (proj2 (Z.ltb_ge _ _)), (proj2 (Z.ltb_ge (inodes_count e) _)) by lia.
  cbn [orb]. rewrite (Hnm Hne). cbn [mbind option_bind visit].
  destruct (cb _ _ _ ctx) as [[rc c]|]; [|done]. cbn [mbind option_bind].
  destruct (truthy rc); [done|]. apply IH. lia.
Qed.

(** ** Editing *)

(** [b'] is [b] outside the bytes from [lo] to [hi]. *)
Definition kept (lo hi : Z) (b b' : list Z) : Prop :=
  zlen b' = zlen b ∧ ∀ o n, 0 ≤ n → o + n ≤ lo ∨ hi ≤ o → slice b' o n = slice b o n.

Lemma kept_refl lo hi b : kept lo hi b b.
Proof. by split. Qed.
Lemma kept_trans lo hi b1 b2 b3 : kept lo hi b1 b2 → kept lo hi b2 b3 → kept lo hi b1 b3.
Proof.
  intros [L1 S1] [L2 S2]. split; [congruence|]. intros o n Hn Hd. by rewrite S2, S1.
Qed.
Lemma kept_splice lo hi b o l b' :
  splice b o l = Some b' → lo ≤ o → o + zlen l ≤ hi → kept lo hi b b'.
Proof.
  intros E Hlo Hhi. split; [by eapply splice_zlen|]. intros o' n Hn Hd.
  eapply slice_splice_ne; [exact E|]. lia.
Qed.
Lemma kept_st lo hi n b o v b' :
  0 ≤ n → st n b o v = Some b' → lo ≤ o → o + n ≤ hi → kept lo hi b b'.
Proof.
  intros Hn E Hlo Hhi. eapply kept_splice; [exact E|done|].
  unfold zlen. rewrite length_le_to. lia.
Qed.
Lemma kept_ld lo hi b b' n o : kept lo hi b b' → 0 ≤ n → o + n ≤ lo ∨ hi ≤ o → ld n b' o = ld n b o.
Proof. intros [_ K] Hn Hd. unfold ld. by rewrite K. Qed.
Lemma kept_de lo hi b b' d : kept lo hi b b' → d + 8 ≤ lo ∨ hi ≤ d → de_at b' d = de_at b d.
Proof.
  intros K Hd. unfold de_at, ld8, ld16, ld32, de_inode, de_rec_len, de_name_len, de_file_type.
  by rewrite !(kept_ld _ _ _ _ _ _ K) by lia.
Qed.

(** Records outside the edited bytes stay. *)
Lemma kept_tiled lo hi bs ic b b' d rs : kept lo hi b b' → hi ≤ d → tiled bs ic b d rs → tiled bs ic b' d rs.
Proof.
  intros K Hd Ht. induction Ht as [d Hd0 He|d r rs Hd0 Hde Hok Hnm Ht IH]; [by constructor|].
  destruct Hok as (Hlen & Hok). constructor; [done| |by split| |apply IH; lia].
  - rewrite (kept_de _ _ _ _ _ K); [done|lia].
  - intros Hne. destruct K as [_ K]. rewrite K; [auto|lia|lia].
Qed.
Lemma kept_record lo hi bs ic b b' d r rs :
  kept lo hi b b' → tiled bs ic b d (r :: rs) → d + dr_len r ≤ lo → ∀ rs', tiled bs ic b' (d + dr_len r) rs' → tiled bs ic b' d (r :: rs').
Proof.
  intros K Ht Hlo rs' Ht'. inversion Ht as [|? ? ? Hd Hde Hok Hnm Hrest]; subst.
  constructor; [done| |done| |done].
  - rewrite (kept_de _ _ _ _ _ K); [done|]. destruct Hok. lia.
  - intros Hne. destruct Hok as (Hlen & _ & Hnl & _ & _ & Hlive). destruct (Hlive Hne) as (? & ? & _).
    destruct K as [_ K]. rewrite K; [auto|lia|lia].
Qed.

Lemma mem_cmp_spec n : ∀ a b, (n ≤ length a)%nat → (n ≤ length b)%nat →
  ∃ c, mem_cmp a b n = Some c ∧ (c = 0 ↔ take n a = take n b).
Proof.
  induction n as [|n IH]; intros [|x a] [|y b] Ha Hb; simpl in *; try lia; [by exists 0..|].
  destruct (Z.eqb_spec x y) as [->|Hne]; simpl.
  - destruct (IH a b) as (c & -> & Hc); [lia..|]. exists c. split; [done|]. rewrite Hc. split; congruence.
  - eexists. split; [done|]. split; [lia|congruence].
Qed.

(** The comparison of [e4_dir_remove_entry] decides equality of names. *)
Lemma name_eq bs ic blk d r rs b nm :
  tiled bs ic blk d (r :: rs) → zlen blk = bs → cstr b nm → dr_ino r ≠ 0 →
  (if truthy (dr_ino r) && (dr_nl r =? zlen nm)
   then c ← memcmp (drop (Z.to_nat (d + 8)) blk) b (Z.to_nat (dr_nl r)); Some (c =? 0)
   else Some false) = Some (bool_decide (dr_name r = nm)).
Proof.
  intros Ht Hbs [Hnm [rest ->]] Hne. inversion Ht as [|? ? ? Hd Hde Hok Hname Hrest]; subst.
  destruct Hok as (Hlen & _ & Hnl & _ & _ & Hlive). destruct (Hlive Hne) as (? & ? & _ & _ & Hz).
  specialize (Hname Hne). rewrite truthy_true by done. cbn [andb].
  destruct (Z.eqb_spec (dr_nl r) (zlen nm)) as [E|E].
  2: { rewrite bool_decide_eq_false_2; [done|]. intros <-. lia. }
  apply slice_Some in Hname as (? & ? & ? & Hname).
  destruct (mem_cmp_spec (Z.to_nat (dr_nl r)) (drop (Z.to_nat (d + 8)) blk) (nm ++ 0 :: rest)) as (c & Ec & Hc).
  { rewrite length_drop. unfold zlen in *. lia. }
  { rewrite length_app. unfold zlen in *. lia. }
  unfold memcmp. rewrite Ec. cbn [mbind option_bind]. f_equal. rewrite <- Hname in Hc.
  rewrite take_app_le, take_ge in Hc by (unfold zlen in *; lia).
  destruct (Z.eqb_spec c 0) as [E0|E0]; symmetry.
  - apply bool_decide_eq_true_2. by apply Hc.
  - apply bool_decide_eq_false_2. intros En. by apply E0, Hc.
Qed.

Definition kill (r : drec) : drec := Drec 0 (dr_len r) (dr_nl r) (dr_ft r) (dr_name r).

(** Overwriting the inode of the first record by zero. *)
Lemma kill_tiled bs ic b b' d r rs :
  tiled bs ic b d (r :: rs) → st32 b (d + de_inode) 0 = Some b' → tiled bs ic b' d (kill r :: rs).
Proof.
  intros Ht Hs. inversion Ht as [|? ? ? Hd Hde Hok Hname Hrest]; subst.
  assert (K : kept d (d + 4) b b') by (eapply kept_st; [|exact Hs|..]; unfold de_inode; lia).
  destruct Hok as (Hlen & Hm & Hnl & _ & Hft & _). constructor; [done| | | |].
  - simpl. unfold de_at, ld8, ld16, ld32 in *.
    rewrite (ld_st_same Hs) by (try lia; done). cbn [mbind option_bind].
    unfold de_inode, de_rec_len, de_name_len, de_file_type in *.
    rewrite !(kept_ld _ _ _ _ _ _ K) by lia.
    destruct (ld 4 b (d + 0)); [|done]. cbn [mbind option_bind] in Hde.
    destruct (ld 2 b (d + 4)); [|done]. cbn [mbind option_bind] in *.
    destruct (ld 1 b (d + 6)); [|done]. cbn [mbind option_bind] in *.
    destruct (ld 1 b (d + 7)); [|done]. cbn [mbind option_bind] in *. by simplify_eq.
  - unfold rec_ok, kill. simpl. split_and!; try lia; done.
  - simpl. done.
  - eapply kept_tiled; [exact K|cbn [kill dr_len]; lia|done].
Qed.

(** *** Removing *)

(** Finding the record of a name, and what killing it leaves. *)
Lemma find_entry_spec bs ic blk b nm d rs : tiled bs ic blk d rs → zlen blk = bs → cstr b nm →
  ∀ fuel, bs - d < Z.of_nat fuel →
  ∃ res, find_entry fuel bs blk b (zlen nm) d = Some res ∧
    match res with
    | None => nm ∉ names (omap live rs)
    | Some d' => d ≤ d' ∧ d' + 8 ≤ bs ∧ ∃ L1 ino ft L2, omap live rs = L1 ++ (nm, ino, ft) :: L2 ∧
        (nm ∉ names L1) ∧
        ∀ blk', st32 blk (d' + de_inode) 0 = Some blk' →
          ∃ rs', tiled bs ic blk' d rs' ∧ omap live rs' = L1 ++ L2
    end.
Proof.
  intros Ht Hbs Hb. induction Ht as [d Hd He|d r rs Hd Hde Hok Hnm Ht IH]; intros [|fuel] Hf; try lia;
    cbn [find_entry].
  { rewrite (proj2 (Z.ltb_lt _ _)) by lia. exists None. split; [done|]. apply not_elem_of_nil. }
  { pose proof (tiled_range _ _ _ _ _ Ht). destruct Hok. lia. }
  assert (Hcons : tiled bs ic blk d (r :: rs)) by by constructor.
  destruct (rec_head _ _ _ _ _ _ Hcons) as [E1 E2]. rewrite E1, Hde. cbn [mbind option_bind]. rewrite E2.
  pose proof (tiled_range _ _ _ _ _ Ht). destruct Hok as (Hlen & _).
  destruct (IH fuel ltac:(lia)) as (res & Hfind & Hres).
  assert (Hskip : (dr_ino r ≠ 0 → dr_name r ≠ nm) →
    match res with
    | None => nm ∉ names (omap live (r :: rs))
    | Some d' => d ≤ d' ∧ d' + 8 ≤ bs ∧ ∃ L1 ino ft L2, omap live (r :: rs) = L1 ++ (nm, ino, ft) :: L2 ∧
        (nm ∉ names L1) ∧
        ∀ blk', st32 blk (d' + de_inode) 0 = Some blk' →
          ∃ rs', tiled bs ic blk' d rs' ∧ omap live rs' = L1 ++ L2
    end).
  { intros Hne. destruct res as [d'|].
    - destruct Hres as (Hd1 & Hd2 & L1 & ino & ft & L2 & HL & Hni & Hedit).
      split; [lia|]. split; [lia|].
      assert (Hed : ∀ blk' rs', st32 blk (d' + de_inode) 0 = Some blk' →
        tiled bs ic blk' (d + dr_len r) rs' → tiled bs ic blk' d (r :: rs')).
      { intros blk' rs' Es Ht'. eapply (kept_record d' (d' + 4)); [|exact Hcons|lia|exact Ht'].
        eapply kept_st; [|exact Es|..]; unfold de_inode; lia. }
      cbn [omap list_omap]. unfold live at 1. destruct (Z.eqb_spec (dr_ino r) 0) as [Ez|Ez].
      + exists L1, ino, ft, L2. split; [done|]. split; [done|]. intros blk' Es.
        destruct (Hedit blk' Es) as (rs' & Ht' & HL'). exists (r :: rs'). split; [by apply Hed|].
        cbn [omap list_omap]. unfold live at 1. by rewrite Ez, Z.eqb_refl.
      + exists ((dr_name r, dr_ino r, dr_ft r) :: L1), ino, ft, L2.
        split; [by rewrite HL|]. split.
        { unfold names. cbn [fmap list_fmap fst]. apply not_elem_of_cons. split; [|done]. intros ->. by apply Hne. }
        intros blk' Es. destruct (Hedit blk' Es) as (rs' & Ht' & HL'). exists (r :: rs').
        split; [by apply Hed|]. cbn [omap list_omap]. unfold live at 1.
        rewrite (proj2 (Z.eqb_neq _ _)) by done. by rewrite HL'.
    - cbn [omap list_omap]. unfold live at 1. destruct (Z.eqb_spec (dr_ino r) 0); [done|].
      unfold names. cbn [fmap list_fmap fst]. apply not_elem_of_cons. split; [|done].
      intros ->. by apply Hne. }
  destruct (Z.eqb_spec (dr_ino r) 0) as [Ez|Ez].
  { rewrite Ez. cbn [truthy negb Z.eqb andb mbind option_bind]. exists res. split; [done|]. by apply Hskip. }
  rewrite (name_eq _ _ _ _ _ _ _ _ Hcons Hbs Hb Ez). cbn [mbind option_bind].
  case_bool_decide as En.
  - exists (Some d). split; [done|]. split; [lia|]. split; [lia|].
    exists [], (dr_ino r), (dr_ft r), (omap live rs). cbn [omap list_omap]. unfold live at 1.
    rewrite (proj2 (Z.eqb_neq _ _)), En by done. split; [done|]. split; [apply not_elem_of_nil|].
    intros blk' Es. exists (kill r :: rs). split; [by eapply kill_tiled|]. done.
  - exists res. split; [done|]. by apply Hskip.
Qed.

(** *** Inserting *)

Lemma st_some {n b o v} : 0 ≤ o → 0 ≤ n → o + n ≤ zlen b → ∃ b', st n b o v = Some b' ∧ zlen b' = zlen b.
Proof.
  intros. destruct (st_is_Some n b o v) as [b' E]; [done..|]. exists b'. split; [done|].
  by eapply st_zlen.
Qed.

(** What [fill_slot] leaves at the new record and at the one before it. *)
Lemma fill_spec b d keep rest child ft name nm ino rl nl0 ft0 :
  0 ≤ d → keep = 0 ∨ 8 ≤ keep → keep < 65536 → 8 + zlen nm ≤ rest < 65536 → d + keep + rest ≤ zlen b →
  0 ≤ child < 2 ^ 32 → 0 ≤ ft < 256 → zlen nm < 256 → cstr name nm → de_at b d = Some (ino, rl, nl0, ft0) →
  ∃ b', fill_slot b d keep rest child ft (zlen nm) name = Some b' ∧ kept d (d + keep + rest) b b' ∧
    de_at b' (d + keep) = Some (child, rest, zlen nm, ft) ∧ slice b' (d + keep + 8) (zlen nm) = Some nm ∧
    (8 ≤ keep → de_at b' d = Some (ino, keep, nl0, ft0) ∧
      ∀ n, 0 ≤ n → 8 + n ≤ keep → slice b' (d + 8) n = slice b (d + 8) n).
Proof.
  intros Hd Hk Hk2 Hrest Hfit Hch Hft Hnl [Hnm [rest' ->]] Hde. pose proof (zlen_nonneg nm).
  set (p := d + keep). unfold fill_slot, st16, st32, st8, de_rec_len, de_inode, de_name_len, de_file_type.
  destruct (@st_some 2 b (d + 4) keep) as (b1 & E1 & L1); [lia..|]. rewrite E1. cbn [mbind option_bind].
  fold p. destruct (@st_some 2 b1 (p + 4) rest) as (b2 & E2 & L2); [lia..|]. rewrite E2. cbn [mbind option_bind].
  destruct (@st_some 4 b2 (p + 0) child) as (b3 & E3 & L3); [lia..|]. rewrite E3. cbn [mbind option_bind].
  destruct (@st_some 1 b3 (p + 6) (u8 (zlen nm))) as (b4 & E4 & L4); [lia..|]. rewrite E4. cbn [mbind option_bind].
  destruct (@st_some 1 b4 (p + 7) ft) as (b5 & E5 & L5); [lia..|]. rewrite E5. cbn [mbind option_bind].
  assert (En : slice (nm ++ 0 :: rest') 0 (zlen nm) = Some nm).
  { apply slice_Some. rewrite drop_0, zlen_app. pose proof (zlen_nonneg (0 :: rest')).
    split_and!; try lia. unfold zlen. by rewrite Nat2Z.id, take_app_length. }
  rewrite En. cbn [mbind option_bind].
  destruct (splice_is_Some b5 (p + 8) nm) as [b6 E6]; [lia..|]. exists b6. split; [done|].
  assert (K1 : kept (d + 4) (d + 6) b b1) by (eapply kept_st; [|exact E1|..]; lia).
  assert (K2 : kept (p + 4) (p + 6) b1 b2) by (eapply kept_st; [|exact E2|..]; lia).
  assert (K3 : kept p (p + 4) b2 b3) by (eapply kept_st; [|exact E3|..]; lia).
  assert (K4 : kept (p + 6) (p + 7) b3 b4) by (eapply kept_st; [|exact E4|..]; lia).
  assert (K5 : kept (p + 7) (p + 8) b4 b5) by (eapply kept_st; [|exact E5|..]; lia).
  assert (K6 : kept (p + 8) (p + 8 + zlen nm) b5 b6) by (eapply kept_splice; [exact E6|lia|lia]).
  assert (W : ∀ x y lo hi, kept lo hi x y → d ≤ lo → hi ≤ p + rest → kept d (p + rest) x y)
    by (intros x y lo hi [? K] ? ?; split; [done|intros; apply K; lia]).
  split_and!.
  - repeat (eapply kept_trans; [eapply W; [eassumption|lia|lia]|]). apply kept_refl.
  - unfold de_at, ld8, ld16, ld32, de_inode, de_rec_len, de_name_len, de_file_type.
    rewrite (kept_ld _ _ _ _ 4 (p + 0) K6), (kept_ld _ _ _ _ 4 (p + 0) K5), (kept_ld _ _ _ _ 4 (p + 0) K4) by lia.
    rewrite (ld_st_same E3) by lia.
    rewrite (kept_ld _ _ _ _ 2 (p + 4) K6), (kept_ld _ _ _ _ 2 (p + 4) K5), (kept_ld _ _ _ _ 2 (p + 4) K4),
      (kept_ld _ _ _ _ 2 (p + 4) K3) by lia.
    rewrite (ld_st_same E2) by lia.
    rewrite (kept_ld _ _ _ _ 1 (p + 6) K6), (kept_ld _ _ _ _ 1 (p + 6) K5) by lia.
    rewrite (ld_st_same E4) by (unfold u8; mod_lia).
    rewrite (kept_ld _ _ _ _ 1 (p + 7) K6) by lia. rewrite (ld_st_same E5) by lia.
    cbn [mbind option_bind]. by rewrite u8_small by lia.
  - by eapply slice_splice_eq.
  - intros Hk8. assert (K : kept p (p + rest) b1 b6).
    { assert (W' : ∀ x y lo hi, kept lo hi x y → p ≤ lo → hi ≤ p + rest → kept p (p + rest) x y)
        by (intros x y lo hi [? K] ? ?; split; [done|intros; apply K; lia]).
      repeat (eapply kept_trans; [eapply W'; [eassumption|lia|lia]|]). apply kept_refl. }
    split.
    + rewrite (kept_de _ _ _ _ _ K) by lia.
      unfold de_at, ld8, ld16, ld32, de_inode, de_rec_len, de_name_len, de_file_type in *.
      rewrite (ld_st_same E1) by lia. rewrite !(kept_ld _ _ _ _ _ _ K1) by lia.
      destruct (ld 4 b (d + 0)); [|done]. cbn [mbind option_bind] in *.
      destruct (ld 2 b (d + 4)); [|done]. cbn [mbind option_bind] in *.
      destruct (ld 1 b (d + 6)); [|done]. cbn [mbind option_bind] in *.
      destruct (ld 1 b (d + 7)); [|done]. cbn [mbind option_bind] in *. by simplify_eq.
    + intros n Hn Hle. destruct K as [_ K], K1 as [_ K1]. by rewrite K, K1 by lia.
Qed.

Lemma rec_need_eq nl : byte_ok nl → rec_need nl = (nl + 11) / 4 * 4.
Proof.
  intros Hb. apply Z.eqb_eq.
  apply (byte_forall (λ nl, rec_need nl =? (nl + 11) / 4 * 4)); [by vm_compute|done].
Qed.

(** The bytes a record needs for what it holds. *)
Definition used_len (r : drec) : Z := if dr_ino r =? 0 then 0 else rec_need (dr_nl r).

Lemma used_len_range ic r : rec_ok ic r →
  (dr_ino r = 0 ∧ used_len r = 0) ∨ (dr_ino r ≠ 0 ∧ 12 ≤ used_len r ≤ dr_len r ∧
    8 + dr_nl r ≤ used_len r < 300 ∧ used_len r mod 4 = 0).
Proof.
  intros (Hlen & Hm & Hnl & _ & _ & Hlive). unfold used_len.
  destruct (Z.eqb_spec (dr_ino r) 0) as [E|E]; [by left|right]. destruct (Hlive E) as (? & ? & _).
  rewrite rec_need_eq by done. split_and!; try done; try mod_lia.
Qed.

(** The bytes a record can give away. *)
Definition slack (r : drec) : Z := dr_len r - used_len r.

(** What becomes of a record when an entry is put into its slack: it shrinks to
    what it needs and the entry's record follows; a deleted one is taken whole. *)
Definition place (r : drec) (nm : list Z) (child ft : Z) : list drec :=
  let new := Drec child (slack r) (zlen nm) ft nm in
  if dr_ino r =? 0 then [new]
  else [Drec (dr_ino r) (used_len r) (dr_nl r) (dr_ft r) (dr_name r); new].

Lemma live_place r nm child ft : 0 < child →
  omap live (place r nm child ft) = option_list (live r) ++ [(nm, child, ft)].
Proof.
  intros Hc. assert (Hnew : live (Drec child (slack r) (zlen nm) ft nm) = Some (nm, child, ft)).
  { unfold live. simpl. by rewrite (proj2 (Z.eqb_neq child 0)) by lia. }
  unfold place. destruct (Z.eqb_spec (dr_ino r) 0) as [E|E]; cbn [omap list_omap]; rewrite Hnew.
  - unfold live. by rewrite E.
  - unfold live. cbn [dr_ino dr_name dr_ft]. by rewrite (proj2 (Z.eqb_neq _ 0) E).
Qed.

(** Filling the slack of the first record. *)
Lemma fill_first bs ic blk d r rs child ft name nm :
  tiled bs ic blk d (r :: rs) → zlen blk = bs → rec_need (zlen nm) ≤ dr_len r - used_len r →
  0 < child ≤ ic → child < 2 ^ 32 → 0 ≤ ft < 256 → 0 < zlen nm < 256 → cstr name nm →
  ∃ blk', fill_slot blk d (used_len r) (dr_len r - used_len r) child ft (zlen nm) name = Some blk' ∧
    kept d (d + dr_len r) blk blk' ∧ tiled bs ic blk' d (place r nm child ft ++ rs).
Proof.
  intros Ht Hbs Hneed Hch Hch2 Hft Hnl Hname. pose proof Hname as [Hnm _].
  inversion Ht as [|? ? ? Hd Hde Hok Hnmr Hrest]; subst.
  pose proof (tiled_range _ _ _ _ _ Hrest) as Hr. pose proof (used_len_range _ _ Hok) as Hu.
  pose proof Hok as (Hlen & Hm & _). rewrite rec_need_eq in Hneed by (unfold byte_ok; lia).
  edestruct (fill_spec blk d (used_len r) (dr_len r - used_len r) child ft name nm
    (dr_ino r) (dr_len r) (dr_nl r) (dr_ft r) Hd) as (blk' & Ef & K & Hp & Hpn & Hold); [| | | | | | |exact Hname|exact Hde|]; try lia.
  { mod_lia. }
  exists blk'. split; [done|]. replace (d + used_len r + (dr_len r - used_len r)) with (d + dr_len r) in K by lia.
  split; [done|]. set (r2 := Drec child (dr_len r - used_len r) (zlen nm) ft nm).
  assert (Hok2 : rec_ok ic r2).
  { assert (used_len r mod 4 = 0) by (destruct Hu as [[_ ->]|Hu]; [done|lia]).
    unfold rec_ok, r2. simpl. split_and!; try lia; try mod_lia.
    intros _. split_and!; try lia; try mod_lia; done. }
  assert (Ht2 : tiled (zlen blk) ic blk' (d + used_len r) (r2 :: rs)).
  { constructor; [lia|done|done| |].
    - intros _. simpl. exact Hpn.
    - simpl. replace (d + used_len r + (dr_len r - used_len r)) with (d + dr_len r) by lia.
      eapply kept_tiled; [exact K|lia|done]. }
  unfold place, slack. fold r2. destruct Hu as [[Hz Hu]|(Hne & Hu1 & Hu2 & Hu3)].
  - rewrite Hu, Z.add_0_r in Ht2. rewrite Hz. exact Ht2.
  - destruct Hold as [Hde' Hsl]; [lia|]. rewrite (proj2 (Z.eqb_neq _ 0) Hne). cbn [app].
    destruct Hok as (_ & _ & ? & ? & ? & Hlive). constructor; [done|done| | |done].
    + unfold rec_ok. simpl. split_and!; try lia. intros _. destruct (Hlive Hne) as (? & ? & ? & ? & ?).
      split_and!; try done; lia.
    + simpl. intros _. rewrite Hsl by lia. by apply Hnmr.
Qed.

(** The search for room, and the insertion it leads to. *)
Lemma find_slot_spec bs ic blk need d rs : tiled bs ic blk d rs → zlen blk = bs → bs < 2 ^ 31 → 0 < need →
  ∀ fuel, bs - d < Z.of_nat fuel →
  ∃ res, find_slot fuel bs need blk d = Some res ∧
    match res with
    | None => Forall (λ r, slack r < need) rs
    | Some (d', keep, rest) => d ≤ d' ∧ ∃ rs1 r rs2,
        rs = rs1 ++ r :: rs2 ∧ Forall (λ r, slack r < need) rs1 ∧ need ≤ slack r ∧
        ∀ child ft name nm,
          need = rec_need (zlen nm) → 0 < child ≤ ic → child < 2 ^ 32 → 0 ≤ ft < 256 →
          0 < zlen nm < 256 → cstr name nm →
          ∃ blk', fill_slot blk d' keep rest child ft (zlen nm) name = Some blk' ∧ kept d' bs blk blk' ∧
            tiled bs ic blk' d (rs1 ++ place r nm child ft ++ rs2)
    end.
Proof.
  intros Ht Hbs Hb31 Hneed. induction Ht as [d Hd He|d r rs Hd Hde Hok Hnm Ht IH]; intros [|fuel] Hf;
    try lia; cbn [find_slot].
  { rewrite (proj2 (Z.ltb_lt _ _)) by lia. exists None. by split. }
  { pose proof (tiled_range _ _ _ _ _ Ht). destruct Hok. lia. }
  assert (Hcons : tiled bs ic blk d (r :: rs)) by by constructor.
  destruct (rec_head _ _ _ _ _ _ Hcons) as [E1 E2]. rewrite E1, Hde. cbn [mbind option_bind]. rewrite E2.
  pose proof (tiled_range _ _ _ _ _ Ht) as Hr. pose proof (used_len_range _ _ Hok) as Hu.
  destruct Hok as (Hlen & _).
  assert (Emin : (if truthy (dr_ino r) && negb ((dr_len r =? bs) && (dr_nl r =? 0))
                  then rec_need (dr_nl r) else 0) = used_len r).
  { unfold used_len. destruct (Z.eqb_spec (dr_ino r) 0) as [Ez|Ez]; [by rewrite Ez|].
    rewrite truthy_true by done. cbn [andb].
    destruct ((dr_len r =? bs) && (dr_nl r =? 0)) eqn:Ef; [|done].
    destruct (fake_record _ _ _ _ _ _ Hcons Ef) as [? _]. done. }
  cbv zeta. rewrite Emin.
  assert (Hu' : 0 ≤ used_len r < 300 ∧ used_len r ≤ dr_len r) by lia.
  rewrite (u32_small (dr_len r - used_len r)), (u16_small (used_len r)), u16_small by lia.
  destruct (Z.leb_spec need (dr_len r - used_len r)) as [Hfit|Hno].
  - eexists. split; [done|]. split; [lia|]. exists [], r, rs. split_and!; [done|constructor|done|].
    intros child ft name nm -> Hch Hch2 Hft Hnl Hname.
    destruct (fill_first bs ic blk d r rs child ft name nm Hcons Hbs Hfit Hch Hch2 Hft Hnl Hname)
      as (blk' & Ef & K & Ht').
    exists blk'. split; [done|]. split; [|exact Ht'].
    destruct K as [Kl K]. split; [done|]. intros o n Hn Hd'. apply K; lia.
  - destruct (IH fuel ltac:(lia)) as (res & Efind & Hres). exists res. split; [done|].
    destruct res as [[[d' keep] rest]|]; [|by constructor].
    destruct Hres as (Hd' & rs1 & r' & rs2 & -> & Hsmall & Hfit & Hres). split; [lia|].
    exists (r :: rs1), r', rs2. split_and!; [done|by constructor|done|].
    intros child ft name nm Hn Hch Hch2 Hft Hnl Hname.
    destruct (Hres child ft name nm Hn Hch Hch2 Hft Hnl Hname) as (blk' & Ef & K & Ht').
    exists blk'. split; [done|]. split; [done|].
    eapply kept_record; [exact K|exact Hcons|lia|exact Ht'].
Qed.

(** ** Directories on a disk that works

    The theorems are about file systems without metadata checksums: with
    them, the routines that set a checksum overwrite the buffer that holds
    the block. *)
Section on_disk.
Context {D H : Type} `{Allocator H}.
Context (dv : blk_device D) (ok : D → Prop) (sector : D → Z → list Z)
  `{!SectorDevice dv ok sector}.
#[local] Abbreviation W := (world D H).
#[local] Abbreviation mounted := (mounted dv ok).
#[local] Abbreviation disk := (disk sector).
#[local] Abbreviation only_read := (only_read dv ok sector).

(** Inode [ino], with the bytes [din] at position [A], is a directory whose
    blocks [blks] hold the entries [Ls]. *)
Record dir_at (w : W) (ino A : Z) (din blks : list Z) (Ls : list (list dentry)) : Prop := {
  da_mounted : mounted w;
  da_placed : inode_placed (e4 w) ino A;
  da_size : inode_size (e4 w) = 256 ∧ zlen din = 256;
  da_inode : ∀ i, 0 ≤ i < 256 → din !! Z.to_nat i = dbyte sector w (A + i);
  da_dir : e4_is_dir din = true;
  da_count : u64 (e4_inode_size (e4 w) din + block_size (e4 w) - 1) / block_size (e4 w) = zlen blks;
  da_map : ∀ i b, blks !! i = Some b → 0 < b < blocks_count (e4 w) ∧
             ∀ w' : W, e4_bmap din (Z.of_nat i) w' = Some (Some b, w');
  da_nodup : NoDup blks;
  da_apart : ∀ i, 0 ≤ i < 256 → (A + i) / block_size (e4 w) ∉ blks;
  da_blocks : Forall2 (λ b L, dir_block (block_size (e4 w)) (inodes_count (e4 w)) (disk w b) L) blks Ls;
}.

Lemma only_read_refl (w : W) : mounted w → only_read w w.
Proof. intros Hm. split; [apply same_fs_refl|done]. Qed.
Lemma only_read_trans (w1 w2 w3 : W) : only_read w1 w2 → only_read w2 w3 → only_read w1 w3.
Proof.
  intros (S1 & _ & D1) (S2 & M2 & D2). split; [by eapply same_fs_trans|]. split; [done|].
  intros k Hk. by rewrite D2, D1.
Qed.

Lemma dir_at_read w w' ino A din blks Ls :
  only_read w w' → dir_at w ino A din blks Ls → dir_at w' ino A din blks Ls.
Proof.
  intros ((He & _) & Hm & Hd) [M P Z I Dr C Mp N Ap B].
  split; rewrite ?He; try done.
  - intros i Hi. rewrite (I i Hi). unfold dbyte. rewrite He, Hd; [done|].
    pose proof (placed_bounds dv ok sector _ _ _ M P) as (Hb & HA & _). apply Z.div_pos; lia.
  - apply Forall2_same_length_lookup_2; [by eapply Forall2_length|].
    intros i b L Hb HL. pose proof (Forall2_lookup_lr _ _ _ _ _ _ B Hb HL) as HB.
    destruct (Mp i b Hb) as [? _]. by rewrite Hd by lia.
Qed.

(** Reading the inode of a directory. *)
Lemma read_dir w ino A din blks Ls u :
  dir_at w ino A din blks Ls → zlen u = 256 →
  ∃ w', e4_read_inode ino u w = Some ((0, din), w') ∧ only_read w w'.
Proof.
  intros [M P [Z1 Z2] I _ _ _ _ _ _] Hu.
  destruct (e4_read_inode_flat dv ok sector w ino A u M P Hu) as (w' & out & E & Hs & Hm & Hd & Hl & Ho).
  exists w'. split; [|done]. rewrite E. do 3 f_equal. apply list_eq. intros j.
  destruct (decide (Z.of_nat j < 256)).
  - rewrite <- (Nat2Z.id j), Ho by lia. rewrite Z1, decide_True by lia. by rewrite I by lia.
  - rewrite !lookup_ge_None_2 by (unfold zlen in *; lia). done.
Qed.

(** Replacing the contents of one block. *)
Lemma dir_at_write w w' ino A din blks Ls j b blk' L' :
  dir_at w ino A din blks Ls → blks !! j = Some b → same_fs w w' → mounted w' →
  (∀ k, 0 ≤ k → disk w' k = if decide (k = b) then blk' else disk w k) →
  dir_block (block_size (e4 w)) (inodes_count (e4 w)) blk' L' →
  dir_at w' ino A din blks (<[j := L']> Ls).
Proof.
  intros [M P Z I Dr C Mp N Ap B] Hj (He & _) Hm Hd HL.
  pose proof (placed_bounds dv ok sector _ _ _ M P) as (Hb & HA & _).
  split; rewrite ?He; try done.
  - intros i Hi. rewrite (I i Hi). unfold dbyte. rewrite He, Hd by (apply Z.div_pos; lia).
    rewrite decide_False; [done|]. intros E. apply (Ap i Hi). rewrite E. by eapply list_elem_of_lookup_2.
  - apply Forall2_same_length_lookup_2.
    { rewrite length_insert. by eapply Forall2_length. }
    intros i c L Hc HLi. destruct (Mp i c Hc) as [Hc0 _]. rewrite Hd by lia.
    destruct (decide (i = j)) as [->|Hne].
    + rewrite list_lookup_insert_eq in HLi by (rewrite <- (Forall2_length B); by eapply lookup_lt_Some).
      assert (c = b) as -> by congruence. rewrite decide_True by done. congruence.
    + rewrite list_lookup_insert_ne in HLi by done.
      rewrite decide_False; [by eapply (Forall2_lookup_lr _ _ _ _ _ _ B)|].
      intros ->. apply Hne. by eapply NoDup_lookup.
Qed.

Lemma dir_blocks_eq w ino A din blks Ls (w' : W) :
  dir_at w ino A din blks Ls → dir_blocks (e4 w) din w' = Some (length blks, w').
Proof.
  intros Hd. pose proof (placed_bounds dv ok sector _ _ _ (da_mounted _ _ _ _ _ _ Hd) (da_placed _ _ _ _ _ _ Hd)) as (Hb & _).
  unfold dir_blocks. mdiv ltac:(lia). rewrite (da_count _ _ _ _ _ _ Hd). unfold ret, zlen. by rewrite Nat2Z.id.
Qed.

(** One block of the directory, read into the scratch buffer. *)
Lemma read_dir_block w w1 ino A din blks Ls j b L :
  dir_at w ino A din blks Ls → only_read w w1 → blks !! j = Some b → Ls !! j = Some L →
  ∃ w2, read_into e4_block_buf b w1 = Some (0, w2) ∧ only_read w w2 ∧
    bufget e4_block_buf w2 = Some (disk w b) ∧ e4 w2 = e4 w ∧
    dir_block (block_size (e4 w)) (inodes_count (e4 w)) (disk w b) L.
Proof.
  intros Hd Hor Hb HL. pose proof Hor as ((He & _) & Hm1 & Hd1).
  destruct (da_map _ _ _ _ _ _ Hd j b Hb) as [Hbr _].
  destruct (read_into_spec dv ok sector e4_block_buf b w1) as (w2 & E & Hs & Hm & Hbuf & _ & Hd2);
    [done|rewrite He; lia|].
  exists w2. split; [done|]. assert (only_read w1 w2) by done.
  split; [by eapply only_read_trans|]. split; [by rewrite Hbuf, Hd1 by lia|].
  split; [destruct Hs as (-> & _); done|]. exact (Forall2_lookup_lr _ _ _ _ _ _ (da_blocks _ _ _ _ _ _ Hd) Hb HL).
Qed.

Lemma visit_app {C} (cb : dir_cb C) L1 L2 ctx :
  visit cb (L1 ++ L2) ctx =
    match visit cb L1 ctx with
    | Some (rc, c) => if truthy rc then Some (rc, c) else visit cb L2 c
    | None => None
    end.
Proof.
  revert ctx. induction L1 as [|[[nm ino] ft] L1 IH]; intros ctx; [done|]. cbn [app visit].
  destruct (cb _ _ _ ctx) as [[rc c]|]; [|done]. destruct (truthy rc) eqn:E; [by rewrite E|]. apply IH.
Qed.

Lemma dir_block_scan {C} e blk L (cb : dir_cb C) ctx :
  dir_block (block_size e) (inodes_count e) blk L →
  scan_dirent_block (S (Z.to_nat (block_size e))) e blk 0 cb ctx = visit cb L ctx.
Proof.
  intros (Hl & _ & rs & Ht & <-). apply scan_visit; [done|]. pose proof (zlen_nonneg blk). lia.
Qed.

Lemma iterate_blocks_spec {C} w ino A din blks Ls (cb : dir_cb C) rc c' :
  dir_at w ino A din blks Ls → ∀ n j w1 ctx, only_read w w1 → (j + n = length blks)%nat →
  visit cb (concat (drop j Ls)) ctx = Some (rc, c') →
  wp (iterate_blocks n din (Z.of_nat j) cb ctx) (λ r w', r = (rc, c') ∧ only_read w w') w1.
Proof.
  intros Hd. pose proof (Forall2_length (da_blocks _ _ _ _ _ _ Hd)) as Hlen.
  induction n as [|n IH]; intros j w1 ctx Hor Hn Hv; cbn [iterate_blocks].
  { rewrite drop_ge in Hv by lia. injection Hv as <- <-. by apply wp_ret. }
  destruct (lookup_lt_is_Some_2 blks j) as [b Hb]; [lia|].
  destruct (lookup_lt_is_Some_2 Ls j) as [L HL]; [lia|].
  destruct (da_map _ _ _ _ _ _ Hd j b Hb) as [Hbr Hmap].
  apply wp_bind. exists (Some b), w1. split; [apply Hmap|]. rewrite (proj2 (Z.eqb_neq b 0)) by lia.
  destruct (read_dir_block w w1 ino A din blks Ls j b L Hd Hor Hb HL) as (w2 & E & Hor2 & Hbuf & He & HB).
  apply wp_bind. exists 0, w2. split; [done|]. change (truthy 0) with false. cbv iota. wp_pure.
  rewrite Hbuf, He. rewrite (drop_S _ _ _ HL) in Hv. cbn [concat] in Hv. rewrite visit_app in Hv.
  destruct (visit cb L ctx) as [[r1 c1]|] eqn:Ev; [|done].
  apply wp_bind. eapply wp_lift.
  { cbn [mbind option_bind]. rewrite (dir_block_scan _ _ _ cb ctx HB). exact Ev. }
  cbv beta iota. destruct (truthy r1); [injection Hv as -> ->; by apply wp_ret|].
  replace (Z.of_nat j + 1) with (Z.of_nat (S j)) by lia. by apply IH; [|lia|].
Qed.

Lemma iterate_dir_wp {C} w ino A din blks Ls (cb : dir_cb C) ctx rc c' :
  dir_at w ino A din blks Ls → zlen (uninit w 256) = 256 → visit cb (concat Ls) ctx = Some (rc, c') →
  ∃ w', e4_iterate_dir ino cb ctx w = Some ((rc, c'), w') ∧ only_read w w'.
Proof.
  intros Hd Hu Hv. unfold e4_iterate_dir, stack_inode. mred.
  destruct (read_dir w ino A din blks Ls (uninit w 256) Hd Hu) as (w1 & E & Hor). mstep E.
  change (truthy 0) with false. cbv iota. rewrite (da_dir _ _ _ _ _ _ Hd). cbn [negb]. mred.
  pose proof Hor as ((He & _) & _). rewrite He. mstep (dir_blocks_eq w ino A din blks Ls w1 Hd).
  destruct (iterate_blocks_spec w ino A din blks Ls cb rc c' Hd (length blks) 0 w1 ctx Hor)
    as (r & w' & Ei & -> & Hor'); [lia|done|]. by exists w'.
Qed.

(** Editing a buffer does not touch the disk. *)
Lemma only_read_buf (w w' : W) b v :
  only_read w w' → zlen v = block_size (e4 w) → bytes_ok v → only_read w (bufset b (Some v) w').
Proof.
  intros (Hs & Hm & Hk) Hl Hby. pose proof Hs as (He & _). split; [by apply same_fs_buf|].
  split; [|intros k Hk0; rewrite bufset_disk; by apply Hk].
  apply mounted_bufset; [done|by rewrite He|done].
Qed.

(** Writing the edited block back. *)
Lemma write_dir_block w w2 ino A din blks Ls j b blk' L' :
  dir_at w ino A din blks Ls → only_read w w2 → writable (e4 w) = true → blks !! j = Some b →
  bufget e4_block_buf w2 = Some blk' → dir_block (block_size (e4 w)) (inodes_count (e4 w)) blk' L' →
  ∃ w3, write_from e4_block_buf b w2 = Some (0, w3) ∧ dir_at w3 ino A din blks (<[j := L']> Ls) ∧
    same_fs w w3 ∧ ∀ k, 0 ≤ k → disk w3 k = if decide (k = b) then blk' else disk w k.
Proof.
  intros Hd (Hs & Hm & Hsame) Hw Hb Hbuf HL. destruct (da_map _ _ _ _ _ _ Hd j b Hb) as [Hbr _].
  pose proof Hs as (He & _).
  destruct (write_from_spec dv ok sector e4_block_buf b w2 blk') as (w3 & E & Hs3 & Hm3 & _ & Hd3);
    [done|by rewrite He|rewrite He; lia|done|].
  assert (Hs' : same_fs w w3) by by eapply same_fs_trans.
  exists w3. split_and!; [done| |done|].
  - eapply (dir_at_write w w3); [done|done|done|done| |done].
    intros k Hk. rewrite Hd3, Hsame by done. done.
  - intros k Hk. rewrite Hd3 by done. case_decide; [done|]. by apply Hsame.
Qed.

(** Without metadata checksums a directory block gets no checksum. *)
Lemma dir_checksum_off ino b (w : W) :
  meta_csum (e4 w) = false → e4_dir_block_checksum_set ino b w = Some (tt, w).
Proof. intros E. unfold e4_dir_block_checksum_set. mred. by rewrite E. Qed.

Lemma names_app L1 L2 : names (L1 ++ L2) = names L1 ++ names L2.
Proof. unfold names. by rewrite !fmap_app. Qed.
Lemma concat_split {X} (Ls : list (list X)) j L :
  Ls !! j = Some L → concat Ls = concat (take j Ls) ++ L ++ concat (drop (S j) Ls) ∧
    ∀ L', concat (<[j := L']> Ls) = concat (take j Ls) ++ L' ++ concat (drop (S j) Ls).
Proof.
  intros E. pose proof (lookup_lt_Some _ _ _ E). split.
  - rewrite <- (take_drop_middle Ls j L E) at 1. by rewrite concat_app.
  - intros L'. rewrite insert_take_drop by done. by rewrite concat_app.
Qed.

(** *** Removing a name *)

Lemma dir_block_find bs ic blk L b nm :
  dir_block bs ic blk L → cstr b nm →
  ∃ res, find_entry (S (Z.to_nat bs)) bs blk b (zlen nm) 0 = Some res ∧
    match res with
    | None => nm ∉ names L
    | Some d => 0 ≤ d ∧ d + 8 ≤ bs ∧ ∃ L1 ino ft L2, L = L1 ++ (nm, ino, ft) :: L2 ∧ (nm ∉ names L1) ∧
        ∀ blk', st32 blk (d + de_inode) 0 = Some blk' → dir_block bs ic blk' (L1 ++ L2)
    end.
Proof.
  intros (Hl & Hb31 & rs & Ht & <-) Hnm. pose proof (zlen_nonneg blk).
  destruct (find_entry_spec bs ic blk b nm 0 rs Ht Hl Hnm (S (Z.to_nat bs))) as (res & E & Hres); [lia|].
  exists res. split; [done|]. destruct res as [d|]; [|done].
  destruct Hres as (? & ? & L1 & ino & ft & L2 & HL & Hni & Hed). split; [done|]. split; [done|].
  exists L1, ino, ft, L2. split; [done|]. split; [done|]. intros blk' Es.
  destruct (Hed blk' Es) as (rs' & Ht' & HL'). split; [|split; [done|by exists rs']].
  by rewrite (st_zlen _ _ _ _ _ Es).
Qed.

Lemma remove_wp w ino A din blks Ls b nm :
  dir_at w ino A din blks Ls → writable (e4 w) = true → meta_csum (e4 w) = false →
  zlen (uninit w 256) = 256 → cstr b nm →
  ∃ rc w', e4_dir_remove_entry ino b w = Some (rc, w') ∧
    (rc = 0 ∧ (∃ Ls' L1 i ft L2, dir_at w' ino A din blks Ls' ∧ same_fs w w' ∧
        concat Ls = L1 ++ (nm, i, ft) :: L2 ∧ (nm ∉ names L1) ∧ concat Ls' = L1 ++ L2 ∧
        ∀ k, 0 ≤ k → k ∉ blks → disk w' k = disk w k)
     ∨ rc = -1 ∧ (nm ∉ names (concat Ls)) ∧ only_read w w').
Proof.
  intros Hd Hw Hmc Hu Hnm. unfold e4_dir_remove_entry, stack_inode. mred.
  destruct (read_dir w ino A din blks Ls (uninit w 256) Hd Hu) as (w1 & E & Hor). mstep E.
  change (truthy 0) with false. cbv iota. mred. pose proof Hor as ((He & _) & _). rewrite He.
  mstep (dir_blocks_eq w ino A din blks Ls w1 Hd). rewrite (k_strlen_cstr _ _ Hnm). mred.
  pose proof (Forall2_length (da_blocks _ _ _ _ _ _ Hd)) as Hlen.
  match goal with |- context [for_ 0 _ ?b] => set (body := b) end.
  set (Q := λ (r : option Z) (w' : W), default (-1) r = 0 ∧ (∃ Ls' L1 i ft L2, dir_at w' ino A din blks Ls' ∧
        same_fs w w' ∧ concat Ls = L1 ++ (nm, i, ft) :: L2 ∧ (nm ∉ names L1) ∧ concat Ls' = L1 ++ L2 ∧
        ∀ k, 0 ≤ k → k ∉ blks → disk w' k = disk w k)
     ∨ default (-1) r = -1 ∧ (nm ∉ names (concat Ls)) ∧ only_read w w').
  assert (Hloop : wp (for_ 0 (length blks) body) Q w1).
  { apply (wp_for (λ j w', only_read w w' ∧ nm ∉ names (concat (take (Z.to_nat j) Ls)))).
    - split; [done|]. apply not_elem_of_nil.
    - intros w' [Hor' Hni]. right. split; [done|]. split; [|done].
      rewrite take_ge in Hni by lia. done.
    - intros j w2 Hj [Hor2 Hni]. unfold body.
      destruct (lookup_lt_is_Some_2 blks (Z.to_nat j)) as [c Hc]; [lia|].
      destruct (lookup_lt_is_Some_2 Ls (Z.to_nat j)) as [L HL]; [lia|].
      destruct (da_map _ _ _ _ _ _ Hd _ c Hc) as [Hcr Hmap]. rewrite Z2Nat.id in Hmap by lia.
      apply wp_bind. exists (Some c), w2. split; [apply Hmap|]. rewrite (proj2 (Z.eqb_neq c 0)) by lia.
      destruct (read_dir_block w w2 ino A din blks Ls _ c L Hd Hor2 Hc HL) as (w3 & Er & Hor3 & Hbuf & He3 & HB).
      apply wp_bind. exists 0, w3. split; [done|]. change (truthy 0) with false. cbv iota. wp_pure. rewrite Hbuf.
      destruct (dir_block_find _ _ _ _ _ _ HB Hnm) as (res & Ef & Hres).
      apply wp_bind. eapply wp_lift; [exact Ef|]. destruct res as [d|].
      + destruct Hres as (Hd0 & Hd8 & L1 & i & ft & L2 & -> & Hni1 & Hed).
        assert (Hz : zlen (disk w c) = block_size (e4 w)) by by destruct HB.
        destruct (st_some (n := 4) (b := disk w c) (o := d + de_inode) (v := 0)) as (blk' & Es & _);
          [unfold de_inode; lia|lia|unfold de_inode; lia|].
        apply wp_bind. eexists _, _. split; [eapply buf_splice_eq; [exact Hbuf|exact Es]|].
        set (w4 := bufset e4_block_buf (Some blk') w3).
        apply wp_bind. exists tt, w4. split; [by apply dir_checksum_off; unfold w4; cbn; rewrite He3|].
        destruct (write_dir_block w w4 ino A din blks Ls (Z.to_nat j) c blk' (L1 ++ L2)) as (w5 & Ew & Hd5 & Hs5 & Hk5).
        * done.
        * apply only_read_buf; [done|by rewrite (st_zlen _ _ _ _ _ Es)|].
          eapply st_bytes_ok; [apply (disk_bytes dv ok sector w c (da_mounted _ _ _ _ _ _ Hd)); lia|exact Es].
        * done.
        * done.
        * apply bufget_set.
        * by apply Hed.
        * apply wp_bind. exists 0, w5. split; [done|]. apply wp_ret. left. split; [done|].
          destruct (concat_split Ls _ _ HL) as [Hcat Hcat'].
          exists (<[Z.to_nat j := L1 ++ L2]> Ls), (concat (take (Z.to_nat j) Ls) ++ L1), i, ft,
            (L2 ++ concat (drop (S (Z.to_nat j)) Ls)).
          split; [done|]. split; [done|]. split; [by rewrite Hcat, <- !app_assoc|].
          split; [rewrite names_app; apply not_elem_of_app; by split|].
          split; [by rewrite Hcat', <- !app_assoc|].
          intros k Hk Hnk. rewrite Hk5, decide_False; [done| |done]. intros ->. apply Hnk.
          by eapply list_elem_of_lookup_2.
      + apply wp_ret. split; [done|]. replace (Z.to_nat (j + 1)) with (S (Z.to_nat j)) by lia.
        rewrite (take_S_r _ _ _ HL), concat_app. cbn [concat]. rewrite app_nil_r, names_app.
        apply not_elem_of_app. by split. }
  destruct Hloop as (r & w' & El & HQ). mstep El. exists (default (-1) r), w'. split; [done|]. exact HQ.
Qed.

(** *** Adding a name *)

(** No record of the block has [need] bytes to spare. *)
Definition full (bs ic need : Z) (blk : list Z) : Prop :=
  ∃ rs, tiled bs ic blk 0 rs ∧ Forall (λ r, slack r < need) rs.

(** [r] is the first record of the block that has. *)
Definition first_room (bs ic need : Z) (blk : list Z) (rs1 : list drec) (r : drec) (rs2 : list drec) : Prop :=
  tiled bs ic blk 0 (rs1 ++ r :: rs2) ∧ Forall (λ r, slack r < need) rs1 ∧ need ≤ slack r.

(** The bytes decide what room the records have: a block with room in one of them
    is not full. *)
Lemma tiled_slack bs ic blk d rs :
  tiled bs ic blk d rs → ∀ rs', tiled bs ic blk d rs' → map slack rs' = map slack rs.
Proof.
  induction 1 as [d Hd He|d r rs Hd Hde Hok Hnm Ht IH]; intros rs' Ht'.
  - inversion Ht' as [|? r' rs2 ? ? Hok' ? Hr']; subst; [done|].
    pose proof (tiled_range _ _ _ _ _ Hr'). destruct Hok'. lia.
  - inversion Ht' as [|? r' rs2 ? Hde' Hok' Hnm' Hr']; subst.
    { pose proof (tiled_range _ _ _ _ _ Ht). destruct Hok. lia. }
    rewrite Hde in Hde'. injection Hde' as E1 E2 E3 E4. cbn [map].
    rewrite (IH rs2) by by rewrite E2. unfold slack, used_len. by rewrite E1, E2, E3.
Qed.
Lemma first_room_not_full bs ic need blk rs1 r rs2 :
  tiled bs ic blk 0 (rs1 ++ r :: rs2) → need ≤ slack r → full bs ic need blk → False.
Proof.
  intros Ht Hr (rs & Ht' & Hall). pose proof (tiled_slack _ _ _ _ _ Ht' _ Ht) as Hs.
  assert (Hin : slack r ∈ map slack rs).
  { rewrite <- Hs, map_app. apply elem_of_app. right. left. }
  apply list_elem_of_fmap in Hin as (r' & Hs' & Hin). rewrite list.Forall_forall in Hall. specialize (Hall _ Hin). lia.
Qed.

Lemma dir_block_room bs ic blk L need :
  dir_block bs ic blk L → 0 < need →
  ∃ res, find_slot (S (Z.to_nat bs)) bs need blk 0 = Some res ∧
    match res with
    | None => full bs ic need blk
    | Some (d, keep, rest) => ∃ rs1 r rs2, first_room bs ic need blk rs1 r rs2 ∧ L = omap live (rs1 ++ r :: rs2) ∧
        ∀ child ft name nm,
          need = rec_need (zlen nm) → 0 < child ≤ ic → child < 2 ^ 32 → 0 ≤ ft < 256 →
          0 < zlen nm < 256 → cstr name nm →
          ∃ blk', fill_slot blk d keep rest child ft (zlen nm) name = Some blk' ∧
            tiled bs ic blk' 0 (rs1 ++ place r nm child ft ++ rs2) ∧
            dir_block bs ic blk' (omap live (rs1 ++ place r nm child ft ++ rs2))
    end.
Proof.
  intros (Hl & Hb31 & rs & Ht & <-) Hneed. pose proof (zlen_nonneg blk).
  destruct (find_slot_spec bs ic blk need 0 rs Ht Hl Hb31 Hneed (S (Z.to_nat bs))) as (res & E & Hres); [lia|].
  exists res. split; [done|]. destruct res as [[[d keep] rest]|]; [|by exists rs].
  destruct Hres as (_ & rs1 & r & rs2 & -> & Hsmall & Hfit & Hres). exists rs1, r, rs2.
  split; [done|]. split; [done|]. intros child ft name nm Hn Hc Hc2 Hft Hnl Hnm.
  destruct (Hres child ft name nm Hn Hc Hc2 Hft Hnl Hnm) as (blk' & Ef & [Hk _] & Ht').
  exists blk'. split; [done|]. split; [done|]. split; [congruence|]. split; [done|]. by eexists.
Qed.

(** The entries around the one added. *)
Lemma concat_insert (Ls : list (list dentry)) j rs1 r rs2 nm child ft :
  Ls !! j = Some (omap live (rs1 ++ r :: rs2)) → 0 < child →
  ∃ M1 M2, concat Ls = M1 ++ M2 ∧
    concat (<[j := omap live (rs1 ++ place r nm child ft ++ rs2)]> Ls) = M1 ++ (nm, child, ft) :: M2.
Proof.
  intros HL Hc. destruct (concat_split Ls _ _ HL) as [Hcat Hcat'].
  exists (concat (take j Ls) ++ omap live rs1 ++ option_list (live r)), (omap live rs2 ++ concat (drop (S j) Ls)).
  rewrite Hcat, Hcat', !omap_app, live_place by done. cbn [omap list_omap].
  split; [|by rewrite <- !app_assoc]. rewrite <- !app_assoc. by destruct (live r).
Qed.

Lemma fill_slot_bytes blk d keep rest child ft name nm blk' :
  bytes_ok blk → cstr name nm → fill_slot blk d keep rest child ft (zlen nm) name = Some blk' → bytes_ok blk'.
Proof.
  intros Hb [Hnm [r ->]] E. unfold fill_slot, st8, st16, st32 in E.
  repeat match type of E with
  | (mbind _ ?o) = Some _ => destruct o as [?l|] eqn:?; [|discriminate]; cbn [mbind option_bind] in E
  end.
  eapply splice_bytes_ok; [| |exact E]; [eauto 10 using st_bytes_ok|].
  match goal with Hs : slice _ 0 _ = Some _ |- _ => apply slice_Some in Hs as (_ & _ & _ & ->) end.
  rewrite drop_0. unfold zlen. rewrite Nat2Z.id, take_app_length.
  eapply Forall_impl; [|exact Hnm]. by intros ? [_ ?].
Qed.

Lemma buf_mod_eq f b (w : W) v v' :
  bufget b w = Some v → f v = Some v' → buf_mod b f w = Some (tt, bufset b (Some v') w).
Proof. intros E Ef. unfold buf_mod. mred. rewrite E. cbn [mbind option_bind]. rewrite Ef. by mred. Qed.

(** The entry has been added in the first record with room of the first block
    that has one. *)
Definition added (w w' : W) ino A din blks Ls nm child ft : Prop :=
  let bs := block_size (e4 w) in let ic := inodes_count (e4 w) in let need := rec_need (zlen nm) in
  ∃ j c rs1 r rs2, blks !! j = Some c ∧ Forall (λ k, full bs ic need (disk w k)) (take j blks) ∧
    first_room bs ic need (disk w c) rs1 r rs2 ∧ Ls !! j = Some (omap live (rs1 ++ r :: rs2)) ∧
    tiled bs ic (disk w' c) 0 (rs1 ++ place r nm child ft ++ rs2) ∧
    let Ls' := <[j := omap live (rs1 ++ place r nm child ft ++ rs2)]> Ls in
    dir_at w' ino A din blks Ls' ∧ same_fs w w' ∧
    (∃ M1 M2, concat Ls = M1 ++ M2 ∧ concat Ls' = M1 ++ (nm, child, ft) :: M2) ∧
    ∀ k, 0 ≤ k → k ≠ c → disk w' k = disk w k.

Lemma add_wp w ino A din blks Ls b nm child ft :
  dir_at w ino A din blks Ls → writable (e4 w) = true → meta_csum (e4 w) = false →
  has (fget 4 din in_flags) INO_FLAG_INDEX_FL = false → zlen (uninit w 256) = 256 → cstr b nm →
  0 < zlen nm < 256 → rec_need (zlen nm) ≤ block_size (e4 w) < 2 ^ 32 → 0 < child ≤ inodes_count (e4 w) →
  child < 2 ^ 32 → 0 ≤ ft < 256 →
  (∃ w', e4_dir_add_entry ino b child ft w = Some (0, w') ∧ added w w' ino A din blks Ls nm child ft) ∨
  (∃ w1, only_read w w1 ∧
     Forall (λ k, full (block_size (e4 w)) (inodes_count (e4 w)) (rec_need (zlen nm)) (disk w k)) blks ∧
     e4_dir_add_entry ino b child ft w = dir_append_block ino b child ft (zlen nm) (zlen blks) din w1).
Proof.
  intros Hd Hw Hmc Hidx Hu Hnm Hnl Hneed Hch Hch2 Hft.
  assert (Hneed0 : 0 < rec_need (zlen nm)) by (rewrite rec_need_eq by (unfold byte_ok; lia); mod_lia).
  unfold e4_dir_add_entry, stack_inode. mred.
  destruct (read_dir w ino A din blks Ls (uninit w 256) Hd Hu) as (w1 & E & Hor). mstep E.
  change (truthy 0) with false. cbv iota. rewrite Hidx. mred. pose proof Hor as ((He & _) & _). rewrite He.
  rewrite (k_strlen_cstr _ _ Hnm). mred. unfold tail_room. rewrite Hmc, Z.sub_0_r, u32_small by lia.
  rewrite (proj2 (Z.ltb_ge _ _)) by lia. mstep (dir_blocks_eq w ino A din blks Ls w1 Hd).
  pose proof (Forall2_length (da_blocks _ _ _ _ _ _ Hd)) as Hlen.
  match goal with |- context [for_ 0 _ ?b] => set (body := b) end.
  set (isfull := λ k, full (block_size (e4 w)) (inodes_count (e4 w)) (rec_need (zlen nm)) (disk w k)).
  set (Q := λ (r : option Z) (w' : W),
     (r = Some 0 ∧ added w w' ino A din blks Ls nm child ft) ∨
     (r = None ∧ only_read w w' ∧ Forall isfull blks)).
  assert (Hloop : wp (for_ 0 (length blks) body) Q w1).
  { apply (wp_for (λ j w', only_read w w' ∧ Forall isfull (take (Z.to_nat j) blks))).
    - split; [done|]. by rewrite take_0.
    - intros w' [Hor' Hf]. right. rewrite take_ge in Hf by lia. done.
    - intros j w2 Hj [Hor2 Hf]. unfold body.
      destruct (lookup_lt_is_Some_2 blks (Z.to_nat j)) as [c Hc]; [lia|].
      destruct (lookup_lt_is_Some_2 Ls (Z.to_nat j)) as [L HL]; [lia|].
      destruct (da_map _ _ _ _ _ _ Hd _ c Hc) as [Hcr Hmap]. rewrite Z2Nat.id in Hmap by lia.
      apply wp_bind. exists (Some c), w2. split; [apply Hmap|]. rewrite (proj2 (Z.eqb_neq c 0)) by lia.
      destruct (read_dir_block w w2 ino A din blks Ls _ c L Hd Hor2 Hc HL) as (w3 & Er & Hor3 & Hbuf & He3 & HB).
      apply wp_bind. exists 0, w3. split; [done|]. change (truthy 0) with false. cbv iota. wp_pure. rewrite Hbuf.
      destruct (dir_block_room _ _ _ _ _ HB Hneed0) as (res & Ef & Hres).
      apply wp_bind. eapply wp_lift; [exact Ef|]. destruct res as [[[d keep] rest]|].
      + destruct Hres as (rs1 & r & rs2 & Hroom & -> & Hres).
        destruct (Hres child ft b nm eq_refl Hch Hch2 Hft Hnl Hnm) as (blk' & Efill & Htl & HB').
        apply wp_bind. eexists _, _. split; [eapply buf_mod_eq; [exact Hbuf|exact Efill]|].
        set (w4 := bufset e4_block_buf (Some blk') w3).
        apply wp_bind. exists tt, w4. split; [by apply dir_checksum_off; unfold w4; cbn; rewrite He3|].
        destruct (write_dir_block w w4 ino A din blks Ls (Z.to_nat j) c blk' (omap live (rs1 ++ place r nm child ft ++ rs2)))
          as (w5 & Ew & Hd5 & Hs5 & Hk5).
        * done.
        * apply only_read_buf; [done|by destruct HB' as [-> _]|].
          eapply fill_slot_bytes; [apply (disk_bytes dv ok sector w c (da_mounted _ _ _ _ _ _ Hd)); lia|exact Hnm|exact Efill].
        * done.
        * done.
        * apply bufget_set.
        * done.
        * apply wp_bind. exists 0, w5. split; [done|]. apply wp_ret. left. split; [done|].
          exists (Z.to_nat j), c, rs1, r, rs2. split; [done|]. split; [done|]. split; [done|]. split; [done|].
          split; [by rewrite Hk5, decide_True by (done || lia)|]. split; [done|]. split; [done|].
          split; [by apply concat_insert; [|lia]|]. intros k Hk Hne. by rewrite Hk5, decide_False by done.
      + apply wp_ret. split; [done|]. replace (Z.to_nat (j + 1)) with (S (Z.to_nat j)) by lia.
        rewrite (take_S_r _ _ _ Hc). apply list.Forall_app. by split; [|constructor]. }
  destruct Hloop as (r & w' & El & [[-> HQ]|(-> & HQ & HF)]); [left|right].
  - exists w'. split; [by mstep El|done].
  - exists w'. split; [done|]. split; [done|]. mstep El. done.
Qed.
End on_disk.

(** ** The directory operations *)

(** C9: iterating over a directory calls the callback on each live entry of its
    blocks, in order, with the name terminated by a NUL, until the callback
    returns a non-zero code; that code (0 at the end) and the callback's
    context are the result, and nothing is written. *)
Theorem e4_iterate_dir_visits {D H} `{Allocator H} (dv : blk_device D) ok sector
    `{!SectorDevice dv ok sector} {C} (w : world D H) ino A din blks Ls (cb : dir_cb C) ctx rc c' :
  dir_at dv ok sector w ino A din blks Ls → zlen (uninit w 256) = 256 →
  visit cb (concat Ls) ctx = Some (rc, c') →
  ∃ w', e4_iterate_dir ino cb ctx w = Some ((rc, c'), w') ∧ only_read dv ok sector w w'.
Proof. intros. by eapply iterate_dir_wp. Qed.

(** C8: without metadata checksums, removing a name from a directory deletes
    its first entry and no other, writes no block outside the directory and
    returns 0; a name the directory does not hold gives -1 and no write. *)
Theorem e4_dir_remove_entry_spec {D H} `{Allocator H} (dv : blk_device D) ok sector
    `{!SectorDevice dv ok sector} (w : world D H) ino A din blks Ls b nm :
  dir_at dv ok sector w ino A din blks Ls → writable (e4 w) = true → meta_csum (e4 w) = false →
  zlen (uninit w 256) = 256 → cstr b nm →
  ∃ rc w', e4_dir_remove_entry ino b w = Some (rc, w') ∧
    (rc = 0 ∧ (∃ Ls' L1 i ft L2, dir_at dv ok sector w' ino A din blks Ls' ∧ same_fs w w' ∧
        concat Ls = L1 ++ (nm, i, ft) :: L2 ∧ (nm ∉ names L1) ∧ concat Ls' = L1 ++ L2 ∧
        ∀ k, 0 ≤ k → k ∉ blks → disk sector w' k = disk sector w k)
     ∨ rc = -1 ∧ (nm ∉ names (concat Ls)) ∧ only_read dv ok sector w w').
Proof. intros. by eapply remove_wp. Qed.

(** C7: without metadata checksums, adding an entry to a directory puts it into
    the first record with room of the first block that has one: every block before
    it and every record before it in the block has less than the entry needs. That
    record shrinks to what it needs and the new one follows it (a deleted one is
    taken whole), so that the entry lies between those that were there, which all
    stay; no other block is written and 0 is returned. Only when no record of any
    block has room does the call go on to append a block, and then nothing has been
    written. *)
Theorem e4_dir_add_entry_spec {D H} `{Allocator H} (dv : blk_device D) ok sector
    `{!SectorDevice dv ok sector} (w : world D H) ino A din blks Ls b nm child ft :
  dir_at dv ok sector w ino A din blks Ls → writable (e4 w) = true → meta_csum (e4 w) = false →
  has (fget 4 din in_flags) INO_FLAG_INDEX_FL = false → zlen (uninit w 256) = 256 → cstr b nm →
  0 < zlen nm < 256 → rec_need (zlen nm) ≤ block_size (e4 w) < 2 ^ 32 → 0 < child ≤ inodes_count (e4 w) →
  child < 2 ^ 32 → 0 ≤ ft < 256 →
  (∃ w', e4_dir_add_entry ino b child ft w = Some (0, w') ∧
     added dv ok sector w w' ino A din blks Ls nm child ft) ∨
  (∃ w1, only_read dv ok sector w w1 ∧
     Forall (λ k, full (block_size (e4 w)) (inodes_count (e4 w)) (rec_need (zlen nm)) (disk sector w k)) blks ∧
     e4_dir_add_entry ino b child ft w = dir_append_block ino b child ft (zlen nm) (zlen blks) din w1).
Proof. intros. by eapply add_wp. Qed.

(** *** A directory of two files *)

Definition pair_e4 : ext4_fs :=
  E4 (Some 0) 1024 2 16 32 16 32 1 1 256 32 11 0 0 0 true false false false false true 0
    (zeros 16) (zeros 1024) (Some demo_gdt).
Definition pair_block : list Z :=
  default [] (b ← fill_slot (zeros 1024) 0 0 12 12 1 1 [97; 0]; fill_slot b 0 12 1012 13 1 2 [98; 98; 0]).
Definition pair_world : world (list Z) bump :=
  set_e4 (const pair_e4) (demo_world (zeros 5376 ++ demo_dir_inode ++ zeros 5632 ++ pair_block ++ zeros 4096)).
Definition pair_entries : list dentry := [([97], 12, 1); ([98; 98], 13, 1)].

Lemma pair_ok ino len nm : 0 < ino ≤ 32 → 8 + zlen nm ≤ len < 65536 → len mod 4 = 0 → 0 < zlen nm < 256 →
  forallb (λ c, bool_decide (c ≠ 0 ∧ byte_ok c)) nm = true → rec_ok 32 (Drec ino len (zlen nm) 1 nm).
Proof.
  intros ???? Hf. unfold rec_ok. simpl. split_and!; try lia. intros _. split_and!; try lia.
  unfold nonul. apply list.Forall_forall. intros x Hx. rewrite forallb_forall in Hf.
  eapply bool_decide_eq_true_1, Hf. by apply list_elem_of_In.
Qed.

Definition pair_records : list drec := [Drec 12 12 1 1 [97]; Drec 13 1012 2 1 [98; 98]].
Lemma pair_tiled : tiled 1024 32 (disk ram_sector pair_world 11) 0 pair_records.
Proof.
  apply tiled_cons; [done|by vm_compute|by apply (pair_ok 12 12 [97])|intros; by vm_compute|].
  apply tiled_cons; [done|by vm_compute|by apply (pair_ok 13 1012 [98; 98])|intros; by vm_compute|].
  apply tiled_end; simpl; lia.
Qed.

Lemma pair_dir :
  dir_at (ram_disk 32) (ram_ok 32) ram_sector pair_world 2 5376 demo_dir_inode [11] [pair_entries].
Proof.
  split.
  - split; [done|split; [by vm_compute|by apply bytes_dec]|split; by vm_compute|by vm_compute|by vm_compute|].
    intros b. exists (zeros 1024). split; [by destruct b|]. split; [done|apply zeros_bytes].
  - split; [simpl; lia|]. split; [simpl; lia|]. split; [simpl; lia|]. exists 5, 256.
    split; [vm_compute; reflexivity|]. simpl. lia.
  - by vm_compute.
  - intros i Hi.
    assert (Hall : forallb (λ n : nat, bool_decide (demo_dir_inode !! Z.to_nat (Z.of_nat n) =
      dbyte ram_sector pair_world (5376 + Z.of_nat n))) (seq 0 256) = true) by by vm_compute.
    rewrite forallb_forall in Hall. specialize (Hall (Z.to_nat i)). rewrite Z2Nat.id in Hall by lia.
    eapply bool_decide_eq_true_1, Hall. apply in_seq. lia.
  - by vm_compute.
  - by vm_compute.
  - intros [|i] b Hb; [|done]. injection Hb as <-. split; [by vm_compute|]. intros w'. reflexivity.
  - repeat constructor. apply not_elem_of_nil.
  - intros i Hi Hin%list_elem_of_singleton. change (block_size (e4 pair_world)) with 1024 in Hin.
    assert (5376 ≤ 5376 + i < 6 * 1024) by lia. mod_lia.
  - constructor; [|constructor]. split; [by vm_compute|]. split; [done|].
    exists pair_records. split; [exact pair_tiled|done].
Qed.

Definition collect : dir_cb (list (list Z * Z)) := λ nm ino _ c, Some (0, c ++ [(nm, ino)]).

Lemma e4_iterate_dir_visits_witness :
  ∃ w', e4_iterate_dir 2 collect [] pair_world = Some ((0, [([97; 0], 12); ([98; 98; 0], 13)]), w') ∧
    only_read (ram_disk 32) (ram_ok 32) ram_sector pair_world w'.
Proof.
  apply (e4_iterate_dir_visits (ram_disk 32) (ram_ok 32) ram_sector pair_world 2 5376 demo_dir_inode [11]
    [pair_entries] collect []); [exact pair_dir|reflexivity|reflexivity].
Defined.

Lemma cstr_demo nm : forallb (λ c, bool_decide (c ≠ 0 ∧ byte_ok c)) nm = true → cstr (nm ++ [0]) nm.
Proof.
  intros Hf. split; [|by exists []]. apply list.Forall_forall. intros x Hx. rewrite forallb_forall in Hf.
  eapply bool_decide_eq_true_1, Hf. by apply list_elem_of_In.
Qed.

Lemma e4_dir_remove_entry_spec_witness :
  ∃ rc w', e4_dir_remove_entry 2 [97; 0] pair_world = Some (rc, w') ∧
    (rc = 0 ∧ (∃ Ls' L1 i ft L2, dir_at (ram_disk 32) (ram_ok 32) ram_sector w' 2 5376 demo_dir_inode [11] Ls' ∧
        same_fs pair_world w' ∧ concat [pair_entries] = L1 ++ ([97], i, ft) :: L2 ∧ ([97] ∉ names L1) ∧
        concat Ls' = L1 ++ L2 ∧
        ∀ k, 0 ≤ k → k ∉ [11] → disk ram_sector w' k = disk ram_sector pair_world k)
     ∨ rc = -1 ∧ ([97] ∉ names (concat [pair_entries])) ∧
       only_read (ram_disk 32) (ram_ok 32) ram_sector pair_world w').
Proof.
  apply (e4_dir_remove_entry_spec (ram_disk 32) (ram_ok 32) ram_sector pair_world 2 5376 demo_dir_inode [11]
    [pair_entries] [97; 0] [97]); [exact pair_dir|reflexivity|reflexivity|reflexivity|by apply (cstr_demo [97])].
Defined.

Lemma e4_dir_add_entry_spec_witness :
  ∃ w', e4_dir_add_entry 2 [99; 0] 14 1 pair_world = Some (0, w') ∧
    added (ram_disk 32) (ram_ok 32) ram_sector pair_world w' 2 5376 demo_dir_inode [11] [pair_entries] [99] 14 1.
Proof.
  destruct (e4_dir_add_entry_spec (ram_disk 32) (ram_ok 32) ram_sector pair_world 2 5376 demo_dir_inode [11]
    [pair_entries] [99; 0] [99] 14 1) as [Hadd|(w1 & _ & Hfull & _)];
    [exact pair_dir|reflexivity|reflexivity|reflexivity|reflexivity|by apply (cstr_demo [99])|by vm_compute
    |by vm_compute|by vm_compute|by vm_compute|by vm_compute|exact Hadd|].
  exfalso. inversion Hfull as [|? ? Hf _]; subst.
  apply (first_room_not_full 1024 32 (rec_need 1) (disk ram_sector pair_world 11)
    [Drec 12 12 1 1 [97]] (Drec 13 1012 2 1 [98; 98]) []); [exact pair_tiled|by vm_compute|exact Hf].
Defined.
