(* ===== verification/Ext4Journal.v ===== *)
(** * fs/ext4_journal.c: JBD2 crash recovery *)
From S2P Require Import Prelude KString Csum Blkdev Alloc Ext4Disk Ext4Core Ext4Map.

Definition J_MAGIC : Z := 0xC03B3998.
Definition JT_DESC : Z := 1.
Definition JT_REVOKE : Z := 2.
Definition JT_COMMIT : Z := 3.
Definition TAG_ESCAPE : Z := 1.
Definition TAG_LAST : Z := 8.
Definition JSB_OFF_BLOCKSIZE : Z := 12.
Definition JSB_OFF_MAXLEN : Z := 16.
Definition JSB_OFF_FIRST : Z := 20.
Definition JSB_OFF_START : Z := 24.
Definition JSB_OFF_SEQUENCE : Z := 28.
Definition JSB_OFF_FEAT_INCOMPAT : Z := 36.
Definition JBD2_FEAT_64BIT : Z := 2.
Definition MAX_TRACKED_SEQS : Z := 256.

(** [be32(b + off)]. *)
Definition be32 (b : list Z) (off : Z) : option Z :=
  l ← slice b off 4;
  match l with
  | [b0; b1; b2; b3] =>
      Some (Z.lor (Z.lor (Z.lor (Z.shiftl b0 24) (Z.shiftl b1 16)) (Z.shiftl b2 8)) b3)
  | _ => None
  end.

Definition note_commit (seq : Z) (j : journal) : journal :=
  if existsb (Z.eqb seq) (committed j) then j
  else
    let c := if zlen (committed j) <? MAX_TRACKED_SEQS then committed j ++ [seq] else committed j in
    Journal (jin j) c
      (if (last_commit_seq j <? seq) || (zlen c =? 0) then seq else last_commit_seq j) (revbits j).

Definition was_committed (seq : Z) (j : journal) : bool := existsb (Z.eqb seq) (committed j).

Definition set_jin (v : list Z) (j : journal) : journal :=
  Journal v (committed j) (last_commit_seq j) (revbits j).
Definition set_revbits (v : option (list Z)) (j : journal) : journal :=
  Journal (jin j) (committed j) (last_commit_seq j) v.

Definition revmask (b : Z) : Z := Z.shiftl 1 (Z.land b 7).

Section journal.
Context {D H : Type} `{Allocator H}.
#[local] Abbreviation W := (world D H).

(** Return code and new contents of [buf]. *)
Definition jread (jb : Z) (buf : option (list Z)) : M W (Z * option (list Z)) :=
  let* j := gets jnl in
  let* m := e4_bmap (jin j) jb in
  match m with
  | None => ret (-1, buf)
  | Some phys => if phys =? 0 then ret (-1, buf) else e4_read_block phys buf
  end.

Definition e4_journal_pending (e : ext4_fs) : bool :=
  match dev e with None => false | Some _ => has (feat_incompat e) FEAT_INCOMPAT_RECOVER end.

(** [revbits[b >> 3] |= 1 << (b & 7)] *)
Definition revoke (b : Z) : M W unit :=
  let* j := gets jnl in
  let* r := lift (rb ← revbits j; v ← ld8 rb (Z.shiftr b 3); st8 rb (Z.shiftr b 3) (Z.lor v (revmask b))) in
  modify (set_jnl (set_revbits (Some r))).

Definition is_revoked (b : Z) : M W bool :=
  let* j := gets jnl in
  let* v := lift (rb ← revbits j; ld8 rb (Z.shiftr b 3)) in
  ret (has v (revmask b)).

(** The records of a revoke block. *)
Definition revoke_block (buf : list Z) : M W unit :=
  let* e := gets e4 in
  let* used := lift (ld32 buf 12) in
  if block_size e <? used then ret tt
  else
    let* _ := for_ 0 (Z.to_nat ((used - 16) / 4)) (λ k,
      let* b := lift (be32 buf (16 + 4 * k)) in
      (if b <? blocks_count e then revoke b else ret tt) ;;
      ret (@None unit)) in
    ret tt.

(** What pass 1 does with one block of the log. *)
Definition note_block (b : list Z) : M W unit :=
  let* magic := lift (be32 b 0) in
  if negb (magic =? J_MAGIC) then ret tt
  else
    let* type := lift (be32 b 4) in
    if type =? JT_COMMIT then
      let* seq := lift (be32 b 8) in
      modify (set_jnl (note_commit seq))
    else if type =? JT_REVOKE then revoke_block b
    else ret tt.

(** Pass 1 over the blocks [i], [i + 1], ... ([n] of them). *)
Fixpoint pass1 (n : nat) (i : Z) (buf : option (list Z)) : M W (option (list Z)) :=
  match n with
  | O => ret buf
  | S n' =>
      let* (rc, buf) := jread i buf in
      (if truthy rc then ret tt
       else
         let* b := lift buf in
         note_block b) ;;
      pass1 n' (i + 1) buf
  end.

(** The tags of one descriptor block: [while (off + tagsz <= bs && c < cap)].
    Returns [c] and the contents buffer. *)
Fixpoint replay_tags (fuel : nat) (buf : list Z) (tagsz cap c off : Z) (content : option (list Z))
    : M W (Z * option (list Z)) :=
  match fuel with
  | O => fault
  | S f =>
      let* e := gets e4 in
      if negb ((off + tagsz <=? block_size e) && (c <? cap)) then ret (c, content)
      else
        let* target := lift (be32 buf off) in
        let* flags := lift (be32 buf (off + 4)) in
        if has flags TAG_LAST then ret (c, content)
        else if target =? 0 then ret (c, content)
        else
          let* (rc, content) := jread c content in
          if truthy rc then ret (c, content)
          else
            let* content :=
              if has flags TAG_ESCAPE
              then lift (o ← content; b ← splice o 0 [0xC0; 0x3B; 0x39; 0x98]; Some (Some b))
              else ret content in
            let* rv := is_revoked target in
            if rv then replay_tags f buf tagsz cap (c + 1) (off + tagsz) content
            else
              let* rc := e4_write_block target content in
              if truthy rc then ret (c, content)
              else replay_tags f buf tagsz cap (c + 1) (off + tagsz) content
  end.

(** Pass 2: [for (i = first; i < cap; i++)], where a descriptor block moves
    [i] past its contents. *)
Fixpoint pass2 (fuel : nat) (i cap tagsz : Z) (buf content : option (list Z)) : M W unit :=
  match fuel with
  | O => fault
  | S f =>
      if negb (i <? cap) then ret tt
      else
        let* (rc, buf) := jread i buf in
        if truthy rc then pass2 f (i + 1) cap tagsz buf content
        else
          let* b := lift buf in
          let* magic := lift (be32 b 0) in
          let* type := lift (be32 b 4) in
          let* seq := lift (be32 b 8) in
          let* j := gets jnl in
          if negb (magic =? J_MAGIC) || negb (type =? JT_DESC) || negb (was_committed seq j)
          then pass2 f (i + 1) cap tagsz buf content
          else
            let* e := gets e4 in
            let* (c, content) :=
              replay_tags (S (Z.to_nat (block_size e))) b tagsz cap (i + 1) 12 content in
            pass2 f c cap tagsz buf content
  end.

Definition e4_journal_reset : M W unit :=
  let* e := gets e4 in
  match dev e with
  | None => ret tt
  | Some _ =>
      let inum := fget 4 (sb e) sb_journal_inum in
      if inum =? 0 then ret tt
      else
        let* u := gets uninit in
        let* p := kmalloc (block_size e) in
        match p with
        | None => ret tt
        | Some _ =>
            let* j := gets jnl in
            let* (rc, ji) := e4_read_inode inum (jin j) in
            modify (set_jnl (set_jin ji)) ;;
            (if truthy rc then ret tt
             else
               let* m := e4_bmap ji 0 in
               match m with
               | None => ret tt
               | Some phys =>
                   if phys =? 0 then ret tt
                   else
                     let* (rc, buf) := e4_read_block phys (Some (u (block_size e))) in
                     if truthy rc then ret tt
                     else
                       let* b := lift (b ← buf; b ← st32 b JSB_OFF_START 0;
                         st32 b JSB_OFF_SEQUENCE (u32 (last_commit_seq j + 1))) in
                       let* _ := e4_write_block phys (Some b) in
                       ret tt
               end) ;;
            kfree p ;;
            modify (set_e4 (λ e, upd_feat_incompat (Z.ldiff (feat_incompat e) FEAT_INCOMPAT_RECOVER) e)) ;;
            modify (set_e4 (λ e, upd_sb (fset 4 sb_feature_incompat
              (Z.ldiff (fget 4 (sb e) sb_feature_incompat) FEAT_INCOMPAT_RECOVER) (sb e)) e)) ;;
            e4_sb_recompute_checksum ;;
            let* _ := e4_sync_superblock in
            ret tt
        end
  end.

(** The two passes over the blocks [first], ..., [cap - 1] of the log. *)
Definition replay_passes (first cap tagsz : Z) (buf content : option (list Z)) : M W unit :=
  let* buf := pass1 (Z.to_nat (cap - first)) first buf in
  let* j := gets jnl in
  if zlen (committed j) =? 0 then ret tt
  else pass2 (S (Z.to_nat (cap - first))) first cap tagsz buf content.

(** After the journal superblock has been read into [buf]: the two passes.
    Returns the return code. *)
Definition replay_body (jblocks : Z) (b content : list Z) : M W Z :=
  let* e := gets e4 in
  let* bs := lift (ld32 b JSB_OFF_BLOCKSIZE) in
  let* maxlen := lift (ld32 b JSB_OFF_MAXLEN) in
  let* first := lift (ld32 b JSB_OFF_FIRST) in
  let* start := lift (ld32 b JSB_OFF_START) in
  let* inc := lift (ld32 b JSB_OFF_FEAT_INCOMPAT) in
  if negb (bs =? block_size e) || (first <? 2) || (jblocks <=? first) || (jblocks <=? start)
  then ret (-1)
  else
    let tagsz := if has inc JBD2_FEAT_64BIT then 16 else 12 in
    let cap := if truthy maxlen && (maxlen <=? jblocks) then maxlen else jblocks in
    let rbytes := u32 (u64 (blocks_count e + 7) / 8) in
    let* p := kzalloc rbytes in
    modify (set_jnl (set_revbits (const (zeros rbytes) <$> p))) ;;
    match p with
    | None => ret (-1)
    | Some _ =>
        replay_passes first cap tagsz (Some b) (Some content) ;;
        e4_journal_reset ;;
        kfree p ;;
        ret 0
    end.

Definition e4_journal_replay : M W Z :=
  modify (set_jnl (λ j, Journal (jin j) [] 0 None)) ;;
  let* e := gets e4 in
  match dev e with
  | None => ret 0
  | Some _ =>
      let inum := fget 4 (sb e) sb_journal_inum in
      if inum =? 0 then ret 0
      else if negb (has (feat_incompat e) FEAT_INCOMPAT_RECOVER) then ret 0
      else
        let* j := gets jnl in
        let* (rc, ji) := e4_read_inode inum (jin j) in
        modify (set_jnl (set_jin ji)) ;;
        if truthy rc then ret (-1)
        else if negb (has (fget 4 ji in_flags) INO_FLAG_EXTENTS) then ret (-1)
        else
          let* jblocks := udiv (e4_inode_size e ji) (block_size e) in
          let* u := gets uninit in
          let* p1 := kmalloc (block_size e) in
          let* p2 := kmalloc (block_size e) in
          match p1, p2 with
          | Some _, Some _ =>
              let* (rc, buf) := jread 0 (Some (u (block_size e))) in
              let* rc :=
                (if truthy rc then ret (-1)
                 else let* b := lift buf in replay_body jblocks b (u (block_size e))) in
              kfree p1 ;; kfree p2 ;;
              modify (set_jnl (set_revbits None)) ;;
              ret rc
          | _, _ => kfree p1 ;; kfree p2 ;; ret (-1)
          end
  end.
End journal.
