(* ===== verification/Ext4Replay.v ===== *)
(** * fs/ext4_journal.c: what the replay does to the disk

    On a disk that works, with a journal whose blocks the root of the
    journal's extent tree maps, the two passes write the blocks of the
    committed transactions that are not revoked to their places. *)
From stdpp Require Import base.
From S2P Require Import Prelude KString Csum Blkdev Alloc Ext4Disk Ext4Core Ext4Map Ext4Alloc Ext4Journal.
Open Scope c_scope.

(** ** The journal as a list of blocks *)

(** The big-endian word at [off] of a block. *)
Definition be (b : list Z) (off : Z) : Z := default 0 (be32 b off).

(** A block that commits a transaction, or describes one: its sequence. *)
Definition head_seq (type : Z) (b : list Z) : option Z :=
  if (be b 0 =? J_MAGIC) && (be b 4 =? type) then Some (be b 8) else None.

(** The blocks a revoke block names. *)
Definition revokes (bs : Z) (b : list Z) : list Z :=
  if (be b 0 =? J_MAGIC) && (be b 4 =? JT_REVOKE) && (fget 4 b 12 <=? bs)
  then map (λ k, be b (16 + 4 * k)) (seqZ 0 ((fget 4 b 12 - 16) / 4)) else [].

(** The tags of a descriptor block from [off] on, at most [n]: the target of
    each content block and whether its magic number is escaped. The list stops
    at a tag with [TAG_LAST], whose block is not replayed. *)
Fixpoint tags (n : nat) (bs tagsz : Z) (b : list Z) (off : Z) : list (Z * bool) :=
  match n with
  | O => []
  | S n =>
      if off + tagsz <=? bs then
        if has (be b (off + 4)) TAG_LAST || (be b off =? 0) then []
        else (be b off, has (be b (off + 4)) TAG_ESCAPE) :: tags n bs tagsz b (off + tagsz)
      else []
  end.

(** The tags as the format has them: the block of the tag with [TAG_LAST], the
    flag at the end, belongs to the transaction like the others. *)
Fixpoint all_tags (n : nat) (bs tagsz : Z) (b : list Z) (off : Z) : list (Z * bool * bool) :=
  match n with
  | O => []
  | S n =>
      if off + tagsz <=? bs then
        if be b off =? 0 then []
        else
          let final := has (be b (off + 4)) TAG_LAST in
          (be b off, has (be b (off + 4)) TAG_ESCAPE, final) ::
            (if final then [] else all_tags n bs tagsz b (off + tagsz))
      else []
  end.

Definition unescape (esc : bool) (b : list Z) : list Z :=
  if esc then [0xC0; 0x3B; 0x39; 0x98] ++ drop 4 b else b.

(** What is written for the tags [ts], with the contents from block [c] on. *)
Fixpoint tag_writes (log : Z → list Z) (revoked : Z → bool) (ts : list (Z * bool)) (c : Z) : list (Z * list Z) :=
  match ts with
  | [] => []
  | (t, esc) :: ts =>
      (if revoked t then [] else [(t, unescape esc (log c))]) ++ tag_writes log revoked ts (c + 1)
  end.

(** What the log from block [i] to [cap] says must be written, in order. *)
Fixpoint replayed (fuel : nat) (bs tagsz cap : Z) (log : Z → list Z) (revoked done : Z → bool) (i : Z)
    : list (Z * list Z) :=
  match fuel with
  | O => []
  | S fuel =>
      if negb (i <? cap) then []
      else
        match head_seq JT_DESC (log i) with
        | Some seq =>
            if done seq then
              let ts := tags (Z.to_nat (cap - (i + 1))) bs tagsz (log i) 12 in
              tag_writes log revoked ts (i + 1) ++
                replayed fuel bs tagsz cap log revoked done (i + 1 + zlen ts)
            else replayed fuel bs tagsz cap log revoked done (i + 1)
        | None => replayed fuel bs tagsz cap log revoked done (i + 1)
        end
  end.

(** The unrevoked blocks of the tags [ts], with the flag of their tag. *)
Fixpoint tag_blocks (log : Z → list Z) (revoked : Z → bool) (ts : list (Z * bool * bool)) (c : Z)
    : list (Z * list Z * bool) :=
  match ts with
  | [] => []
  | (t, esc, final) :: ts =>
      (if revoked t then [] else [(t, unescape esc (log c), final)]) ++ tag_blocks log revoked ts (c + 1)
  end.

(** The unrevoked blocks of the committed transactions in the log from block [i]
    to [cap], in order, with the flag of their tag. *)
Fixpoint logged (fuel : nat) (bs tagsz cap : Z) (log : Z → list Z) (revoked done : Z → bool) (i : Z)
    : list (Z * list Z * bool) :=
  match fuel with
  | O => []
  | S fuel =>
      if negb (i <? cap) then []
      else
        match head_seq JT_DESC (log i) with
        | Some seq =>
            if done seq then
              let ts := all_tags (Z.to_nat (cap - (i + 1))) bs tagsz (log i) 12 in
              tag_blocks log revoked ts (i + 1) ++
                logged fuel bs tagsz cap log revoked done (i + 1 + zlen (filter (λ t, t.2 = false) ts))
            else logged fuel bs tagsz cap log revoked done (i + 1)
        | None => logged fuel bs tagsz cap log revoked done (i + 1)
        end
  end.

(** The blocks that are not the last of their descriptor. *)
Definition not_last (ws : list (Z * list Z * bool)) : list (Z * list Z) := (filter (λ w, w.2 = false) ws).*1.

Lemma not_last_app l1 l2 : not_last (l1 ++ l2) = not_last l1 ++ not_last l2.
Proof. unfold not_last. by rewrite list.filter_app, fmap_app. Qed.
Lemma tags_all n bs tagsz b : ∀ off,
  tags n bs tagsz b off = (filter (λ t, t.2 = false) (all_tags n bs tagsz b off)).*1.
Proof.
  induction n as [|n IH]; intros off; [done|]. cbn [tags all_tags]. destruct (off + tagsz <=? bs); [|done].
  destruct (be b off =? 0); [by rewrite orb_true_r|]. rewrite orb_false_r. cbv zeta.
  destruct (has (be b (off + 4)) TAG_LAST).
  - by rewrite filter_cons_False.
  - rewrite filter_cons_True by done. cbn [fmap list_fmap fst]. by rewrite IH.
Qed.
Lemma tag_writes_all log revoked n bs tagsz b : ∀ off c,
  tag_writes log revoked (tags n bs tagsz b off) c = not_last (tag_blocks log revoked (all_tags n bs tagsz b off) c).
Proof.
  induction n as [|n IH]; intros off c; [done|]. cbn [tags all_tags]. destruct (off + tagsz <=? bs); [|done].
  destruct (be b off =? 0); [by rewrite orb_true_r|]. rewrite orb_false_r. cbv zeta.
  destruct (has (be b (off + 4)) TAG_LAST); cbn [tag_writes tag_blocks]; rewrite not_last_app.
  - by destruct (revoked _).
  - rewrite <- IH. by destruct (revoked _).
Qed.
Lemma replayed_logged bs tagsz cap log revoked done fuel : ∀ i,
  replayed fuel bs tagsz cap log revoked done i = not_last (logged fuel bs tagsz cap log revoked done i).
Proof.
  induction fuel as [|fuel IH]; intros i; [easy|]. cbn [replayed logged]. destruct (negb (i <? cap)); [easy|].
  destruct (head_seq JT_DESC (log i)) as [seq|]; [|apply IH]. destruct (done seq); [|apply IH]. cbv zeta.
  rewrite not_last_app, <- tag_writes_all, tags_all. f_equal. rewrite IH. unfold zlen. by rewrite length_fmap.
Qed.

(** The disk after writes. *)
Definition put (d : Z → list Z) (tl : Z * list Z) (k : Z) : list Z :=
  if decide (k = tl.1) then tl.2 else d k.
Definition apply_writes (ws : list (Z * list Z)) (d : Z → list Z) : Z → list Z := foldl put d ws.

(** ** Words of a block *)

Lemma be32_is_Some b off : bytes_ok b → 0 ≤ off → off + 4 ≤ zlen b → be32 b off = Some (be b off).
Proof.
  intros Hb Ho Hl. destruct (slice_is_Some b off 4) as [l Es]; [lia..|].
  unfold be, be32. rewrite Es. cbn. pose proof (slice_zlen _ _ _ _ Es) as Hz.
  destruct l as [|b0 [|b1 [|b2 [|b3 [|]]]]]; rewrite ?zlen_cons, ?zlen_nil in Hz; try lia; [done|].
  pose proof (zlen_nonneg l). lia.
Qed.
Lemma be_nonneg b off : bytes_ok b → 0 ≤ be b off.
Proof.
  intros Hb. unfold be, be32. destruct (slice b off 4) as [l|] eqn:Es; [|cbn; lia].
  apply (slice_bytes_ok _ _ _ _ Hb) in Es.
  destruct l as [|b0 [|b1 [|b2 [|b3 [|]]]]]; cbn -[Z.lor Z.shiftl]; try lia.
  unfold bytes_ok in Es. rewrite !list.Forall_cons in Es. unfold byte_ok in *. rewrite !Z.lor_nonneg, !Z.shiftl_nonneg. lia.
Qed.

(** ** Commits and revocations *)

Lemma note_commit_spec seq j : zlen (committed j) < MAX_TRACKED_SEQS →
  (∀ s, was_committed s (note_commit seq j) = was_committed s j || (s =? seq)) ∧
  zlen (committed (note_commit seq j)) ≤ zlen (committed j) + 1 ∧
  jin (note_commit seq j) = jin j ∧ revbits (note_commit seq j) = revbits j.
Proof.
  intros Hl. unfold note_commit, was_committed. destruct (existsb (Z.eqb seq) (committed j)) eqn:E.
  - split; [|by split_and!; [lia|..]]. intros s. destruct (Z.eqb_spec s seq) as [->|].
    + by rewrite E.
    + by rewrite orb_false_r.
  - rewrite (proj2 (Z.ltb_lt _ _)) by done. cbn [committed jin revbits]. rewrite zlen_snoc.
    split; [|split; [lia|done]]. intros s. rewrite existsb_app. cbn. by rewrite orb_false_r.
Qed.

Lemma revmask_bit b : revmask b = u8 (Z.shiftl 1 (b mod 8)).
Proof.
  unfold revmask. change 7 with (2 ^ 3 - 1). rewrite land_ones_low by lia. change (2 ^ 3) with 8.
  pose proof (Z.mod_pos_bound b 8 ltac:(lia)). rewrite Z.shiftl_1_l. symmetry. apply u8_small.
  split; [apply Z.pow_nonneg; lia|]. change 256 with (2 ^ 8). apply Z.pow_lt_mono_r; lia.
Qed.

Section replay.
Context {D H : Type} `{Allocator H}.
Context (dv : blk_device D) (ok : D → Prop) (sector : D → Z → list Z)
  `{!SectorDevice dv ok sector}.
#[local] Abbreviation W := (world D H).
#[local] Abbreviation mounted := (mounted dv ok).
#[local] Abbreviation disk := (disk sector).

Context (w0 : W) (phys : Z → Z) (first cap tagsz : Z).
#[local] Abbreviation bs := (block_size (e4 w0)).

(** Block [i] of the log before the replay. *)
Definition log (i : Z) : list Z := disk w0 (phys i).
Definition log_blocks (i n : Z) : list (list Z) := map log (seqZ i n).
Definition commits (i n : Z) : list Z := omap (head_seq JT_COMMIT) (log_blocks i n).
Definition revoked_in (i n b : Z) : bool := existsb (Z.eqb b) (log_blocks i n ≫= revokes bs).
Definition log_done (seq : Z) : bool := existsb (Z.eqb seq) (commits first (cap - first)).
Definition log_revoked (b : Z) : bool := revoked_in first (cap - first) b.
Definition log_writes : list (Z * list Z) :=
  replayed (S (Z.to_nat (cap - first))) bs tagsz cap log log_revoked log_done first.
(** What the committed transactions say, each block with the flag of its tag. *)
Definition log_blocks_due : list (Z * list Z * bool) :=
  logged (S (Z.to_nat (cap - first))) bs tagsz cap log log_revoked log_done first.

(** The journal can be read: the root of its extent tree maps the log to
    blocks of the disk. *)
Record journal_ok : Prop := {
  jo_mounted : mounted w0;
  jo_writable : writable (e4 w0) = true;
  jo_range : 0 ≤ first ≤ cap;
  jo_tagsz : tagsz = 12 ∨ tagsz = 16;
  jo_map : ∀ i (w : W), 0 ≤ i < cap → e4_bmap (jin (jnl w0)) i w = Some (Some (phys i), w);
  jo_phys : ∀ i, 0 ≤ i < cap → 0 < phys i < blocks_count (e4 w0);
}.

(** What the passes keep. *)
Record kept (w : W) : Prop := {
  kp_e4 : e4 w = e4 w0;
  kp_reg : reg w = reg w0;
  kp_hp : hp w = hp w0;
  kp_mounted : mounted w;
  kp_jin : jin (jnl w) = jin (jnl w0);
}.
Definition log_same (w : W) : Prop := ∀ i, 0 ≤ i < cap → disk w (phys i) = log i.

Context (J : journal_ok).

Lemma kept_w0 : kept w0.
Proof. by split; [..|apply J|]. Qed.
Lemma bs_pos : 512 ≤ bs.
Proof. destruct (jo_mounted J). lia. Qed.
Lemma log_zlen i : 0 ≤ i < cap → zlen (log i) = bs.
Proof. intros Hi. pose proof (jo_phys J i Hi). apply (disk_zlen dv ok sector); [apply J|lia]. Qed.
Lemma log_bytes i : 0 ≤ i < cap → bytes_ok (log i).
Proof. intros Hi. pose proof (jo_phys J i Hi). apply (disk_bytes dv ok sector); [apply J|lia]. Qed.
Lemma log_be i off : 0 ≤ i < cap → 0 ≤ off → off + 4 ≤ bs → be32 (log i) off = Some (be (log i) off).
Proof. intros. apply be32_is_Some; [by apply log_bytes|done|by rewrite log_zlen]. Qed.

Lemma kept_hw w s' : kept w → ok s' → kept (set_hw s' w).
Proof.
  intros [He Hr Hh Hm Hj] Hok. split; try done. apply (mounted_frame dv ok w); [done|by repeat split|done|].
  apply (m_buf _ _ _ Hm).
Qed.

Lemma jread_wp i buf w : kept w → 0 ≤ i < cap → zlen buf = bs →
  wp (jread i (Some buf)) (λ r w', r = (0, Some (disk w (phys i))) ∧ kept w' ∧ jnl w' = jnl w ∧
    ∀ k, 0 ≤ k → disk w' k = disk w k) w.
Proof.
  intros Hk Hi Hl. pose proof (jo_phys J i Hi) as Hp. unfold jread. wp_pure.
  apply wp_bind. eexists _, _. split; [rewrite (kp_jin _ Hk); by apply J|].
  cbv beta iota. rewrite (proj2 (Z.eqb_neq _ _)) by lia.
  destruct (e4_read_block_spec dv ok sector w (phys i) buf) as (s' & E & Hok & Hsame);
    [apply Hk|rewrite (kp_e4 _ Hk); lia|by rewrite (kp_e4 _ Hk)|].
  eexists _, _. split; [exact E|]. split; [done|]. split; [by apply kept_hw|]. split; [done|].
  intros k Hk0. apply (disk_same dv ok sector); [apply Hk|done|done].
Qed.

(** The bits of the revocation map are those of [b]. *)
Definition rev_is (w : W) (f : Z → bool) : Prop :=
  ∃ rb, revbits (jnl w) = Some rb ∧ blocks_count (e4 w0) ≤ 8 * zlen rb ∧
    ∀ b, 0 ≤ b < blocks_count (e4 w0) → bit_at rb b = f b.

Lemma rev_byte (w : W) f b : rev_is w f → 0 ≤ b < blocks_count (e4 w0) →
  ∃ rb v, revbits (jnl w) = Some rb ∧ ld8 rb (Z.shiftr b 3) = Some v ∧
    rb !! Z.to_nat (Z.shiftr b 3) = Some v ∧ f b = Z.testbit v (b mod 8).
Proof.
  intros (rb & Hr & Hl & Hf) Hb. rewrite Z.shiftr_div_pow2 by lia. change (2 ^ 3) with 8.
  destruct (ld8_lookup rb (b / 8)) as (v & Hld & Hv); [mod_lia|].
  exists rb, v. split_and!; [done..|]. rewrite <- (Hf b Hb). unfold bit_at. by rewrite Hv.
Qed.

Lemma revoke_wp (w : W) f b : kept w → rev_is w f → 0 ≤ b < blocks_count (e4 w0) →
  wp (revoke b) (λ _ w', kept w' ∧ committed (jnl w') = committed (jnl w) ∧ (∀ k, disk w' k = disk w k) ∧
    rev_is w' (λ x, f x || (x =? b))) w.
Proof.
  intros Hk Hf Hb. destruct (rev_byte w f b Hf Hb) as (rb & v & Hr & Hld & Hv & _).
  destruct Hf as (rb' & Hr' & Hl & Hf). rewrite Hr in Hr'. injection Hr' as <-.
  assert (Hs : Z.shiftr b 3 = b / 8) by (rewrite Z.shiftr_div_pow2 by lia; done).
  destruct (splice_is_Some rb (b / 8) (le_to (Z.to_nat 1) (Z.lor v (revmask b)))) as [rb1 Hst];
    [apply Z.div_pos; lia|change (zlen (le_to _ _)) with 1; mod_lia|].
  unfold revoke. wp_pure. rewrite Hr. cbn [mbind option_bind]. rewrite Hld. cbn [mbind option_bind].
  unfold st8, st. rewrite Hs, Hst. apply wp_bind, (wp_lift _ rb1); [done|]. apply wp_modify.
  split. { destruct Hk as [? ? ? Hm ?]. split; try done. by destruct Hm; split. }
  split; [done|]. split; [done|]. exists rb1. split; [done|].
  split; [by rewrite (splice_zlen _ _ _ _ Hst)|]. intros x Hx. rewrite revmask_bit in Hst.
  rewrite Hs in Hv. 
  rewrite (set_bit_spec rb (b / 8) (b mod 8) v rb1 x) by (done || lia || mod_lia).
  rewrite Hf by done. rewrite orb_comm. f_equal. f_equal. mod_lia.
Qed.

Lemma rev_is_ext (w : W) f g :
  (∀ b, 0 ≤ b < blocks_count (e4 w0) → f b = g b) → rev_is w f → rev_is w g.
Proof.
  intros Hfg (rb & Hr & Hl & Hf). exists rb. split; [done|]. split; [done|].
  intros b Hb. rewrite <- Hfg by done. by apply Hf.
Qed.

(** Reading the disk, collecting commits and revocations. *)
Definition collected (w w' : W) : Prop := kept w' ∧ ∀ k, 0 ≤ k → disk w' k = disk w k.

Lemma revoke_block_wp (w : W) f b : kept w → rev_is w f → zlen b = bs → bytes_ok b →
  (be b 0 =? J_MAGIC) && (be b 4 =? JT_REVOKE) = true →
  wp (revoke_block b) (λ _ w', collected w w' ∧ committed (jnl w') = committed (jnl w) ∧
    rev_is w' (λ x, f x || existsb (Z.eqb x) (revokes bs b))) w.
Proof.
  intros Hk Hf Hl Hb Hh. pose proof bs_pos. unfold revoke_block, revokes. rewrite Hh. cbn [andb].
  destruct (ld_is_Some 4 b 12) as [used Hu]; [lia..|].
  pose proof (ld_range _ _ _ _ Hb Hu) as Hur.
  wp_pure. apply wp_bind, (wp_lift _ used); [exact Hu|]. rewrite (kp_e4 _ Hk).
  unfold fget. rewrite Hu. change (default 0 (Some used)) with used. rewrite Z.leb_antisym.
  destruct (Z.ltb_spec bs used) as [|Hused]; cbn [negb].
  { apply wp_ret. split; [by split|]. split; [done|].
    eapply rev_is_ext; [|exact Hf]. intros. symmetry. apply orb_false_r. }
  apply wp_bind. apply (wp_for (λ k w', collected w w' ∧ committed (jnl w') = committed (jnl w) ∧
    rev_is w' (λ x, f x || existsb (Z.eqb x) (map (λ k, be b (16 + 4 * k)) (seqZ 0 k))))).
  - split; [by split|]. split; [done|]. eapply rev_is_ext; [|exact Hf]. intros. symmetry. apply orb_false_r.
  - intros w' (Hc & Hcm & Hr). apply wp_ret. split; [done|]. split; [done|].
    rewrite Z.add_0_l in Hr. destruct (decide (0 ≤ (used - 16) / 4)) as [Hge|Hlt].
    + by rewrite Z2Nat.id in Hr.
    + replace (Z.of_nat _) with 0 in Hr by lia. by rewrite seqZ_nil in Hr |- * by lia.
  - intros k w' Hkr ([Hk' Hd] & Hcm & Hr). rewrite ?Z2Nat.id in Hkr by lia.
    apply wp_bind, (wp_lift _ (be b (16 + 4 * k))).
    { apply be32_is_Some; [done|lia|]. mod_lia. }
    assert (Hsplit : ∀ x, existsb (Z.eqb x) (map (λ k, be b (16 + 4 * k)) (seqZ 0 (k + 1))) =
      existsb (Z.eqb x) (map (λ k, be b (16 + 4 * k)) (seqZ 0 k)) || (x =? be b (16 + 4 * k))).
    { intros x. rewrite seqZ_app, map_app, existsb_app by lia. rewrite Z.add_0_l.
      change (seqZ k 1) with [k]. cbn [map existsb]. by rewrite orb_false_r. }
    pose proof (be_nonneg b (16 + 4 * k) Hb).
    apply (wp_call _ _ (λ _ w2, collected w w2 ∧ committed (jnl w2) = committed (jnl w) ∧
      rev_is w2 (λ x, f x || existsb (Z.eqb x) (map (λ k, be b (16 + 4 * k)) (seqZ 0 (k + 1)))))).
    + destruct (Z.ltb_spec (be b (16 + 4 * k)) (blocks_count (e4 w0))) as [Hlt|Hge].
      * eapply wp_mono; [by apply revoke_wp|]. intros _ w2 (Hk2 & Hcm2 & Hd2 & Hr2).
        split; [split; [done|]; intros j Hj; rewrite Hd2; by apply Hd|]. split; [congruence|].
        eapply rev_is_ext; [|exact Hr2]. intros x Hx. cbn beta. by rewrite Hsplit, orb_assoc.
      * apply wp_ret. split; [by split|]. split; [done|].
        eapply rev_is_ext; [|exact Hr]. intros x Hx. cbn beta. rewrite Hsplit.
        rewrite (proj2 (Z.eqb_neq x _)) by lia. by rewrite orb_false_r.
    + intros _ w2 Hw2. by apply wp_ret.
Qed.

Lemma log_blocks_S i n : log_blocks i (Z.of_nat (S n)) = log i :: log_blocks (i + 1) (Z.of_nat n).
Proof.
  unfold log_blocks. rewrite seqZ_cons by lia. cbn [map].
  by replace (Z.pred (Z.of_nat (S n))) with (Z.of_nat n) by lia.
Qed.
Lemma commits_S i n :
  commits i (Z.of_nat (S n)) = option_list (head_seq JT_COMMIT (log i)) ++ commits (i + 1) (Z.of_nat n).
Proof. unfold commits. rewrite log_blocks_S. cbn. by destruct (head_seq _ _). Qed.
Lemma revoked_in_S i n x :
  revoked_in i (Z.of_nat (S n)) x = existsb (Z.eqb x) (revokes bs (log i)) || revoked_in (i + 1) (Z.of_nat n) x.
Proof. unfold revoked_in. rewrite log_blocks_S. cbn [mbind list_bind]. apply existsb_app. Qed.

Lemma collected_trans w1 w2 w3 : collected w1 w2 → collected w2 w3 → collected w1 w3.
Proof. intros [_ H1] [Hk H2]. split; [done|]. intros k Hk0. by rewrite H2, H1. Qed.

Lemma note_block_wp (w : W) f i : kept w → rev_is w f → 0 ≤ i < cap →
  zlen (committed (jnl w)) + zlen (option_list (head_seq JT_COMMIT (log i))) ≤ MAX_TRACKED_SEQS →
  wp (note_block (log i)) (λ _ w', collected w w' ∧
    rev_is w' (λ x, f x || existsb (Z.eqb x) (revokes bs (log i))) ∧
    (∀ s, was_committed s (jnl w') =
      was_committed s (jnl w) || existsb (Z.eqb s) (option_list (head_seq JT_COMMIT (log i)))) ∧
    zlen (committed (jnl w')) ≤ zlen (committed (jnl w)) + zlen (option_list (head_seq JT_COMMIT (log i)))) w.
Proof.
  intros Hk Hf Hi Hc. pose proof bs_pos. unfold note_block.
  assert (Hnone : head_seq JT_COMMIT (log i) = None → revokes bs (log i) = [] →
    wp (ret tt) (λ _ w', collected w w' ∧
      rev_is w' (λ x, f x || existsb (Z.eqb x) (revokes bs (log i))) ∧
      (∀ s, was_committed s (jnl w') =
        was_committed s (jnl w) || existsb (Z.eqb s) (option_list (head_seq JT_COMMIT (log i)))) ∧
      zlen (committed (jnl w')) ≤ zlen (committed (jnl w)) + zlen (option_list (head_seq JT_COMMIT (log i)))) w).
  { intros -> ->. apply wp_ret. split; [by split|]. split.
    - eapply rev_is_ext; [|exact Hf]. intros. symmetry. apply orb_false_r.
    - split; [intros; symmetry; apply orb_false_r|]. change (zlen (option_list (@None Z))) with 0. lia. }
  apply wp_bind, (wp_lift _ (be (log i) 0)); [apply log_be; lia|].
  destruct (Z.eqb_spec (be (log i) 0) J_MAGIC) as [Em|Em]; cbn [negb].
  2: { apply Hnone; unfold head_seq, revokes; by rewrite (proj2 (Z.eqb_neq _ _) Em). }
  apply wp_bind, (wp_lift _ (be (log i) 4)); [apply log_be; lia|].
  destruct (Z.eqb_spec (be (log i) 4) JT_COMMIT) as [Et|Et].
  { assert (Hs : head_seq JT_COMMIT (log i) = Some (be (log i) 8)).
    { unfold head_seq. by rewrite Em, Et, !Z.eqb_refl. }
    assert (Hr : revokes bs (log i) = []) by (unfold revokes; by rewrite Et, andb_false_r).
    rewrite Hs, Hr in *. change (zlen (option_list _)) with 1 in *.
    apply wp_bind, (wp_lift _ (be (log i) 8)); [apply log_be; lia|]. apply wp_modify.
    destruct (note_commit_spec (be (log i) 8) (jnl w)) as (Hw & Hz & Hj & Hb); [lia|].
    split; [split; [|done]|].
    { destruct Hk as [? ? ? Hm Hkj]. split; try done; [by destruct Hm; split|]. by rewrite <- Hkj. }
    split; [|split; [|cbn [jnl set_jnl]; lia]].
    - destruct Hf as (rb & Hrb & Hl & Hf). exists rb. split; [by rewrite <- Hrb|]. split; [done|].
      intros x Hx. rewrite Hf by done. symmetry. apply orb_false_r.
    - intros s. cbn [jnl set_jnl]. rewrite Hw. f_equal. symmetry. apply orb_false_r. }
  assert (Hs : head_seq JT_COMMIT (log i) = None).
  { unfold head_seq. by rewrite (proj2 (Z.eqb_neq _ _) Et), andb_false_r. }
  destruct (Z.eqb_spec (be (log i) 4) JT_REVOKE) as [Er|Er].
  - eapply wp_mono.
    { apply revoke_block_wp; [done|exact Hf|by apply log_zlen|by apply log_bytes|].
      by rewrite Em, Er. }
    intros _ w' (Hcl & Hcm & Hrv). split; [done|]. split; [done|]. rewrite Hs. change (zlen (option_list _)) with 0.
    unfold was_committed. rewrite Hcm. split; [intros; symmetry; apply orb_false_r|lia].
  - apply Hnone; [done|]. unfold revokes. by rewrite (proj2 (Z.eqb_neq _ _) Er), andb_false_r.
Qed.

Lemma pass1_wp n : ∀ i buf (w : W) f,
  kept w → log_same w → rev_is w f → 0 ≤ i → i + Z.of_nat n ≤ cap → zlen buf = bs →
  zlen (committed (jnl w)) + zlen (commits i (Z.of_nat n)) ≤ MAX_TRACKED_SEQS →
  wp (pass1 n i (Some buf)) (λ r w', (∃ b, r = Some b ∧ zlen b = bs) ∧ collected w w' ∧
    rev_is w' (λ x, f x || revoked_in i (Z.of_nat n) x) ∧
    (∀ s, was_committed s (jnl w') = was_committed s (jnl w) || existsb (Z.eqb s) (commits i (Z.of_nat n)))) w.
Proof.
  induction n as [|n IH]; intros i buf w f Hk Hsame Hf Hi Hcap Hl Hc.
  { apply wp_ret. split; [by exists buf|]. split; [by split|]. split.
    - eapply rev_is_ext; [|exact Hf]. intros. symmetry. apply orb_false_r.
    - intros s. symmetry. apply orb_false_r. }
  rewrite commits_S, zlen_app in Hc. pose proof (zlen_nonneg (commits (i + 1) (Z.of_nat n))).
  cbn [pass1]. wp_apply jread_wp; [done|lia|done|]. intros r w1 (-> & Hk1 & Hj1 & Hd1).
  cbv iota. change (truthy 0) with false. cbv iota. rewrite (Hsame i) by lia.
  rewrite <- Hj1 in Hc.
  assert (Hf1 : rev_is w1 f) by (unfold rev_is; by rewrite Hj1).
  eapply wp_call.
  { apply wp_bind, (wp_lift _ (log i)); [done|]. apply (note_block_wp w1 f i Hk1 Hf1); lia. }
  intros [] w2 (Hc2 & Hr2 & Hw2 & Hz2).
  assert (Hc02 : collected w w2) by (eapply collected_trans; [|exact Hc2]; by split).
  eapply wp_mono.
  { eapply (IH (i + 1) (log i) w2); [apply Hc2| |exact Hr2|lia|lia|apply log_zlen; lia|lia].
    intros k Hk0. rewrite (proj2 Hc02); [by apply Hsame|]. pose proof (jo_phys J k Hk0). lia. }
  intros r w3 (Hb & Hc3 & Hr3 & Hw3). split; [done|]. split; [by eapply collected_trans|]. split.
  - eapply rev_is_ext; [|exact Hr3]. intros x Hx. cbn beta. by rewrite revoked_in_S, orb_assoc.
  - intros s. by rewrite Hw3, Hw2, commits_S, existsb_app, orb_assoc, Hj1.
Qed.

(** *** Pass 2 *)

Lemma apply_writes_cons tl ws d : apply_writes (tl :: ws) d = apply_writes ws (put d tl).
Proof. done. Qed.
Lemma apply_writes_app ws vs d : apply_writes (ws ++ vs) d = apply_writes vs (apply_writes ws d).
Proof. apply foldl_app. Qed.
Lemma apply_writes_ext ws d d' k : d k = d' k → apply_writes ws d k = apply_writes ws d' k.
Proof.
  revert d d'. induction ws as [|tl ws IH]; intros d d' Hk; [done|]. unfold apply_writes. cbn [foldl].
  apply IH. unfold put. by destruct (decide (k = tl.1)).
Qed.
Lemma unescape_splice l : 4 ≤ zlen l → splice l 0 [0xC0; 0x3B; 0x39; 0x98] = Some (unescape true l).
Proof. intros Hl. apply splice_Some. split; [lia|]. split; [exact Hl|]. done. Qed.
Lemma unescape_block esc l : 4 ≤ zlen l → zlen (unescape esc l) = zlen l.
Proof.
  intros Hl. destruct esc; [|done]. unfold unescape. rewrite zlen_app. unfold zlen in *. rewrite length_drop.
  cbn [length]. lia.
Qed.
Lemma unescape_bytes esc l : bytes_ok l → bytes_ok (unescape esc l).
Proof.
  intros Hl. destruct esc; [|done]. apply list.Forall_app. split; [by apply bytes_dec|by apply list.Forall_drop].
Qed.

(** Writing a block that is not one of the log's. *)
Lemma put_wp (w : W) t l : kept w → log_same w → 0 < t < blocks_count (e4 w0) → (∀ i, 0 ≤ i < cap → phys i ≠ t) →
  zlen l = bs → bytes_ok l →
  wp (e4_write_block t (Some l)) (λ rc w', rc = 0 ∧ kept w' ∧ log_same w' ∧ jnl w' = jnl w ∧
    ∀ k, 0 ≤ k → disk w' k = put (disk w) (t, l) k) w.
Proof.
  intros Hk Hsame Ht Hphys Hl Hb.
  destruct (e4_write_block_spec dv ok sector w t l) as (s' & E & Hok & Hput);
    [apply Hk|rewrite (kp_e4 _ Hk); apply J|rewrite (kp_e4 _ Hk); lia|by rewrite (kp_e4 _ Hk)|done|].
  assert (Hd : ∀ k, 0 ≤ k → disk (set_hw s' w) k = put (disk w) (t, l) k).
  { intros k Hk0. unfold put. cbn [fst snd].
    eapply (disk_put dv ok sector); [apply Hk|by rewrite (kp_e4 _ Hk)|lia|done|exact Hput]. }
  eexists _, _. split; [exact E|]. split; [done|]. split; [by apply kept_hw|]. split; [|done].
  intros i Hi. pose proof (jo_phys J i Hi). rewrite Hd by lia. unfold put. cbn [fst].
  rewrite decide_False by (by apply Hphys). by apply Hsame.
Qed.

Definition target_ok (t : Z) : Prop := 0 < t < blocks_count (e4 w0) ∧ ∀ i, 0 ≤ i < cap → phys i ≠ t.

Lemma is_revoked_wp (w : W) f t : rev_is w f → 0 ≤ t < blocks_count (e4 w0) →
  is_revoked t w = Some (f t, w).
Proof.
  intros Hf Ht. destruct (rev_byte w f t Hf Ht) as (rb & v & Hr & Hld & _ & ->).
  unfold is_revoked. rewrite bind_gets, Hr. cbn [mbind option_bind]. rewrite Hld, bind_lift.
  unfold revmask. change 7 with (2 ^ 3 - 1). rewrite land_ones_low by lia.
  unfold ret. rewrite has_shiftl; [done|]. apply Z.mod_pos_bound. lia.
Qed.

(** The tags [ts] with the contents from block [c] on have been handled. *)
Definition tags_done (ts : list (Z * bool)) (c : Z) (w : W) (r : Z * option (list Z)) (w' : W) : Prop :=
  r.1 = c + zlen ts ∧ (∃ l, r.2 = Some l ∧ zlen l = bs) ∧ kept w' ∧ log_same w' ∧ jnl w' = jnl w ∧
  ∀ k, 0 ≤ k → disk w' k = apply_writes (tag_writes log log_revoked ts c) (disk w) k.

Lemma replay_tags_wp fuel : ∀ b c off content (w : W) ts,
  kept w → log_same w → rev_is w log_revoked → zlen b = bs → bytes_ok b → 0 ≤ c → 0 ≤ off →
  1 ≤ Z.of_nat fuel → bs - off < Z.of_nat fuel → zlen content = bs →
  ts = tags (Z.to_nat (cap - c)) bs tagsz b off → (∀ te, te ∈ ts → target_ok te.1) →
  wp (replay_tags fuel b tagsz cap c off (Some content)) (tags_done ts c w) w.
Proof.
  induction fuel as [|fuel IH]; intros b c off content w ts Hk Hsame Hrev Hl Hb Hc Hoff Hf1 Hf2 Hcl Hts Hok; [lia|].
  pose proof bs_pos. pose proof (jo_tagsz J).
  assert (Hend : ts = [] → wp (ret (c, Some content)) (tags_done ts c w) w).
  { intros ->. apply wp_ret. split; [by rewrite zlen_nil, Z.add_0_r|]. split; [by exists content|]. done. }
  cbn [replay_tags]. wp_pure. rewrite (kp_e4 _ Hk).
  destruct (Z.ltb_spec c cap) as [Hcc|Hcc]; rewrite ?andb_false_r, ?andb_true_r; cbn [negb].
  2: { apply Hend. rewrite Hts. by replace (Z.to_nat (cap - c)) with O by lia. }
  replace (Z.to_nat (cap - c)) with (S (Z.to_nat (cap - (c + 1)))) in Hts by lia. cbn [tags] in Hts.
  destruct (Z.leb_spec (off + tagsz) bs) as [Ho|Ho]; cbn [negb]; [|by apply Hend].
  apply wp_bind, (wp_lift _ (be b off)); [apply be32_is_Some; lia || done|].
  apply wp_bind, (wp_lift _ (be b (off + 4))); [apply be32_is_Some; lia || done|].
  destruct (has (be b (off + 4)) TAG_LAST); cbn [orb] in Hts; [by apply Hend|].
  destruct (Z.eqb_spec (be b off) 0) as [|Htz]; [by apply Hend|].
  wp_apply jread_wp; [done|lia|done|]. intros r w1 (-> & Hk1 & Hj1 & Hd1). cbv iota.
  change (truthy 0) with false. cbv iota. rewrite (Hsame c) by lia.
  set (esc := has (be b (off + 4)) TAG_ESCAPE) in *.
  pose proof (log_zlen c ltac:(lia)) as Hlz. pose proof (log_bytes c ltac:(lia)) as Hlb.
  apply (wp_call _ _ (λ r w2, r = Some (unescape esc (log c)) ∧ w2 = w1)).
  { destruct esc; [|by apply wp_ret]. apply (wp_lift _ (Some (unescape true (log c)))); [|done].
    cbn [mbind option_bind]. rewrite unescape_splice by lia. done. }
  intros ? ? [-> ->].
  destruct (Hok (be b off, esc)) as [Htr Htp]; [rewrite Hts; by left|]. cbn [fst] in Htr, Htp.
  assert (Hsame1 : log_same w1).
  { intros k Hk0. pose proof (jo_phys J k Hk0). rewrite Hd1 by lia. by apply Hsame. }
  assert (Hrev1 : rev_is w1 log_revoked) by (unfold rev_is; by rewrite Hj1).
  apply wp_bind. eexists _, _. split; [apply (is_revoked_wp w1 _ _ Hrev1); lia|]. cbv beta.
  set (ts' := tags (Z.to_nat (cap - (c + 1))) bs tagsz b (off + tagsz)) in *.
  assert (Hok' : ∀ te, te ∈ ts' → target_ok te.1) by (intros te Hte; apply Hok; rewrite Hts; by right).
  pose proof (unescape_block esc (log c) ltac:(lia)) as Hul.
  rewrite Hts. unfold tags_done. cbn [tag_writes]. rewrite zlen_cons.
  destruct (log_revoked (be b off)) eqn:Er.
  - eapply wp_mono; [apply (IH b (c + 1) (off + tagsz) _ w1 ts'); done || lia|].
    intros [c' ct'] w2 (Ec & Hct & Hk2 & Hs2 & Hj2 & Hd2). cbn [fst] in Ec |- *.
    split; [lia|]. split; [done|]. split; [done|]. split; [done|]. split; [congruence|].
    intros k Hk0. rewrite Hd2 by done. cbn [app]. apply apply_writes_ext. by apply Hd1.
  - wp_apply (put_wp w1); [done|done|lia|exact Htp|lia|by apply unescape_bytes|].
    intros ? w2 (-> & Hk2 & Hs2 & Hj2 & Hd2). change (truthy 0) with false. cbv iota.
    assert (Hrev2 : rev_is w2 log_revoked) by (unfold rev_is; by rewrite Hj2).
    eapply wp_mono; [apply (IH b (c + 1) (off + tagsz) _ w2 ts'); done || lia|].
    intros [c' ct'] w3 (Ec & Hct & Hk3 & Hs3 & Hj3 & Hd3). cbn [fst] in Ec |- *.
    split; [lia|]. split; [done|]. split; [done|]. split; [done|]. split; [congruence|].
    intros k Hk0. rewrite Hd3 by done. cbn [app]. rewrite apply_writes_cons. apply apply_writes_ext.
    rewrite Hd2 by done. unfold put. cbn [fst snd]. case_decide; [done|]. by apply Hd1.
Qed.

(** The targets of the committed transactions are blocks of the file system
    outside the log. *)
Definition targets_ok : Prop := ∀ i seq te, first ≤ i < cap →
  head_seq JT_DESC (log i) = Some seq → log_done seq = true →
  te ∈ tags (Z.to_nat (cap - (i + 1))) bs tagsz (log i) 12 → target_ok te.1.

Lemma pass2_wp (T : targets_ok) fuel : ∀ i buf content (w : W),
  kept w → log_same w → rev_is w log_revoked → (∀ s, was_committed s (jnl w) = log_done s) →
  first ≤ i → 1 ≤ Z.of_nat fuel → cap - i < Z.of_nat fuel → zlen buf = bs → zlen content = bs →
  wp (pass2 fuel i cap tagsz (Some buf) (Some content)) (λ _ w', kept w' ∧ jnl w' = jnl w ∧
    ∀ k, 0 ≤ k → disk w' k =
      apply_writes (replayed fuel bs tagsz cap log log_revoked log_done i) (disk w) k) w.
Proof.
  induction fuel as [|fuel IH]; intros i buf content w Hk Hsame Hrev Hdone Hi Hf1 Hf2 Hl Hcl; [lia|].
  pose proof bs_pos. pose proof (jo_range J). cbn [pass2 replayed].
  destruct (Z.ltb_spec i cap) as [Hlt|Hge]; cbn [negb]; [|by apply wp_ret].
  wp_apply jread_wp; [done|lia|done|]. intros r w1 (-> & Hk1 & Hj1 & Hd1). cbv iota.
  change (truthy 0) with false. cbv iota. rewrite (Hsame i) by lia.
  assert (Hsame1 : log_same w1).
  { intros k Hk0. pose proof (jo_phys J k Hk0). rewrite Hd1 by lia. by apply Hsame. }
  assert (Hrev1 : rev_is w1 log_revoked) by (unfold rev_is; by rewrite Hj1).
  assert (Hdone1 : ∀ s, was_committed s (jnl w1) = log_done s) by (by rewrite Hj1).
  pose proof (log_zlen i ltac:(lia)) as Hlz. pose proof (log_bytes i ltac:(lia)) as Hlb.
  apply wp_bind, (wp_lift _ (log i)); [done|].
  do 3 (apply wp_bind; eapply wp_lift; [apply log_be; lia|]). wp_pure. rewrite Hdone1.
  assert (Hskip : wp (pass2 fuel (i + 1) cap tagsz (Some (log i)) (Some content)) (λ _ w', kept w' ∧ jnl w' = jnl w ∧
    ∀ k, 0 ≤ k → disk w' k =
      apply_writes (replayed fuel bs tagsz cap log log_revoked log_done (i + 1)) (disk w) k) w1).
  { eapply wp_mono; [apply IH; done || lia|]. intros [] w2 (Hk2 & Hj2 & Hd2).
    split; [done|]. split; [congruence|]. intros k Hk0. rewrite Hd2 by done.
    apply apply_writes_ext. by apply Hd1. }
  destruct (head_seq JT_DESC (log i)) as [seq|] eqn:Eh; unfold head_seq in Eh.
  2: { destruct (be (log i) 0 =? J_MAGIC), (be (log i) 4 =? JT_DESC); done || exact Hskip. }
  destruct (be (log i) 0 =? J_MAGIC) eqn:Em, (be (log i) 4 =? JT_DESC) eqn:Et; try done.
  cbn [andb] in Eh. injection Eh as <-.
  destruct (log_done (be (log i) 8)) eqn:Ed; cbn [negb orb]; [|exact Hskip].
  set (ts := tags (Z.to_nat (cap - (i + 1))) bs tagsz (log i) 12).
  wp_pure. apply wp_bind. eapply wp_mono.
  { rewrite (kp_e4 _ Hk1). apply (replay_tags_wp _ _ _ _ _ _ ts); try done || lia.
    intros te Hte. apply (T i (be (log i) 8)); [lia| |done|done].
    unfold head_seq. by rewrite Em, Et. }
  intros [c ct] w2 (Ec & (l & El & Hll) & Hk2 & Hs2 & Hj2 & Hd2). cbn [fst snd] in Ec, El. subst c ct.
  pose proof (zlen_nonneg ts). eapply wp_mono.
  { apply IH; [done|done|unfold rev_is; by rewrite Hj2|by rewrite Hj2|lia..]. }
  intros [] w3 (Hk3 & Hj3 & Hd3). split; [done|]. split; [congruence|].
  intros k Hk0. rewrite Hd3, apply_writes_app by done. apply apply_writes_ext.
  rewrite Hd2 by done. apply apply_writes_ext. by apply Hd1.
Qed.

Lemma replay_wp buf content :
  targets_ok → committed (jnl w0) = [] → rev_is w0 (λ _, false) →
  zlen (commits first (cap - first)) ≤ MAX_TRACKED_SEQS →
  zlen buf = bs → zlen content = bs →
  ∃ w', replay_passes first cap tagsz (Some buf) (Some content) w0 = Some (tt, w') ∧
    kept w' ∧ ∀ k, 0 ≤ k → disk w' k = apply_writes log_writes (disk w0) k.
Proof.
  intros T Hc Hr Hn Hl Hcl. pose proof (jo_range J) as Hrg.
  assert (Hwp : wp (replay_passes first cap tagsz (Some buf) (Some content))
    (λ _ w', kept w' ∧ ∀ k, 0 ≤ k → disk w' k = apply_writes log_writes (disk w0) k) w0).
  2: { destruct Hwp as ([] & w' & E & Hw'). by exists w'. }
  unfold replay_passes. wp_apply (pass1_wp (Z.to_nat (cap - first)) first buf w0); rewrite ?Z2Nat.id by lia.
  { apply kept_w0. } { done. } { exact Hr. } { lia. } { lia. } { done. } { rewrite Hc. exact Hn. }
  intros r w1 ((b & -> & Hb) & [Hk1 Hd1] & Hr1 & Hw1). wp_pure.
  assert (Hdone : ∀ s, was_committed s (jnl w1) = log_done s).
  { intros s. rewrite Hw1. unfold was_committed. by rewrite Hc. }
  assert (Hsame : log_same w1).
  { intros k Hk0. pose proof (jo_phys J k Hk0). rewrite Hd1 by lia. done. }
  destruct (Z.eqb_spec (zlen (committed (jnl w1))) 0) as [Hz|Hz].
  - apply wp_ret. split; [done|]. intros k Hk0. rewrite Hd1 by done.
    assert (Hnone : ∀ fuel i, replayed fuel bs tagsz cap log log_revoked log_done i = []).
    { assert (Hd : ∀ s, log_done s = false).
      { intros s. rewrite <- Hdone. unfold was_committed. destruct (committed (jnl w1)); [done|].
        rewrite zlen_cons in Hz. pose proof (zlen_nonneg l). lia. }
      induction fuel as [|fuel IH]; intros i; [done|]. cbn [replayed]. destruct (negb _); [done|].
      destruct (head_seq _ _) as [seq|]; [rewrite Hd|]; apply IH. }
    unfold log_writes. by rewrite Hnone.
  - eapply wp_mono; [apply (pass2_wp T); [done|done| |done|lia..]|].
    + eapply rev_is_ext; [|exact Hr1]. done.
    + intros [] w2 (Hk2 & _ & Hd2). split; [done|]. intros k Hk0. rewrite Hd2 by done.
      apply apply_writes_ext. by apply Hd1.
Qed.

(** C10: Journal recovery. On a working disk with a journal that can be read, at
    most 256 commit blocks, and the targets of the committed transactions inside
    the file system and outside the log, the two passes return, and the disk is
    the one before with the blocks of the committed transactions that no revoke
    block of the log names written to their targets in the order of the log, but
    for the last block of each descriptor, the one whose tag has [TAG_LAST], which
    is never written; nothing else of the disk or of the mount state changes. (The
    comment over the replay promises all blocks.) *)
Theorem journal_replay_spec buf content :
  targets_ok → committed (jnl w0) = [] → rev_is w0 (λ _, false) →
  zlen (commits first (cap - first)) ≤ MAX_TRACKED_SEQS →
  zlen buf = bs → zlen content = bs →
  ∃ w', replay_passes first cap tagsz (Some buf) (Some content) w0 = Some (tt, w') ∧
    kept w' ∧ ∀ k, 0 ≤ k → disk w' k = apply_writes (not_last log_blocks_due) (disk w0) k.
Proof.
  intros. unfold log_blocks_due. rewrite <- replayed_logged. by apply replay_wp.
Qed.
End replay.

(** ** A concrete journal

    Blocks 8 to 15 of the small file system are the log: after two unused
    blocks a revoke block for block 4, a descriptor of blocks 3, 4 and (as the
    last one) 5, their contents, and the commit block. *)
Definition be4 (v : Z) : list Z := rev (le_to 4 v).
Definition pad (l : list Z) : list Z := l ++ zeros (1024 - zlen l).
Definition demo_log : list (list Z) := [
  zeros 1024; zeros 1024;
  pad (be4 J_MAGIC ++ be4 JT_REVOKE ++ be4 1 ++ le_to 4 20 ++ be4 4);
  pad (be4 J_MAGIC ++ be4 JT_DESC ++ be4 1 ++ be4 3 ++ be4 TAG_ESCAPE ++ be4 0 ++ be4 4 ++ be4 0 ++ be4 0 ++
       be4 5 ++ be4 TAG_LAST ++ be4 0);
  replicate 1024 7; replicate 1024 9; replicate 1024 5;
  pad (be4 J_MAGIC ++ be4 JT_COMMIT ++ be4 1)].
Definition demo_jin : list Z :=
  default [] (b ← st 4 (zeros 256) in_flags INO_FLAG_EXTENTS;
    splice b in_u (le_to 2 0xF30A ++ le_to 2 1 ++ le_to 2 4 ++ le_to 2 0 ++ le_to 4 0 ++
                   le_to 4 0 ++ le_to 2 8 ++ le_to 2 0 ++ le_to 4 8)).
Definition demo_journal : world (list Z) bump :=
  set_jnl (λ _, Journal demo_jin [] 0 (Some (zeros 2))) (demo_world (zeros 8192 ++ concat demo_log)).

Lemma demo_range i : 0 ≤ i < 8 → i ∈ [0; 1; 2; 3; 4; 5; 6; 7].
Proof. intros. change [0; 1; 2; 3; 4; 5; 6; 7] with (seqZ 0 8). apply elem_of_seqZ. lia. Qed.
Lemma demo_journal_ok : journal_ok (ram_disk 32) (ram_ok 32) demo_journal (λ i, 8 + i) 2 8 12.
Proof.
  split; [|done|lia|by left| |intros; cbn; lia].
  - assert (Hm : mounted (ram_disk 32) (ram_ok 32) (demo_world (zeros 8192 ++ concat demo_log))).
    { apply demo_mounted; [vm_compute; reflexivity|]. apply bytes_dec. vm_compute. reflexivity. }
    destruct Hm as [? ? ? ? ? Hb]. split; [done..|]. exact Hb.
  - intros i w Hi%demo_range. revert i Hi. apply list.Forall_forall. repeat (constructor; [vm_compute; reflexivity|]). constructor.
Qed.
Lemma demo_targets : targets_ok ram_sector demo_journal (λ i, 8 + i) 2 8 12.
Proof.
  intros i seq te Hi Hh _ Hte. assert (Hi7 : 0 ≤ i < 8) by lia. apply demo_range in Hi7.
  assert (Hall : Forall (λ i, Forall (λ te, 0 < te.1 < 8)
    (match head_seq JT_DESC (log ram_sector demo_journal (λ i, 8 + i) i) with
     | Some _ => tags (Z.to_nat (8 - (i + 1))) 1024 12 (log ram_sector demo_journal (λ i, 8 + i) i) 12
     | None => [] end)) [0; 1; 2; 3; 4; 5; 6; 7]).
  { repeat (constructor; [vm_compute; repeat constructor|]). constructor. }
  rewrite list.Forall_forall in Hall. specialize (Hall i Hi7). rewrite Hh in Hall.
  rewrite list.Forall_forall in Hall. specialize (Hall te Hte).
  split; [cbn; lia|]. intros j Hj. lia.
Qed.
(** The three blocks of the transaction but the revoked one: block 3 is replayed,
    block 5, the last one, is not. *)
Lemma journal_replay_spec_witness :
  ∃ w', replay_passes 2 8 12 (Some (zeros 1024)) (Some (zeros 1024)) demo_journal = Some (tt, w') ∧
    disk ram_sector w' 3 = unescape true (replicate 1024 7) ∧ disk ram_sector w' 4 = zeros 1024 ∧
    disk ram_sector w' 5 = zeros 1024 ∧
    log_blocks_due ram_sector demo_journal (λ i, 8 + i) 2 8 12 =
      [(3, unescape true (replicate 1024 7), false); (5, replicate 1024 5, true)].
Proof.
  destruct (journal_replay_spec (ram_disk 32) (ram_ok 32) ram_sector demo_journal (λ i, 8 + i) 2 8 12
    demo_journal_ok (zeros 1024) (zeros 1024) demo_targets) as (w' & E & _ & Hd).
  - reflexivity.
  - exists (zeros 2). split; [reflexivity|]. split; [vm_compute; discriminate|].
    intros b Hb. unfold bit_at. replace (zeros 2 !! Z.to_nat (b / 8)) with (Some 0); [apply Z.bits_0|].
    change (zeros 2) with (replicate 2 0). symmetry. apply lookup_replicate. split; [done|].
    change (blocks_count (e4 demo_journal)) with 16 in Hb. mod_lia.
  - vm_compute. discriminate.
  - reflexivity.
  - reflexivity.
  - exists w'. split; [exact E|]. rewrite !Hd by lia.
    split; [vm_compute; reflexivity|]. split; [vm_compute; reflexivity|]. split; vm_compute; reflexivity.
Defined.
