(* ===== verification/Ext4Mount.v ===== *)
(** * fs/ext4_mount.c: mounting and the public file API

    A path is a NUL-terminated byte buffer, NULL is [None]. *)
From S2P Require Import Prelude KString Csum Blkdev Alloc Ext4Disk Ext4Core Ext4Map Ext4Alloc Ext4Dir Ext4Journal.

Definition SUPPORTED_INCOMPAT : Z := Eval vm_compute in
  Z.lor (Z.lor (Z.lor (Z.lor (Z.lor FEAT_INCOMPAT_FILETYPE FEAT_INCOMPAT_RECOVER)
    FEAT_INCOMPAT_EXTENTS) FEAT_INCOMPAT_64BIT) FEAT_INCOMPAT_FLEX_BG) FEAT_INCOMPAT_CSUM_SEED.
Definition EXT4_MAX_PATH : Z := 128.
Definition EXT4_WRITE_CAP : Z := 16777216.

(** ** Path resolution *)

(** The component [name] of length [len]. *)
Definition comp_ok (name : list Z) : bool :=
  (0 <? zlen name) && (zlen name <=? EXT4_NAME_MAX) && negb (default 0 (head name) =? 47).

(** [while ( *p == '/') p++]; [p] is the rest of the string before its NUL. *)
Fixpoint skip_slashes (p : list Z) : list Z :=
  match p with
  | c :: r => if c =? 47 then skip_slashes r else p
  | [] => []
  end.

(** The bytes up to the next slash, and the rest from it. *)
Fixpoint component (p : list Z) : list Z * list Z :=
  match p with
  | [] => ([], [])
  | c :: r => if c =? 47 then ([], p) else let '(n, q) := component r in (c :: n, q)
  end.

(** The string in a path buffer that starts with a slash and is short enough. *)
Definition path_string (path : option (list Z)) : option (option (list Z)) :=
  match path with
  | None => Some None
  | Some b =>
      c ← b !! 0%nat;
      if negb (c =? 47) then Some None
      else
        n ← k_strlen b;
        Some (if EXT4_MAX_PATH <=? n then None else Some (take (Z.to_nat n) b))
  end.

(** Strips trailing slashes, [n] at most: [while (plen > 1 && ...)]. *)
Fixpoint strip_slashes (n : nat) (s : list Z) : list Z :=
  match n with
  | O => s
  | S n' =>
      if (1 <? zlen s) && (default 0 (list.last s) =? 47) then strip_slashes n' (removelast s) else s
  end.

(** Index of the last slash below [n]. *)
Fixpoint find_cut (n : nat) (s : list Z) : option Z :=
  match n with
  | O => None
  | S i => if default 0 (s !! i) =? 47 then Some (Z.of_nat i) else find_cut i s
  end.

(** Directory part and last component of a path string. *)
Definition split_path (s : list Z) : list Z * list Z :=
  let s := strip_slashes (length s) s in
  match find_cut (length s) s with
  | None => ([47], s)
  | Some cut => (take (Z.to_nat (if cut =? 0 then 1 else cut)) s, drop (Z.to_nat (cut + 1)) s)
  end.

Section mount.
Context {D H : Type} `{Allocator H}.
#[local] Abbreviation W := (world D H).

(** [while ( *p)]; each round consumes a component. *)
Fixpoint resolve_loop (fuel : nat) (cur : Z) (p : list Z) : M W (option Z) :=
  match fuel with
  | O => fault
  | S f =>
      match skip_slashes p with
      | [] => ret (Some cur)
      | p =>
          let '(name, q) := component p in
          if negb (comp_ok name) then ret None
          else
            let* ci := stack_inode in
            let* (rc, ci) := e4_read_inode cur ci in
            if truthy rc || negb (e4_is_dir ci) then ret None
            else
              let* r := e4_dir_lookup cur (name ++ [0]) in
              match r with
              | None => ret None
              | Some nxt => resolve_loop f nxt (tail q)
              end
      end
  end.

Definition resolve_full (path : option (list Z)) : M W (option Z) :=
  let* s := lift (path_string path) in
  match s with
  | None => ret None
  | Some s => resolve_loop (S (length s)) EXT4_ROOT_INO (tail s)
  end.

(** Name of the last component (with its NUL) and inode of its directory. *)
Definition resolve_parent (path : option (list Z)) : M W (option (list Z * Z)) :=
  let* s := lift (path_string path) in
  match s with
  | None => ret None
  | Some s =>
      let '(dirp, nm) := split_path s in
      if negb (comp_ok nm) then ret None
      else if EXT4_MAX_PATH <=? zlen dirp then ret None
      else
        let* r := resolve_full (Some (dirp ++ [0])) in
        match r with
        | None => ret None
        | Some parent =>
            let* pi := stack_inode in
            let* (rc, pi) := e4_read_inode parent pi in
            if truthy rc || negb (e4_is_dir pi) then ret None
            else ret (Some (nm ++ [0], parent))
        end
  end.

(** ** Mount *)

(** The fields read from the superblock [s]. *)
Definition e4_of_sb (s : list Z) : ext4_fs :=
  let inc := fget 4 s sb_feature_incompat in
  let roc := fget 4 s sb_feature_ro_compat in
  let bs := u32 (Z.shiftl 1024 (fget 4 s sb_log_block_size)) in
  let has64 := has inc FEAT_INCOMPAT_64BIT in
  let lo := fget 4 s sb_blocks_count_lo in
  let ds := fget 2 s sb_desc_size in
  let fi := fget 4 s sb_first_ino in
  E4 None bs (bs / 512)
    (if has64 then Z.lor lo (Z.shiftl (fget 4 s sb_blocks_count_hi) 32) else lo)
    (fget 4 s sb_inodes_count) (fget 4 s sb_blocks_per_group) (fget 4 s sb_inodes_per_group)
    0 (fget 4 s sb_first_data_block) (fget 2 s sb_inode_size)
    (if has64 && truthy ds then ds else 32)
    (if truthy fi then fi else EXT4_GOOD_OLD_FIRST_INO)
    (fget 4 s sb_feature_compat) inc roc
    (has inc FEAT_INCOMPAT_EXTENTS) has64
    (has roc FEAT_RO_METADATA_CSUM) (has roc FEAT_RO_GDT_CSUM) (has inc FEAT_INCOMPAT_CSUM_SEED)
    false 0 (take 16 (drop (Z.to_nat sb_uuid) s)) s None.

Definition upd_group_count (v : Z) (e : ext4_fs) : ext4_fs :=
  E4 (dev e) (block_size e) (sectors_per_block e) (blocks_count e) (inodes_count e)
    (blocks_per_group e) (inodes_per_group e) v (first_data_block e)
    (inode_size e) (desc_size e) (first_ino e) (feat_compat e) (feat_incompat e)
    (feat_ro_compat e) (has_extents e) (has_64bit e) (meta_csum e) (gdt_csum e)
    (csum_seed_feat e) (writable e) (csum_seed e) (uuid e) (sb e) (gdt e).

(** [e4.dev = NULL; return false] *)
Definition mount_fail : M W bool := modify (set_e4 (upd_dev None)) ;; ret false.

(** The first 1024 bytes at byte 1024 of the device [dv], read through an
    allocated buffer; [None] when that fails. *)
Definition read_super (dv : Z) : M W (option (list Z)) :=
  let* p := kzalloc 1024 in
  match p with
  | None => ret None
  | Some _ =>
      let* r := (λ w : W, match blk_read (reg w) (Some dv) 2 2 (Some (zeros 1024)) (hw w) with
                          | Some (rc, b, s') => Some ((rc, b), set_hw s' w)
                          | None => None end) in
      kfree p ;;
      ret (if truthy (fst r) then None else snd r)
  end.

(** From the descriptor table on. *)
Definition mount_tables : M W bool :=
  let* e := gets e4 in
  let* rc := e4_init_scratch (block_size e) in
  if truthy rc then mount_fail
  else
    let bytes := u32 (group_count e * desc_size e) in
    let* p := kzalloc bytes in
    modify (set_e4 (upd_gdt (const (zeros bytes) <$> p))) ;;
    let* rc := match p with None => ret (-1) | Some _ => e4_load_gdt end in
    if truthy rc then mount_fail
    else
      (if has (feat_incompat e) FEAT_INCOMPAT_RECOVER && e4_journal_pending e
       then let* _ := e4_journal_replay in ret tt else ret tt) ;;
      modify (set_e4 (λ e, upd_sb
        (fset 2 sb_mnt_count (u16 (fget 2 (sb e) sb_mnt_count + 1))
          (fset 2 sb_state (Z.lor (fget 2 (sb e) sb_state) EXT4_VALID_FS) (sb e))) e)) ;;
      e4_sb_recompute_checksum ;;
      let* rc := e4_sync_superblock in
      if truthy rc then mount_fail else ret true.

Definition ext4_mount : M W bool :=
  let* e := gets e4 in
  match dev e with
  | Some _ => ret true
  | None =>
      modify (set_e4 (const e4_zero)) ;;
      let* r := gets reg in
      match blk_first r with
      | None => ret false
      | Some dv =>
          let* img := read_super dv in
          match img with
          | None => ret false
          | Some s =>
              modify (set_e4 (upd_sb s)) ;;
              if negb (fget 2 s sb_magic =? EXT4_MAGIC) then ret false
              else if 3 <? fget 4 s sb_log_block_size then mount_fail
              else if truthy (Z.ldiff (fget 4 s sb_feature_incompat) SUPPORTED_INCOMPAT) then mount_fail
              else if has (fget 4 s sb_feature_ro_compat) FEAT_RO_BIGALLOC then mount_fail
              else
                let e := e4_of_sb s in
                modify (set_e4 (const e)) ;;
                if (desc_size e <? 32) || (128 <? desc_size e) || truthy (Z.land (desc_size e) 3)
                then mount_fail
                else
                  let rem := u64 (blocks_count e - first_data_block e) in
                  let* q := udiv (u64 (rem + blocks_per_group e - 1)) (blocks_per_group e) in
                  let gc := u32 q in
                  modify (set_e4 (upd_group_count gc)) ;;
                  if (gc =? 0) || (65536 <? gc) then mount_fail else mount_tables
          end
      end
  end.

Definition ext4_ready (e : ext4_fs) : bool := match dev e with Some _ => true | None => false end.

(** ** Read *)

(** [while (done < want)]; the code and the new contents of the buffer. *)
Fixpoint read_loop (fuel : nat) (inode : list Z) (want done : Z) (out : list Z) : M W (Z * list Z) :=
  match fuel with
  | O => fault
  | S f =>
      if negb (done <? want) then ret (done, out)
      else
        let* e := gets e4 in
        let* lb := udiv done (block_size e) in
        let* boff := umod done (block_size e) in
        let chunk := Z.min (block_size e - boff) (want - done) in
        let* m := e4_bmap inode lb in
        match m with
        | None => ret (-1, out)
        | Some db =>
            if db =? 0 then
              let* out := lift (splice out done (zeros chunk)) in
              read_loop f inode want (done + chunk) out
            else
              try read_into e4_block_buf db else (-1, out) in
              let* l := buf_slice e4_block_buf boff chunk in
              let* out := lift (splice out done l) in
              read_loop f inode want (done + chunk) out
        end
  end.

Definition ext4_read (path : option (list Z)) (user_buf : option (list Z)) (max_len : Z)
    : M W (Z * option (list Z)) :=
  let* e := gets e4 in
  match dev e, user_buf with
  | Some _, Some out =>
      let* r := resolve_full path in
      match r with
      | None => ret (-1, user_buf)
      | Some ino =>
          let* inode := stack_inode in
          let* (rc, inode) := e4_read_inode ino inode in
          if truthy rc || e4_is_dir inode then ret (-1, user_buf)
          else
            let size := e4_inode_size e inode in
            let want := if size <? max_len then u32 size else max_len in
            let* (rc, out) := read_loop (S (Z.to_nat want)) inode want 0 out in
            ret (s32 rc, Some out)
      end
  | _, _ => ret (-1, user_buf)
  end.

(** ** Write *)

(** Code and the inode as the function leaves it. *)
Definition do_replace (ino : Z) (inode : list Z) (data : option (list Z)) (len : Z)
    : M W (Z * list Z) :=
  let* e := gets e4 in
  if negb (has (fget 4 inode in_flags) INO_FLAG_EXTENTS) then ret (-1, inode)
  else
    let* (rc, inode) := e4_truncate inode 0 in
    if truthy rc then ret (-1, inode)
    else
      let* nblocks := udiv (u32 (len + block_size e - 1)) (block_size e) in
      let* (rc, inode) :=
        if nblocks =? 0 then ret (0, inode)
        else e4_append_blocks inode ino 0 nblocks (if len =? 0 then None else data) in
      if truthy rc then ret (-1, inode)
      else
        let* now := e4_now in
        let inode := fset 4 in_size_lo len inode in
        let inode := fset 4 in_size_or_dir_acl 0 inode in
        let inode := fset 4 in_mtime (u32 now) inode in
        let inode := fset 4 in_ctime (u32 now) inode in
        let inode := fset 4 in_atime (u32 now) inode in
        let* rc := e4_write_inode ino inode in
        ret (rc, inode).

Definition sync_super : M W unit :=
  e4_sb_recompute_checksum ;; let* _ := e4_sync_superblock in ret tt.

(** The inode of a fresh regular file. *)
Definition fresh_inode (e : ext4_fs) (newino now : Z) : list Z :=
  let n := zeros 256 in
  let n := fset 2 in_mode 0x81A4 n in
  let n := fset 2 in_links_count 1 n in
  let n := fset 4 in_flags INO_FLAG_EXTENTS n in
  let n := fset 4 in_atime (u32 now) n in
  let n := fset 4 in_ctime (u32 now) n in
  let n := fset 4 in_mtime (u32 now) n in
  let n := fset 4 in_crtime (u32 now) n in
  let n := fset 4 in_generation (u32 (Z.lxor now (u32 (newino * 2654435761)))) n in
  if 128 <? inode_size e
  then fset 2 in_extra_isize (u16 (Z.min 32 (inode_size e - 128))) n else n.

Definition create_file (parent : Z) (name : list Z) (data : option (list Z)) (len : Z) : M W Z :=
  let* e := gets e4 in
  let* pin := stack_inode in
  let* (rc, pin) := e4_read_inode parent pin in
  if truthy rc then ret (-1)
  else
    let* pref := udiv (u32 (parent - 1)) (inodes_per_group e) in
    let* a := e4_alloc_inode pref 0x81A4 in
    match a with
    | None => ret (-1)
    | Some newino =>
        let* now := e4_now in
        let* (rc, nin) := do_replace newino (fresh_inode e newino now) data len in
        if truthy rc then
          let* _ := e4_free_inode newino in
          let* _ := e4_sync_gd pref in
          ret (-1)
        else
          let* rc := e4_dir_add_entry parent name newino DET_REG in
          if truthy rc then
            let* _ := e4_truncate nin 0 in
            let* _ := e4_free_inode newino in
            let* _ := e4_sync_gd pref in
            ret (-1)
          else sync_super ;; ret 0
    end.

Definition ext4_write (path : option (list Z)) (data : option (list Z)) (len : Z) : M W Z :=
  let* e := gets e4 in
  match dev e with
  | None => ret (-1)
  | Some _ =>
      if EXT4_WRITE_CAP <? len then ret (-1)
      else
        let* r := resolve_parent path in
        match r with
        | None => ret (-1)
        | Some (name, parent) =>
            let* x := e4_dir_lookup parent name in
            match x with
            | Some existing =>
                let* ex := stack_inode in
                let* (rc, ex) := e4_read_inode existing ex in
                if truthy rc then ret (-1)
                else if e4_is_dir ex then ret (-1)
                else
                  let* (rc, _) := do_replace existing ex data len in
                  if truthy rc then ret (-1) else sync_super ;; ret 0
            | None => create_file parent name data len
            end
        end
  end.

(** ** Unlink and the rest *)

Definition ext4_unlink (path : option (list Z)) : M W Z :=
  let* e := gets e4 in
  match dev e with
  | None => ret (-1)
  | Some _ =>
      let* r := resolve_parent path in
      match r with
      | None => ret (-1)
      | Some (name, parent) =>
          let* x := e4_dir_lookup parent name in
          match x with
          | None => ret (-1)
          | Some victim =>
              if victim =? EXT4_ROOT_INO then ret (-1)
              else
                let* v := stack_inode in
                let* (rc, v) := e4_read_inode victim v in
                if truthy rc then ret (-1)
                else
                  let* busy := if e4_is_dir v
                               then let* em := e4_dir_empty victim in ret (negb em)
                               else ret false in
                  if busy : bool then ret (-1)
                  else
                    try e4_dir_remove_entry parent name else -1 in
                    let* _ := e4_truncate v 0 in
                    let* _ := e4_free_inode victim in
                    let* g := udiv (u32 (victim - 1)) (inodes_per_group e) in
                    let* _ := e4_sync_gd g in
                    sync_super ;; ret 0
          end
      end
  end.

Definition ext4_size (path : option (list Z)) : M W Z :=
  let* e := gets e4 in
  match dev e with
  | None => ret 0
  | Some _ =>
      let* r := resolve_full path in
      match r with
      | None => ret 0
      | Some ino =>
          let* inode := stack_inode in
          let* (rc, inode) := e4_read_inode ino inode in
          if truthy rc then ret 0 else ret (e4_inode_size e inode)
      end
  end.

(** [struct ext4_dirent_info]: name (with its NUL), type, inode. *)
Record dirent_info := DirentInfo { di_name : list Z; di_type : Z; di_inode : Z }.

Definition list_cb (max : Z) : dir_cb (list dirent_info) := λ nm ino type out,
  if max <=? zlen out then Some (1, out)
  else
    l ← k_strlen nm;
    Some (0, out ++ [DirentInfo (take (Z.to_nat (l + 1)) nm) type ino]).

(** Number of entries or -1, and the entries filled in. *)
Definition ext4_listdir (path : option (list Z)) (max : Z) : M W (Z * list dirent_info) :=
  let* e := gets e4 in
  match dev e with
  | None => ret (-1, [])
  | Some _ =>
      if max <=? 0 then ret (-1, [])
      else
        let* r := resolve_full path in
        match r with
        | None => ret (-1, [])
        | Some d =>
            let* (rc, out) := e4_iterate_dir d (list_cb max) [] in
            ret (if truthy rc then -1 else zlen out, out)
        end
  end.

Definition ext4_free_blocks (e : ext4_fs) : Z := fst (e4_count_free e).
Definition ext4_free_inodes (e : ext4_fs) : Z := snd (e4_count_free e).
End mount.

(** ** Reading back what was written *)

Section file_proofs.
Context {D H : Type} `{Allocator H}.
Context (dv : blk_device D) (ok : D → Prop) (sector : D → Z → list Z)
  `{!SectorDevice dv ok sector}.
Context (al_inv : H → list Z → Prop) `{!AllocatorLaws H al_inv}.
#[local] Abbreviation W := (world D H).
#[local] Abbreviation mounted := (mounted dv ok).
#[local] Abbreviation disk := (disk sector).

(** The first [n] blocks of the file [inode] hold the blocks of [data]. *)
Definition file_holds (w : W) (inode data : list Z) (n : Z) : Prop :=
  ∀ i, 0 ≤ i < n → ∃ b, (∀ w' : W, e4_bmap inode i w' = Some (Some b, w')) ∧ b ≠ 0 ∧
    0 ≤ b < blocks_count (e4 w) ∧
    slice data (i * block_size (e4 w)) (block_size (e4 w)) = Some (disk w b).

Lemma file_holds_read w w' inode data n :
  only_read dv ok sector w w' → file_holds w inode data n → file_holds w' inode data n.
Proof.
  intros ((He & _) & _ & Hd) Hf i Hi. destruct (Hf i Hi) as (b & ? & ? & ? & ?).
  exists b. rewrite He, Hd by lia. done.
Qed.

(** The bytes [lo], ..., [hi - 1] of [out] come from [data], the others from
    [old]. *)
Definition filled (old data out : list Z) (lo hi : Z) : Prop :=
  zlen out = zlen old ∧
  ∀ j, 0 ≤ j → out !! Z.to_nat j =
    if decide (lo ≤ j < hi) then data !! Z.to_nat j else old !! Z.to_nat j.

Lemma read_loop_wp inode data n want out0 fuel : ∀ (w : W) dn out,
  mounted w → file_holds w inode data n → 0 ≤ dn ≤ want → want ≤ n * block_size (e4 w) →
  want ≤ zlen out0 → filled out0 data out 0 dn → want - dn < Z.of_nat fuel →
  wp (read_loop fuel inode want dn out) (λ r w', fst r = want ∧
    filled out0 data (snd r) 0 want ∧ only_read dv ok sector w w') w.
Proof.
  induction fuel as [|fuel IH]; intros w dn out Hm Hf Hdn Hn Hw Hfill Hfuel; [lia|].
  cbn [read_loop]. destruct (Z.ltb_spec dn want) as [Hlt|Hge]; cbn [negb].
  2: { apply wp_ret. assert (dn = want) as -> by lia. split; [done|]. split; [done|].
       split; [apply same_fs_refl|done]. }
  assert (Hbs : 0 < block_size (e4 w)) by (destruct Hm; lia).
  wp_pure. apply wp_bind, wp_udiv; [lia|]. apply wp_bind, wp_umod; [lia|]. wp_pure.
  pose proof (Z.div_mod dn (block_size (e4 w)) ltac:(lia)) as Hdm.
  pose proof (Z.mod_pos_bound dn (block_size (e4 w)) Hbs) as Hmb.
  set (lb := dn / block_size (e4 w)) in *. set (boff := dn mod block_size (e4 w)) in *.
  destruct (Hf lb) as (b & Hbmap & Hb0 & Hbr & Hsl).
  { split; [apply Z.div_pos; lia|]. apply Z.div_lt_upper_bound; lia. }
  apply wp_bind. exists (Some b), w. split; [apply Hbmap|].
  rewrite (proj2 (Z.eqb_neq b 0)) by done.
  destruct (read_into_spec dv ok sector S1 b w) as (w1 & Hr & Hs1 & Hm1 & Hb1 & _ & Hd1); [done|done|].
  apply wp_bind. exists 0, w1. split; [done|]. change (truthy 0) with false. cbv iota.
  set (chunk := Z.min (block_size (e4 w) - boff) (want - dn)).
  destruct (slice_is_Some (disk w b) boff chunk) as [l Hl]; [lia|lia| |].
  { rewrite (disk_zlen dv ok sector) by done. lia. }
  pose proof (slice_zlen _ _ _ _ Hl) as Hll.
  apply wp_bind. exists l, w1. split; [by eapply buf_slice_eq|]. pose proof Hfill as [Hlo Hfl].
  destruct (splice_is_Some out dn l) as [out' Ho]; [lia|lia|].
  apply wp_bind. eapply wp_lift; [exact Ho|].
  assert (Hor1 : only_read dv ok sector w w1) by done. pose proof Hs1 as (He1 & _).
  eapply wp_mono; [apply (IH w1); [done|by eapply file_holds_read|lia|by rewrite He1|done| |lia]|].
  - split; [by rewrite (splice_zlen _ _ _ _ Ho)|]. intros j Hj.
    rewrite (lookup_splice_Z _ _ _ _ _ Ho) by done. rewrite Hll.
    case_decide as Hin; [rewrite decide_True by lia|rewrite Hfl by done; repeat case_decide; (lia || done)].
    rewrite (lookup_slice _ _ _ _ _ Hl) by lia.
    pose proof (lookup_slice _ _ _ _ (boff + (j - dn)) Hsl ltac:(lia)) as Hx. rewrite Hx. f_equal. lia.
  - intros [rc o] w' (Hrc & Hfi & Hs' & Hm' & Hd'). split; [done|]. split; [done|].
    split; [by eapply same_fs_trans|]. split; [done|]. intros k Hk. by rewrite Hd', Hd1.
Qed.

(** Appending to an empty file and reading it back. *)
Lemma file_roundtrip_run (w : W) inode ino count data len out L :
  alloc_inv dv ok sector w → al_inv (hp w) L → ¬ free sector w 0 →
  0 < count ≤ 32767 → count * block_size (e4 w) ≤ zlen data → bytes_ok data → zlen inode = 256 →
  has (fget 4 inode in_flags) INO_FLAG_EXTENTS = true →
  0 ≤ len ≤ count * block_size (e4 w) → len ≤ zlen out →
  ∃ p h, al_kzalloc (16 * (count + 1)) (hp w) = Some (p, h) ∧
    match p, plan (e4 w) (in_use sector w) 0 (Z.to_nat count) with
    | Some _, Some blks =>
        ∃ runs w1, append_loop (Z.to_nat count) 0 0 (Some data) [] (set_hp h w) = Some (Some runs, w1) ∧
          appended dv ok sector (set_hp h w) w1 0 data runs blks ∧ zlen blks = count ∧
          (fragments blks ≤ ROOT_MAX_ENTRIES →
            ∃ inode' h' w'' out',
              e4_append_blocks inode ino 0 count (Some data) w = Some ((0, inode'), set_hp h' w1) ∧
              read_loop (S (Z.to_nat len)) inode' len 0 out (set_hp h' w1) = Some ((len, out'), w'') ∧
              filled out data out' 0 len)
    | _, _ => ∃ w', e4_append_blocks inode ino 0 count (Some data) w = Some ((-1, inode), w')
    end.
Proof.
  intros Hi Hal Hf0 Hc Hd Hby Hlen Hfl Hl Hout.
  destruct (append_blocks_run dv ok sector al_inv w inode ino count data L) as (p & h & Hz & Hr); [done..|].
  exists p, h. split; [done|]. destruct p as [p|]; [|destruct Hr as (w' & ? & _); eauto].
  destruct (plan _ _ _ _) as [blks|]; [|destruct Hr as (w' & ? & _); eauto].
  destruct Hr as (runs & w1 & Hloop & Hap & Hbl & Hrun). exists runs, w1.
  split; [done|]. split; [done|]. split; [done|]. intros Hn.
  rewrite <- (ap_frag _ _ _ _ _ _ _ _ _ Hap) in Hn.
  destruct (Hrun Hn) as (inode' & h' & Ha & Hmaps & _ & Hflags & _).
  pose proof (ap_quiet _ _ _ _ _ _ _ _ _ Hap) as (Hg & _).
  pose proof (geom_same_fields _ _ Hg) as (Hbs&_&_&_&Hbc&_). cbn [e4 set_hp] in Hbs, Hbc.
  destruct (read_loop_wp inode' data count len out (S (Z.to_nat len)) (set_hp h' w1) 0 out)
    as ([rc out'] & w'' & Hr & Hrc & Hfill & _).
  - apply (alloc_inv_hp dv ok sector w1 h'), Hap.
  - intros i Hir. destruct (lookup_lt_is_Some_2 blks (Z.to_nat i)) as [b Hb]; [unfold zlen in Hbl; lia|].
    destruct (ap_data _ _ _ _ _ _ _ _ _ Hap _ _ Hb) as (Hsl & Hfb & _ & Hbr).
    pose proof (ap_map _ _ _ _ _ _ _ _ _ Hap _ _ Hb) as Hm. cbn [e4 set_hp] in *.
    rewrite Z2Nat.id in * by lia. exists b. rewrite Hbs, Hbc. split_and!; [|by intros ->|lia|lia|done].
    intros w2. unfold e4_bmap. rewrite Hflags, Hfl. rewrite Hmaps by lia. by rewrite <- Hm.
  - lia.
  - cbn [e4 set_hp]. rewrite Hbs. lia.
  - done.
  - split; [done|]. intros j Hj. by rewrite decide_False by lia.
  - lia.
  - simpl in Hrc, Hfill. subst rc. by exists inode', h', w'', out'.
Qed.

(** C2: writing a file and reading it back. From a state that satisfies the
    allocator's invariant, [e4_append_blocks] to an empty file returns -1 only
    when the heap has no room for the list of runs or the disk has fewer free
    blocks than the data needs ([Ext4Alloc.plan_enough]). Otherwise its loop
    writes block [i] of the data to the [i]-th block of the plan, the free blocks
    in the order of the allocator's search, and touches nothing that was in use
    but bitmaps and descriptors; and when these blocks form at most four runs of
    consecutive blocks, [e4_append_blocks] returns 0 with the disk as the loop
    left it, and the read loop of [ext4_read] on the inode it leaves returns
    exactly the bytes written. *)
Theorem file_write_read_roundtrip (w : W) inode ino count data len out L :
  alloc_inv dv ok sector w → al_inv (hp w) L → ¬ free sector w 0 →
  0 < count ≤ 32767 → count * block_size (e4 w) ≤ zlen data → bytes_ok data → zlen inode = 256 →
  has (fget 4 inode in_flags) INO_FLAG_EXTENTS = true →
  0 ≤ len ≤ count * block_size (e4 w) → len ≤ zlen out →
  ∃ p h, al_kzalloc (16 * (count + 1)) (hp w) = Some (p, h) ∧
    match p, plan (e4 w) (in_use sector w) 0 (Z.to_nat count) with
    | Some _, Some blks =>
        ∃ runs w1, append_loop (Z.to_nat count) 0 0 (Some data) [] (set_hp h w) = Some (Some runs, w1) ∧
          appended dv ok sector (set_hp h w) w1 0 data runs blks ∧ zlen blks = count ∧
          (fragments blks ≤ ROOT_MAX_ENTRIES →
            ∃ inode' h' w'' out',
              e4_append_blocks inode ino 0 count (Some data) w = Some ((0, inode'), set_hp h' w1) ∧
              read_loop (S (Z.to_nat len)) inode' len 0 out (set_hp h' w1) = Some ((len, out'), w'') ∧
              filled out data out' 0 len)
    | _, _ => ∃ w', e4_append_blocks inode ino 0 count (Some data) w = Some ((-1, inode), w')
    end.
Proof. apply file_roundtrip_run. Qed.
End file_proofs.

(** ** Concrete runs *)

(** The small file system with its metadata (blocks 1 to 10) marked used. *)
Definition demo_img : list Z := zeros 3072 ++ [0xFF; 0x03] ++ zeros 13310.
Definition demo : world (list Z) bump := demo_world demo_img.

Lemma demo_group g : 0 ≤ g < group_count demo_e4 → g = 0.
Proof. simpl. lia. Qed.

(** Statements about all blocks of the file system are decided by running
    through them. *)
Lemma demo_blocks (P : Z → bool) :
  forallb P (seqZ 0 15) = true → ∀ g idx, block_in demo_e4 g idx → g = 0 ∧ P idx = true.
Proof.
  intros Hall g idx [Hg Hi]. apply demo_group in Hg as ->. split; [done|].
  rewrite forallb_forall in Hall. apply Hall, list_elem_of_In, elem_of_seqZ.
  change (group_bits demo_e4 0) with 15 in Hi. lia.
Qed.

Lemma demo_alloc_inv : alloc_inv (ram_disk 32) (ram_ok 32) ram_sector demo.
Proof.
  split; [apply demo_mounted; [done|by apply bytes_dec]|done|exact demo_geom| |].
  - intros g g' Hg%demo_group Hg'%demo_group. subst. split; [done|]. vm_compute. discriminate.
  - intros k (g & idx & Hb & -> & Hu) (g' & Hg'%demo_group & Hk). subst g'.
    assert (Hall : forallb (λ i, in_use ram_sector demo 0 i ||
      (negb (blk_of demo_e4 0 i =? bitmap_of demo_e4 0) &&
       negb (blk_of demo_e4 0 i =? gdt_block_of demo_e4 0))) (seqZ 0 15) = true)
      by (vm_compute; reflexivity).
    destruct (demo_blocks _ Hall g idx Hb) as [-> Hi]. rewrite Hu in Hi. bool_prop.
    change (e4 demo) with demo_e4 in Hk. destruct Hk; lia.
Qed.

(** Two blocks on the small file system: they go to blocks 11 and 12 and are read
    back. *)
Lemma file_write_read_roundtrip_witness :
  let inode := fset 4 in_flags INO_FLAG_EXTENTS (zeros 256) in
  let data := replicate 2048 42 in
  ∃ inode' w' w'' out',
    e4_append_blocks inode 12 0 2 (Some data) demo = Some ((0, inode'), w') ∧
    disk ram_sector w' 11 = replicate 1024 42 ∧ disk ram_sector w' 12 = replicate 1024 42 ∧
    read_loop (S (Z.to_nat 1500)) inode' 1500 0 (zeros 4000) w' = Some ((1500, out'), w'') ∧
    filled (zeros 4000) data out' 0 1500.
Proof.
  destruct (file_write_read_roundtrip (ram_disk 32) (ram_ok 32) ram_sector bump_inv demo
    (fset 4 in_flags INO_FLAG_EXTENTS (zeros 256)) 12 2 (replicate 2048 42) 1500 (zeros 4000) [])
    as (p & h & Hp & Hr).
  - exact demo_alloc_inv.
  - unfold bump_inv. simpl. split_and!; [lia|constructor|done|constructor].
  - intros (g & idx & Hb & Heq & _).
    assert (Hall : forallb (λ i, negb (blk_of demo_e4 0 i =? 0)) (seqZ 0 15) = true) by reflexivity.
    destruct (demo_blocks _ Hall g idx Hb) as [-> Hi]. bool_prop. by apply Hi.
  - lia.
  - vm_compute. discriminate.
  - by apply bytes_dec.
  - reflexivity.
  - reflexivity.
  - simpl. lia.
  - rewrite zeros_zlen; lia.
  - injection Hp as <- <-.
    assert (Hplan : plan (e4 demo) (in_use ram_sector demo) 0 (Z.to_nat 2) = Some [11; 12]) by (vm_compute; reflexivity).
    rewrite Hplan in Hr. destruct Hr as (runs & w1 & _ & Hap & _ & Hr).
    destruct Hr as (i' & h' & w'' & out' & Ha & Hrd & Hf); [done|].
    destruct (ap_data _ _ _ _ _ _ _ _ _ Hap 0%nat 11 eq_refl) as [H11 _].
    destruct (ap_data _ _ _ _ _ _ _ _ _ Hap 1%nat 12 eq_refl) as [H12 _].
    exists i', (set_hp h' w1), w'', out'. split; [exact Ha|]. split; [by injection H11|]. split; [by injection H12|].
    split; [exact Hrd|exact Hf].
Defined.

(** The run: the two blocks are written to disk blocks 11 and 12 and read
    back through the inode. *)
Example demo_roundtrip :
  fst <$> (let* (rc, i') := e4_append_blocks (fset 4 in_flags INO_FLAG_EXTENTS (zeros 256))
                              12 0 2 (Some (replicate 2048 42)) in
           let* b := extent_lookup i' 1 in
           let* (n, out) := read_loop 1501 i' 1500 0 (zeros 2000) in
           ret (rc, b, n, out)) demo =
  Some (0, Some 12, 1500, replicate 1500 42 ++ zeros 500).
Proof. vm_compute. reflexivity. Qed.

(** ** Mounting *)

Section mount_proofs.
Context {D H : Type} `{Allocator H}.
#[local] Abbreviation W := (world D H).

(** [m] leaves [e4.dev] NULL. *)
Definition keeps_unmounted {A} (m : M W A) : Prop :=
  ∀ w, dev (e4 w) = None → wlp m (λ _ w', e4 w' = e4 w) w.

Lemma heap_call_unmounted {A} (m : M H A) : keeps_unmounted (heap_call m).
Proof. intros w Hd a w' E. unfold heap_call in E. destruct (m (hp w)) as [[? ?]|]; [|done]. by injection E as <- <-. Qed.

(** Without a device no block is read. *)
Lemma read_into_unmounted b blk (w : W) :
  dev (e4 w) = None → read_into b blk w = Some (-1, bufset b (bufget b w) w).
Proof. intros Hd. unfold read_into. mred. unfold bind, e4_read_block. by rewrite Hd. Qed.

Lemma buf_zero_unmounted b n (w : W) : wlp (buf_zero b n) (λ _ w', e4 w' = e4 w) w.
Proof.
  unfold buf_zero, buf_splice. wlp_pure. apply wlp_modify. by destruct b.
Qed.

Lemma init_scratch_unmounted bs : keeps_unmounted (e4_init_scratch bs).
Proof.
  intros w Hd. unfold e4_init_scratch. wlp_pure.
  eapply wlp_call; [by apply heap_call_unmounted|]. intros p1 w1 E1. wlp_pure.
  eapply wlp_call; [apply heap_call_unmounted; by rewrite <- Hd, <- E1|]. intros p2 w2 E2. wlp_pure.
  destruct p1; [destruct p2|]; try (apply wlp_ret; simpl in *; congruence).
  eapply wlp_call; [apply buf_zero_unmounted|]. intros ? w3 E3.
  eapply wlp_call; [apply buf_zero_unmounted|]. intros ? w4 E4. apply wlp_ret. simpl in *. congruence.
Qed.

(** The descriptor table cannot be loaded when [e4.dev] is NULL. *)
Lemma load_gdt_unmounted (w : W) :
  dev (e4 w) = None → 0 < group_count (e4 w) → wlp e4_load_gdt (λ rc _, rc = -1) w.
Proof.
  intros Hd Hgc. unfold e4_load_gdt. wlp_pure.
  eapply wlp_call; [by apply heap_call_unmounted|]. intros p w1 E1. wlp_pure.
  destruct p as [p|]; [|by apply wlp_ret]. wlp_pure.
  destruct (Z.to_nat (group_count (e4 w))) as [|n] eqn:En; [lia|]. cbn [for_].
  apply wlp_bind. apply wlp_bind. wlp_pure. apply wlp_bind.
  intros rc w2 E. rewrite read_into_unmounted in E by (cbn; rewrite E1; done). injection E as <- <-.
  change (truthy (-1)) with true. cbv iota. apply wlp_ret. apply wlp_ret. by apply wlp_ret.
Qed.

Lemma mount_fail_wlp (w : W) : wlp mount_fail (λ b w', b = false ∧ dev (e4 w') = None) w.
Proof. unfold mount_fail. wlp_pure. by apply wlp_ret. Qed.

Lemma mount_tables_unmounted (w : W) :
  dev (e4 w) = None → 0 < group_count (e4 w) →
  wlp mount_tables (λ b w', b = false ∧ dev (e4 w') = None) w.
Proof.
  intros Hd Hgc. unfold mount_tables. wlp_pure.
  eapply wlp_call; [by apply init_scratch_unmounted|]. intros rc w1 E1.
  destruct (truthy rc); [apply mount_fail_wlp|]. wlp_pure.
  eapply wlp_call; [apply heap_call_unmounted; by rewrite E1|]. intros p w2 E2. wlp_pure.
  apply (wlp_call _ _ (λ rc _, rc = -1)).
  - destruct p; [|by apply wlp_ret]. apply load_gdt_unmounted; cbn; rewrite E2, E1; done.
  - intros ? w3 ->. apply mount_fail_wlp.
Qed.

(** C38: [ext4_mount] never mounts. It leaves [e4.dev] NULL, so the first
    block read (of the descriptor table) fails: from the unmounted state
    every run of it that returns, returns false and stays unmounted, whatever
    is on the disk. *)
Theorem ext4_mount_never_mounts (w : W) b w' :
  dev (e4 w) = None → ext4_mount w = Some (b, w') → b = false ∧ dev (e4 w') = None.
Proof.
  intros Hd. revert b w'. change (wlp ext4_mount (λ b w', b = false ∧ dev (e4 w') = None) w).
  unfold ext4_mount. wlp_pure. rewrite Hd. wlp_pure. cbn [reg set_e4].
  destruct (blk_first (reg w)) as [dv|]; [|by apply wlp_ret].
  apply (wlp_call _ _ (λ _ w', e4 w' = e4_zero)).
  { unfold read_super. eapply wlp_call; [by apply heap_call_unmounted|]. intros p w1 E1.
    destruct p; [|by apply wlp_ret]. apply wlp_bind. intros [rc x] w2 E.
    destruct (blk_read _ _ _ _ _ _) as [[[? ?] ?]|]; [|done]. injection E as <- <- <-.
    eapply wlp_call; [by apply heap_call_unmounted; cbn; rewrite E1|]. intros ? w3 E3. apply wlp_ret.
    by rewrite E3; cbn; rewrite E1. }
  intros [s|] w1 E1; [|apply wlp_ret; by rewrite E1]. wlp_pure.
  case_if; [apply wlp_ret; cbn; by rewrite E1|]. do 3 (case_if; [apply mount_fail_wlp|]). wlp_pure.
  case_if; [apply mount_fail_wlp|]. wlp_pure. case_if; [apply mount_fail_wlp|].
  bool_prop. apply mount_tables_unmounted; [done|]. cbn [e4 set_e4 upd_group_count group_count].
  match goal with |- 0 < u32 ?x => pose proof (u32_range x) end. lia.
Qed.
End mount_proofs.

(** A well-formed superblock: 1024-byte blocks, one group, 32 inodes. *)
Definition demo_sb : list Z :=
  fset 2 sb_magic EXT4_MAGIC (fset 4 sb_inodes_count 32 (fset 4 sb_blocks_count_lo 16
    (fset 4 sb_first_data_block 1 (fset 4 sb_blocks_per_group 8192 (fset 4 sb_inodes_per_group 32
      (fset 2 sb_inode_size 256 (fset 4 sb_feature_incompat FEAT_INCOMPAT_EXTENTS (zeros 1024)))))))).
Definition unmounted_demo : world (list Z) bump :=
  set_e4 (const e4_zero) (demo_world (zeros 1024 ++ demo_sb ++ zeros 14336)).

Lemma ext4_mount_never_mounts_witness :
  ∃ w', ext4_mount unmounted_demo = Some (false, w') ∧ false = false ∧ dev (e4 w') = None.
Proof.
  destruct (ext4_mount unmounted_demo) as [[b w']|] eqn:E; [|by vm_compute in E].
  destruct (ext4_mount_never_mounts unmounted_demo b w' eq_refl E) as [-> Hd].
  exists w'. auto.
Defined.
