(* ===== verification/Net.v ===== *)
(** * net/stack.c: the network stack

    Ethernet, ARP (one cache slot), IPv4, ICMP echo, UDP and a
    single-connection TCP over a polled network card. The static variables
    of the file are the record [net]; the card is the class [Nic]
    (drivers/net/e1000.h). Packed structs are records with their byte image;
    a pointer into [rxbuf] is an offset, so that reads see what the buffer
    holds when they happen. kprintf/kputs of packets append to [log].

    [net_poll] calls the receive handlers, which send, which resolves
    addresses, which polls again: the functions take the poll to call, and
    [net_poll] closes the knot with fuel that decreases with every frame
    taken from the card; running out of fuel is [None]. *)
From S2P Require Import Prelude.
Open Scope c_scope.

Definition ETHERTYPE_ARP : Z := 2054.
Definition ETHERTYPE_IPV4 : Z := 2048.
Definition PROTO_ICMP : Z := 1.
Definition PROTO_TCP : Z := 6.
Definition PROTO_UDP : Z := 17.
Definition TCP_FIN : Z := 1.
Definition TCP_SYN : Z := 2.
Definition TCP_RST : Z := 4.
Definition TCP_PSH : Z := 8.
Definition TCP_ACK : Z := 16.

(** ** Wire structs *)

Record eth_hdr := EthHdr { eth_dst : list Z; eth_src : list Z; eth_type : Z }.
Definition eth_bytes (e : eth_hdr) : list Z := eth_dst e ++ eth_src e ++ le_to 2 (eth_type e).
Definition get_eth (b : list Z) : option eth_hdr :=
  d ← slice b 0 6; s ← slice b 6 6; t ← ld16 b 12; Some (EthHdr d s t).

Record arp_pkt := ArpPkt {
  htype : Z; ptype : Z; arp_hlen : Z; arp_plen : Z; op : Z;
  sha : list Z; spa : Z; tha : list Z; tpa : Z;
}.
Definition arp_bytes (a : arp_pkt) : list Z :=
  le_to 2 (htype a) ++ le_to 2 (ptype a) ++ le_to 1 (arp_hlen a) ++ le_to 1 (arp_plen a) ++
  le_to 2 (op a) ++ sha a ++ le_to 4 (spa a) ++ tha a ++ le_to 4 (tpa a).
Definition get_arp (b : list Z) (o : Z) : option arp_pkt :=
  ht ← ld16 b o; pt ← ld16 b (o + 2); hl ← ld8 b (o + 4); pl ← ld8 b (o + 5);
  opc ← ld16 b (o + 6); sh ← slice b (o + 8) 6; sp ← ld32 b (o + 14);
  th ← slice b (o + 18) 6; tp ← ld32 b (o + 24);
  Some (ArpPkt ht pt hl pl opc sh sp th tp).

Record ipv4_hdr := Ipv4Hdr {
  ver_ihl : Z; tos : Z; ip_len : Z; ip_id : Z; frag : Z; ttl : Z; proto : Z; ip_csum : Z;
  ip_src : Z; ip_dst : Z;
}.
Definition ipv4_bytes (h : ipv4_hdr) : list Z :=
  le_to 1 (ver_ihl h) ++ le_to 1 (tos h) ++ le_to 2 (ip_len h) ++ le_to 2 (ip_id h) ++
  le_to 2 (frag h) ++ le_to 1 (ttl h) ++ le_to 1 (proto h) ++ le_to 2 (ip_csum h) ++
  le_to 4 (ip_src h) ++ le_to 4 (ip_dst h).
Definition get_ipv4 (b : list Z) (o : Z) : option ipv4_hdr :=
  v ← ld8 b o; t ← ld8 b (o + 1); l ← ld16 b (o + 2); i ← ld16 b (o + 4); f ← ld16 b (o + 6);
  tl ← ld8 b (o + 8); p ← ld8 b (o + 9); c ← ld16 b (o + 10);
  s ← ld32 b (o + 12); d ← ld32 b (o + 16);
  Some (Ipv4Hdr v t l i f tl p c s d).

Record udp_hdr := UdpHdr { u_sport : Z; u_dport : Z; u_len : Z; u_csum : Z }.
Definition udp_bytes (u : udp_hdr) : list Z :=
  le_to 2 (u_sport u) ++ le_to 2 (u_dport u) ++ le_to 2 (u_len u) ++ le_to 2 (u_csum u).
Definition get_udp (b : list Z) (o : Z) : option udp_hdr :=
  s ← ld16 b o; d ← ld16 b (o + 2); l ← ld16 b (o + 4); c ← ld16 b (o + 6);
  Some (UdpHdr s d l c).

Record tcp_hdr := TcpHdr {
  t_sport : Z; t_dport : Z; t_seq : Z; t_ack : Z; off_res : Z; t_flags : Z;
  t_win : Z; t_csum : Z; t_urg : Z;
}.
Definition tcp_bytes (t : tcp_hdr) : list Z :=
  le_to 2 (t_sport t) ++ le_to 2 (t_dport t) ++ le_to 4 (t_seq t) ++ le_to 4 (t_ack t) ++
  le_to 1 (off_res t) ++ le_to 1 (t_flags t) ++ le_to 2 (t_win t) ++ le_to 2 (t_csum t) ++
  le_to 2 (t_urg t).
Definition get_tcp (b : list Z) (o : Z) : option tcp_hdr :=
  s ← ld16 b o; d ← ld16 b (o + 2); q ← ld32 b (o + 4); a ← ld32 b (o + 8);
  r ← ld8 b (o + 12); f ← ld8 b (o + 13); w ← ld16 b (o + 14); c ← ld16 b (o + 16);
  u ← ld16 b (o + 18); Some (TcpHdr s d q a r f w c u).

(** The byte swaps the code writes out. *)
Definition swap16 (x : Z) : Z := u16 (Z.lor (Z.shiftl (Z.land x 255) 8) (Z.shiftr x 8)).
Definition swap32 (x : Z) : Z :=
  u32 (Z.lor (Z.lor (Z.lor (Z.shiftl (Z.land x 255) 24) (Z.shiftl (Z.land x 65280) 8))
                    (Z.land (Z.shiftr x 8) 65280)) (Z.land (Z.shiftr x 24) 255)).

(** ** Checksum *)

(** [for (i = 0; i + 1 < len; i += 2) sum += p[i] << 8 | p[i + 1]]. *)
Fixpoint sum_pairs (sum : Z) (l : list Z) : Z :=
  match l with
  | a :: b :: r => sum_pairs (u32 (sum + Z.lor (Z.shiftl a 8) b)) r
  | _ => sum
  end.

(** [while (sum >> 16)]; [None] when the fuel runs out. *)
Fixpoint csum_fold (fuel : nat) (sum : Z) : option Z :=
  if Z.shiftr sum 16 =? 0 then Some sum
  else match fuel with
       | O => None
       | S f => csum_fold f (Z.land sum 65535 + Z.shiftr sum 16)
       end.

(** The buffers are given at the lengths [len] and [plen]. *)
Definition inet_csum (data pseudo : list Z) : option Z :=
  let sum := sum_pairs (sum_pairs 0 pseudo) data in
  let sum := if truthy (Z.land (zlen data) 1)
             then u32 (sum + Z.shiftl (default 0 (data !! Z.to_nat (zlen data - 1))) 8) else sum in
  sum ← csum_fold 3 sum;
  Some (u16 (Z.land (Z.lnot sum) 65535)).

(** ** State *)

Inductive tcp_state := TCP_CLOSED | TCP_SYN_SENT | TCP_ESTABLISHED | TCP_FIN_WAIT.
#[export] Instance tcp_state_eq_dec : EqDecision tcp_state.
Proof. solve_decision. Defined.

(** What the handlers print. *)
Inductive event :=
  | UdpBytes (n src sport : Z)
  | TcpBytes (n : Z)
  | TcpEstablished
  | TcpClosedByPeer.

(** drivers/net/e1000.h. [e1000_poll max_len] returns the result and the
    bytes it stored to the buffer. *)
Class Nic (N : Type) := {
  e1000_present : N → bool;
  e1000_send : list Z → M N Z;
  e1000_poll : Z → M N (Z * list Z);
}.

Section net.
Context {N : Type} `{Nic N}.

Record net := Net {
  local_mac : list Z;
  local_ip : Z;
  gateway_ip : Z;
  arp_tha : list Z;
  arp_spa : Z;
  tcp_st : tcp_state;
  rseq : Z;
  lseq : Z;
  rport_want : Z;
  lport : Z;
  rxbuf : list Z;
  log : list event;
  nic : N;
}.

(** The static initialisers. *)
Definition net0 (n : N) : net :=
  Net (zeros 6) 251658762 33554954 (zeros 6) 0 TCP_CLOSED 0 0 0 40000 (zeros 2048) [] n.

Definition set_mac m s := Net m (local_ip s) (gateway_ip s) (arp_tha s) (arp_spa s) (tcp_st s)
  (rseq s) (lseq s) (rport_want s) (lport s) (rxbuf s) (log s) (nic s).
Definition set_ips i g s := Net (local_mac s) i g (arp_tha s) (arp_spa s) (tcp_st s)
  (rseq s) (lseq s) (rport_want s) (lport s) (rxbuf s) (log s) (nic s).
Definition set_arp h p s := Net (local_mac s) (local_ip s) (gateway_ip s) h p (tcp_st s)
  (rseq s) (lseq s) (rport_want s) (lport s) (rxbuf s) (log s) (nic s).
Definition set_st t s := Net (local_mac s) (local_ip s) (gateway_ip s) (arp_tha s) (arp_spa s) t
  (rseq s) (lseq s) (rport_want s) (lport s) (rxbuf s) (log s) (nic s).
Definition set_seq r l s := Net (local_mac s) (local_ip s) (gateway_ip s) (arp_tha s) (arp_spa s)
  (tcp_st s) r l (rport_want s) (lport s) (rxbuf s) (log s) (nic s).
Definition set_rport p s := Net (local_mac s) (local_ip s) (gateway_ip s) (arp_tha s) (arp_spa s)
  (tcp_st s) (rseq s) (lseq s) p (lport s) (rxbuf s) (log s) (nic s).
Definition set_rxbuf b s := Net (local_mac s) (local_ip s) (gateway_ip s) (arp_tha s) (arp_spa s)
  (tcp_st s) (rseq s) (lseq s) (rport_want s) (lport s) b (log s) (nic s).
Definition add_log e s := Net (local_mac s) (local_ip s) (gateway_ip s) (arp_tha s) (arp_spa s)
  (tcp_st s) (rseq s) (lseq s) (rport_want s) (lport s) (rxbuf s) (log s ++ [e]) (nic s).
Definition set_nic n s := Net (local_mac s) (local_ip s) (gateway_ip s) (arp_tha s) (arp_spa s)
  (tcp_st s) (rseq s) (lseq s) (rport_want s) (lport s) (rxbuf s) (log s) n.

Definition nic_call {A} (m : M N A) : M net A := λ s,
  match m (nic s) with Some (a, n) => Some (a, set_nic n s) | None => None end.

Definition net_stack_set_mac (mac : list Z) : M net unit :=
  let* m := lift (slice mac 0 6) in modify (set_mac m).
Definition net_stack_set_ip (ip gw : Z) : M net unit := modify (set_ips ip gw).
Definition net_ip_addr : M net Z := gets local_ip.
Definition net_mac_addr : M net (list Z) := gets local_mac.

(** ** Ethernet transmit *)

Definition eth_send (ethertype : Z) (dst payload : list Z) : M net bool :=
  if 1600 - 14 <? zlen payload then ret false
  else
    let* mac := gets local_mac in
    let frame := eth_bytes (EthHdr dst mac (swap16 ethertype)) ++ payload in
    let* rc := nic_call (e1000_send frame) in
    ret (rc =? 0).

(** ** Address resolution *)

Definition arp_rx (a : arp_pkt) : M net unit :=
  if op a =? 1 then
    let* s := get in
    let reply := ArpPkt (htype a) (ptype a) 6 4 2 (local_mac s) (local_ip s) (sha a) (spa a) in
    let* _ := eth_send ETHERTYPE_ARP (sha a) (arp_bytes reply) in
    ret tt
  else if op a =? 2 then modify (set_arp (sha a) (spa a))
  else ret tt.

Definition bcast : list Z := replicate 6 255.

(** The request, and the polls until the cache slot is filled. *)
Definition arp_request (s : net) (ip : Z) : arp_pkt :=
  ArpPkt 256 8 6 4 1 (local_mac s) (local_ip s) (zeros 6) ip.

Definition spin_until (n : nat) (stop : net → bool) (poll : M net unit) : M net unit :=
  let* _ := for_ (R := unit) 0 n (λ _,
    let* s := get in
    if stop s then ret (Some tt) else poll;; ret None) in
  ret tt.

Definition arp_resolve (poll : M net unit) (ip : Z) : M net (option (list Z)) :=
  let* s := get in
  if arp_spa s =? ip then ret (Some (arp_tha s))
  else
    modify (λ s, set_arp (arp_tha s) 0 s);;
    let* _ := eth_send ETHERTYPE_ARP bcast (arp_bytes (arp_request s ip)) in
    spin_until (Z.to_nat 200000) (λ s, truthy (arp_spa s)) poll;;
    let* s := get in
    ret (if arp_spa s =? ip then Some (arp_tha s) else None).

(** ** IPv4 transmit *)

Definition next_hop (s : net) (dst : Z) : Z :=
  if Z.land dst 4294967232 =? Z.land (local_ip s) 4294967232 then dst else gateway_ip s.

Definition ip_header (s : net) (dst prot seg_len : Z) : ipv4_hdr :=
  Ipv4Hdr 69 0
    (u16 (Z.lor (u16 (Z.shiftl (Z.land (seg_len + 20) 255) 8)) (Z.land (Z.shiftr (seg_len + 20) 8) 255)))
    0 0 64 prot 0 (swap32 (local_ip s)) (swap32 dst).
Definition with_csum (c : Z) (h : ipv4_hdr) : ipv4_hdr :=
  Ipv4Hdr (ver_ihl h) (tos h) (ip_len h) (ip_id h) (frag h) (ttl h) (proto h) c (ip_src h) (ip_dst h).

Definition ipv4_send (poll : M net unit) (dst prot : Z) (seg : list Z) : M net bool :=
  let* s := get in
  let* mac := arp_resolve poll (next_hop s dst) in
  match mac with
  | None => ret false
  | Some gw_mac =>
      if 1480 <? zlen seg then ret false
      else
        let* s := get in
        let ip := ip_header s dst prot (zlen seg) in
        let* c := lift (inet_csum (ipv4_bytes ip) []) in
        eth_send ETHERTYPE_IPV4 gw_mac (ipv4_bytes (with_csum c ip) ++ seg)
  end.

(** ** ICMP *)

(** [body] is the offset [off] in [rxbuf]. The copy of the header [rip] and
    the buffer [full] of the code are never used: left out. *)
Definition icmp_rx (poll : M net unit) (off len src : Z) : M net unit :=
  if len <? 8 then ret tt
  else
    let* buf := gets rxbuf in
    let* type := lift (ld8 buf off) in
    if negb (type =? 8) then ret tt
    else
      let* body := lift (slice buf off len) in
      (* [u8 reply[1500]; memcpy(reply, body, len)] *)
      if 1500 <? len then fault
      else
        let* reply := lift (splice body 0 [0]) in
        let* reply := lift (splice reply 2 [0; 0]) in
        let* c := lift (inet_csum reply []) in
        let* reply := lift (splice reply 2 [u8 (Z.shiftr c 8); u8 c]) in
        let* _ := ipv4_send poll src PROTO_ICMP reply in
        ret tt.

(** ** UDP *)

Definition udp_rx (off len src : Z) : M net unit :=
  if len <? 8 then ret tt
  else
    let* buf := gets rxbuf in
    let* uh := lift (get_udp buf off) in
    let sport := swap16 (u_sport uh) in
    modify (add_log (UdpBytes (len - 8) src sport)).

Definition udp_send (poll : M net unit) (dst dport sport : Z) (data : list Z) : M net Z :=
  let len := zlen data in
  if 1400 <? len then ret (-1)
  else
    let uh := UdpHdr (swap16 sport) (swap16 dport)
                (u16 (Z.lor (Z.shiftl (Z.land (len + 8) 255) 8) (Z.land (Z.shiftr (len + 8) 8) 255))) 0 in
    let* ok := ipv4_send poll dst PROTO_UDP (udp_bytes uh ++ data) in
    ret (if ok then 0 else -1).

(** ** TCP *)

(** The pseudo header; [payload] only enters through its length. *)
Definition pseudo_bytes (s : net) (peer plen : Z) : list Z :=
  le_to 4 (swap32 (local_ip s)) ++ le_to 4 peer ++ le_to 1 0 ++ le_to 1 PROTO_TCP ++
  le_to 2 (u16 (Z.lor (u16 (Z.shiftl (Z.land (20 + plen) 255) 8)) (Z.land (Z.shiftr (20 + plen) 8) 255))).

Definition tcp_checksum (s : net) (peer : Z) (t : tcp_hdr) (plen : Z) : option Z :=
  inet_csum (tcp_bytes t) (pseudo_bytes s peer plen).

(** [memset(&t, 0, sizeof(t))] and the fields every segment sets; the
    window is [((4096 & 0xFF) << 8) | 0x00], 0. *)
Definition segment (sport dport seq ack flags : Z) : tcp_hdr :=
  TcpHdr sport dport seq ack 80 flags (Z.lor (Z.shiftl (Z.land 4096 255) 8) 0) 0 0.
Definition with_tcsum (c : Z) (t : tcp_hdr) : tcp_hdr :=
  TcpHdr (t_sport t) (t_dport t) (t_seq t) (t_ack t) (off_res t) (t_flags t) (t_win t) c (t_urg t).

Definition tcp_connect (poll : M net unit) (ip port : Z) : M net Z :=
  let* s := get in
  if negb (bool_decide (tcp_st s = TCP_CLOSED)) || negb (e1000_present (nic s)) then ret (-1)
  else
    modify (set_rport port);;
    modify (set_seq 0 1000);;
    let* s := get in
    let t := segment (swap16 (lport s)) (swap16 port) (lseq s) 0 TCP_SYN in
    let* c := lift (tcp_checksum s (swap32 ip) t 0) in
    modify (set_st TCP_SYN_SENT);;
    let* ok := ipv4_send poll ip PROTO_TCP (tcp_bytes (with_tcsum c t)) in
    if negb ok then ret (-1)
    else
      spin_until (Z.to_nat 500000) (λ s, negb (bool_decide (tcp_st s = TCP_SYN_SENT))) poll;;
      let* s := get in
      ret (if bool_decide (tcp_st s = TCP_ESTABLISHED) then 0 else -1).

Definition tcp_send (poll : M net unit) (ip : Z) (data : list Z) : M net Z :=
  let* s := get in
  if negb (bool_decide (tcp_st s = TCP_ESTABLISHED)) then ret (-1)
  else if 1400 <? zlen data then ret (-1)
  else
    let t := segment (swap16 (lport s)) (swap16 (rport_want s)) (lseq s) (rseq s)
               (Z.lor TCP_ACK TCP_PSH) in
    let* c := lift (tcp_checksum s (swap32 ip) t (zlen data)) in
    modify (set_seq (rseq s) (u32 (lseq s + zlen data)));;
    let* ok := ipv4_send poll ip PROTO_TCP (tcp_bytes (with_tcsum c t) ++ data) in
    ret (if ok then 0 else -1).

(** [tcp_close] does not set the window: it is 0 too. *)
Definition tcp_close (poll : M net unit) (ip : Z) : M net Z :=
  let* s := get in
  if negb (bool_decide (tcp_st s = TCP_ESTABLISHED)) then ret (-1)
  else
    let t := segment (swap16 (lport s)) (swap16 (rport_want s)) (lseq s) (rseq s)
               (Z.lor TCP_FIN TCP_ACK) in
    let* c := lift (tcp_checksum s (swap32 ip) t 0) in
    let* _ := ipv4_send poll ip PROTO_TCP (tcp_bytes (with_tcsum c t)) in
    modify (set_st TCP_CLOSED);;
    ret 0.

(** The answer to a SYN while one is wanted. *)
Definition tcp_rx_syn (poll : M net unit) (t : tcp_hdr) (src seq ackn : Z) (ip : ipv4_hdr) : M net unit :=
  modify (set_seq (u32 (seq + 1)) ackn);;
  let* s := get in
  let r := segment (t_dport t) (t_sport t) (lseq s) (rseq s) TCP_ACK in
  let* c := lift (tcp_checksum s (ip_src ip) r 0) in
  let* _ := ipv4_send poll src PROTO_TCP (tcp_bytes (with_tcsum c r)) in
  modify (set_st TCP_ESTABLISHED);;
  modify (add_log TcpEstablished).

Definition tcp_rx (poll : M net unit) (off len src : Z) (ip : ipv4_hdr) : M net unit :=
  if len <? 20 then ret tt
  else
    let* buf := gets rxbuf in
    let* t := lift (get_tcp buf off) in
    let flags := t_flags t in
    let seq := swap32 (t_seq t) in
    let ackn := swap32 (t_ack t) in
    let* s := get in
    if bool_decide (tcp_st s = TCP_SYN_SENT) && has flags TCP_SYN
    then tcp_rx_syn poll t src seq ackn ip
    else if has flags TCP_RST then modify (set_st TCP_CLOSED)
    else
      (if has flags TCP_ACK then modify (λ s, set_seq seq (lseq s) s) else ret tt);;
      let doff := Z.shiftr (off_res t) 4 * 4 in
      (if doff <? len then modify (add_log (TcpBytes (len - doff))) else ret tt);;
      if has flags TCP_FIN then
        let* _ := tcp_close poll src in
        modify (add_log TcpClosedByPeer)
      else ret tt.

(** ** Ingress *)

(** [pkt] is the offset 14 in [rxbuf]. *)
Definition ipv4_rx (poll : M net unit) (len : Z) : M net unit :=
  if len <? 20 then ret tt
  else
    let* buf := gets rxbuf in
    let* ip := lift (get_ipv4 buf 14) in
    if negb (Z.shiftr (ver_ihl ip) 4 =? 4) then ret tt
    else
      let hlen := Z.land (ver_ihl ip) 15 * 4 in
      let src := swap32 (ip_src ip) in
      let off := 14 + hlen in
      let seg_len := u16 (len - hlen) in
      if proto ip =? PROTO_ICMP then icmp_rx poll off seg_len src
      else if proto ip =? PROTO_UDP then udp_rx off seg_len src
      else if proto ip =? PROTO_TCP then tcp_rx poll off seg_len src ip
      else ret tt.

(** One frame of [got] bytes, in [rxbuf]. *)
Definition dispatch (poll : M net unit) (got : Z) : M net unit :=
  let* buf := gets rxbuf in
  let* eth := lift (get_eth buf) in
  let type := swap16 (eth_type eth) in
  if type =? ETHERTYPE_ARP then
    if 42 <=? got then let* a := lift (get_arp buf 14) in arp_rx a else ret tt
  else if type =? ETHERTYPE_IPV4 then ipv4_rx poll (u16 (got - 14))
  else ret tt.

Fixpoint net_poll (fuel : nat) : M net unit :=
  match fuel with
  | O => fault
  | S f =>
      let* (got, bytes) := nic_call (e1000_poll 2048) in
      let* buf := gets rxbuf in
      let* buf' := lift (splice buf 0 bytes) in
      modify (set_rxbuf buf');;
      if 14 <? got then dispatch (net_poll f) got;; net_poll f else ret tt
  end.

Definition net_stack_init (netdev_mac_first : option (list Z)) : M net unit :=
  match netdev_mac_first with
  | Some mac => net_stack_set_mac mac
  | None => ret tt
  end.
End net.
Arguments net : clear implicits.

(** ** Lemmas: the checksum *)

(** The sum of the big-endian 16-bit words of a buffer, and the word made of
    an odd last byte. *)
Fixpoint word_sum (l : list Z) : Z :=
  match l with
  | a :: b :: r => 256 * a + b + word_sum r
  | _ => 0
  end.
Fixpoint tail_word (l : list Z) : Z :=
  match l with
  | a :: b :: r => tail_word r
  | [a] => 256 * a
  | [] => 0
  end.

(** Induction two bytes at a time. *)
Lemma pair_ind (P : list Z → Prop) :
  P [] → (∀ a, P [a]) → (∀ a b r, P r → P (a :: b :: r)) → ∀ l, P l.
Proof.
  intros H0 H1 H2 l. enough (P l ∧ ∀ a, P (a :: l)) as [? _]; [done|].
  induction l as [|x l [IH1 IH2]]; [by split|]. split; [done|]. intros a. by apply H2.
Qed.

Lemma word_sum_range l :
  bytes_ok l → 0 ≤ word_sum l ∧ 0 ≤ tail_word l ∧ 2 * (word_sum l + tail_word l) ≤ 65535 * (zlen l + 1).
Proof.
  induction l as [|a|a b r IH] using pair_ind; intros Hl.
  - done.
  - inversion Hl. subst. unfold byte_ok in *. change (zlen [a]) with 1. simpl. lia.
  - inversion Hl as [|? ? Ha Hr']. inversion Hr' as [|? ? Hb Hr'']. subst.
    destruct (IH Hr'') as (? & ? & ?). unfold byte_ok in *. rewrite !zlen_cons.
    cbn [word_sum tail_word]. lia.
Qed.

(** The loop adds the whole words, without wrapping. *)
Lemma sum_pairs_spec l : ∀ sum, bytes_ok l → 0 ≤ sum → sum + word_sum l < 4294967296 →
  sum_pairs sum l = sum + word_sum l.
Proof.
  induction l as [|a|a b r IH] using pair_ind; intros sum Hl Hs Hlt; cbn [sum_pairs word_sum] in *; [lia..|].
  inversion Hl as [|? ? Ha Hr']. inversion Hr' as [|? ? Hb Hr'']. subst.
  destruct (word_sum_range r Hr'') as (? & _). unfold byte_ok in *.
  rewrite (shiftl_lor a b 8) by lia. change (2 ^ 8) with 256.
  rewrite u32_small by lia. rewrite IH; [lia|done|lia|lia].
Qed.

Lemma land_1 z : Z.land z 1 = z mod 2.
Proof. apply (land_ones_low z 1). lia. Qed.

Lemma odd_byte l :
  (if truthy (Z.land (zlen l) 1) then Z.shiftl (default 0 (l !! Z.to_nat (zlen l - 1))) 8 else 0)
  = tail_word l.
Proof.
  induction l as [|a|a b r IH] using pair_ind; [done| |].
  - change (Z.shiftl a 8 = 256 * a). rewrite Z.shiftl_mul_pow2 by lia. lia.
  - cbn [tail_word]. rewrite <- IH, !zlen_cons, !land_1.
    replace (1 + (1 + zlen r)) with (zlen r + 1 * 2) by lia. rewrite Z_mod_plus_full.
    destruct (truthy (zlen r mod 2)) eqn:E; [|done].
    assert (0 < zlen r).
    { destruct r as [|x r]; [done|]. rewrite zlen_cons. pose proof (zlen_nonneg r). lia. }
    do 2 f_equal. replace (Z.to_nat (zlen r + 1 * 2 - 1)) with (S (S (Z.to_nat (zlen r - 1)))) by lia.
    done.
Qed.

(** One's complement residue of a sum: its end-around-carry fold. *)
Definition residue (s : Z) : Z := if s =? 0 then 0 else (s - 1) mod 65535 + 1.

Lemma residue_step s : 65536 ≤ s → residue (s mod 65536 + s / 65536) = residue s.
Proof.
  intros Hs. unfold residue.
  rewrite (proj2 (Z.eqb_neq s 0)), (proj2 (Z.eqb_neq (s mod 65536 + s / 65536) 0)) by mod_lia.
  f_equal. rewrite (Z.div_mod s 65536) at 3 by lia.
  replace (65536 * (s / 65536) + s mod 65536 - 1)
    with (s mod 65536 + s / 65536 - 1 + s / 65536 * 65535) by lia.
  by rewrite Z_mod_plus_full.
Qed.
Lemma residue_small s : 0 ≤ s < 65536 → residue s = s.
Proof.
  intros Hs. unfold residue. destruct (Z.eqb_spec s 0); [done|]. rewrite Z.mod_small; lia.
Qed.

(** The fold ends within its fuel when each round brings the sum down. *)
Lemma csum_fold_spec fuel s :
  0 ≤ s → s < 65536 ∨ (1 ≤ fuel)%nat ∧ s < 131072 - 1 ∨ (2 ≤ fuel)%nat ∧ s < 4294967296 →
  csum_fold fuel s = Some (residue s).
Proof.
  revert s. induction fuel as [|f IH]; intros s Hs Hf; cbn [csum_fold];
    rewrite Z.shiftr_div_pow2 by lia; change (2 ^ 16) with 65536.
  - rewrite Z.div_small by lia. simpl. by rewrite residue_small by lia.
  - destruct (Z.eqb_spec (s / 65536) 0) as [E|E].
    { rewrite residue_small; [done|]. mod_lia. }
    replace (Z.land s 65535) with (s mod 65536) by (symmetry; apply (land_ones_low s 16); lia).
    rewrite IH; [f_equal; apply residue_step; mod_lia|mod_lia|].
    destruct Hf as [Hf|[[Hf Hlt]|[Hf Hlt]]]; [mod_lia| |].
    + left. mod_lia.
    + right. left. split; [lia|]. mod_lia.
Qed.

Lemma residue_range s : 0 ≤ s → 0 ≤ residue s ≤ 65535.
Proof. intros. unfold residue. destruct (Z.eqb_spec s 0); [lia|]. mod_lia. Qed.

Lemma inet_csum_eq data pseudo :
  bytes_ok data → bytes_ok pseudo → zlen data < 65536 → zlen pseudo < 65536 →
  inet_csum data pseudo =
    Some (65535 - residue (word_sum pseudo + word_sum data + tail_word data)).
Proof.
  intros Hd Hp Hld Hlp. unfold inet_csum.
  destruct (word_sum_range data Hd) as (? & ? & ?). destruct (word_sum_range pseudo Hp) as (? & ? & ?).
  rewrite (sum_pairs_spec pseudo) by (done || lia). rewrite sum_pairs_spec by (done || lia).
  rewrite Z.add_0_l. pose proof (odd_byte data) as Ho.
  set (S := word_sum pseudo + word_sum data) in *.
  replace (if truthy (Z.land (zlen data) 1) then _ else S) with (S + tail_word data).
  2: { destruct (truthy (Z.land (zlen data) 1)); [rewrite Ho, u32_small; lia|lia]. }
  rewrite (csum_fold_spec 3) by lia. cbn [mbind option_bind]. f_equal.
  pose proof (residue_range (S + tail_word data) ltac:(lia)) as Hr.
  replace (Z.land (Z.lnot (residue (S + tail_word data))) 65535)
    with (Z.lnot (residue (S + tail_word data)) mod 65536) by (symmetry; apply (land_ones_low _ 16); lia).
  unfold Z.lnot, u16. mod_lia.
Qed.

(** A checksum stored big-endian at an even offset makes the whole sum to
    zero, which is how the receiver checks it. *)
Lemma word_sum_app a b : Nat.Even (length a) →
  word_sum (a ++ b) = word_sum a + word_sum b ∧ tail_word (a ++ b) = tail_word b.
Proof.
  induction a as [|x|x y r IH] using pair_ind; intros He.
  - done.
  - apply Nat.even_spec in He. done.
  - cbn [app word_sum tail_word length] in *. apply Nat.even_spec in He. simpl in He.
    apply Nat.even_spec in He. destruct (IH He) as [-> ->]. split; [lia|done].
Qed.

Lemma residue_complement s : 0 ≤ s → residue (s + (65535 - residue s)) = 65535.
Proof.
  intros Hs. pose proof (residue_range s Hs). unfold residue in *.
  destruct (Z.eqb_spec s 0) as [->|]; [done|].
  rewrite (proj2 (Z.eqb_neq _ 0)) by mod_lia. mod_lia.
Qed.

(** ** What the card promises

    [pending n] are the frames the card will deliver, [sent n] those it was
    given. A poll delivers the next frame, cut to the buffer; a send does
    not touch the receive side. *)
Class NicLaws (N : Type) `{Nic N} (nic_ok : N → Prop) (pending sent : N → list (list Z)) := {
  nic_send : ∀ n f, nic_ok n → 0 < zlen f ≤ 2048 →
    ∃ rc n', e1000_send f n = Some (rc, n') ∧ nic_ok n' ∧ pending n' = pending n ∧
      (sent n' = sent n ++ [f] ∨ rc ≠ 0 ∧ sent n' = sent n);
  nic_poll : ∀ n max, nic_ok n → 0 < max < 65536 →
    ∃ got l n', e1000_poll max n = Some ((got, l), n') ∧ nic_ok n' ∧ sent n' = sent n ∧
      match pending n with
      | [] => got ≤ 0 ∧ l = [] ∧ pending n' = []
      | f :: r => got = zlen l ∧ l = take (Z.to_nat max) f ∧ pending n' = r
      end;
}.

(** A card on a wire: a queue of incoming frames, the frames sent. *)
Record wire := Wire { incoming : list (list Z); outgoing : list (list Z) }.
Definition wire_send (f : list Z) : M wire Z := λ w,
  if (zlen f =? 0) || (2048 <? zlen f) then Some (-1, w)
  else Some (0, Wire (incoming w) (outgoing w ++ [f])).
Definition wire_poll (max : Z) : M wire (Z * list Z) := λ w,
  match incoming w with
  | [] => Some ((0, []), w)
  | f :: r => let l := take (Z.to_nat max) f in Some ((zlen l, l), Wire r (outgoing w))
  end.
#[export] Instance wire_nic : Nic wire :=
  {| e1000_present := λ _, true; e1000_send := wire_send; e1000_poll := wire_poll |}.
#[export] Instance wire_laws : NicLaws wire (λ _, True) incoming outgoing.
Proof.
  split.
  - intros [i o] f _ Hf. simpl. unfold wire_send.
    rewrite (proj2 (Z.eqb_neq (zlen f) 0)), (proj2 (Z.ltb_ge _ _)) by lia.
    eexists _, _. split; [done|]. simpl. by auto.
  - intros [[|f r] o] max _ Hm; eexists _, _, _; (split; [reflexivity|]); simpl; split_and!; (done || lia).
Qed.

(** ** Safety of the stack *)

Lemma splice_nil b : splice b 0 [] = Some b.
Proof.
  apply splice_Some. rewrite (zlen_nil (A := Z)). pose proof (zlen_nonneg b).
  split_and!; [lia|lia|]. by rewrite drop_0.
Qed.

(** The reads of a buffer that is long enough. *)
Ltac read_all := repeat match goal with
  | |- context [ld ?n ?b ?o] =>
      let v := fresh "v" in destruct (ld_is_Some n b o) as [v ->]; [lia..|]
  | |- context [slice ?b ?o ?n] =>
      let v := fresh "v" in destruct (slice_is_Some b o n) as [v ?E]; [lia..|];
      match goal with E : slice _ _ _ = Some v |- _ => rewrite E end
  | _ => progress cbn [mbind option_bind]
  end.

(** How the TCP state may move. *)
Definition tcp_le (a b : tcp_state) : Prop :=
  b = a ∨ b = TCP_CLOSED ∨ a = TCP_SYN_SENT ∧ b = TCP_ESTABLISHED.

(** An incoming frame the handlers are safe on: at most an Ethernet MTU, and
    an IPv4 header length inside the frame. *)
Definition safe_frame (f : list Z) : Prop :=
  bytes_ok f ∧ zlen f ≤ 1514 ∧
  (34 ≤ zlen f → ld16 f 12 = Some 8 → ∀ v, ld8 f 14 = Some v → 14 + Z.land v 15 * 4 ≤ zlen f).

(** A frame the stack sends: from its own address, within the MTU. *)
Definition sent_frame (mac f : list Z) : Prop := 14 ≤ zlen f ≤ 1514 ∧ slice f 6 6 = Some mac.
Definition is_arp (f : list Z) : Prop := slice f 12 2 = Some [8; 6].

(** An ARP frame as the protocol has it: the operation (1 or 2) big-endian. *)
Definition arp_wire (f : list Z) : Prop :=
  42 ≤ zlen f → is_arp f → ld8 f 20 = Some 0.

Section safety.
Context {N : Type} `{Nic N} (nic_ok : N → Prop) (pending sent : N → list (list Z))
  `{!NicLaws N nic_ok pending sent}.

Record good (s : net N) : Prop := {
  good_mac : zlen (local_mac s) = 6;
  good_tha : zlen (arp_tha s) = 6;
  good_buf : zlen (rxbuf s) = 2048 ∧ bytes_ok (rxbuf s);
  good_nic : nic_ok (nic s);
  good_in : Forall safe_frame (pending (nic s));
}.

(** The address cache is empty, no next hop is the address 0 that marks the
    empty cache, and the ARP frames to come follow the protocol. *)
Definition mute (s : net N) : Prop :=
  arp_spa s = 0 ∧ Z.land (local_ip s) 4294967232 ≠ 0 ∧ gateway_ip s ≠ 0 ∧
  Forall arp_wire (pending (nic s)).

(** What every operation of the stack guarantees. *)
Record step (s s' : net N) : Prop := {
  step_good : good s';
  step_pending : (length (pending (nic s')) ≤ length (pending (nic s)))%nat;
  step_sent : ∃ l, sent (nic s') = sent (nic s) ++ l ∧ Forall (sent_frame (local_mac s)) l ∧
                (mute s → mute s' ∧ Forall is_arp l);
  step_tcp : tcp_le (tcp_st s) (tcp_st s');
  step_conf : local_mac s' = local_mac s ∧ local_ip s' = local_ip s ∧
              gateway_ip s' = gateway_ip s ∧ lport s' = lport s;
}.

Lemma tcp_le_trans a b c : tcp_le a b → tcp_le b c → tcp_le a c.
Proof. unfold tcp_le. intuition (subst; eauto; try discriminate). Qed.

Lemma step_refl s : good s → step s s.
Proof.
  intros Hg. split; [done|lia| |by left|done].
  exists []. rewrite app_nil_r. split_and!; [done|constructor|]. intros Hm. split; [done|constructor].
Qed.

Lemma step_trans s1 s2 s3 : step s1 s2 → step s2 s3 → step s1 s3.
Proof.
  intros [G1 P1 (l1 & E1 & F1 & M1) T1 C1] [G2 P2 (l2 & E2 & F2 & M2) T2 C2].
  split; [done|lia| |by eapply tcp_le_trans|intuition congruence].
  exists (l1 ++ l2). split_and!.
  - by rewrite E2, E1, app_assoc.
  - apply list.Forall_app. split; [done|]. destruct C1 as (<- & _). done.
  - intros Hm. destruct (M1 Hm) as [Hm2 H1]. destruct (M2 Hm2) as [Hm3 H2].
    split; [done|]. apply list.Forall_app. by split.
Qed.

(** An update of the state that leaves the network side alone. *)
Lemma step_quiet s s' :
  good s → local_mac s' = local_mac s → local_ip s' = local_ip s → gateway_ip s' = gateway_ip s →
  lport s' = lport s → arp_tha s' = arp_tha s → arp_spa s' = arp_spa s → rxbuf s' = rxbuf s →
  nic s' = nic s → tcp_le (tcp_st s) (tcp_st s') → step s s'.
Proof.
  intros [G1 G2 G3 G4 G5] E1 E2 E3 E4 E5 E6 E7 E8 Ht. split; [|by rewrite E8| |done|done].
  - split; rewrite ?E1, ?E5, ?E7, ?E8; done.
  - exists []. rewrite E8, app_nil_r. split_and!; [done|constructor|]. unfold mute.
    rewrite E2, E3, E6, E8. intros Hm. split; [done|constructor].
Qed.

Lemma step_arp s h p : good s → zlen h = 6 → (mute s → p = 0) → step s (set_arp h p s).
Proof.
  intros [G1 G2 G3 G4 G5] Hh Hp. split; [by split|done| |by left|done].
  exists []. rewrite app_nil_r. split_and!; [done|constructor|]. intros Hm.
  split; [|constructor]. specialize (Hp Hm). destruct Hm as (? & ? & ? & ?). by split_and!.
Qed.

(** *** Buffers *)

Lemma slice_mid (a l b : list Z) off n :
  off = zlen a → n = zlen l → slice (a ++ l ++ b) off n = Some l.
Proof.
  intros -> ->. apply slice_Some. rewrite !zlen_app.
  pose proof (zlen_nonneg a). pose proof (zlen_nonneg l). pose proof (zlen_nonneg b).
  split_and!; try lia. unfold zlen. rewrite !Nat2Z.id, drop_app_length. by rewrite take_app_length.
Qed.
Lemma slice_prefix f r off n : off + n ≤ zlen f → slice (f ++ r) off n = slice f off n.
Proof.
  intros Hle. unfold slice. rewrite zlen_app. pose proof (zlen_nonneg r).
  destruct (Z.leb_spec 0 off), (Z.leb_spec 0 n); try done.
  rewrite !(proj2 (Z.leb_le _ _)) by lia. simpl. f_equal. unfold zlen in *.
  rewrite drop_app_le by lia. by rewrite take_app_le by (rewrite length_drop; lia).
Qed.
Lemma ld_prefix n f r off : off + n ≤ zlen f → ld n (f ++ r) off = ld n f off.
Proof. intros. unfold ld. by rewrite slice_prefix. Qed.

Lemma swap16_eq x : 0 ≤ x < 65536 → swap16 x = x mod 256 * 256 + x / 256.
Proof.
  intros Hx. unfold swap16.
  replace (Z.land x 255) with (x mod 256) by (symmetry; apply (land_ones_low x 8); lia).
  rewrite (Z.shiftr_div_pow2 x 8), (shiftl_lor _ _ 8) by mod_lia. change (2 ^ 8) with 256.
  apply u16_small. mod_lia.
Qed.

Lemma ld16_low b o v : bytes_ok b → ld16 b o = Some v → ld8 b o = Some (v mod 256).
Proof.
  intros Hb Hv. unfold ld16, ld8, ld in *. destruct (slice b o 2) as [l|] eqn:E; [|done].
  pose proof (slice_bytes_ok _ _ _ _ Hb E) as Hl. pose proof (slice_zlen _ _ _ _ E) as Hz.
  apply slice_Some in E as (? & _ & ? & El). injection Hv as <-.
  destruct l as [|x [|y [|? ?]]]; try (unfold zlen in Hz; simpl in Hz; lia).
  assert (E1 : slice b o 1 = Some [x]).
  { apply slice_Some. split_and!; try lia. change (Z.to_nat 1) with (1 `min` 2)%nat.
    change (Z.to_nat 2) with 2%nat in El. by rewrite <- take_take, <- El. }
  rewrite E1. simpl. inversion Hl as [|? ? Hx _]. unfold byte_ok in Hx. f_equal. mod_lia.
Qed.

(** An ARP frame that follows the protocol has neither of the operations the
    stack looks for. *)
Lemma arp_wire_op f t : bytes_ok f → 0 ≤ t < 65536 → swap16 t = ETHERTYPE_ARP →
  ld16 f 12 = Some t → 42 ≤ zlen f → arp_wire f →
  ∀ o, ld 2 f 20 = Some o → o ≠ 1 ∧ o ≠ 2.
Proof.
  intros Hok Ht Hs Hl H42 Hw o Ho. rewrite swap16_eq in Hs by done. unfold ETHERTYPE_ARP in Hs.
  assert (t = 1544) as -> by mod_lia.
  assert (is_arp f) as Ha.
  { unfold is_arp. unfold ld16, ld in Hl. destruct (slice f 12 2) as [l|] eqn:E; [|done].
    injection Hl as Hl. f_equal. pose proof (slice_zlen _ _ _ _ E) as Hz.
    rewrite <- (le_to_of l) by (eapply slice_bytes_ok; [exact Hok|exact E]). rewrite Hl.
    replace (length l) with 2%nat by (unfold zlen in Hz; lia). done. }
  specialize (Hw H42 Ha). rewrite (ld16_low f 20 o Hok Ho) in Hw. injection Hw as Hw.
  split; intros ->; done.
Qed.

Lemma get_tcp_is_Some b o : 0 ≤ o → o + 20 ≤ zlen b → is_Some (get_tcp b o).
Proof. intros. unfold get_tcp, ld8, ld16, ld32. read_all. by eexists. Qed.
Lemma get_udp_is_Some b o : 0 ≤ o → o + 8 ≤ zlen b → is_Some (get_udp b o).
Proof. intros. unfold get_udp, ld8, ld16, ld32. read_all. by eexists. Qed.
Lemma get_ipv4_Some b o : 0 ≤ o → o + 20 ≤ zlen b →
  ∃ h, get_ipv4 b o = Some h ∧ ld8 b o = Some (ver_ihl h) ∧ ld8 b (o + 9) = Some (proto h).
Proof. intros. unfold get_ipv4, ld8, ld16, ld32. read_all. by eexists. Qed.
Lemma get_eth_Some b : 14 ≤ zlen b →
  ∃ h, get_eth b = Some h ∧ ld16 b 12 = Some (eth_type h).
Proof. intros. unfold get_eth, ld8, ld16, ld32. read_all. by eexists. Qed.
Lemma get_arp_Some b o : 0 ≤ o → o + 28 ≤ zlen b →
  ∃ a, get_arp b o = Some a ∧ zlen (sha a) = 6 ∧ ld16 b (o + 6) = Some (op a).
Proof.
  intros. unfold get_arp, ld8, ld16, ld32. read_all. eexists. split_and!; [done| |done].
  simpl. by eapply slice_zlen.
Qed.

(** *** Transmit *)

Lemma zlen_le_to n v : zlen (le_to n v) = Z.of_nat n.
Proof. unfold zlen. by rewrite length_le_to. Qed.

(** [s0] is the state the enclosing operation started from. *)
Lemma eth_send_wp s0 s et dst payload :
  step s0 s → zlen dst = 6 → zlen payload ≤ 1500 → (mute s0 → et = ETHERTYPE_ARP) →
  wp (eth_send et dst payload) (λ _ s', step s0 s' ∧ pending (nic s') = pending (nic s)) s.
Proof.
  intros Hs0 Hd Hp Het. pose proof (step_good _ _ Hs0) as Hg.
  unfold eth_send. rewrite (proj2 (Z.ltb_ge _ _)) by lia. wp_pure.
  pose proof (good_mac _ Hg) as Hmac. pose proof (zlen_nonneg payload).
  set (f := eth_bytes _ ++ payload).
  assert (Hlf : zlen f = 14 + zlen payload).
  { unfold f, eth_bytes. cbn [eth_dst eth_src eth_type]. rewrite !zlen_app, zlen_le_to. lia. }
  destruct (nic_send (nic s) f) as (rc & n' & E & Hok & Hpend & Hsent); [apply Hg|lia|].
  apply wp_bind. exists rc, (set_nic n' s). split; [unfold nic_call; by rewrite E|]. apply wp_ret.
  assert (Hf1 : sent_frame (local_mac s) f).
  { split; [lia|]. unfold f, eth_bytes. cbn [eth_dst eth_src]. rewrite <- !app_assoc. by apply slice_mid. }
  assert (Hf2 : et = ETHERTYPE_ARP → is_arp f).
  { intros ->. unfold f, eth_bytes, is_arp. cbn [eth_dst eth_src eth_type].
    change (le_to 2 (swap16 ETHERTYPE_ARP)) with [8; 6]. rewrite (app_assoc dst), <- (app_assoc _ [8; 6]).
    apply (slice_mid (dst ++ local_mac s) [8; 6]); [|done]. rewrite zlen_app. lia. }
  assert (Hmute : mute s → mute (set_nic n' s)).
  { unfold mute. simpl. by rewrite Hpend. }
  destruct Hs0 as [_ P1 (l & El & Hl & Hm1) Ht Hc]. split; [|exact Hpend].
  split; simpl; [|by rewrite Hpend| |done|done].
  - destruct Hg as [G1 G2 G3 G4 G5]. split; simpl; [done..|by rewrite Hpend].
  - destruct Hc as (Hc & _). rewrite Hc in Hf1. destruct Hsent as [->|[_ ->]].
    + exists (l ++ [f]). split_and!.
      * by rewrite El, app_assoc.
      * apply list.Forall_app. split; [done|by constructor].
      * intros Hm. destruct (Hm1 Hm) as [? ?]. split; [auto|].
        apply list.Forall_app. split; [done|]. constructor; [auto|constructor].
    + exists l. split_and!; [done|done|]. intros Hm. destruct (Hm1 Hm) as [? ?]. split; [auto|done].
Qed.

Lemma arp_rx_wp s0 s a :
  step s0 s → zlen (sha a) = 6 → (mute s0 → op a ≠ 1 ∧ op a ≠ 2) →
  wp (arp_rx a) (λ _ s', step s0 s' ∧ pending (nic s') = pending (nic s)) s.
Proof.
  intros Hs Ha Hop. pose proof (step_good _ _ Hs) as Hg.
  unfold arp_rx. destruct (Z.eqb_spec (op a) 1) as [E|E].
  { wp_pure. wp_apply (eth_send_wp s0); [done|done| |done|].
    - unfold arp_bytes. cbn [htype ptype arp_hlen arp_plen op sha spa tha tpa].
      rewrite !zlen_app, !zlen_le_to, (good_mac _ Hg). lia.
    - intros ? s' Hs'. by apply wp_ret. }
  destruct (Z.eqb_spec (op a) 2) as [E2|E2]; [|by apply wp_ret].
  apply wp_modify. split; [|done]. destruct Hs as [_ P (l & El & Fl & Ml) T C].
  assert (Hnm : ¬ mute s0) by (intros Hm; by apply Hop in Hm as [_ ?]).
  split; simpl; [|done| |done|done].
  - destruct Hg. by split.
  - by exists l.
Qed.

(** *** Everything that polls

    [poll] is safe from any good state with fewer than [k] frames to come. *)
Section polls.
Context (poll : M (net N) unit) (k : nat).
Definition few (s : net N) : Prop := good s ∧ (length (pending (nic s)) < k)%nat.
Hypothesis Hpoll : ∀ s, few s → wp poll (λ _ s', step s s') s.

Lemma step_few s s' : few s → step s s' → few s'.
Proof. intros [_ Hk] Hs. split; [apply Hs|]. pose proof (step_pending _ _ Hs). lia. Qed.

(** The specification of a call, then the rest from the state it leads to. *)
Lemma wp_step {A B} (m : M (net N) A) (c : A → M (net N) B) P s Q :
  wp m (λ a s', step s s' ∧ P a s') s → few s →
  (∀ a s', few s' → step s s' → P a s' → wp (c a) Q s') → wp (bind m c) Q s.
Proof.
  intros Hm Hf Hc. eapply wp_call; [done|]. intros a s' [Hs HP].
  apply Hc; [by eapply step_few|done|done].
Qed.

Lemma spin_until_wp n stop s : few s → wp (spin_until n stop poll) (λ _ s', step s s') s.
Proof.
  intros Hf. unfold spin_until.
  eapply (wp_call _ _ (λ _ s', step s s')); [|by intros ? s' Hs; apply wp_ret].
  eapply (wp_for (λ _ s', step s s')); [by apply step_refl, Hf|done|].
  intros j s1 _ Hs1. apply wp_bind, wp_get. destruct (stop s1); [by apply wp_ret|].
  wp_apply Hpoll; [by eapply step_few|]. intros ? s2 Hs2. apply wp_ret. by eapply step_trans.
Qed.

Lemma arp_resolve_wp s ip : few s →
  wp (arp_resolve poll ip) (λ r s', step s s' ∧
    (match r with Some m => zlen m = 6 | None => True end ∧ (mute s → ip ≠ 0 → r = None))) s.
Proof.
  intros [Hg Hk]. unfold arp_resolve. wp_pure. destruct (Z.eqb_spec (arp_spa s) ip) as [E|E].
  { apply wp_ret. split_and!; [by apply step_refl|apply Hg|]. intros [Hm _] Hne. congruence. }
  wp_pure. assert (Hs1 : step s (set_arp (arp_tha s) 0 s)) by (apply step_arp; [done|apply Hg|done]).
  set (s1 := set_arp _ 0 s) in *. wp_apply (eth_send_wp s); [apply Hs1|done| |done|].
  { unfold arp_bytes, arp_request. cbn [htype ptype arp_hlen arp_plen op sha spa tha tpa].
    rewrite !zlen_app, !zlen_le_to, (good_mac _ Hg). by vm_compute. }
  intros ? s2 [Hs2 _]. assert (Hf2 : few s2) by (eapply step_few; [|exact Hs2]; by split).
  wp_apply spin_until_wp; [done|]. intros ? s3 Hs3. wp_pure. apply wp_ret.
  assert (Hs13 : step s s3) by eauto using step_trans.
  split; [done|]. destruct (Z.eqb_spec (arp_spa s3) ip) as [E3|E3]; [|done].
  split; [apply Hs3|]. intros Hm Hne. exfalso.
  destruct (step_sent _ _ Hs13) as (l & _ & _ & Hmm). destruct (Hmm Hm) as [[Hz _] _]. congruence.
Qed.

Lemma next_hop_mute s dst : mute s → next_hop s dst ≠ 0.
Proof.
  intros (_ & Hip & Hgw & _). unfold next_hop. destruct (Z.eqb_spec (Z.land dst 4294967232) (Z.land (local_ip s) 4294967232)) as [E|]; [|done].
  intros ->. apply Hip. by rewrite <- E.
Qed.

Lemma ipv4_bytes_len h : zlen (ipv4_bytes h) = 20.
Proof. unfold ipv4_bytes. by rewrite !zlen_app, !zlen_le_to. Qed.
Lemma ipv4_bytes_ok h : bytes_ok (ipv4_bytes h).
Proof. unfold ipv4_bytes. repeat apply Forall_app_2; apply le_to_bytes_ok. Qed.
Lemma tcp_bytes_len t : zlen (tcp_bytes t) = 20.
Proof. unfold tcp_bytes. by rewrite !zlen_app, !zlen_le_to. Qed.
Lemma tcp_bytes_ok t : bytes_ok (tcp_bytes t).
Proof. unfold tcp_bytes. repeat apply Forall_app_2; apply le_to_bytes_ok. Qed.

Lemma ipv4_send_wp s dst prot seg : few s →
  wp (ipv4_send poll dst prot seg) (λ r s', step s s' ∧ (mute s → r = false)) s.
Proof.
  intros Hf. unfold ipv4_send. wp_pure. eapply wp_step; [by apply arp_resolve_wp|done|].
  intros [mac|] s1 Hf1 Hs1 [Hlen Hmute].
  2: { by apply wp_ret. }
  assert (Hnm : ¬ mute s). { intros Hm. discriminate (Hmute Hm (next_hop_mute _ dst Hm)). }
  destruct (Z.ltb_spec 1480 (zlen seg)); [by apply wp_ret|]. wp_pure.
  set (ip := ip_header s1 dst prot (zlen seg)).
  apply wp_bind. eapply wp_lift.
  { apply inet_csum_eq; [apply ipv4_bytes_ok|constructor|by rewrite ipv4_bytes_len|done]. }
  eapply wp_mono; [apply (eth_send_wp s s1); [done|done| |done]|].
  - rewrite zlen_app, ipv4_bytes_len. lia.
  - intros r s2 [? _]. by split.
Qed.

(** *** The receive handlers *)

(** A range of [rxbuf] read by a handler. *)
Lemma rxbuf_len s : good s → zlen (rxbuf s) = 2048.
Proof. intros Hg. apply Hg. Qed.

Lemma icmp_rx_wp s off len src : few s → 0 ≤ off → off + len ≤ 2048 → len ≤ 1500 →
  wp (icmp_rx poll off len src) (λ _ s', step s s') s.
Proof.
  intros Hf Ho Hle Hmax. pose proof (rxbuf_len s (proj1 Hf)) as Hbuf. unfold icmp_rx.
  destruct (Z.ltb_spec len 8); [by apply wp_ret, step_refl, Hf|]. wp_pure.
  destruct (ld_is_Some 1 (rxbuf s) off) as [ty Ety]; [lia..|].
  apply wp_bind. eapply wp_lift; [exact Ety|].
  destruct (negb (ty =? 8)); [by apply wp_ret, step_refl, Hf|].
  destruct (slice_is_Some (rxbuf s) off len) as [body Eb]; [lia..|].
  apply wp_bind. eapply wp_lift; [exact Eb|]. rewrite (proj2 (Z.ltb_ge _ _)) by lia.
  pose proof (slice_zlen _ _ _ _ Eb) as Hlen.
  assert (Hbok : bytes_ok body) by (eapply slice_bytes_ok; [apply Hf|exact Eb]).
  destruct (splice_is_Some body 0 [0]) as [r1 E1]; [lia|change (zlen [0]) with 1; lia|].
  apply wp_bind. eapply wp_lift; [exact E1|]. pose proof (splice_zlen _ _ _ _ E1) as L1.
  destruct (splice_is_Some r1 2 [0; 0]) as [r2 E2]; [lia|change (zlen [0; 0]) with 2; lia|].
  apply wp_bind. eapply wp_lift; [exact E2|]. pose proof (splice_zlen _ _ _ _ E2) as L2.
  assert (bytes_ok r2).
  { eapply splice_bytes_ok; [| |exact E2]; [|by repeat constructor].
    eapply splice_bytes_ok; [exact Hbok| |exact E1]. by repeat constructor. }
  apply wp_bind. eapply wp_lift; [apply inet_csum_eq; [done|constructor|lia|done]|].
  set (c := 65535 - residue _).
  destruct (splice_is_Some r2 2 [u8 (Z.shiftr c 8); u8 c]) as [r3 E3]; [lia| |].
  { change (2 + 2 ≤ zlen r2). lia. }
  apply wp_bind. eapply wp_lift; [exact E3|].
  wp_apply ipv4_send_wp; [done|]. intros ? s' [Hs _]. by apply wp_ret.
Qed.

Lemma udp_rx_wp s off len src : few s → 0 ≤ off → off + 8 ≤ 2048 →
  wp (udp_rx off len src) (λ _ s', step s s') s.
Proof.
  intros Hf Ho Hle. pose proof (rxbuf_len s (proj1 Hf)) as Hbuf. unfold udp_rx.
  destruct (len <? 8); [by apply wp_ret, step_refl, Hf|]. wp_pure.
  destruct (get_udp_is_Some (rxbuf s) off) as [uh E]; [lia..|].
  apply wp_bind. eapply wp_lift; [exact E|]. apply wp_modify.
  apply step_quiet; (done || apply Hf || by left).
Qed.

(** A TCP checksum never faults. *)
Lemma tcp_checksum_Some (s : net N) peer t n : ∃ c, tcp_checksum s peer t n = Some c.
Proof.
  unfold tcp_checksum. eexists. apply inet_csum_eq; [apply tcp_bytes_ok| |by rewrite tcp_bytes_len|].
  - unfold pseudo_bytes. repeat apply Forall_app_2; apply le_to_bytes_ok.
  - unfold pseudo_bytes. by rewrite !zlen_app, !zlen_le_to.
Qed.

(** The sends of TCP: a header with its checksum, then some data. *)
Lemma send_step s0 s dst prot seg : few s → step s0 s →
  wp (ipv4_send poll dst prot seg) (λ r s', step s0 s' ∧ (mute s0 → r = false)) s.
Proof.
  intros Hf Hs0. eapply wp_mono; [by apply ipv4_send_wp|]. intros r s' [Hs Hr].
  split; [by eapply step_trans|]. intros Hm. apply Hr.
  destruct (step_sent _ _ Hs0) as (l & _ & _ & Hmm). by apply Hmm.
Qed.

Lemma set_st_step s0 s t : step s0 s → tcp_le (tcp_st s0) t → step s0 (set_st t s).
Proof.
  intros Hs0 Ht. assert (Hq : step (set_st (tcp_st s) s) (set_st (tcp_st s) s)).
  { apply step_refl. destruct (step_good _ _ Hs0). by split. }
  destruct Hs0 as [G P S T C]. split; try done. by destruct G.
Qed.

Lemma quiet_seq s0 s r l : step s0 s → step s0 (set_seq r l s).
Proof.
  intros Hs. eapply step_trans; [exact Hs|]. apply step_quiet; (done || apply Hs || by left).
Qed.
Lemma quiet_log s0 s e : step s0 s → step s0 (add_log e s).
Proof.
  intros Hs. eapply step_trans; [exact Hs|]. apply step_quiet; (done || apply Hs || by left).
Qed.
Lemma quiet_rport s0 s p : step s0 s → step s0 (set_rport p s).
Proof.
  intros Hs. eapply step_trans; [exact Hs|]. apply step_quiet; (done || apply Hs || by left).
Qed.

Lemma tcp_close_wp s0 s ip : few s → step s0 s →
  wp (tcp_close poll ip) (λ _ s', step s0 s') s.
Proof.
  intros Hf Hs0. unfold tcp_close. wp_pure.
  destruct (negb (bool_decide (tcp_st s = TCP_ESTABLISHED))); [by apply wp_ret|]. wp_pure.
  edestruct (tcp_checksum_Some s) as [c Ec]. apply wp_bind. eapply wp_lift; [exact Ec|].
  wp_apply send_step; [done|done|]. intros ? s' [Hs _]. wp_pure. apply wp_ret.
  apply set_st_step; [done|]. right. by left.
Qed.

Lemma tcp_rx_syn_wp s t src seq ackn ip : few s → tcp_st s = TCP_SYN_SENT →
  wp (tcp_rx_syn poll t src seq ackn ip) (λ _ s', step s s') s.
Proof.
  intros Hf Hst. unfold tcp_rx_syn. wp_pure.
  assert (Hs1 : step s (set_seq (u32 (seq + 1)) ackn s)) by apply quiet_seq, step_refl, Hf.
  edestruct (tcp_checksum_Some (set_seq (u32 (seq + 1)) ackn s)) as [c Ec].
  apply wp_bind. eapply wp_lift; [exact Ec|].
  wp_apply (send_step s); [by eapply step_few|done|]. intros ? s' [Hs _]. wp_pure.
  apply wp_modify, quiet_log, set_st_step; [done|]. right. by right.
Qed.

Lemma tcp_rx_wp s off len src ip : few s → 0 ≤ off → off + 20 ≤ 2048 →
  wp (tcp_rx poll off len src ip) (λ _ s', step s s') s.
Proof.
  intros Hf Ho Hle. pose proof (rxbuf_len s (proj1 Hf)) as Hbuf. unfold tcp_rx.
  destruct (len <? 20); [by apply wp_ret, step_refl, Hf|]. wp_pure.
  destruct (get_tcp_is_Some (rxbuf s) off) as [t Et]; [lia..|].
  apply wp_bind. eapply wp_lift; [exact Et|]. wp_pure.
  destruct (bool_decide (tcp_st s = TCP_SYN_SENT) && has (t_flags t) TCP_SYN) eqn:E.
  { apply andb_prop in E as [E _]. apply bool_decide_eq_true in E. by apply tcp_rx_syn_wp. }
  destruct (has (t_flags t) TCP_RST).
  { apply wp_modify, set_st_step; [by apply step_refl, Hf|]. right. by left. }
  apply (wp_call _ _ (λ _ s', step s s')).
  { destruct (has (t_flags t) TCP_ACK); [|by apply wp_ret, step_refl, Hf].
    by apply wp_modify, quiet_seq, step_refl, Hf. }
  intros _ s1 Hs1. apply (wp_call _ _ (λ _ s', step s s')).
  { destruct (Z.shiftr (off_res t) 4 * 4 <? len); [|by apply wp_ret].
    by apply wp_modify, quiet_log. }
  intros _ s2 Hs2. destruct (has (t_flags t) TCP_FIN); [|by apply wp_ret].
  wp_apply (tcp_close_wp s); [by eapply step_few|done|]. intros ? s3 Hs3. by apply wp_modify, quiet_log.
Qed.

(** *** Ingress *)

Lemma ipv4_rx_wp s len : few s → 20 ≤ len ≤ 1500 →
  (∀ v, ld8 (rxbuf s) 14 = Some v → Z.land v 15 * 4 ≤ len) →
  wp (ipv4_rx poll len) (λ _ s', step s s') s.
Proof.
  intros Hf Hlen Hihl. pose proof (rxbuf_len s (proj1 Hf)) as Hbuf. unfold ipv4_rx.
  rewrite (proj2 (Z.ltb_ge _ _)) by lia. wp_pure.
  destruct (get_ipv4_Some (rxbuf s) 14) as (ip & Eip & Ev & _); [lia..|].
  apply wp_bind. eapply wp_lift; [exact Eip|].
  destruct (negb (Z.shiftr (ver_ihl ip) 4 =? 4)); [by apply wp_ret, step_refl, Hf|].
  specialize (Hihl _ Ev). cbv zeta. set (hlen := Z.land (ver_ihl ip) 15 * 4) in *.
  assert (Hh : 0 ≤ hlen ≤ 60).
  { unfold hlen. pose proof (land_ones_low (ver_ihl ip) 4 ltac:(lia)) as E.
    change (2 ^ 4 - 1) with 15 in E. rewrite E. change (2 ^ 4) with 16. mod_lia. }
  rewrite u16_small by lia. repeat case_if.
  - apply icmp_rx_wp; [done|lia..].
  - apply udp_rx_wp; [done|lia..].
  - apply tcp_rx_wp; [done|lia..].
  - by apply wp_ret, step_refl, Hf.
Qed.

(** The frame [f] lies at the start of [rxbuf]. *)
Lemma dispatch_wp s0 s f r : few s → step s0 s → rxbuf s = f ++ r → safe_frame f →
  (mute s0 → arp_wire f) → 14 < zlen f →
  wp (dispatch poll (zlen f))
     (λ _ s', step s0 s' ∧ (length (pending (nic s')) ≤ length (pending (nic s)))%nat) s.
Proof.
  intros Hf Hs0 Hb (Hok & Hlen & Hihl) Harp Hgot. pose proof (rxbuf_len s (proj1 Hf)) as Hbuf.
  unfold dispatch. wp_pure. destruct (get_eth_Some (rxbuf s)) as (eth & Ee & Et); [lia|].
  apply wp_bind. eapply wp_lift; [exact Ee|]. cbv zeta.
  assert (Et' : ld16 f 12 = Some (eth_type eth)).
  { unfold ld16. rewrite <- (ld_prefix 2 f r) by lia. by rewrite <- Hb. }
  pose proof (ld_range _ _ _ _ Hok Et') as Hr. change (256 ^ 2) with 65536 in Hr.
  destruct (Z.eqb_spec (swap16 (eth_type eth)) ETHERTYPE_ARP) as [E|E].
  { destruct (Z.leb_spec 42 (zlen f)) as [H42|]; [|by apply wp_ret].
    destruct (get_arp_Some (rxbuf s) 14) as (a & Ea & Hsha & Hop); [lia..|].
    apply wp_bind. eapply wp_lift; [exact Ea|]. eapply wp_mono; [apply (arp_rx_wp s0); [done|done|]|by intros ? ? [? ->]].
    intros Hm. pose proof (arp_wire_op f _ Hok Hr E Et' H42 (Harp Hm)) as Hf20.
    rewrite Hb in Hop. unfold ld16 in Hop. rewrite ld_prefix in Hop by lia. by apply Hf20. }
  destruct (Z.eqb_spec (swap16 (eth_type eth)) ETHERTYPE_IPV4) as [E2|E2];
    [|by apply wp_ret].
  rewrite u16_small by lia. destruct (decide (34 ≤ zlen f)).
  - eapply wp_mono; [apply ipv4_rx_wp; [done|lia|]|intros ? ? Hs'; split; [by eapply step_trans|apply Hs']]. intros v Hv.
    enough (14 + Z.land v 15 * 4 ≤ zlen f) by lia. apply Hihl; [done| |].
    + rewrite Et'. f_equal. unfold ETHERTYPE_IPV4 in E2. rewrite swap16_eq in E2 by lia. mod_lia.
    + unfold ld8. rewrite <- (ld_prefix 1 f r) by lia. by rewrite <- Hb.
  - unfold ipv4_rx. rewrite (proj2 (Z.ltb_lt _ _)) by lia. by apply wp_ret.
Qed.
End polls.

(** Taking the next frame from the card into [rxbuf]. *)
Lemma take_frame_step s n' b' :
  good s → nic_ok n' → sent n' = sent (nic s) →
  (∃ l, pending (nic s) = l ++ pending n') → zlen b' = 2048 → bytes_ok b' →
  step s (set_rxbuf b' (set_nic n' s)).
Proof.
  intros [G1 G2 G3 G4 G5] Hok Hs [l Hl] Hb1 Hb2. rewrite Hl in G5.
  apply list.Forall_app in G5 as [_ G5].
  split; simpl; [by split| | |by left|done].
  - rewrite Hl, length_app. lia.
  - exists []. rewrite Hs, app_nil_r. split_and!; [done|constructor|].
    intros (? & ? & ? & Hw). split; [|constructor]. rewrite Hl in Hw.
    apply list.Forall_app in Hw as [_ Hw]. by split_and!.
Qed.

Lemma net_poll_wp fuel : ∀ s, good s → (length (pending (nic s)) < fuel)%nat →
  wp (net_poll fuel) (λ _ s', step s s') s.
Proof.
  induction fuel as [|k IH]; intros s Hg Hk; [lia|]. cbn [net_poll].
  pose proof (good_buf _ Hg) as [Hbl Hbb].
  destruct (nic_poll (nic s) 2048) as (got & l & n' & E & Hok & Hsent & Hp); [apply Hg|lia|].
  apply wp_bind. exists (got, l), (set_nic n' s). split; [unfold nic_call; by rewrite E|]. wp_pure.
  destruct (pending (nic s)) as [|f r] eqn:Epend.
  - destruct Hp as (Hgot & -> & Hp). apply wp_bind. eapply wp_lift; [by apply (splice_nil (rxbuf s))|].
    wp_pure. rewrite (proj2 (Z.ltb_ge _ _)) by lia. apply wp_ret.
    apply take_frame_step; [done|done|done| |done|done]. exists []. by rewrite Epend, Hp.
  - destruct Hp as (-> & El & Hp). pose proof (good_in _ Hg) as Hin. rewrite Epend in Hin.
    apply list.Forall_cons in Hin as [Hf _]. pose proof Hf as (Hfb & Hfl & _).
    rewrite take_ge in El by (unfold zlen in *; lia). subst l. pose proof (zlen_nonneg f).
    destruct (splice_is_Some (rxbuf s) 0 f) as [b' Eb]; [lia..|].
    apply wp_bind. eapply wp_lift; [exact Eb|]. wp_pure.
    assert (Hs1 : step s (set_rxbuf b' (set_nic n' s))).
    { apply take_frame_step; [done|done|done| | |].
      - exists [f]. by rewrite Epend, Hp.
      - by rewrite (splice_zlen _ _ _ _ Eb).
      - eapply splice_bytes_ok; [exact Hbb|exact Hfb|exact Eb]. }
    set (s1 := set_rxbuf b' _) in *. simpl in Hk.
    assert (Hf1 : few k s1) by (split; [apply Hs1|]; simpl; rewrite Hp; lia).
    assert (HIH : ∀ s, few k s → wp (net_poll k) (λ _ s', step s s') s) by (intros ? []; auto).
    destruct (Z.ltb_spec 14 (zlen f)); [|by apply wp_ret].
    assert (Hb' : b' = f ++ drop (length f) (rxbuf s)) by (by apply splice_Some in Eb as (_ & _ & ->)).
    eapply wp_call.
    { apply (dispatch_wp (net_poll k) k HIH s s1 f _ Hf1 Hs1 Hb' Hf); [|done].
      intros (_ & _ & _ & Hw). rewrite Epend in Hw. by apply list.Forall_cons in Hw as [? _]. }
    intros _ s2 [Hs2 Hl2]. eapply wp_mono; [apply HIH|by intros; eapply step_trans].
    split; [apply Hs2|]. destruct Hf1. lia.
Qed.
End safety.

(** ** The theorems *)

(** C3: [net_poll] returns on every queue of [safe] frames (fuel: one more
    than the frames to come), without touching memory outside its buffers,
    whatever the frames make the stack send, resolve and poll again. It
    only sends frames of at most 1514 bytes from its own address, it keeps
    the configuration, and the TCP state only moves by SYN_SENT to
    ESTABLISHED or to CLOSED. *)
Theorem net_poll_safe {N} `{Nic N} nic_ok pending sent `{!NicLaws N nic_ok pending sent} fuel s :
  good nic_ok pending s → (length (pending (nic s)) < fuel)%nat →
  ∃ s', net_poll fuel s = Some (tt, s') ∧ step nic_ok pending sent s s'.
Proof.
  intros Hg Hk. destruct (net_poll_wp nic_ok pending sent fuel s Hg Hk) as ([] & s' & E & Hs). by exists s'.
Qed.

(** [inet_csum] is the Internet checksum: it returns the complement of
    the one's complement sum, and storing it big-endian in a zeroed field at
    an even offset makes the buffer check to zero. *)
Theorem inet_csum_spec a b :
  bytes_ok a → bytes_ok b → zlen a + zlen b < 65534 → Nat.Even (length a) →
  ∃ c, inet_csum (a ++ [0; 0] ++ b) [] = Some c ∧ 0 ≤ c < 65536 ∧
    c = 65535 - residue (word_sum a + word_sum b + tail_word b) ∧
    inet_csum (a ++ [u8 (Z.shiftr c 8); u8 c] ++ b) [] = Some 0.
Proof.
  intros Ha Hb Hlen He. set (s := word_sum a + word_sum b + tail_word b).
  destruct (word_sum_range a Ha) as (? & _). destruct (word_sum_range b Hb) as (? & ? & _).
  pose proof (residue_range s ltac:(lia)) as Hr. set (c := 65535 - residue s).
  assert (Hgen : ∀ x y, byte_ok x → byte_ok y → inet_csum (a ++ [x; y] ++ b) [] =
      Some (65535 - residue (s + (256 * x + y)))).
  { intros x y Hx Hy. rewrite inet_csum_eq.
    - destruct (word_sum_app a ([x; y] ++ b) He) as [-> ->]. cbn [app word_sum tail_word].
      do 3 f_equal. unfold s. lia.
    - apply Forall_app_2; [done|]. by constructor; [|constructor].
    - constructor.
    - rewrite !zlen_app. change (zlen [x; y]) with 2. lia.
    - done. }
  assert (Hh : u8 (Z.shiftr c 8) = c / 256).
  { rewrite Z.shiftr_div_pow2 by lia. apply u8_small. change (2 ^ 8) with 256. unfold c. mod_lia. }
  exists c. split_and!; [|lia|lia|done|].
  - rewrite Hgen by done. by rewrite Z.mul_0_r, !Z.add_0_r.
  - rewrite Hh. rewrite Hgen by (unfold byte_ok, u8; unfold c; mod_lia).
    replace (256 * (c / 256) + u8 c) with c by (unfold u8; mod_lia).
    unfold c. rewrite residue_complement by lia. done.
Qed.

(** an ICMP echo request that fits the 2048-byte receive buffer but
    carries more than 1500 bytes makes [net_poll] overflow [icmp_rx]'s
    buffer [reply]: whatever the state and the fuel, no run is defined. *)
Theorem net_poll_icmp_overflow {N} `{Nic N} nic_ok pending sent `{!NicLaws N nic_ok pending sent}
    fuel s f r :
  nic_ok (nic s) → zlen (rxbuf s) = 2048 → pending (nic s) = f :: r →
  bytes_ok f → 1534 < zlen f ≤ 2048 → ld16 f 12 = Some 8 → ld8 f 14 = Some 69 →
  ld8 f 23 = Some PROTO_ICMP → ld8 f 34 = Some 8 →
  net_poll fuel s = None.
Proof.
  intros Hok Hb Hp Hf Hl Ht Hv Hpr Hty. destruct fuel as [|k]; [done|]. cbn [net_poll].
  destruct (nic_poll (nic s) 2048) as (got & l & n' & E & _ & _ & Hp'); [done|lia|].
  rewrite Hp in Hp'. destruct Hp' as (-> & -> & _).
  rewrite take_ge in E by (unfold zlen in *; lia).
  rewrite (bind_eq _ _ _ (zlen f, f) (set_nic n' s)) by (unfold nic_call; by rewrite E).
  mred. destruct (splice_is_Some (rxbuf s) 0 f) as [b' Eb]; [lia..|].
  change (rxbuf (set_nic n' s)) with (rxbuf s). rewrite Eb. mred.
  rewrite (proj2 (Z.ltb_lt _ _)) by lia.
  enough (Hd : ∀ poll, dispatch poll (zlen f) (set_rxbuf b' (set_nic n' s)) = None).
  { unfold bind. by rewrite Hd. }
  intros poll. pose proof (splice_zlen _ _ _ _ Eb) as Hlb. rewrite Hb in Hlb.
  assert (Hpre : ∀ n o, o + n ≤ zlen f → ld n b' o = ld n f o).
  { intros n o Ho. apply splice_Some in Eb as (_ & _ & ->).
    rewrite take_0, app_nil_l. by apply ld_prefix. }
  set (s1 := set_rxbuf b' (set_nic n' s)). assert (Hs1 : rxbuf s1 = b') by done. clearbody s1.
  unfold dispatch. mred. rewrite Hs1. destruct (get_eth_Some b') as (eth & -> & Het); [lia|]. mred.
  unfold ld16, ld8 in *. rewrite Hpre, Ht in Het by lia. injection Het as <-.
  change (swap16 8 =? ETHERTYPE_ARP) with false. change (swap16 8 =? ETHERTYPE_IPV4) with true. cbv iota.
  rewrite u16_small by lia. unfold ipv4_rx. rewrite (proj2 (Z.ltb_ge _ _)) by lia. mred. rewrite Hs1.
  destruct (get_ipv4_Some b' 14) as (ip & -> & Ev & Ep); [lia..|]. mred. unfold ld8 in *.
  change (14 + 9) with 23 in Ep. rewrite Hpre, Hv in Ev by lia. rewrite Hpre, Hpr in Ep by lia. injection Ev as <-. injection Ep as <-.
  change (negb (Z.shiftr 69 4 =? 4)) with false. change (Z.land 69 15 * 4) with 20. cbv zeta iota.
  rewrite Z.eqb_refl, u16_small by lia. unfold icmp_rx. rewrite (proj2 (Z.ltb_ge _ _)) by lia.
  mred. rewrite Hs1. unfold ld8. change (14 + 20) with 34. rewrite Hpre, Hty by lia. mred.
  change (negb (8 =? 8)) with false. cbv iota.
  destruct (slice_is_Some b' 34 (zlen f - 14 - 20)) as [body ->]; [lia..|]. mred.
  by rewrite (proj2 (Z.ltb_lt _ _)) by lia.
Qed.

(** ARP as the protocol has it never fills the cache: the operation is
    compared with a constant in the wrong byte order. From an empty cache,
    with only such ARP frames to come, [udp_send] returns -1 to every
    destination, and the only frames sent are ARP requests. *)
Theorem udp_send_never_resolves {N} `{Nic N} nic_ok pending sent
    `{!NicLaws N nic_ok pending sent} fuel s dst dport sport data :
  good nic_ok pending s → mute pending s → (length (pending (nic s)) < fuel)%nat →
  ∃ s', udp_send (net_poll fuel) dst dport sport data s = Some (-1, s') ∧ arp_spa s' = 0 ∧
    ∃ l, sent (nic s') = sent (nic s) ++ l ∧ Forall is_arp l.
Proof.
  intros Hg Hm Hk. unfold udp_send. cbv zeta. destruct (1400 <? zlen data).
  { exists s. split; [done|]. split; [apply Hm|]. exists []. by rewrite app_nil_r. }
  set (seg := udp_bytes _ ++ data).
  destruct (ipv4_send_wp nic_ok pending sent (net_poll fuel) fuel) with (s := s) (dst := dst)
    (prot := PROTO_UDP) (seg := seg) as (ok & s' & E & Hs & Hr).
  { intros ? []. by apply net_poll_wp. }
  { by split. }
  rewrite (bind_eq _ _ _ _ _ E), (Hr Hm). exists s'. split; [done|].
  destruct (step_sent _ _ _ _ _ Hs) as (l & El & _ & Hmm). destruct (Hmm Hm) as [Hm' Hl].
  split; [apply Hm'|]. by exists l.
Qed.

(** [tcp_connect] always returns (at most 500000 polls after the
    200000 of the address resolution). It returns 0 only from CLOSED and
    with the connection ESTABLISHED; from any other state, or without a
    card, it returns -1 and changes nothing. *)
Theorem tcp_connect_spec {N} `{Nic N} nic_ok pending sent
    `{!NicLaws N nic_ok pending sent} fuel s ip port :
  good nic_ok pending s → (length (pending (nic s)) < fuel)%nat →
  ∃ rc s', tcp_connect (net_poll fuel) ip port s = Some (rc, s') ∧
    if bool_decide (tcp_st s = TCP_CLOSED) && e1000_present (nic s)
    then (rc = 0 ∧ tcp_st s' = TCP_ESTABLISHED ∨ rc = -1) ∧ good nic_ok pending s' ∧
         (mute pending s → rc = -1) ∧
         ∃ l, sent (nic s') = sent (nic s) ++ l ∧ Forall (sent_frame (local_mac s)) l
    else rc = -1 ∧ s' = s.
Proof.
  intros Hg Hk. set (poll := net_poll fuel).
  assert (Hpoll : ∀ s, few nic_ok pending fuel s → wp poll (λ _ s', step nic_ok pending sent s s') s)
    by (intros ? []; by apply net_poll_wp).
  unfold tcp_connect, get at 1, bind at 1. cbv beta iota.
  destruct (bool_decide (tcp_st s = TCP_CLOSED)) eqn:Est; cbn [negb orb andb].
  2: { by exists (-1), s. }
  destruct (e1000_present (nic s)) eqn:Epr; cbn [negb].
  2: { by exists (-1), s. }
  mred. set (s0 := set_seq 0 1000 (set_rport port s)). unfold get at 1, bind at 1. cbv beta iota.
  edestruct (tcp_checksum_Some s0) as [c Ec]. rewrite Ec. mred. set (s1 := set_st TCP_SYN_SENT s0).
  assert (Hf1 : few nic_ok pending fuel s1).
  { split; [|exact Hk]. destruct Hg. by split. }
  assert (Hm1 : mute pending s → mute pending s1) by (intros Hm; exact Hm).
  edestruct (ipv4_send_wp nic_ok pending sent poll fuel Hpoll s1 ip PROTO_TCP) as (ok & s2 & E & Hs & Hr);
    [done|].
  rewrite (bind_eq _ _ _ _ _ E). destruct (step_sent _ _ _ _ _ Hs) as (l & El & Fl & _).
  destruct ok; cbn [negb].
  2: { exists (-1), s2. split; [done|]. split_and!; [by right|apply Hs|done|]. by exists l. }
  assert (Hnm : ¬ mute pending s) by (intros Hm; discriminate (Hr (Hm1 Hm))).
  destruct (spin_until_wp nic_ok pending sent poll fuel Hpoll (Z.to_nat 500000)
              (λ s, negb (bool_decide (tcp_st s = TCP_SYN_SENT))) s2) as ([] & s3 & E3 & Hs3).
  { by eapply step_few. }
  rewrite (bind_eq _ _ _ _ _ E3). mred. exists (if bool_decide (tcp_st s3 = TCP_ESTABLISHED) then 0 else -1), s3.
  split; [done|]. destruct (step_sent _ _ _ _ _ (step_trans _ _ _ _ _ _ Hs Hs3)) as (l' & El' & Fl' & _).
  split_and!; [|apply Hs3|done|by exists l'].
  destruct (bool_decide (tcp_st s3 = TCP_ESTABLISHED)) eqn:Eb; [left|by right].
  split; [done|]. by apply bool_decide_eq_true in Eb.
Qed.

(** *** Witnesses and examples, on a card with a queue of frames *)

Definition mac_a : list Z := [82; 84; 0; 18; 52; 86].
Definition demo_net (fs : list (list Z)) : net wire := set_mac mac_a (net0 (Wire fs [])).

(** An ARP reply from the gateway as a real host sends it (operation 00 02). *)
Definition arp_reply_frame : list Z :=
  mac_a ++ [82; 85; 10; 0; 2; 2] ++ [8; 6] ++ [0; 1; 8; 0; 6; 4; 0; 2] ++
  [82; 85; 10; 0; 2; 2] ++ [10; 0; 2; 2] ++ mac_a ++ [10; 0; 2; 15].

(** An ICMP echo request with a body of [n] bytes. *)
Definition echo_frame (n : Z) : list Z :=
  mac_a ++ [82; 85; 10; 0; 2; 2] ++ [8; 0] ++ [69; 0; 0; 0; 0; 0; 0; 0; 64; 1; 0; 0] ++
  [10; 0; 2; 2] ++ [10; 0; 2; 15] ++ 8 :: zeros (n - 1).

Lemma echo_bytes n : bytes_ok (echo_frame n).
Proof.
  unfold echo_frame. repeat (apply Forall_app_2; [by apply bytes_dec|]).
  constructor; [done|]. apply Forall_replicate. done.
Qed.
Lemma demo_good fs : Forall safe_frame fs → good (λ _, True) incoming (demo_net fs).
Proof. intros Hf. split; try done. split; [done|]. apply Forall_replicate. done. Qed.
Lemma arp_reply_safe : safe_frame arp_reply_frame.
Proof. split_and!; [by apply bytes_dec|done|done]. Qed.
Lemma echo_safe n : 1 ≤ n ≤ 1480 → safe_frame (echo_frame n).
Proof.
  intros Hn. split_and!; [apply echo_bytes| |].
  - unfold echo_frame. rewrite !zlen_app, (zlen_cons 8 (zeros (n - 1))).
    replace (zlen (zeros (n - 1))) with (n - 1) by (unfold zeros; rewrite zlen_replicate; lia).
    change (6 + (6 + (2 + (12 + (4 + (4 + (1 + (n - 1))))))) ≤ 1514). lia.
  - intros H34 _ v Hv. change (echo_frame n) with (take 35 (echo_frame 1) ++ zeros (n - 1)) in Hv.
    unfold ld8 in Hv. rewrite ld_prefix in Hv by done. injection Hv as <-. exact H34.
Qed.

Lemma net_poll_safe_witness :
  ∃ s', net_poll 3 (demo_net [echo_frame 64; arp_reply_frame]) = Some (tt, s') ∧
        step (λ _, True) incoming outgoing (demo_net [echo_frame 64; arp_reply_frame]) s'.
Proof.
  apply (net_poll_safe (λ _, True) incoming outgoing 3).
  - apply demo_good. constructor; [apply echo_safe; lia|constructor; [apply arp_reply_safe|constructor]].
  - apply Nat.lt_succ_diag_r.
Defined.

Lemma inet_csum_spec_witness :
  ∃ c, inet_csum ([8; 0] ++ [0; 0] ++ [1; 2; 3]) [] = Some c ∧ 0 ≤ c < 65536 ∧
    c = 65535 - residue (2048 + (258 + 0) + 768) ∧
    inet_csum ([8; 0] ++ [u8 (Z.shiftr c 8); u8 c] ++ [1; 2; 3]) [] = Some 0.
Proof.
  apply (inet_csum_spec [8; 0] [1; 2; 3]);
    [by apply bytes_dec|by apply bytes_dec|done|by exists 1%nat].
Defined.

Lemma net_poll_icmp_overflow_witness :
  net_poll 5 (demo_net [echo_frame 1501]) = None.
Proof.
  apply (net_poll_icmp_overflow (λ _, True) incoming outgoing 5 _ (echo_frame 1501) []);
    [done|reflexivity|reflexivity|apply echo_bytes|vm_compute; by split|reflexivity..].
Defined.

Lemma demo_mute fs : Forall arp_wire fs → mute incoming (demo_net fs).
Proof. intros Hf. by split_and!. Qed.

Lemma udp_send_never_resolves_witness :
  ∃ s', udp_send (net_poll 2) 33554954 53 4000 [1; 2; 3] (demo_net [arp_reply_frame]) = Some (-1, s') ∧
    arp_spa s' = 0 ∧ ∃ l, outgoing (nic s') = [] ++ l ∧ Forall is_arp l.
Proof.
  apply (udp_send_never_resolves (λ _, True) incoming outgoing 2 (demo_net [arp_reply_frame])).
  - apply demo_good. constructor; [apply arp_reply_safe|constructor].
  - apply demo_mute. by repeat constructor.
  - apply Nat.lt_succ_diag_r.
Defined.

Lemma tcp_connect_spec_witness :
  ∃ rc s', tcp_connect (net_poll 2) 33554954 80 (demo_net [arp_reply_frame]) = Some (rc, s') ∧
    (rc = 0 ∧ tcp_st s' = TCP_ESTABLISHED ∨ rc = -1) ∧ good (λ _, True) incoming s'.
Proof.
  destruct (tcp_connect_spec (λ _, True) incoming outgoing 2 (demo_net [arp_reply_frame]) 33554954 80)
    as (rc & s' & E & Hr & Hg & _).
  - apply demo_good. constructor; [apply arp_reply_safe|constructor].
  - apply Nat.lt_succ_diag_r.
  - exists rc, s'. split_and!; [exact E|exact Hr|exact Hg].
Defined.

(** The checksum field of an outgoing IPv4 header is stored in the wrong
    byte order: the header of a UDP datagram to the gateway does not check. *)
Example ip_header_fails_check :
  let ip := ip_header (demo_net []) 33554954 PROTO_UDP 12 in
  (c ← inet_csum (ipv4_bytes ip) []; inet_csum (ipv4_bytes (with_csum c ip)) []) ≠ Some 0.
Proof. vm_compute. discriminate. Qed.

(** The window of every segment is 0: 4096 is masked with 0xFF before its
    bytes are swapped. *)
Example tcp_segment_window : t_win (segment 0 0 0 0 TCP_SYN) = 0.
Proof. reflexivity. Qed.
