(* ===== verification/Pmm.v ===== *)
(** * arch/x86/pmm.c, arch/x86_64/pmm.c: the physical page allocators

    The two files are one bitmap allocator at two word widths; [arch] holds
    what differs. Physical memory, which only [pmm_init] reads (the boot
    loader's tables), is a byte list from address 0. *)
From stdpp Require Import relations.
From S2P Require Import Prelude.
Open Scope c_scope.

Definition FRAME_SIZE : Z := 4096.

(** Bits of a bitmap word, which is also the width of an address, and the
    number of frames. *)
Record arch := Arch { wbits : Z; max_frames : Z }.
Definition x86 : arch := Arch 32 131072.
Definition x86_64 : arch := Arch 64 (512 * 1024).

Record pmm := Pmm { bitmap : list Z; highest_frame : Z }.

(** ** The operations, for both widths *)
Module Frames.
Section ops.
Context (A : arch).

(** Arithmetic on addresses. *)
Definition uw (z : Z) : Z := z mod 2 ^ wbits A.

Definition bitmap_set (f : Z) : M pmm unit := λ s,
  w ← bitmap s !! Z.to_nat (f / wbits A);
  let w := Z.lor w (uw (Z.shiftl 1 (f mod wbits A))) in
  Some (tt, Pmm (<[Z.to_nat (f / wbits A) := w]> (bitmap s)) (highest_frame s)).

Definition bitmap_clear (f : Z) : M pmm unit := λ s,
  w ← bitmap s !! Z.to_nat (f / wbits A);
  let w := Z.land w (uw (Z.lnot (uw (Z.shiftl 1 (f mod wbits A))))) in
  Some (tt, Pmm (<[Z.to_nat (f / wbits A) := w]> (bitmap s)) (highest_frame s)).

Definition bitmap_test (f : Z) : M pmm bool := λ s,
  w ← bitmap s !! Z.to_nat (f / wbits A);
  Some (truthy (Z.land (Z.shiftr w (f mod wbits A)) 1), s).

Definition reserve_range (phys_start phys_end : Z) : M pmm unit :=
  let first := phys_start / FRAME_SIZE in
  let last := uw (phys_end + FRAME_SIZE - 1) / FRAME_SIZE in
  let last := if max_frames A <? last then max_frames A else last in
  let* _ := for_ first (Z.to_nat (last - first)) (λ f, bitmap_set f ;; ret (@None unit)) in
  ret tt.

Definition free_range (phys_start phys_end : Z) : M pmm unit :=
  let first := phys_start / FRAME_SIZE in
  let last := phys_end / FRAME_SIZE in
  let last := if max_frames A <? last then max_frames A else last in
  let* _ := for_ first (Z.to_nat (last - first)) (λ f,
    bitmap_clear f ;;
    modify (λ s, if highest_frame s <? f then Pmm (bitmap s) f else s) ;;
    ret (@None unit)) in
  ret tt.

Definition pmm_reserve (phys_start phys_end : Z) : M pmm unit := reserve_range phys_start phys_end.

(** The address of the frame; 0 when there is none. *)
Definition pmm_alloc_frame : M pmm Z :=
  let* top := gets highest_frame in
  let* r := for_ 0 (Z.to_nat (top + 1)) (λ f,
    let* used := bitmap_test f in
    if negb used then bitmap_set f ;; ret (Some (uw (f * FRAME_SIZE))) else ret None) in
  ret (default 0 r).

Definition pmm_free_frame (phys_addr : Z) : M pmm unit := bitmap_clear (phys_addr / FRAME_SIZE).

(** [for (i = 0; i < BITMAP_WORDS; i++) bitmap[i] = ~0]. *)
Definition pmm_fill : M pmm unit :=
  modify (λ s, Pmm (replicate (Z.to_nat (max_frames A / wbits A)) (2 ^ wbits A - 1)) (highest_frame s)).

(** Low memory and the kernel image are never handed out. *)
Definition pmm_reserve_kernel (kernel_end : Z) : M pmm unit :=
  reserve_range 0 (1024 * 1024) ;;
  reserve_range (1024 * 1024) kernel_end.
End ops.
End Frames.
Import Frames.

(** ** arch/x86/pmm.c *)
Module X86.
Definition bitmap_set := Frames.bitmap_set x86.
Definition bitmap_clear := Frames.bitmap_clear x86.
Definition bitmap_test := Frames.bitmap_test x86.
Definition reserve_range := Frames.reserve_range x86.
Definition free_range := Frames.free_range x86.
Definition pmm_reserve := Frames.pmm_reserve x86.
Definition pmm_alloc_frame := Frames.pmm_alloc_frame x86.
Definition pmm_free_frame := Frames.pmm_free_frame x86.

Definition MB_FLAG_MEM : Z := 1.
Definition MB_FLAG_MMAP : Z := 64.
Definition MB_MMAP_AVAILABLE : Z := 1.

(** Offsets in multiboot_info_t and multiboot_mmap_entry_t. *)
Definition mbi_flags : Z := 0.
Definition mbi_mem_lower : Z := 4.
Definition mbi_mem_upper : Z := 8.
Definition mbi_mmap_length : Z := 44.
Definition mbi_mmap_addr : Z := 48.
Definition mm_size : Z := 0.
Definition mm_addr_low : Z := 4.
Definition mm_addr_high : Z := 8.
Definition mm_len_low : Z := 12.
Definition mm_type : Z := 20.

(** [while (off < end)]; the sum of the usable kilobytes. *)
Fixpoint mmap_loop (fuel : nat) (mem : list Z) (off end_ usable_kb : Z) : M pmm Z :=
  match fuel with
  | O => fault
  | S fuel =>
      if end_ <=? off then ret usable_kb
      else
        let* type := lift (ld32 mem (off + mm_type)) in
        let* addr_high := lift (ld32 mem (off + mm_addr_high)) in
        let* usable_kb :=
          if (type =? MB_MMAP_AVAILABLE) && (addr_high =? 0) then
            let* start := lift (ld32 mem (off + mm_addr_low)) in
            let* len := lift (ld32 mem (off + mm_len_low)) in
            free_range start (u32 (start + len)) ;;
            ret (u32 (usable_kb + len / 1024))
          else ret usable_kb in
        let* size := lift (ld32 mem (off + mm_size)) in
        mmap_loop fuel mem (u32 (off + u32 (size + 4))) end_ usable_kb
  end.

Definition pmm_init (fuel : nat) (mem : list Z) (mbi kernel_end : Z) : M pmm Z :=
  pmm_fill x86 ;;
  let* flags := lift (ld32 mem (mbi + mbi_flags)) in
  let* usable_kb :=
    if has flags MB_FLAG_MMAP then
      let* addr := lift (ld32 mem (mbi + mbi_mmap_addr)) in
      let* length := lift (ld32 mem (mbi + mbi_mmap_length)) in
      mmap_loop fuel mem addr (u32 (addr + length)) 0
    else if has flags MB_FLAG_MEM then
      let* lower := lift (ld32 mem (mbi + mbi_mem_lower)) in
      let* upper := lift (ld32 mem (mbi + mbi_mem_upper)) in
      free_range 0 (u32 (lower * 1024)) ;;
      free_range (1024 * 1024) (u32 (1024 * 1024 + u32 (upper * 1024))) ;;
      ret (u32 (lower + upper))
    else ret 0 in
  pmm_reserve_kernel x86 kernel_end ;;
  ret usable_kb.
End X86.

(** ** arch/x86_64/pmm.c *)
Module X86_64.
Definition bitmap_set := Frames.bitmap_set x86_64.
Definition bitmap_clear := Frames.bitmap_clear x86_64.
Definition bitmap_test := Frames.bitmap_test x86_64.
Definition reserve_range := Frames.reserve_range x86_64.
Definition free_range := Frames.free_range x86_64.
Definition pmm_reserve := Frames.pmm_reserve x86_64.
Definition pmm_alloc_frame := Frames.pmm_alloc_frame x86_64.
Definition pmm_free_frame := Frames.pmm_free_frame x86_64.

Definition MB2_TAG_END : Z := 0.
Definition MB2_TAG_MMAP : Z := 6.
Definition MB2_MMAP_AVAILABLE : Z := 1.

(** Offsets in mb2_tag_t, mb2_mmap_tag_t and mb2_mmap_entry_t. *)
Definition tag_type : Z := 0.
Definition tag_size : Z := 4.
Definition mt_entry_size : Z := 8.
Definition mt_entries : Z := 16.
Definition me_base_addr : Z := 0.
Definition me_length : Z := 8.
Definition me_type : Z := 16.

(** [while (e < end)] over the entries of a memory map tag. *)
Fixpoint entry_loop (fuel : nat) (mem : list Z) (m e end_ usable_kb : Z) : M pmm Z :=
  match fuel with
  | O => fault
  | S fuel =>
      if end_ <=? e then ret usable_kb
      else
        let* type := lift (ld32 mem (e + me_type)) in
        let* usable_kb :=
          if type =? MB2_MMAP_AVAILABLE then
            let* base := lift (ld64 mem (e + me_base_addr)) in
            let* length := lift (ld64 mem (e + me_length)) in
            free_range base (u64 (base + length)) ;;
            ret (u64 (usable_kb + length / 1024))
          else ret usable_kb in
        let* entry_size := lift (ld32 mem (m + mt_entry_size)) in
        entry_loop fuel mem m (u64 (e + entry_size)) end_ usable_kb
  end.

(** [while (tag->type != MB2_TAG_END)]. *)
Fixpoint tag_loop (fuel : nat) (mem : list Z) (tag usable_kb : Z) : M pmm Z :=
  match fuel with
  | O => fault
  | S fuel' =>
      let* type := lift (ld32 mem (tag + tag_type)) in
      if type =? MB2_TAG_END then ret usable_kb
      else
        let* size := lift (ld32 mem (tag + tag_size)) in
        let* usable_kb :=
          if type =? MB2_TAG_MMAP
          then entry_loop fuel mem tag (tag + mt_entries) (u64 (tag + size)) usable_kb
          else ret usable_kb in
        tag_loop fuel' mem (Z.land (u64 (tag + size + 7)) (u64 (Z.lnot 7))) usable_kb
  end.

Definition pmm_init (fuel : nat) (mem : list Z) (mbi kernel_end : Z) : M pmm Z :=
  pmm_fill x86_64 ;;
  let* usable_kb := tag_loop fuel mem (mbi + 8) 0 in
  pmm_reserve_kernel x86_64 kernel_end ;;
  ret usable_kb.
End X86_64.

(** ** Frames *)
Section frames.
Context (A : arch).

(** The widths of the two architectures. *)
Record arch_ok : Prop := {
  ao_bits : 0 < wbits A;
  ao_frames : 0 < max_frames A;
  ao_div : max_frames A mod wbits A = 0;
  ao_addr : max_frames A * FRAME_SIZE < 2 ^ wbits A;
}.
Context (HA : arch_ok).

Record pmm_ok (s : pmm) : Prop := {
  po_len : zlen (bitmap s) = max_frames A / wbits A;
  po_top : 0 ≤ highest_frame s < max_frames A;
}.

(** Frame [f] is free: its bit is clear. *)
Definition free (s : pmm) (f : Z) : bool :=
  match bitmap s !! Z.to_nat (f / wbits A) with
  | Some w => negb (Z.testbit w (f mod wbits A))
  | None => false
  end.

(** The same set of free frames, up to [upd]. *)
Definition updates (s s' : pmm) (upd : Z → bool → bool) : Prop :=
  ∀ g, 0 ≤ g < max_frames A → free s' g = upd g (free s g).

Lemma word_of s f : pmm_ok s → 0 ≤ f < max_frames A → is_Some (bitmap s !! Z.to_nat (f / wbits A)).
Proof.
  intros [Hl _] Hf. destruct HA as [Hb Hm Hd _]. apply lookup_lt_is_Some_2.
  assert (0 ≤ f / wbits A < max_frames A / wbits A); [|unfold zlen in Hl; lia].
  split; [apply Z.div_pos; lia|]. apply Z.div_lt_upper_bound; [lia|].
  pose proof (Z.div_exact (max_frames A) (wbits A)) as He. lia.
Qed.

Lemma same_word f g : 0 ≤ f → 0 ≤ g → Z.to_nat (f / wbits A) = Z.to_nat (g / wbits A) →
  f mod wbits A = g mod wbits A → f = g.
Proof.
  intros Hf Hg Hd Hm. destruct HA as [Hb _ _ _].
  pose proof (Z.div_pos f (wbits A)). pose proof (Z.div_pos g (wbits A)).
  rewrite (Z.div_mod f (wbits A)), (Z.div_mod g (wbits A)), Hm by lia. f_equal. f_equal. lia.
Qed.

(** The bit of frame [f] in its word. *)
Lemma mask_bit f j : 0 ≤ f → 0 ≤ j < wbits A →
  Z.testbit (uw A (Z.shiftl 1 (f mod wbits A))) j = (j =? f mod wbits A).
Proof.
  intros Hf Hj. destruct HA as [Hb _ _ _]. pose proof (Z.mod_pos_bound f (wbits A) Hb).
  unfold uw. rewrite Z.mod_pow2_bits_low by lia. rewrite Z.shiftl_1_l, Z.pow2_bits_eqb by lia.
  apply Z.eqb_sym.
Qed.

(** Replacing the word of [f] by one that differs in the bit of [f] alone. *)
Lemma bit_update s f w w' (upd : bool → bool) :
  pmm_ok s → 0 ≤ f < max_frames A → bitmap s !! Z.to_nat (f / wbits A) = Some w →
  (∀ j, 0 ≤ j < wbits A → Z.testbit w' j = if j =? f mod wbits A then negb (upd (negb (Z.testbit w j))) else Z.testbit w j) →
  let s' := Pmm (<[Z.to_nat (f / wbits A) := w']> (bitmap s)) (highest_frame s) in
  pmm_ok s' ∧ updates s s' (λ g b, if g =? f then upd b else b).
Proof.
  intros Hs Hf Hw Hbits s'. pose proof (lookup_lt_Some _ _ _ Hw). split.
  { destruct Hs. split; [|done]. cbn [bitmap s']. unfold zlen in *. by rewrite length_insert. }
  intros g Hg. unfold free, s'. cbn [bitmap]. destruct HA as [Hb _ _ _].
  pose proof (Z.mod_pos_bound g (wbits A) Hb) as Hmod.
  destruct (decide (Z.to_nat (g / wbits A) = Z.to_nat (f / wbits A))) as [E|E].
  - rewrite E, list_lookup_insert_eq, Hw by done. rewrite Hbits by done.
    destruct (Z.eqb_spec g f) as [->|Hne]; [rewrite Z.eqb_refl; by rewrite negb_involutive|].
    destruct (Z.eqb_spec (g mod wbits A) (f mod wbits A)); [|done].
    destruct Hne. apply same_word; [lia|lia|done|done].
  - rewrite list_lookup_insert_ne by done. destruct (Z.eqb_spec g f) as [->|]; done.
Qed.

Lemma set_wp s f (Q : unit → pmm → Prop) : pmm_ok s → 0 ≤ f < max_frames A →
  (∀ s', pmm_ok s' → highest_frame s' = highest_frame s →
     updates s s' (λ g b, if g =? f then false else b) → Q tt s') →
  wp (bitmap_set A f) Q s.
Proof.
  intros Hs Hf HQ. destruct (word_of s f Hs Hf) as [w Hw]. unfold wp, bitmap_set. rewrite Hw.
  eexists _, _. split; [reflexivity|]. cbv zeta.
  destruct (bit_update s f w (Z.lor w (uw A (Z.shiftl 1 (f mod wbits A)))) (λ _, false) Hs Hf Hw) as [Hs' Hu];
    [|by apply HQ].
  intros j Hj. cbv beta. rewrite Z.lor_spec, mask_bit by lia. cbn [negb].
  destruct (j =? f mod wbits A); [by rewrite orb_true_r|by rewrite orb_false_r].
Qed.

Lemma clear_wp s f (Q : unit → pmm → Prop) : pmm_ok s → 0 ≤ f < max_frames A →
  (∀ s', pmm_ok s' → highest_frame s' = highest_frame s →
     updates s s' (λ g b, if g =? f then true else b) → Q tt s') →
  wp (bitmap_clear A f) Q s.
Proof.
  intros Hs Hf HQ. destruct (word_of s f Hs Hf) as [w Hw]. unfold wp, bitmap_clear. rewrite Hw.
  eexists _, _. split; [reflexivity|]. cbv zeta.
  destruct (bit_update s f w (Z.land w (uw A (Z.lnot (uw A (Z.shiftl 1 (f mod wbits A)))))) (λ _, true) Hs Hf Hw)
    as [Hs' Hu]; [|by apply HQ].
  intros j Hj. cbv beta. rewrite Z.land_spec. unfold uw at 1. rewrite Z.mod_pow2_bits_low by lia.
  rewrite Z.lnot_spec, mask_bit by lia. cbn [negb].
  destruct (j =? f mod wbits A); [by rewrite andb_false_r|by rewrite andb_true_r].
Qed.

Lemma test_wp s f : pmm_ok s → 0 ≤ f < max_frames A → bitmap_test A f s = Some (negb (free s f), s).
Proof.
  intros Hs Hf. destruct (word_of s f Hs Hf) as [w Hw]. unfold bitmap_test, free. rewrite Hw.
  cbn [mbind option_bind]. rewrite negb_involutive. do 2 f_equal.
  destruct HA as [Hb _ _ _]. pose proof (Z.mod_pos_bound f (wbits A) Hb).
  change 1 with (Z.ones 1). rewrite Z.land_ones by lia. change (2 ^ 1) with 2.
  rewrite Z.shiftr_div_pow2, <- Z.testbit_spec' by lia. by destruct (Z.testbit _ _).
Qed.

(** Ranges. *)
Lemma reserve_wp s lo hi (Q : unit → pmm → Prop) : pmm_ok s → 0 ≤ lo → 0 ≤ hi → hi + FRAME_SIZE ≤ 2 ^ wbits A →
  (∀ s', pmm_ok s' → highest_frame s' = highest_frame s →
     updates s s' (λ g b, b && negb ((lo / FRAME_SIZE <=? g) && (g <? (hi + FRAME_SIZE - 1) / FRAME_SIZE))) → Q tt s') →
  wp (reserve_range A lo hi) Q s.
Proof.
  intros Hs Hlo Hhi Hw HQ. unfold reserve_range.
  assert (E : uw A (hi + FRAME_SIZE - 1) = hi + FRAME_SIZE - 1) by (apply Z.mod_small; unfold FRAME_SIZE in *; lia).
  rewrite E. set (first := lo / FRAME_SIZE). set (l := (hi + FRAME_SIZE - 1) / FRAME_SIZE).
  assert (0 ≤ first) by (apply Z.div_pos; [done|unfold FRAME_SIZE; lia]).
  set (last := if max_frames A <? l then max_frames A else l).
  assert (Hlast : last ≤ max_frames A ∧ ∀ g, g < max_frames A → (g <? last) = (g <? l)).
  { unfold last. destruct (Z.ltb_spec (max_frames A) l); split; try done.
    intros g Hg. rewrite !(proj2 (Z.ltb_lt _ _)) by lia. done. }
  destruct Hlast as [Hmax Hcmp].
  apply (wp_call _ _ (λ _ s', pmm_ok s' ∧ highest_frame s' = highest_frame s ∧
    updates s s' (λ g b, b && negb ((first <=? g) && (g <? Z.max first last))))).
  - apply (wp_for (λ j s', pmm_ok s' ∧ highest_frame s' = highest_frame s ∧
      updates s s' (λ g b, b && negb ((first <=? g) && (g <? j))))).
    + split; [done|]. split; [done|]. intros g Hg.
      replace ((first <=? g) && (g <? first)) with false; [by rewrite andb_true_r|].
      symmetry. apply andb_false_iff. destruct (Z.leb_spec first g); [right; apply Z.ltb_ge; lia|by left].
    + intros s'. by replace (first + Z.of_nat (Z.to_nat (last - first))) with (Z.max first last) by lia.
    + intros j s' Hj (Hs' & Hh & Hu). apply wp_bind. apply set_wp; [done|lia|].
      intros s2 Hs2 Hh2 Hu2. apply wp_ret. split; [done|]. split; [congruence|].
      intros g Hg. rewrite Hu2, Hu by done. destruct (Z.eqb_spec g j) as [->|Hne].
      * rewrite (proj2 (Z.leb_le first j)), (proj2 (Z.ltb_lt j (j + 1))) by lia. by rewrite andb_false_r.
      * f_equal. f_equal. f_equal. destruct (Z.ltb_spec g j), (Z.ltb_spec g (j + 1)); lia.
  - intros _ s' (Hs' & Hh & Hu). apply wp_ret. apply HQ; [done|done|]. intros g Hg. rewrite Hu by done.
    rewrite <- Hcmp by lia. f_equal. f_equal.
    fold first. destruct (Z.leb_spec first g); [|done]. cbn [andb].
    destruct (Z.ltb_spec g (Z.max first last)), (Z.ltb_spec g last); lia.
Qed.

Lemma free_range_wp s lo hi (Q : unit → pmm → Prop) : pmm_ok s → 0 ≤ lo →
  (∀ s', pmm_ok s' → highest_frame s ≤ highest_frame s' →
     (∀ g, lo / FRAME_SIZE ≤ g < hi / FRAME_SIZE → g < max_frames A → g ≤ highest_frame s') →
     updates s s' (λ g b, b || ((lo / FRAME_SIZE <=? g) && (g <? hi / FRAME_SIZE))) → Q tt s') →
  wp (free_range A lo hi) Q s.
Proof.
  intros Hs Hlo HQ. unfold free_range. set (first := lo / FRAME_SIZE). set (l := hi / FRAME_SIZE).
  assert (0 ≤ first) by (apply Z.div_pos; [done|unfold FRAME_SIZE; lia]).
  set (last := if max_frames A <? l then max_frames A else l).
  assert (Hlast : last ≤ max_frames A ∧ ∀ g, g < max_frames A → (g <? last) = (g <? l)).
  { unfold last. destruct (Z.ltb_spec (max_frames A) l); split; try done.
    intros g Hg. rewrite !(proj2 (Z.ltb_lt _ _)) by lia. done. }
  destruct Hlast as [Hmax Hcmp].
  set (I := λ j s', pmm_ok s' ∧ highest_frame s ≤ highest_frame s' ∧ (∀ g, first ≤ g < j → g ≤ highest_frame s') ∧
      updates s s' (λ g b, b || ((first <=? g) && (g <? j)))).
  apply (wp_call _ _ (λ _ s', I (Z.max first last) s')).
  - apply (wp_for I).
    + split; [done|]. split; [done|]. split; [lia|]. intros g Hg.
      replace ((first <=? g) && (g <? first)) with false; [by rewrite orb_false_r|].
      symmetry. apply andb_false_iff. destruct (Z.leb_spec first g); [right; apply Z.ltb_ge; lia|by left].
    + intros s'. by replace (first + Z.of_nat (Z.to_nat (last - first))) with (Z.max first last) by lia.
    + intros j s' Hj (Hs' & Hh & Htop & Hu). apply wp_bind. apply clear_wp; [done|lia|].
      intros s2 Hs2 Hh2 Hu2. apply wp_bind, wp_modify, wp_ret.
      assert (Hu3 : updates s s2 (λ g b, b || ((first <=? g) && (g <? j + 1)))).
      { intros g Hg. rewrite Hu2, Hu by done. destruct (Z.eqb_spec g j) as [->|Hne].
        - rewrite (proj2 (Z.leb_le first j)), (proj2 (Z.ltb_lt j (j + 1))) by lia. by rewrite orb_true_r.
        - f_equal. f_equal. destruct (Z.ltb_spec g j), (Z.ltb_spec g (j + 1)); lia. }
      destruct (Z.ltb_spec (highest_frame s2) j); unfold I; cbn [highest_frame].
      * split; [split; [apply Hs2|cbn [highest_frame]; lia]|]. split; [lia|]. split; [lia|]. exact Hu3.
      * split; [done|]. split; [lia|]. split; [|done]. intros g Hg.
        destruct (decide (g = j)) as [->|]; [done|]. rewrite Hh2. apply Htop. lia.
  - intros _ s' (Hs' & Hh & Htop & Hu). apply wp_ret. apply HQ; [done|done| |].
    + intros g Hg Hg'. apply Htop. pose proof (Hcmp g Hg') as Hc.
      rewrite (proj2 (Z.ltb_lt g l)) in Hc by lia. apply Z.ltb_lt in Hc. lia.
    + intros g Hg. rewrite Hu by done. rewrite <- Hcmp by lia. f_equal.
      fold first. destruct (Z.leb_spec first g); [|done]. cbn [andb].
      destruct (Z.ltb_spec g (Z.max first last)), (Z.ltb_spec g last); lia.
Qed.

(** Allocation takes the lowest free frame. *)
Definition took (s s' : pmm) (f : Z) : Prop :=
  pmm_ok s' ∧ highest_frame s' = highest_frame s ∧ updates s s' (λ g b, if g =? f then false else b).

Lemma alloc_wp s : pmm_ok s →
  wp (pmm_alloc_frame A) (λ r s',
    (∃ f, 0 ≤ f ≤ highest_frame s ∧ free s f = true ∧ (∀ g, 0 ≤ g < f → free s g = false) ∧
       r = f * FRAME_SIZE ∧ took s s' f) ∨
    (r = 0 ∧ s' = s ∧ ∀ g, 0 ≤ g ≤ highest_frame s → free s g = false)) s.
Proof.
  intros Hs. pose proof (po_top _ Hs) as Htop. unfold pmm_alloc_frame. wp_pure.
  apply (wp_call _ _ (λ r s',
    match r with
    | Some a => ∃ f, 0 ≤ f ≤ highest_frame s ∧ free s f = true ∧ (∀ g, 0 ≤ g < f → free s g = false) ∧
                  a = f * FRAME_SIZE ∧ took s s' f
    | None => s' = s ∧ ∀ g, 0 ≤ g ≤ highest_frame s → free s g = false
    end)).
  - apply (wp_for (λ j s', s' = s ∧ ∀ g, 0 ≤ g < j → free s g = false)).
    + split; [done|lia].
    + intros s' [-> Hg]. split; [done|]. intros g Hg'. apply Hg. lia.
    + intros j s' Hj [-> Hg]. apply wp_bind. exists (negb (free s j)), s. split; [apply test_wp; [done|lia]|].
      rewrite negb_involutive. destruct (free s j) eqn:Ej.
      * apply wp_bind, set_wp; [done|lia|]. intros s' Hs' Hh Hu. apply wp_ret. exists j.
        split; [lia|]. split; [done|]. split; [done|]. split; [|done].
        destruct HA as [_ _ _ Ha]. apply Z.mod_small. unfold FRAME_SIZE in *. nia.
      * apply wp_ret. split; [done|]. intros g Hg'. destruct (decide (g = j)) as [->|]; [done|]. apply Hg. lia.
  - intros [a|] s' Hr; apply wp_ret; simpl; [by left|right]. by split.
Qed.

Lemma free_range_bound s f : free s f = true → pmm_ok s → 0 ≤ f → f < max_frames A.
Proof.
  intros Hf Hs H0. destruct (Z.ltb_spec f (max_frames A)); [done|].
  unfold free in Hf. destruct (bitmap s !! Z.to_nat (f / wbits A)) eqn:E; [|done].
  apply lookup_lt_Some in E. pose proof (po_len _ Hs) as Hl. unfold zlen in Hl.
  destruct HA as [Hb _ _ _]. pose proof (Z.div_le_mono (max_frames A) f (wbits A) Hb). lia.
Qed.

(** *** Handing frames out and back

    [live] are the addresses handed out. *)
Inductive step : pmm * list Z → pmm * list Z → Prop :=
  | step_alloc s s' a live :
      pmm_alloc_frame A s = Some (a, s') → a ≠ 0 → step (s, live) (s', a :: live)
  | step_none s s' live : pmm_alloc_frame A s = Some (0, s') → step (s, live) (s', live)
  | step_free s s' a live :
      a ∈ live → pmm_free_frame A a s = Some (tt, s') → step (s, live) (s', base.filter (λ b, b ≠ a) live).

(** A state as [pmm_init] leaves it: the free frames are below the highest
    one, and the frame at address 0 is not among them. *)
Definition fresh (s : pmm) : Prop :=
  pmm_ok s ∧ free s 0 = false ∧ ∀ f, 0 ≤ f < max_frames A → free s f = true → f ≤ highest_frame s.

Record inv (s0 s : pmm) (live : list Z) : Prop := {
  i_ok : pmm_ok s;
  i_top : highest_frame s = highest_frame s0;
  i_nodup : NoDup live;
  i_live : ∀ a, a ∈ live → ∃ f, a = f * FRAME_SIZE ∧ 0 ≤ f < max_frames A ∧ free s0 f = true;
  i_free : updates s0 s (λ g b, b && negb (bool_decide (g * FRAME_SIZE ∈ live)));
}.

Lemma inv_start s : fresh s → inv s s [].
Proof.
  intros (Hok & _). split; try done; [apply NoDup_nil_2|by intros ? ?%not_elem_of_nil|].
  intros g Hg. by rewrite bool_decide_eq_false_2, andb_true_r by apply not_elem_of_nil.
Qed.

Lemma inv_alloc s0 s live a s' : fresh s0 → inv s0 s live → pmm_alloc_frame A s = Some (a, s') →
  (a = 0 ∧ s' = s ∧ ∀ f, 0 ≤ f < max_frames A → free s f = false) ∨
  (a ≠ 0 ∧ (a ∉ live) ∧ inv s0 s' (a :: live)).
Proof.
  intros (_ & H0 & Htop0) [Hok Htop Hnd Hlive Hfree] E.
  destruct (alloc_wp s Hok) as (r & s2 & E2 & Hr). rewrite E in E2. injection E2 as <- <-.
  assert (Htop' : ∀ f, 0 ≤ f < max_frames A → free s f = true → free s0 f = true ∧ (f * FRAME_SIZE ∉ live) ∧ f ≤ highest_frame s).
  { intros f Hf Ef. rewrite (Hfree f Hf) in Ef. apply andb_true_iff in Ef as [Ef Em].
    split; [done|]. split; [by apply negb_true_iff, bool_decide_eq_false in Em|]. rewrite Htop. by apply Htop0. }
  pose proof (po_top _ Hok) as Hb. destruct Hr as [(f & Hf & Ef & _ & -> & Hok' & Hh' & Hu')|(-> & -> & Hnone)].
  - right. destruct (Htop' f) as (Ef0 & Hni & _); [lia|done|]. split.
    { intros E0. assert (f = 0) as -> by (unfold FRAME_SIZE in E0; lia). congruence. }
    split; [done|]. split; [done|congruence|by apply list.NoDup_cons|..].
    + intros a [->|Ha]%elem_of_cons; [exists f; split; [done|split; [lia|done]]|by apply Hlive].
    + intros g Hg. rewrite Hu', Hfree by done. destruct (Z.eqb_spec g f) as [->|Hne].
      * rewrite bool_decide_eq_true_2 by apply list_elem_of_here. by rewrite andb_false_r.
      * f_equal. f_equal. apply bool_decide_ext. rewrite elem_of_cons. split; [by right|].
        intros [E0|]; [|done]. destruct Hne. unfold FRAME_SIZE in E0. lia.
  - left. split; [done|]. split; [done|]. intros f Hf. destruct (free s f) eqn:Ef; [|done].
    destruct (Htop' f Hf Ef) as (_ & _ & ?). rewrite Hnone in Ef by lia. done.
Qed.

Lemma inv_free s0 s live a : inv s0 s live → a ∈ live →
  wp (pmm_free_frame A a) (λ _ s', inv s0 s' (base.filter (λ b, b ≠ a) live)) s.
Proof.
  intros [Hok Htop Hnd Hlive Hfree] Ha. destruct (Hlive a Ha) as (f & -> & Hf & Ef).
  unfold pmm_free_frame. rewrite Z.div_mul by (unfold FRAME_SIZE; lia). apply clear_wp; [done..|].
  intros s' Hok' Hh' Hu'. split; [done|congruence|by apply list.NoDup_filter|..].
  - intros b [_ Hb]%list_elem_of_filter. by apply Hlive.
  - intros g Hg. rewrite Hu', Hfree by done. destruct (Z.eqb_spec g f) as [->|Hne].
    + rewrite Ef, bool_decide_eq_false_2; [done|]. by intros [? _]%list_elem_of_filter.
    + f_equal. f_equal. apply bool_decide_ext. rewrite list_elem_of_filter. split; [|by intros [_ ?]].
      intros Hin. split; [|done]. intros E0. destruct Hne. unfold FRAME_SIZE in E0. lia.
Qed.

Lemma inv_step s0 x y : fresh s0 → step x y → inv s0 (fst x) (snd x) → inv s0 (fst y) (snd y).
Proof.
  intros H0 [s s' a live E Ha|s s' live E|s s' a live Ha E] Hi; cbn [fst snd] in *.
  - destruct (inv_alloc s0 s live a s' H0 Hi E) as [[-> _]|(_ & _ & ?)]; done.
  - destruct (inv_alloc s0 s live 0 s' H0 Hi E) as [(_ & -> & _)|(? & _)]; done.
  - destruct (inv_free s0 s live a Hi Ha) as (u & s2 & E2 & ?). rewrite E in E2. by injection E2 as _ <-.
Qed.

Lemma inv_steps s0 x y : fresh s0 → rtc step x y → inv s0 (fst x) (snd x) → inv s0 (fst y) (snd y).
Proof. intros H0. induction 1 as [|x y z Hs _ IH]; [done|]. intros Hi. apply IH. by eapply inv_step. Qed.
End frames.

(** ** Initialisation *)
Section init.
Context (A : arch).
Hypothesis HA : arch_ok A.

Lemma fill_wp s (Q : unit → pmm → Prop) : 0 ≤ highest_frame s < max_frames A →
  (∀ s', pmm_ok A s' → (∀ f, 0 ≤ f → free A s' f = false) → Q tt s') → wp (pmm_fill A) Q s.
Proof.
  intros Hs HQ. destruct HA as [Hb Hm _ _]. apply wp_modify, HQ.
  - split; [|done]. cbn [bitmap]. rewrite zlen_replicate, Z2Nat.id; [done|]. apply Z.div_pos; lia.
  - intros f Hf. unfold free. cbn [bitmap]. destruct (_ !! _) as [w|] eqn:E; [|done].
    apply lookup_replicate in E as [-> _].
    replace (2 ^ wbits A - 1) with (Z.ones (wbits A)) by (rewrite Z.ones_equiv; lia).
    pose proof (Z.mod_pos_bound f (wbits A) Hb). by rewrite Z.ones_spec_low by lia.
Qed.

(** What a list of ranges makes free. *)
Definition covers (rs : list (Z * Z)) (f : Z) : bool :=
  existsb (λ '(lo, hi), (lo / FRAME_SIZE <=? f) && (f <? hi / FRAME_SIZE)) rs.

(** The state after the ranges [rs] have been freed in a full bitmap. *)
Record freed (s : pmm) (rs : list (Z * Z)) : Prop := {
  fr_ok : pmm_ok A s;
  fr_free : ∀ f, 0 ≤ f < max_frames A → free A s f = covers rs f;
  fr_top : ∀ f, 0 ≤ f < max_frames A → free A s f = true → f ≤ highest_frame s;
}.

Lemma freed_range s rs lo hi (Q : unit → pmm → Prop) : freed s rs → 0 ≤ lo →
  (∀ s', freed s' (rs ++ [(lo, hi)]) → Q tt s') → wp (free_range A lo hi) Q s.
Proof.
  intros [Hok Hf Ht] Hlo HQ. apply free_range_wp; [done..|]. intros s' Hok' Hh Htop Hu. apply HQ.
  split; [done| |].
  - intros f Hf0. rewrite Hu, Hf by done. unfold covers. rewrite existsb_app. cbn [existsb].
    by rewrite orb_false_r.
  - intros f Hf0 Ef. rewrite Hu in Ef by done. apply orb_true_iff in Ef as [Ef|Ef].
    + pose proof (Ht f Hf0 Ef). lia.
    + apply andb_true_iff in Ef as [?%Z.leb_le ?%Z.ltb_lt]. apply Htop; lia.
Qed.

(** What [pmm_init] leaves: the frames of the ranges, above low memory and the
    kernel image. *)
Definition usable (rs : list (Z * Z)) (kernel_end f : Z) : bool :=
  covers rs f && (256 <=? f) && ((kernel_end + FRAME_SIZE - 1) / FRAME_SIZE <=? f).

Lemma reserve_kernel_wp s rs kernel_end (Q : unit → pmm → Prop) :
  freed s rs → 0 ≤ kernel_end → kernel_end + FRAME_SIZE ≤ 2 ^ wbits A → 2 ^ 21 ≤ 2 ^ wbits A →
  (∀ s', fresh A s' → (∀ f, 0 ≤ f < max_frames A → free A s' f = usable rs kernel_end f) → Q tt s') →
  wp (pmm_reserve_kernel A kernel_end) Q s.
Proof.
  intros [Hok Hf Ht] Hk Hkw H21 HQ. unfold pmm_reserve_kernel. apply wp_bind.
  apply reserve_wp; [done|done|done|lia|unfold FRAME_SIZE; lia|]. intros s1 Hok1 Hh1 Hu1.
  apply reserve_wp; [done|done|lia|done|done|]. intros s2 Hok2 Hh2 Hu2.
  change (0 / FRAME_SIZE) with 0 in Hu1. change (1024 * 1024 / FRAME_SIZE) with 256 in Hu2.
  change ((1024 * 1024 + FRAME_SIZE - 1) / FRAME_SIZE) with 256 in Hu1.
  assert (Hus : ∀ f, 0 ≤ f < max_frames A → free A s2 f = usable rs kernel_end f).
  { intros f Hf0. rewrite Hu2, Hu1, Hf by done. unfold usable. set (k := _ / FRAME_SIZE).
    rewrite (proj2 (Z.leb_le 0 f)) by lia. destruct (covers rs f); [|done].
    destruct (Z.leb_spec 256 f), (Z.ltb_spec f 256), (Z.ltb_spec f k), (Z.leb_spec k f); try lia; done. }
  apply HQ; [|done]. split; [done|]. destruct HA as [Hb Hm _ _]. split.
  - rewrite Hus by lia. unfold usable. by destruct (covers rs 0).
  - intros f Hf0 Ef. rewrite Hh2, Hh1. apply Ht; [done|]. rewrite Hus in Ef by done. unfold usable in Ef.
    rewrite Hf by done. by destruct (covers rs f).
Qed.
End init.

Lemma x86_ok : arch_ok x86.
Proof. by split. Qed.
Lemma x86_64_ok : arch_ok x86_64.
Proof. by split. Qed.

Lemma ld32_range mem o v : bytes_ok mem → ld32 mem o = Some v → 0 ≤ v < 2 ^ 32.
Proof. intros Hm E. exact (ld_range 4 mem o v Hm E). Qed.

(** *** The memory map of the boot loader, 32-bit *)
Section map32.
Context (mem : list Z).
Hypothesis Hmem : bytes_ok mem.

(** The entries at [off] up to [end_], as base, upper half of the base, length and type. *)
Inductive map_at (end_ : Z) : Z → list (Z * Z * Z * Z) → Prop :=
  | map_end off : end_ ≤ off → map_at end_ off []
  | map_entry off base high len type size es :
      off < end_ →
      ld32 mem (off + X86.mm_addr_low) = Some base → ld32 mem (off + X86.mm_addr_high) = Some high →
      ld32 mem (off + X86.mm_len_low) = Some len → ld32 mem (off + X86.mm_type) = Some type →
      ld32 mem (off + X86.mm_size) = Some size → off + size + 4 < 2 ^ 32 → 0 ≤ off →
      map_at end_ (off + size + 4) es → map_at end_ off ((base, high, len, type) :: es).

(** The ranges the entries make available, and their kilobytes. *)
Definition ranges (es : list (Z * Z * Z * Z)) : list (Z * Z) :=
  omap (λ '(base, high, len, type), if (type =? 1) && (high =? 0) then Some (base, u32 (base + len)) else None) es.
Definition kilobytes (es : list (Z * Z * Z * Z)) : Z :=
  foldr (λ '(base, high, len, type) k, if (type =? 1) && (high =? 0) then len / 1024 + k else k) 0 es.

Lemma mmap_loop_wp end_ off es : map_at end_ off es → ∀ fuel kb s rs (Q : Z → pmm → Prop),
  (length es < fuel)%nat → freed x86 s rs →
  (∀ s', freed x86 s' (rs ++ ranges es) → Q (u32 (kb + kilobytes es)) s') → 0 ≤ kb < 2 ^ 32 →
  wp (X86.mmap_loop fuel mem off end_ kb) Q s.
Proof.
  induction 1 as [off He|off base high len type size es Hoff Eb Eh El Et Es Hsz H0 _ IH];
    intros [|fuel] kb s rs Q Hfuel Hs HQ Hkb; cbn [length] in *; try lia; cbn [X86.mmap_loop].
  { rewrite (proj2 (Z.leb_le _ _)) by done. apply wp_ret.
    replace kb with (u32 (kb + kilobytes [])) by (simpl; rewrite Z.add_0_r; by apply u32_small).
    apply HQ. by rewrite app_nil_r. }
  rewrite (proj2 (Z.leb_gt _ _)) by done. rewrite Et, Eh. pose proof (ld32_range _ _ _ Hmem Es).
  pose proof (ld32_range _ _ _ Hmem Eb). pose proof (ld32_range _ _ _ Hmem El).
  apply wp_bind. eapply wp_lift; [done|]. apply wp_bind. eapply wp_lift; [done|].
  change (type =? X86.MB_MMAP_AVAILABLE) with (type =? 1).
  assert (Hnext : u32 (off + u32 (size + 4)) = off + size + 4).
  { destruct (decide (size + 4 < 2 ^ 32)); [rewrite (u32_small (size + 4)), u32_small by lia; lia|lia]. }
  assert (Hrest : ∀ s' rs' kb', freed x86 s' rs' → 0 ≤ kb' < 2 ^ 32 →
    (∀ s', freed x86 s' (rs' ++ ranges es) → Q (u32 (kb' + kilobytes es)) s') →
    wp (let* size := lift (ld32 mem (off + X86.mm_size)) in
        X86.mmap_loop fuel mem (u32 (off + u32 (size + 4))) end_ kb') Q s').
  { intros s' rs' kb' Hs' Hkb' HQ'. apply wp_bind. eapply wp_lift; [exact Es|]. cbv beta. rewrite Hnext.
    eapply IH; [lia|exact Hs'|exact HQ'|exact Hkb']. }
  unfold ranges, kilobytes in HQ. cbn [omap list_omap foldr] in HQ.
  fold (kilobytes es) (ranges es) in HQ. destruct ((type =? 1) && (high =? 0)).
  - rewrite Eb, El. apply wp_bind, wp_bind. eapply wp_lift; [done|]. apply wp_bind. eapply wp_lift; [done|].
    apply wp_bind. eapply freed_range; [exact x86_ok|exact Hs|lia|]. intros s' Hs'. apply wp_ret.
    apply (Hrest _ _ _ Hs'); [apply u32_range|]. intros s2 Hs2. rewrite <- app_assoc in Hs2.
    replace (u32 (u32 (kb + len / 1024) + kilobytes es)) with (u32 (kb + (len / 1024 + kilobytes es))).
    { by apply HQ. }
    unfold u32. rewrite Zplus_mod_idemp_l. f_equal. lia.
  - apply wp_bind, wp_ret. by apply (Hrest _ _ _ Hs).
Qed.

(** The ranges and the kilobytes the boot loader's information gives. *)
Inductive boot_map (mbi : Z) : list (Z * Z) → Z → Prop :=
  | by_map flags addr length es :
      ld32 mem (mbi + X86.mbi_flags) = Some flags → has flags X86.MB_FLAG_MMAP = true →
      ld32 mem (mbi + X86.mbi_mmap_addr) = Some addr → ld32 mem (mbi + X86.mbi_mmap_length) = Some length →
      map_at (u32 (addr + length)) addr es → boot_map mbi (ranges es) (kilobytes es)
  | by_size flags lower upper :
      ld32 mem (mbi + X86.mbi_flags) = Some flags → has flags X86.MB_FLAG_MMAP = false →
      has flags X86.MB_FLAG_MEM = true →
      ld32 mem (mbi + X86.mbi_mem_lower) = Some lower → ld32 mem (mbi + X86.mbi_mem_upper) = Some upper →
      boot_map mbi [(0, u32 (lower * 1024)); (1024 * 1024, u32 (1024 * 1024 + u32 (upper * 1024)))] (lower + upper)
  | by_nothing flags :
      ld32 mem (mbi + X86.mbi_flags) = Some flags → has flags X86.MB_FLAG_MMAP = false →
      has flags X86.MB_FLAG_MEM = false → boot_map mbi [] 0.

Lemma pmm_init_wp mbi rs kb kernel_end s :
  boot_map mbi rs kb → 0 ≤ highest_frame s < max_frames x86 → 0 ≤ kernel_end → kernel_end + FRAME_SIZE ≤ 2 ^ 32 →
  ∃ n, ∀ fuel, (n ≤ fuel)%nat →
    wp (X86.pmm_init fuel mem mbi kernel_end) (λ r s', r = u32 kb ∧ fresh x86 s' ∧
      ∀ f, 0 ≤ f < max_frames x86 → free x86 s' f = usable rs kernel_end f) s.
Proof.
  intros Hb Hs Hk Hkw.
  assert (Hmid : ∀ m : M pmm Z, (∀ s1, freed x86 s1 [] → wp m (λ r s2, r = u32 kb ∧ freed x86 s2 rs) s1) →
    wp (pmm_fill x86 ;; let* usable_kb := m in pmm_reserve_kernel x86 kernel_end ;; ret usable_kb)
      (λ r s', r = u32 kb ∧ fresh x86 s' ∧ ∀ f, 0 ≤ f < max_frames x86 → free x86 s' f = usable rs kernel_end f) s).
  { intros m Hm. apply wp_bind. apply fill_wp; [exact x86_ok|done|]. intros s1 Hok1 Hf1.
    eapply wp_call; [apply Hm|].
    { split; [done|intros f Hf; by rewrite Hf1 by lia|]. intros f Hf Ef. by rewrite Hf1 in Ef by lia. }
    intros r s2 [-> Hs2]. apply wp_bind. eapply reserve_kernel_wp; [exact x86_ok|exact Hs2|done|done|done|].
    intros s3 Hs3 Hf3. by apply wp_ret. }
  destruct Hb as [flags addr length es Ef E1 Ea El Hes|flags lower upper Ef E1 E2 Elo Eup|flags Ef E1 E2].
  - exists (S (Datatypes.length es)). intros fuel Hfuel. unfold X86.pmm_init. rewrite Ef.
    apply (Hmid (let* flags := lift (Some flags) in _)). intros s1 Hs1.
    apply wp_bind. eapply wp_lift; [done|]. cbv beta. rewrite E1, Ea, El.
    apply wp_bind. eapply wp_lift; [done|]. apply wp_bind. eapply wp_lift; [done|].
    eapply mmap_loop_wp; [done|lia|exact Hs1| |done]. intros s2 Hs2. by split.
  - exists 0%nat. intros fuel _. unfold X86.pmm_init. rewrite Ef. apply (Hmid (let* flags := lift (Some flags) in _)).
    intros s1 Hs1. apply wp_bind. eapply wp_lift; [done|]. cbv beta. rewrite E1, E2, Elo, Eup.
    apply wp_bind. eapply wp_lift; [done|]. apply wp_bind. eapply wp_lift; [done|].
    apply wp_bind. eapply freed_range; [exact x86_ok|exact Hs1|done|]. intros s2 Hs2.
    apply wp_bind. eapply freed_range; [exact x86_ok|exact Hs2|done|]. intros s3 Hs3. by apply wp_ret.
  - exists 0%nat. intros fuel _. unfold X86.pmm_init. rewrite Ef. apply (Hmid (let* flags := lift (Some flags) in _)).
    intros s1 Hs1. apply wp_bind. eapply wp_lift; [done|]. cbv beta. rewrite E1, E2. by apply wp_ret.
Qed.
End map32.

(** *** The tags of the boot loader, 64-bit *)
Section map64.
Context (mem : list Z).
Hypothesis Hmem : bytes_ok mem.

(** The entries of a memory map tag at [m], from [e] to [end_]: base, length, type. *)
Inductive entries_at (m end_ : Z) : Z → list (Z * Z * Z) → Prop :=
  | entries_end e : end_ ≤ e → entries_at m end_ e []
  | entries_cons e base len type size es :
      e < end_ →
      ld64 mem (e + X86_64.me_base_addr) = Some base → ld64 mem (e + X86_64.me_length) = Some len →
      ld32 mem (e + X86_64.me_type) = Some type → ld32 mem (m + X86_64.mt_entry_size) = Some size →
      0 ≤ e → e + size < 2 ^ 64 →
      entries_at m end_ (e + size) es → entries_at m end_ e ((base, len, type) :: es).

(** The tags from [tag] on, with the entries of the memory maps among them. *)
Inductive tags_at : Z → list (list (Z * Z * Z)) → Prop :=
  | tags_end tag : ld32 mem (tag + X86_64.tag_type) = Some X86_64.MB2_TAG_END → tags_at tag []
  | tags_map tag size es ts :
      ld32 mem (tag + X86_64.tag_type) = Some X86_64.MB2_TAG_MMAP → ld32 mem (tag + X86_64.tag_size) = Some size →
      entries_at tag (u64 (tag + size)) (tag + X86_64.mt_entries) es →
      tags_at (Z.land (u64 (tag + size + 7)) (u64 (Z.lnot 7))) ts → tags_at tag (es :: ts)
  | tags_other tag type size ts :
      ld32 mem (tag + X86_64.tag_type) = Some type → type ≠ X86_64.MB2_TAG_END → type ≠ X86_64.MB2_TAG_MMAP →
      ld32 mem (tag + X86_64.tag_size) = Some size →
      tags_at (Z.land (u64 (tag + size + 7)) (u64 (Z.lnot 7))) ts → tags_at tag ([] :: ts).

Definition ranges64 (es : list (Z * Z * Z)) : list (Z * Z) :=
  omap (λ '(base, len, type), if type =? 1 then Some (base, u64 (base + len)) else None) es.
Definition kilobytes64 (es : list (Z * Z * Z)) : Z :=
  foldr (λ '(base, len, type) k, if type =? 1 then len / 1024 + k else k) 0 es.

Lemma entry_loop_wp m end_ e es : entries_at m end_ e es → ∀ fuel kb s rs (Q : Z → pmm → Prop),
  (length es < fuel)%nat → freed x86_64 s rs →
  (∀ s', freed x86_64 s' (rs ++ ranges64 es) → Q (u64 (kb + kilobytes64 es)) s') → 0 ≤ kb < 2 ^ 64 →
  wp (X86_64.entry_loop fuel mem m e end_ kb) Q s.
Proof.
  induction 1 as [e He|e base len type size es He Eb El Et Es H0 Hsz _ IH];
    intros [|fuel] kb s rs Q Hfuel Hs HQ Hkb; cbn [length] in *; try lia; cbn [X86_64.entry_loop].
  { rewrite (proj2 (Z.leb_le _ _)) by done. apply wp_ret.
    replace kb with (u64 (kb + kilobytes64 [])) by (simpl; rewrite Z.add_0_r; by apply u64_small).
    apply HQ. by rewrite app_nil_r. }
  rewrite (proj2 (Z.leb_gt _ _)) by done. rewrite Et. pose proof (ld32_range _ _ _ Hmem Es).
  pose proof (ld_range 8 _ _ _ Hmem Eb). pose proof (ld_range 8 _ _ _ Hmem El).
  apply wp_bind. eapply wp_lift; [done|].
  change (type =? X86_64.MB2_MMAP_AVAILABLE) with (type =? 1).
  assert (Hrest : ∀ s' rs' kb', freed x86_64 s' rs' → 0 ≤ kb' < 2 ^ 64 →
    (∀ s', freed x86_64 s' (rs' ++ ranges64 es) → Q (u64 (kb' + kilobytes64 es)) s') →
    wp (let* entry_size := lift (ld32 mem (m + X86_64.mt_entry_size)) in
        X86_64.entry_loop fuel mem m (u64 (e + entry_size)) end_ kb') Q s').
  { intros s' rs' kb' Hs' Hkb' HQ'. apply wp_bind. eapply wp_lift; [exact Es|]. cbv beta.
    rewrite u64_small by lia. eapply IH; [lia|exact Hs'|exact HQ'|exact Hkb']. }
  unfold ranges64, kilobytes64 in HQ. cbn [omap list_omap foldr] in HQ.
  fold (kilobytes64 es) (ranges64 es) in HQ. destruct (type =? 1).
  - rewrite Eb, El. apply wp_bind, wp_bind. eapply wp_lift; [done|]. apply wp_bind. eapply wp_lift; [done|].
    apply wp_bind. eapply freed_range; [exact x86_64_ok|exact Hs|lia|]. intros s' Hs'. apply wp_ret.
    apply (Hrest _ _ _ Hs'); [apply u64_range|]. intros s2 Hs2. rewrite <- app_assoc in Hs2.
    replace (u64 (u64 (kb + len / 1024) + kilobytes64 es)) with (u64 (kb + (len / 1024 + kilobytes64 es))).
    { by apply HQ. }
    unfold u64. rewrite Zplus_mod_idemp_l. f_equal. lia.
  - apply wp_bind, wp_ret. by apply (Hrest _ _ _ Hs).
Qed.

Lemma tag_loop_wp tag ts : tags_at tag ts → ∀ fuel kb s rs (Q : Z → pmm → Prop),
  (length ts + length (concat ts) < fuel)%nat → freed x86_64 s rs →
  (∀ s', freed x86_64 s' (rs ++ ranges64 (concat ts)) → Q (u64 (kb + kilobytes64 (concat ts))) s') → 0 ≤ kb < 2 ^ 64 →
  wp (X86_64.tag_loop fuel mem tag kb) Q s.
Proof.
  assert (Hk : ∀ l1 l2, kilobytes64 (l1 ++ l2) = kilobytes64 l1 + kilobytes64 l2).
  { induction l1 as [|[[b l] t] l1 IH]; intros l2; [done|]. simpl. rewrite IH. destruct (t =? 1); lia. }
  induction 1 as [tag Et|tag size es ts Et Es He _ IH|tag type size ts Et Hne1 Hne2 Es _ IH];
    intros [|fuel] kb s rs Q Hfuel Hs HQ Hkb; try (cbn in Hfuel; lia); cbn [X86_64.tag_loop]; rewrite Et;
    apply wp_bind; (eapply wp_lift; [done|]); cbv beta.
  - rewrite Z.eqb_refl. apply wp_ret.
    replace kb with (u64 (kb + kilobytes64 [])) by (simpl; rewrite Z.add_0_r; by apply u64_small).
    apply HQ. by rewrite app_nil_r.
  - change (X86_64.MB2_TAG_MMAP =? X86_64.MB2_TAG_END) with false. rewrite Z.eqb_refl, Es.
    apply wp_bind. eapply wp_lift; [done|]. cbv beta. cbn [concat length] in *. rewrite length_app in Hfuel.
    apply wp_bind. eapply entry_loop_wp; [exact He|lia|exact Hs| |done]. intros s' Hs'.
    eapply IH; [lia|exact Hs'| |apply u64_range]. intros s2 Hs2.
    replace (u64 (u64 (kb + kilobytes64 es) + kilobytes64 (concat ts))) with (u64 (kb + kilobytes64 (es ++ concat ts))).
    { apply HQ. unfold ranges64 in *. rewrite omap_app, app_assoc. exact Hs2. }
    rewrite Hk. unfold u64. rewrite Zplus_mod_idemp_l. f_equal. lia.
  - rewrite !(proj2 (Z.eqb_neq _ _)) by done. rewrite Es. apply wp_bind. eapply wp_lift; [done|]. cbv beta.
    apply wp_bind, wp_ret. cbn [concat length app] in *. eapply IH; [lia|exact Hs|exact HQ|done].
Qed.

Lemma pmm_init64_wp mbi ts kernel_end s :
  tags_at (mbi + 8) ts → 0 ≤ highest_frame s < max_frames x86_64 → 0 ≤ kernel_end →
  kernel_end + FRAME_SIZE ≤ 2 ^ 64 → ∀ fuel, (length ts + length (concat ts) < fuel)%nat →
  wp (X86_64.pmm_init fuel mem mbi kernel_end) (λ r s', r = u64 (kilobytes64 (concat ts)) ∧ fresh x86_64 s' ∧
    ∀ f, 0 ≤ f < max_frames x86_64 → free x86_64 s' f = usable (ranges64 (concat ts)) kernel_end f) s.
Proof.
  intros Ht Hs Hk Hkw fuel Hfuel. unfold X86_64.pmm_init. apply wp_bind.
  apply fill_wp; [exact x86_64_ok|done|]. intros s1 Hok1 Hf1. apply wp_bind.
  eapply (tag_loop_wp _ _ Ht _ _ _ []); [done| | |done].
  { split; [done|intros f Hf; by rewrite Hf1 by lia|]. intros f Hf Ef. by rewrite Hf1 in Ef by lia. }
  intros s2 Hs2. apply wp_bind. eapply reserve_kernel_wp; [exact x86_64_ok|exact Hs2|done|done|done|].
  intros s3 Hs3 Hf3. by apply wp_ret.
Qed.
End map64.

(** ** The allocators *)

(** C11: whatever way frames are handed out and back after initialisation, no
    frame is handed out twice: the live frames are distinct, page aligned and
    were free at the start; the free frames are exactly those free at the
    start that are not live (none is lost); and the next allocation returns a
    frame that is not live, or 0 when, and only when, no frame is free. *)
Theorem pmm_frames_unique A s0 s live :
  arch_ok A → fresh A s0 → rtc (step A) (s0, []) (s, live) →
  NoDup live ∧
  (∀ a, a ∈ live → ∃ f, a = f * FRAME_SIZE ∧ 0 < f < max_frames A ∧ free A s0 f = true) ∧
  (∀ f, 0 ≤ f < max_frames A → free A s f = free A s0 f && negb (bool_decide (f * FRAME_SIZE ∈ live))) ∧
  ∃ a s', pmm_alloc_frame A s = Some (a, s') ∧
    (a = 0 ∧ s' = s ∧ (∀ f, 0 ≤ f < max_frames A → free A s f = false) ∨ a ≠ 0 ∧ (a ∉ live) ∧ rtc (step A) (s0, []) (s', a :: live)).
Proof.
  intros HA H0 Hr. pose proof (inv_steps A HA s0 _ _ H0 Hr (inv_start A s0 H0)) as Hi. cbn [fst snd] in Hi.
  split; [apply Hi|]. split.
  { intros a Ha. destruct (i_live _ _ _ _ Hi a Ha) as (f & -> & Hf & Ef). exists f.
    split; [done|]. split; [|done]. destruct (decide (f = 0)) as [->|]; [|lia].
    destruct H0 as (_ & H0 & _). congruence. }
  split; [apply Hi|]. destruct (alloc_wp A HA s (i_ok _ _ _ _ Hi)) as (a & s' & E & _). exists a, s'.
  split; [done|]. destruct (inv_alloc A HA s0 s live a s' H0 Hi E) as [?|(Hne & Hni & _)]; [by left|right].
  split; [done|]. split; [done|]. eapply rtc_r; [exact Hr|]. by constructor.
Qed.

(** C12: [pmm_init] returns for every well-formed memory map (or memory size):
    the frames it leaves free are those of the available ranges, the first
    one rounded down and the last one up to the end of the range, without
    the first megabyte and the kernel image; every free frame is within the
    reach of the allocator; the result is the kilobytes available. *)
Theorem pmm_init_frames mem mbi rs kb kernel_end s :
  bytes_ok mem → boot_map mem mbi rs kb → 0 ≤ highest_frame s < max_frames x86 →
  0 ≤ kernel_end → kernel_end + FRAME_SIZE ≤ 2 ^ 32 →
  ∃ n, ∀ fuel, (n ≤ fuel)%nat →
    ∃ s', X86.pmm_init fuel mem mbi kernel_end s = Some (u32 kb, s') ∧ fresh x86 s' ∧
      ∀ f, 0 ≤ f < max_frames x86 → free x86 s' f = usable rs kernel_end f.
Proof.
  intros Hm Hb Hs Hk Hkw. destruct (pmm_init_wp mem Hm mbi rs kb kernel_end s Hb Hs Hk Hkw) as [n Hn].
  exists n. intros fuel Hfuel. destruct (Hn fuel Hfuel) as (r & s' & E & -> & ?). by exists s'.
Qed.

(** Multiboot information at 0 with one available entry at 64: the 64 KiB from
    2 MiB on. *)
Definition demo_mem : list Z :=
  le_to 4 64 ++ zeros 40 ++ le_to 4 24 ++ le_to 4 64 ++ zeros 12 ++
  le_to 4 20 ++ le_to 4 2097152 ++ le_to 4 0 ++ le_to 4 65536 ++ le_to 4 0 ++ le_to 4 1.
Definition demo_boot : pmm := Pmm (zeros 4096) 0.

Lemma demo_map : boot_map demo_mem 0 [(2097152, 2162688)] 64.
Proof.
  apply (by_map demo_mem 0 64 64 24 [(2097152, 0, 65536, 1)]); try by vm_compute.
  apply (map_entry _ _ _ _ _ _ _ 20); try by vm_compute. by apply map_end.
Qed.

Lemma pmm_init_frames_witness :
  ∃ n, ∀ fuel, (n ≤ fuel)%nat →
    ∃ s', X86.pmm_init fuel demo_mem 0 1572864 demo_boot = Some (64, s') ∧ fresh x86 s' ∧
      ∀ f, 0 ≤ f < max_frames x86 → free x86 s' f = usable [(2097152, 2162688)] 1572864 f.
Proof.
  apply (pmm_init_frames demo_mem 0 [(2097152, 2162688)] 64 1572864 demo_boot);
    [by apply bytes_dec|exact demo_map|split; [by vm_compute|by vm_compute]|by vm_compute|by vm_compute].
Defined.

(** Frames 512 to 543 are free. *)
Definition demo_pmm : pmm := Pmm (<[16%nat := 0]> (replicate 4096 (2 ^ 32 - 1))) 543.

Lemma demo_free f : 0 ≤ f < max_frames x86 → free x86 demo_pmm f = (512 <=? f) && (f <? 544).
Proof.
  intros Hf. unfold free, demo_pmm. cbn [bitmap wbits x86].
  assert (Hd : 0 ≤ f / 32 < 4096) by (cbn in Hf; mod_lia).
  destruct (decide (Z.to_nat (f / 32) = 16%nat)) as [E|E].
  - rewrite E, list_lookup_insert_eq by (rewrite length_replicate; lia). rewrite Z.bits_0.
    symmetry. apply andb_true_iff. split; [apply Z.leb_le|apply Z.ltb_lt]; mod_lia.
  - rewrite list_lookup_insert_ne, lookup_replicate_2 by lia.
    replace (2 ^ 32 - 1) with (Z.ones 32) by done. rewrite Z.ones_spec_low by (apply Z.mod_pos_bound; lia).
    symmetry. apply andb_false_iff. destruct (Z.leb_spec 512 f); [right; apply Z.ltb_ge; mod_lia|by left].
Qed.

Lemma demo_fresh : fresh x86 demo_pmm.
Proof.
  split; [split; [by vm_compute|split; by vm_compute]|]. split; [by rewrite demo_free|].
  intros f Hf. rewrite demo_free by done. intros [_ ?%Z.ltb_lt]%andb_true_iff. cbn [highest_frame demo_pmm]. lia.
Qed.

Lemma demo_run s : pmm_alloc_frame x86 demo_pmm = Some (2097152, s) →
  rtc (step x86) (demo_pmm, []) (s, [2097152]).
Proof. intros E. eapply rtc_l; [|done]. by apply step_alloc. Qed.

Lemma pmm_frames_unique_witness :
  ∃ s, pmm_alloc_frame x86 demo_pmm = Some (2097152, s) ∧
  ∃ a s', pmm_alloc_frame x86 s = Some (a, s') ∧
    (a = 0 ∧ s' = s ∧ (∀ f, 0 ≤ f < max_frames x86 → free x86 s f = false) ∨
     a ≠ 0 ∧ (a ∉ [2097152]) ∧ rtc (step x86) (demo_pmm, []) (s', [a; 2097152])).
Proof.
  destruct (pmm_alloc_frame x86 demo_pmm) as [[a s]|] eqn:E; [|by vm_compute in E].
  assert (a = 2097152) as ->.
  { assert (fst <$> pmm_alloc_frame x86 demo_pmm = Some 2097152) as Hf by by vm_compute.
    rewrite E in Hf. by injection Hf. }
  exists s. split; [done|].
  apply (pmm_frames_unique x86 demo_pmm s [2097152] x86_ok demo_fresh (demo_run s E)).
Defined.
