(* ===== verification/Printk.v ===== *)
(** * lib/printk.c: the formatter

    A format is the byte buffer from the current position on, so reading past
    it is undefined. The variadic arguments are the slots the calling
    convention passes them in: 32 bits wide on i386, where a 64-bit argument
    takes two, and 64 bits wide elsewhere. [mem] gives the buffer a non-null
    pointer points to. *)
From S2P Require Import Prelude KString.

(** ** The output buffer *)

Record outbuf := Outbuf { ob_p : option (list Z); ob_size : Z; ob_len : Z }.

(** [p[i] = c]. *)
Definition ob_store (i c : Z) (ob : outbuf) : option outbuf :=
  p ← ob_p ob;
  p' ← splice p i [c];
  Some (Outbuf (Some p') (ob_size ob) (ob_len ob)).

Definition ob_putc (c : Z) : M outbuf unit := λ ob,
  ob ← (match ob_p ob with
        | None => Some ob
        | Some _ =>
            if u32 (ob_len ob + 1) <? ob_size ob then ob_store (ob_len ob) c ob
            else if ob_len ob <? ob_size ob then ob_store (ob_len ob) 0 ob
            else Some ob
        end);
  Some (tt, Outbuf (ob_p ob) (ob_size ob) (u32 (ob_len ob + 1))).

(** [for (k = 0; k < n; k++) ob_putc(c)]. *)
Definition ob_repeat (n c : Z) : M outbuf unit :=
  let* _ := for_ 0 (Z.to_nat n) (λ _, ob_putc c ;; ret (@None unit)) in
  ret tt.

Fixpoint ob_puts (l : list Z) : M outbuf unit :=
  match l with
  | [] => ret tt
  | c :: r => ob_putc c ;; ob_puts r
  end.

(** ** Strings and numbers *)

Definition SPACE : Z := 32.
Definition MINUS : Z := 45.
Definition ZERO : Z := 48.
Definition PERCENT : Z := 37.

Definition emit_str (s : list Z) (width : Z) (ljust : bool) : M outbuf unit :=
  let* n := lift (k_strlen s) in
  (if negb ljust then ob_repeat (width - n) SPACE else ret tt) ;;
  let* chars := lift (slice s 0 n) in
  ob_puts chars ;;
  (if ljust then ob_repeat (width - n) SPACE else ret tt).

(** [digits[d]]. *)
Definition digit (upper : bool) (d : Z) : Z :=
  if d <? 10 then 48 + d else if upper then 55 + d else 87 + d.

Definition TMP_SIZE : Z := 70.

(** [tmp[i++] = c]; [tmp] holds what has been written. *)
Definition push_tmp (tmp : list Z) (c : Z) : option (list Z) :=
  if zlen tmp <? TMP_SIZE then Some (tmp ++ [c]) else None.

(** [do .. while (val)]. *)
Fixpoint digit_loop (fuel : nat) (upper : bool) (base val : Z) (tmp : list Z) : option (list Z) :=
  match fuel with
  | O => None
  | S fuel =>
      tmp ← push_tmp tmp (digit upper (val mod base));
      let val := val / base in
      if truthy val then digit_loop fuel upper base val tmp else Some tmp
  end.

Definition emit_num (val base : Z) (upper is_signed : bool) (width : Z) (zero_pad ljust : bool) : M outbuf unit :=
  let neg := is_signed && (s64 val <? 0) in
  (* negating the least value overflows *)
  let* val := lift (if neg then if s64 val =? - 2 ^ 63 then None else Some (u64 (- s64 val)) else Some val) in
  let* tmp := lift (digit_loop 65 upper base val []) in
  let* tmp := lift (if neg then push_tmp tmp MINUS else Some tmp) in
  let total := zlen tmp in
  let pad := if total <? width then width - total else 0 in
  (if negb ljust && negb zero_pad then ob_repeat pad SPACE else ret tt) ;;
  let* pad :=
    if negb ljust && zero_pad && neg then ob_putc MINUS ;; ret (pad - 1) else ret pad in
  (if negb ljust && zero_pad then ob_repeat pad ZERO else ret tt) ;;
  ob_puts (reverse tmp) ;;
  (if ljust then ob_repeat (pad - if neg then 1 else 0) SPACE else ret tt).

(** ** Arguments *)

Definition va_list : Type := list Z.

(** The low 32 bits of the next slot. *)
Definition va_u32 (ap : va_list) : option (Z * va_list) :=
  match ap with
  | v :: r => Some (u32 v, r)
  | [] => None
  end.

Section abi.
(** [wide]: slots, longs and pointers of 64 bits. *)
Context (wide : bool) (mem : Z → option (list Z)).

Definition va_u64 (ap : va_list) : option (Z * va_list) :=
  match ap with
  | v :: r =>
      if wide then Some (u64 v, r)
      else match r with
           | v' :: r' => Some (u32 v + 2 ^ 32 * u32 v', r')
           | [] => None
           end
  | [] => None
  end.

(** [unsigned long] and pointers. *)
Definition va_word (ap : va_list) : option (Z * va_list) := if wide then va_u64 ap else va_u32 ap.

(** [long], [int] and [s64], converted to [u64]. *)
Definition va_int (ap : va_list) : option (Z * va_list) :=
  '(v, ap) ← va_u32 ap; Some (u64 (s32 v), ap).
Definition va_long (ap : va_list) : option (Z * va_list) := if wide then va_u64 ap else va_int ap.

Definition sizeof_ptr : Z := if wide then 8 else 4.

Definition emit_ptr (v : Z) : M outbuf unit :=
  ob_putc 48 ;; ob_putc 120 ;; emit_num v 16 false false (sizeof_ptr * 2) true false.

(** ** Directives *)

(** The flags: left justification, zero padding. *)
Fixpoint scan_flags (fmt : list Z) (ljust zero_pad : bool) : option (bool * bool * list Z) :=
  match fmt with
  | [] => None
  | c :: r =>
      if c =? MINUS then scan_flags r true zero_pad
      else if c =? ZERO then scan_flags r ljust true
      else Some (ljust, zero_pad, fmt)
  end.

(** [width = width * 10 + digit], an [int]. *)
Fixpoint scan_width (fmt : list Z) (width : Z) : option (Z * list Z) :=
  match fmt with
  | [] => None
  | c :: r =>
      if (48 <=? c) && (c <=? 57) then
        let width := width * 10 + (c - 48) in
        if width <? 2 ^ 31 then scan_width r width else None
      else Some (width, fmt)
  end.

(** The length modifiers: their number. *)
Fixpoint scan_lmod (fmt : list Z) (lmod : Z) : option (Z * list Z) :=
  match fmt with
  | [] => None
  | c :: r => if (c =? 108) || (c =? 122) then scan_lmod r (lmod + 1) else Some (lmod, fmt)
  end.

(** [switch ( *fmt)]: the directive with conversion character [c]. *)
Definition convert (c : Z) (ljust zero_pad : bool) (width lmod : Z) (ap : va_list) : M outbuf va_list :=
  if c =? 37 then ob_putc PERCENT ;; ret ap
  else if c =? 99 then
    let* (v, ap) := lift (va_u32 ap) in
    emit_str [u8 v; 0] width ljust ;; ret ap
  else if c =? 115 then
    (* the pointer is tested and read again: two arguments *)
    let* (p, ap) := lift (va_word ap) in
    if truthy p then
      let* (q, ap) := lift (va_word ap) in
      let* s := lift (mem q) in
      emit_str s width ljust ;; ret ap
    else emit_str [40; 110; 117; 108; 108; 41; 0] width ljust ;; ret ap
  else if (c =? 100) || (c =? 105) then
    let* (v, ap) := lift (if 2 <=? lmod then va_u64 ap else if lmod =? 1 then va_long ap else va_int ap) in
    emit_num v 10 false true width zero_pad ljust ;; ret ap
  else if c =? 117 then
    let* (v, ap) := lift (if 2 <=? lmod then va_u64 ap else if lmod =? 1 then va_word ap else va_u32 ap) in
    emit_num v 10 false false width zero_pad ljust ;; ret ap
  else if c =? 112 then
    let* (v, ap) := lift (va_word ap) in
    emit_ptr v ;; ret ap
  else if (c =? 120) || (c =? 88) || (c =? 111) then
    let base := if c =? 111 then 8 else 16 in
    let* (v, ap) := lift (if (2 <=? lmod) || (lmod =? 0) then va_u64 ap else va_word ap) in
    let v := if lmod =? 0 then Z.land v 0xFFFFFFFF else v in
    emit_num v base (c =? 88) false width zero_pad ljust ;; ret ap
  else ob_putc PERCENT ;; ob_putc c ;; ret ap.

(** [for (; *fmt; fmt++)]. *)
Fixpoint format_loop (fuel : nat) (fmt : list Z) (ap : va_list) : M outbuf unit :=
  match fuel with
  | O => fault
  | S fuel =>
      let* c := lift (head fmt) in
      if c =? 0 then ret tt
      else if negb (c =? PERCENT) then ob_putc c ;; format_loop fuel (tail fmt) ap
      else
        let* (ljust, zero_pad, fmt) := lift (scan_flags (tail fmt) false false) in
        let* (width, fmt) := lift (scan_width fmt 0) in
        let* (lmod, fmt) := lift (scan_lmod fmt 0) in
        let* c := lift (head fmt) in
        let* ap := convert c ljust zero_pad width lmod ap in
        format_loop fuel (tail fmt) ap
  end.

(** Return value and buffer. *)
Definition kvsnprintf (buf : option (list Z)) (size : Z) (fmt : list Z) (ap : va_list) : option (Z * option (list Z)) :=
  '(_, ob) ← format_loop (S (length fmt)) fmt ap (Outbuf buf size 0);
  ob ← (match ob_p ob with
        | Some _ =>
            if truthy size then
              ob_store (if ob_len ob <? size then ob_len ob else u32 (size - 1)) 0 ob
            else Some ob
        | None => Some ob
        end);
  Some (s32 (ob_len ob), ob_p ob).

(** What [kprintf] hands to the console: its 512-byte buffer, whose contents
    [stackbuf] are not initialised. *)
Definition kprintf (stackbuf fmt : list Z) (ap : va_list) : option (list Z) :=
  '(_, b) ← kvsnprintf (Some stackbuf) 512 fmt ap; b.
End abi.

(** ** The text of a format

    What is written, as a list: the reference the bounded buffer is compared
    with. A negative number printed with zero padding has its sign twice, and
    one that is left justified is padded one short: so the code does it. *)

(** The characters before the NUL. *)
Fixpoint cstring (s : list Z) : option (list Z) :=
  match s with
  | [] => None
  | c :: r => if c =? 0 then Some [] else cons c <$> cstring r
  end.

Definition fill (n c : Z) : list Z := replicate (Z.to_nat n) c.

Definition text_str (s : list Z) (width : Z) (ljust : bool) : list Z :=
  let pad := fill (width - zlen s) SPACE in
  if ljust then s ++ pad else pad ++ s.

(** The digits of [val], the most significant first. *)
Fixpoint digits (fuel : nat) (base val : Z) : list Z :=
  match fuel with
  | O => []
  | S fuel => if val <? base then [val] else digits fuel base (val / base) ++ [val mod base]
  end.

Definition text_num (val base : Z) (upper is_signed : bool) (width : Z) (zero_pad ljust : bool) : option (list Z) :=
  let neg := is_signed && (s64 val <? 0) in
  if neg && (s64 val =? - 2 ^ 63) then None
  else
    let sign := if neg then [MINUS] else [] in
    let body := sign ++ (digit upper <$> digits 65 base (if neg then - s64 val else val)) in
    let pad := width - zlen body in
    Some (if ljust then body ++ fill (Z.max 0 pad - zlen sign) SPACE
          else if zero_pad then sign ++ fill (Z.max 0 pad - zlen sign) ZERO ++ body
          else fill pad SPACE ++ body).

Section text.
Context (wide : bool) (mem : Z → option (list Z)).

Definition with_rest (l : option (list Z)) (ap : va_list) : option (list Z * va_list) :=
  l ← l; Some (l, ap).

Definition text_conv (c : Z) (ljust zero_pad : bool) (width lmod : Z) (ap : va_list) : option (list Z * va_list) :=
  if c =? 37 then Some ([PERCENT], ap)
  else if c =? 99 then
    '(v, ap) ← va_u32 ap;
    Some (text_str (if u8 v =? 0 then [] else [u8 v]) width ljust, ap)
  else if c =? 115 then
    '(p, ap) ← va_word wide ap;
    if truthy p then
      '(q, ap) ← va_word wide ap;
      s ← mem q;
      s ← cstring s;
      Some (text_str s width ljust, ap)
    else Some (text_str [40; 110; 117; 108; 108; 41] width ljust, ap)
  else if (c =? 100) || (c =? 105) then
    '(v, ap) ← (if 2 <=? lmod then va_u64 wide ap else if lmod =? 1 then va_long wide ap else va_int ap);
    with_rest (text_num v 10 false true width zero_pad ljust) ap
  else if c =? 117 then
    '(v, ap) ← (if 2 <=? lmod then va_u64 wide ap else if lmod =? 1 then va_word wide ap else va_u32 ap);
    with_rest (text_num v 10 false false width zero_pad ljust) ap
  else if c =? 112 then
    '(v, ap) ← va_word wide ap;
    with_rest (cons 48 <$> (cons 120 <$> text_num v 16 false false (sizeof_ptr wide * 2) true false)) ap
  else if (c =? 120) || (c =? 88) || (c =? 111) then
    '(v, ap) ← (if (2 <=? lmod) || (lmod =? 0) then va_u64 wide ap else va_word wide ap);
    with_rest (text_num (if lmod =? 0 then v mod 2 ^ 32 else v) (if c =? 111 then 8 else 16) (c =? 88)
                 false width zero_pad ljust) ap
  else Some ([PERCENT; c], ap).

Fixpoint text (fuel : nat) (fmt : list Z) (ap : va_list) : option (list Z) :=
  match fuel with
  | O => None
  | S fuel =>
      c ← head fmt;
      if c =? 0 then Some []
      else if negb (c =? PERCENT) then cons c <$> text fuel (tail fmt) ap
      else
        '(ljust, zero_pad, fmt) ← scan_flags (tail fmt) false false;
        '(width, fmt) ← scan_width fmt 0;
        '(lmod, fmt) ← scan_lmod fmt 0;
        c ← head fmt;
        '(l, ap) ← text_conv c ljust zero_pad width lmod ap;
        app l <$> text fuel (tail fmt) ap
  end.
End text.

(** ** Emitting *)

(** The buffer has room for what is stored in it. *)
Record ob_ok (ob : outbuf) : Prop := {
  oo_len : 0 ≤ ob_len ob;
  oo_size : 0 ≤ ob_size ob;
  oo_room : ∀ p, ob_p ob = Some p → ob_size ob ≤ zlen p;
}.

(** [m] emits [l] and returns [a]: it behaves as writing [l]. *)
Definition emits {A} (m : M outbuf A) (l : list Z) (a : A) : Prop :=
  ∀ ob, ob_ok ob → ob_len ob + zlen l < 2 ^ 32 → m ob = (ob_puts l ;; ret a) ob.

Lemma ob_store_ok ob i c : ob_ok ob → 0 ≤ i < ob_size ob → ob_p ob ≠ None →
  ∃ p', ob_store i c ob = Some (Outbuf (Some p') (ob_size ob) (ob_len ob)) ∧ ob_size ob ≤ zlen p'.
Proof.
  intros Hok Hi Hp. destruct (ob_p ob) as [p|] eqn:E; [|done]. pose proof (oo_room _ Hok p E).
  destruct (splice_is_Some p i [c]) as [p' Hp']; [lia|change (zlen [c]) with 1; lia|].
  exists p'. rewrite (splice_zlen _ _ _ _ Hp'). split; [|done]. unfold ob_store. rewrite E.
  cbn [mbind option_bind]. by rewrite Hp'.
Qed.

Lemma ob_putc_ok ob c : ob_ok ob → ob_len ob + 1 < 2 ^ 32 →
  ∃ ob', ob_putc c ob = Some (tt, ob') ∧ ob_ok ob' ∧ ob_len ob' = ob_len ob + 1 ∧ ob_size ob' = ob_size ob.
Proof.
  intros Hok Hl. pose proof Hok as [H1 H2 H3].
  assert (Hd : ∃ ob1, (match ob_p ob with
        | None => Some ob
        | Some _ =>
            if u32 (ob_len ob + 1) <? ob_size ob then ob_store (ob_len ob) c ob
            else if ob_len ob <? ob_size ob then ob_store (ob_len ob) 0 ob
            else Some ob
        end) = Some ob1 ∧ ob_size ob1 = ob_size ob ∧ ob_len ob1 = ob_len ob ∧
        ∀ p, ob_p ob1 = Some p → ob_size ob ≤ zlen p).
  { destruct (ob_p ob) as [p|] eqn:E; [|exists ob; by rewrite E].
    rewrite u32_small by lia.
    destruct (Z.ltb_spec (ob_len ob + 1) (ob_size ob)); [|destruct (Z.ltb_spec (ob_len ob) (ob_size ob))].
    - destruct (ob_store_ok ob (ob_len ob) c) as (p' & -> & ?); [done|lia|by rewrite E|].
      eexists. repeat split; try done. intros q [= <-]. done.
    - destruct (ob_store_ok ob (ob_len ob) 0) as (p' & -> & ?); [done|lia|by rewrite E|].
      eexists. repeat split; try done. intros q [= <-]. done.
    - exists ob. repeat split; try done. intros q Hq. apply H3. congruence. }
  destruct Hd as (ob1 & E & Hs1 & Hl1 & Hr1). unfold ob_putc. rewrite E. cbn [mbind option_bind].
  eexists. split; [reflexivity|]. rewrite Hl1, u32_small by lia. split; [|done].
  split; cbn [ob_len ob_size ob_p]; [lia|lia|]. rewrite Hs1. done.
Qed.

Lemma ob_puts_ok l : ∀ ob, ob_ok ob → ob_len ob + zlen l < 2 ^ 32 →
  ∃ ob', ob_puts l ob = Some (tt, ob') ∧ ob_ok ob' ∧ ob_len ob' = ob_len ob + zlen l ∧ ob_size ob' = ob_size ob.
Proof.
  induction l as [|c l IH]; intros ob Hok Hl.
  { exists ob. rewrite zlen_nil. repeat split; try done; try apply Hok. lia. }
  rewrite zlen_cons in Hl. pose proof (zlen_nonneg l).
  destruct (ob_putc_ok ob c) as (ob1 & E1 & Hok1 & Hl1 & Hs1); [done|lia|].
  destruct (IH ob1) as (ob2 & E2 & Hok2 & Hl2 & Hs2); [done|lia|].
  exists ob2. cbn [ob_puts]. rewrite (bind_eq _ _ _ _ _ E1), E2, zlen_cons.
  split; [done|]. split; [done|]. split; [lia|congruence].
Qed.

Lemma emits_ret {A} (a : A) : emits (ret a) [] a.
Proof. by intros ob _ _. Qed.
Lemma emits_lift {A} (o : option A) a : o = Some a → emits (lift o) [] a.
Proof. by intros -> ob _ _. Qed.
Lemma emits_putc c : emits (ob_putc c) [c] tt.
Proof. intros ob _ _. cbn [ob_puts]. unfold bind. by destruct (ob_putc c ob) as [[[] ?]|]. Qed.
Lemma emits_puts l : emits (ob_puts l) l tt.
Proof. intros ob _ _. unfold bind, ret. by destruct (ob_puts l ob) as [[[] ?]|]. Qed.

Lemma ob_puts_app l1 l2 ob : ob_puts (l1 ++ l2) ob = (ob_puts l1 ;; ob_puts l2) ob.
Proof.
  revert ob. induction l1 as [|c l1 IH]; intros ob; [done|]. cbn [app ob_puts]. rewrite bind_assoc.
  unfold bind at 1 2. destruct (ob_putc c ob) as [[? ob1]|]; [|done]. apply IH.
Qed.

Lemma emits_bind {A B} (m : M outbuf A) (k : A → M outbuf B) l1 l2 a b :
  emits m l1 a → emits (k a) l2 b → emits (bind m k) (l1 ++ l2) b.
Proof.
  intros Hm Hk ob Hok Hl. rewrite zlen_app in Hl. pose proof (zlen_nonneg l2).
  destruct (ob_puts_ok l1 ob) as (ob1 & E1 & Hok1 & Hl1 & _); [done|lia|].
  assert (Em : m ob = Some (a, ob1)) by (rewrite Hm by (try done; lia); unfold bind; by rewrite E1).
  rewrite (bind_eq _ _ _ _ _ Em), Hk by (try done; lia). unfold bind at 2.
  rewrite ob_puts_app. unfold bind. by rewrite E1.
Qed.
(** The same with the text given up to equality. *)
Lemma emits_seq {A B} (m : M outbuf A) (k : A → M outbuf B) l l1 l2 a b :
  emits m l1 a → emits (k a) l2 b → l = l1 ++ l2 → emits (bind m k) l b.
Proof. intros ?? ->. by eapply emits_bind. Qed.
Lemma emits_step {A B} (o : option A) (k : A → M outbuf B) l a b :
  o = Some a → emits (k a) l b → emits (bind (lift o) k) l b.
Proof. intros ??. eapply emits_seq; [by eapply emits_lift|done|done]. Qed.

Lemma emits_repeat n c : emits (ob_repeat n c) (fill n c) tt.
Proof.
  unfold ob_repeat, fill. set (k := Z.to_nat n). clearbody k.
  assert (Hf : ∀ i, emits (for_ i k (λ _, ob_putc c ;; ret (@None unit))) (replicate k c) None).
  { induction k as [|k IH]; intros i; cbn [for_ replicate]; [apply emits_ret|].
    apply (emits_seq _ _ _ [c] (replicate k c) None None); [|apply IH|done].
    eapply emits_seq; [apply emits_putc|apply emits_ret|done]. }
  eapply emits_seq; [apply Hf|apply emits_ret|by rewrite app_nil_r].
Qed.

Lemma cstring_strlen s l : cstring s = Some l → k_strlen s = Some (zlen l) ∧ slice s 0 (zlen l) = Some l.
Proof.
  revert l. induction s as [|c s IH]; intros l E; [done|]. cbn [cstring k_strlen] in *.
  destruct (c =? 0) eqn:Ec; [by injection E as <-|].
  destruct (cstring s) as [l'|]; [|done]. injection E as <-. destruct (IH l' eq_refl) as [-> Hs].
  rewrite zlen_cons. split; [by rewrite Z.add_comm|].
  apply slice_Some in Hs as (? & ? & ? & Hl). apply slice_Some. rewrite zlen_cons.
  split; [done|]. split; [lia|]. split; [lia|]. rewrite drop_0 in *.
  replace (Z.to_nat (1 + zlen l')) with (S (Z.to_nat (zlen l'))) by lia. cbn [take]. by rewrite <- Hl.
Qed.

Lemma emit_str_emits s l width ljust : cstring s = Some l → emits (emit_str s width ljust) (text_str l width ljust) tt.
Proof.
  intros (Hn & Hs)%cstring_strlen. unfold emit_str, text_str. eapply emits_step; [exact Hn|]. cbv beta.
  destruct ljust; cbn [negb].
  - eapply (emits_seq _ _ _ []); [apply emits_ret| |done]. eapply emits_step; [exact Hs|].
    eapply emits_seq; [apply emits_puts|apply emits_repeat|done].
  - eapply emits_seq; [apply emits_repeat| |done]. eapply emits_step; [exact Hs|].
    eapply emits_seq; [apply emits_puts|apply emits_ret|by rewrite app_nil_r].
Qed.

(** The digits, as the loop writes them. *)
Lemma digit_loop_digits upper base : 2 ≤ base → ∀ fuel val tmp,
  (0 < fuel)%nat → 0 ≤ val < 2 ^ Z.of_nat fuel → zlen tmp + Z.of_nat fuel ≤ TMP_SIZE →
  digit_loop fuel upper base val tmp = Some (tmp ++ reverse (digit upper <$> digits fuel base val)) ∧
  zlen (digits fuel base val) ≤ Z.of_nat fuel.
Proof.
  intros Hb. induction fuel as [|fuel IH]; intros val tmp Hf Hv Ht; [lia|].
  cbn [digit_loop digits]. unfold push_tmp. rewrite (proj2 (Z.ltb_lt _ _)) by lia. cbn [mbind option_bind].
  destruct (Z.ltb_spec val base) as [Hlt|Hge].
  - rewrite (Z.div_small val base), (Z.mod_small val base) by lia. cbn [truthy Z.eqb negb]. split; [done|].
    rewrite zlen_cons, zlen_nil. lia.
  - assert (Hq : 0 < val / base) by (apply Z.div_str_pos; lia).
    rewrite truthy_true by lia. assert (Hq2 : val / base < 2 ^ Z.of_nat fuel).
    { apply Z.div_lt_upper_bound; [lia|].
      replace (Z.of_nat (S fuel)) with (Z.succ (Z.of_nat fuel)) in Hv by lia.
      rewrite Z.pow_succ_r in Hv by lia. nia. }
    destruct (IH (val / base) (tmp ++ [digit upper (val mod base)])) as [-> Hl].
    + destruct fuel; [cbn in Hq2; lia|lia].
    + lia.
    + rewrite zlen_app, zlen_cons, zlen_nil. lia.
    + rewrite fmap_app, reverse_app. cbn [fmap list_fmap]. rewrite reverse_singleton, <- app_assoc.
      split; [done|]. rewrite zlen_app, zlen_cons, zlen_nil. lia.
Qed.

Lemma s64_range v : - 2 ^ 63 ≤ s64 v < 2 ^ 63.
Proof. unfold s64. pose proof (Z.mod_pos_bound (v + 9223372036854775808) 18446744073709551616). lia. Qed.

Lemma emit_num_emits val base upper is_signed width zero_pad ljust l :
  0 ≤ val < 2 ^ 64 → 2 ≤ base → text_num val base upper is_signed width zero_pad ljust = Some l →
  emits (emit_num val base upper is_signed width zero_pad ljust) l tt.
Proof.
  intros Hv Hb E. unfold text_num in E. unfold emit_num. pose proof (s64_range val).
  set (neg := is_signed && (s64 val <? 0)) in *.
  set (mag := if neg then - s64 val else val) in *.
  assert (Hmag : 0 ≤ mag < 2 ^ 64 ∧ (neg = true → s64 val ≠ - 2 ^ 63 → mag < 2 ^ 63)).
  { unfold mag. destruct neg eqn:En; [|lia]. unfold neg in En. bool_prop. lia. }
  destruct Hmag as [Hmag Hsm].
  destruct (neg && (s64 val =? - 2 ^ 63)) eqn:Eov; [discriminate|]. apply (inj Some) in E. rewrite <- E. clear E l.
  eapply (emits_step _ _ _ mag).
  { unfold mag. destruct neg eqn:En; [|done]. cbn [andb] in Eov. rewrite Eov. f_equal. apply u64_small.
    unfold mag in Hmag. rewrite ?En in Hmag. lia. }
  destruct (digit_loop_digits upper base Hb 65 mag []) as [Ed Hdl]; [lia|cbn; lia|by rewrite zlen_nil|].
  eapply emits_step; [exact Ed|]. cbn [app]. set (ds := digit upper <$> digits 65 base mag).
  assert (Hds : zlen ds = zlen (digits 65 base mag)) by (unfold zlen, ds; by rewrite length_fmap).
  set (sign := if neg then [MINUS] else []).
  eapply (emits_step _ _ _ (reverse (sign ++ ds))).
  { unfold sign. destruct neg; [|done]. unfold push_tmp.
    assert (Hr : zlen (reverse ds) = zlen ds) by (unfold zlen; by rewrite length_reverse).
    rewrite Hr, (proj2 (Z.ltb_lt _ _)) by (unfold TMP_SIZE; lia). by rewrite reverse_app, reverse_singleton. }
  rewrite reverse_involutive. set (body := sign ++ ds).
  assert (Hz : zlen (reverse body) = zlen body) by (unfold zlen; by rewrite length_reverse). rewrite Hz.
  assert (Hp : (if zlen body <? width then width - zlen body else 0) = Z.max 0 (width - zlen body))
    by (destruct (Z.ltb_spec (zlen body) width); lia).
  rewrite Hp. set (pad := Z.max 0 (width - zlen body)).
  assert (Hpad : fill pad SPACE = fill (width - zlen body) SPACE) by (unfold fill, pad; f_equal; lia).
  assert (Hsl : zlen sign = if neg then 1 else 0) by (unfold sign; by destruct neg).
  destruct ljust; cbn [negb andb].
  - eapply (emits_seq _ _ _ []); [apply emits_ret| |done].
    eapply (emits_seq _ _ _ []); [apply emits_ret| |done].
    eapply (emits_seq _ _ _ []); [apply emits_ret| |done].
    eapply emits_seq; [apply emits_puts|apply emits_repeat|]. by rewrite Hsl.
  - destruct zero_pad; cbn [negb andb].
    + eapply (emits_seq _ _ _ []); [apply emits_ret| |done].
      eapply (emits_seq _ _ _ sign _ (pad - zlen sign)); [| |done].
      { rewrite Hsl. unfold sign. destruct neg.
        - eapply emits_seq; [apply emits_putc|apply emits_ret|done].
        - rewrite Z.sub_0_r. apply emits_ret. }
      eapply emits_seq; [apply emits_repeat| |done].
      eapply emits_seq; [apply emits_puts|apply emits_ret|by rewrite app_nil_r].
    + rewrite <- Hpad. eapply emits_seq; [apply emits_repeat| |done].
      eapply (emits_seq _ _ _ []); [apply emits_ret| |done].
      eapply (emits_seq _ _ _ []); [apply emits_ret| |done].
      eapply emits_seq; [apply emits_puts|apply emits_ret|by rewrite app_nil_r].
Qed.

Section refine.
Context (wide : bool) (mem : Z → option (list Z)).

Lemma va_u32_range ap v ap' : va_u32 ap = Some (v, ap') → 0 ≤ v < 2 ^ 32.
Proof. destruct ap as [|x ap]; [done|]. intros [= <- _]. apply u32_range. Qed.
Lemma va_u64_range ap v ap' : va_u64 wide ap = Some (v, ap') → 0 ≤ v < 2 ^ 64.
Proof.
  unfold va_u64. destruct ap as [|x ap]; [done|]. destruct wide.
  - intros [= <- _]. apply u64_range.
  - destruct ap as [|y ap]; [done|]. intros E. apply (inj Some) in E.
    assert (v = u32 x + 2 ^ 32 * u32 y) as -> by congruence.
    pose proof (u32_range x). pose proof (u32_range y). lia.
Qed.
Lemma va_word_range ap v ap' : va_word wide ap = Some (v, ap') → 0 ≤ v < 2 ^ 64.
Proof.
  unfold va_word. destruct wide eqn:Ew.
  - rewrite <- Ew. apply va_u64_range.
  - intros E%va_u32_range. lia.
Qed.
Lemma va_int_range ap v ap' : va_int ap = Some (v, ap') → 0 ≤ v < 2 ^ 64.
Proof.
  unfold va_int. destruct (va_u32 ap) as [[x a]|]; [|done]. intros [= <- _]. apply u64_range.
Qed.
Lemma va_long_range ap v ap' : va_long wide ap = Some (v, ap') → 0 ≤ v < 2 ^ 64.
Proof.
  unfold va_long. destruct wide eqn:Ew; [rewrite <- Ew; apply va_u64_range|apply va_int_range].
Qed.

Lemma with_rest_inv l ap (x : list Z) ap' : with_rest l ap = Some (x, ap') → l = Some x ∧ ap' = ap.
Proof. unfold with_rest. destruct l; [|done]. by intros [= -> ->]. Qed.

(** A numeric directive: fetch the argument, print it. *)
Lemma emits_number o base upper sgn width zp lj (f : Z → Z) l ap' :
  (∀ v ap, o = Some (v, ap) → 0 ≤ f v < 2 ^ 64) → 2 ≤ base →
  ('(v, ap) ← o; with_rest (text_num (f v) base upper sgn width zp lj) ap) = Some (l, ap') →
  emits (let* (v, ap) := lift o in emit_num (f v) base upper sgn width zp lj ;; ret ap) l ap'.
Proof.
  intros Hr Hb E. destruct o as [[v ap]|]; [|done]. cbn [mbind option_bind] in E.
  apply with_rest_inv in E as [E ->]. eapply emits_step; [done|]. cbv beta iota.
  eapply emits_seq; [apply emit_num_emits; [by eapply Hr|done|exact E]|apply emits_ret|by rewrite app_nil_r].
Qed.

Lemma convert_emits c lj zp width lmod ap l ap' :
  text_conv wide mem c lj zp width lmod ap = Some (l, ap') →
  emits (convert wide mem c lj zp width lmod ap) l ap'.
Proof.
  unfold text_conv, convert. intros E.
  destruct (c =? 37). { injection E as <- <-. eapply emits_seq; [apply emits_putc|apply emits_ret|done]. }
  destruct (c =? 99).
  { destruct (va_u32 ap) as [[v a]|]; [|done]. injection E as <- <-. eapply emits_step; [done|]. cbv beta iota.
    eapply emits_seq; [apply emit_str_emits|apply emits_ret|by rewrite app_nil_r].
    cbn [cstring]. by destruct (u8 v =? 0). }
  destruct (c =? 115).
  { destruct (va_word wide ap) as [[p a]|]; [|done]. eapply emits_step; [done|]. cbv beta iota.
    cbn [mbind option_bind] in E. destruct (truthy p).
    - destruct (va_word wide a) as [[q a2]|]; [|done]. eapply emits_step; [done|]. cbv beta iota.
      cbn [mbind option_bind] in E. destruct (mem q) as [s|]; [|done]. eapply emits_step; [done|]. cbv beta.
      cbn [mbind option_bind] in E. destruct (cstring s) as [s'|] eqn:Es; [|done]. injection E as <- <-.
      eapply emits_seq; [by apply emit_str_emits|apply emits_ret|by rewrite app_nil_r].
    - injection E as <- <-.
      eapply emits_seq; [by apply emit_str_emits|apply emits_ret|by rewrite app_nil_r]. }
  destruct ((c =? 100) || (c =? 105)).
  { apply (emits_number _ 10 false true width zp lj (λ v, v)); [|lia|exact E]. intros v a Ev.
    destruct (2 <=? lmod); [by eapply va_u64_range|].
    destruct (lmod =? 1); [by eapply va_long_range|by eapply va_int_range]. }
  destruct (c =? 117).
  { apply (emits_number _ 10 false false width zp lj (λ v, v)); [|lia|exact E]. intros v a Ev.
    destruct (2 <=? lmod); [by eapply va_u64_range|].
    destruct (lmod =? 1); [by eapply va_word_range|]. apply va_u32_range in Ev. lia. }
  destruct (c =? 112).
  { destruct (va_word wide ap) as [[v a]|] eqn:Ev; [|done]. eapply emits_step; [done|]. cbv beta iota.
    cbn [mbind option_bind] in E. apply with_rest_inv in E as [E ->].
    destruct (text_num v 16 false false (sizeof_ptr wide * 2) true false) as [t|] eqn:Et; [|done].
    injection E as <-. unfold emit_ptr.
    eapply emits_seq; [|apply emits_ret|by rewrite app_nil_r].
    eapply (emits_seq _ _ _ [48]); [apply emits_putc| |done].
    eapply (emits_seq _ _ _ [120]); [apply emits_putc| |done].
    apply emit_num_emits; [by eapply va_word_range|lia|exact Et]. }
  destruct ((c =? 120) || (c =? 88) || (c =? 111)).
  { assert (Hm : ∀ v, (if lmod =? 0 then Z.land v 4294967295 else v) = if lmod =? 0 then v mod 2 ^ 32 else v).
    { intros v. destruct (lmod =? 0); [|done]. by apply (land_ones_low v 32). }
    destruct (if (2 <=? lmod) || (lmod =? 0) then va_u64 wide ap else va_word wide ap) as [[v a]|] eqn:Ev; [|done].
    cbn [mbind option_bind] in E. apply with_rest_inv in E as [E ->].
    eapply emits_step; [done|]. cbv beta iota zeta. rewrite Hm.
    eapply emits_seq; [|apply emits_ret|by rewrite app_nil_r].
    assert (Hv : 0 ≤ v < 2 ^ 64).
    { destruct ((2 <=? lmod) || (lmod =? 0)); [by eapply va_u64_range|by eapply va_word_range]. }
    apply emit_num_emits; [|destruct (c =? 111); lia|exact E].
    destruct (lmod =? 0); [|done]. pose proof (Z.mod_pos_bound v (2 ^ 32)). lia. }
  injection E as <- <-. eapply (emits_seq _ _ _ [PERCENT]); [apply emits_putc| |done].
  eapply emits_seq; [apply emits_putc|apply emits_ret|done].
Qed.

Lemma format_emits fuel : ∀ fmt ap l, text wide mem fuel fmt ap = Some l →
  emits (format_loop wide mem fuel fmt ap) l tt.
Proof.
  induction fuel as [|fuel IH]; intros fmt ap l E; [done|]. cbn [text format_loop] in *.
  destruct (head fmt) as [c|]; [|done]. cbn [mbind option_bind] in E.
  eapply emits_step; [done|]. cbv beta. destruct (c =? 0); [injection E as <-; apply emits_ret|].
  destruct (negb (c =? PERCENT)).
  { destruct (text wide mem fuel (tail fmt) ap) as [l'|] eqn:El; [|done]. injection E as <-.
    eapply (emits_seq _ _ _ [c]); [apply emits_putc|by apply IH|done]. }
  destruct (scan_flags (tail fmt) false false) as [[[lj zp] f1]|]; [|done]. cbn [mbind option_bind] in E.
  eapply emits_step; [done|]. cbv beta iota.
  destruct (scan_width f1 0) as [[w f2]|]; [|done]. cbn [mbind option_bind] in E.
  eapply emits_step; [done|]. cbv beta iota.
  destruct (scan_lmod f2 0) as [[lm f3]|]; [|done]. cbn [mbind option_bind] in E.
  eapply emits_step; [done|]. cbv beta iota.
  destruct (head f3) as [c'|]; [|done]. cbn [mbind option_bind] in E.
  eapply emits_step; [done|]. cbv beta.
  destruct (text_conv wide mem c' lj zp w lm ap) as [[l1 ap']|] eqn:Ec; [|done]. cbn [mbind option_bind] in E.
  destruct (text wide mem fuel (tail f3) ap') as [l2|] eqn:E2; [|done]. injection E as <-.
  eapply emits_seq; [by apply convert_emits|by apply IH|done].
Qed.
End refine.

(** ** The buffer *)

(** The first [size - 1] characters of [l], a NUL, and the rest of [b]. *)
Definition truncated (b : list Z) (size : Z) (l : list Z) : list Z :=
  let n := Z.to_nat (Z.min (zlen l) (size - 1)) in
  take n l ++ [0] ++ drop (S n) b.

(** The buffer before the final NUL. *)
Definition partial (b : list Z) (size : Z) (l : list Z) : list Z :=
  if zlen l <? size then l ++ drop (length l) b else truncated b size l.

Lemma splice_at (l1 l2 : list Z) c : l2 ≠ [] → splice (l1 ++ l2) (zlen l1) [c] = Some (l1 ++ [c] ++ tail l2).
Proof.
  intros Hne. destruct l2 as [|x l2]; [done|]. apply splice_Some. pose proof (zlen_nonneg l1). pose proof (zlen_nonneg l2).
  change (zlen [c]) with 1. rewrite zlen_app, zlen_cons. split; [lia|]. split; [lia|].
  unfold zlen. rewrite Nat2Z.id, take_app_length, drop_app. cbn [length tail].
  rewrite drop_ge by lia. by replace (length l1 + 1 - length l1)%nat with 1%nat by lia.
Qed.

Lemma drop_tail {X} (b : list X) n : (n < length b)%nat → drop n b ≠ [] ∧ tail (drop n b) = drop (S n) b.
Proof.
  intros Hn. destruct (lookup_lt_is_Some_2 b n Hn) as [x Hx]. by rewrite (drop_S _ _ _ Hx).
Qed.

Lemma ob_puts_buffer b size : 0 < size ≤ zlen b → ∀ l, zlen l < 2 ^ 32 →
  ob_puts l (Outbuf (Some b) size 0) = Some (tt, Outbuf (Some (partial b size l)) size (zlen l)).
Proof.
  intros Hs. induction l as [|c l IH] using rev_ind; intros Hl.
  { unfold partial. change (zlen []) with 0. rewrite (proj2 (Z.ltb_lt 0 size)) by lia. done. }
  rewrite zlen_snoc in Hl. pose proof (zlen_nonneg l).
  rewrite ob_puts_app, (bind_eq _ _ _ _ _ (IH ltac:(lia))). cbn [ob_puts].
  unfold bind, ob_putc. cbn [ob_p ob_len ob_size]. rewrite u32_small by lia.
  unfold partial, ob_store. rewrite zlen_snoc. destruct (Z.ltb_spec (zlen l + 1) size) as [Hlt|Hge].
  - rewrite (proj2 (Z.ltb_lt (zlen l) size)) by lia. cbn [ob_p mbind option_bind].
    destruct (drop_tail b (length l)) as [Hne Ht]; [unfold zlen in *; lia|].
    rewrite splice_at, Ht by done. cbn [mbind option_bind ob_p ob_size ob_len].
    rewrite u32_small by lia.
    unfold ret. rewrite length_app. cbn [length]. rewrite <- app_assoc.
    by replace (length l + 1)%nat with (S (length l)) by lia.
  - destruct (Z.ltb_spec (zlen l) size) as [Heq|Hgt].
    + cbn [ob_p mbind option_bind].
      destruct (drop_tail b (length l)) as [Hne Ht]; [unfold zlen in *; lia|].
      rewrite splice_at, Ht by done. cbn [mbind option_bind ob_p ob_size ob_len].
      rewrite u32_small by lia. unfold ret, truncated. rewrite zlen_snoc.
      replace (Z.to_nat (Z.min (zlen l + 1) (size - 1))) with (length l) by (unfold zlen in *; lia).
      rewrite take_app_length. done.
    + cbn [ob_p mbind option_bind ob_size ob_len]. rewrite u32_small by lia. unfold ret, truncated.
      rewrite zlen_snoc.
      replace (Z.min (zlen l + 1) (size - 1)) with (size - 1) by lia.
      replace (Z.min (zlen l) (size - 1)) with (size - 1) by lia.
      rewrite take_app_le by (unfold zlen in *; lia). done.
Qed.

Lemma partial_end b size l : 0 < size ≤ zlen b →
  splice (partial b size l) (if zlen l <? size then zlen l else size - 1) [0] = Some (truncated b size l).
Proof.
  intros Hs. pose proof (zlen_nonneg l). unfold partial. destruct (Z.ltb_spec (zlen l) size) as [Hlt|Hge].
  - destruct (drop_tail b (length l)) as [Hne Ht]; [unfold zlen in *; lia|]. rewrite splice_at, Ht by done.
    unfold truncated. replace (Z.to_nat (Z.min (zlen l) (size - 1))) with (length l) by (unfold zlen in *; lia).
    by rewrite take_ge by lia.
  - unfold truncated. replace (Z.min (zlen l) (size - 1)) with (size - 1) by lia.
    assert (Ht : zlen (take (Z.to_nat (size - 1)) l) = size - 1) by (apply zlen_take; lia).
    pose proof (splice_at (take (Z.to_nat (size - 1)) l) ([0] ++ drop (S (Z.to_nat (size - 1))) b) 0) as Hsp.
    rewrite Ht in Hsp. by apply Hsp.
Qed.

Lemma kvsnprintf_run wide mem b size fmt ap l :
  text wide mem (S (length fmt)) fmt ap = Some l → zlen l < 2 ^ 31 → 0 < size ≤ zlen b → size < 2 ^ 32 →
  kvsnprintf wide mem (Some b) size fmt ap = Some (zlen l, Some (truncated b size l)).
Proof.
  intros E Hl Hs Hs2. unfold kvsnprintf. pose proof (zlen_nonneg l).
  rewrite (format_emits wide mem _ _ _ _ E).
  2: { split; cbn [ob_p ob_len ob_size]; [lia|lia|]. intros p [= <-]. lia. }
  2: { cbn [ob_len]. lia. }
  rewrite (bind_eq _ _ _ _ _ (ob_puts_buffer b size Hs l ltac:(lia))). unfold ret. cbn [mbind option_bind ob_p ob_len ob_size].
  rewrite truthy_true by lia. unfold ob_store. cbn [ob_p ob_len ob_size]. rewrite u32_small by lia.
  cbn [mbind option_bind]. rewrite (partial_end b size l Hs). cbn [mbind option_bind ob_p ob_len].
  do 2 f_equal. unfold s32. rewrite Z.mod_small by lia. lia.
Qed.

(** ** Numbers *)

(** What a list of digits, the most significant first, denotes. *)
Definition value (base : Z) (ds : list Z) : Z := foldl (λ a d, a * base + d) 0 ds.

(** The digits printed are digits of the base and denote the number. *)
Lemma digits_value base : 2 ≤ base → ∀ fuel val, 0 ≤ val < 2 ^ Z.of_nat fuel → (0 < fuel)%nat →
  value base (digits fuel base val) = val ∧ Forall (λ d, 0 ≤ d < base) (digits fuel base val) ∧
  digits fuel base val ≠ [].
Proof.
  intros Hb. induction fuel as [|fuel IH]; intros val Hv Hf; [lia|]. cbn [digits].
  destruct (Z.ltb_spec val base) as [Hlt|Hge].
  { unfold value. cbn [foldl]. split; [lia|]. split; [constructor; [lia|constructor]|done]. }
  assert (Hq : 0 < val / base) by (apply Z.div_str_pos; lia).
  assert (Hq2 : val / base < 2 ^ Z.of_nat fuel).
  { apply Z.div_lt_upper_bound; [lia|]. replace (Z.of_nat (S fuel)) with (Z.succ (Z.of_nat fuel)) in Hv by lia.
    rewrite Z.pow_succ_r in Hv by lia. nia. }
  destruct (IH (val / base)) as (Hval & Hds & _); [lia|destruct fuel; [cbn in Hq2; lia|lia]|].
  split; [|split; [|by intros [_ ?]%app_nil]].
  - unfold value in *. rewrite foldl_app, Hval. cbn [foldl]. pose proof (Z.div_mod val base). lia.
  - apply Forall_app. split; [done|]. constructor; [|constructor]. apply Z.mod_pos_bound. lia.
Qed.

(** ** The formatter *)

(** C13: for every format whose arguments are there, [kvsnprintf] writes
    nothing outside its buffer, leaves the first [size - 1] characters of the
    text followed by a NUL, keeps the bytes behind them, and returns the
    length of the whole text. [text] says what the text is: numbers are
    printed in the digits that denote them ([digits_value]). *)
Theorem kvsnprintf_bounded wide mem b size fmt ap l :
  text wide mem (S (length fmt)) fmt ap = Some l → zlen l < 2 ^ 31 → 0 < size ≤ zlen b → size < 2 ^ 32 →
  kvsnprintf wide mem (Some b) size fmt ap = Some (zlen l, Some (truncated b size l)).
Proof. apply kvsnprintf_run. Qed.

(** ["%5d|%-4u|%x"]. *)
Definition demo_fmt : list Z := [37; 53; 100; 124; 37; 45; 52; 117; 124; 37; 120; 0].

Lemma kvsnprintf_bounded_witness :
  (* "  -12|7   |ff" *)
  let l := [32; 32; 45; 49; 50; 124; 55; 32; 32; 32; 124; 102; 102] in
  text true (λ _, None) 13 demo_fmt [- 12; 7; 255] = Some l ∧
  kvsnprintf true (λ _, None) (Some (zeros 8)) 8 demo_fmt [- 12; 7; 255] =
    Some (13, Some [32; 32; 45; 49; 50; 124; 55; 0]).
Proof.
  split; [by vm_compute|].
  apply (kvsnprintf_bounded true (λ _, None) (zeros 8) 8 demo_fmt [- 12; 7; 255]
    [32; 32; 45; 49; 50; 124; 55; 32; 32; 32; 124; 102; 102]); [by vm_compute|done|split; by vm_compute|done].
Defined.

(** ["%s"] takes two arguments and prints the second. *)
Definition demo_strings (p : Z) : option (list Z) :=
  if p =? 1 then Some [97; 0] else if p =? 2 then Some [98; 0] else None.
Example string_takes_two :
  kvsnprintf true demo_strings (Some (zeros 4)) 4 [37; 115; 0] [1; 2] = Some (1, Some [98; 0; 0; 0]) ∧
  kvsnprintf true demo_strings (Some (zeros 4)) 4 [37; 115; 0] [1] = None.
Proof. by vm_compute. Qed.

(** ["%05d"] of -42 is "-0-42", ["%-5d|"] of -42 is "-42 |". *)
Example negative_padded :
  kvsnprintf true (λ _, None) (Some (zeros 8)) 8 [37; 48; 53; 100; 0] [- 42] =
    Some (5, Some [45; 48; 45; 52; 50; 0; 0; 0]) ∧
  kvsnprintf true (λ _, None) (Some (zeros 8)) 8 [37; 45; 53; 100; 124; 0] [- 42] =
    Some (5, Some [45; 52; 50; 32; 124; 0; 0; 0]).
Proof. by vm_compute. Qed.

(** A lone percent sign at the end makes the loop run past the terminator. *)
Example lone_percent : kvsnprintf true (λ _, None) (Some (zeros 8)) 8 [37; 0] [] = None.
Proof. by vm_compute. Qed.

(** On i386 ["%x %x"] takes 64 bits for each argument. *)
Example hex_takes_two :
  kvsnprintf false (λ _, None) (Some (zeros 8)) 8 [37; 120; 37; 120; 0] [1; 2; 3; 4] = Some (2, Some [49; 51; 0; 0; 0; 0; 0; 0]).
Proof. by vm_compute. Qed.
