(* ===== verification/Ports.v ===== *)
(** * include/io.h: port access, and memory-mapped registers

    The hardware behind the ports is a parameter: [P] is its state, and an
    access may change it. A driver whose state contains the hardware reaches
    it through [HasPorts]. *)
From S2P Require Import Prelude.

Class Ports (P : Type) := {
  inb : Z → P → Z * P;
  inw : Z → P → Z * P;
  inl : Z → P → Z * P;
  outb : Z → Z → P → P;
  outw : Z → Z → P → P;
  outl : Z → Z → P → P;
}.

Class HasPorts (S P : Type) := {
  ports : S → P;
  set_ports : P → S → S;
}.

#[export] Instance ports_self P : HasPorts P P := {| ports := id; set_ports := λ p _, p |}.

(** A state whose ports are a field. *)
Class LawfulPorts (S P : Type) `{HasPorts S P} : Prop := {
  ports_set : ∀ p (s : S), ports (set_ports p s) = p;
  set_set : ∀ p q (s : S), set_ports p (set_ports q s) = set_ports p s;
  set_same : ∀ s : S, s = set_ports (ports s) s;
}.
#[export] Instance lawful_self P : LawfulPorts P P.
Proof. by split. Qed.

Section io.
Context {S P : Type} `{Ports P, HasPorts S P}.

Definition io_read (f : Z → P → Z * P) (port : Z) : M S Z := λ s,
  let '(v, p) := f port (ports s) in Some (v, set_ports p s).
Definition io_write (f : Z → Z → P → P) (port v : Z) : M S unit :=
  modify (λ s, set_ports (f port v (ports s)) s).

(** Port numbers are 16 bits. *)
Definition io_inb (port : Z) : M S Z := io_read inb (u16 port).
Definition io_inw (port : Z) : M S Z := io_read inw (u16 port).
Definition io_inl (port : Z) : M S Z := io_read inl (u16 port).
Definition io_outb (port v : Z) : M S unit := io_write outb (u16 port) v.
Definition io_outw (port v : Z) : M S unit := io_write outw (u16 port) v.
Definition io_outl (port v : Z) : M S unit := io_write outl (u16 port) v.

Definition io_wait : M S unit := io_outb 0x80 0.

(** What a read and a write do. *)
Lemma io_read_eq f port s v p : f port (ports s) = (v, p) → io_read f port s = Some (v, set_ports p s).
Proof. intros E. unfold io_read. by rewrite E. Qed.
Lemma io_write_eq f port v s : io_write f port v s = Some (tt, set_ports (f port v (ports s)) s).
Proof. reflexivity. Qed.
End io.

(** ** Memory-mapped registers

    A device with registers in memory that also works on [mem] by itself: what
    its registers do, and [run], what it has done to the shared memory when the
    processor looks at it again. *)
Class Mmio (D mem : Type) := {
  mmio_read : Z → D → Z * D;
  mmio_write : Z → Z → D → D;
  run : D → mem → D * mem;
}.

(** 32-bit words of hardware at physical addresses. *)
Class Regs32 (P : Type) := {
  reg_read : Z → P → Z * P;
  reg_write : Z → Z → P → P;
}.

(** ** Bounded waiting

    [spin n body] is [while (n--) body]: at most [n] rounds, left by the first
    one that returns. The recursion is on the binary number, since the bounds
    are in the millions. *)
Fixpoint spin_pos {S R} (n : positive) (body : M S (option R)) : M S (option R) :=
  match n with
  | xH => body
  | xO q =>
      let* r := spin_pos q body in
      match r with Some x => ret (Some x) | None => spin_pos q body end
  | xI q =>
      let* r := body in
      match r with
      | Some x => ret (Some x)
      | None =>
          let* r := spin_pos q body in
          match r with Some x => ret (Some x) | None => spin_pos q body end
      end
  end.
Definition spin {S R} (n : Z) (body : M S (option R)) : M S (option R) :=
  match n with
  | Zpos p => spin_pos p body
  | _ => ret None
  end.

(** The loop that ends in the first round, and the one that never ends early. *)
Lemma spin_first {S R} n (body : M S (option R)) s x s' :
  0 < n → body s = Some (Some x, s') → spin n body s = Some (Some x, s').
Proof.
  intros Hn E. destruct n as [|p|]; try lia. cbn [spin]. induction p as [p IH|p IH|]; cbn [spin_pos].
  - by rewrite (bind_eq _ _ _ _ _ E).
  - by rewrite (bind_eq _ _ _ _ _ (IH ltac:(lia))).
  - done.
Qed.

(** It is the counted loop. *)
Lemma for_app {S R} (body : M S (option R)) m n i j s :
  for_ i (m + n) (λ _, body) s =
    (let* r := for_ i m (λ _, body) in match r with Some x => ret (Some x) | None => for_ j n (λ _, body) end) s.
Proof.
  assert (Hi : ∀ n i j s, for_ i n (λ _, body) s = for_ j n (λ _, body) s).
  { clear. induction n as [|n IH]; intros i j s; [done|]. cbn [for_]. unfold bind.
    destruct (body s) as [[[x|] s1]|]; try done. }
  revert i s. induction m as [|m IH]; intros i s; cbn [for_ Nat.add]; [by rewrite bind_ret; apply Hi|].
  rewrite bind_assoc. unfold bind at 1 2. destruct (body s) as [[[x|] s1]|]; [done| |done]. apply IH.
Qed.
Lemma spin_for {S R} n (body : M S (option R)) s : spin n body s = for_ 0 (Z.to_nat n) (λ _, body) s.
Proof.
  destruct n as [|p|]; [done| |done]. unfold Z.to_nat. cbn [spin]. revert s.
  assert (Hbind : ∀ (m m' : M S (option R)) (k k' : option R → M S (option R)) s,
    (∀ s, m s = m' s) → (∀ r s, k r s = k' r s) → bind m k s = bind m' k' s).
  { intros m m' k k' s Hm Hk. unfold bind. rewrite Hm. destruct (m' s) as [[r s1]|]; [apply Hk|done]. }
  induction p as [p IH|p IH|]; intros s.
  - cbn [spin_pos]. replace (Pos.to_nat p~1) with (1 + (Pos.to_nat p + Pos.to_nat p))%nat by lia.
    rewrite (for_app body 1 (Pos.to_nat p + Pos.to_nat p) 0 0). apply Hbind.
    { intros s'. cbn [for_]. unfold bind, ret. by destruct (body s') as [[[x|] s1]|]. }
    intros [x|] s'; [done|]. rewrite (for_app body _ _ 0 0). apply Hbind; [apply IH|]. by intros [x|] s2; [|apply IH].
  - cbn [spin_pos]. replace (Pos.to_nat p~0) with (Pos.to_nat p + Pos.to_nat p)%nat by lia.
    rewrite (for_app body _ _ 0 0). apply Hbind; [apply IH|]. by intros [x|] s2; [|apply IH].
  - change (Pos.to_nat 1) with 1%nat. cbn [spin_pos for_]. unfold bind, ret. by destruct (body s) as [[[x|] s1]|].
Qed.
