(* ===== verification/Ata.v ===== *)
(** * drivers/block/ata.c: the ATA PIO driver

    The state is the table of drives, the staging buffers and the hardware
    behind the ports. The entry points of drive [idx] are the read and write
    functions of a block device; messages to the console are left out.

    The drive is a parameter: [AtaDisk] states the programmed-IO protocol of
    ATA for a drive that raises DRQ as soon as it gets a command, the kind
    of drive the code relies on, since it does not wait for DRQ
    ([transfer_ignores_drq] shows what it does with any other). *)
From S2P Require Import Prelude KString Blkdev Ports.

Definition ATA_SECTOR_SIZE : Z := 512.

(** Task-file registers. *)
Definition ATA_DATA : Z := 0.
Definition ATA_SECCOUNT : Z := 2.
Definition ATA_LBA_LO : Z := 3.
Definition ATA_LBA_MID : Z := 4.
Definition ATA_LBA_HI : Z := 5.
Definition ATA_DRIVE : Z := 6.
Definition ATA_STATUS : Z := 7.
Definition ATA_COMMAND : Z := 7.

Definition AST_BSY : Z := 0x80.
Definition AST_DF : Z := 0x20.
Definition AST_DRQ : Z := 0x08.
Definition AST_ERR : Z := 0x01.

Definition AC_IDENTIFY : Z := 0xEC.
Definition AC_READ_EXT : Z := 0x24.
Definition AC_WRITE_EXT : Z := 0x34.
Definition AC_FLUSH : Z := 0xE7.

Definition MAX_DRIVES : Z := 4.

Record ata_drive := AtaDrive {
  io_base : Z;
  ctl_base : Z;
  slave : bool;
  drv_present : bool;
  drv_sectors : Z;
  model : list Z;
}.
Definition drive_zero : ata_drive := AtaDrive 0 0 false false 0 (zeros 41).

Section ata.
Context {P : Type} `{Ports P}.

Record ata := Ata {
  drives : list ata_drive;
  staging : list (list Z);
  hw : P;
}.
Definition ata0 (p : P) : ata :=
  Ata (replicate (Z.to_nat MAX_DRIVES) drive_zero) (replicate (Z.to_nat MAX_DRIVES) (zeros ATA_SECTOR_SIZE)) p.

#[export] Instance ata_ports : HasPorts ata P :=
  {| ports := hw; set_ports := λ p s, Ata (drives s) (staging s) p |}.

(** ** Status *)

Definition status_of (d : ata_drive) : M ata Z := io_inb (io_base d + ATA_STATUS).

Definition wait400ns (d : ata_drive) : M ata unit :=
  let* _ := for_ 0 4 (λ _, let* _ := io_inb (ctl_base d) in ret (@None unit)) in
  ret tt.

Definition wait_not_busy (d : ata_drive) (spins : Z) : M ata Z :=
  let* r := spin spins (
    let* st := status_of d in
    if negb (has st AST_BSY) then ret (Some 0) else io_wait ;; ret None) in
  ret (default (-1) r).

Definition wait_ready_for_data (d : ata_drive) (spins : Z) : M ata Z :=
  let* r := spin spins (
    let* st := status_of d in
    if has st AST_ERR then ret (Some (-1))
    else if negb (has st AST_BSY) && has st AST_DRQ then ret (Some 0)
    else ret None) in
  ret (default (-1) r).

Definition select_drive (d : ata_drive) : M ata unit :=
  io_outb (io_base d + ATA_DRIVE) (if slave d then 0xF0 else 0xE0) ;;
  wait400ns d.

(** ** Commands *)

Definition issue_lba48 (d : ata_drive) (lba count cmd : Z) : M ata Z :=
  if (count =? 0) || (65535 <? count) then ret (-1)
  else
    try wait_not_busy d 1000000 else -1 in
    select_drive d ;;
    io_outb (io_base d + ATA_SECCOUNT) (u8 (Z.shiftr count 8)) ;;
    io_outb (io_base d + ATA_LBA_LO) (u8 (Z.shiftr lba 24)) ;;
    io_outb (io_base d + ATA_LBA_MID) (u8 (Z.shiftr lba 32)) ;;
    io_outb (io_base d + ATA_LBA_HI) (u8 (Z.shiftr lba 40)) ;;
    io_outb (io_base d + ATA_SECCOUNT) (u8 count) ;;
    io_outb (io_base d + ATA_LBA_LO) (u8 lba) ;;
    io_outb (io_base d + ATA_LBA_MID) (u8 (Z.shiftr lba 8)) ;;
    io_outb (io_base d + ATA_LBA_HI) (u8 (Z.shiftr lba 16)) ;;
    io_outb (io_base d + ATA_COMMAND) cmd ;;
    ret 0.

(** [for (i = 0; i < 256; i++) id[i] = inw(..)]. *)
Fixpoint read_words (n : nat) (d : ata_drive) : M ata (list Z) :=
  match n with
  | O => ret []
  | S n =>
      let* w := io_inw (io_base d + ATA_DATA) in
      let* l := read_words n d in
      ret (w :: l)
  end.

(** The model string: words 27 to 46, high byte first, without the spaces at
    the end. *)
Definition model_chars (id : list Z) : list Z :=
  concat ((λ w, [u8 (Z.shiftr w 8); Z.land w 0xFF]) <$> take 20 (drop 27 id)).
(** [while (o >= 0 && model[o] == ' ') model[o--] = 0], from the end. *)
Fixpoint blank_tail (rev_model : list Z) : list Z :=
  match rev_model with
  | [] => []
  | c :: r => if c =? 32 then 0 :: blank_tail r else rev_model
  end.

(** The result and the drive; what it has stored when it fails is kept. *)
Definition identify (d : ata_drive) : M ata (bool * ata_drive) :=
  select_drive d ;;
  io_outb (io_base d + ATA_SECCOUNT) 0 ;;
  io_outb (io_base d + ATA_LBA_LO) 0 ;;
  io_outb (io_base d + ATA_LBA_MID) 0 ;;
  io_outb (io_base d + ATA_LBA_HI) 0 ;;
  io_outb (io_base d + ATA_COMMAND) AC_IDENTIFY ;;
  let* st := status_of d in
  if (st =? 0) || (st =? 0xFF) then ret (false, d)
  else
    let* mid := io_inb (io_base d + ATA_LBA_MID) in
    let* atapi :=
      if truthy mid then ret true
      else let* hi := io_inb (io_base d + ATA_LBA_HI) in ret (truthy hi) in
    if atapi : bool then ret (false, d)
    else
      try wait_ready_for_data d 5000000 else (false, d) in
      let* id := read_words 256 d in
      let w i := default 0 (id !! Z.to_nat i) in
      if negb (has (w 83) 1024) then ret (false, d)
      else
        let n28 := Z.lor (Z.shiftl (w 61) 16) (w 60) in
        let n48 := Z.lor (Z.lor (Z.lor (Z.shiftl (w 103) 48) (Z.shiftl (w 102) 32)) (Z.shiftl (w 101) 16)) (w 100) in
        let n := if truthy n48 then n48 else n28 in
        if n =? 0 then ret (false, AtaDrive (io_base d) (ctl_base d) (slave d) (drv_present d) n (model d))
        else
          let m := reverse (blank_tail (reverse (model_chars id))) ++ [0] in
          ret (true, AtaDrive (io_base d) (ctl_base d) (slave d) true n m).

(** ** Transfers *)

Definition get_buf (idx : Z) : M ata (list Z) := (let* l := gets staging in lift (l !! Z.to_nat idx)).
Definition put_buf (idx : Z) (b : list Z) : M ata unit :=
  modify (λ s, Ata (drives s) (<[Z.to_nat idx := b]> (staging s)) (hw s)).

(** [for (i = 0; i < ATA_SECTOR_SIZE; i += 2)]. *)
Fixpoint move_words (n : nat) (d : ata_drive) (idx i : Z) (write : bool) : M ata unit :=
  match n with
  | O => ret tt
  | S n =>
      (if write then
         let* buf := get_buf idx in
         let* lo := lift (ld8 buf i) in
         let* hi := lift (ld8 buf (i + 1)) in
         io_outw (io_base d + ATA_DATA) (Z.lor lo (u16 (Z.shiftl hi 8)))
       else
         let* v := io_inw (io_base d + ATA_DATA) in
         let* buf := get_buf idx in
         let* buf := lift (splice buf i [u8 v; u8 (Z.shiftr v 8)]) in
         put_buf idx buf) ;;
      move_words n d idx (i + 2) write
  end.

Definition transfer_sector (d : ata_drive) (idx lba : Z) (write : bool) : M ata Z :=
  try issue_lba48 d lba 1 (if write then AC_WRITE_EXT else AC_READ_EXT) else -1 in
  move_words 256 d idx 0 write ;;
  try wait_not_busy d 20000000 else -1 in
  let* st := status_of d in
  if has st (Z.lor AST_ERR AST_DF) then ret (-1)
  else
    (if write then io_outb (io_base d + ATA_COMMAND) AC_FLUSH else ret tt) ;;
    ret 0.

Definition get_drive (idx : Z) : M ata ata_drive := (let* l := gets drives in lift (l !! Z.to_nat idx)).

(** [for (s = 0; s < count; s++)]: return code and buffer. *)
Fixpoint read_loop (n : nat) (d : ata_drive) (idx lba s : Z) (out : list Z) : M ata (Z * list Z) :=
  match n with
  | O => ret (0, out)
  | S n =>
      try transfer_sector d idx (u64 (lba + s)) false else (-1, out) in
      let* buf := get_buf idx in
      let* out := lift (splice out (u32 (s * ATA_SECTOR_SIZE)) buf) in
      read_loop n d idx lba (s + 1) out
  end.

Definition drv_read (idx lba count : Z) (buf : list Z) : M ata (Z * list Z) :=
  let* d := get_drive idx in
  if negb (drv_present d) then ret (-1, buf)
  else read_loop (Z.to_nat count) d idx lba 0 buf.

Fixpoint write_loop (n : nat) (d : ata_drive) (idx lba s : Z) (in_ : list Z) : M ata Z :=
  match n with
  | O => ret 0
  | S n =>
      let* l := lift (slice in_ (u32 (s * ATA_SECTOR_SIZE)) ATA_SECTOR_SIZE) in
      put_buf idx l ;;
      try transfer_sector d idx (u64 (lba + s)) true else -1 in
      write_loop n d idx lba (s + 1) in_
  end.

Definition drv_write (idx lba count : Z) (buf : list Z) : M ata Z :=
  let* d := get_drive idx in
  if negb (drv_present d) then ret (-1)
  else write_loop (Z.to_nat count) d idx lba 0 buf.

(** [readers[idx]] and [writers[idx]]. *)
Definition readers (idx : Z) : read_fn ata := λ lba c b s,
  '(rc, b', s') ← drv_read idx lba c b s; Some (rc, b', s').
Definition writers (idx : Z) : write_fn ata := λ lba c b s, drv_write idx lba c b s.

(** ** Probing *)

(** The block device of a drive; its name is the bus with [m] or [s]. *)
Definition drive_device (idx : Z) (prefix : list Z) (d : ata_drive) : option (blk_device ata) :=
  nm ← k_strcpy (zeros BLKDEV_NAME_LEN) (prefix ++ [if slave d then 115 else 109; 0]);
  Some (BlkDevice nm (drv_sectors d) ATA_SECTOR_SIZE true true (Some (readers idx)) (Some (writers idx))).

(** Soft reset and a first look. *)
Definition reset_drive (d : ata_drive) : M ata Z :=
  io_outb (ctl_base d) 0x06 ;;
  wait400ns d ;;
  io_outb (ctl_base d) 0x02 ;;
  wait400ns d ;;
  select_drive d ;;
  status_of d.

Definition put_drive (idx : Z) (d : ata_drive) : M ata unit :=
  modify (λ s, Ata (<[Z.to_nat idx := d]> (drives s)) (staging s) (hw s)).

(** One drive: [None] is [continue], [Some] the result of [blk_register]. *)
Definition probe_drive (idx : Z) (io ctl : Z) (prefix : list Z) (sl : bool) (r : registry ata)
    : M ata (option (bool * registry ata)) :=
  let d := AtaDrive io ctl sl false 0 (zeros 41) in
  put_drive idx d ;;
  let* st := reset_drive d in
  if st =? 0xFF then ret None
  else
    let* (ok, d) := identify d in
    put_drive idx d ;;
    if negb ok then ret None
    else
      let* bd := lift (drive_device idx prefix d) in
      let* r := lift (blk_register (Some bd) r) in
      ret (Some r).

(** [for (sl = 0; sl < 2 && idx < MAX_DRIVES; sl++, idx++)]: the index and
    the registry after a bus. *)
Fixpoint probe_bus (n : nat) (sl : bool) (idx io ctl : Z) (prefix : list Z) (r : registry ata)
    : M ata (Z * registry ata) :=
  match n with
  | O => ret (idx, r)
  | S n =>
      if MAX_DRIVES <=? idx then ret (idx, r)
      else
        let* x := probe_drive idx io ctl prefix sl r in
        match x with
        | Some (false, r) => ret (idx + 1, r)
        | Some (true, r) => probe_bus n true (idx + 1) io ctl prefix r
        | None => probe_bus n true (idx + 1) io ctl prefix r
        end
  end.

Definition buses : list (Z * Z * list Z) :=
  [(0x1F0, 0x3F6, [97; 116; 97; 48]); (0x170, 0x376, [97; 116; 97; 49])].

Fixpoint probe_buses (bs : list (Z * Z * list Z)) (idx : Z) (r : registry ata) : M ata (registry ata) :=
  match bs with
  | [] => ret r
  | (io, ctl, prefix) :: bs =>
      let* (idx, r) := probe_bus 2 false idx io ctl prefix r in
      probe_buses bs idx r
  end.

Definition ata_probe (r : registry ata) : M ata (registry ata) := probe_buses buses 0 r.
End ata.
Arguments ata : clear implicits.

(** ** The drive

    What a drive does next: wait for a command, hand out the rest of a
    sector, or collect the bytes of one. *)
Inductive phase := Idle | DataIn (l : list Z) | DataOut (lba : Z) (l : list Z) | Unknown.

(** The two latest bytes written to the task-file registers, the current one
    first. *)
Definition taskfile : Type := Z → Z * Z.

(** The 48-bit address and the count in a task file. *)
Definition tf_lba (t : taskfile) : Z :=
  le_of [fst (t ATA_LBA_LO); fst (t ATA_LBA_MID); fst (t ATA_LBA_HI);
         snd (t ATA_LBA_LO); snd (t ATA_LBA_MID); snd (t ATA_LBA_HI)].
Definition tf_count (t : taskfile) : Z := le_of [fst (t ATA_SECCOUNT); snd (t ATA_SECCOUNT)].

(** [n] sectors behind the registers of [d]. *)
Class AtaDisk {P} `{Ports P} (d : ata_drive) (n : Z) (ok : P → Prop) (ph : P → phase) (tf : P → taskfile)
    (img : P → Z → list Z) := {
  ad_len : ∀ p i, ok p → 0 ≤ i < n → zlen (img p i) = 512 ∧ bytes_ok (img p i);
  ad_status : ∀ p, ok p → ph p ≠ Unknown → ∃ st p', inb (u16 (io_base d + ATA_STATUS)) p = (st, p') ∧
    has st AST_BSY = false ∧ (ph p = Idle → has st (Z.lor AST_ERR AST_DF) = false) ∧
    ok p' ∧ ph p' = ph p ∧ (∀ k, tf p' k = tf p k) ∧ (∀ i, img p' i = img p i);
  ad_control : ∀ p, ok p → ∃ st p', inb (u16 (ctl_base d)) p = (st, p') ∧
    ok p' ∧ ph p' = ph p ∧ (∀ k, tf p' k = tf p k) ∧ (∀ i, img p' i = img p i);
  ad_register : ∀ p r v, ok p → ph p = Idle → 2 ≤ r ≤ 6 → 0 ≤ v < 256 →
    let p' := outb (u16 (io_base d + r)) v p in
    ok p' ∧ ph p' = Idle ∧ (∀ i, img p' i = img p i) ∧
    ∀ k, tf p' k = if k =? r then (v, fst (tf p r)) else tf p k;
  ad_read : ∀ p, ok p → ph p = Idle → fst (tf p ATA_DRIVE) = (if slave d then 0xF0 else 0xE0) →
    tf_count (tf p) = 1 → 0 ≤ tf_lba (tf p) < n →
    let p' := outb (u16 (io_base d + ATA_COMMAND)) AC_READ_EXT p in
    ok p' ∧ ph p' = DataIn (img p (tf_lba (tf p))) ∧ (∀ i, img p' i = img p i);
  ad_write : ∀ p, ok p → ph p = Idle → fst (tf p ATA_DRIVE) = (if slave d then 0xF0 else 0xE0) →
    tf_count (tf p) = 1 → 0 ≤ tf_lba (tf p) < n →
    let p' := outb (u16 (io_base d + ATA_COMMAND)) AC_WRITE_EXT p in
    ok p' ∧ ph p' = DataOut (tf_lba (tf p)) [] ∧ (∀ i, img p' i = img p i);
  ad_flush : ∀ p, ok p → ph p = Idle →
    let p' := outb (u16 (io_base d + ATA_COMMAND)) AC_FLUSH p in
    ok p' ∧ ph p' = Idle ∧ (∀ i, img p' i = img p i);
  ad_in : ∀ p a b l, ok p → ph p = DataIn (a :: b :: l) → ∃ p',
    inw (u16 (io_base d + ATA_DATA)) p = (a + 256 * b, p') ∧
    ok p' ∧ ph p' = (if decide (l = []) then Idle else DataIn l) ∧ (∀ i, img p' i = img p i);
  ad_out : ∀ p lba l a b, ok p → ph p = DataOut lba l → zlen l < 512 → byte_ok a → byte_ok b →
    let p' := outw (u16 (io_base d + ATA_DATA)) (a + 256 * b) p in
    let l' := l ++ [a; b] in
    ok p' ∧
    if zlen l' =? 512 then ph p' = Idle ∧ (∀ i, img p' i = if i =? lba then l' else img p i)
    else ph p' = DataOut lba l' ∧ (∀ i, img p' i = img p i);
}.

Section driver.
Context {P : Type} `{Ports P} (d : ata_drive) (n : Z) (ok : P → Prop) (ph : P → phase) (tf : P → taskfile)
  (img : P → Z → list Z) `{!AtaDisk d n ok ph tf img}.

(** The state with the hardware [p]. *)
#[local] Abbreviation at_ p s := (Ata (drives s) (staging s) p).
Definition quiet_to (p p' : P) : Prop :=
  ok p' ∧ ph p' = ph p ∧ (∀ k, tf p' k = tf p k) ∧ (∀ i, img p' i = img p i).

Lemma settled_trans p1 p2 p3 : quiet_to p1 p2 → quiet_to p2 p3 → quiet_to p1 p3.
Proof.
  intros (O1 & P1 & T1 & I1) (O2 & P2 & T2 & I2). split; [done|]. split; [congruence|].
  split; intros; [by rewrite T2|by rewrite I2].
Qed.

Lemma status_run (s : ata P) p : ok p → ph p ≠ Unknown → ∃ st p', status_of d (at_ p s) = Some (st, at_ p' s) ∧
  has st AST_BSY = false ∧ (ph p = Idle → has st (Z.lor AST_ERR AST_DF) = false) ∧ quiet_to p p'.
Proof.
  intros Hok Hp. destruct (ad_status p Hok Hp) as (st & p' & E & ? & ? & ?). exists st, p'.
  split; [|by split]. unfold status_of, io_inb. by rewrite (io_read_eq _ _ _ st p').
Qed.

Lemma not_busy_run (s : ata P) p spins : 0 < spins → ok p → ph p ≠ Unknown →
  ∃ p', wait_not_busy d spins (at_ p s) = Some (0, at_ p' s) ∧ quiet_to p p'.
Proof.
  intros Hs Hok Hp. destruct (status_run s p Hok Hp) as (st & p' & E & Hb & _ & Hq). exists p'. split; [|done].
  unfold wait_not_busy. rewrite (bind_eq _ _ (at_ p s) (Some 0) (at_ p' s)); [done|].
  apply spin_first; [done|]. mstep E. by rewrite Hb.
Qed.

Lemma wait400_run (s : ata P) p : ok p → ∃ p', wait400ns d (at_ p s) = Some (tt, at_ p' s) ∧ quiet_to p p'.
Proof.
  intros Hok. unfold wait400ns.
  assert (Hf : ∀ k i p, ok p → ∃ p', for_ i k (λ _, let* _ := io_inb (ctl_base d) in ret (@None unit)) (at_ p s) =
    Some (None, at_ p' s) ∧ quiet_to p p').
  { induction k as [|k IH]; intros i q Hq; cbn [for_]; [by exists q|].
    destruct (ad_control q Hq) as (st & q' & E & Hq'). pose proof Hq' as (Hok' & _).
    destruct (IH (i + 1) q' Hok') as (q2 & E2 & Hq2). exists q2. split; [|by eapply settled_trans].
    assert (Er : io_inb (ctl_base d) (at_ q s) = Some (st, at_ q' s))
      by (unfold io_inb; by rewrite (io_read_eq _ _ _ st q')).
    rewrite bind_assoc. mstep Er. exact E2. }
  destruct (Hf 4%nat 0 p Hok) as (p' & E & Hq). exists p'. split; [|done]. by mstep E.
Qed.

(** One register of an idle drive. *)
Lemma register_run (s : ata P) p r v : ok p → ph p = Idle → 2 ≤ r ≤ 6 → 0 ≤ v < 256 →
  ∃ p', io_outb (io_base d + r) v (at_ p s) = Some (tt, at_ p' s) ∧ ok p' ∧ ph p' = Idle ∧
    (∀ i, img p' i = img p i) ∧ ∀ k, tf p' k = if k =? r then (v, fst (tf p r)) else tf p k.
Proof. intros Hok Hp Hr Hv. eexists. split; [reflexivity|]. by apply ad_register. Qed.

Lemma select_run (s : ata P) p : ok p → ph p = Idle →
  ∃ p', select_drive d (at_ p s) = Some (tt, at_ p' s) ∧ ok p' ∧ ph p' = Idle ∧
    (∀ i, img p' i = img p i) ∧ fst (tf p' ATA_DRIVE) = (if slave d then 0xF0 else 0xE0).
Proof.
  intros Hok Hp. unfold select_drive.
  destruct (register_run s p ATA_DRIVE (if slave d then 0xF0 else 0xE0)) as (p1 & E1 & Ok1 & Ph1 & I1 & T1);
    [done|done|done|destruct (slave d); lia|].
  mstep E1. destruct (wait400_run s p1 Ok1) as (p2 & E2 & Ok2 & Ph2 & T2 & I2). exists p2.
  split; [done|]. split; [done|]. split; [congruence|]. split; [intros i; by rewrite I2|]. by rewrite T2, T1.
Qed.

Lemma u8_shift lba k : 0 ≤ lba → 0 ≤ k → u8 (Z.shiftr lba k) = lba / 2 ^ k mod 256.
Proof. intros. unfold u8. by rewrite Z.shiftr_div_pow2. Qed.

Lemma lba_bytes lba : 0 ≤ lba < 2 ^ 48 →
  le_of [u8 lba; u8 (Z.shiftr lba 8); u8 (Z.shiftr lba 16); u8 (Z.shiftr lba 24); u8 (Z.shiftr lba 32);
         u8 (Z.shiftr lba 40)] = lba.
Proof.
  intros Hl. rewrite !u8_shift by lia.
  change (2 ^ 8) with 256. change (2 ^ 16) with (256 * 256). change (2 ^ 24) with (256 * 256 * 256).
  change (2 ^ 32) with (256 * 256 * 256 * 256). change (2 ^ 40) with (256 * 256 * 256 * 256 * 256).
  rewrite <- !Z.div_div by lia. change (le_of (le_to 6 lba) = lba).
  rewrite le_of_to. by apply Z.mod_small.
Qed.

(** A register after a write of some register. *)
#[local] Ltac look T := rewrite T; cbn [Z.eqb Pos.eqb fst snd].

(** Programming a transfer of one sector. *)
Lemma issue_run (s : ata P) p lba cmd : ok p → ph p = Idle → 0 ≤ lba < 2 ^ 48 →
  ∃ p', issue_lba48 d lba 1 cmd (at_ p s) = Some (0, at_ (outb (u16 (io_base d + ATA_COMMAND)) cmd p') s) ∧
    ok p' ∧ ph p' = Idle ∧ (∀ i, img p' i = img p i) ∧
    fst (tf p' ATA_DRIVE) = (if slave d then 0xF0 else 0xE0) ∧ tf_count (tf p') = 1 ∧ tf_lba (tf p') = lba.
Proof.
  intros Hok Hp Hl. unfold issue_lba48. change ((1 =? 0) || (65535 <? 1)) with false. cbv iota.
  destruct (not_busy_run s p 1000000) as (p1 & E1 & Ok1 & Ph1 & _ & I1); [done|done|by rewrite Hp|]. mstep E1.
  change (truthy 0) with false. cbv iota.
  destruct (select_run s p1) as (p2 & E2 & Ok2 & Ph2 & I2 & T2); [done|congruence|]. mstep E2.
  assert (Hreg : ∀ p r v, ok p → ph p = Idle → 2 ≤ r ≤ 6 → ∃ p', io_outb (io_base d + r) (u8 v) (at_ p s) = Some (tt, at_ p' s) ∧
    ok p' ∧ ph p' = Idle ∧ (∀ i, img p' i = img p i) ∧ ∀ k, tf p' k = if k =? r then (u8 v, fst (tf p r)) else tf p k)
    by (intros; apply register_run; [done|done|done|apply u8_range]).
  destruct (Hreg p2 ATA_SECCOUNT (Z.shiftr 1 8)) as (p3 & E3 & Ok3 & Ph3 & I3 & T3); [done..|]. mstep E3.
  destruct (Hreg p3 ATA_LBA_LO (Z.shiftr lba 24)) as (p4 & E4 & Ok4 & Ph4 & I4 & T4); [done..|]. mstep E4.
  destruct (Hreg p4 ATA_LBA_MID (Z.shiftr lba 32)) as (p5 & E5 & Ok5 & Ph5 & I5 & T5); [done..|]. mstep E5.
  destruct (Hreg p5 ATA_LBA_HI (Z.shiftr lba 40)) as (p6 & E6 & Ok6 & Ph6 & I6 & T6); [done..|]. mstep E6.
  destruct (Hreg p6 ATA_SECCOUNT 1) as (p7 & E7 & Ok7 & Ph7 & I7 & T7); [done..|]. mstep E7.
  destruct (Hreg p7 ATA_LBA_LO lba) as (p8 & E8 & Ok8 & Ph8 & I8 & T8); [done..|]. mstep E8.
  destruct (Hreg p8 ATA_LBA_MID (Z.shiftr lba 8)) as (p9 & E9 & Ok9 & Ph9 & I9 & T9); [done..|]. mstep E9.
  destruct (Hreg p9 ATA_LBA_HI (Z.shiftr lba 16)) as (p10 & E10 & Ok10 & Ph10 & I10 & T10); [done..|]. mstep E10.
  exists p10. split; [done|]. split; [done|]. split; [done|].
  split. { intros i. by rewrite I10, I9, I8, I7, I6, I5, I4, I3, I2, I1. }
  unfold ATA_DRIVE, ATA_SECCOUNT, ATA_LBA_LO, ATA_LBA_MID, ATA_LBA_HI in *.
  assert (C2 : tf p10 2 = (u8 1, u8 (Z.shiftr 1 8)))
    by (look T10; look T9; look T8; look T7; look T6; look T5; look T4; look T3; done).
  assert (C3 : tf p10 3 = (u8 lba, u8 (Z.shiftr lba 24))) by (look T10; look T9; look T8; look T7; look T6; look T5; look T4; done).
  assert (C4 : tf p10 4 = (u8 (Z.shiftr lba 8), u8 (Z.shiftr lba 32))) by (look T10; look T9; look T8; look T7; look T6; look T5; done).
  assert (C5 : tf p10 5 = (u8 (Z.shiftr lba 16), u8 (Z.shiftr lba 40))) by (look T10; look T9; look T8; look T7; look T6; done).
  assert (C6 : tf p10 6 = tf p2 6) by (look T10; look T9; look T8; look T7; look T6; look T5; look T4; look T3; done).
  unfold tf_count, tf_lba, ATA_SECCOUNT, ATA_LBA_LO, ATA_LBA_MID, ATA_LBA_HI. rewrite C2, C3, C4, C5, C6.
  split; [done|]. split; [done|]. by apply lba_bytes.
Qed.

(** ** Sectors *)

Lemma word_in (idx i : Z) (b : list Z) x y v :
  byte_ok x → byte_ok y → v = x + 256 * y → 0 ≤ i → i + 2 ≤ zlen b →
  splice b i [u8 v; u8 (Z.shiftr v 8)] = Some (take (Z.to_nat i) b ++ [x; y] ++ drop (Z.to_nat i + 2) b).
Proof.
  intros Hx Hy -> Hi Hb. unfold byte_ok in *. rewrite u8_shift by lia.
  replace (u8 (x + 256 * y)) with x by (unfold u8; mod_lia).
  replace ((x + 256 * y) / 2 ^ 8 mod 256) with y by (change (2 ^ 8) with 256; mod_lia).
  apply splice_Some. split; [done|]. split; [done|]. done.
Qed.

Lemma get_buf_run idx (s : ata P) b : staging s !! Z.to_nat idx = Some b → get_buf idx s = Some (b, s).
Proof. intros E. unfold get_buf. mred. by rewrite E. Qed.

Lemma move_in idx k : ∀ i (s : ata P) p b l,
  staging s !! Z.to_nat idx = Some b → zlen b = 512 → ok p → 0 ≤ i → i + 2 * Z.of_nat k = 512 →
  ph p = (if decide (l = []) then Idle else DataIn l) → zlen l = 2 * Z.of_nat k → bytes_ok l →
  ∃ p', move_words k d idx i false (at_ p s) =
      Some (tt, Ata (drives s) (<[Z.to_nat idx := take (Z.to_nat i) b ++ l]> (staging s)) p') ∧
    ok p' ∧ ph p' = Idle ∧ ∀ j, img p' j = img p j.
Proof.
  induction k as [|k IH]; intros i s p b l Hb Hbl Hok Hi Hik Hp Hl Hby; cbn [move_words].
  { assert (l = []) as -> by (destruct l; [done|rewrite zlen_cons in Hl; pose proof (zlen_nonneg l); lia]).
    exists p. rewrite decide_True in Hp by done. split; [|done]. unfold ret. do 3 f_equal.
    rewrite take_ge, app_nil_r by (unfold zlen in *; lia). by rewrite list_insert_id. }
  destruct l as [|x [|y l]]; [rewrite zlen_nil in Hl; lia|change (zlen [x]) with 1 in Hl; lia|].
  rewrite !zlen_cons in Hl. inversion Hby as [|? ? Hx Hby2]; subst. inversion Hby2 as [|? ? Hy Hby3]; subst.
  rewrite decide_False in Hp by done. destruct (ad_in p x y l Hok Hp) as (p1 & E & Ok1 & Ph1 & I1).
  assert (Er : io_inw (io_base d + ATA_DATA) (at_ p s) = Some (x + 256 * y, at_ p1 s))
    by (unfold io_inw; by rewrite (io_read_eq _ _ _ (x + 256 * y) p1)).
  rewrite bind_assoc. mstep Er. mstep (get_buf_run idx (at_ p1 s) b Hb).
  rewrite (word_in idx i b x y) by (done || lia). mred. unfold put_buf. mred. cbn [drives staging hw].
  set (b1 := take (Z.to_nat i) b ++ [x; y] ++ drop (Z.to_nat i + 2) b).
  assert (Hb1 : zlen b1 = 512).
  { unfold b1, zlen in *. rewrite !length_app, length_take, length_drop. cbn [length]. lia. }
  set (s1 := Ata (drives s) (<[Z.to_nat idx := b1]> (staging s)) (hw s)).
  destruct (IH (i + 2) s1 p1 b1 l) as (p2 & E2 & Ok2 & Ph2 & I2); try done; try lia.
  { cbn [staging s1]. apply list_lookup_insert_eq. by eapply lookup_lt_Some. }
  exists p2. split; [|split; [done|split; [done|intros j; by rewrite I2]]].
  etrans; [exact E2|]. cbn [drives staging s1]. rewrite list_insert_insert_eq. do 4 f_equal.
  unfold b1. replace (Z.to_nat (i + 2)) with (length (take (Z.to_nat i) b ++ [x; y])).
  2: { unfold zlen in *. rewrite length_app, length_take. cbn [length]. lia. }
  rewrite app_assoc, take_app_length. by rewrite <- app_assoc.
Qed.

Lemma move_out idx k : ∀ i (s : ata P) p b lba,
  staging s !! Z.to_nat idx = Some b → zlen b = 512 → bytes_ok b → ok p → 0 ≤ i →
  i + 2 * Z.of_nat (S k) = 512 → ph p = DataOut lba (take (Z.to_nat i) b) →
  ∃ p', move_words (S k) d idx i true (at_ p s) = Some (tt, at_ p' s) ∧
    ok p' ∧ ph p' = Idle ∧ ∀ j, img p' j = if j =? lba then b else img p j.
Proof.
  induction k as [|k IH]; intros i s p b lba Hb Hbl Hby Hok Hi Hik Hp.
  all: assert (Hlen : (Z.to_nat i + 1 < length b)%nat) by (unfold zlen in *; lia).
  all: destruct (lookup_lt_is_Some_2 b (Z.to_nat i)) as [x Hx]; [lia|].
  all: destruct (lookup_lt_is_Some_2 b (Z.to_nat i + 1)) as [y Hy]; [lia|].
  all: assert (Hbx : byte_ok x) by (by eapply (list.Forall_lookup_1 _ _ _ _ Hby)).
  all: assert (Hbyy : byte_ok y) by (by eapply (list.Forall_lookup_1 _ _ _ _ Hby)).
  all: assert (Hw : Z.lor x (u16 (Z.shiftl y 8)) = x + 256 * y)
    by (unfold byte_ok in *; rewrite Z.shiftl_mul_pow2, u16_small by lia; rewrite Z.lor_comm;
        rewrite (lor_disjoint _ _ 8) by (try lia; apply Z.mod_mul; lia); lia).
  all: assert (Hl2 : take (Z.to_nat i) b ++ [x; y] = take (Z.to_nat (i + 2)) b)
    by (replace (Z.to_nat (i + 2)) with (S (S (Z.to_nat i))) by lia;
        rewrite (take_S_r b (S (Z.to_nat i)) y) by (rewrite <- Hy; f_equal; lia);
        rewrite (take_S_r b (Z.to_nat i) x) by done; by rewrite <- app_assoc).
  all: destruct (ad_out p lba (take (Z.to_nat i) b) x y Hok Hp) as [Ok1 Hnext];
    [rewrite zlen_take; unfold zlen in *; lia|done|done|]; cbv zeta in *; rewrite Hl2 in Hnext.
  all: assert (Hz : zlen (take (Z.to_nat (i + 2)) b) = i + 2) by (apply zlen_take; lia).
  all: rewrite Hz in Hnext; cbn [move_words].
  all: rewrite bind_assoc; mstep (get_buf_run idx (at_ p s) b Hb).
  all: rewrite (ld8_eq b i x), (ld8_eq b (i + 1) y) by (done || lia || (rewrite <- Hy; f_equal; lia)).
  all: mred; rewrite Hw; unfold io_outw; mstep (io_write_eq outw (u16 (io_base d + ATA_DATA)) (x + 256 * y) (at_ p s)).
  - replace (i + 2 =? 512) with true in Hnext by (symmetry; apply Z.eqb_eq; lia). destruct Hnext as [Ph1 I1].
    eexists. split; [reflexivity|]. split; [done|]. split; [done|]. intros j. cbn [hw ports ata_ports]. rewrite I1.
    by rewrite take_ge by (unfold zlen in *; lia).
  - replace (i + 2 =? 512) with false in Hnext by (symmetry; apply Z.eqb_neq; lia). destruct Hnext as [Ph1 I1].
    destruct (IH (i + 2) s _ b lba Hb Hbl Hby Ok1) as (p2 & E2 & Ok2 & Ph2 & I2); [lia|lia|done|].
    cbn [move_words] in E2. unfold io_outw in E2. rewrite bind_assoc in E2. exists p2. split; [exact E2|].
    split; [done|]. split; [done|]. intros j. by rewrite I2, I1.
Qed.

Lemma transfer_read idx (s : ata P) p lba b :
  staging s !! Z.to_nat idx = Some b → zlen b = 512 → ok p → ph p = Idle → 0 ≤ lba < n → lba < 2 ^ 48 →
  ∃ p', transfer_sector d idx lba false (at_ p s) =
      Some (0, Ata (drives s) (<[Z.to_nat idx := img p lba]> (staging s)) p') ∧
    ok p' ∧ ph p' = Idle ∧ ∀ j, img p' j = img p j.
Proof.
  intros Hb Hbl Hok Hp Hl Hl48. unfold transfer_sector. destruct (ad_len p lba Hok Hl) as [Hil Hib].
  destruct (issue_run s p lba AC_READ_EXT) as (p1 & E1 & Ok1 & Ph1 & I1 & D1 & C1 & L1); [done|done|lia|].
  mstep E1. change (truthy 0) with false. cbv iota.
  destruct (ad_read p1 Ok1 Ph1 D1 C1) as (Ok2 & Ph2 & I2); [by rewrite L1|]. cbv zeta in *. set (p2 := outb _ _ p1) in *.
  rewrite L1, I1 in Ph2.
  destruct (move_in idx 256 0 s p2 b (img p lba)) as (p3 & E3 & Ok3 & Ph3 & I3); try done.
  { rewrite decide_False; [done|]. intros E. by rewrite E in Hil. }
  mstep E3. cbn [take Z.to_nat app]. set (s3 := Ata (drives s) (<[Z.to_nat idx := img p lba]> (staging s)) (hw s)).
  change (Ata (drives s) _ p3) with (at_ p3 s3).
  destruct (not_busy_run s3 p3 20000000) as (p4 & E4 & Ok4 & Ph4 & _ & I4); [done|done|by rewrite Ph3|]. mstep E4.
  change (truthy 0) with false. cbv iota.
  destruct (status_run s3 p4) as (st & p5 & E5 & _ & Hst & Ok5 & Ph5 & _ & I5); [done|by rewrite Ph4, Ph3|].
  mstep E5. rewrite Hst by congruence. mred. exists p5. split; [done|]. split; [done|]. split; [congruence|].
  intros j. by rewrite I5, I4, I3, I2, I1.
Qed.

Lemma transfer_write idx (s : ata P) p lba b :
  staging s !! Z.to_nat idx = Some b → zlen b = 512 → bytes_ok b → ok p → ph p = Idle → 0 ≤ lba < n → lba < 2 ^ 48 →
  ∃ p', transfer_sector d idx lba true (at_ p s) = Some (0, at_ p' s) ∧
    ok p' ∧ ph p' = Idle ∧ ∀ j, img p' j = if j =? lba then b else img p j.
Proof.
  intros Hb Hbl Hby Hok Hp Hl Hl48. unfold transfer_sector.
  destruct (issue_run s p lba AC_WRITE_EXT) as (p1 & E1 & Ok1 & Ph1 & I1 & D1 & C1 & L1); [done|done|lia|].
  mstep E1. change (truthy 0) with false. cbv iota.
  destruct (ad_write p1 Ok1 Ph1 D1 C1) as (Ok2 & Ph2 & I2); [by rewrite L1|]. cbv zeta in *. set (p2 := outb _ _ p1) in *.
  rewrite L1 in Ph2. destruct (move_out idx 255 0 s p2 b lba) as (p3 & E3 & Ok3 & Ph3 & I3); [done..|].
  mstep E3.
  destruct (not_busy_run s p3 20000000) as (p4 & E4 & Ok4 & Ph4 & _ & I4); [done|done|by rewrite Ph3|]. mstep E4.
  change (truthy 0) with false. cbv iota.
  destruct (status_run s p4) as (st & p5 & E5 & _ & Hst & Ok5 & Ph5 & _ & I5); [done|by rewrite Ph4, Ph3|].
  mstep E5. rewrite Hst by congruence. destruct (ad_flush p5 Ok5) as (Ok6 & Ph6 & I6); [congruence|].
  unfold io_outb. mstep (io_write_eq outb (u16 (io_base d + ATA_COMMAND)) AC_FLUSH (at_ p5 s)).
  eexists. split; [reflexivity|]. split; [done|]. split; [done|]. intros j. cbv zeta in I6.
  cbn [hw ports ata_ports]. by rewrite I6, I5, I4, I3, I2, I1.
Qed.

(** *** The transfer loops *)

Definition ready (idx : Z) (s : ata P) : Prop :=
  drives s !! Z.to_nat idx = Some d ∧ (∃ b, staging s !! Z.to_nat idx = Some b ∧ zlen b = 512) ∧
  ok (hw s) ∧ ph (hw s) = Idle.

Lemma read_loop_run idx lba k : ∀ j (s : ata P) out, ready idx s → 0 ≤ j → 0 ≤ lba →
  lba + j + Z.of_nat k ≤ n → n ≤ 2 ^ 48 → (j + Z.of_nat k) * 512 < 2 ^ 32 → (j + Z.of_nat k) * 512 ≤ zlen out →
  ∃ s', read_loop k d idx lba j out s =
      Some ((0, take (Z.to_nat (j * 512)) out ++ read_range (img (hw s)) (lba + j) k ++
                drop (Z.to_nat (j * 512) + k * 512) out), s') ∧
    ready idx s' ∧ ∀ i, img (hw s') i = img (hw s) i.
Proof.
  induction k as [|k IH]; intros j s out Hs Hj Hl Hn Hn48 Hbig Hout; cbn [read_loop].
  { exists s. split; [|done]. unfold ret, read_range. rewrite seqZ_nil by done. cbn [fmap list_fmap concat app].
    by rewrite Nat.add_0_r, take_drop. }
  pose proof Hs as (Hdr & (b & Hb & Hbl) & Hok & Hp).
  destruct (transfer_read idx s (hw s) (lba + j) b) as (p1 & E1 & Ok1 & Ph1 & I1); [done|done|done|done|lia|lia|].
  destruct s as [dr st p]. cbn [drives staging hw] in *. rewrite u64_small by lia. mstep E1.
  change (truthy 0) with false. cbv iota.
  destruct (ad_len p (lba + j) Hok) as [Hil Hib]; [lia|].
  set (s1 := Ata dr (<[Z.to_nat idx := img p (lba + j)]> st) p1).
  assert (Hg : staging s1 !! Z.to_nat idx = Some (img p (lba + j)))
    by (apply list_lookup_insert_eq; by eapply lookup_lt_Some).
  mstep (get_buf_run idx s1 _ Hg). unfold ATA_SECTOR_SIZE. rewrite u32_small by lia.
  destruct (splice_is_Some out (j * 512) (img p (lba + j))) as [out1 Hout1]; [lia|lia|]. rewrite Hout1. mred.
  destruct (IH (j + 1) s1 out1) as (s2 & E2 & Hs2 & I2); try done; try lia.
  { split; [done|]. split; [by exists (img p (lba + j))|done]. }
  { rewrite (splice_zlen _ _ _ _ Hout1). lia. }
  exists s2. rewrite E2. split; [|split; [done|intros i; by rewrite I2, <- I1]]. do 3 f_equal.
  apply splice_Some in Hout1 as (_ & _ & ->). unfold read_range.
  rewrite (seqZ_cons (lba + j) (Z.of_nat (S k))) by lia. rewrite fmap_cons. cbn [concat].
  replace (Z.pred (Z.of_nat (S k))) with (Z.of_nat k) by lia. replace (Z.succ (lba + j)) with (lba + (j + 1)) by lia.
  replace (Z.to_nat ((j + 1) * 512)) with (Z.to_nat (j * 512) + 512)%nat by lia.
  assert (Hpre : length (take (Z.to_nat (j * 512)) out) = Z.to_nat (j * 512))
    by (rewrite length_take; unfold zlen in *; lia).
  assert (Hsec : length (img p (lba + j)) = 512%nat) by (unfold zlen in Hil; lia).
  rewrite <- !app_assoc. rewrite take_app, Hpre. rewrite take_ge by lia. rewrite <- app_assoc. f_equal.
  replace (Z.to_nat (j * 512) + 512 - Z.to_nat (j * 512))%nat with (length (img p (lba + j))) by lia.
  rewrite take_app_length. f_equal. f_equal.
  - f_equal. apply list_fmap_ext. intros ? i _. by rewrite I1.
  - rewrite drop_app, Hpre. rewrite drop_ge by lia. rewrite drop_app, Hsec. rewrite drop_ge by lia.
    rewrite drop_drop. cbn [app]. f_equal. lia.
Qed.

Lemma write_loop_run idx lba b k : ∀ j (s : ata P), ready idx s → 0 ≤ j → 0 ≤ lba →
  lba + j + Z.of_nat k ≤ n → n ≤ 2 ^ 48 → (j + Z.of_nat k) * 512 < 2 ^ 32 → (j + Z.of_nat k) * 512 ≤ zlen b →
  bytes_ok b →
  ∃ s', write_loop k d idx lba j b s = Some (0, s') ∧ ready idx s' ∧
    ∀ i, img (hw s') i = if decide (lba + j ≤ i < lba + j + Z.of_nat k)
                         then take 512 (drop (Z.to_nat ((i - lba) * 512)) b) else img (hw s) i.
Proof.
  induction k as [|k IH]; intros j s Hs Hj Hl Hn Hn48 Hbig Hbl Hby; cbn [write_loop].
  { exists s. split; [done|]. split; [done|]. intros i. by rewrite decide_False by lia. }
  pose proof Hs as (Hdr & (b0 & Hb0 & Hb0l) & Hok & Hp). unfold ATA_SECTOR_SIZE. rewrite u32_small, u64_small by lia.
  destruct (slice_is_Some b (j * 512) 512) as [l Hsl]; [lia..|]. rewrite Hsl. mred.
  pose proof (slice_zlen _ _ _ _ Hsl) as Hll. pose proof (slice_bytes_ok _ _ _ _ Hby Hsl) as Hlb.
  destruct s as [dr st p]. cbn [drives staging hw] in *. unfold put_buf. mred. cbn [drives staging hw].
  set (s1 := Ata dr (<[Z.to_nat idx := l]> st) p).
  assert (Hg : staging s1 !! Z.to_nat idx = Some l) by (apply list_lookup_insert_eq; by eapply lookup_lt_Some).
  destruct (transfer_write idx s1 p (lba + j) l) as (p1 & E1 & Ok1 & Ph1 & I1); [done|done|done|done|done|lia|lia|].
  change (Ata (drives s1) (staging s1) p) with s1 in E1. mstep E1. change (truthy 0) with false. cbv iota.
  destruct (IH (j + 1) (Ata (drives s1) (staging s1) p1)) as (s2 & E2 & Hs2 & I2); try done; try lia.
  { split; [done|]. split; [by exists l|done]. }
  exists s2. split; [done|]. split; [done|]. intros i. rewrite I2. cbn [hw]. rewrite I1.
  destruct (Z.eqb_spec i (lba + j)) as [->|Hne].
  - rewrite decide_False, decide_True by lia. apply slice_Some in Hsl as (_ & _ & _ & ->).
    change (Z.to_nat 512) with 512%nat. do 2 f_equal. lia.
  - destruct (decide (lba + (j + 1) ≤ i < lba + (j + 1) + Z.of_nat k)).
    + by rewrite decide_True by lia.
    + by rewrite decide_False by lia.
Qed.

Lemma ata_device_ok idx nm : drv_present d = true → drv_sectors d = n → 0 < n ≤ 2 ^ 48 →
  SectorDevice (BlkDevice nm n ATA_SECTOR_SIZE true true (Some (readers idx)) (Some (writers idx)))
    (ready idx) (λ s, img (hw s)).
Proof.
  intros Hpr Hns Hn. split; cbn [sectors read_sectors write_sectors dev_writable].
  - intros s i (_ & _ & Hok & _) Hi. by apply ad_len.
  - intros s i (_ & _ & Hok & _) Hi. by apply ad_len.
  - intros s lba k b Hs Hk Hl Hln Hb Hbig. pose proof Hs as (Hdr & _).
    destruct (read_loop_run idx lba k 0 s b Hs) as (s' & E & Hs' & I'); [lia..|].
    exists (readers idx), s'. split; [done|]. split; [done|]. split; [by intros; apply I'|].
    assert (Eg : get_drive idx s = Some (d, s)) by (unfold get_drive; mred; by rewrite Hdr).
    assert (Er : drv_read idx lba (Z.of_nat k) b s = Some ((0, read_range (img (hw s)) lba k ++ drop (k * 512) b), s')).
    { unfold drv_read. mstep Eg. rewrite Hpr, Nat2Z.id. cbn [negb]. rewrite E. by rewrite Z.add_0_r. }
    unfold readers. by rewrite Er.
  - intros s lba k b Hs Hk Hl Hln Hb Hbig Hby. pose proof Hs as (Hdr & _).
    destruct (write_loop_run idx lba b k 0 s Hs) as (s' & E & Hs' & I'); [lia..|done|].
    exists (writers idx), s'. split; [done|]. split; [done|]. split.
    { intros i _. rewrite I'. unfold put_range. by rewrite Z.add_0_r. }
    assert (Eg : get_drive idx s = Some (d, s)) by (unfold get_drive; mred; by rewrite Hdr).
    unfold writers, drv_write. mstep Eg. rewrite Hpr, Nat2Z.id. cbn [negb]. exact E.
  - done.
  - lia.
Qed.
End driver.

(** ** A drive

    The master of the first bus, with [b_sectors] sectors: ready at once when
    [b_latency] is 0, else only after so many reads of the status register. *)
Record bus := Bus {
  b_phase : phase;
  b_tf : taskfile;
  b_img : list Z;
  b_wait : Z;
  b_latency : Z;
}.

(** What IDENTIFY returns: the size, LBA48, and a model name in blanks. *)
Definition b_sectors (p : bus) : Z := zlen (b_img p) / 512.
Definition id_block (n : Z) : list Z :=
  zeros 54 ++ [73; 68; 75; 83] ++ replicate 36 32 ++ zeros 72 ++ [0; 4] ++ zeros 32 ++ le_to 8 n ++ zeros 304.

(** The slave is selected, which is not there. *)
Definition no_drive (p : bus) : bool := Z.testbit (fst (b_tf p ATA_DRIVE)) 4.

Definition bus_inb (port : Z) (p : bus) : Z * bus :=
  if port =? 0x1F7 then
    if no_drive p then (0, p)
    else if 0 <? b_wait p then (0x80, Bus (b_phase p) (b_tf p) (b_img p) (b_wait p - 1) (b_latency p))
    else (match b_phase p with Idle => 0x50 | Unknown => 0x51 | _ => 0x58 end, p)
  else if (0x1F3 <=? port) && (port <=? 0x1F5) then (fst (b_tf p (port - 0x1F0)), p)
  else if port =? 0x3F6 then (0x50, p)
  else (0xFF, p).

Definition bus_inw (port : Z) (p : bus) : Z * bus :=
  if (port =? 0x1F0) && negb (0 <? b_wait p) then
    match b_phase p with
    | DataIn (a :: b :: l) =>
        (a + 256 * b, Bus (if decide (l = []) then Idle else DataIn l) (b_tf p) (b_img p) 0 (b_latency p))
    | _ => (0xFFFF, p)
    end
  else (0xFFFF, p).

Definition bus_command (cmd : Z) (p : bus) : bus :=
  let lba := tf_lba (b_tf p) in
  let enter ph := Bus ph (b_tf p) (b_img p) (b_latency p) (b_latency p) in
  if no_drive p then p
  else if cmd =? AC_IDENTIFY then enter (DataIn (id_block (b_sectors p)))
  else if (cmd =? AC_READ_EXT) && (lba <? b_sectors p) then enter (DataIn (ram_sector (b_img p) lba))
  else if (cmd =? AC_WRITE_EXT) && (lba <? b_sectors p) then enter (DataOut lba [])
  else p.

Definition bus_outb (port v : Z) (p : bus) : bus :=
  let r := port - 0x1F0 in
  if r =? 7 then bus_command v p
  else if (2 <=? r) && (r <=? 6) then
    Bus (b_phase p) (λ k, if k =? r then (v, fst (b_tf p r)) else b_tf p k) (b_img p) (b_wait p) (b_latency p)
  else p.

Definition bus_outw (port v : Z) (p : bus) : bus :=
  match b_phase p with
  | DataOut lba l =>
      let l := l ++ [v mod 256; v / 256] in
      if zlen l =? 512
      then Bus Idle (b_tf p) (default (b_img p) (splice (b_img p) (lba * 512) l)) (b_wait p) (b_latency p)
      else Bus (DataOut lba l) (b_tf p) (b_img p) (b_wait p) (b_latency p)
  | _ => p
  end.

#[export] Instance bus_ports : Ports bus :=
  {| inb := bus_inb; inw := bus_inw; inl := λ _ p, (0xFFFFFFFF, p);
     outb := bus_outb; outw := bus_outw; outl := λ _ _ p, p |}.

Definition bus_drive (n : Z) (m : list Z) : ata_drive := AtaDrive 0x1F0 0x3F6 false true n m.
Definition bus_img (p : bus) (i : Z) : list Z := if decide (0 ≤ i) then ram_sector (b_img p) i else [].

Definition bus_ok (n : Z) (p : bus) : Prop :=
  zlen (b_img p) = n * 512 ∧ bytes_ok (b_img p) ∧ b_wait p = 0 ∧ b_latency p = 0 ∧
  match b_phase p with DataOut lba l => 0 ≤ lba < n ∧ bytes_ok l | _ => True end.

Lemma ram_sector_splice img i lba l img' :
  splice img (lba * 512) l = Some img' → zlen l = 512 → 0 ≤ i → 0 ≤ lba →
  ram_sector img' i = if i =? lba then l else ram_sector img i.
Proof.
  intros E Hl Hi Hlba. pose proof E as (? & ? & _)%splice_Some. unfold ram_sector, zlen in *.
  apply list_eq. intros j. destruct (decide (j < 512)%nat).
  2: { rewrite lookup_take_ge by lia. destruct (i =? lba); [by rewrite lookup_ge_None_2 by lia|by rewrite lookup_take_ge by lia]. }
  rewrite lookup_take_lt, lookup_drop, (lookup_splice _ _ _ _ _ E) by lia.
  destruct (Z.eqb_spec i lba) as [->|Hne].
  - rewrite decide_True by lia. f_equal. lia.
  - rewrite decide_False by lia. by rewrite lookup_take_lt, lookup_drop by lia.
Qed.

#[export] Instance bus_disk n m :
  AtaDisk (bus_drive n m) n (bus_ok n) b_phase b_tf bus_img.
Proof.
  assert (Hsec : ∀ p, bus_ok n p → b_sectors p = n).
  { intros p (Hl & _). unfold b_sectors. rewrite Hl. by rewrite Z.div_mul. }
  unfold bus_img. split.
  - intros p i (Hl & Hb & _) Hi. rewrite decide_True by lia. unfold ram_sector. split.
    + change 512%nat with (Z.to_nat 512). rewrite zlen_take; [done|]. rewrite zlen_drop; lia.
    + by apply Forall_take, Forall_drop.
  - intros p Hok Hp. cbn [inb bus_ports]. unfold bus_inb. change (u16 (io_base (bus_drive n m) + ATA_STATUS)) with 0x1F7.
    rewrite Z.eqb_refl. pose proof Hok as (_ & _ & Hw & _). rewrite Hw. cbn [Z.ltb Z.compare].
    destruct (no_drive p); [by exists 0, p|].
    eexists _, p. split; [reflexivity|]. split; [by destruct (b_phase p)|]. split; [by intros ->|done].
  - intros p Hok. cbn [inb bus_ports]. unfold bus_inb. change (u16 (ctl_base (bus_drive n m))) with 0x3F6. cbn [Z.eqb Pos.eqb Z.leb Z.compare Pos.compare Pos.compare_cont andb].
    by exists 0x50, p.
  - intros p r v (Hl & Hb & Hw & Hla & _) Hp Hr Hv. cbv zeta. cbn [outb bus_ports]. unfold bus_outb.
    assert (E : u16 (io_base (bus_drive n m) + r) - 0x1F0 = r) by (cbn [io_base bus_drive]; rewrite u16_small by lia; lia).
    rewrite E, (proj2 (Z.eqb_neq r 7)), (proj2 (Z.leb_le 2 r)), (proj2 (Z.leb_le r 6)) by lia. cbn [andb].
    split; [|done]. unfold bus_ok. cbn [b_img b_wait b_latency b_phase]. by rewrite Hp.
  - intros p Hok Hp Hd Hc Hl. cbv zeta. pose proof Hok as (Hil & Hb & Hw & Hla & _). cbn [outb bus_ports]. unfold bus_outb.
    change (u16 (io_base (bus_drive n m) + ATA_COMMAND) - 0x1F0) with 7. rewrite Z.eqb_refl. unfold bus_command, no_drive.
    rewrite Hd. change (Z.testbit (if slave (bus_drive n m) then 240 else 224) 4) with false. cbv iota.
    rewrite (Hsec p Hok), (proj2 (Z.ltb_lt _ _)) by lia. cbn [AC_READ_EXT AC_IDENTIFY Z.eqb Pos.eqb andb].
    rewrite decide_True by lia. split; [|done]. unfold bus_ok. cbn. by rewrite Hla.
  - intros p Hok Hp Hd Hc Hl. cbv zeta. pose proof Hok as (Hil & Hb & Hw & Hla & _). cbn [outb bus_ports]. unfold bus_outb.
    change (u16 (io_base (bus_drive n m) + ATA_COMMAND) - 0x1F0) with 7. rewrite Z.eqb_refl. unfold bus_command, no_drive.
    rewrite Hd. change (Z.testbit (if slave (bus_drive n m) then 240 else 224) 4) with false. cbv iota.
    rewrite (Hsec p Hok), (proj2 (Z.ltb_lt _ _)) by lia. cbn [AC_READ_EXT AC_WRITE_EXT AC_IDENTIFY Z.eqb Pos.eqb andb].
    split; [|done]. unfold bus_ok. cbn [b_img b_wait b_latency b_phase]. rewrite Hla.
    split; [done|]. split; [done|]. split; [done|]. split; [done|]. split; [exact Hl|constructor].
  - intros p Hok Hp. cbv zeta. cbn [outb bus_ports]. unfold bus_outb.
    change (u16 (io_base (bus_drive n m) + ATA_COMMAND) - 0x1F0) with 7. rewrite Z.eqb_refl. unfold bus_command.
    destruct (no_drive p); [done|]. by cbn [AC_READ_EXT AC_WRITE_EXT AC_IDENTIFY AC_FLUSH Z.eqb Pos.eqb andb].
  - intros p a b l (Hil & Hb & Hw & Hla & _) Hp. cbn [inw bus_ports]. unfold bus_inw.
    change (u16 (io_base (bus_drive n m) + ATA_DATA)) with 0x1F0. rewrite Z.eqb_refl, Hw, Hp. cbn [Z.ltb Z.compare negb andb].
    eexists. split; [reflexivity|]. cbn [b_phase b_img]. split; [|done]. unfold bus_ok. cbn. by case_decide.
  - intros p lba l a b (Hil & Hb & Hw & Hla & Hph) Hp Hl Ha Hbb. cbv zeta. cbn [outw bus_ports]. unfold bus_outw.
    rewrite Hp in *. destruct Hph as [Hlba Hlb]. unfold byte_ok in *.
    replace ((a + 256 * b) mod 256) with a by mod_lia. replace ((a + 256 * b) / 256) with b by mod_lia.
    destruct (Z.eqb_spec (zlen (l ++ [a; b])) 512) as [E|E]; cbn [b_phase b_img].
    + destruct (splice_is_Some (b_img p) (lba * 512) (l ++ [a; b])) as [img' Hs]; [lia|lia|]. rewrite Hs. cbn [from_option id].
      split.
      * unfold bus_ok. cbn [b_img b_wait b_latency b_phase]. rewrite (splice_zlen _ _ _ _ Hs).
        split; [done|]. split; [|done]. eapply splice_bytes_ok; [exact Hb| |exact Hs].
        apply Forall_app. split; [done|].
        constructor; [exact Ha|constructor; [exact Hbb|constructor]].
      * split; [done|]. intros i. case_decide; [apply (ram_sector_splice (b_img p) i lba _ img' Hs E); lia|].
        by rewrite (proj2 (Z.eqb_neq i lba)) by lia.
    + split; [|done]. unfold bus_ok. cbn [b_img b_wait b_latency b_phase].
      split; [done|]. split; [done|]. split; [done|]. split; [done|]. split; [done|].
      apply Forall_app. split; [done|].
        constructor; [exact Ha|constructor; [exact Hbb|constructor]].
Qed.

(** ** The driver *)

(** C14: on a drive that keeps the programmed-IO protocol and raises DRQ at
    once, the block device [ata_probe] registers is an array of sectors:
    reading returns the sectors and writing replaces exactly the sectors
    written, with the right 48-bit address and count in the task file, for
    every transfer below 4 GiB. *)
Theorem ata_sector_device {P} `{Ports P} (d : ata_drive) (n : Z) ok ph tf img
    `{!AtaDisk d n ok ph tf img} idx nm :
  drv_present d = true → drv_sectors d = n → 0 < n ≤ 2 ^ 48 →
  SectorDevice (BlkDevice nm n ATA_SECTOR_SIZE true true (Some (readers idx)) (Some (writers idx)))
    (ready d ok ph idx) (λ s, img (hw s)).
Proof. apply (ata_device_ok d n ok ph tf img). Qed.

Lemma ata_sector_device_witness :
  SectorDevice (BlkDevice (zeros 24) 32 ATA_SECTOR_SIZE true true (Some (readers 0)) (Some (writers 0)))
    (ready (bus_drive 32 (zeros 41)) (bus_ok 32) b_phase 0)
    (λ s, bus_img (hw s)).
Proof.
  apply (ata_sector_device (bus_drive 32 (zeros 41)) 32 (bus_ok 32) b_phase b_tf
    bus_img 0 (zeros 24)); [reflexivity|reflexivity|lia].
Defined.

(** Probing the machine with that one drive, and reading its second sector
    back. *)
Definition bus0 (latency : Z) : bus := Bus Idle (λ _, (0, 0)) (zeros 512 ++ replicate 512 7) 0 latency.
Definition probed (latency : Z) : option (registry (ata bus) * ata bus) := ata_probe blkdev_init (ata0 (bus0 latency)).

Example probe_finds_master :
  ('(r, s) ← probed 0;
   '(rc, b, _) ← blk_read r (blk_first r) 1 1 (Some (zeros 512)) s;
   Some (blk_count r, map (λ d, (take 6 (name d), sectors d)) (devs r), model (default drive_zero (drives s !! 0%nat)), rc, b)) =
  Some (1, [([97; 116; 97; 48; 109; 0], 2); (zeros 6, 0); (zeros 6, 0); (zeros 6, 0)], [68; 73; 83; 75] ++ zeros 37,
        0, Some (replicate 512 7)).
Proof. vm_compute. reflexivity. Qed.

(** The same drive when it needs a moment before it raises DRQ, as ATA allows:
    the driver reads the data register without waiting, gets what the bus
    floats at, and reports success. *)
Example transfer_ignores_drq :
  ('(r, s) ← probed 1;
   '(rc, b, _) ← blk_read r (blk_first r) 1 1 (Some (zeros 512)) s;
   Some (rc, b)) = Some (0, Some (replicate 512 255)).
Proof. vm_compute. reflexivity. Qed.
