(* ===== verification/Storage.v ===== *)
(** * The storage stack

    Nothing new is modelled here: the ext4 of [Ext4Mount], the registry of
    [Blkdev], the ATA driver of [Ata] and the kernel heap of [Heap] are put
    together as the kernel links them, through the interfaces [SectorDevice],
    [AtaDisk] and [Allocator]. *)
From S2P Require Import Prelude Alloc Heap Blkdev Ports Ata Ext4Disk Ext4Core Ext4Map Ext4Alloc Ext4Dir Ext4Mount.

Section stack.
Context {P : Type} `{Ports P} (d : ata_drive) (n : Z) (ok : P → Prop) (ph : P → phase)
  (tf : P → taskfile) (img : P → Z → list Z) `{!AtaDisk d n ok ph tf img}.
Context (idx : Z) (nm : list Z).

(** The block device [ata_probe] registers for the drive. *)
Definition ata_dev : blk_device (ata P) :=
  BlkDevice nm n ATA_SECTOR_SIZE true true (Some (readers idx)) (Some (writers idx)).

(** The drive behind a state of the kernel, and the contents of a file-system
    block on its platter. *)
Definition platter (w : world (ata P) heap) (b : Z) : list Z :=
  read_range (img (Ata.hw (Ext4Core.hw w))) (b * sectors_per_block (e4 w)) (Z.to_nat (sectors_per_block (e4 w))).

(** C1: the whole storage stack. With ext4 mounted on a drive behind the ATA
    driver and the kernel heap as the allocator, appending [count] blocks to an
    empty file returns -1 only when the heap has no block for the list of runs or
    the drive has fewer free blocks than the data needs
    ([Ext4Alloc.plan_enough]). Otherwise the loop of [e4_append_blocks] puts
    block [i] of the data on the [i]-th free block of the drive in the order of
    the allocator's search, without changing any block that was in use and is
    not a bitmap or a group descriptor; and if these blocks form at most four runs
    of consecutive blocks, [e4_append_blocks] returns 0 with the drive as the
    loop left it, and reading the file back gives the bytes written. *)
Theorem file_on_ata (w : world (ata P) heap) inode ino count data len out L :
  drv_present d = true → drv_sectors d = n → 0 < n ≤ 2 ^ 48 →
  alloc_inv ata_dev (ready d ok ph idx) (λ s, img (Ata.hw s)) w → heap_inv (hp w) L →
  ¬ free (λ s, img (Ata.hw s)) w 0 →
  0 < count ≤ 32767 → count * block_size (e4 w) ≤ zlen data → bytes_ok data → zlen inode = 256 →
  has (fget 4 inode in_flags) INO_FLAG_EXTENTS = true →
  0 ≤ len ≤ count * block_size (e4 w) → len ≤ zlen out →
  ∃ p h, Heap.kzalloc (16 * (count + 1)) (hp w) = Some (p, h) ∧
    match p, plan (e4 w) (in_use (λ s, img (Ata.hw s)) w) 0 (Z.to_nat count) with
    | Some _, Some blks =>
        ∃ runs w1, append_loop (Z.to_nat count) 0 0 (Some data) [] (set_hp h w) = Some (Some runs, w1) ∧
          zlen blks = count ∧
          (∀ i b, blks !! i = Some b → free (λ s, img (Ata.hw s)) w b ∧
            slice data (Z.of_nat i * block_size (e4 w)) (block_size (e4 w)) = Some (platter w1 b)) ∧
          (∀ k, 0 ≤ k → ¬ free (λ s, img (Ata.hw s)) w k → ¬ is_meta (e4 w) k → platter w1 k = platter w k) ∧
          (fragments blks ≤ ROOT_MAX_ENTRIES →
            ∃ inode' h' w'' out',
              e4_append_blocks inode ino 0 count (Some data) w = Some ((0, inode'), set_hp h' w1) ∧
              read_loop (S (Z.to_nat len)) inode' len 0 out (set_hp h' w1) = Some ((len, out'), w'') ∧
              filled out data out' 0 len)
    | _, _ => ∃ w', e4_append_blocks inode ino 0 count (Some data) w = Some ((-1, inode), w')
    end.
Proof.
  intros Hp Hs Hn Hi Hal Hf0 Hc Hd Hby Hlen Hfl Hl Hout.
  pose proof (ata_device_ok d n ok ph tf img idx nm Hp Hs Hn) as Hdev.
  destruct (file_roundtrip_run ata_dev (ready d ok ph idx) (λ s, img (Ata.hw s)) heap_inv
    w inode ino count data len out L) as (p & h & Hz & Hr); [done..|].
  exists p, h. split; [exact Hz|]. destruct p as [p|]; [|done].
  destruct (plan _ _ _ _) as [blks|]; [|done]. destruct Hr as (runs & w1 & Hloop & Hap & Hbl & Hrun).
  exists runs, w1. split; [done|]. split; [done|]. split; [|split; [|done]].
  - intros i b Hb. by destruct (ap_data _ _ _ _ _ _ _ _ _ Hap _ _ Hb) as (? & ? & _).
  - intros k Hk Hfk Hm. exact (ap_frame _ _ _ _ _ _ _ _ _ Hap k Hk Hfk Hm).
Qed.
End stack.

(** ** A machine

    The drive of [Ata] with the small file system on it, in the state
    [ata_probe] leaves, with the heap initialised, and the file system taken
    as mounted (ext4_mount never gets there,
    [Ext4Mount.ext4_mount_never_mounts]). *)
Definition disk_bus : bus := Bus Idle (λ _, (0, 0)) demo_img 0 0.
Definition boot_disk : registry (ata bus) * ata bus :=
  default (blkdev_init, ata0 disk_bus) (ata_probe blkdev_init (ata0 disk_bus)).
Definition boot_heap : heap := default (heap_boot true) (snd <$> heap_init 0x100000 65536 (heap_boot true)).
Definition disk_name : list Z := [97; 116; 97; 48; 109] ++ zeros 19.
Definition probed_drive : ata_drive := bus_drive 32 ([68; 73; 83; 75] ++ zeros 37).
Definition machine : world (ata bus) heap :=
  World _ _ demo_e4 (Some (zeros 1024)) (Some (zeros 1024))
    (Registry (ata_dev 32 0 disk_name :: replicate 3 blk_zero) 1) (snd boot_disk) boot_heap 5000
    (λ k, replicate (Z.to_nat k) 0xA5) (Journal (zeros 256) [] 0 None).

(** The registry is the one the probe fills, as far as it can be compared. *)
Example machine_probed :
  let fields (r : registry (ata bus)) :=
    (ndevs r, map (λ v, (name v, sectors v, sector_size v, present v, dev_writable v)) (devs r)) in
  fields (fst boot_disk) = fields (reg machine).
Proof. vm_compute. reflexivity. Qed.

Lemma machine_ready : ready probed_drive (bus_ok 32) b_phase 0 (snd boot_disk).
Proof.
  split; [vm_compute; reflexivity|]. split.
  { exists (default [] (staging (snd boot_disk) !! 0%nat)). split; vm_compute; reflexivity. }
  assert (Hi : b_img (Ata.hw (snd boot_disk)) = demo_img) by (vm_compute; reflexivity).
  assert (Hp : b_phase (Ata.hw (snd boot_disk)) = Idle) by (vm_compute; reflexivity).
  assert (Hw : b_wait (Ata.hw (snd boot_disk)) = 0 ∧ b_latency (Ata.hw (snd boot_disk)) = 0)
    by (split; vm_compute; reflexivity).
  split; [|exact Hp]. unfold bus_ok. rewrite Hi, Hp. destruct Hw as [Hw Hl].
  split; [vm_compute; reflexivity|]. split; [apply bytes_dec; vm_compute; reflexivity|].
  split; [exact Hw|]. split; [exact Hl|exact I].
Qed.

Lemma machine_inv :
  alloc_inv (ata_dev 32 0 disk_name) (ready probed_drive (bus_ok 32) b_phase 0) (λ s, bus_img (Ata.hw s)) machine.
Proof.
  split.
  - split; [reflexivity|exact machine_ready|done|done|done|].
    intros b. exists (zeros 1024). split; [by destruct b|]. split; [done|apply zeros_bytes].
  - done.
  - exact demo_geom.
  - intros g g' Hg%demo_group Hg'%demo_group. subst. split; [done|]. vm_compute. discriminate.
  - intros k (g & i & Hb & -> & Hu) (g' & Hg'%demo_group & Hk). subst g'.
    assert (Hall : forallb (λ i, in_use (λ s, bus_img (Ata.hw s)) machine 0 i ||
      (negb (blk_of demo_e4 0 i =? bitmap_of demo_e4 0) &&
       negb (blk_of demo_e4 0 i =? gdt_block_of demo_e4 0))) (seqZ 0 15) = true)
      by (vm_compute; reflexivity).
    destruct (demo_blocks _ Hall g i Hb) as [-> Hi]. rewrite Hu in Hi. bool_prop.
    change (e4 machine) with demo_e4 in Hk. destruct Hk; lia.
Qed.

Lemma machine_heap : heap_inv boot_heap [].
Proof.
  destruct (heap_init_run true 0x100000 65536) as (h & E & Hwf & _); [lia..|].
  exists [(align_up 65536 - 16, false)]. split; [|done].
  unfold boot_heap. rewrite E. exact Hwf.
Qed.

Lemma machine_block0 : ¬ free (λ s, bus_img (Ata.hw s)) machine 0.
Proof.
  intros (g & i & Hb & Heq & _).
  assert (Hall : forallb (λ i, negb (blk_of demo_e4 0 i =? 0)) (seqZ 0 15) = true) by reflexivity.
  destruct (demo_blocks _ Hall g i Hb) as [-> Hi]. bool_prop. by apply Hi.
Qed.

(** Two blocks go through the driver's registers to blocks 11 and 12 of the
    drive, the first two free ones, and back. *)
Lemma machine_plan :
  plan (e4 machine) (in_use (λ s : ata bus, bus_img (Ata.hw s)) machine) 0 (Z.to_nat 2) = Some [11; 12].
Proof. vm_compute. reflexivity. Qed.
Lemma machine_kzalloc p h : Heap.kzalloc (16 * (2 + 1)) (hp machine) = Some (p, h) → is_Some p.
Proof.
  assert (Ha : match Heap.kzalloc (16 * (2 + 1)) (hp machine) with Some (Some _, _) => true | _ => false end = true)
    by (vm_compute; reflexivity).
  intros E. rewrite E in Ha. by destruct p.
Qed.

Lemma file_on_ata_witness :
  let inode := fset 4 in_flags INO_FLAG_EXTENTS (zeros 256) in
  let data := replicate 2048 42 in
  ∃ inode' w' w'' out',
    e4_append_blocks inode 12 0 2 (Some data) machine = Some ((0, inode'), w') ∧
    platter bus_img w' 11 = replicate 1024 42 ∧ platter bus_img w' 12 = replicate 1024 42 ∧
    read_loop (S (Z.to_nat 1500)) inode' 1500 0 (zeros 4000) w' = Some ((1500, out'), w'') ∧
    filled (zeros 4000) data out' 0 1500.
Proof.
  destruct (file_on_ata probed_drive 32 (bus_ok 32) b_phase b_tf bus_img 0 disk_name machine
    (fset 4 in_flags INO_FLAG_EXTENTS (zeros 256)) 12 2 (replicate 2048 42) 1500 (zeros 4000) [])
    as (p & h & Hp & Hr).
  - reflexivity.
  - reflexivity.
  - lia.
  - exact machine_inv.
  - exact machine_heap.
  - exact machine_block0.
  - lia.
  - vm_compute. discriminate.
  - by apply bytes_dec.
  - reflexivity.
  - reflexivity.
  - simpl. lia.
  - rewrite zeros_zlen; lia.
  - destruct (machine_kzalloc p h Hp) as [a ->]. rewrite machine_plan in Hr.
    destruct Hr as (runs & w1 & _ & _ & Hd & _ & Hr). destruct Hr as (i' & h' & w'' & out' & Ha & Hrd & Hf); [done|].
    destruct (Hd 0%nat 11 eq_refl) as [_ H11]. destruct (Hd 1%nat 12 eq_refl) as [_ H12].
    exists i', (set_hp h' w1), w'', out'. split; [exact Ha|]. split; [by injection H11|]. split; [by injection H12|].
    split; [exact Hrd|exact Hf].
Defined.

(** The run on this machine: two blocks through the driver's registers and
    back. *)
Example machine_roundtrip :
  fst <$> (let* (rc, i') := e4_append_blocks (fset 4 in_flags INO_FLAG_EXTENTS (zeros 256))
                              12 0 2 (Some (replicate 2048 42)) in
           let* b := extent_lookup i' 1 in
           let* (n, out) := read_loop 1501 i' 1500 0 (zeros 2000) in
           ret (rc, b, n, out)) machine =
  Some (0, Some 12, 1500, replicate 1500 42 ++ zeros 500).
Proof. vm_compute. reflexivity. Qed.
