(* ===== verification/Pci.v ===== *)
(** * drivers/bus/pci.c: the PCI bus

    The state is the table of functions found and the hardware behind the
    ports. A scan follows bridges recursively; each level takes one unit of
    fuel, and [pci_init_enumerates] shows that 33 are enough on every machine,
    since a scan only goes deeper after it has filled a slot of the table. *)
From S2P Require Import Prelude Ports.

Definition PCI_MAX_DEVICES : Z := 32.
Definition CONF_ADDR : Z := 0xCF8.
Definition CONF_DATA : Z := 0xCFC.

Record pci_dev := PciDev {
  pbus : Z;
  pdev : Z;
  pfn : Z;
  vendor : Z;
  device : Z;
  class_code : Z;
  subclass : Z;
  prog_if : Z;
  header_type : Z;
  bar_base : list Z;
  bar_size : list Z;
  bar_is_io : list bool;
  valid : bool;
}.
Definition pci_zero : pci_dev :=
  PciDev 0 0 0 0 0 0 0 0 0 (zeros 6) (zeros 6) (replicate 6 false) false.

(** The stores of [add_device] to a BAR. *)
Definition set_bar_io (i : Z) (io : bool) (base : Z) (d : pci_dev) : pci_dev :=
  PciDev (pbus d) (pdev d) (pfn d) (vendor d) (device d) (class_code d) (subclass d) (prog_if d) (header_type d)
    (<[Z.to_nat i := base]> (bar_base d)) (bar_size d) (<[Z.to_nat i := io]> (bar_is_io d)) (valid d).
Definition set_bar_size (i size : Z) (d : pci_dev) : pci_dev :=
  PciDev (pbus d) (pdev d) (pfn d) (vendor d) (device d) (class_code d) (subclass d) (prog_if d) (header_type d)
    (bar_base d) (<[Z.to_nat i := size]> (bar_size d)) (bar_is_io d) (valid d).

Section pci.
Context {P : Type} `{Ports P}.

Record pci := Pci {
  devices : list pci_dev;
  ndevices : Z;
  hw : P;
}.
Definition pci_boot (p : P) : pci := Pci (replicate (Z.to_nat PCI_MAX_DEVICES) pci_zero) 0 p.

#[export] Instance pci_ports : HasPorts pci P :=
  {| ports := hw; set_ports := λ p s, Pci (devices s) (ndevices s) p |}.

(** ** Configuration space *)

Definition conf_addr (bus dev fn reg : Z) : Z :=
  Z.lor (Z.lor (Z.lor (Z.lor 0x80000000 (u32 (Z.shiftl bus 16))) (u32 (Z.shiftl dev 11)))
    (u32 (Z.shiftl fn 8))) (Z.land reg 0xFC).

Definition pci_conf_read (bus dev fn reg : Z) : M pci Z :=
  io_outl CONF_ADDR (conf_addr bus dev fn reg) ;;
  io_inl CONF_DATA.

Definition pci_conf_write (bus dev fn reg val : Z) : M pci unit :=
  io_outl CONF_ADDR (conf_addr bus dev fn reg) ;;
  io_outl CONF_DATA val.

(** [~x] at 32 bits. *)
Definition not32 (x : Z) : Z := Z.lxor x 0xFFFFFFFF.

Definition bar_size_of (d : pci_dev) (i : Z) : M pci Z :=
  let* orig := lift (bar_base d !! Z.to_nat i) in
  let* io := lift (bar_is_io d !! Z.to_nat i) in
  let reg := u8 (0x10 + i * 4) in
  let* size :=
    if io : bool then
      pci_conf_write (pbus d) (pdev d) (pfn d) reg 0xFFFFFFFF ;;
      let* size := pci_conf_read (pbus d) (pdev d) (pfn d) reg in
      ret (Z.land (u32 (not32 size + 1)) 0xFFFF)
    else
      pci_conf_write (pbus d) (pdev d) (pfn d) reg 0xFFFFFFFF ;;
      let* size := pci_conf_read (pbus d) (pdev d) (pfn d) reg in
      ret (u32 (not32 size + 1)) in
  pci_conf_write (pbus d) (pdev d) (pfn d) reg orig ;;
  ret size.

Definition mask_lo : list Z := replicate 4 (not32 0xF).

(** One BAR of [d]: the loop body of [add_device]. *)
Definition read_bar (i : Z) (d : pci_dev) : M pci pci_dev :=
  let* bar := pci_conf_read (pbus d) (pdev d) (pfn d) (u8 (0x10 + i * 4)) in
  if bar =? 0 then ret d
  else if has bar 1 && (i <? 4) then
    let d := set_bar_io i true (Z.land bar (not32 3)) d in
    let* size := bar_size_of d i in
    ret (set_bar_size i size d)
  else if negb (has bar 1) then
    let* mask := lift (mask_lo !! Z.to_nat (Z.land (Z.shiftr bar 1) 3)) in
    let d := set_bar_io i false (Z.land bar mask) d in
    let* size := bar_size_of d i in
    ret (set_bar_size i size d)
  else ret d.

(** [for (i = 0; i < 6; i++)], [n] of them to go. *)
Fixpoint read_bars (n : nat) (i : Z) (d : pci_dev) : M pci pci_dev :=
  match n with
  | O => ret d
  | S n => let* d := read_bar i d in read_bars n (i + 1) d
  end.

(** [d] points into the table; no call reads the slot meanwhile, so it is
    stored once. The message is left out. *)
Definition add_device (bus dev fn : Z) : M pci unit :=
  let* n := gets ndevices in
  if PCI_MAX_DEVICES <=? n then ret tt
  else
    let* id := pci_conf_read bus dev fn 0x00 in
    if (Z.land id 0xFFFF =? 0xFFFF) || (Z.land id 0xFFFF =? 0) then ret tt
    else
      let* l := gets devices in
      let* d := lift (l !! Z.to_nat n) in
      let* cls := pci_conf_read bus dev fn 0x08 in
      let* h := pci_conf_read bus dev fn 0x0C in
      let* d := read_bars 6 0 (PciDev bus dev fn (u16 (Z.land id 0xFFFF)) (u16 (Z.shiftr id 16))
        (u8 (Z.shiftr cls 24)) (u8 (Z.shiftr cls 16)) (u8 (Z.shiftr cls 8)) (u8 (Z.shiftr h 16))
        (bar_base d) (bar_size d) (bar_is_io d) true) in
      modify (λ s, Pci (<[Z.to_nat n := d]> (devices s)) (ndevices s + 1) (hw s)).

(** ** The scan *)

(** [scan_function] with the scan of a bus as an argument; the same for
    [scan_slot], whose loop has [n] functions to go. *)
Definition scan_function (scan_bus : Z → M pci unit) (bus dev fn : Z) : M pci unit :=
  let* id := pci_conf_read bus dev fn 0x00 in
  if Z.land id 0xFFFF =? 0xFFFF then ret tt
  else
    let* before := gets (λ s, u32 (ndevices s)) in
    add_device bus dev fn ;;
    let* now := gets ndevices in
    if before <? u32 now then
      let* l := gets devices in
      let* d := lift (l !! Z.to_nat (now - 1)) in
      if (class_code d =? 0x06) && (subclass d =? 0x04) then
        let* sec := pci_conf_read bus dev fn 0x18 in
        scan_bus (u8 (Z.shiftr sec 8))
      else ret tt
    else ret tt.

Fixpoint scan_functions (scan_bus : Z → M pci unit) (bus dev fn : Z) (n : nat) : M pci unit :=
  match n with
  | O => ret tt
  | S n => scan_function scan_bus bus dev fn ;; scan_functions scan_bus bus dev (fn + 1) n
  end.

Definition scan_slot (scan_bus : Z → M pci unit) (bus dev : Z) : M pci unit :=
  add_device bus dev 0 ;;
  let* n := gets ndevices in
  let* l := gets devices in
  let* d0 := lift (l !! 0%nat) in
  if negb (valid d0) && (n =? 0) then ret tt
  else
    let* ht := pci_conf_read bus dev 0 0x0C in
    if negb (has (Z.shiftr ht 16) 0x80) then ret tt
    else scan_functions scan_bus bus dev 1 7.

Fixpoint scan_slots (scan_bus : Z → M pci unit) (bus dev : Z) (n : nat) : M pci unit :=
  match n with
  | O => ret tt
  | S n => scan_slot scan_bus bus dev ;; scan_slots scan_bus bus (dev + 1) n
  end.

Fixpoint pci_scan_bus (fuel : nat) (bus : Z) : M pci unit :=
  match fuel with
  | O => fault
  | S fuel => scan_slots (pci_scan_bus fuel) bus 0 32
  end.

Definition pci_init : M pci unit :=
  modify (λ s, Pci (devices s) 0 (hw s)) ;;
  pci_scan_bus 33 0.

(** ** Queries *)

Definition pci_count (s : pci) : Z := ndevices s.

Definition pci_get (s : pci) (idx : Z) : option Z :=
  if (idx <? 0) || (ndevices s <=? idx) then None else Some idx.

(** [for (i = 0; i < ndevices; i++) if (..) return i;], [n] to go. *)
Fixpoint find_from (f : pci_dev → bool) (l : list pci_dev) (i : Z) (n : nat) : option Z :=
  match n with
  | O => Some (-1)
  | S n =>
      d ← l !! Z.to_nat i;
      if f d then Some i else find_from f l (i + 1) n
  end.

Definition pci_find_class (cc sc : Z) (s : pci) : option Z :=
  find_from (λ d, (class_code d =? cc) && ((sc =? 0xFF) || (subclass d =? sc))) (devices s) 0 (Z.to_nat (ndevices s)).

Definition pci_find_vendor_device (v dv : Z) (s : pci) : option Z :=
  find_from (λ d, (vendor d =? v) && (device d =? dv)) (devices s) 0 (Z.to_nat (ndevices s)).

(** NULL is [None]. *)
Definition pci_display_controller (s : pci) : option (option Z) :=
  i ← pci_find_class 0x03 0xFF s;
  Some (if 0 <=? i then Some i else None).
End pci.
Arguments pci : clear implicits.

Definition pci_class_name (class_code : Z) : list Z :=
  if class_code =? 0x00 then chars "legacy"
  else if class_code =? 0x01 then chars "storage"
  else if class_code =? 0x02 then chars "network"
  else if class_code =? 0x03 then chars "display"
  else if class_code =? 0x04 then chars "multimedia"
  else if class_code =? 0x05 then chars "memory"
  else if class_code =? 0x06 then chars "bridge"
  else if class_code =? 0x07 then chars "comm"
  else if class_code =? 0x08 then chars "system"
  else if class_code =? 0x09 then chars "input"
  else if class_code =? 0x0C then chars "serial-bus"
  else chars "other".

(** A query returns the first entry that matches, or -1 when none does. *)
Lemma find_from_first f n : ∀ (l : list pci_dev) i, 0 ≤ i → i + Z.of_nat n ≤ zlen l →
  ∃ r, find_from f l i n = Some r ∧
    ((r = -1 ∧ ∀ j d, i ≤ j < i + Z.of_nat n → l !! Z.to_nat j = Some d → f d = false) ∨
     (i ≤ r < i + Z.of_nat n ∧ (∃ d, l !! Z.to_nat r = Some d ∧ f d = true) ∧
      ∀ j d, i ≤ j < r → l !! Z.to_nat j = Some d → f d = false)).
Proof.
  induction n as [|n IH]; intros l i Hi Hn; cbn [find_from].
  { exists (-1). split; [done|]. left. split; [done|]. intros; lia. }
  destruct (lookup_lt_is_Some_2 l (Z.to_nat i)) as [d Hd]; [unfold zlen in Hn; lia|]. rewrite Hd. cbn [mbind option_bind].
  destruct (f d) eqn:Ef.
  { exists i. split; [done|]. right. split; [lia|]. split; [by exists d|]. intros; lia. }
  destruct (IH l (i + 1)) as (r & Er & Hr); [lia|lia|]. exists r. split; [done|].
  assert (Hsplit : ∀ j e, j = i → l !! Z.to_nat j = Some e → f e = false) by (intros j e -> ?; congruence).
  destruct Hr as [[-> Hno]|(Hr & Hfound & Hno)].
  - left. split; [done|]. intros j e Hj He. destruct (decide (j = i)); [by eapply Hsplit|]. apply (Hno j e); [lia|done].
  - right. split; [lia|]. split; [done|]. intros j e Hj He.
    destruct (decide (j = i)); [by eapply Hsplit|]. apply (Hno j e); [lia|done].
Qed.

(** ** Configuration space as an interface

    [conf p bus dev fn reg] is a register; [rw bus dev fn reg] are its bits
    that can be written. A machine whose function 0 does not answer has no
    other function in that slot. *)
Definition in_conf (bus dev fn : Z) : Prop := 0 ≤ bus < 256 ∧ 0 ≤ dev < 32 ∧ 0 ≤ fn < 8.

Section reference.
Context (conf : Z → Z → Z → Z → Z).

Definition has_function (bus dev fn : Z) : bool :=
  let v := Z.land (conf bus dev fn 0) 0xFFFF in negb (v =? 0xFFFF) && negb (v =? 0).

(** What a scan is to record of a function: its place, its ids, class,
    subclass, programming interface and header type. *)
Definition identity (bus dev fn : Z) : Z * Z * Z * list Z :=
  (bus, dev, fn, [u16 (Z.land (conf bus dev fn 0) 0xFFFF); u16 (Z.shiftr (conf bus dev fn 0) 16);
    u8 (Z.shiftr (conf bus dev fn 8) 24); u8 (Z.shiftr (conf bus dev fn 8) 16);
    u8 (Z.shiftr (conf bus dev fn 8) 8); u8 (Z.shiftr (conf bus dev fn 12) 16)]).

Definition is_bridge (bus dev fn : Z) : bool :=
  (u8 (Z.shiftr (conf bus dev fn 8) 24) =? 0x06) && (u8 (Z.shiftr (conf bus dev fn 8) 16) =? 0x04).
Definition many_functions (bus dev : Z) : bool := has (Z.shiftr (conf bus dev 0 12) 16) 0x80.
Definition secondary (bus dev fn : Z) : Z := u8 (Z.shiftr (conf bus dev fn 0x18) 8).

(** The depth-first walk [pci_scan_bus] makes, bridges at functions 1 to 7
    followed, [depth] levels of them. *)
Fixpoint walk (depth : nat) (bus : Z) : list (Z * Z * Z * list Z) :=
  match depth with
  | O => []
  | S depth =>
      concat ((λ dev,
        if has_function bus dev 0 then
          identity bus dev 0 ::
          (if many_functions bus dev then
             concat ((λ fn,
               if has_function bus dev fn then
                 identity bus dev fn ::
                 (if is_bridge bus dev fn then walk depth (secondary bus dev fn) else [])
               else []) <$> seqZ 1 7)
           else [])
        else []) <$> seqZ 0 32)
  end.
End reference.

Class ConfSpace {P} `{Ports P} (ok : P → Prop) (conf : P → Z → Z → Z → Z → Z) (rw : Z → Z → Z → Z → Z) := {
  cs_read : ∀ p bus dev fn reg, ok p → in_conf bus dev fn → 0 ≤ reg < 256 → reg mod 4 = 0 →
    ∃ p', inl CONF_DATA (outl CONF_ADDR (conf_addr bus dev fn reg) p) = (conf p bus dev fn reg, p') ∧
      ok p' ∧ ∀ b d f r, conf p' b d f r = conf p b d f r;
  cs_write : ∀ p bus dev fn reg v, ok p → in_conf bus dev fn → 0 ≤ reg < 256 → reg mod 4 = 0 → 0 ≤ v < 2 ^ 32 →
    let p' := outl CONF_DATA v (outl CONF_ADDR (conf_addr bus dev fn reg) p) in
    ok p' ∧ ∀ b d f r, conf p' b d f r =
      if decide ((b, d, f, r) = (bus, dev, fn, reg))
      then Z.lor (Z.land v (rw b d f r)) (Z.ldiff (conf p b d f r) (rw b d f r)) else conf p b d f r;
  cs_range : ∀ p bus dev fn reg, ok p → 0 ≤ conf p bus dev fn reg < 2 ^ 32;
  cs_function0 : ∀ p bus dev fn, ok p → in_conf bus dev fn →
    has_function (conf p) bus dev 0 = false → has_function (conf p) bus dev fn = false;
}.

(** ** The scan records the walk *)

(** Two configuration spaces with the same functions. *)
Definition same_ids (c c' : Z → Z → Z → Z → Z) : Prop :=
  ∀ b d f, c' b d f 0 = c b d f 0 ∧ c' b d f 8 = c b d f 8 ∧ c' b d f 12 = c b d f 12 ∧
    secondary c' b d f = secondary c b d f.

Lemma same_ids_refl c : same_ids c c.
Proof. done. Qed.
Lemma same_ids_trans c1 c2 c3 : same_ids c1 c2 → same_ids c2 c3 → same_ids c1 c3.
Proof.
  intros H1 H2 b d f. destruct (H1 b d f) as (?&?&?&?), (H2 b d f) as (?&?&?&?).
  split; [|split; [|split]]; congruence.
Qed.
Lemma same_ids_ext c c' : (∀ b d f r, c' b d f r = c b d f r) → same_ids c c'.
Proof. intros E b d f. unfold secondary. by rewrite !E. Qed.

Lemma same_ids_facts c c' b d f : same_ids c c' →
  has_function c' b d f = has_function c b d f ∧ identity c' b d f = identity c b d f ∧
  is_bridge c' b d f = is_bridge c b d f ∧ many_functions c' b d = many_functions c b d.
Proof.
  intros Hs. destruct (Hs b d f) as (E0 & E8 & E12 & _), (Hs b d 0) as (_ & _ & E12' & _).
  unfold has_function, identity, is_bridge, many_functions. by rewrite E0, E8, E12, E12'.
Qed.

(** Writing back a register without its low bits keeps byte 1 of it. *)
Lemma byte1_restored c m rw : 0 ≤ c < 2 ^ 32 → (m = not32 3 ∨ m = not32 0xF) →
  let ones := Z.lor (Z.land 0xFFFFFFFF rw) (Z.ldiff c rw) in
  u8 (Z.shiftr (Z.lor (Z.land (Z.land c m) rw) (Z.ldiff ones rw)) 8) = u8 (Z.shiftr c 8).
Proof.
  intros Hc Hm ones. unfold u8. change 256 with (2 ^ 8). rewrite <- !Z.land_ones by lia.
  apply Z.bits_inj'. intros k Hk. rewrite !Z.land_spec, !Z.shiftr_spec by lia.
  destruct (decide (k < 8)) as [Hk8|Hk8]; [|by rewrite Z.ones_spec_high, !andb_false_r by lia].
  rewrite Z.ones_spec_low, !andb_true_r by lia. unfold ones.
  rewrite !Z.lor_spec, !Z.ldiff_spec, !Z.lor_spec, !Z.land_spec, !Z.ldiff_spec.
  assert (Hbit : Z.testbit m (k + 8) = true).
  { assert (k = 0 ∨ k = 1 ∨ k = 2 ∨ k = 3 ∨ k = 4 ∨ k = 5 ∨ k = 6 ∨ k = 7) as Hcases by lia.
    destruct Hm as [-> | ->]; by repeat destruct Hcases as [->|Hcases]; subst. }
  rewrite Hbit. by destruct (Z.testbit c (k + 8)), (Z.testbit rw (k + 8)), (Z.testbit 0xFFFFFFFF (k + 8)).
Qed.

Section scan_proofs.
Context {P : Type} `{Ports P} (ok : P → Prop) (conf : P → Z → Z → Z → Z → Z) (rw : Z → Z → Z → Z → Z)
  `{!ConfSpace ok conf rw}.

(** Only the hardware moves, and its functions stay. *)
Definition moved (s s' : pci P) : Prop :=
  devices s' = devices s ∧ ndevices s' = ndevices s ∧ ok (hw s') ∧ same_ids (conf (hw s)) (conf (hw s')).

Lemma moved_trans s1 s2 s3 : moved s1 s2 → moved s2 s3 → moved s1 s3.
Proof.
  intros (D1 & N1 & O1 & C1) (D2 & N2 & O2 & C2).
  split; [congruence|]. split; [congruence|]. split; [done|]. by eapply same_ids_trans.
Qed.

Lemma conf_read_wp (s : pci P) bus dev fn reg : ok (hw s) → in_conf bus dev fn → 0 ≤ reg < 256 → reg mod 4 = 0 →
  wp (pci_conf_read bus dev fn reg) (λ v s', v = conf (hw s) bus dev fn reg ∧ moved s s' ∧
    ∀ b d f r, conf (hw s') b d f r = conf (hw s) b d f r) s.
Proof.
  intros Hok Hin Hr Hr4. destruct (cs_read (hw s) bus dev fn reg Hok Hin Hr Hr4) as (p' & E & Hok' & Hc).
  unfold pci_conf_read, io_outl, io_inl. apply wp_bind.
  eexists _, _. split; [apply io_write_eq|]. eexists _, _. split; [apply io_read_eq; exact E|].
  split; [done|]. split; [|exact Hc]. split; [done|]. split; [done|]. split; [done|]. by apply same_ids_ext.
Qed.

Lemma conf_write_run (s : pci P) bus dev fn reg v :
  pci_conf_write bus dev fn reg v s =
    Some (tt, Pci (devices s) (ndevices s) (outl CONF_DATA v (outl CONF_ADDR (conf_addr bus dev fn reg) (hw s)))).
Proof. reflexivity. Qed.

(** Sizing a BAR: all ones, a read, the old base. *)
Lemma sizing_wp {A} (s : pci P) bus dev fn reg m (f : Z → A) :
  ok (hw s) → in_conf bus dev fn → 16 ≤ reg < 40 → reg mod 4 = 0 → (m = not32 3 ∨ m = not32 0xF) →
  wp (let* size := (pci_conf_write bus dev fn reg 0xFFFFFFFF ;;
        let* size := pci_conf_read bus dev fn reg in ret (f size)) in
      pci_conf_write bus dev fn reg (Z.land (conf (hw s) bus dev fn reg) m) ;;
      ret size) (λ _ s', moved s s') s.
Proof.
  intros Hok Hin Hr Hr4 Hm.
  set (c := conf (hw s) bus dev fn reg). assert (Hcr : 0 ≤ c < 2 ^ 32) by by apply (cs_range (conf := conf)).
  assert (Hmr : 0 ≤ Z.land c m < 2 ^ 32).
  { by apply land_range. }
  destruct (cs_write (hw s) bus dev fn reg 0xFFFFFFFF Hok Hin) as [Ok1 C1]; [lia..|done|lia|].
  apply wp_bind, wp_bind. eexists _, _. split; [apply conf_write_run|].
  wp_apply (conf_read_wp (Pci _ _ _)); [done|done|lia|done|]. cbn [hw].
  intros v s2 (-> & M2 & C2). apply wp_ret, wp_bind.
  eexists _, _. split; [apply conf_write_run|]. apply wp_ret.
  destruct M2 as (D2 & N2 & Ok2 & _). cbn [devices ndevices hw] in *.
  destruct (cs_write (hw s2) bus dev fn reg (Z.land c m) Ok2 Hin) as [Ok3 C3]; [lia..|done|].
  split; [by cbn|]. split; [by cbn|]. split; [done|]. cbn [hw].
  intros b d fn' . unfold secondary. rewrite !C3, !C2, !C1.
  rewrite !(decide_False (P := (b, d, fn', 0) = _)), !(decide_False (P := (b, d, fn', 8) = _)),
    !(decide_False (P := (b, d, fn', 12) = _)) by (intros [= ????]; lia).
  split; [done|]. split; [done|]. split; [done|]. case_decide as E; [|done].
  injection E as -> -> -> <-. fold c. by apply byte1_restored.
Qed.

Definition dev_ok (d : pci_dev) : Prop :=
  length (bar_base d) = 6%nat ∧ length (bar_is_io d) = 6%nat.
(** What the walk records of a table entry. *)
Definition entry (d : pci_dev) : Z * Z * Z * list Z :=
  (pbus d, pdev d, pfn d, [vendor d; device d; class_code d; subclass d; prog_if d; header_type d]).

Lemma bar_size_wp (s : pci P) d i m : ok (hw s) → in_conf (pbus d) (pdev d) (pfn d) → 0 ≤ i < 6 →
  (m = not32 3 ∨ m = not32 0xF) → is_Some (bar_is_io d !! Z.to_nat i) →
  bar_base d !! Z.to_nat i = Some (Z.land (conf (hw s) (pbus d) (pdev d) (pfn d) (16 + i * 4)) m) →
  wp (bar_size_of d i) (λ _ s', moved s s') s.
Proof.
  intros Hok Hin Hi Hm [io Hio] Hb. unfold bar_size_of.
  apply wp_bind, (wp_lift _ _ _ _ Hb), wp_bind, (wp_lift _ _ _ _ Hio).
  cbv zeta. change 0x10 with 16. rewrite (u8_small (16 + i * 4)) by lia.
  destruct io; by apply sizing_wp; [done|done|lia|mod_lia|].
Qed.

Lemma read_bar_wp (s : pci P) i d : ok (hw s) → in_conf (pbus d) (pdev d) (pfn d) → 0 ≤ i < 6 → dev_ok d →
  wp (read_bar i d) (λ d' s', entry d' = entry d ∧ dev_ok d' ∧ moved s s') s.
Proof.
  intros Hok Hin Hi Hd. unfold read_bar. change 0x10 with 16. rewrite u8_small by lia.
  wp_apply (conf_read_wp s); [done|done|lia|mod_lia|]. intros bar s1 (-> & M1 & C1).
  set (bar := conf (hw s) (pbus d) (pdev d) (pfn d) (16 + i * 4)).
  case_if; [by apply wp_ret|].
  assert (Hset : ∀ io m, (m = not32 3 ∨ m = not32 0xF) →
    wp (let d' := set_bar_io i io (Z.land bar m) d in let* size := bar_size_of d' i in ret (set_bar_size i size d'))
      (λ d' s', entry d' = entry d ∧ dev_ok d' ∧ moved s s') s1).
  { intros io m Hm. cbv zeta. destruct Hd as [Hl1 Hl2].
    wp_apply (bar_size_wp s1 _ i m); [apply M1|done|done|done| | |].
    - cbn [bar_is_io set_bar_io]. exists io. apply list_lookup_insert_eq. lia.
    - cbn [bar_base set_bar_io pbus pdev pfn]. rewrite C1. apply list_lookup_insert_eq. lia.
    - intros sz s2 M2. apply wp_ret. split; [done|]. split; [|by eapply moved_trans].
      unfold dev_ok. cbn. by rewrite !length_insert. }
  case_if; [by apply Hset; left|]. case_if; [|by apply wp_ret].
  apply wp_bind, (wp_lift _ (not32 0xF)); [|by apply Hset; right].
  assert (0 ≤ Z.land (Z.shiftr bar 1) 3 < 4).
  { change 3 with (2 ^ 2 - 1). rewrite land_ones_low by lia. by apply Z.mod_pos_bound. }
  unfold mask_lo. apply lookup_replicate. split; [done|lia].
Qed.

Lemma read_bars_wp n : ∀ i d (s : pci P), ok (hw s) → in_conf (pbus d) (pdev d) (pfn d) → 0 ≤ i →
  i + Z.of_nat n ≤ 6 → dev_ok d →
  wp (read_bars n i d) (λ d' s', entry d' = entry d ∧ dev_ok d' ∧ moved s s') s.
Proof.
  induction n as [|n IH]; intros i d s Hok Hin Hi Hn Hd; cbn [read_bars]; [by apply wp_ret|].
  wp_apply (read_bar_wp s i d); [done|done|lia|done|]. intros d1 s1 (E1 & Hd1 & M1).
  pose proof E1 as [= ?????????].
  eapply wp_mono; [apply (IH (i + 1) d1 s1); [apply M1|congruence|lia|lia|done]|].
  intros d2 s2 (E2 & Hd2 & M2). split; [congruence|]. split; [done|]. by eapply moved_trans.
Qed.

(** The table holds [L], and the functions of the machine are those of [c0]. *)
Context (c0 : Z → Z → Z → Z → Z).
Record listed (s : pci P) (L : list (Z * Z * Z * list Z)) : Prop := {
  li_ok : ok (hw s);
  li_conf : same_ids c0 (conf (hw s));
  li_len : zlen (devices s) = PCI_MAX_DEVICES;
  li_devs : Forall dev_ok (devices s);
  li_count : ndevices s = zlen L;
  li_max : zlen L ≤ PCI_MAX_DEVICES;
  li_list : entry <$> take (length L) (devices s) = L;
}.

Lemma listed_moved s s' L : listed s L → moved s s' → listed s' L.
Proof.
  intros [] (D & N & O & C). split; rewrite ?D, ?N; try done. by eapply same_ids_trans.
Qed.

(** The first entries of a list that fit into the table. *)
Definition fits (L : list (Z * Z * Z * list Z)) : list (Z * Z * Z * list Z) := take 32 L.
Lemma fits_small L : zlen L ≤ PCI_MAX_DEVICES → fits L = L.
Proof. intros Hl. unfold PCI_MAX_DEVICES, zlen in *. apply take_ge. lia. Qed.
Lemma fits_app L K : fits (fits L ++ K) = fits (L ++ K).
Proof.
  unfold fits. destruct (decide (length L ≤ 32)%nat).
  - by rewrite (take_ge L) by done.
  - rewrite !take_app_le by (rewrite ?length_take; lia). by rewrite take_take, Nat.min_id.
Qed.
Lemma fits_max L : zlen (fits L) ≤ PCI_MAX_DEVICES.
Proof. unfold fits, zlen, PCI_MAX_DEVICES. rewrite length_take. lia. Qed.

Lemma add_device_wp (s : pci P) L bus dev fn : listed s L → in_conf bus dev fn →
  wp (add_device bus dev fn) (λ _ s', listed s' (fits (L ++ if has_function c0 bus dev fn then [identity c0 bus dev fn] else []))) s.
Proof.
  intros HL Hin. pose proof HL as [Hok Hc Hlen Hdv Hn Hmax Hlist]. unfold add_device. wp_pure. rewrite Hn.
  destruct (same_ids_facts _ _ bus dev fn Hc) as (Ef & Ei & _).
  case_if; bool_prop.
  { apply wp_ret. assert (zlen L = 32) by (unfold PCI_MAX_DEVICES in *; lia).
    replace (fits _) with L; [done|]. unfold fits, zlen in *. rewrite take_app_le, take_ge; [done|lia..]. }
  wp_apply (conf_read_wp s); [done|done|lia|done|]. intros id s1 (-> & M1 & C1).
  assert (Ehas : has_function c0 bus dev fn = negb ((Z.land (conf (hw s) bus dev fn 0) 65535 =? 65535) ||
    (Z.land (conf (hw s) bus dev fn 0) 65535 =? 0))) by (rewrite <- Ef; unfold has_function; by rewrite negb_orb).
  rewrite Ehas. case_if; cbn [negb].
  { apply wp_ret. rewrite app_nil_r, fits_small by done. by eapply listed_moved. }
  pose proof M1 as (D1 & N1 & Ok1 & I1). wp_pure. rewrite D1.
  destruct (lookup_lt_is_Some_2 (devices s) (Z.to_nat (zlen L))) as [d Hd].
  { unfold zlen, PCI_MAX_DEVICES in *. lia. }
  apply wp_bind, (wp_lift _ _ _ _ Hd).
  wp_apply (conf_read_wp s1); [done|done|lia|done|]. intros cls s2 (-> & M2 & C2).
  wp_apply (conf_read_wp s2); [apply M2|done|lia|done|]. intros h s3 (-> & M3 & C3).
  rewrite C2, C1. destruct (list.Forall_lookup_1 _ _ _ _ Hdv Hd) as [Hb1 Hb2].
  wp_apply (read_bars_wp 6 0 _ s3); [apply M3|done|lia|lia|done|]. intros d' s4 (Ed & Hd' & M4).
  apply wp_modify. assert (M : moved s s4) by (by do 3 (eapply moved_trans; [done|])).
  pose proof M as (D4 & N4 & Ok4 & I4).
  assert (Eid : entry d' = identity c0 bus dev fn).
  { rewrite Ed, <- Ei. unfold identity. by rewrite <- (C1 bus dev fn 8), <- (C1 bus dev fn 12). }
  assert (Hfit : zlen (L ++ [identity c0 bus dev fn]) ≤ PCI_MAX_DEVICES) by (rewrite zlen_snoc; lia).
  rewrite fits_small by done.
  assert (Hnat : Z.to_nat (zlen L) = length L) by (unfold zlen; lia).
  split; cbn [hw devices ndevices]; try done.
  - by eapply same_ids_trans.
  - rewrite D4. unfold zlen in *. by rewrite length_insert.
  - rewrite D4. by apply list.Forall_insert.
  - rewrite N4, Hn, zlen_snoc. lia.
  - rewrite D4, Hnat, length_app. cbn [length]. rewrite Hnat in Hd.
    replace (length L + 1)%nat with (S (length L)) by lia.
    rewrite (take_S_r _ _ d'); [|apply list_lookup_insert_eq; by eapply lookup_lt_Some].
    rewrite take_insert_ge by lia. rewrite fmap_app, Hlist. cbn [fmap list_fmap]. by rewrite Eid.
Qed.

(** [scan_bus] records the walk below a bus, when [k] levels are left. *)
Definition scans (k : nat) (scan_bus : Z → M (pci P) unit) : Prop :=
  ∀ (s : pci P) L bus g, listed s L → 0 ≤ bus < 256 → 33 ≤ zlen L + Z.of_nat k → 33 ≤ zlen L + Z.of_nat g →
    wp (scan_bus bus) (λ _ s', listed s' (fits (L ++ walk c0 g bus))) s.

(** The walk at one function, and in one slot. *)
Definition walk_fn (g : nat) (bus dev fn : Z) : list (Z * Z * Z * list Z) :=
  if has_function c0 bus dev fn then
    identity c0 bus dev fn :: (if is_bridge c0 bus dev fn then walk c0 g (secondary c0 bus dev fn) else [])
  else [].
Definition walk_slot (g : nat) (bus dev : Z) : list (Z * Z * Z * list Z) :=
  if has_function c0 bus dev 0 then
    identity c0 bus dev 0 ::
    (if many_functions c0 bus dev then concat (walk_fn g bus dev <$> seqZ 1 7) else [])
  else [].

Lemma listed_fits s L : listed s L → fits L = L.
Proof. intros []. by apply fits_small. Qed.

Lemma scan_function_wp k g sb (s : pci P) L bus dev fn : scans k sb → listed s L → in_conf bus dev fn →
  32 ≤ zlen L + Z.of_nat k → 32 ≤ zlen L + Z.of_nat g →
  wp (scan_function sb bus dev fn) (λ _ s', listed s' (fits (L ++ walk_fn g bus dev fn))) s.
Proof.
  intros Hsb HL Hin Hk Hg. pose proof HL as [Hok Hc _ _ Hn Hmax _]. unfold scan_function, walk_fn.
  wp_apply (conf_read_wp s); [done|done|lia|done|]. intros id s1 (-> & M1 & C1).
  destruct (same_ids_facts _ _ bus dev fn Hc) as (Ef & _ & Eb & _).
  pose proof (listed_moved _ _ _ HL M1) as HL1.
  case_if; bool_prop.
  { apply wp_ret. replace (has_function c0 bus dev fn) with false; [by rewrite app_nil_r, (listed_fits s)|].
    rewrite <- Ef. unfold has_function. by rewrite E. }
  wp_pure. wp_apply (add_device_wp s1); [done|done|]. intros _ s2 HL2. wp_pure.
  rewrite (li_count _ _ HL1), (li_count _ _ HL2).
  pose proof (zlen_nonneg L). pose proof (fits_max (L ++ if has_function c0 bus dev fn then [identity c0 bus dev fn] else [])).
  unfold PCI_MAX_DEVICES in *. rewrite !u32_small by (split; [apply zlen_nonneg|lia]).
  destruct (has_function c0 bus dev fn) eqn:Ehas.
  2: { rewrite app_nil_r in *. rewrite (listed_fits s), Z.ltb_irrefl in * by done. by apply wp_ret. }
  destruct (decide (zlen L = 32)) as [Hfull|Hroom].
  { assert (Hf : ∀ K, fits (L ++ K) = L) by (intros K; unfold fits, zlen in *; rewrite take_app_le, take_ge; [done|lia..]).
    rewrite !Hf in *. rewrite Z.ltb_irrefl. by apply wp_ret. }
  rewrite (fits_small (L ++ [_])) in HL2 |- * by (rewrite zlen_snoc; unfold PCI_MAX_DEVICES; lia).
  rewrite zlen_snoc, (proj2 (Z.ltb_lt _ _)) by lia. wp_pure.
  pose proof HL2 as [Hok2 Hc2 _ _ _ _ Hlist]. replace (zlen L + 1 - 1) with (Z.of_nat (length L)) by (unfold zlen; lia).
  rewrite Nat2Z.id.
  assert (Hd : ∃ d, devices s2 !! length L = Some d ∧ entry d = identity c0 bus dev fn).
  { pose proof (f_equal (.!! length L) Hlist) as Hx. rewrite list_lookup_fmap, length_app, lookup_take_lt in Hx by (cbn; lia).
    rewrite lookup_app_r, Nat.sub_diag in Hx by done. cbn in Hx.
    destruct (devices s2 !! length L) as [d|]; [|done]. exists d. split; [done|]. by apply (inj Some) in Hx. }
  destruct Hd as (d & Hd & Eid). apply wp_bind, (wp_lift _ _ _ _ Hd).
  assert (Ebr : (class_code d =? 6) && (subclass d =? 4) = is_bridge c0 bus dev fn).
  { unfold entry, identity in Eid. apply (f_equal snd) in Eid. cbn [snd] in Eid. injection Eid as _ _ Ec Es _ _. unfold is_bridge. by rewrite Ec, Es. }
  rewrite Ebr. destruct (is_bridge c0 bus dev fn); [|apply wp_ret; by rewrite (listed_fits s2)].
  wp_apply (conf_read_wp s2); [done|done|lia|done|]. intros sec s3 (-> & M3 & C3).
  destruct (Hc2 bus dev fn) as (_ & _ & _ & Hsec). change (u8 (Z.shiftr (conf (hw s2) bus dev fn 24) 8)) with
    (secondary (conf (hw s2)) bus dev fn). rewrite Hsec.
  change (identity c0 bus dev fn :: ?K) with ([identity c0 bus dev fn] ++ K). rewrite app_assoc.
  apply Hsb; [by eapply listed_moved|apply u8_range|rewrite zlen_snoc; lia..].
Qed.

Lemma listed_longer s s' L K : listed s L → listed s' (fits (L ++ K)) → zlen L ≤ zlen (fits (L ++ K)).
Proof.
  intros HL _. pose proof (li_max _ _ HL). unfold fits, zlen, PCI_MAX_DEVICES in *. rewrite length_take, length_app. lia.
Qed.


(** The loops append what each round appends. *)
Lemma scan_functions_wp k g sb bus dev n : scans k sb → 0 ≤ bus < 256 → 0 ≤ dev < 32 →
  ∀ fn (s : pci P) L, listed s L → 0 ≤ fn → fn + Z.of_nat n ≤ 8 →
  32 ≤ zlen L + Z.of_nat k → 32 ≤ zlen L + Z.of_nat g →
  wp (scan_functions sb bus dev fn n)
    (λ _ s', listed s' (fits (L ++ concat (walk_fn g bus dev <$> seqZ fn (Z.of_nat n))))) s.
Proof.
  intros Hsb Hbus Hdev. induction n as [|n IH]; intros fn s L HL Hfn Hn Hk Hg; cbn [scan_functions].
  { apply wp_ret. cbn. by rewrite app_nil_r, (listed_fits s). }
  wp_apply (scan_function_wp k g sb s L bus dev fn); [done|done|by split_and!; lia|done|done|]. intros _ s1 HL1.
  rewrite seqZ_cons by lia. rewrite fmap_cons. cbn [concat]. rewrite app_assoc, <- fits_app.
  replace (Z.pred (Z.of_nat (S n))) with (Z.of_nat n) by lia.
  pose proof (listed_longer _ _ _ _ HL HL1).
  eapply wp_mono; [apply (IH (fn + 1) s1); [done|lia..]|]. done.
Qed.

(** Where function 0 does not answer, no function does. *)
Lemma no_functions s L bus dev g : listed s L → 0 ≤ bus < 256 → 0 ≤ dev < 32 → has_function c0 bus dev 0 = false →
  concat (walk_fn g bus dev <$> seqZ 1 7) = [].
Proof.
  intros [Hok Hc _ _ _ _ _] Hb Hd H0. apply List.concat_nil_Forall, list.Forall_fmap, list.Forall_forall.
  intros fn Hfn%elem_of_seqZ. unfold walk_fn. cbn.
  destruct (same_ids_facts _ _ bus dev fn Hc) as (Ef & _), (same_ids_facts _ _ bus dev 0 Hc) as (E0 & _).
  rewrite <- Ef, (cs_function0 (hw s)); [done|done|by split_and!; lia|]. by rewrite E0.
Qed.

Lemma scan_slot_wp k g sb (s : pci P) L bus dev : scans k sb → listed s L → 0 ≤ bus < 256 → 0 ≤ dev < 32 →
  32 ≤ zlen L + Z.of_nat k → 32 ≤ zlen L + Z.of_nat g →
  wp (scan_slot sb bus dev) (λ _ s', listed s' (fits (L ++ walk_slot g bus dev))) s.
Proof.
  intros Hsb HL Hbus Hdev Hk Hg. unfold scan_slot, walk_slot. assert (Hin : in_conf bus dev 0) by (split_and!; lia).
  wp_apply (add_device_wp s); [done|done|]. intros _ s1 HL1. wp_pure.
  pose proof (listed_longer _ _ _ _ HL HL1) as Hlong.
  set (L1 := fits _) in *. pose proof HL1 as [Hok1 Hc1 Hlen1 _ Hn1 Hmax1 _].
  destruct (lookup_lt_is_Some_2 (devices s1) 0) as [d Hd]; [unfold zlen, PCI_MAX_DEVICES in Hlen1; lia|].
  apply wp_bind, (wp_lift _ _ _ _ Hd).
  assert (Hall : fits (L ++ (if has_function c0 bus dev 0 then identity c0 bus dev 0 ::
      (if many_functions c0 bus dev then concat (walk_fn g bus dev <$> seqZ 1 7) else []) else [])) =
    fits (L1 ++ if has_function c0 bus dev 0 && many_functions c0 bus dev
                then concat (walk_fn g bus dev <$> seqZ 1 7) else [])).
  { unfold L1. rewrite fits_app, <- app_assoc. do 2 f_equal. by destruct (has_function c0 bus dev 0), (many_functions c0 bus dev). }
  rewrite Hall. clear Hall.
  case_if.
  { apply wp_ret. bool_prop. destruct (has_function c0 bus dev 0) eqn:Ehas; cbn [andb].
    - exfalso. assert (0 < zlen L1); [|lia]. unfold L1, fits, zlen. rewrite length_take, length_app. cbn [length]. lia.
    - by rewrite app_nil_r, (listed_fits s1). }
  wp_apply (conf_read_wp s1); [done|done|lia|done|]. intros ht s2 (-> & M2 & C2).
  pose proof (listed_moved _ _ _ HL1 M2) as HL2.
  destruct (same_ids_facts _ _ bus dev 0 Hc1) as (_ & _ & _ & Em).
  change (has (Z.shiftr (conf (hw s1) bus dev 0 12) 16) 128) with (many_functions (conf (hw s1)) bus dev).
  rewrite Em. destruct (many_functions c0 bus dev); cbn [negb].
  2: { apply wp_ret. by rewrite andb_false_r, app_nil_r, (listed_fits s1). }
  rewrite andb_true_r.
  eapply wp_mono; [apply (scan_functions_wp k g sb bus dev 7 Hsb Hbus Hdev 1 s2 L1); [done|lia..]|].
  intros [] s3. cbv beta. change (Z.of_nat 7) with 7. destruct (has_function c0 bus dev 0) eqn:Ehas; [done|].
  by rewrite (no_functions s1 L1) by done.
Qed.

Lemma scan_slots_wp k g sb bus n : scans k sb → 0 ≤ bus < 256 →
  ∀ dev (s : pci P) L, listed s L → 0 ≤ dev → dev + Z.of_nat n ≤ 32 →
  32 ≤ zlen L + Z.of_nat k → 32 ≤ zlen L + Z.of_nat g →
  wp (scan_slots sb bus dev n)
    (λ _ s', listed s' (fits (L ++ concat (walk_slot g bus <$> seqZ dev (Z.of_nat n))))) s.
Proof.
  intros Hsb Hbus. induction n as [|n IH]; intros dev s L HL Hdev Hn Hk Hg; cbn [scan_slots].
  { apply wp_ret. cbn. by rewrite app_nil_r, (listed_fits s). }
  wp_apply (scan_slot_wp k g sb s L bus dev); [done|done|done|lia|done|done|]. intros _ s1 HL1.
  rewrite seqZ_cons by lia. rewrite fmap_cons. cbn [concat]. rewrite app_assoc, <- fits_app.
  replace (Z.pred (Z.of_nat (S n))) with (Z.of_nat n) by lia.
  pose proof (listed_longer _ _ _ _ HL HL1).
  eapply wp_mono; [apply (IH (dev + 1) s1); [done|lia..]|]. done.
Qed.

Lemma scan_bus_wp k : scans k (pci_scan_bus k).
Proof.
  induction k as [|k IH]; intros s L bus g HL Hbus Hk Hg.
  { pose proof (li_max _ _ HL). unfold PCI_MAX_DEVICES in *. lia. }
  destruct g as [|g]; [pose proof (li_max _ _ HL); unfold PCI_MAX_DEVICES in *; lia|].
  cbn [pci_scan_bus]. eapply wp_mono; [apply (scan_slots_wp k g _ bus 32 IH Hbus 0 s L); [done|lia..]|].
  done.
Qed.
End scan_proofs.

(** ** A machine

    A configuration space with its address latch. *)
Record confspace := ConfSp { latch : Z; regs : Z → Z → Z → Z → Z }.

Section machine.
Context (rw : Z → Z → Z → Z → Z).
Definition decode {A} (a : Z) (k : Z → Z → Z → Z → A) : A :=
  k (a / 2 ^ 16 mod 256) (a / 2 ^ 11 mod 32) (a / 2 ^ 8 mod 8) (a mod 256).
Definition conf_in (port : Z) (p : confspace) : Z * confspace :=
  (if port =? CONF_DATA then decode (latch p) (regs p) else 0xFFFFFFFF, p).
Definition conf_out (port v : Z) (p : confspace) : confspace :=
  if port =? CONF_ADDR then ConfSp v (regs p)
  else if port =? CONF_DATA then
    decode (latch p) (λ bus dev fn reg, ConfSp (latch p) (λ b d f r,
      if decide ((b, d, f, r) = (bus, dev, fn, reg))
      then Z.lor (Z.land v (rw b d f r)) (Z.ldiff (regs p b d f r) (rw b d f r)) else regs p b d f r))
  else p.
Definition conf_ports : Ports confspace :=
  {| inb := λ _ p, (0xFF, p); inw := λ _ p, (0xFFFF, p); inl := conf_in;
     outb := λ _ _ p, p; outw := λ _ _ p, p; outl := conf_out |}.
End machine.

Lemma conf_addr_eq bus dev fn reg : in_conf bus dev fn → 0 ≤ reg < 256 → reg mod 4 = 0 →
  conf_addr bus dev fn reg = 2 ^ 31 + bus * 2 ^ 16 + dev * 2 ^ 11 + fn * 2 ^ 8 + reg.
Proof.
  intros (Hb & Hd & Hf) Hr Hr4. unfold conf_addr. rewrite !Z.shiftl_mul_pow2, !u32_small by lia.
  assert (Er : Z.land reg 0xFC = reg).
  { pose proof (byte_forall (λ r, implb (r mod 4 =? 0) (Z.land r 0xFC =? r)) reg eq_refl Hr) as E.
    cbv beta in E. rewrite Hr4 in E. by apply Z.eqb_eq. }
  rewrite Er. change 0x80000000 with (2 ^ 31).
  rewrite (lor_disjoint (2 ^ 31) _ 31), (lor_disjoint (2 ^ 31 + _) _ 16), (lor_disjoint (2 ^ 31 + _ + _) _ 11),
    (lor_disjoint (2 ^ 31 + _ + _ + _) _ 8); try lia; mod_lia.
Qed.

Lemma decode_conf {A} bus dev fn reg (k : Z → Z → Z → Z → A) : in_conf bus dev fn → 0 ≤ reg < 256 → reg mod 4 = 0 →
  decode (conf_addr bus dev fn reg) k = k bus dev fn reg.
Proof.
  intros Hin Hr Hr4. unfold decode. rewrite conf_addr_eq by done. destruct Hin as (Hb & Hd & Hf).
  f_equal; mod_lia.
Qed.

(** A machine with a host bridge, a two-function device, a bridge at function
    0 of slot 2 and one at function 1 of slot 3, and a network card behind
    each bridge. *)
Definition demo_regs : list (Z * Z * Z * list (Z * Z)) := [
  (0, 0, 0, [(0, 0x12378086); (8, 0x06000000); (12, 0)]);
  (0, 1, 0, [(0, 0x70008086); (8, 0x06010000); (12, 0x800000)]);
  (0, 1, 1, [(0, 0x70108086); (8, 0x01018000); (12, 0); (0x20, 0xC041)]);
  (0, 2, 0, [(0, 0x00011B36); (8, 0x06040000); (12, 0x10000); (0x18, 0x00020200)]);
  (0, 3, 0, [(0, 0x00021B36); (8, 0x08800000); (12, 0x800000)]);
  (0, 3, 1, [(0, 0x00011B36); (8, 0x06040000); (12, 0x810000); (0x18, 0x00010100)]);
  (1, 0, 0, [(0, 0x100E8086); (8, 0x02000003); (12, 0); (0x10, 0xFEB80000); (0x14, 0xC001)]);
  (2, 0, 0, [(0, 0x100F8086); (8, 0x02000003); (12, 0)])].
Fixpoint lookup_regs (l : list (Z * Z * Z * list (Z * Z))) (b d f : Z) : option (list (Z * Z)) :=
  match l with
  | [] => None
  | (b', d', f', r) :: l => if decide ((b, d, f) = (b', d', f')) then Some r else lookup_regs l b d f
  end.
Fixpoint lookup_reg (l : list (Z * Z)) (r : Z) : Z :=
  match l with
  | [] => 0
  | (r', v) :: l => if r =? r' then v else lookup_reg l r
  end.
Definition demo_conf (b d f r : Z) : Z :=
  match lookup_regs demo_regs b d f with Some l => lookup_reg l r | None => 0xFFFFFFFF end.
(** The network card has 128 KiB of memory and 64 ports. *)
Definition demo_rw (b d f r : Z) : Z :=
  if r =? 0x10 then 0xFFFE0000 else if r =? 0x14 then 0xFFC0 else if r =? 0x18 then 0xFFFFFF else 0.
#[export] Instance demo_ports : Ports confspace := conf_ports demo_rw.
Definition demo_machine : pci confspace := pci_boot (ConfSp 0 demo_conf).

Definition scanned : option (pci confspace) := snd <$> pci_init demo_machine.
(** The bridge at function 0 of slot 2 is listed, but the bus behind it is not
    scanned. The bus numbers of the other bridge (register 0x18) are taken for
    a BAR, and the 64 ports of the card are sized as 63: the type bit is
    subtracted. *)
Example demo_scan :
  (s ← scanned; Some (map (λ d, (pbus d, pdev d, pfn d, device d)) (take (Z.to_nat (ndevices s)) (devices s)),
    (λ d, (take 3 (bar_base d), take 3 (bar_size d))) <$> take 2 (drop 5 (devices s)),
    pci_find_class 0x02 0x00 s, pci_find_vendor_device 0x8086 0x100E s, pci_display_controller s)) =
  Some ([(0, 0, 0, 0x1237); (0, 1, 0, 0x7000); (0, 1, 1, 0x7010); (0, 2, 0, 1); (0, 3, 0, 2); (0, 3, 1, 1);
         (1, 0, 0, 0x100E)],
    [([0; 0; 0x00010100], [0; 0; 0xFF000001]); ([0xFEB80000; 0xC000; 0], [0x20000; 63; 0])],
    Some 6, Some 6, Some None).
Proof. vm_compute. reflexivity. Qed.

(** The machine keeps the rules of the interface. *)
Definition demo_ok (p : confspace) : Prop :=
  (∀ b d f r, 0 ≤ regs p b d f r < 2 ^ 32) ∧ ∀ b d f, regs p b d f 0 = demo_conf b d f 0.

Lemma demo_conf_range b d f r : 0 ≤ demo_conf b d f r < 2 ^ 32.
Proof.
  unfold demo_conf, demo_regs. cbn [lookup_regs].
  repeat case_decide; cbn [lookup_reg]; repeat case_if; lia.
Qed.

Lemma demo_function0 b d f : has_function demo_conf b d 0 = false → has_function demo_conf b d f = false.
Proof.
  destruct (has_function demo_conf b d f) eqn:E; [|done]. intros E0. exfalso. revert E E0.
  unfold has_function, demo_conf, demo_regs. cbn [lookup_regs].
  repeat (destruct (decide ((b, d, f) = _)) as [Hd|]; [injection Hd as -> -> ->; vm_compute; congruence|]).
  intros E _. vm_compute in E. discriminate.
Qed.

Lemma rw_range c v m : 0 ≤ c < 2 ^ 32 → 0 ≤ v < 2 ^ 32 → 0 ≤ Z.lor (Z.land v m) (Z.ldiff c m) < 2 ^ 32.
Proof.
  intros Hc Hv. pose proof (land_range 32 v m ltac:(lia) Hv). 
  assert (0 ≤ Z.ldiff c m < 2 ^ 32) by (rewrite Z.ldiff_land; apply land_range; lia).
  rewrite <- (Z.mod_small (Z.land v m) (2 ^ 32)), <- (Z.mod_small (Z.ldiff c m) (2 ^ 32)) by done.
  rewrite <- !Z.land_ones, <- Z.land_lor_distr_l, Z.land_ones by lia. apply Z.mod_pos_bound. lia.
Qed.

#[export] Instance demo_space : ConfSpace demo_ok regs demo_rw.
Proof.
  split.
  - intros p bus dev fn reg Hok Hin Hr Hr4. exists (ConfSp (conf_addr bus dev fn reg) (regs p)).
    split; [|done]. cbn [inl outl demo_ports conf_ports]. unfold conf_in, conf_out.
    rewrite Z.eqb_refl. cbn [latch regs]. by rewrite (decode_conf bus dev fn reg) by done.
  - intros p bus dev fn reg v Hok Hin Hr Hr4 Hv. cbv zeta. cbn [outl demo_ports conf_ports]. unfold conf_out.
    change (CONF_DATA =? CONF_ADDR) with false. rewrite !Z.eqb_refl. cbn [latch regs].
    rewrite (decode_conf bus dev fn reg) by done. cbn [regs]. split; [|done]. destruct Hok as [Hrg H0]. split; cbn [regs].
    + intros b d f r. case_decide; [by apply rw_range|apply Hrg].
    + intros b d f. case_decide as E; [|apply H0]. injection E as -> -> -> <-. cbn [demo_rw].
      change (demo_rw bus dev fn 0) with 0. by rewrite Z.land_0_r, Z.ldiff_0_r, Z.lor_0_l.
  - intros p b d f r [Hrg _]. apply Hrg.
  - intros p b d f [_ H0] _. unfold has_function. rewrite !H0. apply demo_function0.
Qed.

(** ** The scan *)

(** C15: on every machine whose configuration space keeps the PCI rules
    (whatever its functions and bridges, cycles of buses included),
    [pci_init] returns, and the table holds the first 32 functions of the
    depth-first walk, in order, with ids, class codes and header types as in
    configuration space; sizing the BARs leaves these as they were. The walk
    follows the bridges at functions 1 to 7 only. *)
Theorem pci_init_enumerates {P} `{Ports P} ok conf rw `{!ConfSpace ok conf rw} (s : pci P) depth :
  ok (hw s) → zlen (devices s) = PCI_MAX_DEVICES → Forall dev_ok (devices s) → (33 ≤ depth)%nat →
  ∃ s', pci_init s = Some (tt, s') ∧
    entry <$> take (Z.to_nat (ndevices s')) (devices s') = take 32 (walk (conf (hw s)) depth 0) ∧
    ndevices s' = zlen (take 32 (walk (conf (hw s)) depth 0)) ∧
    same_ids (conf (hw s)) (conf (hw s')).
Proof.
  intros Hok Hlen Hd Hdepth.
  assert (HL : listed ok conf (conf (hw s)) (Pci (devices s) 0 (hw s)) []) by (split; try done; apply same_ids_refl).
  assert (Hwp : wp pci_init (λ _ s', listed ok conf (conf (hw s)) s' (fits ([] ++ walk (conf (hw s)) depth 0))) s).
  { unfold pci_init. wp_pure. apply (scan_bus_wp ok conf rw (conf (hw s)) 33 _ [] 0 depth HL); [lia|done|].
    rewrite zlen_nil. lia. }
  destruct Hwp as ([] & s' & E & [_ Hc _ _ Hn _ Hlist]). exists s'. split; [done|].
  cbn [app] in *. unfold fits in *. split; [|by split].
  rewrite Hn. unfold zlen. by rewrite Nat2Z.id.
Qed.

Lemma pci_init_enumerates_witness :
  ∃ s', pci_init demo_machine = Some (tt, s') ∧
    entry <$> take (Z.to_nat (ndevices s')) (devices s') = take 32 (walk demo_conf 33 0) ∧
    ndevices s' = zlen (take 32 (walk demo_conf 33 0)) ∧
    same_ids demo_conf (regs (hw s')).
Proof.
  apply (pci_init_enumerates demo_ok regs demo_rw demo_machine 33).
  - split; [exact demo_conf_range|done].
  - reflexivity.
  - apply list.Forall_replicate. by split.
  - lia.
Defined.
