(* ===== verification/E1000.v ===== *)
(** * drivers/net/e1000.c, net.c, net_detect.c: the network card

    The state is the driver's statics, among them the rings and buffers the
    controller reads and writes by itself ([dma]), the registry of interfaces
    and the hardware. The controller is a parameter ([Mmio] of [Ports]), with the
    shared memory it works on. The addresses of the shared objects are parameters.
    Messages are left out, except those of net_detect.c, which are events. *)
From S2P Require Import Prelude Ports Pci Net.

(** ** drivers/net/net.h and net.c: the registry *)

Record net_device := NetDevice {
  nd_name : list Z;
  nd_mac : list Z;
  nd_io_base : Z;
  nd_wireless : bool;
  nd_link_up : bool;
  nd_tx_frames : Z;
  nd_rx_frames : Z;
}.
Definition nd_zero : net_device := NetDevice [] (zeros 6) 0 false false 0 0.

Record netdevs := NetDevs { registry : list net_device; nreg : Z }.
Definition netdevs0 : netdevs := NetDevs (replicate 8 nd_zero) 0.

Definition netdev_register (nd : option net_device) (r : netdevs) : netdevs :=
  match nd with
  | None => r
  | Some d => if 8 <=? nreg r then r else NetDevs (<[Z.to_nat (nreg r) := d]> (registry r)) (nreg r + 1)
  end.
Definition netdev_count (r : netdevs) : Z := nreg r.
Definition netdev_get (r : netdevs) (idx : Z) : option net_device :=
  if (idx <? 0) || (nreg r <=? idx) then None else registry r !! Z.to_nat idx.
Definition netdev_mac_first (r : netdevs) : option (list Z) :=
  if negb (truthy (netdev_count r)) then None else nd_mac <$> netdev_get r 0.

(** ** Registers and shared memory *)

Definition REG_CTRL : Z := 0x0000.
Definition REG_STATUS : Z := 0x0008.
Definition REG_EEPROM : Z := 0x0014.
Definition REG_IMASK : Z := 0x00D0.
Definition REG_RCTL : Z := 0x0100.
Definition REG_TCTL : Z := 0x0400.
Definition REG_RDBAL : Z := 0x2800.
Definition REG_RDBAH : Z := 0x2804.
Definition REG_RDLEN : Z := 0x2808.
Definition REG_RDH : Z := 0x2810.
Definition REG_RDT : Z := 0x2818.
Definition REG_TDBAL : Z := 0x3800.
Definition REG_TDBAH : Z := 0x3804.
Definition REG_TDLEN : Z := 0x3808.
Definition REG_TDH : Z := 0x3810.
Definition REG_TDT : Z := 0x3818.

Definition RX_DESCS : Z := 32.
Definition TX_DESCS : Z := 8.
Definition BUF_SIZE : Z := 2048.

Record rx_desc := RxDesc {
  rd_addr : Z;
  rd_length : Z;
  rd_csum : Z;
  rd_status : Z;
  rd_errors : Z;
  rd_special : Z;
}.
Record tx_desc := TxDesc {
  td_addr : Z;
  td_length : Z;
  td_cso : Z;
  td_cmd : Z;
  td_status : Z;
  td_css : Z;
  td_special : Z;
}.

Record dma := Dma {
  rx_ring : list rx_desc;
  tx_ring : list tx_desc;
  rx_buffers : list (list Z);
  tx_buffer : list Z;
}.
Definition dma0 : dma :=
  Dma (replicate 32 (RxDesc 0 0 0 0 0 0)) (replicate 8 (TxDesc 0 0 0 0 0 0 0)) (replicate 32 (zeros BUF_SIZE)) (zeros BUF_SIZE).

Definition set_rx_desc (i : Z) (d : rx_desc) (m : dma) : dma :=
  Dma (<[Z.to_nat i := d]> (rx_ring m)) (tx_ring m) (rx_buffers m) (tx_buffer m).
Definition set_tx_desc (i : Z) (d : tx_desc) (m : dma) : dma :=
  Dma (rx_ring m) (<[Z.to_nat i := d]> (tx_ring m)) (rx_buffers m) (tx_buffer m).
Definition set_rx_buffer (i : Z) (b : list Z) (m : dma) : dma :=
  Dma (rx_ring m) (tx_ring m) (<[Z.to_nat i := b]> (rx_buffers m)) (tx_buffer m).
Definition set_tx_buffer (b : list Z) (m : dma) : dma :=
  Dma (rx_ring m) (tx_ring m) (rx_buffers m) b.

(** The stores to a field of a descriptor. *)
Definition rx_status (v : Z) (d : rx_desc) : rx_desc :=
  RxDesc (rd_addr d) (rd_length d) (rd_csum d) v (rd_errors d) (rd_special d).
Definition tx_status (v : Z) (d : tx_desc) : tx_desc :=
  TxDesc (td_addr d) (td_length d) (td_cso d) (td_cmd d) v (td_css d) (td_special d).

(** What the build decides: where the linker puts the shared objects, and whether
    the compiler loads the status of a descriptor in every round of the loop that
    waits for it. The rings are not volatile, so it may also take the status for
    the one just stored. *)
Record layout := Layout {
  at_rx_ring : Z;
  at_tx_ring : Z;
  at_rx_buffers : Z;
  at_tx_buffer : Z;
  status_reloaded : bool;
}.
(** [(u64)(uintptr_t)rx_buffers[i]]. *)
Definition rx_buffer_addr (a : layout) (i : Z) : Z := at_rx_buffers a + BUF_SIZE * i.

Section e1000.
Context {D : Type} `{Mmio D dma} (x86_64 : bool) (a : layout).

Record e1000 := E1000 {
  regs : Z;
  mem : dma;
  rx_tail : Z;
  tx_tail : Z;
  link_up : bool;
  netdevs_of : netdevs;
  hw : D;
}.
Definition e1000_boot (h : D) : e1000 := E1000 0 dma0 0 0 false netdevs0 h.

Definition set_regs (v : Z) (s : e1000) : e1000 :=
  E1000 v (mem s) (rx_tail s) (tx_tail s) (link_up s) (netdevs_of s) (hw s).
Definition set_mem (m : dma) (s : e1000) : e1000 :=
  E1000 (regs s) m (rx_tail s) (tx_tail s) (link_up s) (netdevs_of s) (hw s).
Definition set_rx_tail (v : Z) (s : e1000) : e1000 :=
  E1000 (regs s) (mem s) v (tx_tail s) (link_up s) (netdevs_of s) (hw s).
Definition set_tx_tail (v : Z) (s : e1000) : e1000 :=
  E1000 (regs s) (mem s) (rx_tail s) v (link_up s) (netdevs_of s) (hw s).
Definition set_link_up (v : bool) (s : e1000) : e1000 :=
  E1000 (regs s) (mem s) (rx_tail s) (tx_tail s) v (netdevs_of s) (hw s).
Definition set_netdevs (v : netdevs) (s : e1000) : e1000 :=
  E1000 (regs s) (mem s) (rx_tail s) (tx_tail s) (link_up s) v (hw s).
Definition set_hw (v : D) (s : e1000) : e1000 :=
  E1000 (regs s) (mem s) (rx_tail s) (tx_tail s) (link_up s) (netdevs_of s) v.

(** [regs[off / 4]]. *)
Definition rd (off : Z) : M e1000 Z := λ s,
  let '(v, h) := mmio_read off (hw s) in Some (v, set_hw h s).
Definition wr (off val : Z) : M e1000 unit := modify (λ s, set_hw (mmio_write off val (hw s)) s).

(** The processor looks at the shared memory; the controller has been at
    work meanwhile. *)
Definition look : M e1000 dma := λ s,
  let '(h, m) := run (hw s) (mem s) in Some (m, set_mem m (set_hw h s)).

Definition eeprom_read (word : Z) (out : list Z) : M e1000 (bool * list Z) :=
  wr REG_EEPROM (Z.lor 1 (Z.shiftl word 8)) ;;
  let* r := spin 200000 (
    let* v := rd REG_EEPROM in
    ret (if has v (Z.shiftl 1 4) then Some (u16 (Z.shiftr v 16)) else None)) in
  ret (match r with Some v => (true, le_to 2 v) | None => (false, out) end).

Definition e1000_present (s : e1000) : bool := truthy (regs s).

(** [for (i = 0; i < 3; i++) mac_ok &= eeprom_read(i, &nd.mac[i * 2])]. *)
Fixpoint read_mac (n : nat) (i : Z) (mac_ok : bool) (mac : list Z) : M e1000 (bool * list Z) :=
  match n with
  | O => ret (mac_ok, mac)
  | S n =>
      let* old := lift (slice mac (i * 2) 2) in
      let* (r, w) := eeprom_read (u8 i) old in
      let* mac := lift (splice mac (i * 2) w) in
      read_mac n (i + 1) (mac_ok && r) mac
  end.

(** The loop that gives the receive buffers to the ring. *)
Fixpoint init_rx (n : nat) (i : Z) : M e1000 unit :=
  match n with
  | O => ret tt
  | S n =>
      let* m := gets mem in
      let* d := lift (rx_ring m !! Z.to_nat i) in
      modify (set_mem (set_rx_desc i (rx_status 0
        (RxDesc (rx_buffer_addr a i) (rd_length d) (rd_csum d) (rd_status d) (rd_errors d) (rd_special d))) m)) ;;
      init_rx n (i + 1)
  end.
Fixpoint init_tx (n : nat) (i : Z) : M e1000 unit :=
  match n with
  | O => ret tt
  | S n =>
      let* m := gets mem in
      let* d := lift (tx_ring m !! Z.to_nat i) in
      modify (set_mem (set_tx_desc i (tx_status 0 d) m)) ;;
      init_tx n (i + 1)
  end.

(** The high half of a ring's address. *)
Definition high (addr : Z) : Z := if x86_64 then u32 (Z.shiftr addr 32) else 0.

Definition setup_rx : M e1000 unit :=
  init_rx 32 0 ;;
  wr REG_RDBAL (u32 (at_rx_ring a)) ;;
  wr REG_RDBAH (high (at_rx_ring a)) ;;
  wr REG_RDLEN 512 ;;
  wr REG_RDH 0 ;;
  wr REG_RDT (RX_DESCS - 1) ;;
  modify (set_rx_tail (RX_DESCS - 1)) ;;
  wr REG_RCTL (Z.lor (Z.lor (Z.lor (Z.shiftl 1 1) (Z.shiftl 1 3)) (Z.shiftl 1 5)) (Z.shiftl 1 15)).

Definition setup_tx : M e1000 unit :=
  init_tx 8 0 ;;
  wr REG_TDBAL (u32 (at_tx_ring a)) ;;
  wr REG_TDBAH (high (at_tx_ring a)) ;;
  wr REG_TDLEN 128 ;;
  wr REG_TDH 0 ;;
  wr REG_TDT 0 ;;
  modify (set_tx_tail 0) ;;
  wr REG_TCTL (Z.lor (Z.shiftl 1 1) (Z.shiftl 1 3)).

Definition e1000_init (dev : pci_dev) : M e1000 bool :=
  let* bar := lift (bar_base dev !! 0%nat) in
  if bar =? 0 then ret false
  else
    modify (set_regs bar) ;;
    let* v := rd REG_CTRL in
    wr REG_CTRL (Z.lor v (Z.shiftl 1 26)) ;;
    let* _ := spin 500000 (
      let* v := rd REG_CTRL in
      ret (if negb (has v (Z.shiftl 1 26)) then Some tt else None)) in
    wr REG_IMASK 0 ;;
    let* (mac_ok, mac) := read_mac 3 0 true (zeros 6) in
    if negb mac_ok then ret false
    else
      let* v := rd REG_STATUS in
      modify (set_link_up (has v (Z.shiftl 1 1))) ;;
      let* up := gets link_up in
      setup_rx ;;
      setup_tx ;;
      modify (λ s, set_netdevs (netdev_register
        (Some (NetDevice (chars "intel-e1000") mac 0 false up 0 0)) (netdevs_of s)) s) ;;
      ret true.

Definition e1000_send (frame : list Z) : M e1000 Z :=
  let len := zlen frame in
  let* s := get in
  if negb (truthy (regs s)) || negb (link_up s) || (len =? 0) || (BUF_SIZE <? len) then ret (-1)
  else
    let* b := lift (splice (tx_buffer (mem s)) 0 frame) in
    let t := tx_tail s in
    let m := set_tx_buffer b (mem s) in
    let* _ := lift (tx_ring m !! Z.to_nat t) in
    modify (set_mem (set_tx_desc t (TxDesc (at_tx_buffer a) len 0 0x0B 0 0 0) m)) ;;
    modify (set_tx_tail (u16 ((t + 1) mod TX_DESCS))) ;;
    let* next := gets tx_tail in
    wr REG_TDT next ;;
    let* r := spin 200000 (
      let* m := if status_reloaded a then look else gets mem in
      let* d := lift (tx_ring m !! Z.to_nat t) in
      ret (if has (td_status d) 0x01 then Some 0 else None)) in
    ret (default (-1) r).

(** The result and the bytes stored to [buf]. *)
Definition e1000_poll (max_len : Z) : M e1000 (Z * list Z) :=
  let* s := get in
  if negb (truthy (regs s)) then ret (-1, [])
  else
    let next := u16 ((rx_tail s + 1) mod RX_DESCS) in
    let* m := look in
    let* d := lift (rx_ring m !! Z.to_nat next) in
    if negb (has (rd_status d) 0x01) then ret (0, [])
    else
      let got := if rd_length d <? max_len then rd_length d else max_len in
      let* b := lift (rx_buffers m !! Z.to_nat next) in
      let* l := lift (slice b 0 got) in
      modify (set_mem (set_rx_desc next (rx_status 0 d) m)) ;;
      modify (set_rx_tail next) ;;
      wr REG_RDT next ;;
      ret (got, l).

#[export] Instance e1000_nic : Nic e1000 :=
  {| Net.e1000_present := e1000_present; Net.e1000_send := e1000_send; Net.e1000_poll := e1000_poll |}.
(** ** drivers/net/net_detect.c *)

Record net_id_entry := NetId { ni_vendor : Z; ni_device : Z; ni_name : list Z; ni_wireless : bool }.
Definition known_ids : list net_id_entry := [
  NetId 0x8086 0x100E (chars "Intel 82540EM") false;
  NetId 0x8086 0x100F (chars "Intel 82545EM") false;
  NetId 0x8086 0x153A (chars "Intel I217-LM") false;
  NetId 0x10EC 0x8139 (chars "Realtek RTL8139") false;
  NetId 0x10EC 0x8168 (chars "Realtek RTL8111") false;
  NetId 0x14E4 0x1690 (chars "Broadcom NetXtreme") false;
  NetId 0x8086 0x4222 (chars "Intel PRO/Wireless 3945ABG") true;
  NetId 0x8086 0x08B1 (chars "Intel Wireless 7260") true;
  NetId 0x168C 0x002B (chars "Atheros AR9285") true;
  NetId 0x14E4 0x4315 (chars "Broadcom BCM4312") true;
  NetId 0x10EC 0xC822 (chars "Realtek RTL8822CE") true;
  NetId 0x14C3 0x7961 (chars "MediaTek MT7921") true].

Definition lookup_id (v dv : Z) : option net_id_entry :=
  find (λ e, (ni_vendor e =? v) && (ni_device e =? dv)) known_ids.

Definition net_pci_name (v dv : Z) : list Z :=
  match lookup_id v dv with Some e => ni_name e | None => [] end.

(** The messages. *)
Inductive detected :=
  | InitFailed (name : list Z)
  | WifiFound (name : list Z) (bus dev fn : Z)
  | NoDriver (name : list Z) (bus dev fn : Z)
  | DiscoveryDone (wired bound : Z).

Definition handle_device (d : pci_dev) (known : option net_id_entry) : M e1000 (list detected) :=
  let name := match known with Some e => ni_name e | None => net_pci_name (vendor d) (device d) end in
  let name := match name with [] => chars "unidentified adapter" | _ => name end in
  let bound := match known with Some e => negb (ni_wireless e) | None => false end in
  if bound && (vendor d =? 0x8086) && ((device d =? 0x100E) || (device d =? 0x100F)) then
    let* ok := e1000_init d in
    ret (if ok : bool then [] else [InitFailed name])
  else
    let wireless := match known with Some e => ni_wireless e | None => subclass d =? 0x80 end in
    ret [if wireless then WifiFound name (pbus d) (pdev d) (pfn d) else NoDriver name (pbus d) (pdev d) (pfn d)].

(** [for (i = 0; i < pci_count(); i++)]: the number of controllers. *)
Fixpoint detect_loop {P} (t : pci P) (n : nat) (i wired : Z) : M e1000 (Z * list detected) :=
  match n with
  | O => ret (wired, [])
  | S n =>
      let* d := lift (j ← pci_get t i; Pci.devices t !! Z.to_nat j) in
      if negb (class_code d =? 0x02) then detect_loop t n (i + 1) wired
      else
        let* l := handle_device d (lookup_id (vendor d) (device d)) in
        let* (w, l') := detect_loop t n (i + 1) (wired + 1) in
        ret (w, l ++ l')
  end.

Definition net_detect_devices {P} (t : pci P) : M e1000 (list detected) :=
  let* (wired, l) := detect_loop t (Z.to_nat (pci_count t)) 0 0 in
  let* n := gets (λ s, netdev_count (netdevs_of s)) in
  ret (if truthy wired || truthy n then l ++ [DiscoveryDone wired n] else l).
End e1000.
Arguments e1000 : clear implicits.

(** ** The controller as an interface

    [creg] are its registers, [wire] the frames still to arrive, [out] the
    frames it has put on the cable, [due] how many looks of the processor a
    transmission still takes. As the 8254x manual describes them: the controller
    owns the receive descriptors from RDH up to RDT, and fills them in order
    as long as there are frames; a frame that fits is stored whole in the buffer
    the descriptor points to (longer ones would be spread over several
    descriptors: nothing is said of them). It owns the transmit descriptors from
    TDH up to TDT and reports a frame it has sent in the status, [due] looks after
    it was handed over. The receiver is a prompt one: it does not leave a frame
    waiting when it has a descriptor for it. *)
Section card.
Context {D : Type} `{Mmio D dma} (x86_64 : bool) (a : layout).

(** Shape of the shared memory; the receive buffers are those of the ring. *)
Record shared_ok (m : dma) : Prop := {
  sh_rx : ∀ i, 0 ≤ i < RX_DESCS → ∃ d b, rx_ring m !! Z.to_nat i = Some d ∧ rx_buffers m !! Z.to_nat i = Some b ∧
    rd_addr d = rx_buffer_addr a i ∧ zlen b = BUF_SIZE;
  sh_tx : length (tx_ring m) = 8%nat;
  sh_buf : zlen (tx_buffer m) = BUF_SIZE;
}.

(** The frame in slot [i] of the receive ring, and the slot being done. *)
Definition stored (m : dma) (i : Z) : list Z :=
  default [] (d ← rx_ring m !! Z.to_nat i; b ← rx_buffers m !! Z.to_nat i; Some (take (Z.to_nat (rd_length d)) b)).
Definition done (m : dma) (i : Z) : bool :=
  match rx_ring m !! Z.to_nat i with Some d => has (rd_status d) 0x01 | None => false end.

Definition same_slot (m m' : dma) (i : Z) : Prop :=
  rx_ring m' !! Z.to_nat i = rx_ring m !! Z.to_nat i ∧ rx_buffers m' !! Z.to_nat i = rx_buffers m !! Z.to_nat i.
Definition holds (m : dma) (i : Z) (f : list Z) : Prop :=
  done m i = true ∧ stored m i = f ∧
  ∃ d, rx_ring m !! Z.to_nat i = Some d ∧ rd_addr d = rx_buffer_addr a i ∧ rd_length d = zlen f.

Record configured (r : Z → Z) : Prop := {
  cf_rx : r REG_RDBAL + 2 ^ 32 * r REG_RDBAH = at_rx_ring a ∧ r REG_RDLEN = 512 ∧ r REG_RCTL = 0x802A;
  cf_tx : r REG_TDBAL + 2 ^ 32 * r REG_TDBAH = at_tx_ring a ∧ r REG_TDLEN = 128 ∧ r REG_TCTL = 0xA;
  cf_head : 0 ≤ r REG_RDH < RX_DESCS ∧ 0 ≤ r REG_RDT < RX_DESCS;
}.

(** A frame handed over: the descriptor after TDH is the only one. *)
Definition to_send (r : Z → Z) (m : dma) (f : list Z) : Prop :=
  r REG_TDT = (r REG_TDH + 1) mod TX_DESCS ∧ take (length f) (tx_buffer m) = f ∧
  ∃ d, tx_ring m !! Z.to_nat (r REG_TDH) = Some d ∧ td_addr d = at_tx_buffer a ∧ td_length d = zlen f ∧
    td_cmd d = 0x0B ∧ td_status d = 0.

Definition data_reg (off : Z) : bool :=
  existsb (Z.eqb off) [REG_RCTL; REG_TCTL; REG_RDBAL; REG_RDBAH; REG_RDLEN; REG_RDH; REG_RDT;
         REG_TDBAL; REG_TDBAH; REG_TDLEN; REG_TDH; REG_TDT].

Class E1000Card (ok : D → Prop) (creg : D → Z → Z) (wire out : D → list (list Z)) (due : D → nat) := {
  ec_read : ∀ h off, ok h → ∃ v h', mmio_read off h = (v, h') ∧ ok h' ∧ (∀ r, creg h' r = creg h r) ∧
    wire h' = wire h ∧ out h' = out h;
  ec_write : ∀ h off v, ok h → let h' := mmio_write off v h in
    ok h' ∧ wire h' = wire h ∧ out h' = out h ∧
    (data_reg off = true → ∀ r, creg h' r = if r =? off then v else creg h r);
  ec_run : ∀ h m, ok h → Forall (λ f, 0 < zlen f ≤ BUF_SIZE) (wire h) → configured (creg h) → shared_ok m →
    (creg h REG_TDH = creg h REG_TDT ∨ ∃ f, to_send (creg h) m f) →
    let h' := fst (run h m) in let m' := snd (run h m) in
    ok h' ∧ shared_ok m' ∧ (∀ r, r ≠ REG_RDH → r ≠ REG_TDH → creg h' r = creg h r) ∧
    (∃ fs, wire h = fs ++ wire h' ∧
      creg h' REG_RDH = (creg h REG_RDH + zlen fs) mod RX_DESCS ∧
      zlen fs ≤ (creg h REG_RDT - creg h REG_RDH) mod RX_DESCS ∧
      (wire h' = [] ∨ zlen fs = (creg h REG_RDT - creg h REG_RDH) mod RX_DESCS) ∧
      ∀ i, 0 ≤ i < RX_DESCS →
        match fs !! Z.to_nat ((i - creg h REG_RDH) mod RX_DESCS) with
        | Some f => holds m' i f
        | None => same_slot m m' i
        end) ∧
    (creg h REG_TDH = creg h REG_TDT → tx_ring m' = tx_ring m ∧ out h' = out h ∧ creg h' REG_TDH = creg h REG_TDH) ∧
    (∀ f, to_send (creg h) m f →
      match due h with
      | O => ∃ d v, tx_ring m !! Z.to_nat (creg h REG_TDH) = Some d ∧ has v 0x01 = true ∧
          tx_ring m' = <[Z.to_nat (creg h REG_TDH) := tx_status v d]> (tx_ring m) ∧
          out h' = out h ++ [f] ∧ creg h' REG_TDH = creg h REG_TDT
      | S k => tx_ring m' = tx_ring m ∧ tx_buffer m' = tx_buffer m ∧ out h' = out h ∧
          creg h' REG_TDH = creg h REG_TDH ∧ due h' = k
      end);
}.

(** A card whose transmitter is done within the wait of the driver; the manual
    gives no such bound. *)
Class PromptCard (ok : D → Prop) (due : D → nat) :=
  prompt_due : ∀ h v, ok h → Z.of_nat (due (mmio_write REG_TDT v h)) < 200000.
End card.
Arguments ec_read {D H a ok creg wire out due _}.
Arguments ec_write {D H a ok creg wire out due _}.
Arguments ec_run {D H a ok creg wire out due _}.

(** ** The receive ring is a queue *)

Section driver.
Context {D : Type} `{Mmio D dma} (x86_64 : bool) (a : layout)
  (ok : D → Prop) (creg : D → Z → Z) (wire out : D → list (list Z)) (due : D → nat)
  `{!E1000Card a ok creg wire out due}.

(** Slot [k] after the tail, and the number of slots filled. *)
Definition slot (s : e1000 D) (k : Z) : Z := (rx_tail s + 1 + k) mod RX_DESCS.
Definition filled (s : e1000 D) : Z := (creg (hw s) REG_RDH - rx_tail s - 1) mod RX_DESCS.

(** The frames waiting: those in the ring, then those to come. *)
Definition queued (s : e1000 D) : list (list Z) := (λ k, stored (mem s) (slot s k)) <$> seqZ 0 (filled s).
Definition pending (s : e1000 D) : list (list Z) := queued s ++ wire (hw s).
Definition sent (s : e1000 D) : list (list Z) := out (hw s).

Record rx_ok (s : e1000 D) : Prop := {
  rx_regs : truthy (regs s) = true;
  rx_card : ok (hw s);
  rx_cable : Forall (λ f, 0 < zlen f ≤ BUF_SIZE) (wire (hw s));
  rx_conf : configured a (creg (hw s));
  rx_mem : shared_ok a (mem s);
  rx_rdt : creg (hw s) REG_RDT = rx_tail s;
  rx_full : ∀ k, 0 ≤ k < filled s → ∃ f, holds a (mem s) (slot s k) f ∧ 0 < zlen f ≤ BUF_SIZE;
  rx_empty : ∀ k, filled s ≤ k < RX_DESCS → done (mem s) (slot s k) = false;
}.
Record nic_ok (s : e1000 D) : Prop := {
  no_rx : rx_ok s;
  no_tail : 0 ≤ tx_tail s < TX_DESCS;
  no_head : creg (hw s) REG_TDH = tx_tail s ∧ creg (hw s) REG_TDT = tx_tail s;
}.

Lemma done_same m m' i : same_slot m m' i → done m' i = done m i.
Proof. intros [E _]. unfold done. by rewrite E. Qed.
Lemma stored_same m m' i : same_slot m m' i → stored m' i = stored m i.
Proof. intros [E1 E2]. unfold stored. by rewrite E1, E2. Qed.
Lemma holds_same m m' i f : same_slot m m' i → holds a m i f → holds a m' i f.
Proof.
  intros Hs (Hd & Hst & Hx). pose proof Hs as [E1 _].
  split; [by rewrite (done_same m)|]. split; [by rewrite (stored_same m)|]. by rewrite E1.
Qed.

Lemma filled_range s : 0 ≤ filled s < RX_DESCS.
Proof. apply Z.mod_pos_bound. done. Qed.
Lemma slot_range s k : 0 ≤ slot s k < RX_DESCS.
Proof. apply Z.mod_pos_bound. done. Qed.

(** What the processor sees and what else has happened. *)
Lemma look_run (s : e1000 D) : rx_ok s →
  creg (hw s) REG_TDH = creg (hw s) REG_TDT ∨ (∃ f, to_send a (creg (hw s)) (mem s) f) →
  ∃ m h, look s = Some (m, set_mem m (set_hw h s)) ∧ rx_ok (set_mem m (set_hw h s)) ∧
    pending (set_mem m (set_hw h s)) = pending s ∧
    (wire h = [] ∨ filled (set_mem m (set_hw h s)) = 31) ∧
    m = snd (run (hw s) (mem s)) ∧ h = fst (run (hw s) (mem s)).
Proof.
  intros [Hr Hok Hcab Hc Hm Ht Hfull Hempty] Htx.
  destruct (ec_run (hw s) (mem s) Hok Hcab Hc Hm Htx) as (Ok' & Sh' & Hregs & (fs & Hw & Hrdh & Hfit & Hprompt & Hslots) & _).
  unfold look. destruct (run (hw s) (mem s)) as [h m] eqn:Erun. cbn [fst snd] in *.
  exists m, h. split; [done|].
  pose proof (filled_range s) as Hn. pose proof (zlen_nonneg fs) as Hfs.
  pose proof (cf_head _ _ Hc) as [Hhead Htail].
  set (s' := set_mem m (set_hw h s)). rewrite Ht in *.
  assert (Hn' : filled s' = filled s + zlen fs).
  { unfold filled, s' in *. cbn [hw rx_tail set_mem set_hw mem]. rewrite Hrdh. unfold RX_DESCS in *. mod_lia. }
  assert (Hfree : (rx_tail s - creg (hw s) REG_RDH) mod RX_DESCS = 31 - filled s).
  { unfold filled, RX_DESCS in *. mod_lia. }
  rewrite Hfree in Hfit, Hprompt.
  (* slot k of the queue, seen from the head *)
  assert (Hk : ∀ k, 0 ≤ k < RX_DESCS →
    (slot s k - creg (hw s) REG_RDH) mod RX_DESCS = if k <? filled s then RX_DESCS + k - filled s else k - filled s).
  { intros k Hk. unfold slot, filled, RX_DESCS in *. destruct (Z.ltb_spec k ((creg (hw s) REG_RDH - rx_tail s - 1) mod 32)); mod_lia. }
  assert (Hold : ∀ k, 0 ≤ k < filled s → same_slot (mem s) m (slot s k)).
  { intros k Hkr. specialize (Hslots (slot s k) (slot_range s k)).
    rewrite Hk, (proj2 (Z.ltb_lt _ _)) in Hslots by lia.
    by rewrite lookup_ge_None_2 in Hslots by (unfold zlen, RX_DESCS in *; lia). }
  assert (Hnew : ∀ k f, filled s ≤ k < RX_DESCS → fs !! Z.to_nat (k - filled s) = Some f → holds a m (slot s k) f).
  { intros k f Hkr Hf. specialize (Hslots (slot s k) (slot_range s k)).
    rewrite Hk, (proj2 (Z.ltb_ge _ _)) in Hslots by lia. by rewrite Hf in Hslots. }
  assert (Hrest : ∀ k, filled s + zlen fs ≤ k < RX_DESCS → same_slot (mem s) m (slot s k)).
  { intros k Hkr. specialize (Hslots (slot s k) (slot_range s k)).
    rewrite Hk, (proj2 (Z.ltb_ge _ _)) in Hslots by lia.
    by rewrite lookup_ge_None_2 in Hslots by (unfold zlen in *; lia). }
  pose proof Hcab as Hsizes. rewrite Hw in Hsizes. apply Forall_app in Hsizes as [Hsizes Hleft].
  split; [|split; [|split; [|done]]].
  - split; try done.
    + destruct Hc as [? ? ?]. split; cbn [hw s' set_mem set_hw]; [by rewrite !Hregs by discriminate..|].
      rewrite Hrdh, Hregs by discriminate. split; [by apply Z.mod_pos_bound|by rewrite Ht].
    + cbn [hw s' set_mem set_hw]. by rewrite Hregs by discriminate.
    + intros k Hkr. change (slot s' k) with (slot s k). change (mem s') with m. rewrite Hn' in Hkr.
      destruct (decide (k < filled s)).
      * destruct (Hfull k) as (f & Hf & Hl); [lia|]. exists f. split; [|done]. eapply holds_same; [|done]. apply Hold. lia.
      * destruct (lookup_lt_is_Some_2 fs (Z.to_nat (k - filled s))) as [f Hf]; [unfold zlen in *; lia|].
        exists f. split; [apply Hnew; [unfold RX_DESCS in *; lia|done]|]. by eapply list.Forall_lookup_1 in Hsizes.
    + intros k Hkr. change (slot s' k) with (slot s k). change (mem s') with m. rewrite Hn' in Hkr.
      rewrite (done_same (mem s)) by (apply Hrest; lia). apply Hempty. lia.
  - unfold pending, queued. change (hw s') with h. rewrite Hw, app_assoc. f_equal. rewrite Hn'.
    rewrite seqZ_app, fmap_app by lia. f_equal.
    + apply list_fmap_ext. intros i k Hi. apply lookup_seqZ in Hi as [-> Hi].
      change (slot s' (0 + Z.of_nat i)) with (slot s (0 + Z.of_nat i)). apply stored_same, Hold. lia.
    + apply list_eq. intros j. rewrite list_lookup_fmap.
      destruct (fs !! j) as [f|] eqn:Ef.
      * rewrite (proj2 (lookup_seqZ _ _ _ (filled s + Z.of_nat j))).
        2: { apply lookup_lt_Some in Ef. unfold zlen. lia. }
        cbn [fmap option_fmap option_map]. f_equal. apply (Hnew (filled s + Z.of_nat j) f).
        -- apply lookup_lt_Some in Ef. unfold zlen, RX_DESCS in *. lia.
        -- by replace (Z.to_nat (filled s + Z.of_nat j - filled s)) with j by lia.
      * apply lookup_ge_None in Ef. by rewrite lookup_ge_None_2 by (rewrite length_seqZ; unfold zlen; lia).
  - destruct Hprompt as [->|E]; [by left|]. right. lia.
Qed.

(** ** Polling *)

(** Giving a slot back: the queue loses its head. *)
Lemma release_head (s : e1000 D) h f : rx_ok s → 0 < filled s →
  ok h → (∀ r, creg h r = if r =? REG_RDT then slot s 0 else creg (hw s) r) → wire h = wire (hw s) →
  (∃ d, rx_ring (mem s) !! Z.to_nat (slot s 0) = Some d ∧ f = rx_status 0 d) →
  let s' := set_hw h (set_rx_tail (slot s 0) (set_mem (set_rx_desc (slot s 0) f (mem s)) s)) in
  rx_ok s' ∧ filled s' = filled s - 1 ∧ queued s = stored (mem s) (slot s 0) :: queued s'.
Proof.
  intros [Hr Hok Hcab Hc Hm Ht Hfull Hempty] Hpos Hok' Hregs Hw (d & Hd & ->) s'.
  pose proof (filled_range s) as Hn. pose proof (slot_range s 0) as Hs0. pose proof (cf_head _ _ Hc) as [Hhead Htail].
  assert (Hslot : ∀ k, slot s' k = slot s (k + 1)).
  { intros k. unfold slot, s'. cbn [rx_tail set_hw set_rx_tail set_mem mem hw]. unfold slot, RX_DESCS. mod_lia. }
  assert (Hn' : filled s' = filled s - 1).
  { unfold filled, s', slot in *. cbn [rx_tail set_hw set_rx_tail set_mem mem hw].
    rewrite Hregs. cbn [Z.eqb Pos.eqb REG_RDH REG_RDT]. unfold RX_DESCS in *. mod_lia. }
  assert (Hother : ∀ k, 0 ≤ k < RX_DESCS - 1 → same_slot (mem s) (mem s') (slot s' k)).
  { intros k Hk. split; [|done]. cbn [rx_ring mem s' set_hw set_rx_tail set_mem set_rx_desc].
    apply list_lookup_insert_ne. pose proof (slot_range s (k + 1)).
    rewrite Hslot. intros E. apply Z2Nat.inj in E; [|lia..]. unfold slot, RX_DESCS in *. revert E Hk. clear. intros. mod_lia. }
  assert (Hlast : done (mem s') (slot s' (RX_DESCS - 1)) = false).
  { replace (slot s' (RX_DESCS - 1)) with (slot s 0) by (rewrite Hslot; clear; unfold slot, RX_DESCS; mod_lia).
    unfold done. cbn [rx_ring mem s' set_hw set_rx_tail set_mem set_rx_desc].
    by rewrite list_lookup_insert_eq by (by eapply lookup_lt_Some). }
  split; [|split; [done|]].
  - split; try done.
    + change (hw s') with h. by rewrite Hw.
    + change (hw s') with h. destruct Hc as [Hc1 Hc2 _].
      split; rewrite !Hregs; [exact Hc1|exact Hc2|]. split; [exact Hhead|exact Hs0].
    + destruct Hm as [H1 H2 H3]. split; [|done|done]. intros i Hi.
      destruct (H1 i Hi) as (di & b & Hdi & Hb & Haddr & Hlen).
      cbn [rx_ring rx_buffers mem s' set_hw set_rx_tail set_mem set_rx_desc].
      destruct (decide (i = slot s 0)) as [->|Hne].
      * exists (rx_status 0 d), b. rewrite list_lookup_insert_eq by (by eapply lookup_lt_Some).
        rewrite Hd in Hdi. apply (inj Some) in Hdi as <-. done.
      * exists di, b. rewrite list_lookup_insert_ne by lia. done.
    + intros k Hk. rewrite Hn' in Hk. destruct (Hfull (k + 1)) as (g & Hg & Hl); [lia|].
      exists g. split; [|done]. rewrite <- Hslot in Hg. eapply holds_same; [|exact Hg]. apply Hother. unfold RX_DESCS in *. lia.
    + intros k Hk. rewrite Hn' in Hk. destruct (decide (k = RX_DESCS - 1)) as [->|]; [done|].
      rewrite (done_same (mem s)) by (apply Hother; unfold RX_DESCS in *; lia). rewrite Hslot. apply Hempty. lia.
  - unfold queued. rewrite Hn', (seqZ_cons 0) by done. rewrite fmap_cons. f_equal.
    rewrite <- (fmap_add_seqZ 1 0), <- list_fmap_compose. apply list_fmap_ext.
    intros i k Hi. apply lookup_seqZ in Hi as [-> Hi]. cbn [compose]. rewrite (stored_same (mem s) (mem s')).
    + f_equal. rewrite Hslot. f_equal. lia.
    + apply Hother. unfold RX_DESCS in *. lia.
Qed.

Lemma look_idle (s : e1000 D) : nic_ok s →
  ∃ m h, look s = Some (m, set_mem m (set_hw h s)) ∧ nic_ok (set_mem m (set_hw h s)) ∧
    pending (set_mem m (set_hw h s)) = pending s ∧ out h = out (hw s) ∧
    (wire h = [] ∨ filled (set_mem m (set_hw h s)) = 31).
Proof.
  intros [Hrx Ht [H1 H2]]. assert (Hidle : creg (hw s) REG_TDH = creg (hw s) REG_TDT) by congruence.
  destruct (look_run s Hrx) as (m & h & E & Hrx' & Hp & Hw & -> & ->); [by left|].
  destruct (ec_run (hw s) (mem s)) as (_ & _ & Hregs & _ & Htx & _); [apply Hrx..|by left|].
  destruct (Htx Hidle) as (_ & Hout & Htdh).
  eexists _, _. split; [done|]. split; [|done]. split; [done|done|]. cbn [hw set_mem set_hw tx_tail].
  by rewrite Htdh, (Hregs REG_TDT) by discriminate.
Qed.

Lemma poll_run (s : e1000 D) max : nic_ok s → 0 < max < 65536 →
  ∃ got l s', e1000_poll max s = Some ((got, l), s') ∧ nic_ok s' ∧ sent s' = sent s ∧
    match pending s with
    | [] => got ≤ 0 ∧ l = [] ∧ pending s' = []
    | f :: r => got = zlen l ∧ l = take (Z.to_nat max) f ∧ pending s' = r
    end.
Proof.
  intros Hok Hmax. destruct (look_idle s Hok) as (m & h & E & Hok1 & Hp & Hout & Hprompt).
  set (s1 := set_mem m (set_hw h s)) in *. pose proof Hok1 as [Hrx1 Ht1 [Hh1 Hd1]]. pose proof Hrx1 as [Hregs Hcard Hcab Hc Hm Hrdt Hfull Hempty].
  unfold e1000_poll. unfold bind at 1, get. change (regs s) with (regs s1). rewrite Hregs. cbn [negb].
  assert (Hnext : u16 ((rx_tail s + 1) mod RX_DESCS) = slot s1 0).
  { pose proof (slot_range s1 0). rewrite u16_small; unfold slot, RX_DESCS in *; change (rx_tail s1) with (rx_tail s) in *; mod_lia. }
  rewrite Hnext. cbv zeta. mstep E. fold s1.
  destruct (sh_rx _ _ Hm (slot s1 0) (slot_range s1 0)) as (d & b & Hd & Hb & Haddr & Hlen).
  change (mem s1) with m in Hd, Hb. rewrite Hd. mred.
  assert (Hdone : done m (slot s1 0) = has (rd_status d) 1) by (unfold done; by rewrite Hd). rewrite <- Hdone.
  rewrite <- Hp. pose proof (filled_range s1) as Hfr.
  destruct (decide (filled s1 = 0)) as [Hz|Hz].
  { assert (Hnd : done m (slot s1 0) = false) by (apply (Hempty 0); by rewrite Hz). rewrite Hnd. cbn [negb]. exists 0, [], s1. split; [done|]. split; [done|]. split; [done|].
    assert (Hpe : pending s1 = []); [|by rewrite Hpe].
    destruct Hprompt as [Hw|Hn]; [|unfold s1 in *; lia].
    unfold pending, queued. rewrite Hz. change (hw s1) with h. by rewrite Hw. }
  destruct (Hfull 0) as (f & (Hdn & Hst & d' & Hd' & _ & Hl) & Hfl); [lia|]. change (mem s1) with m in *.
  rewrite Hd in Hd'. apply (inj Some) in Hd' as <-. rewrite Hdn. cbn [negb].
  assert (Hf : f = take (Z.to_nat (rd_length d)) b) by (rewrite <- Hst; unfold stored; by rewrite Hd, Hb).
  rewrite Hb. mred. set (got := if rd_length d <? max then rd_length d else max).
  assert (Hgot : got = Z.min (zlen f) max) by (unfold got; rewrite Hl; destruct (Z.ltb_spec (zlen f) max); lia).
  destruct (slice_is_Some b 0 got) as [l Hs]; [lia|lia|lia|]. rewrite Hs. mred.
  pose proof (slice_zlen _ _ _ _ Hs) as Hll. apply slice_Some in Hs as (_ & _ & _ & Hs).
  change (ok h) in Hcard. destruct (ec_write h REG_RDT (slot s1 0) Hcard) as (Ok2 & Hw2 & Ho2 & Hr2).
  specialize (Hr2 eq_refl).
  set (s2 := set_hw (mmio_write REG_RDT (slot s1 0) h) (set_rx_tail (slot s1 0) (set_mem (set_rx_desc (slot s1 0) (rx_status 0 d) m) s1))).
  destruct (release_head s1 (mmio_write REG_RDT (slot s1 0) h) (rx_status 0 d)) as (Hrx2 & Hn2 & Hq2);
    [done|lia|done|exact Hr2|done|by exists d|].
  exists got, l, s2. split; [done|]. change (mem s1) with m in *. split; [|split].
  - split; [exact Hrx2|done|]. change (hw s2) with (mmio_write REG_RDT (slot s1 0) h). rewrite !Hr2. done.
  - unfold sent. change (hw s2) with (mmio_write REG_RDT (slot s1 0) h). by rewrite Ho2.
  - unfold pending. rewrite Hq2. cbn [app]. change (hw s2) with (mmio_write REG_RDT (slot s1 0) h). rewrite Hw2.
    split; [done|]. split; [|done]. rewrite Hst, Hs, Hf, take_take. f_equal. rewrite Hl. lia.
Qed.

(** ** Sending *)

(** Waiting for the card to report the frame. *)
Lemma wait_sent f k : ∀ n i (s : e1000 D), rx_ok s → 0 ≤ tx_tail s < TX_DESCS →
  to_send a (creg (hw s)) (mem s) f → creg (hw s) REG_TDT = tx_tail s → due (hw s) = k → (k < n)%nat →
  ∃ s', for_ i n (λ _,
      let* m := look in
      let* d := lift (tx_ring m !! Z.to_nat (creg (hw s) REG_TDH)) in
      ret (if has (td_status d) 0x01 then Some 0 else None)) s = Some (Some 0, s') ∧
    nic_ok s' ∧ pending s' = pending s ∧ sent s' = sent s ++ [f] ∧ tx_tail s' = tx_tail s.
Proof.
  induction k as [|k IH]; intros n i s Hrx Ht Hsend Htdt Hdue Hn; (destruct n as [|n]; [lia|]); cbn [for_].
  - destruct (look_run s Hrx) as (m & h & E & Hrx' & Hp & _ & Em & Eh); [by right; exists f|].
    destruct (ec_run (hw s) (mem s)) as (_ & _ & Hregs & _ & _ & Hbusy); [apply Hrx..|by right; exists f|].
    rewrite <- Em, <- Eh in *. specialize (Hbusy f Hsend). rewrite Hdue in Hbusy.
    destruct Hbusy as (d & v & Hd & Hv & Hring & Hout & Htdh). mred. mstep E.
    rewrite Hring, list_lookup_insert_eq by (by eapply lookup_lt_Some). mred. cbn [td_status tx_status]. rewrite Hv.
    eexists. split; [reflexivity|]. split; [|split; [done|split; done]].
    split; [done|done|]. cbn [hw set_mem set_hw tx_tail]. by rewrite Htdh, (Hregs REG_TDT) by discriminate.
  - destruct (look_run s Hrx) as (m & h & E & Hrx' & Hp & _ & Em & Eh); [by right; exists f|].
    destruct (ec_run (hw s) (mem s)) as (_ & _ & Hregs & _ & _ & Hbusy); [apply Hrx..|by right; exists f|].
    rewrite <- Em, <- Eh in *. specialize (Hbusy f Hsend). rewrite Hdue in Hbusy.
    destruct Hbusy as (Hring & Hbuf & Hout & Htdh & Hdue'). mred. mstep E.
    pose proof Hsend as (Hnext & Htake & d & Hd & Haddr & Hlen & Hcmd & Hst).
    rewrite Hring, Hd. mred. rewrite Hst. change (has 0 1) with false. cbv iota.
    set (s1 := set_mem m (set_hw h s)) in *.
    destruct (IH n (i + 1) s1) as (s' & E' & Hok & Hp' & Hs' & Ht'); [done|done| | |done|lia|].
    + unfold to_send. change (hw s1) with h. change (mem s1) with m.
      rewrite Htdh, (Hregs REG_TDT), Hring, Hbuf by discriminate. exact Hsend.
    + change (hw s1) with h. by rewrite (Hregs REG_TDT) by discriminate.
    + change (hw s1) with h in E'. rewrite Htdh in E'. exists s'. split; [exact E'|]. split; [done|].
      split; [congruence|]. split; [|done]. rewrite Hs'. unfold sent. change (hw s1) with h. by rewrite Hout.
Qed.

(** Waiting in vain: the card takes longer than the driver waits. *)
Lemma wait_late f n : ∀ i (s : e1000 D), rx_ok s →
  to_send a (creg (hw s)) (mem s) f → (n ≤ due (hw s))%nat →
  ∃ s', for_ i n (λ _,
      let* m := look in
      let* d := lift (tx_ring m !! Z.to_nat (creg (hw s) REG_TDH)) in
      ret (if has (td_status d) 0x01 then Some 0 else None)) s = Some (None, s') ∧
    rx_ok s' ∧ pending s' = pending s ∧ sent s' = sent s ∧ tx_tail s' = tx_tail s ∧
    to_send a (creg (hw s')) (mem s') f ∧ due (hw s') = (due (hw s) - n)%nat.
Proof.
  induction n as [|n IH]; intros i s Hrx Hsend Hn; cbn [for_].
  { exists s. rewrite Nat.sub_0_r. done. }
  destruct (look_run s Hrx) as (m & h & E & Hrx' & Hp & _ & Em & Eh); [by right; exists f|].
  destruct (ec_run (hw s) (mem s)) as (_ & _ & Hregs & _ & _ & Hbusy); [apply Hrx..|by right; exists f|].
  rewrite <- Em, <- Eh in *. specialize (Hbusy f Hsend). destruct (due (hw s)) as [|k]; [lia|].
  destruct Hbusy as (Hring & Hbuf & Hout & Htdh & Hdue'). mred. mstep E.
  pose proof Hsend as (Hnext & Htake & d & Hd & Haddr & Hlen & Hcmd & Hst).
  rewrite Hring, Hd. mred. rewrite Hst. change (has 0 1) with false. cbv iota.
  set (s1 := set_mem m (set_hw h s)) in *.
  destruct (IH (i + 1) s1) as (s' & E' & Hok & Hp' & Hs' & Ht' & Hsend' & Hd'); [done| |change (hw s1) with h; lia|].
  - unfold to_send. change (hw s1) with h. change (mem s1) with m.
    rewrite Htdh, (Hregs REG_TDT), Hring, Hbuf by discriminate. exact Hsend.
  - change (hw s1) with h in *. rewrite Htdh in E'. exists s'. split; [exact E'|]. split; [done|].
    split; [congruence|]. split; [rewrite Hs'; unfold sent; change (hw s1) with h; by rewrite Hout|].
    split; [done|]. split; [done|]. rewrite Hd', Hdue'. lia.
Qed.

(** Waiting without looking. *)
Lemma wait_blind {R} n (body : M (e1000 D) (option R)) : ∀ i s,
  body s = Some (None, s) → for_ i n (λ _, body) s = Some (None, s).
Proof. induction n as [|n IH]; intros i s Hb; [done|]. cbn [for_]. rewrite (bind_eq _ _ _ _ _ Hb). by apply IH. Qed.

(** The state in which [e1000_send] starts to wait. *)
Definition handed (s : e1000 D) (f : list Z) : e1000 D :=
  let next := (tx_tail s + 1) mod TX_DESCS in
  E1000 (regs s)
    (set_tx_desc (tx_tail s) (TxDesc (at_tx_buffer a) (zlen f) 0 0x0B 0 0 0)
      (set_tx_buffer (f ++ drop (length f) (tx_buffer (mem s))) (mem s)))
    (rx_tail s) next (link_up s) (netdevs_of s) (mmio_write REG_TDT next (hw s)).

Lemma handed_ok (s : e1000 D) f : nic_ok s → 0 < zlen f ≤ BUF_SIZE →
  rx_ok (handed s f) ∧ to_send a (creg (hw (handed s f))) (mem (handed s f)) f ∧
  creg (hw (handed s f)) REG_TDH = tx_tail s ∧ creg (hw (handed s f)) REG_TDT = tx_tail (handed s f) ∧
  pending (handed s f) = pending s ∧ sent (handed s f) = sent s.
Proof.
  intros [Hrx Ht [Htdh Htdt]] Hf. pose proof (rx_mem _ Hrx) as [Hsh1 Hsh2 Hsh3].
  destruct (ec_write (hw s) REG_TDT ((tx_tail s + 1) mod TX_DESCS) (rx_card _ Hrx)) as (Ok1 & Hw1 & Ho1 & Hr1).
  specialize (Hr1 eq_refl). set (s1 := handed s f). change (hw s1) with (mmio_write REG_TDT ((tx_tail s + 1) mod TX_DESCS) (hw s)).
  set (h1 := mmio_write REG_TDT ((tx_tail s + 1) mod TX_DESCS) (hw s)) in *.
  assert (Hfl : filled s1 = filled s) by (unfold filled; change (hw s1) with h1; by rewrite Hr1).
  split; [|split; [|split; [|split; [|split]]]].
  - pose proof Hrx as [Hg Hc0 Hcab Hcf _ Hrdt Hfull Hempty].
    split; [done|done| | |split; [done| |]| | |].
    + change (hw s1) with h1. by rewrite Hw1.
    + change (hw s1) with h1. destruct Hcf as [H1 H2 H3]. split; rewrite !Hr1; [exact H1|exact H2|exact H3].
    + cbn [mem s1 handed tx_ring set_tx_desc set_tx_buffer]. by rewrite length_insert.
    + cbn [mem s1 handed tx_buffer set_tx_desc set_tx_buffer]. rewrite zlen_app.
      replace (drop (length f) (tx_buffer (mem s))) with (drop (Z.to_nat (zlen f)) (tx_buffer (mem s))) by (f_equal; unfold zlen; lia).
      rewrite zlen_drop by lia. lia.
    + change (hw s1) with h1. by rewrite Hr1.
    + intros k Hk. rewrite Hfl in Hk. exact (Hfull k Hk).
    + intros k Hk. rewrite Hfl in Hk. exact (Hempty k Hk).
  - split; [rewrite !Hr1; cbn [Z.eqb Pos.eqb REG_TDT REG_TDH]; by rewrite Htdh|]. split.
    + cbn [s1 handed mem tx_buffer set_tx_desc set_tx_buffer]. by rewrite take_app_length.
    + destruct (lookup_lt_is_Some_2 (tx_ring (mem s)) (Z.to_nat (tx_tail s))) as [d0 Hd0]; [unfold TX_DESCS in *; lia|].
      eexists. rewrite Hr1. cbn [Z.eqb Pos.eqb REG_TDT REG_TDH s1 handed mem tx_ring set_tx_desc set_tx_buffer]. rewrite Htdh.
      rewrite list_lookup_insert_eq by (by eapply lookup_lt_Some). done.
  - rewrite Hr1. exact Htdh.
  - by rewrite Hr1.
  - unfold pending, queued. rewrite Hfl. change (hw s1) with h1. by rewrite Hw1.
  - unfold sent. change (hw s1) with h1. exact Ho1.
Qed.

(** The start of [e1000_send]. *)
Lemma send_start (s : e1000 D) f : nic_ok s →
  e1000_send a f s =
    if link_up s && (0 <? zlen f) && (zlen f <=? BUF_SIZE) then
      (let* r := spin 200000 (
         let* m := if status_reloaded a then look else gets mem in
         let* d := lift (tx_ring m !! Z.to_nat (tx_tail s)) in
         ret (if has (td_status d) 0x01 then Some 0 else None)) in
       ret (default (-1) r)) (handed s f)
    else Some (-1, s).
Proof.
  intros [Hrx Ht _]. unfold e1000_send, get. unfold bind at 1.
  rewrite (rx_regs _ Hrx). pose proof (zlen_nonneg f) as Hf0. cbn [negb orb].
  destruct (link_up s); cbn [negb orb andb]; [|done].
  destruct (Z.eqb_spec (zlen f) 0) as [Hz|Hz]; cbn [orb]; [by rewrite Hz|].
  rewrite (proj2 (Z.ltb_lt 0 _)) by lia. cbn [andb].
  destruct (Z.ltb_spec BUF_SIZE (zlen f)) as [Hbig|Hfit]; [by rewrite (proj2 (Z.leb_gt _ _)) by lia|].
  rewrite (proj2 (Z.leb_le _ _)) by lia. pose proof (rx_mem _ Hrx) as [_ Hsh2 Hsh3].
  destruct (splice_is_Some (tx_buffer (mem s)) 0 f) as [b Hb]; [lia|lia|]. rewrite Hb. mred.
  apply splice_Some in Hb as (_ & _ & ->). change (Z.to_nat 0) with 0%nat. rewrite take_0. cbn [app Nat.add].
  destruct (lookup_lt_is_Some_2 (tx_ring (mem s)) (Z.to_nat (tx_tail s))) as [d0 Hd0]; [unfold TX_DESCS in *; lia|].
  cbn [tx_ring set_tx_buffer]. rewrite Hd0. mred. cbn [set_mem set_tx_tail tx_tail].
  rewrite u16_small by (unfold TX_DESCS; mod_lia). unfold wr. mred. done.
Qed.

(** [e1000_send] on every branch. *)
Lemma send_run (s : e1000 D) f : nic_ok s →
  ∃ rc s', e1000_send a f s = Some (rc, s') ∧
    if link_up s && (0 <? zlen f) && (zlen f <=? BUF_SIZE) then
      pending s' = pending s ∧ tx_tail s' = (tx_tail s + 1) mod TX_DESCS ∧
      if status_reloaded a && (Z.of_nat (due (hw (handed s f))) <? 200000)
      then rc = 0 ∧ nic_ok s' ∧ sent s' = sent s ++ [f]
      else rc = -1 ∧ rx_ok s' ∧ sent s' = sent s ∧ to_send a (creg (hw s')) (mem s') f
    else rc = -1 ∧ s' = s.
Proof.
  intros Hok. rewrite send_start by done.
  destruct (link_up s && (0 <? zlen f) && (zlen f <=? BUF_SIZE)) eqn:Eg; [|by exists (-1), s].
  bool_prop. destruct (handed_ok s f Hok) as (Hrx1 & Hsend & Htdh & Htdt & Hp1 & Hs1); [lia|].
  set (s1 := handed s f) in *. unfold bind at 1. rewrite spin_for. destruct (status_reloaded a); cbn [andb].
  2: { rewrite wait_blind.
       - exists (-1), s1. done.
       - pose proof Hsend as (_ & _ & d & Hd & _ & _ & _ & Hst). rewrite Htdh in Hd. mred. rewrite Hd. mred. by rewrite Hst. }
  rewrite <- Htdh. destruct (Z.ltb_spec (Z.of_nat (due (hw s1))) 200000) as [Hin|Hlate].
  - destruct (wait_sent f (due (hw s1)) (Z.to_nat 200000) 0 s1) as (s' & E & Hok' & Hp & Hs & Ht'); [done| |done|done|done|lia|].
    { apply Z.mod_pos_bound. done. }
    rewrite E. exists 0, s'. split; [done|]. split; [congruence|]. split; [by rewrite Ht', Htdh|]. split; [done|]. split; [done|congruence].
  - destruct (wait_late f (Z.to_nat 200000) 0 s1) as (s' & E & Hrx' & Hp & Hs & Ht' & Hsend' & _); [done|done|lia|].
    rewrite E. exists (-1), s'. split; [done|]. split; [congruence|]. split; [by rewrite Ht', Htdh|]. split; [done|]. split; [done|].
    split; [congruence|done].
Qed.

(** ** Initialisation *)

(** Statics and frames are as before, only the hardware has moved. *)
Definition hw_only (s s' : e1000 D) : Prop :=
  ∃ h, s' = set_hw h s ∧ ok h ∧ wire h = wire (hw s) ∧ out h = out (hw s).

Lemma hw_only_refl s : ok (hw s) → hw_only s s.
Proof. intros. exists (hw s). by destruct s. Qed.
Lemma hw_only_trans s1 s2 s3 : hw_only s1 s2 → hw_only s2 s3 → hw_only s1 s3.
Proof.
  intros (h1 & -> & O1 & W1 & U1) (h2 & -> & O2 & W2 & U2). exists h2. cbn [hw set_hw] in *.
  split; [done|]. split; [done|]. split; congruence.
Qed.

Lemma rd_wp (s : e1000 D) off : ok (hw s) → wp (rd off) (λ _ s', hw_only s s' ∧ ∀ r, creg (hw s') r = creg (hw s) r) s.
Proof.
  intros Hok. destruct (ec_read (hw s) off Hok) as (v & h & E & Hok' & Hr & Hw & Ho). unfold rd.
  exists v, (set_hw h s). rewrite E. split; [done|]. split; [by exists h|exact Hr].
Qed.
Lemma wr_wp (s : e1000 D) off v : ok (hw s) →
  wp (wr off v) (λ _ s', hw_only s s' ∧ s' = set_hw (mmio_write off v (hw s)) s ∧
    (data_reg off = true → ∀ r, creg (hw s') r = if r =? off then v else creg (hw s) r)) s.
Proof.
  intros Hok. destruct (ec_write (hw s) off v Hok) as (Hok' & Hw & Ho & Hr). apply wp_modify.
  split; [by eexists|]. split; [done|exact Hr].
Qed.

(** A bounded wait for the card. *)
Lemma spin_wp {R} n (body : M (e1000 D) (option R)) (s : e1000 D) : ok (hw s) →
  (∀ s1, ok (hw s1) → wp body (λ _ s2, hw_only s1 s2) s1) → wp (spin n body) (λ _ s', hw_only s s') s.
Proof.
  intros Hok Hbody. unfold wp. rewrite spin_for.
  apply (wp_for (λ _ s', hw_only s s') (λ _ s', hw_only s s')); [by apply hw_only_refl|done|].
  intros j s1 _ Hs1. pose proof Hs1 as (h & -> & Hokh & _).
  eapply wp_mono; [by apply Hbody|]. intros [x|] s2 Hs2; by eapply hw_only_trans.
Qed.

Lemma hw_only_ok s s' : hw_only s s' → ok (hw s').
Proof. by intros (h & -> & ? & _). Qed.

Lemma eeprom_wp (s : e1000 D) w o : ok (hw s) → zlen o = 2 →
  wp (eeprom_read w o) (λ r s', zlen (snd r) = 2 ∧ hw_only s s') s.
Proof.
  intros Hok Ho. unfold eeprom_read. wp_apply (wr_wp s); [done|]. intros _ s1 (H1 & _).
  eapply wp_call; [apply (spin_wp 200000 _ s1)|].
  - by eapply hw_only_ok.
  - intros s2 Ok2. wp_apply (rd_wp s2); [done|]. intros v s3 [H3 _]. by apply wp_ret.
  - intros r s2 H2. apply wp_ret. split; [by destruct r|]. by eapply hw_only_trans.
Qed.

Lemma read_mac_wp n : ∀ i b mac (s : e1000 D), ok (hw s) → 0 ≤ i → i + Z.of_nat n ≤ 3 → zlen mac = 6 →
  wp (read_mac n i b mac) (λ _ s', hw_only s s') s.
Proof.
  induction n as [|n IH]; intros i b mac s Hok Hi Hn Hm; cbn [read_mac]; [by apply wp_ret, hw_only_refl|].
  destruct (slice_is_Some mac (i * 2) 2) as [o Ho]; [lia..|]. apply wp_bind, (wp_lift _ _ _ _ Ho).
  wp_apply (eeprom_wp s); [done|by eapply slice_zlen|]. intros [r w] s1 [Hw H1]. cbn [snd] in Hw.
  destruct (splice_is_Some mac (i * 2) w) as [mac' Hmac]; [lia..|]. apply wp_bind, (wp_lift _ _ _ _ Hmac).
  eapply wp_mono; [apply (IH (i + 1)); [by eapply hw_only_ok|lia|lia|by rewrite (splice_zlen _ _ _ _ Hmac)]|].
  intros ? s2 H2. by eapply hw_only_trans.
Qed.

Record mem_shape (m : dma) : Prop := {
  ms_ring : length (rx_ring m) = 32%nat;
  ms_buffers : length (rx_buffers m) = 32%nat ∧ Forall (λ b, zlen b = BUF_SIZE) (rx_buffers m);
  ms_tx : length (tx_ring m) = 8%nat;
  ms_buffer : zlen (tx_buffer m) = BUF_SIZE;
}.

(** Slot [j] has been given its buffer. *)
Definition given (m : dma) (j : Z) : Prop :=
  ∃ d, rx_ring m !! Z.to_nat j = Some d ∧ rd_addr d = rx_buffer_addr a j ∧ rd_status d = 0.

Lemma init_rx_wp n : ∀ i (s : e1000 D), mem_shape (mem s) → 0 ≤ i → i + Z.of_nat n = RX_DESCS →
  (∀ j, 0 ≤ j < i → given (mem s) j) →
  wp (init_rx a n i) (λ _ s', ∃ m, s' = set_mem m s ∧ mem_shape m ∧ ∀ j, 0 ≤ j < RX_DESCS → given m j) s.
Proof.
  induction n as [|n IH]; intros i s Hm Hi Hn Hg; cbn [init_rx].
  { apply wp_ret. exists (mem s). split; [by destruct s|]. split; [done|]. intros j Hj. apply Hg. lia. }
  wp_pure. destruct (lookup_lt_is_Some_2 (rx_ring (mem s)) (Z.to_nat i)) as [d Hd].
  { rewrite (ms_ring _ Hm). unfold RX_DESCS in *. lia. }
  apply wp_bind, (wp_lift _ _ _ _ Hd), wp_bind, wp_modify.
  set (d' := rx_status 0 _). set (m1 := set_rx_desc i d' (mem s)).
  assert (Hm1 : mem_shape m1).
  { destruct Hm. split; try done. cbn [rx_ring m1 set_rx_desc]. by rewrite length_insert. }
  eapply wp_mono; [apply (IH (i + 1) (set_mem m1 s)); [done|lia|lia|]|].
  - intros j Hj. unfold given. change (rx_ring (mem (set_mem m1 s))) with (<[Z.to_nat i := d']> (rx_ring (mem s))).
    destruct (decide (j = i)) as [->|Hne].
    + exists d'. by rewrite list_lookup_insert_eq by (by eapply lookup_lt_Some).
    + rewrite list_lookup_insert_ne by lia. apply Hg. lia.
  - intros _ s' (m & -> & Hsh & Hall). by exists m.
Qed.

Lemma init_tx_wp n : ∀ i (s : e1000 D), mem_shape (mem s) → 0 ≤ i → i + Z.of_nat n = TX_DESCS →
  wp (init_tx n i) (λ _ s', ∃ m, s' = set_mem m s ∧ mem_shape m ∧ rx_ring m = rx_ring (mem s)) s.
Proof.
  induction n as [|n IH]; intros i s Hm Hi Hn; cbn [init_tx].
  { apply wp_ret. exists (mem s). split; [by destruct s|]. done. }
  wp_pure. destruct (lookup_lt_is_Some_2 (tx_ring (mem s)) (Z.to_nat i)) as [d Hd].
  { rewrite (ms_tx _ Hm). unfold TX_DESCS in *. lia. }
  apply wp_bind, (wp_lift _ _ _ _ Hd), wp_bind, wp_modify.
  set (m1 := set_tx_desc i (tx_status 0 d) (mem s)).
  assert (Hm1 : mem_shape m1).
  { destruct Hm. split; try done. cbn [tx_ring m1 set_tx_desc]. by rewrite length_insert. }
  eapply wp_mono; [apply (IH (i + 1) (set_mem m1 s)); [done|lia|lia]|].
  intros _ s' (m & -> & Hsh & Hall). by exists m.
Qed.

(** A register write in the middle of a computation. *)
Lemma wr_step {B} (s : e1000 D) off v (k : unit → M (e1000 D) B) Q : ok (hw s) → data_reg off = true →
  (∀ h, ok h → wire h = wire (hw s) → out h = out (hw s) →
    (∀ r, creg h r = if r =? off then v else creg (hw s) r) → wp (k tt) Q (set_hw h s)) →
  wp (bind (wr off v) k) Q s.
Proof.
  intros Hok Hd Hk. destruct (ec_write (hw s) off v Hok) as (Hok' & Hw & Ho & Hr).
  apply wp_bind, wp_modify. apply Hk; [done|done|done|]. by apply Hr.
Qed.

(** The registers after a write [R]. *)
Ltac regs_after R := rewrite ?R; cbn [Z.eqb Pos.eqb REG_RCTL REG_TCTL REG_RDBAL REG_RDBAH REG_RDLEN REG_RDH REG_RDT
  REG_TDBAL REG_TDBAH REG_TDLEN REG_TDH REG_TDT].

Lemma setup_rx_wp (s : e1000 D) : ok (hw s) → mem_shape (mem s) →
  0 ≤ at_rx_ring a < (if x86_64 then 2 ^ 64 else 2 ^ 32) →
  wp (setup_rx x86_64 a) (λ _ s', ∃ m h, s' = set_hw h (set_rx_tail 31 (set_mem m s)) ∧ ok h ∧
    wire h = wire (hw s) ∧ out h = out (hw s) ∧ mem_shape m ∧ (∀ j, 0 ≤ j < RX_DESCS → given m j) ∧
    creg h REG_RDBAL + 2 ^ 32 * creg h REG_RDBAH = at_rx_ring a ∧ creg h REG_RDLEN = 512 ∧
    creg h REG_RDH = 0 ∧ creg h REG_RDT = 31 ∧ creg h REG_RCTL = 0x802A) s.
Proof.
  intros Hok Hm Ha. unfold setup_rx.
  wp_apply (init_rx_wp 32 0 s); [done|done|done|intros; lia|]. intros _ s1 (m & -> & Hm1 & Hg).
  apply wr_step; [done|done|]. intros h1 O1 W1 U1 R1. apply wr_step; [done|done|]. intros h2 O2 W2 U2 R2.
  apply wr_step; [done|done|]. intros h3 O3 W3 U3 R3. apply wr_step; [done|done|]. intros h4 O4 W4 U4 R4.
  apply wr_step; [done|done|]. intros h5 O5 W5 U5 R5. wp_pure. cbn [hw set_hw set_mem set_rx_tail] in *.
  eapply wp_mono; [apply wr_wp; exact O5|]. intros _ s6 ((h6 & -> & O6 & W6 & U6) & _ & R6).
  specialize (R6 eq_refl). cbn [hw set_hw set_rx_tail set_mem] in *.
  exists m, h6. split; [done|]. split; [done|]. split; [congruence|]. split; [congruence|]. split; [done|]. split; [done|].
  regs_after R6. regs_after R5. regs_after R4. regs_after R3. regs_after R2. regs_after R1.
  split; [|done]. unfold high. destruct x86_64.
  - rewrite Z.shiftr_div_pow2 by lia. unfold u32. rewrite (Z.mod_small (_ / _)) by mod_lia. mod_lia.
  - rewrite u32_small by lia. lia.
Qed.

Lemma setup_tx_wp (s : e1000 D) : ok (hw s) → mem_shape (mem s) →
  0 ≤ at_tx_ring a < (if x86_64 then 2 ^ 64 else 2 ^ 32) →
  wp (setup_tx x86_64 a) (λ _ s', ∃ m h, s' = set_hw h (set_tx_tail 0 (set_mem m s)) ∧ ok h ∧
    wire h = wire (hw s) ∧ out h = out (hw s) ∧ mem_shape m ∧ rx_ring m = rx_ring (mem s) ∧
    creg h REG_TDBAL + 2 ^ 32 * creg h REG_TDBAH = at_tx_ring a ∧ creg h REG_TDLEN = 128 ∧
    creg h REG_TDH = 0 ∧ creg h REG_TDT = 0 ∧ creg h REG_TCTL = 0xA ∧
    ∀ r, r ∈ [REG_RDBAL; REG_RDBAH; REG_RDLEN; REG_RDH; REG_RDT; REG_RCTL] → creg h r = creg (hw s) r) s.
Proof.
  intros Hok Hm Ha. unfold setup_tx.
  wp_apply (init_tx_wp 8 0 s); [done|done|done|]. intros _ s1 (m & -> & Hm1 & Hg).
  apply wr_step; [done|done|]. intros h1 O1 W1 U1 R1. apply wr_step; [done|done|]. intros h2 O2 W2 U2 R2.
  apply wr_step; [done|done|]. intros h3 O3 W3 U3 R3. apply wr_step; [done|done|]. intros h4 O4 W4 U4 R4.
  apply wr_step; [done|done|]. intros h5 O5 W5 U5 R5. wp_pure. cbn [hw set_hw set_mem set_tx_tail] in *.
  eapply wp_mono; [apply wr_wp; exact O5|]. intros _ s6 ((h6 & -> & O6 & W6 & U6) & _ & R6).
  specialize (R6 eq_refl). cbn [hw set_hw set_tx_tail set_mem] in *.
  exists m, h6. split; [done|]. split; [done|]. split; [congruence|]. split; [congruence|]. split; [done|]. split; [done|].
  split; [|split; [|split; [|split; [|split]]]].
  6: { intros r Hr. rewrite !elem_of_cons, elem_of_nil in Hr.
       destruct Hr as [->|[->|[->|[->|[->|[->|[]]]]]]]; by regs_after R6; regs_after R5; regs_after R4; regs_after R3; regs_after R2; regs_after R1. }
  all: regs_after R6; regs_after R5; regs_after R4; regs_after R3; regs_after R2; regs_after R1; try done.
  unfold high. destruct x86_64.
  - rewrite Z.shiftr_div_pow2 by lia. unfold u32. rewrite (Z.mod_small (_ / _)) by mod_lia. mod_lia.
  - rewrite u32_small by lia. lia.
Qed.

Lemma init_run (s : e1000 D) dev bar : ok (hw s) → Forall (λ f, 0 < zlen f ≤ BUF_SIZE) (wire (hw s)) → mem_shape (mem s) →
  0 ≤ at_rx_ring a < (if x86_64 then 2 ^ 64 else 2 ^ 32) → 0 ≤ at_tx_ring a < (if x86_64 then 2 ^ 64 else 2 ^ 32) →
  bar_base dev !! 0%nat = Some bar → bar ≠ 0 →
  wp (e1000_init x86_64 a dev) (λ r s', regs s' = bar ∧
    if r : bool then nic_ok s' ∧ pending s' = wire (hw s) ∧ sent s' = out (hw s) ∧
      ∃ nd, netdevs_of s' = netdev_register (Some nd) (netdevs_of s) ∧ nd_link_up nd = link_up s'
    else netdevs_of s' = netdevs_of s) s.
Proof.
  intros Hok Hcab Hm Harx Hatx Hbar Hnz. unfold e1000_init. apply wp_bind, (wp_lift _ _ _ _ Hbar).
  rewrite (proj2 (Z.eqb_neq _ _)) by done. wp_pure.
  wp_apply (rd_wp (set_regs bar s)); [done|]. intros v s1 [H1 _].
  wp_apply (wr_wp s1); [by eapply hw_only_ok|]. intros _ s2 (H2 & _).
  eapply wp_call; [apply (spin_wp 500000 _ s2); [by eapply hw_only_ok|]|].
  { intros s3 O3. wp_apply (rd_wp s3); [done|]. intros ? s4 [H4 _]. by apply wp_ret. }
  cbv beta. intros ? s3 H3. wp_apply (wr_wp s3); [by eapply hw_only_ok|]. intros _ s4 (H4 & _).
  wp_apply (read_mac_wp 3 0 true (zeros 6) s4); [by eapply hw_only_ok|done|done|done|]. intros [mac_ok mac] s5 H5.
  assert (Hmv : hw_only (set_regs bar s) s5) by (do 4 (eapply hw_only_trans; [done|]); done).
  destruct mac_ok; cbn [negb].
  2: { apply wp_ret. destruct Hmv as (h & -> & _). done. }
  wp_apply (rd_wp s5); [by eapply hw_only_ok|]. intros st s6 [H6 _].
  pose proof (hw_only_trans _ _ _ Hmv H6) as (h & -> & Oh & Wh & Uh). wp_pure. cbn [link_up set_link_up].
  set (up := has st _). set (s7 := set_link_up up _).
  wp_apply (setup_rx_wp s7); [done|done|done|]. intros _ s8 (m8 & h8 & -> & O8 & W8 & U8 & Hm8 & Hg8 & R1 & R2 & R3 & R4 & R5).
  wp_apply (setup_tx_wp (set_hw h8 (set_rx_tail 31 (set_mem m8 s7)))); [done|done|done|].
  intros _ s9 (m9 & h9 & -> & O9 & W9 & U9 & Hm9 & Hring & T1 & T2 & T3 & T4 & T5 & Hsame).
  apply wp_bind, wp_modify, wp_ret. cbn [regs hw mem set_hw set_mem set_rx_tail set_tx_tail set_netdevs netdevs_of] in *.
  split; [done|]. set (s9 := set_netdevs _ _).
  assert (Hrdh : creg h9 REG_RDH = 0) by (by rewrite Hsame by (rewrite !elem_of_cons; tauto)).
  assert (Hf0 : filled s9 = 0) by (unfold filled; change (hw s9) with h9; by rewrite Hrdh).
  assert (Hgiven : ∀ j, 0 ≤ j < RX_DESCS → given m9 j).
  { intros j Hj. destruct (Hg8 j Hj) as (d & Hd & ?). exists d. by rewrite Hring. }
  split; [|split; [|split]].
  - split; [|done|by split].
    split; try done.
    + cbn [regs s9]. unfold truthy. by rewrite (proj2 (Z.eqb_neq _ _)).
    + assert (Ew : wire (hw s9) = wire (hw s)) by (change (hw s9) with h9; rewrite W9, W8; exact Wh). by rewrite Ew.
    + change (hw s9) with h9. split; [|done|]; rewrite !(Hsame _) by (rewrite !elem_of_cons; tauto); [done|].
      by rewrite R3, R4.
    + destruct Hm9 as [H9 [Hb1 Hb2] Ht9 Hb9]. split; [|done|done]. intros i Hi.
      destruct (Hgiven i Hi) as (d & Hd & Haddr & _).
      destruct (lookup_lt_is_Some_2 (rx_buffers m9) (Z.to_nat i)) as [b Hb]; [unfold RX_DESCS in *; lia|].
      exists d, b. split; [done|]. split; [done|]. split; [done|]. by eapply list.Forall_lookup_1 in Hb2.
    + change (hw s9) with h9. by rewrite (Hsame REG_RDT) by (rewrite !elem_of_cons; tauto).
    + intros k Hk. lia.
    + intros k _. destruct (Hgiven (slot s9 k) (slot_range s9 k)) as (d & Hd & _ & Hst). unfold done.
      change (mem s9) with m9. by rewrite Hd, Hst.
  - unfold pending, queued. rewrite Hf0. change (hw s9) with h9. cbn [seqZ fmap list_fmap app]. rewrite W9, W8. exact Wh.
  - unfold sent. change (hw s9) with h9. rewrite U9, U8. exact Uh.
  - eexists. split; [reflexivity|]. done.
Qed.
End driver.

(** ** A card

    Registers, the frames on their way in and those sent; a transmission takes
    three looks, the EEPROM holds the address 52:54:00:12:34:56. *)
Record card := Card {
  c_reg : Z → Z;
  c_in : list (list Z);
  c_out : list (list Z);
  c_due : nat;
}.

Definition card_read (off : Z) (h : card) : Z * card :=
  (if off =? REG_EEPROM then
     Z.lor (Z.shiftl (default 0 ([0x5452; 0x1200; 0x5634] !! Z.to_nat (Z.shiftr (c_reg h REG_EEPROM) 8))) 16) 0x10
   else if off =? REG_STATUS then 2
   else if off =? REG_CTRL then 0
   else c_reg h off, h).
Definition card_write (off v : Z) (h : card) : card :=
  Card (λ r, if r =? off then v else c_reg h r) (c_in h) (c_out h) (if off =? REG_TDT then 3%nat else c_due h).

Definition card_receive (fs : list (list Z)) (head : Z) (m : dma) : dma :=
  let at_slot i := fs !! Z.to_nat ((Z.of_nat i - head) mod RX_DESCS) in
  Dma (imap (λ i d, match at_slot i with Some f => RxDesc (rd_addr d) (zlen f) 0 3 0 0 | None => d end) (rx_ring m))
    (tx_ring m)
    (imap (λ i b, match at_slot i with Some f => f ++ drop (length f) b | None => b end) (rx_buffers m))
    (tx_buffer m).
Definition card_run (h : card) (m : dma) : card * dma :=
  let head := c_reg h REG_RDH in
  let k := Z.to_nat ((c_reg h REG_RDT - head) mod RX_DESCS) in
  let fs := take k (c_in h) in
  let m := card_receive fs head m in
  let tdh := c_reg h REG_TDH in
  let '(m, out, due, tdh) :=
    if tdh =? c_reg h REG_TDT then (m, c_out h, c_due h, tdh)
    else match c_due h with
         | S n => (m, c_out h, n, tdh)
         | O =>
             match tx_ring m !! Z.to_nat tdh with
             | Some d => (set_tx_desc tdh (tx_status 1 d) m,
                 c_out h ++ [take (Z.to_nat (td_length d)) (tx_buffer m)], 0%nat, c_reg h REG_TDT)
             | None => (m, c_out h, 0%nat, tdh)
             end
         end in
  (Card (λ r, if r =? REG_RDH then (head + zlen fs) mod RX_DESCS else if r =? REG_TDH then tdh else c_reg h r)
     (drop k (c_in h)) out due, m).

#[export] Instance card_mmio : Mmio card dma := {| mmio_read := card_read; mmio_write := card_write; run := card_run |}.
Definition card_ok (h : card) : Prop := True.

Lemma card_receive_slot fs head m i : 0 ≤ i →
  rx_ring (card_receive fs head m) !! Z.to_nat i =
    (λ d, match fs !! Z.to_nat ((i - head) mod RX_DESCS) with
          | Some f => RxDesc (rd_addr d) (zlen f) 0 3 0 0 | None => d end) <$> rx_ring m !! Z.to_nat i ∧
  rx_buffers (card_receive fs head m) !! Z.to_nat i =
    (λ b, match fs !! Z.to_nat ((i - head) mod RX_DESCS) with
          | Some f => f ++ drop (length f) b | None => b end) <$> rx_buffers m !! Z.to_nat i.
Proof.
  intros Hi. unfold card_receive. cbn [rx_ring rx_buffers]. rewrite !list_lookup_imap, Z2Nat.id by done. done.
Qed.

(** What the card does to the receive side is what the interface says. *)
Lemma card_receive_law a fs head m : shared_ok a m → Forall (λ f, 0 < zlen f ≤ BUF_SIZE) fs →
  (∀ i, 0 ≤ i < RX_DESCS → ∃ d b, rx_ring (card_receive fs head m) !! Z.to_nat i = Some d ∧
    rx_buffers (card_receive fs head m) !! Z.to_nat i = Some b ∧ rd_addr d = rx_buffer_addr a i ∧ zlen b = BUF_SIZE) ∧
  ∀ i, 0 ≤ i < RX_DESCS →
    match fs !! Z.to_nat ((i - head) mod RX_DESCS) with
    | Some f => holds a (card_receive fs head m) i f
    | None => same_slot m (card_receive fs head m) i
    end.
Proof.
  intros [Hrx _ _] Hfs. split; intros i Hi; destruct (Hrx i Hi) as (d & b & Hd & Hb & Haddr & Hlen);
    destruct (card_receive_slot fs head m i) as [Er Eb]; [lia| |lia|];
    rewrite Hd in Er; rewrite Hb in Eb; destruct (fs !! _) as [f|] eqn:Ef.
  - eexists _, _. split; [done|]. split; [done|]. split; [done|].
    pose proof (list.Forall_lookup_1 _ _ _ _ Hfs Ef) as Hf. cbv beta in Hf.
    rewrite zlen_app. replace (drop (length f) b) with (drop (Z.to_nat (zlen f)) b) by (f_equal; unfold zlen; lia).
    rewrite zlen_drop by lia. lia.
  - by eexists _, _.
  - pose proof (list.Forall_lookup_1 _ _ _ _ Hfs Ef) as Hf. cbv beta in Hf.
    split; [unfold done; by rewrite Er|]. split; [|by eexists].
    unfold stored. rewrite Er, Eb. cbn [mbind option_bind default rd_length fmap option_fmap option_map].
    unfold zlen. rewrite Nat2Z.id. by rewrite take_app_length.
  - split; [by rewrite Er, Hd|by rewrite Eb, Hb].
Qed.

#[export] Instance card_laws a : E1000Card a card_ok c_reg c_in c_out c_due.
Proof.
  split.
  - intros h off Hok. by eexists _, h.
  - intros h off v Hok. cbv zeta. split; [done|]. by split.
  - intros h m _ Hok Hc Hm Htx. cbn [run card_mmio]. unfold card_run.
    set (k := Z.to_nat ((c_reg h REG_RDT - c_reg h REG_RDH) mod RX_DESCS)).
    assert (Hk : Z.of_nat k = (c_reg h REG_RDT - c_reg h REG_RDH) mod RX_DESCS).
    { unfold k. rewrite Z2Nat.id; [done|]. apply Z.mod_pos_bound. done. }
    set (fs := take k (c_in h)). set (m1 := card_receive fs (c_reg h REG_RDH) m).
    assert (Hfs : Forall (λ f, 0 < zlen f ≤ BUF_SIZE) fs) by by apply Forall_take.
    destruct (card_receive_law a fs (c_reg h REG_RDH) m Hm Hfs) as [Hsh Hslots]. fold m1 in Hsh, Hslots.
    assert (Hin : Forall (λ f, 0 < zlen f ≤ BUF_SIZE) (drop k (c_in h))) by by apply Forall_drop.
    assert (Hrx : ∃ fs0, c_in h = fs0 ++ drop k (c_in h) ∧
      (c_reg h REG_RDH + zlen fs) mod RX_DESCS = (c_reg h REG_RDH + zlen fs0) mod RX_DESCS ∧
      zlen fs0 ≤ (c_reg h REG_RDT - c_reg h REG_RDH) mod RX_DESCS ∧
      (drop k (c_in h) = [] ∨ zlen fs0 = (c_reg h REG_RDT - c_reg h REG_RDH) mod RX_DESCS) ∧ fs0 = fs).
    { exists fs. split; [unfold fs; by rewrite take_drop|]. split; [done|]. unfold fs, zlen. rewrite length_take, <- Hk.
      split; [lia|]. split; [|done]. destruct (decide (length (c_in h) ≤ k)%nat); [left; by apply drop_ge|right; lia]. }
    destruct Hrx as (fs0 & Hw & Hhead & Hfit & Hprompt & ->).
    assert (Htail : ∀ (r tdh : Z), r ≠ REG_RDH → r ≠ REG_TDH →
      (if r =? REG_RDH then (c_reg h REG_RDH + zlen fs) mod RX_DESCS else if r =? REG_TDH then tdh else c_reg h r) = c_reg h r).
    { intros r tdh H1 H2. by rewrite (proj2 (Z.eqb_neq _ _) H1), (proj2 (Z.eqb_neq _ _) H2). }
    destruct (Z.eqb_spec (c_reg h REG_TDH) (c_reg h REG_TDT)) as [Hidle|Hbusy].
    + cbn [fst snd]. split; [done|]. split; [by destruct Hm|]. split; [intros; by apply Htail|].
      split; [by exists fs|]. split; [done|]. intros f (Hnext & _). exfalso. clear -Hnext Hidle.
      unfold TX_DESCS in *. rewrite Hidle in Hnext. mod_lia.
    + destruct Htx as [?|(f & Hsend)]; [done|]. pose proof Hsend as (Hnext & Htake & d & Hd & Haddr & Hlen & _).
      destruct (c_due h) as [|n] eqn:Edue.
      * change (tx_ring m1) with (tx_ring m). rewrite Hd. cbn [fst snd]. split; [done|].
        split. { destruct Hm. split; [done| |done]. cbn [tx_ring set_tx_desc m1 card_receive]. by rewrite length_insert. }
        split; [intros; by apply Htail|]. split; [by exists fs|]. split; [done|].
        intros f' Hsend'. exists d, 1. split; [done|]. split; [done|]. split; [done|]. split; [|done].
        pose proof Hsend' as (_ & Htake' & d' & Hd' & _ & Hlen' & _). rewrite Hd in Hd'. apply (inj Some) in Hd' as <-.
        cbn [c_out]. do 2 f_equal. rewrite Hlen'. unfold zlen. rewrite Nat2Z.id. exact Htake'.
      * cbn [fst snd]. split; [done|]. split; [by destruct Hm|]. split; [intros; by apply Htail|].
        split; [by exists fs|]. split; [done|]. intros f' _. done.
Qed.

#[export] Instance card_prompt : PromptCard card_ok c_due.
Proof. intros h v _. cbn. lia. Qed.

(** Bringing it up, with one frame waiting; then a send and two polls. *)
Definition demo_layout : layout := Layout 0x101000 0x101200 0x102000 0x112000 true.
Definition demo_card : card := Card (λ _, 0) [[1; 2; 3]; [4; 5]] [] 0.
Definition demo_nic : e1000 card := e1000_boot demo_card.
Definition demo_pci : pci_dev := set_bar_io 0 false 0xFEB80000 pci_zero.

Example demo_traffic :
  fst <$> (let* ok := e1000_init true demo_layout demo_pci in
   let* a1 := e1000_send demo_layout [9; 9; 9] in
   let* a2 := e1000_poll 2 in
   let* a3 := e1000_poll 2048 in
   let* a4 := e1000_poll 2048 in
   let* r := gets netdevs_of in
   let* h := gets hw in
   ret (ok, a1, a2, a3, a4, netdev_mac_first r, c_out h)) demo_nic =
  Some (true, 0, (2, [1; 2]), (2, [4; 5]), (0, []), Some [0x52; 0x54; 0x00; 0x12; 0x34; 0x56], [[9; 9; 9]]).
Proof. vm_compute. reflexivity. Qed.

(** Discovery on the machine of [Pci]: its first network card is brought up;
    the one behind the bridge at function 0 has not been found. *)
Example demo_detect :
  (t ← scanned; '(l, s) ← net_detect_devices true demo_layout t demo_nic;
   Some (l, netdev_count (netdevs_of s), regs s)) = Some ([DiscoveryDone 1 1], 1, 0xFEB80000).
Proof. vm_compute. reflexivity. Qed.

(** ** The card as the network stack sees it *)

(** C16: a successful [e1000_init] on a card that works as its manual says
    leaves the driver ready with every frame of the cable still to come, and a
    driver that is ready keeps the promises the network stack relies on: each
    poll takes the next frame, in order, without losing or repeating one, cut
    to the buffer; sending does not disturb reception. The 32 descriptors are
    a queue across the wrap-around of head and tail. Assumed are a cable without
    frames longer than a buffer, a card that reports a transmission within 200000
    looks, and a build that looks each time ([e1000_send_outcome] says what
    happens otherwise). *)
Theorem e1000_driver_nic {D} `{Mmio D dma} (x86_64 : bool) a ok creg wire out due `{!E1000Card a ok creg wire out due}
    `{!PromptCard ok due} : status_reloaded a = true →
  @NicLaws (e1000 D) (e1000_nic a) (nic_ok a ok creg wire) (pending creg wire) (sent out) ∧
  ∀ (s : e1000 D) dev bar, ok (hw s) → Forall (λ f, 0 < zlen f ≤ BUF_SIZE) (wire (hw s)) → mem_shape (mem s) →
    0 ≤ at_rx_ring a < (if x86_64 then 2 ^ 64 else 2 ^ 32) → 0 ≤ at_tx_ring a < (if x86_64 then 2 ^ 64 else 2 ^ 32) →
    bar_base dev !! 0%nat = Some bar → bar ≠ 0 →
    wp (e1000_init x86_64 a dev) (λ (r : bool) s', regs s' = bar ∧
      if r then nic_ok a ok creg wire s' ∧ pending creg wire s' = wire (hw s) ∧ sent out s' = out (hw s) ∧
        ∃ nd, netdevs_of s' = netdev_register (Some nd) (netdevs_of s) ∧ nd_link_up nd = link_up s'
      else netdevs_of s' = netdevs_of s) s.
Proof.
  intros Hrel. split; [split|].
  - intros s f Hok Hf. destruct (send_run a ok creg wire out due s f Hok) as (rc & s' & E & Hr).
    exists rc, s'. split; [exact E|]. rewrite Hrel in Hr.
    destruct (link_up s && (0 <? zlen f) && (zlen f <=? BUF_SIZE)).
    + rewrite (proj2 (Z.ltb_lt _ _)) in Hr by apply (prompt_due _ _ (rx_card _ _ _ _ _ (no_rx _ _ _ _ _ Hok))).
      destruct Hr as (Hp & _ & -> & Hok' & Hs). split; [done|]. split; [done|]. by left.
    + destruct Hr as [-> ->]. split; [done|]. split; [done|]. by right.
  - intros s max Hok Hmax. exact (poll_run a ok creg wire out due s max Hok Hmax).
  - intros s dev bar Hok Hcab Hm H1 H2 Hb Hnz. exact (init_run x86_64 a ok creg wire out due s dev bar Hok Hcab Hm H1 H2 Hb Hnz).
Qed.


Lemma demo_shape : mem_shape dma0.
Proof. split; [done|split; [done|]|done|done]. apply list.Forall_replicate. done. Qed.
Lemma demo_cable : Forall (λ f, 0 < zlen f ≤ BUF_SIZE) (c_in demo_card).
Proof. constructor; [by split|]. constructor; [by split|constructor]. Qed.

Lemma e1000_driver_nic_witness :
  @NicLaws (e1000 card) (e1000_nic demo_layout) (nic_ok demo_layout card_ok c_reg c_in) (pending c_reg c_in) (sent c_out) ∧
  wp (e1000_init true demo_layout demo_pci) (λ (r : bool) s', regs s' = 0xFEB80000 ∧
    if r then nic_ok demo_layout card_ok c_reg c_in s' ∧ pending c_reg c_in s' = [[1; 2; 3]; [4; 5]] ∧ sent c_out s' = [] ∧
      ∃ nd, netdevs_of s' = netdev_register (Some nd) netdevs0 ∧ nd_link_up nd = link_up s'
    else netdevs_of s' = netdevs0) demo_nic.
Proof.
  destruct (e1000_driver_nic true demo_layout card_ok c_reg c_in c_out c_due) as [Hlaws Hinit]; [done|].
  split; [exact Hlaws|].
  apply (Hinit demo_nic demo_pci 0xFEB80000); [exact I|exact demo_cable|exact demo_shape|done|done|done|done].
Defined.

(** The driver after [e1000_init]. *)
Definition demo_up : e1000 card := default demo_nic (snd <$> e1000_init true demo_layout demo_pci demo_nic).
Lemma demo_up_ok : nic_ok demo_layout card_ok c_reg c_in demo_up.
Proof.
  destruct (init_run true demo_layout card_ok c_reg c_in c_out c_due demo_nic demo_pci 0xFEB80000)
    as ([|] & s' & E & _ & Hs'); [exact I|exact demo_cable|exact demo_shape|done|done|done|done| |].
  - unfold demo_up. rewrite E. apply Hs'.
  - exfalso. assert (Hr : fst <$> e1000_init true demo_layout demo_pci demo_nic = Some true) by (vm_compute; reflexivity).
    rewrite E in Hr. discriminate.
Qed.

(** The frame goes out; under a build that does not look again the same call
    returns -1, with the frame still handed over. *)
Definition blind_layout : layout := Layout 0x101000 0x101200 0x102000 0x112000 false.
Lemma demo_up_blind : nic_ok blind_layout card_ok c_reg c_in demo_up.
Proof.
  destruct demo_up_ok as [[H1 H2 H3 [? ? ?] [? ? ?] H6 H7 H8] ? ?]. split; [|done|done].
  split; [done|done|done|by split|by split|done|done|done].
Qed.
