(* ===== verification/Virtio.v ===== *)
(** * drivers/block/virtio_blk.c: the virtio block driver (arm64)

    The state is the driver's statics and the device. The ring, the bounce
    buffer, the request header and the status byte are shared with the device
    ([vmem]); the ring is its bytes, so that the driver's stores overlap where
    they do in memory, and the three pointers into it are addresses. Where the
    linker puts the shared objects is a parameter. The wait for the device
    has no bound in the code: it takes fuel here. Messages are left out. *)
From S2P Require Import Prelude KString Blkdev Ports.

Definition VIRTIO_MMIO_BASE : Z := 0x0A000000.
Definition VIRTIO_MMIO_STEP : Z := 0x200.
Definition VIRTIO_MMIO_SLOTS : Z := 32.

Definition REG_MAGIC : Z := 0x000.
Definition REG_VERSION : Z := 0x004.
Definition REG_DEVID : Z := 0x008.
Definition REG_HFEATURES : Z := 0x010.
Definition REG_HFSEL : Z := 0x014.
Definition REG_GFEATURES : Z := 0x020.
Definition REG_GFSEL : Z := 0x024.
Definition REG_QSEL : Z := 0x028.
Definition REG_QNUMMAX : Z := 0x034.
Definition REG_QNUM : Z := 0x030.
Definition REG_QALIGN : Z := 0x03C.
Definition REG_QPFN : Z := 0x040.
Definition REG_QNOTIFY : Z := 0x050.
Definition REG_STATUS : Z := 0x070.
Definition REG_QREADY : Z := 0x044.
Definition REG_QDESC_LO : Z := 0x080.
Definition REG_QDESC_HI : Z := 0x084.
Definition REG_QAVAIL_LO : Z := 0x090.
Definition REG_QAVAIL_HI : Z := 0x094.
Definition REG_QUSED_LO : Z := 0x0A0.
Definition REG_QUSED_HI : Z := 0x0A4.
Definition REG_CONFIG : Z := 0x100.

Definition VM_MAGIC : Z := 0x74726976.
Definition VM_DEVBLK : Z := 2.
Definition VS_ACK : Z := 1.
Definition VS_DRIVER : Z := 2.
Definition VS_DRIVER_OK : Z := 4.
Definition VS_FEAT_OK : Z := 8.
Definition VRING_DESC_F_NEXT : Z := 1.
Definition VRING_DESC_F_WRITE : Z := 2.
Definition REQ_TYPE_IN : Z := 0.
Definition REQ_TYPE_OUT : Z := 1.

Definition QUEUE_ENTS : Z := 64.
Definition RING_BYTES : Z := 8192.
Definition BOUNCE_SECS : Z := 32.
Definition SECTOR_SIZE : Z := 512.

(** Offsets in [struct vring_desc], [vring_avail] and [vring_used]. *)
Definition DESC_SIZE : Z := 16.
Definition d_addr : Z := 0.
Definition d_len : Z := 8.
Definition d_flags : Z := 12.
Definition d_next : Z := 14.
Definition a_idx : Z := 2.
Definition a_ring : Z := 4.
Definition u_idx : Z := 2.

(** The shared objects, and where they are. *)
Record vmem := VMem {
  ring_mem : list Z;
  bounce : list Z;
  req_hdr : list Z;
  dev_status : Z;
}.
Record vlayout := VLayout {
  at_ring : Z;
  at_bounce : Z;
  at_hdr : Z;
  at_status : Z;
}.

Section virtio.
Context {D : Type} `{Mmio D vmem} (la : vlayout).

(** A null pointer is 0. *)
Record virtio := Virtio {
  mmio : Z;
  modern : bool;
  mem : vmem;
  desc_tab : Z;
  avail : Z;
  used : Z;
  free_head : Z;
  free_count : Z;
  last_used : Z;
  hw : D;
}.
Definition virtio_boot (h : D) : virtio :=
  Virtio 0 false (VMem (zeros RING_BYTES) (zeros (BOUNCE_SECS * SECTOR_SIZE)) (zeros 16) 0) 0 0 0 0 0 0 h.

Definition set_mmio (v : Z) (b : bool) (s : virtio) : virtio :=
  Virtio v b (mem s) (desc_tab s) (avail s) (used s) (free_head s) (free_count s) (last_used s) (hw s).
Definition set_mem (m : vmem) (s : virtio) : virtio :=
  Virtio (mmio s) (modern s) m (desc_tab s) (avail s) (used s) (free_head s) (free_count s) (last_used s) (hw s).
Definition set_tables (d a u : Z) (s : virtio) : virtio :=
  Virtio (mmio s) (modern s) (mem s) d a u (free_head s) (free_count s) (last_used s) (hw s).
Definition set_free (h c l : Z) (s : virtio) : virtio :=
  Virtio (mmio s) (modern s) (mem s) (desc_tab s) (avail s) (used s) h c l (hw s).
Definition set_hw (h : D) (s : virtio) : virtio :=
  Virtio (mmio s) (modern s) (mem s) (desc_tab s) (avail s) (used s) (free_head s) (free_count s) (last_used s) h.

Definition rd (off : Z) : M virtio Z := λ s,
  let '(v, h) := mmio_read (mmio s + off) (hw s) in Some (v, set_hw h s).
Definition wr (off val : Z) : M virtio unit := modify (λ s, set_hw (mmio_write (mmio s + off) val (hw s)) s).
(** [base[off / 4]] of a slot. *)
Definition probe_rd (base off : Z) : M virtio Z := λ s,
  let '(v, h) := mmio_read (base + off) (hw s) in Some (v, set_hw h s).

(** The device works while the processor waits at a barrier or polls. *)
Definition dma_barrier : M virtio unit := λ s,
  let '(h, m) := run (hw s) (mem s) in Some (tt, set_mem m (set_hw h s)).

(** Accesses to the ring through an address. *)
Definition ring_ld (n addr : Z) : M virtio Z :=
  let* m := gets mem in lift (ld n (ring_mem m) (addr - at_ring la)).
Definition ring_st (n addr v : Z) : M virtio unit :=
  let* m := gets mem in
  let* b := lift (st n (ring_mem m) (addr - at_ring la) v) in
  modify (set_mem (VMem b (bounce m) (req_hdr m) (dev_status m))).
(** [desc_tab[i].field = v], [n] bytes. *)
Definition desc_st (n i field v : Z) : M virtio unit :=
  let* d := gets desc_tab in ring_st n (d + DESC_SIZE * i + field) v.

Definition legacy_vring_size (num align : Z) : Z :=
  let a := u64 (num * 16 + 2 * (3 + num)) in
  let a := Z.land (u64 (a + align - 1)) (Z.lxor (u64 (align - 1)) 0xFFFFFFFFFFFFFFFF) in
  u64 (a + 6 + u32 (8 * num)).

Definition negotiate_features : M virtio Z :=
  wr REG_HFSEL 0 ;;
  let* _ := rd REG_HFEATURES in
  let* m := gets modern in
  if negb m then
    wr REG_GFSEL 0 ;;
    wr REG_GFEATURES 0 ;;
    ret 0
  else
    wr REG_HFSEL 1 ;;
    let* hi := rd REG_HFEATURES in
    if negb (has hi 1) then ret (-1)
    else
      wr REG_GFSEL 1 ;;
      wr REG_GFEATURES 1 ;;
      wr REG_GFSEL 0 ;;
      wr REG_GFEATURES 0 ;;
      ret 0.

(** The loop that links the free descriptors. *)
Fixpoint link_descs (n : nat) (i : Z) : M virtio unit :=
  match n with
  | O => ret tt
  | S n =>
      desc_st 2 i d_next (u16 (i + 1)) ;;
      desc_st 2 i d_flags VRING_DESC_F_NEXT ;;
      link_descs n (i + 1)
  end.

(** The mask is 32 bits wide. *)
Definition page_align (addr : Z) : Z := Z.land (u64 (addr + 4095)) 0xFFFFF000.

Definition hand_over : M virtio unit :=
  let* s := get in
  if modern s then
    dma_barrier ;;
    wr REG_QDESC_LO (u32 (desc_tab s)) ;;
    wr REG_QDESC_HI (u32 (Z.shiftr (desc_tab s) 32)) ;;
    wr REG_QAVAIL_LO (u32 (avail s)) ;;
    wr REG_QAVAIL_HI (u32 (Z.shiftr (avail s) 32)) ;;
    wr REG_QUSED_LO (u32 (used s)) ;;
    wr REG_QUSED_HI (u32 (Z.shiftr (used s) 32)) ;;
    wr REG_QREADY 1
  else
    wr REG_QALIGN 4096 ;;
    dma_barrier ;;
    wr REG_QPFN (u32 (Z.shiftr (at_ring la) 12)).

Definition setup_queue : M virtio Z :=
  let* m := gets modern in
  (if m : bool then wr REG_QSEL 0 else ret tt) ;;
  let* qmax := rd REG_QNUMMAX in
  if negb (has qmax 0xFFFF) || (qmax =? 0xFFFFFFFF) then ret (-1)
  else
    let qn := if qmax <? QUEUE_ENTS then qmax else QUEUE_ENTS in
    wr REG_QNUM qn ;;
    let a := at_ring la + qn * 16 in
    modify (set_tables (at_ring la) a (page_align (a + 2 * (3 + qn)))) ;;
    modify (λ s, set_mem (VMem (zeros RING_BYTES) (bounce (mem s)) (req_hdr (mem s)) (dev_status (mem s))) s) ;;
    hand_over ;;
    modify (set_free 0 (u16 qn) 0) ;;
    link_descs (Z.to_nat qn) 0 ;;
    desc_st 2 (qn - 1) d_flags 0 ;;
    dma_barrier ;;
    ret 0.

(** ** Requests *)

(** [while ((u16)(used->idx - last_used) == 0) cpu_relax();]. *)
Fixpoint wait_used (fuel : nat) : M virtio unit :=
  match fuel with
  | O => fault
  | S fuel =>
      dma_barrier ;;
      let* u := gets used in
      let* idx := ring_ld 2 (u + u_idx) in
      let* l := gets last_used in
      if u16 (idx - l) =? 0 then wait_used fuel else ret tt
  end.

(** [submit] up to the notification: the header, the three descriptors, the
    entry in the available ring. *)
Definition set_header (is_write : bool) (sector : Z) : M virtio unit :=
  modify (λ s, set_mem (VMem (ring_mem (mem s)) (bounce (mem s))
    (le_to 4 (if is_write then REQ_TYPE_OUT else REQ_TYPE_IN) ++ le_to 4 0 ++ le_to 8 sector) 0xEE) s).

(** [desc_tab[i]] without its [next]. *)
Definition put_desc (i addr len flags : Z) : M virtio unit :=
  desc_st 8 i d_addr addr ;;
  desc_st 4 i d_len len ;;
  desc_st 2 i d_flags flags.

Definition set_chain (is_write : bool) (nsect data_out h d_data d_stat : Z) : M virtio unit :=
  put_desc h (at_hdr la) 16 VRING_DESC_F_NEXT ;;
  put_desc d_data data_out (u32 (nsect * SECTOR_SIZE))
    (Z.lor VRING_DESC_F_NEXT (if is_write then 0 else VRING_DESC_F_WRITE)) ;;
  put_desc d_stat (at_status la) 1 VRING_DESC_F_WRITE.

Definition publish (h : Z) : M virtio unit :=
  let* a := gets avail in
  let* idx := ring_ld 2 (a + a_idx) in
  ring_st 2 (a + a_ring + 2 * (idx mod QUEUE_ENTS)) h ;;
  ring_st 2 (a + a_idx) (u16 (idx + 1)).

Definition d_stat_of (h : Z) : Z := u16 ((h + 2) mod QUEUE_ENTS).

Definition prepare (is_write : bool) (sector nsect data_out : Z) : M virtio unit :=
  set_header is_write sector ;;
  let* h := gets free_head in
  set_chain is_write nsect data_out h (u16 ((h + 1) mod QUEUE_ENTS)) (d_stat_of h) ;;
  dma_barrier ;;
  publish h ;;
  dma_barrier.

(** The rest of it. *)
Definition complete (fuel : nat) (d_stat : Z) : M virtio Z :=
  wait_used fuel ;;
  dma_barrier ;;
  modify (λ s, set_free (free_head s) (free_count s) (u16 (last_used s + 1)) s) ;;
  modify (λ s, set_free (u16 ((d_stat + 1) mod QUEUE_ENTS)) (free_count s) (last_used s) s) ;;
  dma_barrier ;;
  let* m := gets mem in
  ret (if dev_status m =? 0 then 0 else -1).

Definition submit (fuel : nat) (is_write : bool) (sector nsect data_out : Z) : M virtio Z :=
  let* h := gets free_head in
  prepare is_write sector nsect data_out ;;
  wr REG_QNOTIFY 0 ;;
  complete fuel (d_stat_of h).

(** [while (count)], [n] chunks at most; [off] is how far the buffer pointer
    has gone. *)
Fixpoint read_chunks (fuel n : nat) (lba count off : Z) (out : list Z) : M virtio (Z * list Z) :=
  match n with
  | O => fault
  | S n =>
      if count =? 0 then ret (0, out)
      else
        let chunk := if count <? BOUNCE_SECS then count else BOUNCE_SECS in
        try submit fuel false lba chunk (at_bounce la) else (-1, out) in
        let* m := gets mem in
        let* l := lift (slice (bounce m) 0 (chunk * SECTOR_SIZE)) in
        let* out := lift (splice out off l) in
        read_chunks fuel n (u64 (lba + chunk)) (count - chunk) (off + chunk * SECTOR_SIZE) out
  end.
Definition vblk_read (fuel : nat) (lba count : Z) (buf : list Z) : M virtio (Z * list Z) :=
  read_chunks fuel (S (Z.to_nat count)) lba count 0 buf.

Fixpoint write_chunks (fuel n : nat) (lba count off : Z) (in_ : list Z) : M virtio Z :=
  match n with
  | O => fault
  | S n =>
      if count =? 0 then ret 0
      else
        let chunk := if count <? BOUNCE_SECS then count else BOUNCE_SECS in
        let* l := lift (slice in_ off (chunk * SECTOR_SIZE)) in
        let* m := gets mem in
        let* b := lift (splice (bounce m) 0 l) in
        modify (set_mem (VMem (ring_mem m) b (req_hdr m) (dev_status m))) ;;
        try submit fuel true lba chunk (at_bounce la) else -1 in
        write_chunks fuel n (u64 (lba + chunk)) (count - chunk) (off + chunk * SECTOR_SIZE) in_
  end.
Definition vblk_write (fuel : nat) (lba count : Z) (buf : list Z) : M virtio Z :=
  write_chunks fuel (S (Z.to_nat count)) lba count 0 buf.

(** ** Probing *)

Definition vblk_device (fuel : nat) (count sectors ro : Z) : option (blk_device virtio) :=
  nm ← k_strcpy (zeros BLKDEV_NAME_LEN) (chars "virtio" ++ [u8 (48 + count); 0]);
  Some (BlkDevice nm sectors SECTOR_SIZE true (ro =? 0)
    (Some (λ lba c b s, '(rc, b', s') ← vblk_read fuel lba c b s; Some (rc, b', s')))
    (Some (λ lba c b s, vblk_write fuel lba c b s))).

(** The body of the loop after the identification of a slot. *)
Definition bring_up (fuel : nat) (r : registry virtio) : M virtio (registry virtio) :=
  wr REG_STATUS 0 ;;
  wr REG_STATUS (Z.lor VS_ACK VS_DRIVER) ;;
  let* rc := negotiate_features in
  let fail := modify (λ s, set_mmio 0 (modern s) s) ;; ret r in
  if truthy rc then fail
  else
    wr REG_STATUS (Z.lor (Z.lor VS_ACK VS_DRIVER) VS_FEAT_OK) ;;
    let* rc := setup_queue in
    if truthy rc then fail
    else
      let* lo := rd REG_CONFIG in
      let* hi := rd (REG_CONFIG + 4) in
      let sectors := Z.lor (Z.shiftl hi 32) lo in
      if sectors =? 0 then fail
      else
        let* f := rd REG_HFEATURES in
        let ro := Z.land f (Z.shiftl 1 5) in
        wr REG_STATUS (Z.lor (Z.lor (Z.lor VS_ACK VS_DRIVER) VS_FEAT_OK) VS_DRIVER_OK) ;;
        let* bd := lift (vblk_device fuel (blk_count r) sectors ro) in
        let* (done, r) := lift (blk_register (Some bd) r) in
        if done : bool then ret r else fail.

Fixpoint probe_slots (fuel n : nat) (slot : Z) (r : registry virtio) : M virtio (registry virtio) :=
  match n with
  | O => ret r
  | S n =>
      let base := VIRTIO_MMIO_BASE + slot * VIRTIO_MMIO_STEP in
      let* magic := probe_rd base REG_MAGIC in
      if negb (magic =? VM_MAGIC) then probe_slots fuel n (slot + 1) r
      else
        let* ver := probe_rd base REG_VERSION in
        let* devid := probe_rd base REG_DEVID in
        if negb (devid =? VM_DEVBLK) || (negb (ver =? 1) && negb (ver =? 2)) then probe_slots fuel n (slot + 1) r
        else
          modify (set_mmio base (2 <=? ver)) ;;
          bring_up fuel r
  end.
Definition virtio_blk_probe (fuel : nat) (r : registry virtio) : M virtio (registry virtio) :=
  probe_slots fuel (Z.to_nat VIRTIO_MMIO_SLOTS) 0 r.
End virtio.
Arguments virtio : clear implicits.

(** ** What the device is handed *)

(** A descriptor: address, length, flags, next. *)
Definition desc_at (ring : list Z) (i : Z) : option (Z * Z * Z * Z) :=
  a ← ld 8 ring (DESC_SIZE * i + d_addr);
  l ← ld 4 ring (DESC_SIZE * i + d_len);
  f ← ld 2 ring (DESC_SIZE * i + d_flags);
  n ← ld 2 ring (DESC_SIZE * i + d_next);
  Some (a, l, f, n).

(** The buffers of the chain that starts at descriptor [i] of a queue of [qn]
    (address, length, for the device to write), as a device reads it; [None]
    when it leaves the table or does not end within [fuel]. *)
Fixpoint chain (fuel : nat) (qn : Z) (ring : list Z) (i : Z) : option (list (Z * Z * bool)) :=
  match fuel with
  | O => None
  | S fuel =>
      if qn <=? i then None
      else
        '(a, l, f, n) ← desc_at ring i;
        if has f VRING_DESC_F_NEXT then
          r ← chain fuel qn ring n;
          Some ((a, l, has f VRING_DESC_F_WRITE) :: r)
        else Some [(a, l, has f VRING_DESC_F_WRITE)]
  end.

(** Every descriptor is linked to the next one. *)
Definition linked (ring : list Z) : Prop :=
  ∀ i, 0 ≤ i < QUEUE_ENTS → ∃ a l f, desc_at ring i = Some (a, l, f, i + 1).

Definition page : nat := Z.to_nat 4096.
(** A device writes to the used ring (the second page), to the buffers it was
    given and to the status byte only. *)
Class VirtioDevice {D} `{Mmio D vmem} := {
  vd_run : ∀ h m, let m' := snd (run h m) in
    take page (ring_mem m') = take page (ring_mem m) ∧ zlen (ring_mem m') = zlen (ring_mem m) ∧
    req_hdr m' = req_hdr m;
}.

Section proofs.
Context {D : Type} `{Mmio D vmem} (la : vlayout) `{!VirtioDevice}.

Definition set_ring (b : list Z) (s : virtio D) : virtio D :=
  set_mem (VMem b (bounce (mem s)) (req_hdr (mem s)) (dev_status (mem s))) s.
Definition ring (s : virtio D) : list Z := ring_mem (mem s).

(** The tables of a queue of 64 are in the ring memory. *)
Record tables_ok (s : virtio D) : Prop := {
  to_desc : desc_tab s = at_ring la;
  to_avail : avail s = at_ring la + 1024;
  to_len : zlen (ring s) = RING_BYTES;
}.

Lemma tables_set_ring s b : tables_ok s → zlen b = RING_BYTES → tables_ok (set_ring b s).
Proof. intros [] Hb. by split. Qed.

Lemma ring_st_wp (s : virtio D) n addr v : tables_ok s → 0 ≤ n → at_ring la ≤ addr → addr + n ≤ at_ring la + RING_BYTES →
  wp (ring_st la n addr v) (λ _ s', ∃ b, st n (ring s) (addr - at_ring la) v = Some b ∧ s' = set_ring b s) s.
Proof.
  intros [_ _ Hl] Hn Ha Hb. unfold ring_st. wp_pure.
  destruct (st_is_Some n (ring s) (addr - at_ring la) v) as [b E]; [lia..|].
  apply wp_bind, (wp_lift _ _ _ _ E), wp_modify. by exists b.
Qed.

Lemma desc_st_wp (s : virtio D) n i f v : tables_ok s → 0 ≤ i < QUEUE_ENTS → 0 ≤ f → 0 ≤ n → f + n ≤ DESC_SIZE →
  wp (desc_st la n i f v) (λ _ s', ∃ b, st n (ring s) (DESC_SIZE * i + f) v = Some b ∧ s' = set_ring b s) s.
Proof.
  intros Hs Hi Hf Hn Hfn. unfold desc_st. wp_pure. rewrite (to_desc _ Hs). unfold QUEUE_ENTS, DESC_SIZE in *.
  eapply wp_mono; [apply (ring_st_wp s n); [done|done|lia|unfold RING_BYTES; lia]|].
  intros _ s' (b & E & ->). exists b. split; [|done].
  by replace (16 * i + f) with (at_ring la + 16 * i + f - at_ring la) by lia.
Qed.

(** A store outside a descriptor does not change it. *)
Lemma desc_at_other n b off v b' i : 0 ≤ n → st n b off v = Some b' →
  DESC_SIZE * i + DESC_SIZE ≤ off ∨ off + n ≤ DESC_SIZE * i → desc_at b' i = desc_at b i.
Proof.
  intros Hn E Hd. unfold desc_at, d_addr, d_len, d_flags, d_next, DESC_SIZE in *.
  by rewrite !(ld_st_ne n b off v b') by (done || lia).
Qed.

Lemma put_desc_wp (s : virtio D) i a l f : tables_ok s → linked (ring s) → 0 ≤ i < QUEUE_ENTS →
  0 ≤ a < 2 ^ 64 → 0 ≤ l < 2 ^ 32 → 0 ≤ f < 2 ^ 16 →
  wp (put_desc la i a l f) (λ _ s', ∃ b, s' = set_ring b s ∧ zlen b = RING_BYTES ∧
    desc_at b i = Some (a, l, f, i + 1) ∧ (∀ j, 0 ≤ j < QUEUE_ENTS → j ≠ i → desc_at b j = desc_at (ring s) j) ∧
    ∀ n off, 1024 ≤ off → ld n b off = ld n (ring s) off) s.
Proof.
  intros Hs Hlink Hi Ha Hl Hf. unfold put_desc. pose proof (to_len _ Hs) as Hlen.
  wp_apply (desc_st_wp s 8 i d_addr a); [done|done|done|done|done|]. intros _ s1 (b1 & E1 & ->).
  pose proof (st_zlen _ _ _ _ _ E1) as L1.
  wp_apply (desc_st_wp (set_ring b1 s) 4 i d_len l); [apply tables_set_ring; [done|congruence]|done|done|done|done|].
  intros _ s2 (b2 & E2 & ->). change (ring (set_ring b1 s)) with b1 in E2. pose proof (st_zlen _ _ _ _ _ E2) as L2.
  eapply wp_mono; [apply (desc_st_wp _ 2 i d_flags f); [apply tables_set_ring; [apply tables_set_ring; [done|congruence]|congruence]|done|done|done|done]|].
  intros _ s3 (b3 & E3 & ->). change (ring (set_ring b2 (set_ring b1 s))) with b2 in E3. pose proof (st_zlen _ _ _ _ _ E3) as L3.
  exists b3. split; [done|]. split; [congruence|].
  destruct (Hlink i Hi) as (a0 & l0 & f0 & Hd). unfold desc_at in Hd.
  unfold d_addr, d_len, d_flags, d_next, DESC_SIZE, QUEUE_ENTS in *.
  destruct (ld 8 (ring s) (16 * i + 0)); [|done]. destruct (ld 4 (ring s) (16 * i + 8)); [|done].
  destruct (ld 2 (ring s) (16 * i + 12)); [|done]. destruct (ld 2 (ring s) (16 * i + 14)) eqn:En; [|done].
  cbn in Hd. injection Hd as _ _ _ ->.
  split; [|split].
  - assert (F1 : ld 8 b3 (16 * i + 0) = Some a).
    { rewrite (ld_st_other E3), (ld_st_other E2) by lia. apply (ld_st_same E1); lia. }
    assert (F2 : ld 4 b3 (16 * i + 8) = Some l) by (rewrite (ld_st_other E3) by lia; apply (ld_st_same E2); lia).
    assert (F3 : ld 2 b3 (16 * i + 12) = Some f) by (apply (ld_st_same E3); lia).
    assert (F4 : ld 2 b3 (16 * i + 14) = Some (i + 1)).
    { by rewrite (ld_st_other E3), (ld_st_other E2), (ld_st_other E1) by lia. }
    unfold desc_at, d_addr, d_len, d_flags, d_next, DESC_SIZE. by rewrite F1, F2, F3, F4.
  - intros j Hj Hne. rewrite (desc_at_other 2 b2 _ f b3 j) by (done || unfold DESC_SIZE; lia).
    rewrite (desc_at_other 4 b1 _ l b2 j) by (done || unfold DESC_SIZE; lia).
    by rewrite (desc_at_other 8 (ring s) _ a b1 j) by (done || unfold DESC_SIZE; lia).
  - intros n off Hoff. rewrite (ld_st_other E3) by lia. rewrite (ld_st_other E2) by lia.
    by rewrite (ld_st_other E1) by lia.
Qed.

(** The descriptors and the available ring are in the first page. *)
Lemma ld_front (b b' : list Z) n off : take page b' = take page b → zlen b' = zlen b →
  0 ≤ off → 0 ≤ n → off + n ≤ 4096 → ld n b' off = ld n b off.
Proof.
  intros Ht Hl Ho Hn Hon. unfold ld, slice. rewrite Hl. case_if; [|done]. cbn. do 2 f_equal.
  rewrite !take_drop_commute. f_equal.
  assert (Et : ∀ l : list Z, take (Z.to_nat off + Z.to_nat n) l = take (Z.to_nat off + Z.to_nat n) (take page l)).
  { intros l. rewrite take_take. f_equal. unfold page. lia. }
  by rewrite Et, Ht, <- Et.
Qed.
Lemma desc_at_front b b' i : take page b' = take page b → zlen b' = zlen b → 0 ≤ i < QUEUE_ENTS →
  desc_at b' i = desc_at b i.
Proof.
  intros Ht Hl Hi. unfold desc_at, d_addr, d_len, d_flags, d_next, DESC_SIZE, QUEUE_ENTS in *.
  by rewrite !(ld_front b b') by (done || lia).
Qed.

(** The driver's statics are unchanged, the ring still serves. *)
Definition kept (s s' : virtio D) : Prop :=
  tables_ok s' ∧ linked (ring s') ∧ free_head s' = free_head s ∧ req_hdr (mem s') = req_hdr (mem s).

Lemma barrier_run (s : virtio D) : tables_ok s →
  wp dma_barrier (λ _ s', tables_ok s' ∧ take page (ring s') = take page (ring s) ∧ zlen (ring s') = zlen (ring s) ∧
    free_head s' = free_head s ∧ req_hdr (mem s') = req_hdr (mem s)) s.
Proof.
  intros [H1 H2 H3]. destruct (vd_run (hw s) (mem s)) as (Ht & Hz & Hh). unfold dma_barrier, wp.
  destruct (run (hw s) (mem s)) as [h m]. cbn [snd] in *. eexists _, _. split; [reflexivity|].
  split; [|split; [exact Ht|split; [exact Hz|split; [done|exact Hh]]]].
  split; [done|done|]. unfold ring in *. cbn [mem set_mem set_hw]. by rewrite Hz.
Qed.

Lemma linked_front (b b' : list Z) : take page b' = take page b → zlen b' = zlen b → linked b → linked b'.
Proof.
  intros Ht Hz Hl i Hi. destruct (Hl i Hi) as (a & l & f & Hd). exists a, l, f. by rewrite (desc_at_front b).
Qed.

Lemma barrier_wp (s : virtio D) : tables_ok s → linked (ring s) →
  wp dma_barrier (λ _ s', kept s s' ∧ take page (ring s') = take page (ring s) ∧ zlen (ring s') = zlen (ring s)) s.
Proof.
  intros Hs Hl. eapply wp_mono; [by apply barrier_run|]. intros _ s' (Ht & Hf & Hz & Hh & Hq).
  split; [|done]. split; [done|]. split; [by eapply linked_front|done].
Qed.

(** The chain of the request at head [h]. *)
Definition request_chain (is_write : bool) (nsect data_out : Z) : list (Z * Z * bool) :=
  [(at_hdr la, 16, false); (data_out, nsect * SECTOR_SIZE, negb is_write); (at_status la, 1, true)].

Lemma next_slot h k : 0 ≤ h < QUEUE_ENTS → 0 ≤ k < 3 →
  u16 ((h + k) mod QUEUE_ENTS) = if h + k <? 64 then h + k else h + k - 64.
Proof. intros Hh Hk. unfold QUEUE_ENTS in *. rewrite u16_small by mod_lia. destruct (Z.ltb_spec (h + k) 64); mod_lia. Qed.

Lemma linked_set (b b' : list Z) i a l f : linked b → desc_at b' i = Some (a, l, f, i + 1) →
  (∀ j, 0 ≤ j < QUEUE_ENTS → j ≠ i → desc_at b' j = desc_at b j) → linked b'.
Proof.
  intros Hl Hi Ho j Hj. destruct (decide (j = i)) as [->|Hne]; [by eauto|].
  destruct (Hl j Hj) as (a' & l' & f' & Hd). exists a', l', f'. by rewrite Ho.
Qed.

Lemma set_chain_wp (s : virtio D) w n data h : tables_ok s → linked (ring s) → 0 ≤ h < QUEUE_ENTS →
  0 ≤ at_hdr la < 2 ^ 64 → 0 ≤ at_status la < 2 ^ 64 → 0 ≤ data < 2 ^ 64 → 0 ≤ n * SECTOR_SIZE < 2 ^ 32 →
  wp (set_chain la w n data h (u16 ((h + 1) mod QUEUE_ENTS)) (d_stat_of h)) (λ _ s', ∃ b, s' = set_ring b s ∧
    zlen b = RING_BYTES ∧ linked b ∧ (∀ k off, 1024 ≤ off → ld k b off = ld k (ring s) off) ∧
    chain 4 QUEUE_ENTS b h = if h <=? 61 then Some (request_chain w n data) else None) s.
Proof.
  intros Hs Hl Hh Ha1 Ha2 Ha3 Hn. unfold set_chain, d_stat_of. rewrite !next_slot by lia.
  set (d1 := if h + 1 <? 64 then h + 1 else h + 1 - 64). set (d2 := if h + 2 <? 64 then h + 2 else h + 2 - 64).
  assert (Hd1 : 0 ≤ d1 < QUEUE_ENTS) by (unfold d1, QUEUE_ENTS in *; case_if; bool_prop; lia).
  assert (Hd2 : 0 ≤ d2 < QUEUE_ENTS) by (unfold d2, QUEUE_ENTS in *; case_if; bool_prop; lia).
  assert (Hne : h ≠ d1 ∧ h ≠ d2 ∧ d1 ≠ d2).
  { unfold d1, d2, QUEUE_ENTS in *. repeat case_if; bool_prop; lia. }
  destruct Hne as (N1 & N2 & N3).
  set (fl := Z.lor VRING_DESC_F_NEXT (if w then 0 else VRING_DESC_F_WRITE)).
  assert (Hfl : 0 ≤ fl < 2 ^ 16) by (unfold fl; destruct w; vm_compute; split; congruence).
  wp_apply (put_desc_wp s h (at_hdr la) 16 VRING_DESC_F_NEXT); [done..|]. intros _ s1 (b1 & -> & Z1 & D1 & O1 & F1).
  pose proof (linked_set _ _ _ _ _ _ Hl D1 O1) as L1.
  wp_apply (put_desc_wp (set_ring b1 s) d1 data (u32 (n * SECTOR_SIZE)) fl); [by apply tables_set_ring|done|done|done|apply u32_range|done|].
  intros _ s2 (b2 & -> & Z2 & D2 & O2 & F2). pose proof (linked_set _ _ _ _ _ _ L1 D2 O2) as L2.
  eapply wp_mono; [apply (put_desc_wp _ d2 (at_status la) 1 VRING_DESC_F_WRITE); [by repeat apply tables_set_ring|done..]|].
  intros _ s3 (b3 & -> & Z3 & D3 & O3 & F3). pose proof (linked_set _ _ _ _ _ _ L2 D3 O3) as L3.
  change (ring (set_ring b1 s)) with b1 in *. change (ring (set_ring b2 (set_ring b1 s))) with b2 in *.
  exists b3. split; [done|]. split; [done|]. split; [done|].
  split; [intros k off Hoff; by rewrite F3, F2, F1|].
  assert (E1 : desc_at b3 h = Some (at_hdr la, 16, 1, h + 1)) by (rewrite O3, O2 by done; exact D1).
  assert (E2 : desc_at b3 d1 = Some (data, n * SECTOR_SIZE, fl, d1 + 1)).
  { rewrite O3 by done. rewrite D2. by rewrite u32_small by lia. }
  unfold QUEUE_ENTS, request_chain in *. cbn [chain]. rewrite (proj2 (Z.leb_gt 64 h)) by lia.
  rewrite E1. cbn [mbind option_bind]. change (has 1 VRING_DESC_F_NEXT) with true. cbv iota.
  change (has 1 VRING_DESC_F_WRITE) with false.
  destruct (Z.leb_spec h 61) as [Hle|Hgt].
  - assert (d1 = h + 1) as Ed1 by (unfold d1; case_if; bool_prop; lia).
    assert (d2 = h + 2) as Ed2 by (unfold d2; case_if; bool_prop; lia).
    rewrite (proj2 (Z.leb_gt 64 (h + 1))) by lia. rewrite <- Ed1, E2. cbn [mbind option_bind].
    assert (Hfn : has fl VRING_DESC_F_NEXT = true) by (unfold fl; by destruct w). rewrite Hfn.
    assert (Hfw : has fl VRING_DESC_F_WRITE = negb w) by (unfold fl; by destruct w). rewrite Hfw.
    replace (d1 + 1) with d2 by lia. rewrite (proj2 (Z.leb_gt 64 d2)) by lia. rewrite D3. reflexivity.
  - destruct (decide (h = 63)) as [->|Hn63]; [done|]. assert (h = 62) as -> by lia. change d1 with 63 in E2.
    change (64 <=? 62 + 1) with false. cbv iota. change (62 + 1) with 63. rewrite E2. cbn [mbind option_bind].
    assert (Hfn : has fl VRING_DESC_F_NEXT = true) by (unfold fl; by destruct w). by rewrite Hfn.
Qed.

Lemma chain_ext b b' fuel : linked b → (∀ j, 0 ≤ j < QUEUE_ENTS → desc_at b' j = desc_at b j) →
  ∀ i, 0 ≤ i → chain fuel QUEUE_ENTS b' i = chain fuel QUEUE_ENTS b i.
Proof.
  intros Hl Hd. induction fuel as [|fuel IH]; intros i Hi; cbn [chain]; [done|].
  destruct (Z.leb_spec QUEUE_ENTS i); [done|]. rewrite Hd by lia.
  destruct (Hl i) as (a & l & f & ->); [lia|]. cbn [mbind option_bind]. by rewrite IH by lia.
Qed.

(** What the available ring says: its index, and the head at a position. *)
Definition avail_idx (b : list Z) : option Z := ld 2 b (1024 + a_idx).
Definition avail_head (b : list Z) (k : Z) : option Z := ld 2 b (1024 + (a_ring + 2 * (k mod QUEUE_ENTS))).

Lemma publish_wp (s : virtio D) h : tables_ok s → 0 ≤ h < QUEUE_ENTS →
  wp (publish la h) (λ _ s', ∃ b idx, s' = set_ring b s ∧ zlen b = RING_BYTES ∧
    (∀ j, 0 ≤ j < QUEUE_ENTS → desc_at b j = desc_at (ring s) j) ∧
    avail_idx (ring s) = Some idx ∧ avail_idx b = Some (u16 (idx + 1)) ∧ avail_head b idx = Some h) s.
Proof.
  intros Hs Hh. unfold publish. wp_pure. pose proof (to_len _ Hs) as Hlen.
  destruct (ld_is_Some 2 (ring s) (1024 + a_idx)) as [idx Hidx]; [done|done|by rewrite Hlen|].
  apply wp_bind. unfold ring_ld at 1. wp_pure. rewrite (to_avail _ Hs).
  eapply wp_lift; [replace (at_ring la + 1024 + a_idx - at_ring la) with (1024 + a_idx) by lia; exact Hidx|].
  assert (Hm : 0 ≤ idx mod QUEUE_ENTS < 64) by by apply Z.mod_pos_bound.
  unfold a_ring, a_idx, RING_BYTES, QUEUE_ENTS in *.
  wp_apply (ring_st_wp s 2); [done|done|lia|unfold RING_BYTES; lia|]. intros _ s1 (b1 & E1 & ->).
  pose proof (st_zlen _ _ _ _ _ E1) as L1.
  eapply wp_mono; [apply (ring_st_wp (set_ring b1 s) 2); [apply tables_set_ring; [done|unfold RING_BYTES; congruence]|done|lia|unfold RING_BYTES; lia]|].
  intros _ s2 (b2 & E2 & ->). change (ring (set_ring b1 s)) with b1 in E2. pose proof (st_zlen _ _ _ _ _ E2) as L2.
  replace (at_ring la + 1024 + 4 + 2 * (idx mod 64) - at_ring la) with (1024 + (4 + 2 * (idx mod 64))) in E1 by lia.
  replace (at_ring la + 1024 + 2 - at_ring la) with (1024 + 2) in E2 by lia.
  exists b2, idx. split; [done|]. split; [congruence|]. split; [|split; [done|split]].
  - intros j Hj. rewrite (desc_at_other 2 b1 _ _ b2 j) by (done || (unfold DESC_SIZE, QUEUE_ENTS in *; lia)).
    by rewrite (desc_at_other 2 (ring s) _ _ b1 j) by (done || (unfold DESC_SIZE, QUEUE_ENTS in *; lia)).
  - unfold avail_idx, a_idx. apply (ld_st_same E2); [lia|]. apply u16_range.
  - unfold avail_head, a_ring, QUEUE_ENTS. rewrite (ld_st_other E2) by lia. apply (ld_st_same E1); lia.
Qed.

(** The request as the device sees it at the notification. *)
Lemma prepare_wp (s : virtio D) w sector n data : tables_ok s → linked (ring s) → 0 ≤ free_head s < QUEUE_ENTS →
  0 ≤ at_hdr la < 2 ^ 64 → 0 ≤ at_status la < 2 ^ 64 → 0 ≤ data < 2 ^ 64 → 0 ≤ n * SECTOR_SIZE < 2 ^ 32 →
  wp (prepare la w sector n data) (λ _ s', tables_ok s' ∧ linked (ring s') ∧ free_head s' = free_head s ∧
    req_hdr (mem s') = le_to 4 (if w then REQ_TYPE_OUT else REQ_TYPE_IN) ++ le_to 4 0 ++ le_to 8 sector ∧
    (∃ idx, avail_idx (ring s') = Some (u16 (idx + 1)) ∧ avail_head (ring s') idx = Some (free_head s)) ∧
    chain 4 QUEUE_ENTS (ring s') (free_head s) =
      if free_head s <=? 61 then Some (request_chain w n data) else None) s.
Proof.
  intros Hs Hl Hh Ha1 Ha2 Ha3 Hn. unfold prepare, set_header. wp_pure.
  set (s0 := set_mem _ s). assert (Hs0 : tables_ok s0) by (destruct Hs; by split).
  wp_apply (set_chain_wp s0 w n data (free_head s)); [done|done|done|done|done|done|done|].
  intros _ s1 (b1 & -> & Z1 & L1 & F1 & C1).
  wp_apply (barrier_wp (set_ring b1 s0)); [by apply tables_set_ring|done|]. intros _ s2 ((T2 & L2 & H2 & Q2) & Fr2 & Z2).
  wp_apply (publish_wp s2 (free_head s)); [done|done|]. intros _ s3 (b3 & idx & -> & Z3 & D3 & I3 & I3' & E3).
  assert (L3 : linked b3).
  { intros i Hi. destruct (L2 i Hi) as (a & l & f & Hd). exists a, l, f. by rewrite D3. }
  eapply wp_mono; [apply (barrier_wp (set_ring b3 s2)); [by apply tables_set_ring|done]|].
  intros _ s4 ((T4 & L4 & H4 & Q4) & Fr4 & Z4). change (ring (set_ring b3 s2)) with b3 in *.
  change (ring (set_ring b1 s0)) with b1 in *. change (free_head (set_ring b3 s2)) with (free_head s2) in H4.
  change (free_head (set_ring b1 s0)) with (free_head s) in H2.
  change (req_hdr (mem (set_ring b3 s2))) with (req_hdr (mem s2)) in Q4.
  split; [done|]. split; [done|]. split; [congruence|]. split; [rewrite Q4, Q2; done|]. split.
  - exists idx. assert (Hm : 0 ≤ idx mod QUEUE_ENTS < 64) by by apply Z.mod_pos_bound.
    unfold avail_idx, avail_head, a_idx, a_ring in *. rewrite !(ld_front b3 (ring s4)) by (done || lia). done.
  - rewrite (chain_ext b3) by (try lia; try done; intros j Hj; by apply desc_at_front).
    rewrite (chain_ext (ring s2)) by (done || lia).
    rewrite (chain_ext b1) by (try lia; try done; intros j Hj; by apply desc_at_front). exact C1.
Qed.

(** ** The queue over many requests *)

Lemma wait_used_wlp fuel : ∀ (s : virtio D), tables_ok s → linked (ring s) →
  wlp (wait_used la fuel) (λ _ s', tables_ok s' ∧ linked (ring s') ∧ free_head s' = free_head s) s.
Proof.
  induction fuel as [|fuel IH]; intros s Hs Hl; cbn [wait_used]; [done|].
  eapply wlp_call; [apply wp_wlp; by apply barrier_wp|]. intros _ s1 ((T1 & L1 & H1 & _) & _). wlp_pure.
  case_if; [|by apply wlp_ret]. eapply wlp_mono; [by apply IH|]. intros _ s2 (T2 & L2 & H3).
  split; [done|]. split; [done|]. congruence.
Qed.

Lemma complete_wlp fuel d (s : virtio D) : tables_ok s → linked (ring s) →
  wlp (complete la fuel d) (λ _ s', tables_ok s' ∧ linked (ring s') ∧ free_head s' = u16 ((d + 1) mod QUEUE_ENTS)) s.
Proof.
  intros Hs Hl. unfold complete. eapply wlp_call; [by apply wait_used_wlp|]. intros _ s1 (T1 & L1 & _).
  eapply wlp_call; [apply wp_wlp; by apply barrier_wp|]. intros _ s2 ((T2 & L2 & _) & _). wlp_pure.
  set (s3 := set_free _ _ _ _). assert (T3 : tables_ok s3) by by destruct T2.
  eapply wlp_call; [apply wp_wlp; by apply barrier_wp|]. intros _ s4 ((T4 & L4 & H4 & _) & _). wlp_pure.
  by apply wlp_ret.
Qed.

Lemma link_descs_wp n : ∀ i (s : virtio D), tables_ok s → 0 ≤ i → i + Z.of_nat n = QUEUE_ENTS →
  (∀ j, 0 ≤ j < i → ∃ a l f, desc_at (ring s) j = Some (a, l, f, j + 1)) →
  wp (link_descs la n i) (λ _ s', tables_ok s' ∧ linked (ring s') ∧ free_head s' = free_head s) s.
Proof.
  induction n as [|n IH]; intros i s Hs Hi Hn Hl; cbn [link_descs].
  { apply wp_ret. split; [done|]. split; [|done]. intros j Hj. apply Hl. lia. }
  assert (Hir : 0 ≤ i < QUEUE_ENTS) by lia. pose proof (to_len _ Hs) as Hlen.
  wp_apply (desc_st_wp s 2 i d_next); [done|done|done|done|done|]. intros _ s1 (b1 & E1 & ->).
  pose proof (st_zlen _ _ _ _ _ E1) as Z1. assert (T1 : tables_ok (set_ring b1 s)) by (apply tables_set_ring; [done|congruence]).
  wp_apply (desc_st_wp (set_ring b1 s) 2 i d_flags); [done|done|done|done|done|]. intros _ s2 (b2 & E2 & ->).
  change (ring (set_ring b1 s)) with b1 in E2. pose proof (st_zlen _ _ _ _ _ E2) as Z2.
  unfold d_next, d_flags, DESC_SIZE, QUEUE_ENTS, RING_BYTES in *.
  eapply wp_mono; [apply (IH (i + 1)); [apply tables_set_ring; [done|unfold RING_BYTES; congruence]|lia|unfold QUEUE_ENTS; lia|]|].
  2: { intros _ s3 (T3 & L3 & H3). done. }
  change (ring (set_ring b2 (set_ring b1 s))) with b2. intros j Hj. destruct (decide (j = i)) as [->|Hne].
  - unfold desc_at, d_addr, d_len, d_flags, d_next, DESC_SIZE.
    destruct (ld_is_Some 8 b2 (16 * i + 0)) as [a Ha]; [lia..|]. destruct (ld_is_Some 4 b2 (16 * i + 8)) as [l Hll]; [lia..|].
    destruct (ld_is_Some 2 b2 (16 * i + 12)) as [f Hf]; [lia..|].
    assert (Hnx : ld 2 b2 (16 * i + 14) = Some (i + 1)).
    { rewrite (ld_st_other E2) by lia. rewrite u16_small in E1 by lia. apply (ld_st_same E1); lia. }
    exists a, l, f. by rewrite Ha, Hll, Hf, Hnx.
  - destruct (Hl j ltac:(lia)) as (a & l & f & Hd). exists a, l, f.
    rewrite (desc_at_other 2 b1 _ _ b2 j) by (done || (unfold DESC_SIZE; lia)).
    by rewrite (desc_at_other 2 (ring s) _ _ b1 j) by (done || (unfold DESC_SIZE; lia)).
Qed.

Lemma hand_over_wp (s : virtio D) : tables_ok s →
  wp (hand_over la) (λ _ s', tables_ok s') s.
Proof.
  intros Hs. unfold hand_over. wp_pure. case_if.
  - wp_apply (barrier_run s); [done|]. intros _ s1 (T1 & _). unfold wr. wp_pure. apply wp_modify. by destruct T1.
  - unfold wr at 1. wp_pure. set (s1 := set_hw _ s). assert (T1 : tables_ok s1) by by destruct Hs.
    wp_apply (barrier_run s1); [done|]. intros _ s2 (T2 & _). unfold wr. apply wp_modify. by destruct T2.
Qed.

Lemma reg_read_wp (s : virtio D) off :
  wp (rd off) (λ v s', ∃ h, v = fst (mmio_read (mmio s + off) (hw s)) ∧ s' = set_hw h s) s.
Proof.
  unfold rd, wp. destruct (mmio_read _ _) as [v h]. eexists _, _. split; [reflexivity|]. by exists h.
Qed.

Lemma setup_queue_wp (s : virtio D) : (∀ h, 64 ≤ fst (mmio_read (mmio s + REG_QNUMMAX) h)) →
  wp (setup_queue la) (λ rc s', rc = 0 → tables_ok s' ∧ linked (ring s') ∧ free_head s' = 0) s.
Proof.
  intros Hq. unfold setup_queue. wp_pure.
  assert (Hsel : ∃ s1, (if modern s then wr REG_QSEL 0 else ret tt) s = Some (tt, s1) ∧ mmio s1 = mmio s).
  { destruct (modern s); by eexists. }
  destruct Hsel as (s1 & E1 & M1). apply wp_bind. exists tt, s1. split; [exact E1|].
  wp_apply (reg_read_wp s1). intros qmax s2 (h & Eq & ->). rewrite M1 in Eq. specialize (Hq (hw s1)). rewrite <- Eq in Hq.
  case_if; [by apply wp_ret|].
  assert (Eqn : (if qmax <? QUEUE_ENTS then qmax else QUEUE_ENTS) = QUEUE_ENTS).
  { unfold QUEUE_ENTS. by rewrite (proj2 (Z.ltb_ge _ _)) by lia. }
  rewrite Eqn. unfold wr at 1. wp_pure. set (s3 := set_mem _ _).
  assert (T3 : tables_ok s3) by by split.
  wp_apply (hand_over_wp s3); [done|]. intros _ s4 T4. wp_pure.
  set (s5 := set_free _ _ _ s4). assert (T5 : tables_ok s5) by by destruct T4.
  wp_apply (link_descs_wp (Z.to_nat QUEUE_ENTS) 0 s5); [done|done|done|intros; lia|]. intros _ s6 (T6 & L6 & H6).
  wp_apply (desc_st_wp s6 2 (QUEUE_ENTS - 1) d_flags); [done|done|done|done|done|]. intros _ s7 (b7 & E7 & ->).
  pose proof (st_zlen _ _ _ _ _ E7) as Z7. pose proof (to_len _ T6) as Hlen6.
  assert (L7 : linked b7).
  { intros i Hi. destruct (decide (i = 63)) as [->|Hne].
    - destruct (L6 63) as (a & l & f & Hd); [done|]. unfold desc_at in *. unfold d_addr, d_len, d_flags, d_next, DESC_SIZE, QUEUE_ENTS in *.
      destruct (ld 8 (ring s6) (16 * 63 + 0)) eqn:X1; [|done]. destruct (ld 4 (ring s6) (16 * 63 + 8)) eqn:X2; [|done].
      destruct (ld 2 (ring s6) (16 * 63 + 12)) eqn:X3; [|done]. destruct (ld 2 (ring s6) (16 * 63 + 14)) eqn:X4; [|done].
      cbn [mbind option_bind] in Hd. injection Hd as <- <- <- Hx.
      change (64 - 1) with 63 in E7. exists z, z0, 0. rewrite (ld_st_other E7 8), (ld_st_other E7 4), (ld_st_other E7 2 (16 * 63 + 14)) by lia.
      rewrite X1, X2, X4, (ld_st_same E7) by lia. by rewrite Hx.
    - destruct (L6 i Hi) as (a & l & f & Hd). exists a, l, f. rewrite <- Hd.
      apply (desc_at_other 2 _ _ _ _ i ltac:(lia) E7). unfold DESC_SIZE, d_flags, QUEUE_ENTS in *. lia. }
  wp_apply (barrier_wp (set_ring b7 s6)); [apply tables_set_ring; [done|congruence]|done|].
  intros _ s8 ((T8 & L8 & H8 & _) & _). apply wp_ret. intros _. split; [done|]. split; [done|].
  rewrite H8. change (free_head (set_ring b7 s6)) with (free_head s6). by rewrite H6.
Qed.

(** The driver after [k] requests on a queue of 64, whatever the device has
    answered; the bounce buffer may hold anything. *)
Inductive serving : nat → virtio D → Prop :=
  | serving_setup s s' :
      (∀ h, 64 ≤ fst (mmio_read (mmio s + REG_QNUMMAX) h)) → setup_queue la s = Some (0, s') → serving 0 s'
  | serving_bounce k s b :
      serving k s → serving k (set_mem (VMem (ring_mem (mem s)) b (req_hdr (mem s)) (dev_status (mem s))) s)
  | serving_request k s fuel w sector n data rc s' :
      serving k s → 0 ≤ data < 2 ^ 64 → 0 ≤ n * SECTOR_SIZE < 2 ^ 32 →
      submit la fuel w sector n data s = Some (rc, s') → serving (S k) s'.

Context (Hhdr : 0 ≤ at_hdr la < 2 ^ 64) (Hst : 0 ≤ at_status la < 2 ^ 64).

Lemma serving_inv k s : serving k s → tables_ok s ∧ linked (ring s) ∧ free_head s = 3 * Z.of_nat k mod QUEUE_ENTS.
Proof.
  induction 1 as [s s' Hq E|k s b Hs (T & L & F)|k s fuel w sector n data rc s' Hs (T & L & F) Hd Hn E].
  - by apply (wp_wlp _ _ _ (setup_queue_wp s Hq) _ _ E).
  - split; [by destruct T|]. split; [exact L|exact F].
  - assert (Hh : 0 ≤ free_head s < QUEUE_ENTS) by (rewrite F; by apply Z.mod_pos_bound).
    revert E. unfold submit. intros E.
    assert (Hw : wlp (submit la fuel w sector n data)
      (λ _ s', tables_ok s' ∧ linked (ring s') ∧ free_head s' = u16 ((d_stat_of (free_head s) + 1) mod QUEUE_ENTS)) s).
    { unfold submit. wlp_pure. eapply wlp_call; [apply wp_wlp; by apply prepare_wp|].
      intros _ s1 (T1 & L1 & H1 & _). unfold wr. wlp_pure. apply complete_wlp; [by destruct T1|exact L1]. }
    destruct (Hw _ _ E) as (T' & L' & F'). split; [done|]. split; [done|]. rewrite F', F.
    unfold d_stat_of, QUEUE_ENTS. rewrite !u16_small by mod_lia. mod_lia.
Qed.
End proofs.

(** ** A device

    A disk in slot 0 of the bus: it takes the queue registers at the offsets
    the driver uses, or (with [v_spec]) at those of the virtio specification,
    where 0x030 selects the queue and 0x038 is its size. *)
Record vdev := VDev {
  v_spec : bool;
  v_sel : Z;
  v_num : Z;
  v_ready : bool;
  v_last : Z;
  v_hfsel : Z;
  v_kick : bool;
  v_img : list Z;
}.

Definition vdev_read (addr : Z) (h : vdev) : Z * vdev :=
  let off := addr - VIRTIO_MMIO_BASE in
  (if off =? REG_MAGIC then VM_MAGIC
   else if off =? REG_VERSION then 2
   else if off =? REG_DEVID then VM_DEVBLK
   else if off =? REG_QNUMMAX then 1024
   else if off =? REG_HFEATURES then (if v_hfsel h =? 1 then 1 else 0)
   else if off =? REG_CONFIG then zlen (v_img h) / 512
   else 0, h).
Definition vdev_write (addr v : Z) (h : vdev) : vdev :=
  let off := addr - VIRTIO_MMIO_BASE in
  let '(VDev spec sel num ready last hf kick img) := h in
  if off =? REG_HFSEL then VDev spec sel num ready last v kick img
  else if off =? REG_QNUM then
    if spec then VDev spec v num ready last hf kick img else VDev spec sel v ready last hf kick img
  else if off =? 0x038 then VDev spec sel (if spec && (sel =? 0) then v else num) ready last hf kick img
  else if off =? REG_QREADY then VDev spec sel num (if sel =? 0 then truthy v else ready) last hf kick img
  else if off =? REG_QNOTIFY then VDev spec sel num ready last hf true img
  else h.

(** Serving one request. *)
Definition vdev_serve (h : vdev) (m : vmem) : option (vdev * vmem) :=
  head ← avail_head (ring_mem m) (v_last h);
  c ← chain 4 (v_num h) (ring_mem m) head;
  match c with
  | [(_, _, false); (_, len, wr); (_, _, true)] =>
      let sector := le_of (drop 8 (req_hdr m)) in
      let last := u16 (v_last h + 1) in
      ring' ← st 2 (ring_mem m) (4096 + u_idx) last;
      if wr then
        d ← slice (v_img h) (sector * 512) len;
        b ← splice (bounce m) 0 d;
        Some (VDev (v_spec h) (v_sel h) (v_num h) (v_ready h) last (v_hfsel h) true (v_img h),
              VMem ring' b (req_hdr m) 0)
      else
        d ← slice (bounce m) 0 len;
        img' ← splice (v_img h) (sector * 512) d;
        Some (VDev (v_spec h) (v_sel h) (v_num h) (v_ready h) last (v_hfsel h) true img',
              VMem ring' (bounce m) (req_hdr m) 0)
  | _ => None
  end.
Definition vdev_run (h : vdev) (m : vmem) : vdev * vmem :=
  if v_ready h && v_kick h && negb (default 0 (avail_idx (ring_mem m)) =? v_last h)
  then default (h, m) (vdev_serve h m) else (h, m).
#[export] Instance vdev_mmio : Mmio vdev vmem := {| mmio_read := vdev_read; mmio_write := vdev_write; run := vdev_run |}.

#[export] Instance vdev_device : VirtioDevice (D := vdev).
Proof.
  split. intros h m. cbn [run vdev_mmio]. unfold vdev_run. case_if; [|done].
  destruct (vdev_serve h m) as [[h' m']|] eqn:Es; [|done]. cbn [default snd].
  assert (Hst : ∀ v b, st 2 (ring_mem m) (4096 + u_idx) v = Some b →
    take page b = take page (ring_mem m) ∧ zlen b = zlen (ring_mem m)).
  { intros v b Eb. split; [|by eapply st_zlen]. apply splice_Some in Eb as (Ho & Hl & ->). unfold u_idx, zlen in *.
    rewrite take_app_le by (unfold page; rewrite length_take; lia). by rewrite take_take. }
  unfold vdev_serve, mbind, option_bind in Es. repeat (case_match; try discriminate Es).
  all: injection Es as <- <-; cbn [ring_mem req_hdr]; edestruct Hst as [Ht Hz]; [eassumption|]; exact (conj Ht (conj Hz eq_refl)).
Qed.

Definition demo_la : vlayout := VLayout 0x40100000 0x40102000 0x40106000 0x40106010.
Definition demo_vdev (spec : bool) : vdev := VDev spec 0 0 false 0 0 false (zeros 512 ++ replicate 512 7).

(** [n] reads of sector 1: the return code and the first byte of each. *)
Fixpoint demo_reads (n : nat) : M (virtio vdev) (list (Z * option Z)) :=
  match n with
  | O => ret []
  | S n =>
      let* (rc, b) := vblk_read demo_la 3 1 1 (zeros 512) in
      let* l := demo_reads n in
      ret ((rc, b !! 0%nat) :: l)
  end.
Definition demo_probe_reads (spec : bool) (n : nat) : option (Z * list (Z * option Z)) :=
  fst <$> (let* r := virtio_blk_probe demo_la 3 blkdev_init in
           let* l := demo_reads n in
           ret (blk_count r, l)) (virtio_boot (demo_vdev spec)).

(** On a device with the driver's register offsets 21 reads succeed, and the
    22nd waits for ever (here: until its fuel is gone); on a device with those
    of the specification the first one does. *)
Example demo_21_reads : demo_probe_reads false 21 = Some (1, replicate 21 (0, Some 7)).
Proof. vm_compute. reflexivity. Qed.
Example demo_22_reads : demo_probe_reads false 22 = None.
Proof. vm_compute. reflexivity. Qed.
Example demo_spec_device : demo_probe_reads true 0 = Some (1, []) ∧ demo_probe_reads true 1 = None.
Proof. split; vm_compute; reflexivity. Qed.

(** ** Requests on the wire *)

(** C18: the first 21 requests after [setup_queue] reach the device as they
    should: at the notification the available ring names the head, and the
    chain from it is the header (which holds the type and the sector), the
    data buffer, writable for a read, and the status byte. The 22nd does not:
    its chain leaves the table of 64 descriptors, since the links of the table
    are not circular while the head is advanced modulo 64. The same happens
    every time the head of request [k], [3 * k mod 64], is 62 or 63. *)
Theorem virtio_request_chain {D} `{Mmio D vmem} `{!VirtioDevice} la k (s : virtio D) w sector n data :
  0 ≤ at_hdr la < 2 ^ 64 → 0 ≤ at_status la < 2 ^ 64 → 0 ≤ data < 2 ^ 64 → 0 ≤ n * SECTOR_SIZE < 2 ^ 32 →
  serving la k s →
  let h := 3 * Z.of_nat k mod QUEUE_ENTS in
  ∃ s', prepare la w sector n data s = Some (tt, s') ∧
    req_hdr (mem s') = le_to 4 (if w then REQ_TYPE_OUT else REQ_TYPE_IN) ++ le_to 4 0 ++ le_to 8 sector ∧
    (∃ idx, avail_idx (ring_mem (mem s')) = Some (u16 (idx + 1)) ∧ avail_head (ring_mem (mem s')) idx = Some h) ∧
    chain 4 QUEUE_ENTS (ring_mem (mem s')) h =
      (if h <=? 61 then Some (request_chain la w n data) else None) ∧
    ((k < 21)%nat → (h <=? 61) = true) ∧ (k = 21%nat → (h <=? 61) = false).
Proof.
  intros Hh Hst Hd Hn Hs h. destruct (serving_inv la Hh Hst k s Hs) as (T & L & F).
  destruct (prepare_wp la s w sector n data) as ([] & s' & E & _ & _ & _ & Hq & Ha & Hc); [done|done| |done|done|done|done|].
  { rewrite F. by apply Z.mod_pos_bound. }
  rewrite F in *. exists s'. split; [done|]. split; [done|]. split; [done|]. split; [done|]. unfold h, QUEUE_ENTS.
  split; [|intros ->; reflexivity]. intros Hk. apply Z.leb_le. rewrite Z.mod_small; lia.
Qed.

Definition demo_setup : virtio vdev :=
  default (virtio_boot (demo_vdev false)) (snd <$> setup_queue demo_la (set_mmio VIRTIO_MMIO_BASE true (virtio_boot (demo_vdev false)))).

Lemma virtio_request_chain_witness :
  let h := 3 * Z.of_nat 0 mod QUEUE_ENTS in
  ∃ s', prepare demo_la true 5 1 (at_bounce demo_la) demo_setup = Some (tt, s') ∧
    req_hdr (mem s') = le_to 4 REQ_TYPE_OUT ++ le_to 4 0 ++ le_to 8 5 ∧
    (∃ idx, avail_idx (ring_mem (mem s')) = Some (u16 (idx + 1)) ∧ avail_head (ring_mem (mem s')) idx = Some h) ∧
    chain 4 QUEUE_ENTS (ring_mem (mem s')) h = (if h <=? 61 then Some (request_chain demo_la true 1 (at_bounce demo_la)) else None) ∧
    ((0 < 21)%nat → (h <=? 61) = true) ∧ (0%nat = 21%nat → (h <=? 61) = false).
Proof.
  apply (virtio_request_chain demo_la 0 demo_setup true 5 1 (at_bounce demo_la)); [by split|by split|by split|by split|].
  apply (serving_setup demo_la (set_mmio VIRTIO_MMIO_BASE true (virtio_boot (demo_vdev false)))).
  - intros h. vm_compute. discriminate.
  - vm_compute. reflexivity.
Defined.
