(* ===== verification/Input.v ===== *)
(** * drivers/input: PS/2, keyboard, mouse, serial mouse, touchpad, joystick

    One state for the statics of these drivers and the hardware behind the
    ports. Waits without a bound in the code take fuel. The installed
    interrupt lines are a list; messages are left out. Output pointers are
    given as the values behind them, with [None] for NULL. *)
From stdpp Require Import relations.
From S2P Require Import Prelude Ports.
Open Scope c_scope.

(** ** State *)

Record keyboard := Keyboard {
  put_idx : Z;
  get_idx : Z;
  keybuf : list Z;
  shift_down : bool;
}.
Record mouse := Mouse {
  pkt_count : Z;
  acc_x : Z;
  acc_y : Z;
  buttons : Z;
  mstate : Z;
  mbytes : list Z;
  seen_first : bool;
}.

(** The buffer of the keyboard has 64 characters. *)
Definition KEYBUF : Z := 64.
Definition keyboard0 : keyboard := Keyboard 0 0 (zeros KEYBUF) false.
Definition mouse0 : mouse := Mouse 0 0 0 0 0 (zeros 3) false.

Definition DATA_PORT : Z := 0x60.
Definition STATUS_PORT : Z := 0x64.
Definition CMD_PORT : Z := 0x64.
Definition STAT_OUT_FULL : Z := 0x01.
Definition STAT_IN_FULL : Z := 0x02.
Definition CMD_READ_CFG : Z := 0x20.
Definition CMD_WRITE_CFG : Z := 0x60.
Definition CMD_SELF_TEST : Z := 0xAA.
Definition CMD_PORT1_TEST : Z := 0xAB.
Definition CMD_PORT2_TEST : Z := 0xA9.
Definition CMD_ENABLE_P1 : Z := 0xAE.
Definition CMD_ENABLE_P2 : Z := 0xA8.
Definition CMD_DISABLE_P1 : Z := 0xAD.
Definition CMD_DISABLE_P2 : Z := 0xA7.
Definition CMD_WRITE_P2 : Z := 0xD4.

(** ** Pure parts of the drivers *)

(** A key map is given by its rows: the first scancode and the characters. *)
Fixpoint key_at (rows : list (Z * list Z)) (sc : Z) : Z :=
  match rows with
  | [] => 0
  | (first, row) :: rows =>
      if (first <=? sc) && (sc <? first + zlen row) then default 0 (row !! Z.to_nat (sc - first)) else key_at rows sc
  end.
Definition keymap_normal : Z → Z := key_at [
  (0x02, chars "1234567890-=" ++ [8; 9]); (0x10, chars "qwertyuiop[]"); (0x1E, chars "asdfghjkl;'`");
  (0x2B, chars "\zxcvbnm,./"); (0x39, chars " ")].
Definition keymap_shift : Z → Z := key_at [
  (0x02, chars "!@#$%^&*()_+"); (0x10, chars "QWERTYUIOP{}"); (0x1E, chars "ASDFGHJKL:" ++ [34; 126]);
  (0x2B, chars "|ZXCVBNM<>?")].

Definition push_char (c : Z) (k : keyboard) : option keyboard :=
  let next := u32 (put_idx k + 1) mod KEYBUF in
  if negb (next =? get_idx k) then Some k
  else
    b ← splice (keybuf k) (put_idx k) [u8 c];
    Some (Keyboard next (get_idx k) b (shift_down k)).

Definition set_shift (b : bool) (k : keyboard) : keyboard :=
  Keyboard (put_idx k) (get_idx k) (keybuf k) b.

(** A scancode that is not the prefix of another one. *)
Definition plain_scancode (sc : Z) (k : keyboard) : option keyboard :=
  if has sc 0x80 then
    let sc := Z.land sc 0x7F in
    Some (if (sc =? 0x2A) || (sc =? 0x36) then set_shift false k else k)
  else if (sc =? 0x2A) || (sc =? 0x36) then Some (set_shift true k)
  else
    let c := if shift_down k then keymap_shift sc else keymap_normal sc in
    if truthy c then push_char c k else Some k.

(** The one after the prefix. *)
Definition extended_scancode (sc : Z) (k : keyboard) : option keyboard :=
  if sc =? 0x48 then push_char (65 - 0x40) k
  else if sc =? 0x50 then push_char (66 - 0x40) k
  else if sc =? 0x4B then push_char (67 - 0x40) k
  else if sc =? 0x4D then push_char (68 - 0x40) k
  else Some k.

(** [keybuf] holds [char]s, which are signed. *)
Definition take_char (k : keyboard) : option (Z * keyboard) :=
  if get_idx k =? put_idx k then Some (-1, k)
  else
    c ← ld8 (keybuf k) (get_idx k);
    Some (s8 c, Keyboard (put_idx k) (u32 (get_idx k + 1) mod KEYBUF) (keybuf k) (shift_down k)).

(** A byte of the mouse. *)
Definition mouse_byte (b : Z) (m : mouse) : option mouse :=
  bs ← splice (mbytes m) (mstate m) [b];
  if (mstate m =? 0) && negb (has b 0x08)
  then Some (Mouse (pkt_count m) (acc_x m) (acc_y m) (buttons m) 0 bs (seen_first m))
  else
    let st := u8 ((mstate m + 1) mod 3) in
    if truthy st then Some (Mouse (pkt_count m) (acc_x m) (acc_y m) (buttons m) st bs (seen_first m))
    else
      b0 ← ld8 bs 0;
      b1 ← ld8 bs 1;
      b2 ← ld8 bs 2;
      Some (Mouse (u32 (pkt_count m + 1)) (s32 (acc_x m + s8 b1)) (s32 (acc_y m + s8 b2)) (Z.land b0 0x07) st bs true).

(** The offsets a packet of the serial mouse adds. *)
Definition serial_dx (b0 b1 : Z) : Z :=
  let sx := Z.lor (Z.shiftl (Z.land b0 0x03) 6) (Z.land b1 0x3F) in
  if has b1 0x40 then sx - 64 else sx.
Definition serial_dy (b0 b2 : Z) : Z :=
  let sy := Z.lor (Z.shiftl (Z.land b0 0x0C) 4) (Z.land b2 0x3F) in
  if has b2 0x40 then sy - 64 else sy.

(** Which identities the touchpad driver takes. *)
Definition syn_model (id_hi id_lo : Z) : Z := Z.lor (u16 (Z.shiftl (Z.land id_hi 0x0F) 8)) id_lo.
Definition syn_known (id_hi id_lo : Z) : bool :=
  (id_hi =? 0x47) || (Z.shiftr (syn_model id_hi id_lo) 8 =? 0x4B).

(** The position in an absolute packet. *)
Definition syn_x (b1 b3 : Z) : Z :=
  Z.lor (Z.lor (Z.shiftl (Z.land b3 0x10) 8) (Z.shiftl b1 4)) (Z.land b3 0x0F).
Definition syn_y (b2 b3 b4 : Z) : Z :=
  Z.lor (Z.lor (Z.shiftl (Z.land b3 0x20) 7) (Z.shiftl b2 4)) (Z.land b4 0x0F).

(** ** The drivers *)

Section input.
Context {P : Type} `{Ports P}.

Record input := Inp {
  port1_ok : bool;
  port2_ok : bool;
  kbd : keyboard;
  aux : mouse;
  serial_present : bool;
  syn_present : bool;
  game_present : bool;
  irqs : list Z;
  hw : P;
}.
Definition input_boot (p : P) : input := Inp false false keyboard0 mouse0 false false false [] p.

#[export] Instance input_ports : HasPorts input P :=
  {| ports := hw;
     set_ports := λ p s, Inp (port1_ok s) (port2_ok s) (kbd s) (aux s) (serial_present s) (syn_present s)
                           (game_present s) (irqs s) p |}.
#[export] Instance input_lawful : LawfulPorts input P.
Proof. split; [done|done|by intros []]. Qed.
Definition set_ports_ok (p1 p2 : bool) (s : input) : input :=
  Inp p1 p2 (kbd s) (aux s) (serial_present s) (syn_present s) (game_present s) (irqs s) (hw s).
Definition set_kbd (k : keyboard) (s : input) : input :=
  Inp (port1_ok s) (port2_ok s) k (aux s) (serial_present s) (syn_present s) (game_present s) (irqs s) (hw s).
Definition set_aux (m : mouse) (s : input) : input :=
  Inp (port1_ok s) (port2_ok s) (kbd s) m (serial_present s) (syn_present s) (game_present s) (irqs s) (hw s).
Definition set_present (ser syn game : bool) (s : input) : input :=
  Inp (port1_ok s) (port2_ok s) (kbd s) (aux s) ser syn game (irqs s) (hw s).

(** [irq_install] and [pic_unmask_irq]. *)
Definition enable_irq (n : Z) : M input unit :=
  modify (λ s, Inp (port1_ok s) (port2_ok s) (kbd s) (aux s) (serial_present s) (syn_present s) (game_present s)
    (irqs s ++ [n]) (hw s)).

(** *** drivers/input/ps2.c *)

Definition wait_in_ready : M input bool :=
  let* r := spin 100000 (
    let* st := io_inb STATUS_PORT in
    ret (if negb (has st STAT_IN_FULL) then Some true else None)) in
  ret (default false r).
Definition wait_out_ready : M input bool :=
  let* r := spin 100000 (
    let* st := io_inb STATUS_PORT in
    ret (if has st STAT_OUT_FULL then Some true else None)) in
  ret (default false r).

Fixpoint flush_output (fuel : nat) : M input unit :=
  match fuel with
  | O => fault
  | S fuel =>
      let* st := io_inb STATUS_PORT in
      if has st STAT_OUT_FULL then let* _ := io_inb DATA_PORT in flush_output fuel else ret tt
  end.

Definition controller_cmd (cmd : Z) : M input bool :=
  let* ready := wait_in_ready in
  if negb ready then ret false else io_outb CMD_PORT cmd ;; ret true.
Definition data_read : M input Z :=
  let* ready := wait_out_ready in
  if negb ready then ret 0xFF else io_inb DATA_PORT.
Definition data_write (val : Z) : M input bool :=
  let* ready := wait_in_ready in
  if negb ready then ret false else io_outb DATA_PORT val ;; ret true.
Definition aux_write (val : Z) : M input bool :=
  let* ready := wait_in_ready in
  if negb ready then ret false
  else
    io_outb CMD_PORT CMD_WRITE_P2 ;;
    let* ready := wait_in_ready in
    if negb ready then ret false else io_outb DATA_PORT val ;; ret true.

Definition ps2_controller_init (fuel : nat) : M input bool :=
  modify (set_ports_ok false false) ;;
  let* _ := controller_cmd CMD_DISABLE_P1 in
  let* _ := controller_cmd CMD_DISABLE_P2 in
  flush_output fuel ;;
  let* _ := controller_cmd CMD_SELF_TEST in
  let* r := data_read in
  if negb (r =? 0x55) then ret false
  else
    let* _ := controller_cmd CMD_READ_CFG in
    let* cfg := data_read in
    let cfg := Z.land cfg (Z.lxor (Z.shiftl 1 6) 0xFF) in
    let* _ := controller_cmd CMD_WRITE_CFG in
    let* _ := data_write cfg in
    let* _ := controller_cmd CMD_PORT1_TEST in
    let* r := data_read in
    let p1 := r =? 0 in
    modify (set_ports_ok p1 false) ;;
    let* _ := controller_cmd CMD_PORT2_TEST in
    let* r := data_read in
    let p2 := r =? 0 in
    modify (set_ports_ok p1 p2) ;;
    let* cfg := if p1 then let* _ := controller_cmd CMD_ENABLE_P1 in ret (Z.lor cfg 0x01) else ret cfg in
    let* cfg := if p2 then let* _ := controller_cmd CMD_ENABLE_P2 in ret (Z.lor cfg 0x02) else ret cfg in
    let* _ := controller_cmd CMD_WRITE_CFG in
    let* _ := data_write cfg in
    ret (p1 || p2).

Definition ps2_port1_present (s : input) : bool := port1_ok s.
Definition ps2_port2_present (s : input) : bool := port2_ok s.

Definition ps2_aux_write (val : Z) : M input bool :=
  let* ready := wait_in_ready in
  if negb ready then ret false else io_outb CMD_PORT CMD_WRITE_P2 ;; data_write val.

Definition ps2_poll_scancode : M input Z :=
  let* st := io_inb STATUS_PORT in
  if negb (has st STAT_OUT_FULL) then ret (-1) else io_inb DATA_PORT.

Definition ps2_aux_read : M input Z :=
  let* r := spin 1000 (
    let* st := io_inb 0x64 in
    if negb (has st 0x01) then ret (Some (-1))
    else if negb (has st 0x20) then ret None
    else let* b := io_inb 0x60 in ret (Some b)) in
  ret (default (-1) r).

Fixpoint ps2_flush_aux (fuel : nat) : M input unit :=
  match fuel with
  | O => fault
  | S fuel => let* r := ps2_aux_read in if 0 <=? r then ps2_flush_aux fuel else ret tt
  end.

(** *** drivers/input/keyboard.c *)

Definition kbd_do (f : keyboard → option keyboard) : M input unit :=
  let* k := gets kbd in
  let* k := lift (f k) in
  modify (set_kbd k).

(** [while (!(inb(0x64) & 0x01)) { }]. *)
Fixpoint wait_byte (fuel : nat) : M input unit :=
  match fuel with
  | O => fault
  | S fuel => let* st := io_inb 0x64 in if has st 0x01 then ret tt else wait_byte fuel
  end.

Definition handle_scancode (fuel : nat) (sc : Z) : M input unit :=
  if sc =? 0xE0 then
    wait_byte fuel ;;
    let* sc := io_inb DATA_PORT in
    kbd_do (extended_scancode sc)
  else kbd_do (plain_scancode sc).

Definition keyboard_try_getchar : M input Z :=
  let* k := gets kbd in
  let* (c, k) := lift (take_char k) in
  modify (set_kbd k) ;; ret c.

(** [halt] is what happens while the processor is halted: interrupts. *)
Fixpoint keyboard_getchar (fuel : nat) (halt : M input unit) : M input Z :=
  match fuel with
  | O => fault
  | S fuel =>
      let* c := keyboard_try_getchar in
      if c <? 0 then halt ;; keyboard_getchar fuel halt else ret c
  end.

Definition keyboard_irq_handler (fuel : nat) : M input unit :=
  let* sc := io_inb DATA_PORT in handle_scancode fuel sc.

Definition keyboard_init : M input bool :=
  let* s := get in
  if negb (ps2_port1_present s) then ret false
  else
    let* k := gets kbd in
    modify (set_kbd (Keyboard 0 0 (keybuf k) (shift_down k))) ;;
    enable_irq 1 ;;
    ret true.

(** *** drivers/input/mouse.c *)

Definition mouse_irq_handler : M input unit :=
  let* b := io_inb DATA_PORT in
  let* m := gets aux in
  let* m := lift (mouse_byte b m) in
  modify (set_aux m).

Definition mouse_packets (s : input) : Z := pkt_count (aux s).
Definition mouse_dx_total (s : input) : Z := acc_x (aux s).
Definition mouse_dy_total (s : input) : Z := acc_y (aux s).
Definition mouse_buttons (s : input) : Z := buttons (aux s).

Definition mouse_init : M input bool :=
  let* s := get in
  if negb (ps2_port2_present s) then ret false
  else
    let* _ := ps2_aux_write 0xF3 in
    let* _ := ps2_aux_write 100 in
    let* _ := ps2_aux_write 0xE6 in
    let* _ := ps2_aux_write 0xF4 in
    enable_irq 12 ;;
    ret true.

(** *** drivers/input/uart8250.c *)

Definition UREG_DATA : Z := 0.
Definition UREG_IER : Z := 1.
Definition UREG_FCR : Z := 2.
Definition UREG_LCR : Z := 3.
Definition UREG_MCR : Z := 4.
Definition UREG_LSR : Z := 5.
Definition LSR_RX_READY : Z := 0x01.
Definition LSR_TX_EMPTY : Z := 0x20.

Definition uart_init (port baud : Z) : M input bool :=
  if (baud =? 0) || (115200 <? baud) then ret false
  else
    let div := u16 (115200 / baud) in
    io_outb (port + UREG_IER) 0x00 ;;
    io_outb (port + UREG_LCR) 0x80 ;;
    io_outb port (Z.land div 0xFF) ;;
    io_outb (port + 1) (u8 (Z.shiftr div 8)) ;;
    io_outb (port + UREG_LCR) 0x03 ;;
    io_outb (port + UREG_FCR) 0xC7 ;;
    io_outb (port + UREG_MCR) 0x0B ;;
    let* st := io_inb (port + UREG_LSR) in
    ret (has st 0x60).

Definition uart_read (port : Z) : M input Z :=
  let* st := io_inb (port + UREG_LSR) in
  if negb (has st LSR_RX_READY) then ret (-1) else io_inb (port + UREG_DATA).

Fixpoint uart_write (fuel : nat) (port c : Z) : M input unit :=
  match fuel with
  | O => fault
  | S fuel =>
      let* st := io_inb (port + UREG_LSR) in
      if has st LSR_TX_EMPTY then io_outb (port + UREG_DATA) (u8 c) else uart_write fuel port c
  end.

(** *** drivers/input/serial_mouse.c *)

Definition COM1 : Z := 0x3F8.

Definition serial_mouse_probe : M input bool :=
  let* up := uart_init COM1 1200 in
  if negb up then ret false
  else modify (λ s, set_present true (syn_present s) (game_present s) s) ;; ret true.

(** What the four pointers point to. *)
Record pointer_out := PointerOut {
  po_dx : option Z;
  po_dy : option Z;
  po_left : option bool;
  po_right : option bool;
}.
Definition serial_packet (b0 b1 b2 : Z) (o : pointer_out) : pointer_out :=
  PointerOut ((λ v, s32 (v + serial_dx b0 b1)) <$> po_dx o) ((λ v, s32 (v + serial_dy b0 b2)) <$> po_dy o)
    ((λ v, v || has b0 0x20) <$> po_left o) ((λ v, v || has b0 0x10) <$> po_right o).

Fixpoint serial_loop (fuel : nat) (o : pointer_out) : M input pointer_out :=
  match fuel with
  | O => fault
  | S fuel =>
      let* b0 := uart_read COM1 in
      if b0 <? 0 then ret o
      else if negb (Z.land b0 0xE0 =? 0x40) then serial_loop fuel o
      else
        let* b1 := uart_read COM1 in
        let* b2 := uart_read COM1 in
        if (b1 <? 0) || (b2 <? 0) then ret o
        else serial_loop fuel (serial_packet b0 b1 b2 o)
  end.
Definition serial_mouse_poll (fuel : nat) (o : pointer_out) : M input pointer_out :=
  let* p := gets serial_present in
  if negb p then ret o else serial_loop fuel o.

(** *** drivers/input/touchpad_synaptics.c *)

Definition aux_write_ack (cmd : Z) : M input Z :=
  let* ok := ps2_aux_write cmd in
  if negb ok then ret (-1)
  else
    let* r := spin 1000 (
      let* r := ps2_aux_read in
      ret (if r =? 0xFA then Some 0 else if 0 <=? r then Some (-1) else None)) in
    ret (default (-1) r).

(** The return code and the byte read: [*out] is stored on success only. The
    driver has two of these, which differ in their patience. *)
Definition aux_read_within (tries : Z) : M input (option Z) :=
  spin tries (
    let* r := ps2_aux_read in
    ret (if 0 <=? r then Some (u8 r) else None)).
Definition aux_read_byte : M input (option Z) := aux_read_within 1000.
Definition read_packet_byte : M input (option Z) := aux_read_within 200.

(** [a || b || ..] over the bytes of the knock: true when one fails. *)
Fixpoint knock (l : list Z) : M input bool :=
  match l with
  | [] => ret false
  | c :: l => let* rc := aux_write_ack c in if truthy rc then ret true else knock l
  end.

Definition synaptics_probe : M input bool :=
  let* failed := knock [0xF3; 0x64; 0xEA; 0xF3; 0x28; 0xEA; 0xF3; 0x14] in
  if failed : bool then ret false
  else
    let* rc := aux_write_ack 0xF2 in
    if truthy rc then ret false
    else
      let* lo := aux_read_byte in
      match lo with
      | None => ret false
      | Some id_lo =>
          let* hi := aux_read_byte in
          match hi with
          | None => ret false
          | Some id_hi =>
              (if syn_known id_hi id_lo
               then modify (λ s, set_present (serial_present s) true (game_present s) s) else ret tt) ;;
              gets syn_present
          end
      end.

(** [for (i = 1; i < 6; i++)]: [None] when a byte does not come. *)
Fixpoint read_rest (n : nat) : M input (option (list Z)) :=
  match n with
  | O => ret (Some [])
  | S n =>
      let* b := read_packet_byte in
      match b with
      | None => ret None
      | Some b => let* l := read_rest n in ret (l ← l; Some (b :: l))
      end
  end.

Definition synaptics_packet (b0 b1 b2 b3 b4 : Z) (o : pointer_out) : pointer_out :=
  let w := has b0 0x04 in
  PointerOut (if w then po_dx o else const (syn_x b1 b3) <$> po_dx o)
    (if w then po_dy o else const (syn_y b2 b3 b4) <$> po_dy o)
    (const (has b0 0x01) <$> po_left o) (const (has b0 0x02) <$> po_right o).

Definition synaptics_poll (fuel : nat) (o : pointer_out) : M input pointer_out :=
  let* p := gets syn_present in
  if negb p then ret o
  else
    let* b0 := read_packet_byte in
    match b0 with
    | None => ret o
    | Some b0 =>
        if negb (has b0 0x40) then ps2_flush_aux fuel ;; ret o
        else
          let* r := read_rest 5 in
          ret (match r with
               | Some [b1; b2; b3; b4; _] => synaptics_packet b0 b1 b2 b3 b4 o
               | _ => o
               end)
    end.

(** *** drivers/input/gameport.c *)

Definition GAMEPORT : Z := 0x201.
Definition TIMEOUT : Z := 20000.

(** The rounds of [while (ticks < TIMEOUT)], [n] to go. *)
Fixpoint axis_ticks (n : nat) (mask ticks : Z) : M input Z :=
  match n with
  | O => ret ticks
  | S n =>
      let* v := io_inb GAMEPORT in
      if negb (has v mask) then ret ticks else axis_ticks n mask (ticks + 1)
  end.
Definition measure_axis (mask : Z) : M input Z :=
  io_outb GAMEPORT 0xFF ;;
  let* ticks := axis_ticks (Z.to_nat TIMEOUT) mask 0 in
  ret (if TIMEOUT <=? ticks then -1 else ticks).

Definition gameport_probe : M input bool :=
  let* x := measure_axis 0x01 in
  let p := (10 <? x) && (x <? TIMEOUT) in
  modify (λ s, set_present (serial_present s) (syn_present s) p s) ;;
  ret p.

(** [None] when it returns false; else the axes and the buttons. *)
Definition gameport_read : M input (option (Z * Z * list bool)) :=
  let* p := gets game_present in
  if negb p then ret None
  else
    let* bits := io_inb GAMEPORT in
    let* vx := measure_axis 0x01 in
    let* vy := measure_axis 0x02 in
    if (vx <? 0) || (vy <? 0) then ret None
    else ret (Some (vx, vy, map (λ m, negb (has bits m)) [0x10; 0x20; 0x40; 0x80])).
End input.
Arguments input : clear implicits.

(** ** The keyboard's ring

    The test for a full ring is inverted: a character is stored only when the
    ring is full, and an empty ring stays empty. *)
Definition idle (k : keyboard) : Prop := put_idx k = get_idx k ∧ 0 ≤ put_idx k < KEYBUF.

Lemma push_char_idle c k : idle k → push_char c k = Some k.
Proof.
  unfold idle, KEYBUF. intros [Hg Hp]. unfold push_char. rewrite u32_small by lia. unfold KEYBUF.
  replace (_ =? get_idx k) with false; [done|]. symmetry. apply Z.eqb_neq. mod_lia.
Qed.
Lemma take_char_idle k : idle k → take_char k = Some (-1, k).
Proof. intros [Hg _]. unfold take_char. by rewrite Hg, Z.eqb_refl. Qed.
Lemma plain_scancode_idle sc k k' : idle k → plain_scancode sc k = Some k' → idle k'.
Proof.
  intros Hk. unfold plain_scancode. rewrite push_char_idle by done.
  repeat case_match; intros [= <-]; done.
Qed.
Lemma extended_scancode_idle sc k k' : idle k → extended_scancode sc k = Some k' → idle k'.
Proof.
  intros Hk. unfold extended_scancode. rewrite !push_char_idle by done.
  repeat case_match; intros [= <-]; done.
Qed.

Section keyboard.
Context {P : Type} `{Ports P}.

(** What can happen to the ring: the interrupt, a reader, the initialisation,
    and anything that leaves the ring alone. *)
Inductive kbd_step : input P → input P → Prop :=
  | step_irq fuel s s' : keyboard_irq_handler fuel s = Some (tt, s') → kbd_step s s'
  | step_try c s s' : keyboard_try_getchar s = Some (c, s') → kbd_step s s'
  | step_init ok s s' : keyboard_init s = Some (ok, s') → kbd_step s s'
  | step_other s s' : kbd s' = kbd s → kbd_step s s'.

Definition kbd_idle (s : input P) : Prop := idle (kbd s).

Lemma kbd_do_idle f s : kbd_idle s → (∀ k k', idle k → f k = Some k' → idle k') →
  wlp (kbd_do f) (λ _, kbd_idle) s.
Proof. intros Hs Hf. unfold kbd_do. wlp_pure. apply wlp_modify. by eapply Hf. Qed.
Lemma io_inb_idle port (s : input P) : kbd_idle s → wlp (io_inb port) (λ _, kbd_idle) s.
Proof. intros Hs v s' E. unfold io_inb, io_read in E. case_match. by injection E as <- <-. Qed.
Lemma wait_byte_idle fuel s : kbd_idle s → wlp (wait_byte fuel) (λ _, kbd_idle) s.
Proof.
  revert s. induction fuel as [|fuel IH]; intros s Hs; [done|]. cbn [wait_byte].
  eapply wlp_call; [by apply io_inb_idle|]. intros v s1 H1. case_match; [by apply wlp_ret|by apply IH].
Qed.
Lemma keyboard_irq_idle fuel s : kbd_idle s → wlp (keyboard_irq_handler fuel) (λ _, kbd_idle) s.
Proof.
  intros Hs. unfold keyboard_irq_handler, handle_scancode.
  eapply wlp_call; [by apply io_inb_idle|]. intros sc s1 H1. case_match.
  - eapply wlp_call; [by apply wait_byte_idle|]. intros [] s2 H2.
    eapply wlp_call; [by apply io_inb_idle|]. intros sc' s3 H3.
    apply kbd_do_idle; [done|]. intros k k'. apply extended_scancode_idle.
  - apply kbd_do_idle; [done|]. intros k k'. apply plain_scancode_idle.
Qed.
Lemma mouse_irq_idle s : kbd_idle s → wlp mouse_irq_handler (λ _, kbd_idle) s.
Proof.
  intros Hs. unfold mouse_irq_handler. eapply wlp_call; [by apply io_inb_idle|]. intros b s1 H1. wlp_pure.
  by apply wlp_modify.
Qed.
Lemma keyboard_try_idle s : kbd_idle s → keyboard_try_getchar s = Some (-1, s).
Proof.
  intros Hs. unfold keyboard_try_getchar. rewrite bind_gets, take_char_idle by done.
  rewrite bind_lift, bind_modify. by destruct s.
Qed.
Lemma kbd_step_idle s s' : kbd_step s s' → kbd_idle s → kbd_idle s'.
Proof.
  intros [fuel s0 s1 E|c s0 s1 E|ok s0 s1 E|s0 s1 E] Hs.
  - exact (keyboard_irq_idle fuel s0 Hs tt s1 E).
  - rewrite keyboard_try_idle in E by done. by injection E as _ <-.
  - unfold keyboard_init in E. unfold bind at 1, get in E. case_match; injection E as _ <-; done.
  - unfold kbd_idle. by rewrite E.
Qed.
Lemma kbd_steps_idle s s' : rtc kbd_step s s' → kbd_idle s → kbd_idle s'.
Proof. induction 1; eauto using kbd_step_idle. Qed.

(** The keyboard delivers nothing. Whatever scancodes arrive after boot,
    from any hardware, and in whatever order interrupts, readers and the
    initialisation run, [keyboard_try_getchar] returns -1 and
    [keyboard_getchar] does not return. *)
Theorem keyboard_never_delivers (s0 s : input P) (halt : M (input P) unit) fuel :
  kbd s0 = keyboard0 →
  rtc kbd_step s0 s →
  (∀ t t', halt t = Some (tt, t') → rtc kbd_step t t') →
  keyboard_try_getchar s = Some (-1, s) ∧ keyboard_getchar fuel halt s = None.
Proof.
  intros H0 Hs Hhalt. assert (Hi : kbd_idle s).
  { apply (kbd_steps_idle s0 s Hs). unfold kbd_idle. by rewrite H0. }
  split; [by apply keyboard_try_idle|]. clear Hs H0. revert s Hi.
  induction fuel as [|fuel IH]; intros s Hi; [done|]. cbn [keyboard_getchar].
  rewrite (bind_eq _ _ _ _ _ (keyboard_try_idle s Hi)). cbn.
  unfold bind. destruct (halt s) as [[[] s1]|] eqn:E; [|done].
  apply IH, (kbd_steps_idle s s1); eauto.
Qed.
End keyboard.

(** Ports that deliver a list of bytes at the data port, and are ready. *)
#[export] Instance queue_ports : Ports (list Z) := {|
  inb port l := if port =? DATA_PORT then (default 0 (head l), tail l)
                else (if l is [] then 0 else STAT_OUT_FULL, l);
  inw _ l := (0, l); inl _ l := (0, l); outb _ _ l := l; outw _ _ l := l; outl _ _ l := l |}.

(** Shift and the letter a are pressed and released, and the first key is seen
    by a reader that waits. *)
Definition typed : input (list Z) :=
  set_ports_ok true false (input_boot [0x2A; 0x1E; 0x9E; 0xAA; 0xE0; 0x48]).
Lemma keyboard_never_delivers_witness :
  ∃ s : input (list Z), hw s = [0xE0; 0x48] ∧ keyboard_getchar 5 (keyboard_irq_handler 2) s = None.
Proof.
  eexists. split; [|apply (keyboard_never_delivers typed _ (keyboard_irq_handler 2) 5)].
  2: reflexivity.
  2: { eapply rtc_l; [by eapply (step_init true)|].
       do 4 (eapply rtc_l; [by eapply (step_irq 2)|]). apply rtc_refl. }
  - reflexivity.
  - intros t t' E. by apply rtc_once, (step_irq 2).
Defined.

(** ** The mouse's packets

    What arrives at the port is a sequence of whole packets, whose first byte
    has bit 3, and of stray bytes without it between them. *)
Inductive mouse_item :=
  | Stray (b : Z)
  | Packet (b0 b1 b2 : Z).
Definition item_ok (it : mouse_item) : Prop :=
  match it with
  | Stray b => byte_ok b ∧ has b 0x08 = false
  | Packet b0 b1 b2 => byte_ok b0 ∧ byte_ok b1 ∧ byte_ok b2 ∧ has b0 0x08 = true
  end.
Definition item_bytes (it : mouse_item) : list Z :=
  match it with Stray b => [b] | Packet b0 b1 b2 => [b0; b1; b2] end.
Record moved := Moved { mv_buttons : Z; mv_x : Z; mv_y : Z }.
Definition item_moved (it : mouse_item) : option moved :=
  match it with Stray _ => None | Packet b0 b1 b2 => Some (Moved (Z.land b0 0x07) (s8 b1) (s8 b2)) end.

(** What the driver reports after the packets [ps]: movement in 32 bits with
    wrap-around, and the buttons of the last one. *)
Definition after_packets (m m' : mouse) (ps : list moved) : Prop :=
  pkt_count m' = u32 (pkt_count m + zlen ps) ∧
  acc_x m' = s32 (acc_x m + foldr Z.add 0 (map mv_x ps)) ∧
  acc_y m' = s32 (acc_y m + foldr Z.add 0 (map mv_y ps)) ∧
  buttons m' = foldl (λ _, mv_buttons) (buttons m) ps ∧
  seen_first m' = seen_first m || negb (zlen ps =? 0).

(** Between packets. *)
Definition mouse_ready (m : mouse) : Prop :=
  mstate m = 0 ∧ zlen (mbytes m) = 3 ∧ 0 ≤ pkt_count m < 2 ^ 32 ∧
  - 2 ^ 31 ≤ acc_x m < 2 ^ 31 ∧ - 2 ^ 31 ≤ acc_y m < 2 ^ 31.

Fixpoint mouse_feed (l : list Z) (m : mouse) : option mouse :=
  match l with
  | [] => Some m
  | b :: l => m ← mouse_byte b m; mouse_feed l m
  end.
Lemma mouse_feed_app l k m : mouse_feed (l ++ k) m = (m ← mouse_feed l m; mouse_feed k m).
Proof. revert m. induction l as [|b l IH]; intros m; [done|]. cbn. destruct (mouse_byte b m); [apply IH|done]. Qed.

Lemma s32_id z : - 2 ^ 31 ≤ z < 2 ^ 31 → s32 z = z.
Proof. intros. unfold s32. rewrite Z.mod_small; lia. Qed.
Lemma s32_add a b : s32 (s32 a + b) = s32 (a + b).
Proof. unfold s32. mod_lia. Qed.
Lemma s32_range z : - 2 ^ 31 ≤ s32 z < 2 ^ 31.
Proof. unfold s32. mod_lia. Qed.
Lemma u32_add a b : u32 (u32 a + b) = u32 (a + b).
Proof. unfold u32. apply Zplus_mod_idemp_l. Qed.

Lemma mouse_bytes3 m : zlen (mbytes m) = 3 → ∃ x y z, mbytes m = [x; y; z].
Proof.
  intros Hl. destruct (mbytes m) as [|x [|y [|z [|]]]]; rewrite ?zlen_cons, ?zlen_nil in Hl; try lia; eauto.
  pose proof (zlen_nonneg l). lia.
Qed.
Lemma stray_feed m b : mouse_ready m → has b 0x08 = false →
  ∃ m', mouse_feed [b] m = Some m' ∧ mouse_ready m' ∧ after_packets m m' [].
Proof.
  intros (Hst & Hlen & Hc & Hx & Hy) Hb. destruct (mouse_bytes3 m Hlen) as (v0 & v1 & v2 & El).
  clear Hlen. destruct m as [c x y bt st l sf]. cbn in Hst, Hc, Hx, Hy, El. subst st l.
  cbn [mouse_feed]. unfold mouse_byte. cbn -[has s32 u32 Z.pow]. rewrite Hb. cbn.
  eexists. split; [done|]. unfold mouse_ready, after_packets. cbn.
  rewrite !Z.add_0_r, u32_small, !s32_id, orb_false_r by lia. repeat split; done || lia.
Qed.
Lemma mouse_byte0 c x y bt l sf b v0 v1 v2 : l = [v0; v1; v2] → has b 0x08 = true →
  mouse_byte b (Mouse c x y bt 0 l sf) = Some (Mouse c x y bt 1 [b; v1; v2] sf).
Proof. intros -> Hb. unfold mouse_byte. cbn -[has s8 s32 u32 ld8]. by rewrite Hb. Qed.
Lemma mouse_byte1 c x y bt sf b v0 v1 v2 :
  mouse_byte b (Mouse c x y bt 1 [v0; v1; v2] sf) = Some (Mouse c x y bt 2 [v0; b; v2] sf).
Proof. reflexivity. Qed.
Lemma mouse_byte2 c x y bt sf b v0 v1 v2 :
  mouse_byte b (Mouse c x y bt 2 [v0; v1; v2] sf) =
    Some (Mouse (u32 (c + 1)) (s32 (x + s8 v1)) (s32 (y + s8 b)) (Z.land v0 7) 0 [v0; v1; b] true).
Proof.
  unfold mouse_byte. cbn [mstate mbytes].
  change (splice [v0; v1; v2] 2 [b]) with (Some [v0; v1; b]). cbn -[has s8 s32 u32 ld8 Z.land].
  rewrite (ld8_eq _ 0 v0), (ld8_eq _ 1 v1), (ld8_eq _ 2 b) by done. reflexivity.
Qed.
Lemma packet_feed m b0 b1 b2 : mouse_ready m → item_ok (Packet b0 b1 b2) →
  ∃ m', mouse_feed [b0; b1; b2] m = Some m' ∧ mouse_ready m' ∧
    after_packets m m' [Moved (Z.land b0 0x07) (s8 b1) (s8 b2)].
Proof.
  intros (Hst & Hlen & Hc & Hx & Hy) (H0 & H1 & H2 & Hb). destruct (mouse_bytes3 m Hlen) as (v0 & v1 & v2 & El).
  clear Hlen. destruct m as [c x y bt st l sf]. cbn in Hst, Hc, Hx, Hy, El. subst st.
  cbn [mouse_feed]. rewrite (mouse_byte0 _ _ _ _ _ _ _ _ _ _ El Hb). cbn [mbind option_bind].
  rewrite mouse_byte1. cbn [mbind option_bind]. rewrite mouse_byte2. cbn [mbind option_bind].
  eexists. split; [done|]. unfold mouse_ready, after_packets. cbn -[s8 s32 u32 Z.land Z.pow].
  rewrite !Z.add_0_r, orb_true_r. pose proof (u32_range (c + 1)).
  pose proof (s32_range (x + s8 b1)). pose proof (s32_range (y + s8 b2)).
  split; [|done]. split; [done|]. split; [done|]. split; [done|]. split; done.
Qed.

Lemma foldr_add_app (l k : list Z) : foldr Z.add 0 (l ++ k) = foldr Z.add 0 l + foldr Z.add 0 k.
Proof. induction l as [|x l IH]; cbn; lia. Qed.
Lemma after_packets_trans m1 m2 m3 ps qs :
  after_packets m1 m2 ps → after_packets m2 m3 qs → after_packets m1 m3 (ps ++ qs).
Proof.
  intros (Hc & Hx & Hy & Hb & Hs) (Hc' & Hx' & Hy' & Hb' & Hs'). unfold after_packets.
  rewrite Hc', Hx', Hy', Hb', Hs', Hc, Hx, Hy, Hb, Hs, !map_app, !foldr_add_app, zlen_app, foldl_app, !Z.add_assoc.
  rewrite u32_add, !s32_add, <- orb_assoc. do 4 (split; [done|]). f_equal.
  pose proof (zlen_nonneg ps). pose proof (zlen_nonneg qs).
  destruct (Z.eqb_spec (zlen ps) 0), (Z.eqb_spec (zlen qs) 0), (Z.eqb_spec (zlen ps + zlen qs) 0); done || lia.
Qed.

Lemma items_feed its m : mouse_ready m → Forall item_ok its →
  ∃ m', mouse_feed (its ≫= item_bytes) m = Some m' ∧ mouse_ready m' ∧ after_packets m m' (omap item_moved its).
Proof.
  intros Hm Hits. revert m Hm. induction Hits as [|it its Hit _ IH]; intros m Hm.
  - exists m. split; [done|]. split; [done|]. destruct Hm as (_ & _ & Hc & Hx & Hy). unfold after_packets. cbn.
    rewrite !Z.add_0_r, u32_small, !s32_id, orb_false_r by lia. done.
  - assert (∃ m1, mouse_feed (item_bytes it) m = Some m1 ∧ mouse_ready m1 ∧
      after_packets m m1 (omap item_moved [it])) as (m1 & E1 & Hm1 & Ha1).
    { destruct it as [b|b0 b1 b2]; [by apply stray_feed; [|apply Hit]|by apply packet_feed]. }
    destruct (IH m1 Hm1) as (m2 & E2 & Hm2 & Ha2). exists m2. cbn [mbind list_bind].
    rewrite mouse_feed_app, E1. split; [exact E2|]. split; [done|].
    change (it :: its) with ([it] ++ its). rewrite omap_app. by eapply after_packets_trans.
Qed.

Section mouse.
Context {P : Type} `{Ports P}.

(** The data port delivers [l], a byte per interrupt. *)
Fixpoint delivers (l : list Z) (p : P) : Prop :=
  match l with
  | [] => True
  | b :: l => (inb DATA_PORT p).1 = b ∧ delivers l (inb DATA_PORT p).2
  end.
Fixpoint mouse_irqs (n : nat) : M (input P) unit :=
  match n with O => ret tt | S n => mouse_irq_handler ;; mouse_irqs n end.

Lemma io_inb_hw port (s : input P) :
  io_inb port s = Some ((inb (u16 port) (hw s)).1, set_ports (inb (u16 port) (hw s)).2 s).
Proof. unfold io_inb, io_read. cbn. by destruct (inb (u16 port) (hw s)). Qed.
Lemma mouse_irqs_feed l (s : input P) m' : delivers l (hw s) → mouse_feed l (aux s) = Some m' →
  ∃ p', mouse_irqs (length l) s = Some (tt, set_aux m' (set_ports p' s)).
Proof.
  revert s. induction l as [|b l IH]; intros s Hd E; cbn in Hd, E |- *.
  - injection E as <-. exists (hw s). by destruct s.
  - destruct Hd as [Hb Hd]. destruct (mouse_byte b (aux s)) as [m|] eqn:Em; [|done]. cbn in E.
    pose (s1 := set_aux m (set_ports (S := input P) (inb DATA_PORT (hw s)).2 s)).
    destruct (IH s1 Hd E) as [p2 E2]. exists p2.
    unfold mouse_irq_handler. rewrite bind_assoc, (bind_eq _ _ _ _ _ (io_inb_hw DATA_PORT s)).
    change (u16 DATA_PORT) with DATA_PORT. rewrite Hb.
    rewrite bind_assoc, bind_gets, bind_assoc. cbn [aux set_ports input_ports].
    rewrite Em, bind_lift, bind_modify. exact E2.
Qed.

(** C33: The mouse driver decodes the stream of the device. When whole packets
    and stray bytes arrive, one byte per interrupt, between packets, the
    handlers run without fault, every packet is counted, its two's complement
    movements are added to the totals, the buttons are those of the last
    packet, stray bytes change nothing, and the driver is between packets
    again. *)
Theorem mouse_decodes (s : input P) its :
  mouse_ready (aux s) →
  Forall item_ok its →
  delivers (its ≫= item_bytes) (hw s) →
  ∃ s', mouse_irqs (length (its ≫= item_bytes)) s = Some (tt, s') ∧ mouse_ready (aux s') ∧
    after_packets (aux s) (aux s') (omap item_moved its) ∧ kbd s' = kbd s.
Proof.
  intros Hm Hits Hd. destruct (items_feed its (aux s) Hm Hits) as (m' & E & Hm' & Ha).
  destruct (mouse_irqs_feed _ s m' Hd E) as [p' Er]. eexists. split; [exact Er|]. done.
Qed.
End mouse.

(** A stray byte, then a packet: left button, 5 right, 3 down. *)
Lemma mouse_decodes_witness :
  ∃ s : input (list Z), mouse_irqs 4 (input_boot [0x02; 0x29; 5; 0xFD]) = Some (tt, s) ∧
    mouse_packets s = 1 ∧ mouse_dx_total s = 5 ∧ mouse_dy_total s = -3 ∧ mouse_buttons s = 1.
Proof.
  destruct (mouse_decodes (input_boot [0x02; 0x29; 5; 0xFD]) [Stray 0x02; Packet 0x29 5 0xFD])
    as (s & E & _ & (Hc & Hx & Hy & Hb & _) & _).
  - split; [done|]. split; [done|]. cbn. lia.
  - constructor; [|constructor; [|constructor]]; cbn; unfold byte_ok; split; [lia|done|lia|]; repeat split; lia || done.
  - repeat split.
  - exists s. split; [exact E|]. split; [exact Hc|]. split; [exact Hx|]. split; [exact Hy|exact Hb].
Defined.

(** ** The serial mouse and the touchpad

    The header test leaves bit 5 clear, and that is the bit the left button is
    taken from. *)
Lemma serial_no_left b0 : (Z.land b0 0xE0 =? 0x40) = true → has b0 0x20 = false.
Proof.
  intros E%Z.eqb_eq. unfold has. change 0x20 with (Z.land 0xE0 0x20).
  by rewrite Z.land_assoc, E.
Qed.
Lemma serial_loop_left {P} `{Ports P} fuel o (s : input P) :
  wlp (serial_loop fuel o) (λ o' _, po_left o' = po_left o) s.
Proof.
  revert o s. induction fuel as [|fuel IH]; intros o s; [done|]. cbn [serial_loop].
  apply wlp_bind. intros b0 s1 _. case_match; [by apply wlp_ret|].
  case_match eqn:Eh; [apply IH|]. apply negb_false_iff in Eh.
  apply wlp_bind. intros b1 s2 _. apply wlp_bind. intros b2 s3 _.
  case_match; [by apply wlp_ret|]. eapply wlp_mono; [apply IH|]. intros o' _ ->. cbn.
  rewrite (serial_no_left b0 Eh). destruct (po_left o) as [[]|]; done.
Qed.

(** The model is four bits, so it is never 0x4B. *)
Lemma syn_known_47 hi lo : byte_ok hi → byte_ok lo → syn_known hi lo = (hi =? 0x47).
Proof.
  intros Hhi Hlo. apply eqb_prop.
  apply (byte_forall (λ lo, Bool.eqb (syn_known hi lo) (hi =? 0x47))); [|done].
  revert Hhi. apply (byte_forall (λ hi, forallb (λ lo, Bool.eqb (syn_known hi lo) (hi =? 0x47)) all_bytes)).
  by vm_compute.
Qed.
