(* ===== verification/Boot.v ===== *)
(** * init: command line, clock, boot counter

    cmdline.c and time.c as records of their statics; the persistence demo of
    boot_flow.c over the file system of [Ext4Mount]. A string pointer is the
    buffer from the pointer on. What happens while the processor is halted is
    an argument. The rest of boot_flow.c and main.c calls initialisers and
    prints. *)
From S2P Require Import Prelude KString Csum Blkdev Alloc Ext4Disk Ext4Core Ext4Map Ext4Alloc Ext4Dir Ext4Journal Ext4Mount.
Open Scope c_scope.

(** ** init/cmdline.c *)

Definition CMDLINE_MAX : Z := 512.
Inductive cmdline_action := CMDLINE_ACTION_NONE | CMDLINE_ACTION_VERSION.
Record cmdline := Cmdline { stored : list Z; action : cmdline_action }.
Definition cmdline_boot : cmdline := Cmdline (zeros CMDLINE_MAX) CMDLINE_ACTION_NONE.

(** [for (; cmdline[i] && i < CMDLINE_MAX - 1; i++)] with [n] rounds left:
    the characters copied. *)
Fixpoint copy_line (n : nat) (s : list Z) : option (list Z) :=
  match s with
  | [] => None
  | c :: r =>
      if c =? 0 then Some []
      else match n with O => Some [] | S n => l ← copy_line n r; Some (c :: l) end
  end.

Definition cmdline_parse (line : option (list Z)) (c : cmdline) : option cmdline :=
  match line with
  | None => b ← splice (stored c) 0 [0]; Some (Cmdline b CMDLINE_ACTION_NONE)
  | Some s =>
      l ← copy_line (Z.to_nat (CMDLINE_MAX - 1)) s;
      b ← splice (stored c) 0 (l ++ [0]);
      r ← k_strstr b (chars "version" ++ [0]);
      Some (Cmdline b (match r with Some _ => CMDLINE_ACTION_VERSION | None => CMDLINE_ACTION_NONE end))
  end.

(** [while (f( *p)) p++]. *)
Fixpoint skip_while (f : Z → bool) (p : list Z) : option (list Z) :=
  match p with
  | [] => None
  | c :: r => if f c then skip_while f r else Some p
  end.
Definition is_space (c : Z) : bool := c =? 32.
Definition in_key (c : Z) : bool := truthy c && negb (c =? 32) && negb (c =? 61).
Definition in_word (c : Z) : bool := truthy c && negb (c =? 32).

(** Whether the key at [tok], which ends at [p], is [name]. *)
Definition key_is (tok p name : list Z) (nlen : Z) : option bool :=
  if zlen tok - zlen p =? nlen
  then r ← k_strncmp tok name (Z.to_nat nlen); Some (r =? 0)
  else Some false.

Fixpoint flag_loop (fuel : nat) (name : list Z) (nlen : Z) (p : list Z) : option bool :=
  match fuel with
  | O => None
  | S fuel =>
      c ← head p;
      if c =? 0 then Some false
      else
        tok ← skip_while is_space p;
        c ← head tok;
        if c =? 0 then Some false
        else
          p ← skip_while in_key tok;
          m ← key_is tok p name nlen;
          if m : bool then Some true
          else p ← skip_while in_word p; flag_loop fuel name nlen p
  end.
Definition cmdline_flag (name : list Z) (c : cmdline) : option bool :=
  nlen ← k_strlen name;
  flag_loop (S (length (stored c))) name nlen (stored c).

(** [Some None] is NULL. *)
Fixpoint value_loop (fuel : nat) (key : list Z) (klen : Z) (p : list Z) : option (option (list Z)) :=
  match fuel with
  | O => None
  | S fuel =>
      c ← head p;
      if c =? 0 then Some None
      else
        tok ← skip_while is_space p;
        c ← head tok;
        if c =? 0 then Some None
        else
          p ← skip_while in_key tok;
          m ← key_is tok p key klen;
          c ← head p;
          if c =? 61 then
            let val := tail p in
            p ← skip_while in_word val;
            if m : bool then Some (Some val) else value_loop fuel key klen p
          else if m : bool then Some (Some [0])
          else value_loop fuel key klen p
  end.
Definition cmdline_value (key : list Z) (c : cmdline) : option (option (list Z)) :=
  klen ← k_strlen key;
  value_loop (S (length (stored c))) key klen (stored c).

(** ** init/time.c *)

Record clock_state := Clock { g_ticks : Z; g_tick_hz : Z }.
Definition clock_boot : clock_state := Clock 0 100.

Definition time_init (hz : Z) (t : clock_state) : clock_state :=
  Clock 0 (if truthy hz then hz else g_tick_hz t).
Definition time_tick (t : clock_state) : clock_state := Clock (u64 (g_ticks t + 1)) (g_tick_hz t).
Definition uptime_ms (t : clock_state) : option Z := odiv (u64 (g_ticks t * 1000)) (g_tick_hz t).

Fixpoint wait_until (fuel : nat) (deadline : Z) (halt : M clock_state unit) : M clock_state unit :=
  match fuel with
  | O => fault
  | S fuel =>
      let* t := get in
      if g_ticks t <? deadline then halt ;; wait_until fuel deadline halt else ret tt
  end.
Definition sleep_deadline (ms : Z) (t : clock_state) : Z :=
  u64 (g_ticks t + u64 (u64 (ms * g_tick_hz t) + 999) / 1000).
Definition sleep_ms (fuel : nat) (ms : Z) (halt : M clock_state unit) : M clock_state unit :=
  let* t := get in
  wait_until fuel (sleep_deadline ms t) halt.

(** ** init/boot_flow.c: the persistence demo *)

(** [for (i = 0; i < n && '0' <= buf[i] <= '9'; i++)]. *)
Fixpoint parse_boots (n : nat) (buf : list Z) (boots : Z) : option Z :=
  match n with
  | O => Some boots
  | S n =>
      match buf with
      | [] => None
      | c :: buf =>
          if (48 <=? c) && (c <=? 57) then parse_boots n buf (u32 (boots * 10 + (c - 48))) else Some boots
      end
  end.

(** [do .. while (v)] into [tmp[12]]: the digits, the last one first. *)
Fixpoint boot_digits (room : nat) (v : Z) : option (list Z) :=
  match room with
  | O => None
  | S room =>
      if v / 10 =? 0 then Some [48 + v mod 10]
      else l ← boot_digits room (v / 10); Some (48 + v mod 10 :: l)
  end.
(** [out], up to its [len + 1] characters. *)
Definition print_boots (v : Z) : option (list Z) :=
  l ← boot_digits 12 v; Some (rev l ++ [10]).

Section demo.
Context {D H : Type} `{Allocator H}.

Definition boots_path : list Z := chars "/boots" ++ [0].

(** The path built for an entry of the listing: [p[EXT4_MAX_PATH]]. *)
Definition entry_path (u : list Z) (name : list Z) : option (list Z) :=
  l ← k_strlen name;
  p ← splice u 1 (take (Z.to_nat l) name);
  p ← splice p 0 [47];
  splice p (l + 1) [0].

(** The sizes that are printed. *)
Fixpoint list_sizes (ents : list dirent_info) : M (world D H) (list Z) :=
  match ents with
  | [] => ret []
  | d :: ents =>
      let* u := gets uninit in
      let* p := lift (entry_path (u EXT4_MAX_PATH) (di_name d)) in
      let* sz := ext4_size (Some p) in
      let* l := list_sizes ents in
      ret (sz :: l)
  end.

(** The boot number recorded, when one is, and the sizes listed. *)
Definition ext4_persistence_demo : M (world D H) (option (Z * list Z)) :=
  let* m := ext4_mount in
  if negb m then ret None
  else
    let* (n, buf) := ext4_read (Some boots_path) (Some (zeros 64)) 63 in
    let* buf := lift buf in
    let* boots := if 0 <? n then lift (parse_boots (Z.to_nat n) buf 0) else ret 0 in
    let boots := u32 (boots + 1) in
    let* out := lift (print_boots boots) in
    let* rc := ext4_write (Some boots_path) (Some out) (zlen out) in
    if truthy rc then ret None
    else
      let* (cnt, ents) := ext4_listdir (Some (chars "/" ++ [0])) 16 in
      let* l := list_sizes (take (Z.to_nat cnt) ents) in
      ret (Some (boots, l)).
End demo.

(** ** The words of the command line *)

Fixpoint takew (f : Z → bool) (s : list Z) : list Z :=
  match s with c :: r => if f c then c :: takew f r else [] | [] => [] end.
Fixpoint dropw (f : Z → bool) (s : list Z) : list Z :=
  match s with c :: r => if f c then dropw f r else s | [] => [] end.

(** The line from each word on. *)
Fixpoint words_from (after_space : bool) (s : list Z) : list (list Z) :=
  match s with
  | [] => []
  | c :: r =>
      if is_space c then words_from true r
      else (if after_space then [s] else []) ++ words_from false r
  end.
Definition words (s : list Z) : list (list Z) := words_from true s.
(** The key of the word at the head of a line. *)
Definition key_of (w : list Z) : list Z := takew in_key w.

Lemma take_dropw f s : takew f s ++ dropw f s = s.
Proof. induction s as [|c s IH]; [done|]. cbn. destruct (f c); [|done]. cbn. by rewrite IH. Qed.
Lemma dropw_length f s : (length (dropw f s) ≤ length s)%nat.
Proof. induction s as [|c s IH]; [done|]. cbn. destruct (f c); cbn; lia. Qed.
Lemma takew_nonul f s : nonul s → nonul (takew f s).
Proof.
  intros Hs. induction Hs as [|c s Hc _ IH]; [constructor|]. cbn. destruct (f c); [by constructor|constructor].
Qed.
Lemma dropw_nonul f s : nonul s → nonul (dropw f s).
Proof.
  intros Hs. induction Hs as [|c s Hc Hs IH]; [constructor|]. cbn. destruct (f c); [done|by constructor].
Qed.
Lemma skip_while_cstr f s rest : f 0 = false → skip_while f (s ++ 0 :: rest) = Some (dropw f s ++ 0 :: rest).
Proof. intros Hf. induction s as [|c s IH]; cbn; [by rewrite Hf|]. by destruct (f c). Qed.

Lemma in_word_space c : c ≠ 0 → in_word c = negb (is_space c).
Proof. intros Hc. unfold in_word, is_space, truthy. by rewrite (proj2 (Z.eqb_neq _ _) Hc). Qed.
Lemma in_key_word c : in_key c = true → in_word c = true.
Proof. unfold in_key, in_word. intros [H _]%andb_true_iff. exact H. Qed.
Lemma dropw_key_word w : dropw in_word (dropw in_key w) = dropw in_word w.
Proof.
  induction w as [|c w IH]; [done|]. cbn [dropw]. destruct (in_key c) eqn:E; [|done].
  by rewrite (in_key_word c E).
Qed.

Lemma words_false s : nonul s → words_from false s = words (dropw in_word s).
Proof.
  intros Hs. induction Hs as [|c s [Hc _] _ IH]; [done|]. cbn [words_from dropw].
  rewrite in_word_space by done. destruct (is_space c) eqn:E; cbn [negb].
  - unfold words. cbn [words_from]. by rewrite E.
  - exact IH.
Qed.
Lemma words_skip s : nonul s → words s =
  match dropw is_space s with [] => [] | c :: r => (c :: r) :: words (dropw in_word (c :: r)) end.
Proof.
  intros Hs. unfold words at 1. induction Hs as [|c s [Hc Hb] Hs IH]; [done|]. cbn [words_from dropw].
  destruct (is_space c) eqn:E; [exact IH|]. cbn [app]. f_equal. rewrite words_false by done.
  cbn [dropw]. rewrite in_word_space by done. by rewrite E.
Qed.

(** Comparing keys of the same length. *)
Lemma strncmp_same k n x y : nonul k → nonul n → length k = length n →
  ∃ r, k_strncmp (k ++ x) (n ++ y) (length k) = Some r ∧ (r =? 0) = bool_decide (k = n).
Proof.
  intros Hk. revert n. induction Hk as [|c k [Hc Hcb] _ IH]; intros n Hn Hl; destruct n as [|d n]; try done.
  { exists 0. split; [by destruct x|]. symmetry. by apply bool_decide_eq_true_2. }
  apply list.Forall_cons in Hn as [[Hd Hdb] Hn]. cbn in Hl. injection Hl as Hl. cbn [app length k_strncmp].
  destruct (Z.eqb_spec c d) as [<-|Hcd]; cbn [negb].
  - rewrite (proj2 (Z.eqb_neq _ _) Hc). destruct (IH n Hn Hl) as (r & E & Hr). exists r. split; [done|].
    rewrite Hr. apply bool_decide_ext. split; [by intros ->|by intros [= ->]].
  - exists (u8 c - u8 d). split; [done|]. unfold byte_ok in *. rewrite !u8_small by lia.
    rewrite bool_decide_eq_false_2 by (by intros [= -> ->]). apply Z.eqb_neq. lia.
Qed.
Lemma key_is_spec w name rest nb : nonul w → nonul name →
  key_is (w ++ 0 :: rest) (dropw in_key w ++ 0 :: rest) (name ++ nb) (zlen name) =
    Some (bool_decide (key_of w = name)).
Proof.
  intros Hw Hn. unfold key_is, key_of.
  assert (Htok : w ++ 0 :: rest = takew in_key w ++ dropw in_key w ++ 0 :: rest).
  { by rewrite app_assoc, take_dropw. }
  replace (zlen (w ++ _) - zlen _) with (zlen (takew in_key w)) by (rewrite Htok, (zlen_app (takew _ _)); lia).
  destruct (Z.eqb_spec (zlen (takew in_key w)) (zlen name)) as [E|E].
  - replace (Z.to_nat (zlen name)) with (length (takew in_key w)) by (unfold zlen in *; lia).
    rewrite Htok.
    destruct (strncmp_same (takew in_key w) name (dropw in_key w ++ 0 :: rest) nb) as (r & Er & Hr);
      [by apply takew_nonul|done|unfold zlen in E; lia|].
    rewrite Er. cbn [mbind option_bind]. by rewrite Hr.
  - rewrite bool_decide_eq_false_2; [done|]. intros <-. done.
Qed.

(** *** Lookup *)

Definition has_key (name w : list Z) : bool := bool_decide (key_of w = name).
(** The value at the word at the head of a line: the rest of the line. *)
Definition value_at (rest w : list Z) : list Z :=
  match dropw in_key w with
  | c :: v => if c =? 61 then v ++ 0 :: rest else [0]
  | [] => [0]
  end.

Lemma dropw_head f s c r : dropw f s = c :: r → f c = false.
Proof. induction s as [|x s IH]; [done|]. cbn. destruct (f x) eqn:E; [done|]. by intros [= <- _]. Qed.
Lemma word_consumed s c r : nonul s → dropw is_space s = c :: r →
  (length (dropw in_word (c :: r)) < length s)%nat.
Proof.
  intros Hs E. pose proof (dropw_length is_space s) as Hl. pose proof (dropw_nonul is_space s Hs) as Hw.
  rewrite E in Hl, Hw. apply list.Forall_cons in Hw as [[Hc _] _]. cbn [dropw].
  rewrite in_word_space, (dropw_head _ _ _ _ E) by done. cbn [negb]. pose proof (dropw_length in_word r).
  cbn [length] in Hl. lia.
Qed.
Lemma flag_loop_spec fuel name nb : nonul name → ∀ s rest, nonul s → (length s < fuel)%nat →
  flag_loop fuel (name ++ nb) (zlen name) (s ++ 0 :: rest) = Some (existsb (has_key name) (words s)).
Proof.
  intros Hn. induction fuel as [|fuel IH]; intros s rest Hs Hf; [lia|]. cbn [flag_loop].
  rewrite words_skip by done. pose proof (dropw_nonul is_space s Hs) as Hw. pose proof (word_consumed s) as Hwl.
  destruct s as [|c0 s0] eqn:Es; [done|]. rewrite <- Es in *.
  replace (head (s ++ 0 :: rest)) with (Some c0) by (by rewrite Es). cbn [mbind option_bind].
  assert (Hc0 : c0 ≠ 0) by (rewrite Es in Hs; apply list.Forall_cons in Hs; tauto).
  rewrite (proj2 (Z.eqb_neq c0 0) Hc0), skip_while_cstr by done. cbn [mbind option_bind].
  destruct (dropw is_space s) as [|c r]; [done|]. cbn [app head mbind option_bind].
  pose proof Hw as [[Hc _] _]%list.Forall_cons. rewrite (proj2 (Z.eqb_neq c 0) Hc).
  change (c :: r ++ 0 :: rest) with ((c :: r) ++ 0 :: rest).
  rewrite skip_while_cstr by done. cbn [mbind option_bind]. rewrite key_is_spec by done. cbn [mbind option_bind].
  cbn [existsb]. unfold has_key at 1. destruct (bool_decide _); [done|]. cbn [orb].
  rewrite skip_while_cstr, dropw_key_word by done. cbn [mbind option_bind].
  apply IH; [by apply dropw_nonul|]. specialize (Hwl c r Hs eq_refl). lia.
Qed.

Lemma value_loop_spec fuel key kb : nonul key → ∀ s rest, nonul s → (length s < fuel)%nat →
  value_loop fuel (key ++ kb) (zlen key) (s ++ 0 :: rest) =
    Some (value_at rest <$> List.find (has_key key) (words s)).
Proof.
  intros Hn. induction fuel as [|fuel IH]; intros s rest Hs Hf; [lia|]. cbn [value_loop].
  rewrite words_skip by done. pose proof (dropw_nonul is_space s Hs) as Hw. pose proof (word_consumed s) as Hwl.
  destruct s as [|c0 s0] eqn:Es; [done|]. rewrite <- Es in *.
  replace (head (s ++ 0 :: rest)) with (Some c0) by (by rewrite Es). cbn [mbind option_bind].
  assert (Hc0 : c0 ≠ 0) by (rewrite Es in Hs; apply list.Forall_cons in Hs; tauto).
  rewrite (proj2 (Z.eqb_neq c0 0) Hc0), skip_while_cstr by done. cbn [mbind option_bind].
  destruct (dropw is_space s) as [|c r]; [done|]. cbn [app head mbind option_bind].
  pose proof Hw as [[Hc _] _]%list.Forall_cons. rewrite (proj2 (Z.eqb_neq c 0) Hc).
  change (c :: r ++ 0 :: rest) with ((c :: r) ++ 0 :: rest). specialize (Hwl c r Hs eq_refl).
  rewrite skip_while_cstr by done. cbn [mbind option_bind]. rewrite key_is_spec by done. cbn [mbind option_bind].
  cbn [List.find]. unfold has_key at 1, value_at. set (w := c :: r) in *. rewrite <- dropw_key_word in *.
  pose proof (dropw_nonul in_key w Hw) as Hd.
  destruct (dropw in_key w) as [|d v] eqn:Ed.
  - cbn [app head mbind option_bind]. change (0 =? 61) with false. cbv iota.
    destruct (bool_decide (key_of w = key)) eqn:Eb; cbn [fmap option_fmap option_map]; [by rewrite Ed|].
    apply (IH [] rest); [constructor|cbn; lia].
  - cbn [app head mbind option_bind tail]. destruct (d =? 61) eqn:E61.
    + rewrite skip_while_cstr by done. cbn [mbind option_bind].
      destruct (bool_decide (key_of w = key)) eqn:Eb; cbn [fmap option_fmap option_map]; [by rewrite Ed, E61|].
      apply Z.eqb_eq in E61. rewrite E61 in *. change (dropw in_word (61 :: v)) with (dropw in_word v) in *.
      apply IH; [|lia]. apply dropw_nonul. by apply list.Forall_cons in Hd as [_ Hd].
    + destruct (bool_decide (key_of w = key)) eqn:Eb; cbn [fmap option_fmap option_map]; [by rewrite Ed, E61|].
      assert (Hd0 : in_word d = false).
      { apply dropw_head in Ed. unfold in_key in Ed. unfold in_word. rewrite E61 in Ed. by rewrite andb_true_r in Ed. }
      cbn [dropw] in Hwl |- *. rewrite Hd0 in *. apply (IH (d :: v) rest); [done|lia].
Qed.

(** *** Parsing *)

Lemma copy_line_cstr n s rest : nonul s → copy_line n (s ++ 0 :: rest) = Some (take n s).
Proof.
  intros Hs. revert n. induction Hs as [|c s [Hc _] _ IH]; intros n.
  { by destruct n. }
  destruct n as [|n]; cbn [app copy_line]; rewrite (proj2 (Z.eqb_neq _ _) Hc); [done|]. by rewrite IH.
Qed.

Lemma strncmp_total a b ra rb n : nonul a → nonul b → (n ≤ length b)%nat →
  ∃ r, k_strncmp (a ++ 0 :: ra) (b ++ rb) n = Some r ∧ (r =? 0) = bool_decide (take n b = take n a).
Proof.
  intros Ha Hb. revert b Hb n. induction Ha as [|c a [Hc Hcb] _ IH]; intros b Hb n Hn.
  - destruct n as [|n]; [exists 0; split; [reflexivity|symmetry; by apply bool_decide_eq_true_2]|]. destruct b as [|d b]; [cbn in Hn; lia|].
    apply list.Forall_cons in Hb as [[Hd Hdb] _]. exists (u8 0 - u8 d). cbn [app k_strncmp].
    rewrite (proj2 (Z.eqb_neq 0 d)) by done. split; [done|].
    rewrite bool_decide_eq_false_2 by done. apply Z.eqb_neq. unfold byte_ok in Hdb. rewrite !u8_small by lia. lia.
  - destruct n as [|n]; [exists 0; split; [reflexivity|symmetry; by apply bool_decide_eq_true_2]|]. destruct b as [|d b]; [cbn in Hn; lia|].
    apply list.Forall_cons in Hb as [[Hd Hdb] Hb]. cbn [app k_strncmp length take] in *.
    destruct (Z.eqb_spec c d) as [<-|Hcd]; cbn [negb].
    + rewrite (proj2 (Z.eqb_neq _ _) Hc). destruct (IH b Hb n ltac:(lia)) as (r & E & Hr). exists r. split; [done|].
      rewrite Hr. apply bool_decide_ext. split; [by intros ->|by intros [= ->]].
    + exists (u8 c - u8 d). split; [done|]. unfold byte_ok in *. rewrite !u8_small by lia.
      rewrite bool_decide_eq_false_2 by congruence. apply Z.eqb_neq. lia.
Qed.

(** [k_strstr] finds the needle somewhere in the line. *)
Fixpoint is_infix (n s : list Z) : bool :=
  bool_decide (n = take (length n) s) || match s with [] => false | _ :: s => is_infix n s end.
Lemma strstr_spec n nb s rest i : nonul s → nonul n → n ≠ [] →
  ∃ r, k_strstr_from i (s ++ 0 :: rest) (n ++ nb) (length n) = Some r ∧
    is_infix n s = match r with Some _ => true | None => false end.
Proof.
  intros Hs Hn Hne. revert i. induction Hs as [|c s [Hc Hcb] Hs IH]; intros i.
  { exists None. split; [done|]. cbn. rewrite take_nil. rewrite bool_decide_eq_false_2 by done. done. }
  destruct (strncmp_total (c :: s) n rest nb (length n)) as (r & E & Hr); [by constructor|done|lia|].
  rewrite firstn_all in Hr. change ((c :: s) ++ 0 :: rest) with (c :: s ++ 0 :: rest) in *.
  cbn [k_strstr_from is_infix]. rewrite (proj2 (Z.eqb_neq _ _) Hc), E. cbn [mbind option_bind].
  rewrite Hr. destruct (bool_decide _); [by eexists|]. apply IH.
Qed.

Lemma chars_nonul : nonul (chars "version").
Proof. by repeat (constructor; [by split|]). Qed.
Lemma take_nonul n s : nonul s → nonul (take n s).
Proof. apply list.Forall_take. Qed.

(** C32: The command line. [cmdline_parse] keeps the first 511 characters of
    the line, and asks for the version screen exactly when they contain
    "version" anywhere; afterwards [cmdline_flag] is whether a word of the line
    has that key, and [cmdline_value] is, for the first such word, what stands
    after its equals sign up to the end of the line (not of the word), the
    empty string when it has none, and NULL when there is no such word. All
    three return for every line and key. *)
Theorem cmdline_spec (c : cmdline) line s name n :
  zlen (stored c) = CMDLINE_MAX → cstr line s → cstr name n →
  let l := take (Z.to_nat (CMDLINE_MAX - 1)) s in
  ∃ c' rest, cmdline_parse (Some line) c = Some c' ∧ zlen (stored c') = CMDLINE_MAX ∧
    action c' = (if is_infix (chars "version") l then CMDLINE_ACTION_VERSION else CMDLINE_ACTION_NONE) ∧
    cmdline_flag name c' = Some (existsb (has_key n) (words l)) ∧
    cmdline_value name c' = Some (value_at rest <$> List.find (has_key n) (words l)).
Proof.
  intros Hc [Hs [lr ->]] [Hn [nr ->]] l. assert (Hl : nonul l) by by apply take_nonul.
  assert (Hlen : zlen l ≤ CMDLINE_MAX - 1).
  { unfold l, zlen. rewrite length_take. unfold CMDLINE_MAX. lia. }
  destruct (splice_is_Some (stored c) 0 (l ++ [0])) as [b Eb]; [lia|rewrite zlen_snoc; lia|].
  pose proof (splice_zlen _ _ _ _ Eb) as Hb. apply splice_Some in Eb as Eb'.
  destruct Eb' as (_ & _ & Hbeq). rewrite take_0, <- app_assoc in Hbeq. cbn [app] in Hbeq.
  set (rest := drop _ (stored c)) in Hbeq.
  destruct (strstr_spec (chars "version") [0] l rest 0 Hl chars_nonul) as (r & Er & Hr); [done|].
  exists (Cmdline b (match r with Some _ => CMDLINE_ACTION_VERSION | None => CMDLINE_ACTION_NONE end)), rest.
  split.
  { unfold cmdline_parse. rewrite copy_line_cstr by done. cbn [mbind option_bind]. fold l. rewrite Eb.
    cbn [mbind option_bind]. unfold k_strstr. change (k_strlen (chars "version" ++ [0])) with (Some 7).
    cbn [mbind option_bind]. change (Z.to_nat 7) with (length (chars "version")). by rewrite Hbeq, Er. }
  cbn [stored action]. split; [lia|]. split; [rewrite Hr; by destruct r|].
  assert (Hsl : (length l < S (length b))%nat).
  { rewrite Hbeq, length_app. lia. }
  unfold cmdline_flag, cmdline_value. cbn [stored].
  rewrite (k_strlen_cstr (n ++ 0 :: nr) n) by (split; [done|by exists nr]). cbn [mbind option_bind].
  rewrite Hbeq at 2 4. split; [by apply flag_loop_spec|by apply value_loop_spec].
Qed.

(** The line that asks for the version screen although it should not, and
    whose value is not cut. *)
Lemma cmdline_spec_witness :
  let line := chars "quiet root=/dev/sda conversions" ++ [0] in
  ∃ c rest, cmdline_parse (Some line) cmdline_boot = Some c ∧ action c = CMDLINE_ACTION_VERSION ∧
    cmdline_flag (chars "quiet" ++ [0]) c = Some true ∧
    cmdline_value (chars "root" ++ [0]) c = Some (Some (chars "/dev/sda conversions" ++ 0 :: rest)).
Proof.
  assert (Hline : cstr (chars "quiet root=/dev/sda conversions" ++ [0]) (chars "quiet root=/dev/sda conversions")).
  { split; [|by exists []]. by repeat (constructor; [by split|]). }
  assert (Hq : cstr (chars "quiet" ++ [0]) (chars "quiet")).
  { split; [|by exists []]. by repeat (constructor; [by split|]). }
  assert (Hr : cstr (chars "root" ++ [0]) (chars "root")).
  { split; [|by exists []]. by repeat (constructor; [by split|]). }
  destruct (cmdline_spec cmdline_boot _ _ _ _ eq_refl Hline Hq) as (c & rest & E & _ & Ha & Hf & _).
  destruct (cmdline_spec cmdline_boot _ _ _ _ eq_refl Hline Hr) as (c' & rest' & E' & _ & _ & _ & Hv).
  rewrite E in E'. injection E' as <-. exists c, rest'. split; [exact E|]. split; [exact Ha|].
  split; [exact Hf|exact Hv].
Defined.

(** ** Sleeping *)

(** The ticks a sleep of [ms] waits for. *)
Definition sleep_ticks (ms hz : Z) : Z := (ms * hz + 999) / 1000.

(** The timer interrupt has come, perhaps several times, when the processor
    leaves the halt. *)
Definition timer_wakes (K : Z) (halt : M clock_state unit) : Prop :=
  ∀ t, ∃ k, 1 ≤ k ≤ K ∧ halt t = Some (tt, Clock (u64 (g_ticks t + k)) (g_tick_hz t)).

Lemma wait_until_wp K halt (Hh : timer_wakes K halt) hz fuel : ∀ d x,
  0 ≤ x → x ≤ d → d + K < 2 ^ 64 → d - x < Z.of_nat fuel →
  ∃ y, wait_until fuel d halt (Clock x hz) = Some (tt, Clock y hz) ∧ d ≤ y ∧ (y = x ∨ y < d + K).
Proof.
  induction fuel as [|fuel IH]; intros d x Hx Hxd Hd Hf; [lia|]. cbn [wait_until].
  unfold bind at 1, get. cbn [g_ticks]. destruct (Z.ltb_spec x d) as [Hlt|Hge].
  2: { exists x. split; [done|]. lia. }
  destruct (Hh (Clock x hz)) as (k & Hk & E). cbn [g_ticks g_tick_hz] in E.
  rewrite u64_small in E by lia. rewrite (bind_eq _ _ _ _ _ E).
  destruct (decide (x + k ≤ d)) as [Hle|Hgt].
  - destruct (IH d (x + k)) as (y & Ey & Hy & Hor); [lia..|]. exists y. split; [done|]. lia.
  - destruct fuel as [|fuel]; [lia|]. exists (x + k). split; [|lia].
    cbn [wait_until]. unfold bind at 1, get. cbn [g_ticks]. by rewrite (proj2 (Z.ltb_ge _ _)) by lia.
Qed.

(** Sleeping. While the clock does not overflow and every halt sees at
    least one timer interrupt, [sleep_ms] returns, after as many halts at most
    as it has ticks to wait for, and [uptime_ms] has then advanced by at least
    the time asked for; it oversleeps by less than the ticks of one halt. *)
Theorem sleep_ms_sleeps K halt t ms :
  timer_wakes K halt → 0 ≤ g_ticks t → 0 < g_tick_hz t → 0 ≤ ms → ms * g_tick_hz t + 999 < 2 ^ 64 →
  (g_ticks t + sleep_ticks ms (g_tick_hz t) + K) * 1000 < 2 ^ 64 →
  ∃ t' u u', sleep_ms (S (Z.to_nat (sleep_ticks ms (g_tick_hz t)))) ms halt t = Some (tt, t') ∧
    uptime_ms t = Some u ∧ uptime_ms t' = Some u' ∧ u + ms ≤ u' ∧
    g_ticks t' ≤ g_ticks t + Z.max 0 (sleep_ticks ms (g_tick_hz t) + K - 1).
Proof.
  intros Hh Hx Hhz Hms Hov1 Hov2. destruct t as [x hz]. cbn [g_ticks g_tick_hz] in *.
  assert (HK : 1 ≤ K) by (destruct (Hh clock_boot) as (k & ? & _); lia).
  assert (Hst : ms * hz ≤ sleep_ticks ms hz * 1000 ∧ 0 ≤ sleep_ticks ms hz).
  { unfold sleep_ticks. split; [mod_lia|apply Z.div_pos; nia]. }
  destruct (wait_until_wp K halt Hh hz (S (Z.to_nat (sleep_ticks ms hz))) (x + sleep_ticks ms hz) x)
    as (y & E & Hy & Hor); [lia..|].
  exists (Clock y hz), (x * 1000 / hz), (y * 1000 / hz). split.
  { unfold sleep_ms, bind, get, sleep_deadline. cbn [g_ticks g_tick_hz].
    replace (u64 _) with (x + sleep_ticks ms hz); [exact E|].
    rewrite (u64_small (ms * hz)), (u64_small (ms * hz + 999)) by nia. fold (sleep_ticks ms hz).
    rewrite u64_small by lia. done. }
  unfold uptime_ms, odiv. cbn [g_ticks g_tick_hz].
  rewrite (proj2 (Z.eqb_neq hz 0)), !u64_small by lia. split; [done|]. split; [done|]. split; [|lia].
  rewrite <- Z.div_add by lia. apply Z.div_le_mono; lia.
Qed.

(** 25 milliseconds at 100 Hz from tick 5, the timer coming once per halt:
    three ticks, reported as 30 milliseconds. *)
Lemma sleep_ms_sleeps_witness :
  ∃ t' u u', sleep_ms 4 25 (modify time_tick) (Clock 5 100) = Some (tt, t') ∧
    uptime_ms (Clock 5 100) = Some u ∧ uptime_ms t' = Some u' ∧ u + 25 ≤ u' ∧ g_ticks t' ≤ 8.
Proof.
  apply (sleep_ms_sleeps 1 (modify time_tick) (Clock 5 100) 25).
  - intros t. exists 1. split; [lia|]. reflexivity.
  - cbn. lia.
  - cbn. lia.
  - lia.
  - cbn. lia.
  - vm_compute. reflexivity.
Defined.

(** ** The boot counter *)

Lemma boot_digits_parse room : ∀ v, 0 ≤ v < 10 ^ Z.of_nat room → (0 < room)%nat →
  ∃ l, boot_digits room v = Some l ∧ 1 ≤ zlen l ≤ Z.of_nat room ∧
    ∀ acc n rest, 0 ≤ acc → acc * 10 ^ zlen l + v < 2 ^ 32 →
      parse_boots (length l + n) (rev l ++ rest) acc = parse_boots n rest (acc * 10 ^ zlen l + v).
Proof.
  induction room as [|room IH]; intros v Hv Hr; [lia|]. cbn [boot_digits].
  rewrite Nat2Z.inj_succ, Z.pow_succ_r in Hv by lia.
  pose proof (Z.mod_pos_bound v 10 ltac:(lia)) as Hm. pose proof (Z.div_mod v 10 ltac:(lia)) as Hdm.
  assert (Hstep : ∀ acc n rest, 0 ≤ acc → acc * 10 + v mod 10 < 2 ^ 32 →
    parse_boots (S n) ((48 + v mod 10) :: rest) acc = parse_boots n rest (acc * 10 + v mod 10)).
  { intros acc n rest Ha Hlt. cbn [parse_boots].
    rewrite !(proj2 (Z.leb_le _ _)) by lia. cbn [andb]. f_equal.
    replace (48 + v mod 10 - 48) with (v mod 10) by lia. apply u32_small. lia. }
  destruct (Z.eqb_spec (v / 10) 0) as [Hz|Hz].
  - exists [48 + v mod 10]. split; [done|]. split; [change (zlen [_]) with 1; lia|].
    change (zlen [_]) with 1. rewrite Z.pow_1_r. intros acc n rest Ha Hlt.
    assert (v = v mod 10) as -> by lia. rewrite Z.mod_mod by lia. apply Hstep; lia.
  - assert (0 ≤ v / 10 < 10 ^ Z.of_nat room) as Hq by mod_lia.
    destruct room as [|room]; [change (10 ^ Z.of_nat 0) with 1 in Hq; lia|].
    destruct (IH (v / 10) Hq) as (l & El & Hl & Hp); [lia|]. rewrite El.
    exists (48 + v mod 10 :: l). split; [done|]. rewrite zlen_cons. split; [lia|]. intros acc n rest Ha Hlt.
    rewrite Z.pow_add_r, Z.pow_1_r in * by lia. pose proof (Z.pow_pos_nonneg 10 (zlen l) ltac:(lia) ltac:(lia)).
    cbn [length rev]. rewrite <- app_assoc. cbn [app].
    replace (S (length l) + n)%nat with (length l + S n)%nat by lia.
    rewrite Hp by nia. rewrite Hstep by nia. f_equal. nia.
Qed.

(** What the demo writes is what it reads at the next boot, whatever follows
    in its buffer; the digits fit [tmp] and [out]. *)
Lemma boots_roundtrip v : 0 ≤ v < 2 ^ 32 →
  ∃ out, print_boots v = Some out ∧ 2 ≤ zlen out ≤ 13 ∧
    ∀ n rest, parse_boots (length out + n) (out ++ rest) 0 = Some v.
Proof.
  intros Hv. destruct (boot_digits_parse 12 v) as (l & El & Hl & Hp); [change (10 ^ Z.of_nat 12) with 1000000000000; lia|lia|].
  unfold print_boots. rewrite El. cbn [mbind option_bind]. eexists. split; [done|].
  assert (Hz : zlen (rev l) = zlen l) by (unfold zlen; by rewrite length_rev).
  rewrite zlen_snoc, Hz. split; [lia|]. intros n rest.
  rewrite length_app, <- app_assoc, length_rev. cbn [length]. rewrite <- Nat.add_assoc, Hp by lia.
  cbn [app parse_boots Nat.add]. done.
Qed.

(** A name of more than 126 characters does not fit the path built for it. *)
Lemma entry_path_overflows u name s : zlen u = EXT4_MAX_PATH → cstr name s → 126 < zlen s →
  entry_path u name = None.
Proof.
  intros Hu Hs Hl. unfold entry_path. rewrite (k_strlen_cstr _ _ Hs). cbn [mbind option_bind].
  destruct (splice u 1 _) as [p|] eqn:E1; [|done]. cbn [mbind option_bind].
  destruct (splice p 0 [47]) as [q|] eqn:E2; [|done]. cbn [mbind option_bind].
  pose proof (splice_zlen _ _ _ _ E1). pose proof (splice_zlen _ _ _ _ E2).
  destruct (splice q (zlen s + 1) [0]) as [r|] eqn:E3; [|done]. exfalso.
  apply splice_Some in E3 as (_ & E3 & _). change (zlen [0]) with 1 in E3. unfold EXT4_MAX_PATH in *. lia.
Qed.
