(* ===== verification/Fdt.v ===== *)
(** * arch/arm64/fdt.c: the flattened device tree

    The blob is the memory from the header on; a pointer into it is an
    offset. Reading outside is [None]. The walk has no bound in the code and
    takes fuel. The uninitialised [path] is an argument. *)
From S2P Require Import Prelude KString.
Open Scope c_scope.

Definition FDT_MAGIC : Z := 0xd00dfeed.
Definition FDT_BEGIN_NODE : Z := 1.
Definition FDT_END_NODE : Z := 2.
Definition FDT_PROP : Z := 3.
Definition FDT_NOP : Z := 4.
Definition FDT_END : Z := 9.

(** Offsets in [struct fdt_header]. *)
Definition off_magic : Z := 0.
Definition off_dt_struct : Z := 8.
Definition off_dt_strings : Z := 12.

Definition be32 (b : list Z) (off : Z) : option Z :=
  l ← slice b off 4;
  match l with
  | [b0; b1; b2; b3] =>
      Some (Z.lor (Z.lor (Z.lor (Z.shiftl b0 24) (Z.shiftl b1 16)) (Z.shiftl b2 8)) b3)
  | _ => None
  end.
Definition be64 (b : list Z) (off : Z) : option Z :=
  hi ← be32 b off; lo ← be32 b (off + 4); Some (Z.lor (Z.shiftl hi 32) lo).

(** The statics, but for [hdr] and [strings_base]. *)
Record fdt := Fdt {
  cpu_cells : Z;
  addr_cells : Z;
  size_cells : Z;
  bootargs : option Z;
  mem_base : Z;
  mem_size : Z;
  uart_base_val : Z;
  cpus_found : Z;
}.
Definition fdt_reset : fdt := Fdt 1 2 2 None 0 0 0 0.

Definition set_bootargs (p : Z) (r : fdt) : fdt :=
  Fdt (cpu_cells r) (addr_cells r) (size_cells r) (Some p) (mem_base r) (mem_size r) (uart_base_val r) (cpus_found r).
Definition set_addr_cells (v : Z) (r : fdt) : fdt :=
  Fdt (cpu_cells r) v (size_cells r) (bootargs r) (mem_base r) (mem_size r) (uart_base_val r) (cpus_found r).
Definition set_size_cells (v : Z) (r : fdt) : fdt :=
  Fdt (cpu_cells r) (addr_cells r) v (bootargs r) (mem_base r) (mem_size r) (uart_base_val r) (cpus_found r).
Definition set_mem (b s : Z) (r : fdt) : fdt :=
  Fdt (cpu_cells r) (addr_cells r) (size_cells r) (bootargs r) b s (uart_base_val r) (cpus_found r).
Definition set_uart (v : Z) (r : fdt) : fdt :=
  Fdt (cpu_cells r) (addr_cells r) (size_cells r) (bootargs r) (mem_base r) (mem_size r) v (cpus_found r).
Definition set_cpus (v : Z) (r : fdt) : fdt :=
  Fdt (cpu_cells r) (addr_cells r) (size_cells r) (bootargs r) (mem_base r) (mem_size r) (uart_base_val r) v.

(** The memory from a pointer on. *)
Definition from (b : list Z) (off : Z) : option (list Z) :=
  if (0 <=? off) && (off <=? zlen b) then Some (drop (Z.to_nat off) b) else None.

(** [!k_strcmp(p, lit)] and [k_strncmp(p, lit, n) == 0]. *)
Definition is_str (p : list Z) (lit : list Z) : option bool := r ← k_strcmp p (lit ++ [0]); Some (r =? 0).
Definition is_strn (p : list Z) (lit : list Z) (n : nat) : option bool :=
  r ← k_strncmp p (lit ++ [0]) n; Some (r =? 0).

(** [a && b] and [a || b], where evaluating [b] may fail. *)
Definition and_then (a b : option bool) : option bool := x ← a; if x : bool then b else Some false.
Definition or_else (a b : option bool) : option bool := x ← a; if x : bool then Some true else b.

(** The value is 4 bytes long and the name is [lit]: its first word. *)
Definition cells_of (blob pname : list Z) (lit : list Z) (plen val : Z) : option (option Z) :=
  c ← and_then (is_str pname lit) (Some (plen =? 4));
  if c : bool then v ← be32 blob val; Some (Some (s32 v)) else Some None.

(** The body of the loop for a property: the bootargs and the cell sizes, *)
Definition prop_head (blob parent pname : list Z) (deep : bool) (plen val : Z) (r : fdt) : option fdt :=
  c ← and_then (and_then (Some deep) (is_str parent (chars "chosen"))) (is_str pname (chars "bootargs"));
  let r := if c : bool then set_bootargs val r else r in
  a ← cells_of blob pname (chars "#address-cells") plen val;
  let r := match a with Some v => set_addr_cells v r | None => r end in
  s ← cells_of blob pname (chars "#size-cells") plen val;
  Some (match s with Some v => set_size_cells v r | None => r end).

(** then what depends on the parent. *)
Definition prop_tail (blob parent pname : list Z) (deep : bool) (plen val : Z) (r : fdt) : option fdt :=
  m ← and_then (Some deep)
    (or_else (is_strn parent (chars "memory@") 8) (is_str parent (chars "memory")));
  if m : bool then
    d ← is_str pname (chars "device_type");
    _ ← (if d : bool then ld8 blob val else Some 0);
    g ← and_then (is_str pname (chars "reg"))
      (Some (u32 ((addr_cells r + size_cells r) * 4) <=? plen));
    if g : bool then
      b ← be64 blob val;
      z ← be64 blob (val + s32 (addr_cells r * 4));
      Some (set_mem b z r)
    else Some r
  else
    u ← and_then (Some deep)
      (or_else (is_strn parent (chars "uart@") 5) (is_strn parent (chars "serial@") 7));
    if u : bool then
      g ← and_then (is_str pname (chars "reg")) (Some (uart_base_val r =? 0));
      if g : bool then v ← be64 blob val; Some (set_uart v r) else Some r
    else
      k ← and_then (and_then (and_then (Some deep) (is_str parent (chars "cpus")))
            (is_str pname (chars "device_type")))
          (v ← from blob val; is_strn v (chars "cpu") 3);
      Some (if k : bool then set_cpus (cpus_found r + 1) r else r).

Definition on_prop (blob parent pname : list Z) (deep : bool) (plen val : Z) (r : fdt) : option fdt :=
  r ← prop_head blob parent pname deep plen val r;
  prop_tail blob parent pname deep plen val r.

Record walk := Walk { ptr : Z; depth : Z; path : list (list Z); res : fdt }.

(** [path[d]]. *)
Definition row (p : list (list Z)) (d : Z) : option (list Z) :=
  if 0 <=? d then p !! Z.to_nat d else None.

(** [FDT_BEGIN_NODE], with the pointer behind the token. *)
Definition begin_node (blob : list Z) (w : walk) : option walk :=
  name ← from blob (ptr w);
  l ← k_strlen name;
  let len := l + 1 in
  p ← (if depth w <? 8 then
         x ← row (path w) (depth w);
         x ← k_strncpy x name 47;
         x ← splice x 47 [0];
         Some (<[Z.to_nat (depth w) := x]> (path w))
       else Some (path w));
  Some (Walk (ptr w + Z.land (len + 3) 0xFFFFFFFC) (depth w + 1) p (res w)).

Definition read_prop (blob : list Z) (strings_base : Z) (w : walk) : option walk :=
  plen ← be32 blob (ptr w);
  noff ← be32 blob (ptr w + 4);
  pname ← from blob (strings_base + noff);
  let val := ptr w + 8 in
  parent ← (if 2 <=? depth w then row (path w) (depth w - 2) else Some [0]);
  r ← on_prop blob parent pname (2 <=? depth w) plen val (res w);
  Some (Walk (ptr w + (8 + Z.land (u32 (plen + 3)) 0xFFFFFFFC)) (depth w) (path w) r).

(** One round of the loop; the boolean says whether it goes on. *)
Definition fdt_token (blob : list Z) (strings_base : Z) (w : walk) : option (bool * walk) :=
  token ← be32 blob (ptr w);
  let w := Walk (ptr w + 4) (depth w) (path w) (res w) in
  if token =? FDT_END then Some (false, w)
  else if token =? FDT_NOP then Some (true, w)
  else if token =? FDT_BEGIN_NODE then w ← begin_node blob w; Some (true, w)
  else if token =? FDT_END_NODE then Some (true, Walk (ptr w) (depth w - 1) (path w) (res w))
  else if negb (token =? FDT_PROP) then Some (true, w)
  else w ← read_prop blob strings_base w; Some (true, w).

Fixpoint fdt_walk (fuel : nat) (blob : list Z) (strings_base : Z) (w : walk) : option fdt :=
  match fuel with
  | O => None
  | S fuel =>
      '(more, w) ← fdt_token blob strings_base w;
      if more : bool then fdt_walk fuel blob strings_base w else Some (res w)
  end.

(** [None] for the NULL header; [junk] is the uninitialised [path]. When it
    returns false the statics are as before. *)
Definition fdt_init (fuel : nat) (junk : list (list Z)) (hdr : option (list Z)) (r0 : fdt) : option (bool * fdt) :=
  match hdr with
  | None => Some (false, r0)
  | Some blob =>
      m ← be32 blob off_magic;
      if negb (m =? FDT_MAGIC) then Some (false, r0)
      else
        s ← be32 blob off_dt_strings;
        p ← be32 blob off_dt_struct;
        r ← fdt_walk fuel blob s (Walk p 0 junk fdt_reset);
        Some (true, r)
  end.

(** The bootargs as a string, or the empty one. *)
Definition fdt_chosen_bootargs (blob : list Z) (r : fdt) : option (list Z) :=
  match bootargs r with Some p => from blob p | None => Some [0] end.
Definition fdt_memory_base (r : fdt) : Z * Z := (mem_base r, mem_size r).
Definition fdt_uart_base (r : fdt) : Z := if truthy (uart_base_val r) then uart_base_val r else 0x09000000.
Definition fdt_cpu_count (r : fdt) : Z := if 0 <? cpus_found r then cpus_found r else 1.

(** ** Device trees

    A node has a name, properties and children. A property has the offset of
    its name in the strings block, that name, and its value. *)
Record prop := MkProp { p_noff : Z; p_name : list Z; p_val : list Z }.
Inductive node := Node (name : list Z) (props : list prop) (kids : list node).

Definition be4 (v : Z) : list Z := rev (le_to 4 v).
Definition pad4 (l : list Z) : list Z := l ++ zeros ((- zlen l) mod 4).
Definition enc_prop (p : prop) : list Z :=
  be4 FDT_PROP ++ be4 (zlen (p_val p)) ++ be4 (p_noff p) ++ pad4 (p_val p).
Fixpoint encode (n : node) : list Z :=
  match n with
  | Node name ps ks =>
      be4 FDT_BEGIN_NODE ++ pad4 (name ++ [0]) ++ (ps ≫= enc_prop) ++ (ks ≫= encode) ++ be4 FDT_END_NODE
  end.
(** The number of tokens. *)
Fixpoint tokens (n : node) : nat :=
  match n with Node _ ps ks => 2 + length ps + foldr (λ k m, tokens k + m)%nat O ks end.

(** What a tree says: the fields of the walk, with the command line as the
    value of its property. *)
Record info := Info {
  i_addr : Z;
  i_size : Z;
  i_args : option (list Z);
  i_mem : Z * Z;
  i_uart : Z;
  i_cpus : Z;
}.
Definition info0 : info := Info 2 2 None (0, 0) 0 0.

Definition prefixed (lit : String.string) (s : list Z) : bool := bool_decide (take (length (chars lit)) s = chars lit).
Definition named (lit : String.string) (s : list Z) : bool := bool_decide (s = chars lit).

(** Whether there is a parent, with a name of that kind. *)
Definition under (parent : option (list Z)) (f : list Z → bool) : bool :=
  match parent with Some s => f s | None => false end.

(** A property of a node whose parent has the name [parent] (the root has
    none): [None] when a number is read that is not all in the value. *)
Definition head_info (parent : option (list Z)) (nm v : list Z) (i : info) : option info :=
  a ← (if named "#address-cells" nm && (zlen v =? 4) then s32 <$> be32 v 0 else Some (i_addr i));
  s ← (if named "#size-cells" nm && (zlen v =? 4) then s32 <$> be32 v 0 else Some (i_size i));
  Some (Info a s (if under parent (named "chosen") && named "bootargs" nm then Some v else i_args i)
          (i_mem i) (i_uart i) (i_cpus i)).
Definition tail_info (parent : option (list Z)) (nm v : list Z) (i : info) : option info :=
  if under parent (λ t, named "memory@" t || named "memory" t) then
    if named "reg" nm && (u32 ((i_addr i + i_size i) * 4) <=? zlen v) then
      b ← be64 v 0; z ← be64 v (s32 (i_addr i * 4));
      Some (Info (i_addr i) (i_size i) (i_args i) (b, z) (i_uart i) (i_cpus i))
    else Some i
  else if under parent (λ t, prefixed "uart@" t || prefixed "serial@" t) then
    if named "reg" nm && (i_uart i =? 0)
    then u ← be64 v 0; Some (Info (i_addr i) (i_size i) (i_args i) (i_mem i) u (i_cpus i)) else Some i
  else if under parent (named "cpus") && named "device_type" nm && prefixed "cpu" v
  then Some (Info (i_addr i) (i_size i) (i_args i) (i_mem i) (i_uart i) (i_cpus i + 1))
  else Some i.
Definition prop_info (parent : option (list Z)) (p : prop) (i : info) : option info :=
  i ← head_info parent (p_name p) (p_val p) i; tail_info parent (p_name p) (p_val p) i.

Fixpoint fold_info {A} (f : A → info → option info) (l : list A) (i : info) : option info :=
  match l with [] => Some i | x :: l => i ← f x i; fold_info f l i end.
Fixpoint node_info (parent : option (list Z)) (n : node) (i : info) : option info :=
  match n with
  | Node name ps ks =>
      i ← fold_info (prop_info parent) ps i;
      fold_info (node_info (Some (take 47 name))) ks i
  end.

(** Names and values the encoding can hold, the name of a property being in
    the strings block of [blob]; properties nine levels deep at most. *)
Definition prop_ok (blob : list Z) (sb : Z) (p : prop) : Prop :=
  0 ≤ p_noff p < 2 ^ 32 ∧ bytes_ok (p_val p) ∧ zlen (p_val p) < 2 ^ 32 - 3 ∧
  ∃ b, from blob (sb + p_noff p) = Some b ∧ cstr b (p_name p).
Fixpoint node_ok (blob : list Z) (sb d : Z) (n : node) : Prop :=
  match n with
  | Node name ps ks =>
      nonul name ∧ zlen name < 2 ^ 32 - 4 ∧ Forall (prop_ok blob sb) ps ∧ (ps = [] ∨ d ≤ 8) ∧
      foldr (λ k P, node_ok blob sb (d + 1) k ∧ P) True ks
  end.

Definition node_rect' (P : node → Prop) (Hn : ∀ name ps ks, Forall P ks → P (Node name ps ks)) : ∀ n, P n :=
  fix F n := match n with
    | Node name ps ks => Hn name ps ks ((fix G ks : Forall P ks := match ks with
        | [] => list.Forall_nil_2 P
        | k :: ks => list.Forall_cons_2 P k ks (F k) (G ks) end) ks)
    end.

(** ** Reading the encoding *)

Lemma slice_between pre l post : slice (pre ++ l ++ post) (zlen pre) (zlen l) = Some l.
Proof.
  apply slice_Some. rewrite !zlen_app. pose proof (zlen_nonneg pre). pose proof (zlen_nonneg l).
  pose proof (zlen_nonneg post). split; [done|]. split; [done|]. split; [lia|]. unfold zlen.
  by rewrite !Nat2Z.id, drop_app_length, take_app_length.
Qed.
Lemma slice_inner pre v post o n l : slice v o n = Some l → slice (pre ++ v ++ post) (zlen pre + o) n = Some l.
Proof.
  intros (Ho & Hn & Hl & ->)%slice_Some. apply slice_Some. rewrite !zlen_app.
  pose proof (zlen_nonneg pre). pose proof (zlen_nonneg post). split; [lia|]. split; [done|]. split; [lia|].
  unfold zlen in *. rewrite Z2Nat.inj_add, Nat2Z.id, <- drop_drop, drop_app_length by lia.
  rewrite drop_app_le by lia. rewrite take_app_le; [done|]. rewrite length_drop. lia.
Qed.
Lemma be32_inner pre v post o x : be32 v o = Some x → be32 (pre ++ v ++ post) (zlen pre + o) = Some x.
Proof. unfold be32. destruct (slice v o 4) as [l|] eqn:E; [|done]. by rewrite (slice_inner _ _ _ _ _ _ E). Qed.
Lemma be64_inner pre v post o x : be64 v o = Some x → be64 (pre ++ v ++ post) (zlen pre + o) = Some x.
Proof.
  unfold be64. destruct (be32 v o) as [h|] eqn:Eh; [|done]. destruct (be32 v (o + 4)) as [l|] eqn:El; [|done].
  rewrite (be32_inner _ _ _ _ _ Eh). cbn [mbind option_bind]. rewrite <- Z.add_assoc. by rewrite (be32_inner _ _ _ _ _ El).
Qed.
Lemma zlen_be4 v : zlen (be4 v) = 4.
Proof. done. Qed.
Lemma be32_bytes b0 b1 b2 b3 rest : byte_ok b0 → byte_ok b1 → byte_ok b2 → byte_ok b3 →
  be32 (b0 :: b1 :: b2 :: b3 :: rest) 0 = Some (b0 * 2 ^ 24 + b1 * 2 ^ 16 + b2 * 2 ^ 8 + b3).
Proof.
  unfold byte_ok. intros H0 H1 H2 H3. unfold be32.
  replace (slice _ 0 4) with (Some [b0; b1; b2; b3]).
  2: { symmetry. apply slice_Some. rewrite !zlen_cons. pose proof (zlen_nonneg rest). split; [lia|]. split; [lia|].
       split; [lia|done]. }
  cbn [mbind option_bind]. f_equal. rewrite !Z.shiftl_mul_pow2 by lia.
  rewrite (lor_disjoint (b0 * 2 ^ 24) (b1 * 2 ^ 16) 24) by mod_lia.
  rewrite (lor_disjoint _ (b2 * 2 ^ 8) 16) by mod_lia.
  by rewrite (lor_disjoint _ b3 8) by mod_lia.
Qed.
Lemma be32_be4 v : 0 ≤ v < 2 ^ 32 → be32 (be4 v) 0 = Some v.
Proof.
  intros Hv. unfold be4. cbn [le_to rev app].
  rewrite be32_bytes by (unfold byte_ok; mod_lia). f_equal. mod_lia.
Qed.
(** The word [v] at the end of [pre]. *)
Lemma be32_at pre v post : 0 ≤ v < 2 ^ 32 → be32 (pre ++ be4 v ++ post) (zlen pre) = Some v.
Proof.
  intros Hv. rewrite <- (Z.add_0_r (zlen pre)). by apply be32_inner, be32_be4.
Qed.

Lemma round4 x : 0 ≤ x < 2 ^ 32 → Z.land x 0xFFFFFFFC = x - x mod 4.
Proof.
  intros Hx. replace (x - x mod 4) with (Z.shiftl (Z.shiftr x 2) 2).
  2: { rewrite Z.shiftl_mul_pow2, Z.shiftr_div_pow2 by lia. mod_lia. }
  change 0xFFFFFFFC with (Z.shiftl (Z.ones 30) 2). apply Z.bits_inj'. intros n Hn.
  rewrite Z.land_spec, !Z.shiftl_spec by done. destruct (decide (n < 2)).
  - by rewrite (Z.testbit_neg_r (Z.ones 30)), (Z.testbit_neg_r (Z.shiftr x 2)), andb_false_r by lia.
  - rewrite Z.shiftr_spec by lia. replace (n - 2 + 2) with n by lia. rewrite Z.testbit_ones by lia.
    destruct (decide (n < 32)).
    + rewrite !(proj2 (Z.leb_le _ _)), (proj2 (Z.ltb_lt _ _)) by lia. by rewrite andb_true_r.
    + rewrite (Z.bits_above_log2 x n); [done|lia|]. destruct (decide (x = 0)) as [->|]; [cbn; lia|].
      apply Z.lt_le_trans with 32; [|lia]. apply Z.log2_lt_pow2; lia.
Qed.
Lemma zlen_pad4 l : zlen (pad4 l) = zlen l + (- zlen l) mod 4.
Proof.
  unfold pad4, zeros. rewrite zlen_app, zlen_replicate. pose proof (Z.mod_pos_bound (- zlen l) 4 ltac:(lia)). lia.
Qed.
Lemma pad4_round l : zlen l + 3 < 2 ^ 32 → Z.land (zlen l + 3) 0xFFFFFFFC = zlen (pad4 l).
Proof. intros Hl. pose proof (zlen_nonneg l). rewrite round4, zlen_pad4 by lia. mod_lia. Qed.

Lemma from_app pre post : from (pre ++ post) (zlen pre) = Some post.
Proof.
  unfold from. rewrite zlen_app. pose proof (zlen_nonneg pre). pose proof (zlen_nonneg post).
  rewrite !(proj2 (Z.leb_le _ _)) by lia. cbn [andb]. f_equal. unfold zlen.
  by rewrite Nat2Z.id, drop_app_length.
Qed.

(** ** Comparing names *)

Lemma is_str_cstr b s lit : cstr b s → nonul lit → is_str b lit = Some (bool_decide (s = lit)).
Proof.
  intros [Hs [r ->]] Hl. destruct (k_strcmp_total s lit r [] Hs Hl) as (x & E & Hx).
  unfold is_str. rewrite E. cbn [mbind option_bind]. f_equal. apply eq_true_iff_eq.
  by rewrite Z.eqb_eq, bool_decide_eq_true.
Qed.
Lemma is_strn_cstr b s lit n : cstr b s → nonul lit →
  is_strn b lit n = Some (bool_decide (take n (s ++ [0]) = take n (lit ++ [0]))).
Proof.
  intros [Hs [r ->]] Hl. destruct (k_strncmp_total s lit r [] n Hs Hl) as (x & E & Hx).
  unfold is_strn. rewrite E. cbn [mbind option_bind]. f_equal. apply eq_true_iff_eq.
  by rewrite Z.eqb_eq, bool_decide_eq_true.
Qed.
Lemma is_strn_whole b s lit : cstr b s → nonul lit →
  is_strn b lit (S (length lit)) = Some (bool_decide (s = lit)).
Proof.
  intros Hb Hl. rewrite (is_strn_cstr b s lit _ Hb Hl). f_equal. apply bool_decide_ext.
  rewrite (firstn_all2 (lit ++ [0])) by (rewrite length_app; cbn; lia).
  split; [|by intros ->; apply firstn_all2; rewrite length_app; cbn; lia].
  intros E. destruct (decide (length s ≤ length lit)%nat) as [Hle|Hgt].
  - rewrite firstn_all2 in E by (rewrite length_app; cbn; lia). by apply app_inj_tail in E as [-> _].
  - exfalso. destruct Hb as [Hs _]. rewrite take_app_le in E by lia.
    assert (H0 : 0 ∈ take (S (length lit)) s) by (rewrite E; apply elem_of_app; right; by apply list_elem_of_singleton).
    apply (list.Forall_take _ (S (length lit))) in Hs. rewrite list.Forall_forall in Hs.
    by destruct (Hs 0 H0).
Qed.
Lemma is_strn_prefix b s lit : cstr b s → nonul lit →
  is_strn b lit (length lit) = Some (bool_decide (take (length lit) s = lit)).
Proof.
  intros Hb Hl. rewrite (is_strn_cstr b s lit _ Hb Hl). f_equal. apply bool_decide_ext.
  rewrite (take_app_length lit). destruct (decide (length lit ≤ length s)%nat) as [Hle|Hgt].
  - by rewrite take_app_le by lia.
  - rewrite firstn_all2 by (rewrite length_app; cbn; lia). rewrite firstn_all2 by lia.
    split; intros E; exfalso.
    + rewrite <- E in Hl. apply list.Forall_app in Hl as [_ Hl]. apply list.Forall_cons in Hl as [[Hl _] _]. done.
    + rewrite E in Hgt. lia.
Qed.
(** A value that need not hold a whole string, followed by a NUL when it is
    shorter than the prefix. *)
Lemma is_strn_value lit v post : nonul lit → (length lit ≤ length v)%nat ∨ head post = Some 0 → bytes_ok v →
  is_strn (v ++ post) lit (length lit) = Some (bool_decide (take (length lit) v = lit)).
Proof.
  intros Hl. revert v. unfold is_strn. induction Hl as [|c lit [Hc Hcb] Hl IH]; intros v Hp Hv.
  { cbn [length take k_strncmp]. replace (k_strncmp (v ++ post) _ 0) with (Some 0) by by destruct (v ++ post). done. }
  destruct v as [|x v].
  - destruct Hp as [Hp|Hp]; [cbn in Hp; lia|]. destruct post as [|x post]; [done|]. injection Hp as ->.
    cbn [app length k_strncmp take]. rewrite (proj2 (Z.eqb_neq 0 c)) by done. cbn [negb mbind option_bind].
    f_equal. unfold byte_ok in Hcb. rewrite (u8_small c) by lia. change (u8 0) with 0.
    rewrite bool_decide_eq_false_2 by done. apply Z.eqb_neq. lia.
  - apply list.Forall_cons in Hv as [Hx Hv]. cbn [app length k_strncmp take].
    destruct (Z.eqb_spec x c) as [->|Hne]; cbn [negb].
    + rewrite (proj2 (Z.eqb_neq c 0)) by done. rewrite IH; [|cbn in Hp; destruct Hp; [left; lia|by right]|done].
      f_equal. apply bool_decide_ext. split; [by intros ->|by intros [= ->]].
    + cbn [mbind option_bind]. f_equal. unfold byte_ok in *. rewrite !u8_small by lia.
      rewrite bool_decide_eq_false_2 by congruence. apply Z.eqb_neq. lia.
Qed.

(** ** One property *)

Lemma nonul_dec l : forallb (λ c, (0 <? c) && (c <? 256)) l = true → nonul l.
Proof.
  induction l as [|c l IH]; intros E; [constructor|]. cbn [forallb] in E. bool_prop.
  constructor; [split; [lia|split; lia]|by apply IH].
Qed.
Ltac lit := apply nonul_dec; reflexivity.

(** What the buffer of the parent holds, when there is a parent. *)
Definition parent_is (deep : bool) (buf : list Z) (parent : option (list Z)) : Prop :=
  match parent with Some s => deep = true ∧ cstr buf s | None => deep = false end.

Lemma under_str deep buf parent lit : parent_is deep buf parent → nonul (chars lit) →
  and_then (Some deep) (is_str buf (chars lit)) = Some (under parent (named lit)).
Proof.
  intros Hp Hl. destruct parent as [s|]; cbn in Hp; [|by subst deep].
  destruct Hp as [-> Hs]. cbn. by apply is_str_cstr.
Qed.
Lemma under_memory deep buf parent : parent_is deep buf parent →
  and_then (Some deep) (or_else (is_strn buf (chars "memory@") 8) (is_str buf (chars "memory"))) =
    Some (under parent (λ t, named "memory@" t || named "memory" t)).
Proof.
  intros Hp. destruct parent as [s|]; cbn in Hp; [|by subst deep].
  destruct Hp as [-> Hs]. unfold and_then, or_else. cbn [mbind option_bind under].
  change 8%nat with (S (length (chars "memory@"))). rewrite (is_strn_whole buf s) by (done || lit).
  rewrite (is_str_cstr buf s) by (done || lit). cbn [mbind option_bind]. unfold named.
  by destruct (bool_decide (s = chars "memory@")).
Qed.
Lemma under_uart deep buf parent : parent_is deep buf parent →
  and_then (Some deep) (or_else (is_strn buf (chars "uart@") 5) (is_strn buf (chars "serial@") 7)) =
    Some (under parent (λ t, prefixed "uart@" t || prefixed "serial@" t)).
Proof.
  intros Hp. destruct parent as [s|]; cbn in Hp; [|by subst deep].
  destruct Hp as [-> Hs]. unfold and_then, or_else. cbn [mbind option_bind under].
  change 5%nat with (length (chars "uart@")). change 7%nat with (length (chars "serial@")).
  rewrite !(is_strn_prefix buf s) by (done || lit). cbn [mbind option_bind]. unfold prefixed.
  by destruct (bool_decide (take (length (chars "uart@")) s = chars "uart@")).
Qed.

(** The statics hold what the tree says. *)
Record info_rel (blob : list Z) (r : fdt) (i : info) : Prop := {
  ir_addr : addr_cells r = i_addr i;
  ir_size : size_cells r = i_size i;
  ir_mem : (mem_base r, mem_size r) = i_mem i;
  ir_uart : uart_base_val r = i_uart i;
  ir_cpus : cpus_found r = i_cpus i;
  ir_args : match i_args i with
            | Some v => ∃ p post, bootargs r = Some p ∧ from blob p = Some (v ++ post)
            | None => bootargs r = None end;
}.

Lemma cells_of_spec pre v post pname nm lit :
  cstr pname nm → nonul (chars lit) →
  cells_of (pre ++ v ++ post) pname (chars lit) (zlen v) (zlen pre) =
    if named lit nm && (zlen v =? 4) then Some ∘ s32 <$> be32 v 0 else Some None.
Proof.
  intros Hn Hl. unfold cells_of, and_then. rewrite (is_str_cstr pname nm) by done. cbn [mbind option_bind].
  fold (named lit nm). destruct (named lit nm); [|done]. cbn [andb mbind option_bind].
  destruct (Z.eqb_spec (zlen v) 4) as [E|]; [|done].
  assert (is_Some (be32 v 0)) as [x Ex].
  { unfold be32. destruct (slice_is_Some v 0 4) as [l El]; [lia..|]. rewrite El. cbn.
    pose proof (slice_zlen _ _ _ _ El) as Hz.
    destruct l as [|? [|? [|? [|? [|]]]]]; rewrite ?zlen_cons, ?zlen_nil in Hz; try lia; [by eexists|].
    pose proof (zlen_nonneg l). lia. }
  rewrite Ex, <- (Z.add_0_r (zlen pre)), (be32_inner _ _ _ _ _ Ex). done.
Qed.

Lemma is_str_named pname nm lit : cstr pname nm → nonul (chars lit) →
  is_str pname (chars lit) = Some (named lit nm).
Proof. intros. by apply is_str_cstr. Qed.

Section one_prop.
Context (pre v post nm : list Z) (parent : option (list Z)) (pbuf pname : list Z) (deep : bool).
#[local] Abbreviation blob := (pre ++ v ++ post).
Context (Hpar : parent_is deep pbuf parent) (Hnm : cstr pname nm) (Hv : bytes_ok v)
  (H3 : 3 ≤ zlen v ∨ head post = Some 0) (Hpost : post ≠ []).

Lemma prop_head_spec r i i' : info_rel blob r i → head_info parent nm v i = Some i' →
  ∃ r', prop_head blob pbuf pname deep (zlen v) (zlen pre) r = Some r' ∧ info_rel blob r' i'.
Proof using Hpar Hnm.
  intros Hrel Hi. unfold prop_head. rewrite (under_str deep pbuf parent "chosen") by (done || lit).
  rewrite (is_str_named pname nm "bootargs") by (done || lit).
  replace (and_then _ _) with (Some (under parent (named "chosen") && named "bootargs" nm))
    by by destruct (under parent (named "chosen")).
  cbn [mbind option_bind]. set (c := under parent (named "chosen") && named "bootargs" nm) in *.
  rewrite !(cells_of_spec pre v post pname nm) by (done || lit).
  unfold head_info in Hi. fold c in Hi.
  destruct (if named "#address-cells" nm && (zlen v =? 4) then s32 <$> be32 v 0 else _) as [a|] eqn:Ea; [|done].
  destruct (if named "#size-cells" nm && (zlen v =? 4) then s32 <$> be32 v 0 else _) as [s|] eqn:Es; [|done].
  cbn [mbind option_bind] in Hi. injection Hi as <-.
  destruct Hrel as [H1 H2 H4 H5 H6 H7].
  assert (Ha : info_rel blob (if c then set_bootargs (zlen pre) r else r)
    (Info (i_addr i) (i_size i) (if c then Some v else i_args i) (i_mem i) (i_uart i) (i_cpus i))).
  { destruct c; [|by split]. split; try done. exists (zlen pre), post. split; [done|]. apply from_app. }
  clear - Ha Ea Es. revert Ha. generalize (if c then set_bootargs (zlen pre) r else r). intros r1 [].
  destruct (named "#address-cells" nm && _), (named "#size-cells" nm && _);
    destruct (be32 v 0) as [x|]; try done; injection Ea as <-; injection Es as <-;
    (eexists; split; [reflexivity|by split]).
Qed.

Lemma prop_tail_spec r i i' : info_rel blob r i → tail_info parent nm v i = Some i' →
  ∃ r', prop_tail blob pbuf pname deep (zlen v) (zlen pre) r = Some r' ∧ info_rel blob r' i'.
Proof using Hpar Hnm Hv H3 Hpost.
  intros Hrel Hi. unfold prop_tail. rewrite (under_memory deep pbuf parent) by done.
  rewrite !(is_str_named pname nm) by (done || lit). cbn [mbind option_bind]. unfold tail_info in Hi.
  pose proof Hrel as [Ha Hs Hm Hu Hc Hb].
  destruct (under parent (λ t, named "memory@" t || named "memory" t)).
  - assert (∃ x, (if named "device_type" nm then ld8 blob (zlen pre) else Some 0) = Some x) as [x ->].
    { destruct (named "device_type" nm); [|by exists 0]. apply ld_is_Some; [apply zlen_nonneg|lia|].
      rewrite !zlen_app. pose proof (zlen_nonneg v). destruct post; [done|]. rewrite zlen_cons.
      pose proof (zlen_nonneg l). lia. }
    cbn [mbind option_bind and_then]. rewrite Ha, Hs.
    destruct (named "reg" nm); cbn [andb mbind option_bind] in Hi |- *.
    2: { injection Hi as <-. by exists r. }
    destruct (u32 _ <=? _); cbn [mbind option_bind] in Hi |- *.
    2: { injection Hi as <-. by exists r. }
    destruct (be64 v 0) as [b|] eqn:Eb; [|done]. cbn [mbind option_bind] in Hi.
    destruct (be64 v (s32 (i_addr i * 4))) as [z|] eqn:Ez; [|done]. injection Hi as <-.
    pose proof (be64_inner pre v post 0 b Eb) as E0. rewrite Z.add_0_r in E0.
    rewrite E0, (be64_inner _ _ _ _ _ Ez).
    eexists. split; [reflexivity|]. by split.
  - rewrite (under_uart deep pbuf parent) by done. cbn [mbind option_bind].
    destruct (under parent (λ t, prefixed "uart@" t || prefixed "serial@" t)).
    + rewrite Hu. unfold and_then. cbn [mbind option_bind].
      destruct (named "reg" nm); cbn [andb] in Hi; cbn [mbind option_bind].
      2: { injection Hi as <-. by exists r. }
      destruct (i_uart i =? 0); cbn [mbind option_bind].
      2: { injection Hi as <-. by exists r. }
      destruct (be64 v 0) as [b|] eqn:Eb; [|done]. injection Hi as <-.
      pose proof (be64_inner pre v post 0 b Eb) as E0. rewrite Z.add_0_r in E0. rewrite E0. eexists. split; [reflexivity|]. by split.
    + rewrite (under_str deep pbuf parent "cpus") by (done || lit).
      rewrite from_app. cbn [mbind option_bind].
      assert (Hval : is_strn (v ++ post) (chars "cpu") 3 = Some (prefixed "cpu" v)).
      { apply (is_strn_value (chars "cpu")); [lit| |done]. cbn [length chars]. destruct H3; [left|by right].
        unfold zlen in *. change (length (chars "cpu")) with 3%nat. lia. }
      rewrite Hval. destruct (under parent (named "cpus")), (named "device_type" nm), (prefixed "cpu" v);
        cbn in Hi |- *; injection Hi as <-; (eexists; split; [reflexivity|]); split; cbn; done || lia.
Qed.

Lemma on_prop_spec r i p i' : p_name p = nm → p_val p = v → info_rel blob r i → prop_info parent p i = Some i' →
  ∃ r', on_prop blob pbuf pname deep (zlen v) (zlen pre) r = Some r' ∧ info_rel blob r' i'.
Proof using Hpar Hnm Hv H3 Hpost.
  intros En Ev Hrel Hi. unfold prop_info in Hi. rewrite En, Ev in Hi.
  destruct (head_info parent nm v i) as [i1|] eqn:E1; [|done].
  destruct (prop_head_spec r i i1 Hrel E1) as (r1 & Er1 & Hr1). unfold on_prop. rewrite Er1.
  by apply (prop_tail_spec r1 i1).
Qed.
End one_prop.

(** ** The walk over an encoded tree *)

Definition rows_ok (p : list (list Z)) : Prop := length p = 8%nat ∧ Forall (λ x, zlen x = 48) p.

Definition runs (blob : list Z) (sb : Z) (n : nat) (w w' : walk) : Prop :=
  ∀ fuel, fdt_walk (n + fuel) blob sb w = fdt_walk fuel blob sb w'.
Lemma runs_trans blob sb n m w1 w2 w3 : runs blob sb n w1 w2 → runs blob sb m w2 w3 → runs blob sb (n + m) w1 w3.
Proof. intros H1 H2 fuel. by rewrite <- Nat.add_assoc, H1, H2. Qed.
Lemma runs_token blob sb w w' : fdt_token blob sb w = Some (true, w') → runs blob sb 1 w w'.
Proof. intros E fuel. cbn [Nat.add fdt_walk]. by rewrite E. Qed.

Lemma row_string x name : zlen x = 48 → nonul name →
  ∃ x1 x2, k_strncpy x (name ++ [0]) 47 = Some x1 ∧ splice x1 47 [0] = Some x2 ∧ zlen x2 = 48 ∧
    cstr x2 (take 47 name).
Proof.
  intros Hx Hn. exists (take 47 (name ++ replicate 47 0) ++ drop 47 x).
  exists (take 47 (name ++ replicate 47 0) ++ [0]). split; [apply k_strncpy_fills; [done|lia]|].
  assert (Hl : length (take 47 (name ++ replicate 47 0)) = 47%nat).
  { rewrite length_take, length_app, length_replicate. lia. }
  split.
  { apply splice_Some. rewrite zlen_app. unfold zlen in *. rewrite Hl, length_drop. split; [lia|].
    split; [cbn [length]; lia|]. change (Z.to_nat 47) with 47%nat.
    revert Hl. generalize (take 47 (name ++ replicate 47 0)). intros y Hl.
    rewrite take_app_le, firstn_all2 by lia. f_equal. cbn [app]. f_equal. symmetry. apply drop_ge.
    rewrite length_app, Hl, length_drop. cbn [length]. lia. }
  split. { unfold zlen. by rewrite length_app, Hl. }
  split; [by apply list.Forall_take|]. destruct (decide (length name ≤ 47)%nat) as [Hle|Hgt].
  - exists (replicate (47 - length name) 0).
    rewrite take_app, (firstn_all2 name) by lia. rewrite take_replicate, Nat.min_l by lia.
    rewrite <- app_assoc, <- replicate_S_end. done.
  - exists []. by rewrite take_app_le by lia.
Qed.

Lemma k_strncpy_more dst s rest rest' n : nonul s →
  k_strncpy dst (s ++ 0 :: rest) n = k_strncpy dst (s ++ 0 :: rest') n.
Proof.
  intros Hs. revert dst n. induction Hs as [|c s [Hc _] _ IH]; intros dst n;
    (destruct dst as [|d dst], n as [|n]; [done..|]).
  - done.
  - cbn [app k_strncpy]. by rewrite IH.
Qed.

Lemma begin_node_spec pre name post d p r :
  nonul name → zlen name < 2 ^ 32 - 4 → rows_ok p → 0 ≤ d →
  ∃ p', begin_node (pre ++ pad4 (name ++ [0]) ++ post) (Walk (zlen pre) d p r) =
      Some (Walk (zlen pre + zlen (pad4 (name ++ [0]))) (d + 1) p' r) ∧ rows_ok p' ∧
    (∀ j, 0 ≤ j → j ≠ d → row p' j = row p j) ∧
    (d < 8 → ∃ x, row p' d = Some x ∧ cstr x (take 47 name)).
Proof.
  intros Hn Hl [Hp8 Hp] Hd. unfold begin_node. cbn [ptr depth path res]. rewrite from_app. cbn [mbind option_bind].
  assert (Hc : pad4 (name ++ [0]) ++ post = name ++ 0 :: (zeros ((- zlen (name ++ [0])) mod 4) ++ post)).
  { unfold pad4. by rewrite <- !app_assoc. }
  rewrite Hc, (k_strlen_cstr _ name) by (split; [done|by eexists]). cbn [mbind option_bind].
  replace (zlen name + 1) with (zlen (name ++ [0])) by by rewrite zlen_snoc.
  rewrite pad4_round by (rewrite zlen_snoc; lia).
  destruct (Z.ltb_spec d 8) as [Hlt|Hge].
  2: { exists p. split; [done|]. split; [done|]. split; [done|]. lia. }
  destruct (lookup_lt_is_Some_2 p (Z.to_nat d)) as [x Ex]; [lia|].
  unfold row at 1. rewrite (proj2 (Z.leb_le 0 d)), Ex by lia. cbn [mbind option_bind].
  pose proof (list.Forall_lookup_1 _ _ _ _ Hp Ex) as Hx. cbn beta in Hx.
  destruct (row_string x name Hx Hn) as (x1 & x2 & E1 & E2 & Hx2 & Hcs).
  rewrite (k_strncpy_more _ _ _ [] _ Hn), E1. cbn [mbind option_bind]. rewrite E2. cbn [mbind option_bind].
  eexists. split; [done|]. split.
  { split; [by rewrite length_insert|]. by apply list.Forall_insert. }
  split.
  - intros j Hj Hne. unfold row. rewrite (proj2 (Z.leb_le 0 j)) by lia. rewrite list_lookup_insert_ne by lia. done.
  - intros _. exists x2. split; [|done]. unfold row. rewrite (proj2 (Z.leb_le 0 d)) by lia.
    by rewrite list_lookup_insert_eq by lia.
Qed.

(** The parent's name is in the row the code looks at, two below the depth. *)
Definition parent_at (p : list (list Z)) (d : Z) (parent : option (list Z)) : Prop :=
  match parent with
  | Some s => 1 ≤ d ∧ (d ≤ 8 → ∃ x, row p (d - 1) = Some x ∧ cstr x s)
  | None => d = 0
  end.
Lemma parent_at_same p p' d parent : parent_at p d parent → (∀ j, 0 ≤ j → j < d → row p' j = row p j) →
  0 ≤ d → parent_at p' d parent.
Proof.
  intros Hp Hs Hd. destruct parent as [s|]; [|done]. destruct Hp as [H1 Hp]. split; [done|].
  intros H8. rewrite Hs by lia. by apply Hp.
Qed.

Lemma be32_mid pre a v post : 0 ≤ v < 2 ^ 32 → be32 (pre ++ a ++ be4 v ++ post) (zlen pre + zlen a) = Some v.
Proof. intros Hv. rewrite app_assoc, <- zlen_app. by apply be32_at. Qed.

Section tree.
Context (blob : list Z) (sb : Z).

Lemma prop_walk pre q post d p parent r i i' :
  blob = pre ++ enc_prop q ++ post → head post = Some 0 → prop_ok blob sb q → 0 ≤ d ≤ 8 →
  parent_at p d parent → info_rel blob r i → prop_info parent q i = Some i' →
  ∃ r', runs blob sb 1 (Walk (zlen pre) (d + 1) p r) (Walk (zlen pre + zlen (enc_prop q)) (d + 1) p r') ∧
    info_rel blob r' i'.
Proof.
  intros Hb Hpost (Hno & Hv & Hvl & nb & Hnb & Hnm) Hd Hpar Hrel Hi.
  set (v := p_val q) in *. pose proof (zlen_nonneg v).
  set (hd := pre ++ be4 FDT_PROP ++ be4 (zlen v) ++ be4 (p_noff q)).
  set (tl := zeros ((- zlen v) mod 4) ++ post).
  assert (Hb2 : blob = hd ++ v ++ tl).
  { rewrite Hb. unfold enc_prop, pad4, hd, tl. fold v. by rewrite <- !app_assoc. }
  assert (Hhd : zlen hd = zlen pre + 12) by (unfold hd; rewrite !zlen_app, !zlen_be4; lia).
  assert (Htl : head tl = Some 0).
  { unfold tl, zeros. destruct (Z.to_nat _); [done|reflexivity]. }
  assert (Hpb : ∃ pb, (if 2 <=? d + 1 then row p (d + 1 - 2) else Some [0]) = Some pb ∧
    parent_is (2 <=? d + 1) pb parent).
  { destruct parent as [s|]; cbn in Hpar |- *.
    - destruct Hpar as [H1 Hpar]. rewrite (proj2 (Z.leb_le 2 _)) by lia. destruct (Hpar ltac:(lia)) as (x & Ex & Hx).
      exists x. split; [by replace (d + 1 - 2) with (d - 1) by lia|done].
    - subst d. by exists [0]. }
  destruct Hpb as (pb & Epb & Hpb).
  destruct (on_prop_spec hd v tl (p_name q) parent pb nb (2 <=? d + 1) Hpb Hnm Hv (or_intror Htl)
    ltac:(by destruct tl) r i q i' eq_refl eq_refl) as (r' & Er & Hr'); [by rewrite <- Hb2|done|].
  exists r'. split; [|by rewrite Hb2]. apply runs_token. unfold fdt_token. cbn [ptr depth path res].
  assert (Hw : ∀ a w post', blob = pre ++ a ++ be4 w ++ post' → 0 ≤ w < 2 ^ 32 → be32 blob (zlen pre + zlen a) = Some w).
  { intros a w post' -> Hw. by apply be32_mid. }
  assert (Hb3 : blob = pre ++ be4 FDT_PROP ++ be4 (zlen v) ++ be4 (p_noff q) ++ v ++ tl).
  { rewrite Hb2. unfold hd. by rewrite <- !app_assoc. }
  pose proof (Hw [] FDT_PROP _ Hb3 ltac:(done)) as E0. rewrite zlen_nil, Z.add_0_r in E0.
  pose proof (Hw (be4 FDT_PROP) (zlen v) _ Hb3 ltac:(lia)) as E4. rewrite zlen_be4 in E4.
  assert (E8 : be32 blob (zlen pre + 4 + 4) = Some (p_noff q)).
  { replace (zlen pre + 4 + 4) with (zlen pre + zlen (be4 FDT_PROP ++ be4 (zlen v))) by (rewrite zlen_app, !zlen_be4; lia).
    eapply Hw; [|done]. rewrite Hb3 at 1. rewrite <- !app_assoc. done. }
  rewrite E0. cbn [mbind option_bind]. change (FDT_PROP =? FDT_END) with false.
  change (FDT_PROP =? FDT_NOP) with false. change (FDT_PROP =? FDT_BEGIN_NODE) with false.
  change (FDT_PROP =? FDT_END_NODE) with false. change (negb (FDT_PROP =? FDT_PROP)) with false. cbv iota.
  unfold read_prop. cbn [ptr depth path res]. rewrite E4. cbn [mbind option_bind]. rewrite E8. cbn [mbind option_bind].
  rewrite Hnb. cbn [mbind option_bind]. rewrite Epb. cbn [mbind option_bind].
  replace (zlen pre + 4 + 8) with (zlen hd) by lia. rewrite Hb2 at 1. rewrite Er. cbn [mbind option_bind].
  do 3 f_equal. rewrite u32_small, pad4_round by lia. unfold enc_prop. fold v. rewrite !zlen_app, !zlen_be4. lia.
Qed.

Lemma props_walk ps : ∀ pre post d p parent r i i',
  blob = pre ++ (ps ≫= enc_prop) ++ post → head post = Some 0 → Forall (prop_ok blob sb) ps →
  0 ≤ d → (ps = [] ∨ d ≤ 8) → parent_at p d parent → info_rel blob r i →
  fold_info (prop_info parent) ps i = Some i' →
  ∃ r', runs blob sb (length ps) (Walk (zlen pre) (d + 1) p r)
      (Walk (zlen pre + zlen (ps ≫= enc_prop)) (d + 1) p r') ∧ info_rel blob r' i'.
Proof.
  induction ps as [|q ps IH]; intros pre post d p parent r i i' Hb Hpost Hok Hd Hd8 Hpar Hrel Hi.
  { injection Hi as <-. exists r. split; [|done]. intros fuel. cbn. by rewrite zlen_nil, Z.add_0_r. }
  apply list.Forall_cons in Hok as [Hq Hok]. destruct Hd8 as [|Hd8]; [done|]. cbn [fold_info] in Hi.
  destruct (prop_info parent q i) as [i1|] eqn:E1; [|done]. cbn [mbind option_bind list_bind] in Hb, Hi |- *.
  rewrite <- app_assoc in Hb.
  assert (Hpost1 : head ((ps ≫= enc_prop) ++ post) = Some 0) by by destruct ps.
  destruct (prop_walk pre q ((ps ≫= enc_prop) ++ post) d p parent r i i1) as (r1 & Hr1 & Hrel1); [done..|].
  destruct (IH (pre ++ enc_prop q) post d p parent r1 i1 i') as (r' & Hr' & Hrel'); try done.
  { by rewrite <- app_assoc. } { by right. }
  exists r'. split; [|done]. rewrite zlen_app in Hr'. rewrite zlen_app, Z.add_assoc.
  exact (runs_trans _ _ 1 _ _ _ _ Hr1 Hr').
Qed.

(** What the walk over one node does, from its [FDT_BEGIN_NODE] on. *)
Definition node_walk (n : node) : Prop := ∀ pre post d p parent r i i',
  blob = pre ++ encode n ++ post → node_ok blob sb d n → 0 ≤ d → rows_ok p →
  parent_at p d parent → info_rel blob r i → node_info parent n i = Some i' →
  ∃ p' r', runs blob sb (tokens n) (Walk (zlen pre) d p r) (Walk (zlen pre + zlen (encode n)) d p' r') ∧
    rows_ok p' ∧ (∀ j, 0 ≤ j → j < d → row p' j = row p j) ∧ info_rel blob r' i'.

Lemma kids_walk ks : Forall node_walk ks → ∀ pre post d p parent r i i',
  blob = pre ++ (ks ≫= encode) ++ post → foldr (λ k P, node_ok blob sb d k ∧ P) True ks → 0 ≤ d → rows_ok p →
  parent_at p d parent → info_rel blob r i → fold_info (node_info parent) ks i = Some i' →
  ∃ p' r', runs blob sb (foldr (λ k m, tokens k + m)%nat O ks) (Walk (zlen pre) d p r)
      (Walk (zlen pre + zlen (ks ≫= encode)) d p' r') ∧
    rows_ok p' ∧ (∀ j, 0 ≤ j → j < d → row p' j = row p j) ∧ info_rel blob r' i'.
Proof.
  intros Hks. induction Hks as [|k ks Hk _ IH]; intros pre post d p parent r i i' Hb Hok Hd Hp Hpar Hrel Hi.
  { injection Hi as <-. exists p, r. split; [|done]. intros fuel. cbn. by rewrite zlen_nil, Z.add_0_r. }
  destruct Hok as [Hkok Hok]. cbn [fold_info] in Hi.
  destruct (node_info parent k i) as [i1|] eqn:E1; [|done]. cbn [mbind option_bind list_bind] in Hb, Hi |- *.
  rewrite <- app_assoc in Hb.
  destruct (Hk pre ((ks ≫= encode) ++ post) d p parent r i i1) as (p1 & r1 & Hr1 & Hp1 & Hs1 & Hrel1); [done..|].
  destruct (IH (pre ++ encode k) post d p1 parent r1 i1 i') as (p' & r' & Hr' & Hp' & Hs' & Hrel'); try done.
  { by rewrite <- app_assoc. } { by eapply parent_at_same. }
  exists p', r'. split; [|split; [done|split; [|done]]].
  - rewrite zlen_app in Hr'. rewrite zlen_app, Z.add_assoc. cbn [foldr]. exact (runs_trans _ _ _ _ _ _ _ Hr1 Hr').
  - intros j Hj Hjd. rewrite Hs', Hs1 by done. done.
Qed.

Lemma token_step pre v post d p r w' : 0 ≤ v < 2 ^ 32 → blob = pre ++ be4 v ++ post →
  (let w := Walk (zlen pre + 4) d p r in
   if v =? FDT_BEGIN_NODE then begin_node blob w = Some w'
   else v = FDT_END_NODE ∧ w' = Walk (zlen pre + 4) (d - 1) p r) →
  runs blob sb 1 (Walk (zlen pre) d p r) w'.
Proof.
  intros Hv Hb Hw. apply runs_token. unfold fdt_token. cbn [ptr depth path res].
  replace (be32 blob (zlen pre)) with (Some v) by (rewrite Hb; symmetry; by apply be32_at).
  cbn [mbind option_bind]. destruct (Z.eqb_spec v FDT_BEGIN_NODE) as [->|_].
  - change (FDT_BEGIN_NODE =? FDT_END) with false. change (FDT_BEGIN_NODE =? FDT_NOP) with false. cbv iota.
    by rewrite Hw.
  - destruct Hw as [-> ->]. reflexivity.
Qed.

Lemma tree_walk n : node_walk n.
Proof.
  induction n as [name ps ks Hks] using node_rect'. intros pre post d p parent r i i' Hb Hok Hd Hp Hpar Hrel Hi.
  destruct Hok as (Hn & Hnl & Hps & Hd8 & Hkok). cbn [node_info] in Hi.
  destruct (fold_info (prop_info parent) ps i) as [i1|] eqn:E1; [|done]. cbn [mbind option_bind] in Hi.
  cbn [encode] in Hb |- *. rewrite <- !app_assoc in Hb.
  set (h1 := pre ++ be4 FDT_BEGIN_NODE) in *.
  assert (Hb1 : blob = h1 ++ pad4 (name ++ [0]) ++ (ps ≫= enc_prop) ++ (ks ≫= encode) ++ be4 FDT_END_NODE ++ post).
  { rewrite Hb. unfold h1. by rewrite <- app_assoc. }
  assert (Hh1 : zlen h1 = zlen pre + 4) by (unfold h1; by rewrite zlen_app, zlen_be4).
  destruct (begin_node_spec h1 name ((ps ≫= enc_prop) ++ (ks ≫= encode) ++ be4 FDT_END_NODE ++ post) d p r Hn Hnl Hp Hd)
    as (p1 & Eb & Hp1 & Hs1 & Hrow).
  rewrite <- Hb1, Hh1 in Eb.
  pose proof (token_step pre FDT_BEGIN_NODE _ d p r _ ltac:(done) Hb Eb) as R1.
  set (h2 := h1 ++ pad4 (name ++ [0])) in *.
  assert (Hh2 : zlen h2 = zlen pre + 4 + zlen (pad4 (name ++ [0]))) by (unfold h2; by rewrite zlen_app, Hh1).
  rewrite <- Hh2 in R1.
  destruct (props_walk ps h2 ((ks ≫= encode) ++ be4 FDT_END_NODE ++ post) d p1 parent r i i1) as (r1 & R2 & Hrel1);
    try done.
  { rewrite Hb1. unfold h2. by rewrite <- app_assoc. }
  { by destruct ks as [|[]]. }
  { apply (parent_at_same p); [done| |done]. intros j Hj Hjd. apply Hs1; lia. }
  set (h3 := h2 ++ (ps ≫= enc_prop)) in *. rewrite <- zlen_app in R2. fold h3 in R2.
  destruct (kids_walk ks Hks h3 (be4 FDT_END_NODE ++ post) (d + 1) p1 (Some (take 47 name)) r1 i1 i')
    as (p2 & r2 & R3 & Hp2 & Hs2 & Hrel2); try done.
  { rewrite Hb1. unfold h3, h2. by rewrite <- !app_assoc. }
  { lia. }
  { split; [lia|]. intros H8. replace (d + 1 - 1) with d by lia. apply Hrow. lia. }
  set (h4 := h3 ++ (ks ≫= encode)) in *. rewrite <- zlen_app in R3. fold h4 in R3.
  pose proof (token_step h4 FDT_END_NODE post (d + 1) p2 r2 (Walk (zlen h4 + 4) (d + 1 - 1) p2 r2)) as R4.
  exists p2, r2. split; [|split; [done|split; [|done]]].
  - assert (Hb4 : blob = h4 ++ be4 FDT_END_NODE ++ post).
    { rewrite Hb1. unfold h4, h3, h2. by rewrite <- !app_assoc. }
    specialize (R4 ltac:(done) Hb4 ltac:(by split)).
    replace (d + 1 - 1) with d in R4 by lia.
    pose proof (runs_trans _ _ _ _ _ _ _ R1 (runs_trans _ _ _ _ _ _ _ R2 (runs_trans _ _ _ _ _ _ _ R3 R4))) as R.
    replace (zlen h4 + 4) with (zlen pre + zlen (be4 FDT_BEGIN_NODE ++ pad4 (name ++ [0]) ++ (ps ≫= enc_prop) ++ (ks ≫= encode) ++ be4 FDT_END_NODE)) in R.
    2: { unfold h4, h3. rewrite !zlen_app, Hh2, !zlen_be4. lia. }
    cbn [tokens]. replace (2 + length ps + _)%nat with
      (1 + (length ps + (foldr (λ k m, tokens k + m) 0 ks + 1)))%nat by lia. exact R.
  - intros j Hj Hjd. rewrite Hs2, Hs1 by lia. done.
Qed.
End tree.

(** A blob: its header, the structure block with the tree [root], and the
    strings that its properties name. *)
Record blob_ok (blob : list Z) (root : node) : Prop := {
  bo_magic : be32 blob off_magic = Some FDT_MAGIC;
  bo_tree : ∃ sb pre post, be32 blob off_dt_strings = Some sb ∧ be32 blob off_dt_struct = Some (zlen pre) ∧
    blob = pre ++ encode root ++ be4 FDT_END ++ post ∧ node_ok blob sb 0 root;
}.

Lemma fdt_init_run blob root junk r0 i fuel :
  blob_ok blob root → rows_ok junk → node_info None root info0 = Some i → (tokens root < fuel)%nat →
  ∃ r, fdt_init fuel junk (Some blob) r0 = Some (true, r) ∧ info_rel blob r i.
Proof.
  intros [Hm (sb & pre & post & Hsb & Hst & Hb & Hok)] Hj Hi Hf. unfold fdt_init. rewrite Hm. cbn [mbind option_bind].
  change (negb (FDT_MAGIC =? FDT_MAGIC)) with false. cbv iota. rewrite Hsb. cbn [mbind option_bind]. rewrite Hst.
  cbn [mbind option_bind].
  destruct (tree_walk blob sb root pre (be4 FDT_END ++ post) 0 junk None fdt_reset info0 i)
    as (p & r & Hr & _ & _ & Hrel); try done.
  exists r. split; [|done]. replace fuel with (tokens root + S (fuel - tokens root - 1))%nat by lia.
  rewrite Hr. cbn [fdt_walk]. unfold fdt_token. cbn [ptr]. rewrite <- zlen_app.
  replace (be32 blob _) with (Some FDT_END); [done|].
  rewrite Hb, app_assoc. symmetry. by apply be32_at.
Qed.

(** C19: Reading a device tree. On every blob that encodes a tree, whatever
    its property values, names and shape as long as no property is nested more
    than nine levels deep, the walk ends after as many rounds as the tree has
    tokens, one for each, and the values [fdt_init] records are those of the tree: a
    property counts for the node ABOVE the one it belongs to (its parent in
    the path), the last address and size cells seen apply, memory and command
    line are those seen last, the UART the first one that is not zero. *)
Theorem fdt_init_reads_tree blob root junk r0 i fuel :
  blob_ok blob root → rows_ok junk → node_info None root info0 = Some i → (tokens root < fuel)%nat →
  ∃ r, fdt_init fuel junk (Some blob) r0 = Some (true, r) ∧
    fdt_memory_base r = i_mem i ∧ fdt_uart_base r = (if truthy (i_uart i) then i_uart i else 0x09000000) ∧
    fdt_cpu_count r = (if 0 <? i_cpus i then i_cpus i else 1) ∧
    match i_args i with
    | Some v => ∃ post, fdt_chosen_bootargs blob r = Some (v ++ post)
    | None => fdt_chosen_bootargs blob r = Some [0]
    end.
Proof.
  intros Hb Hj Hi Hf. destruct (fdt_init_run blob root junk r0 i fuel Hb Hj Hi Hf) as (r & Er & [_ _ Hm Hu Hc Ha]).
  exists r. split; [done|]. split; [done|]. unfold fdt_uart_base, fdt_cpu_count, fdt_chosen_bootargs.
  rewrite Hu, Hc. split; [done|]. split; [done|]. destruct (i_args i) as [v|].
  - destruct Ha as (p & post & -> & Hp). by exists post.
  - by rewrite Ha.
Qed.

(** ** Nodes without children *)

Definition is_memory (s : list Z) : bool := named "memory@" s || named "memory" s.
Definition watched (s : list Z) : bool := named "chosen" s || is_memory s.

(** No node that [f] picks by its name has children. *)
Fixpoint childless (f : list Z → bool) (n : node) : Prop :=
  match n with
  | Node name _ ks => (f (take 47 name) = true → ks = []) ∧ foldr (λ k P, childless f k ∧ P) True ks
  end.

Definition same_boot (i i' : info) : Prop := i_args i' = i_args i ∧ i_mem i' = i_mem i.

Lemma prop_info_same parent p i i' : under parent watched = false → prop_info parent p i = Some i' → same_boot i i'.
Proof.
  intros Hw. unfold prop_info.
  assert (Hc : under parent (named "chosen") = false ∧ under parent (λ t, named "memory@" t || named "memory" t) = false).
  { destruct parent as [s|]; [|done]. cbn in *. unfold watched, is_memory in Hw. by apply orb_false_iff in Hw. }
  destruct Hc as [Hch Hmem]. destruct (head_info _ _ _ i) as [i1|] eqn:E1; [|done]. cbn [mbind option_bind].
  assert (H1 : same_boot i i1).
  { unfold head_info in E1. rewrite Hch in E1. cbn [andb] in E1.
    destruct (if named "#address-cells" _ && _ then _ else _); [|done].
    destruct (if named "#size-cells" _ && _ then _ else _); [|done]. by injection E1 as <-. }
  unfold tail_info. rewrite Hmem. intros E2. destruct H1 as [Ha Hm].
  destruct (under parent (λ t, prefixed "uart@" t || prefixed "serial@" t)).
  - destruct (_ && _); [|by injection E2 as <-]. destruct (be64 _ 0); [|done]. by injection E2 as <-.
  - destruct (_ && _); by injection E2 as <-.
Qed.
Lemma same_boot_trans i1 i2 i3 : same_boot i1 i2 → same_boot i2 i3 → same_boot i1 i3.
Proof. intros [? ?] [? ?]. split; congruence. Qed.
Lemma fold_info_same {A} (f : A → info → option info) l :
  Forall (λ x, ∀ i i', f x i = Some i' → same_boot i i') l → ∀ i i', fold_info f l i = Some i' → same_boot i i'.
Proof.
  induction 1 as [|x l Hx _ IH]; intros i i' E; [by injection E as <-|]. cbn [fold_info] in E.
  destruct (f x i) as [i1|] eqn:E1; [|done]. eapply same_boot_trans; [by apply Hx|by apply IH].
Qed.
Lemma node_info_same n : ∀ parent, under parent watched = false → childless watched n →
  ∀ i i', node_info parent n i = Some i' → same_boot i i'.
Proof.
  induction n as [name ps ks IH] using node_rect'. intros parent Hp [Hk Hks] i i' E. cbn [node_info] in E.
  destruct (fold_info (prop_info parent) ps i) as [i1|] eqn:E1; [|done]. cbn [mbind option_bind] in E.
  eapply same_boot_trans.
  - eapply fold_info_same; [|exact E1]. apply list.Forall_forall. intros p _ j j'. by apply prop_info_same.
  - destruct (watched (take 47 name)) eqn:Ew; [rewrite (Hk eq_refl) in E; by injection E as <-|].
    eapply fold_info_same; [|exact E]. clear - IH Hks Ew. induction IH as [|k ks Hk _ IH]; [constructor|].
    destruct Hks as [Hc Hks]. constructor; [|by apply IH]. intros j j'. by apply Hk.
Qed.

(** The command line and the memory of the machine are not found. The
    walk looks for them below the nodes chosen and memory, not in them: in
    every tree in which these nodes have no children, which is how they are
    laid out, [fdt_init] succeeds with an empty command line and no memory,
    whatever the properties of these nodes say. *)
Theorem fdt_init_misses_leaves blob root junk r0 i fuel :
  blob_ok blob root → rows_ok junk → node_info None root info0 = Some i → (tokens root < fuel)%nat →
  childless watched root →
  ∃ r, fdt_init fuel junk (Some blob) r0 = Some (true, r) ∧
    fdt_memory_base r = (0, 0) ∧ fdt_chosen_bootargs blob r = Some [0].
Proof.
  intros Hb Hj Hi Hf Hc. destruct (fdt_init_run blob root junk r0 i fuel Hb Hj Hi Hf) as (r & Er & [_ _ Hm _ _ Ha]).
  destruct (node_info_same root None eq_refl Hc _ _ Hi) as [Ea Em]. rewrite Ea in Ha. rewrite Em in Hm.
  exists r. split; [done|]. split; [done|]. unfold fdt_chosen_bootargs. cbn in Ha. by rewrite Ha.
Qed.

(** ** A machine like QEMU's *)

Definition str (s : String.string) : list Z := chars s ++ [0].
Definition demo_strings : list Z := str "bootargs" ++ str "reg" ++ str "device_type" ++ str "#address-cells".
Definition demo_tree : node :=
  Node [] [MkProp 25 (chars "#address-cells") (be4 2)] [
    Node (chars "chosen") [MkProp 0 (chars "bootargs") (str "quiet")] [];
    Node (chars "memory@40000000") [MkProp 13 (chars "device_type") (str "memory");
      MkProp 9 (chars "reg") (be4 0 ++ be4 0x40000000 ++ be4 0 ++ be4 0x8000000)] [];
    Node (chars "cpus") [] [Node (chars "cpu@0") [MkProp 13 (chars "device_type") (str "cpu")] [];
                            Node (chars "cpu@1") [MkProp 13 (chars "device_type") (str "cpu")] []]].
Definition demo_struct : list Z := encode demo_tree ++ be4 FDT_END.
Definition demo_blob : list Z :=
  be4 FDT_MAGIC ++ be4 (40 + zlen demo_struct + zlen demo_strings) ++ be4 40 ++ be4 (40 + zlen demo_struct) ++
  be4 0 ++ be4 17 ++ be4 16 ++ be4 0 ++ be4 (zlen demo_strings) ++ be4 (zlen demo_struct) ++
  demo_struct ++ demo_strings.
Definition demo_junk : list (list Z) := replicate 8 (replicate 48 0xA5).

Lemma demo_prop_ok p s : 0 ≤ p_noff p < 2 ^ 32 → bytes_ok (p_val p) → zlen (p_val p) < 2 ^ 32 - 3 →
  nonul (p_name p) → from demo_blob (40 + zlen demo_struct + p_noff p) = Some (p_name p ++ 0 :: s) →
  prop_ok demo_blob (40 + zlen demo_struct) p.
Proof. intros ? ? ? ? E. split; [done|]. split; [done|]. split; [done|]. eexists. split; [exact E|]. split; [done|]. by eexists. Qed.
Ltac prop_lit := eapply demo_prop_ok;
  [split; [vm_compute; discriminate|vm_compute; reflexivity] | by apply bytes_dec | vm_compute; reflexivity
  | lit | vm_compute; reflexivity].

Lemma demo_blob_ok : blob_ok demo_blob demo_tree.
Proof.
  split; [vm_compute; reflexivity|]. exists (40 + zlen demo_struct).
  exists (take 40 demo_blob), demo_strings. split; [vm_compute; reflexivity|].
  split; [vm_compute; reflexivity|]. split; [vm_compute; reflexivity|].
  cbn [node_ok demo_tree foldr].
  split; [by constructor|]. split; [done|]. split; [constructor; [prop_lit|constructor]|]. split; [by right|].
  split; [|split; [|split; [|done]]].
  - split; [lit|]. split; [done|]. split; [constructor; [prop_lit|constructor]|]. split; [by right|done].
  - split; [lit|]. split; [done|].
    split; [constructor; [prop_lit|constructor; [prop_lit|constructor]]|]. split; [by right|done].
  - split; [lit|]. split; [done|]. split; [constructor|]. split; [by left|].
    split; [|split; [|done]].
    all: split; [lit|]; split; [done|]; split; [constructor; [prop_lit|constructor]|]; split; [by right|done].
Qed.
Lemma demo_rows : rows_ok demo_junk.
Proof. split; [done|]. by apply Forall_replicate. Qed.

(** The two processors are counted; the 128 MiB are not seen. *)
Lemma fdt_init_reads_tree_witness :
  ∃ r, fdt_init 30 demo_junk (Some demo_blob) fdt_reset = Some (true, r) ∧
    fdt_cpu_count r = 2 ∧ fdt_memory_base r = (0, 0).
Proof.
  destruct (fdt_init_reads_tree demo_blob demo_tree demo_junk fdt_reset (Info 2 2 None (0, 0) 0 2) 30)
    as (r & Er & Hm & _ & Hc & _).
  - exact demo_blob_ok.
  - exact demo_rows.
  - vm_compute. reflexivity.
  - apply Nat.ltb_lt. vm_compute. reflexivity.
  - exists r. split; [exact Er|]. split; [exact Hc|exact Hm].
Defined.
Lemma fdt_init_misses_leaves_witness :
  ∃ r, fdt_init 30 demo_junk (Some demo_blob) fdt_reset = Some (true, r) ∧
    fdt_memory_base r = (0, 0) ∧ fdt_chosen_bootargs demo_blob r = Some [0].
Proof.
  apply (fdt_init_misses_leaves demo_blob demo_tree demo_junk fdt_reset (Info 2 2 None (0, 0) 0 2) 30).
  - exact demo_blob_ok.
  - exact demo_rows.
  - vm_compute. reflexivity.
  - apply Nat.ltb_lt. vm_compute. reflexivity.
  - cbn [demo_tree childless foldr]. split; [done|].
    split; [split; done|]. split; [split; done|]. split; [|done]. split; [done|]. split; [by split|]. by split.
Defined.
