(* ===== verification/Vram.v ===== *)
(** * Video memory

    Display memory as the drivers of drivers/gpu/ use it: a window of words (16
    bits for VGA text, 32 for a framebuffer) that are stored one at a time and
    moved by memcpy in whole rows. [ram] tells whether the hardware behind the
    window keeps what is stored there; bochs.c probes for it. An access outside
    the window is undefined behaviour. The second half is the row arithmetic
    the drivers share. *)
From S2P Require Import Prelude.

Record window := Window { words : list Z; ram : bool }.

Definition load (i : Z) : M window Z := λ m,
  if 0 <=? i then v ← words m !! Z.to_nat i; Some (v, m) else None.
Definition store (i v : Z) : M window unit := λ m,
  if (0 <=? i) && (i <? zlen (words m))
  then Some (tt, if ram m then Window (<[Z.to_nat i := v]> (words m)) true else m) else None.

(** [memcpy(&w[dst], &w[src], n words)]. *)
Definition copy_words (dst src n : Z) : M window unit := λ m,
  l ← slice (words m) src n;
  l' ← splice (words m) dst l;
  Some (tt, if ram m then Window l' true else m).

(** [for (i = first; n rounds; i++) body]. *)
Fixpoint each {S} (i : Z) (n : nat) (body : Z → M S unit) : M S unit :=
  match n with
  | O => ret tt
  | Datatypes.S n => body i ;; each (i + 1) n body
  end.

(** The counted loop [for (i = first; i < bound; i++)]. *)
Definition upto {S} (first bound : Z) (body : Z → M S unit) : M S unit :=
  each first (Z.to_nat (bound - first)) body.

(** ** Lemmas *)

Lemma wp_each {S} (I : Z → S → Prop) (body : Z → M S unit) n : ∀ i s,
  I i s → (∀ j s, i ≤ j < i + Z.of_nat n → I j s → wp (body j) (λ _, I (j + 1)) s) →
  wp (each i n body) (λ _, I (i + Z.of_nat n)) s.
Proof.
  induction n as [|n IH]; intros i s Hi Hb.
  { apply wp_ret. by rewrite Z.add_0_r. }
  cbn [each]. wp_apply (Hb i s); [lia|done|]. intros _ s' Hs'.
  replace (i + Z.of_nat (Datatypes.S n)) with (i + 1 + Z.of_nat n) by lia.
  apply IH; [done|]. intros j s'' Hj. apply Hb. lia.
Qed.

(** The invariant rule of the counted loop. *)
Lemma wp_upto {S} (I : Z → S → Prop) first bound (body : Z → M S unit) s :
  first ≤ bound → I first s →
  (∀ j s, first ≤ j < bound → I j s → wp (body j) (λ _, I (j + 1)) s) →
  wp (upto first bound body) (λ _, I bound) s.
Proof.
  intros Hle Hi Hb. unfold upto. eapply wp_mono.
  - apply (wp_each I); [done|]. intros j s' Hj. apply Hb. lia.
  - intros [] s'. cbv beta. by replace (first + Z.of_nat (Z.to_nat (bound - first))) with bound by lia.
Qed.

(** Bodies that agree on the range. *)
Lemma upto_ext {S} first bound (f g : Z → M S unit) :
  (∀ i, first ≤ i < bound → f i = g i) → upto first bound f = upto first bound g.
Proof.
  unfold upto. intros Hfg. assert (Hin : ∀ i, first ≤ i < first + Z.of_nat (Z.to_nat (bound - first)) → f i = g i)
    by (intros i Hi; apply Hfg; lia).
  clear Hfg. revert first Hin. intros first. generalize (Z.to_nat (bound - first)). intros n.
  revert first. induction n as [|n IH]; intros first Hin; [done|]. cbn [each].
  rewrite (Hin first), (IH (first + 1)); [done|..]; intros; try apply Hin; lia.
Qed.

(** *** Rows

    [at_ w m y x] is the word in column [x] of row [y], rows being [w] words. *)
Definition at_ (w : Z) (m : window) (y x : Z) : option Z := words m !! Z.to_nat (y * w + x).

(** A window that keeps what is stored, with room for [h] rows. *)
Definition rows_ok (w h : Z) (m : window) : Prop := ram m = true ∧ 0 < w ∧ h * w ≤ zlen (words m).

Lemma row_inj w y x y' x' :
  0 ≤ x < w → 0 ≤ x' < w → y * w + x = y' * w + x' → y = y' ∧ x = x'.
Proof.
  intros Hx Hx' E. destruct (Z.lt_trichotomy y y') as [?|[->|?]]; [nia| |nia]. split; lia.
Qed.
Lemma row_in w h y x : 0 ≤ y < h → 0 ≤ x < w → 0 ≤ y * w + x < h * w.
Proof. nia. Qed.

Lemma store_wp i v (m : window) :
  ram m = true → 0 ≤ i < zlen (words m) →
  wp (store i v) (λ _ m', m' = Window (<[Z.to_nat i := v]> (words m)) true) m.
Proof.
  intros Hr Hi. exists tt. eexists. unfold store. rewrite (proj2 (Z.leb_le _ _)), (proj2 (Z.ltb_lt _ _)) by lia.
  rewrite Hr. done.
Qed.

(** A store to a cell of the grid. *)
Lemma store_at w h y x v (m : window) :
  rows_ok w h m → 0 ≤ y < h → 0 ≤ x < w →
  wp (store (y * w + x) v) (λ _ m', rows_ok w h m' ∧ zlen (words m') = zlen (words m) ∧
    ∀ y' x', 0 ≤ y' → 0 ≤ x' < w →
      at_ w m' y' x' = if (y' =? y) && (x' =? x) then Some v else at_ w m y' x') m.
Proof.
  intros (Hr & Hw & Hl) Hy Hx. pose proof (row_in w h y x Hy Hx) as Hin.
  eapply wp_mono; [apply store_wp; [done|lia]|]. intros _ m' ->.
  assert (Hlen : zlen (<[Z.to_nat (y * w + x) := v]> (words m)) = zlen (words m))
    by (unfold zlen; by rewrite length_insert).
  split; [split_and!; cbn [words ram]; [done|done|by rewrite Hlen]|]. split; [done|].
  intros y' x' Hy' Hx'. unfold at_. cbn [words].
  destruct (Z.eqb_spec y' y) as [->|Hne]; [destruct (Z.eqb_spec x' x) as [->|Hne]|]; cbn [andb].
  - apply list_lookup_insert_eq. unfold zlen in *. lia.
  - apply list_lookup_insert_ne. intros E. apply Hne. lia.
  - apply list_lookup_insert_ne. intros E. apply Hne.
    assert (0 ≤ y' * w) by nia. eapply (row_inj w y' x' y x); [done|done|lia].
Qed.

(** Copying row [r] to row [r'] changes that row alone. *)
Lemma copy_row_at w h r r' (m : window) :
  rows_ok w h m → 0 ≤ r < h → 0 ≤ r' < h →
  wp (copy_words (r' * w) (r * w) w) (λ _ m', rows_ok w h m' ∧ zlen (words m') = zlen (words m) ∧
    ∀ y x, 0 ≤ y < h → 0 ≤ x < w → at_ w m' y x = at_ w m (if y =? r' then r else y) x) m.
Proof.
  intros (Hr & Hw & Hl) Hrr Hrr'.
  assert (Hf : ∀ q, 0 ≤ q < h → 0 ≤ q * w ∧ q * w + w ≤ zlen (words m)) by (intros; nia).
  destruct (Hf r Hrr), (Hf r' Hrr').
  destruct (slice_is_Some (words m) (r * w) w) as [l El]; [lia..|].
  pose proof (slice_zlen _ _ _ _ El) as Hll.
  destruct (splice_is_Some (words m) (r' * w) l) as [l' El']; [lia..|].
  pose proof (splice_zlen _ _ _ _ El') as Hll'.
  exists tt, (Window l' true). unfold copy_words. rewrite El. cbn [mbind option_bind]. rewrite El', Hr.
  split; [done|]. split; [split_and!; cbn [words ram]; [done..|lia]|]. split; [done|].
  intros y x Hy Hx. unfold at_. cbn [words]. rewrite (lookup_splice _ _ _ _ _ El'). apply slice_Some in El as (_ & _ & _ & ->).
  assert (Hlw : length (take (Z.to_nat w) (drop (Z.to_nat (r * w)) (words m))) = Z.to_nat w)
    by (unfold zlen in *; lia). rewrite Hlw. clear El'.
  destruct (Z.eqb_spec y r') as [->|Hne].
  - rewrite decide_True by nia. rewrite lookup_take_lt by nia. rewrite lookup_drop. f_equal. nia.
  - rewrite decide_False; [done|]. intros [? ?]. apply Hne.
    assert (r' * w ≤ y * w + x < r' * w + w) by nia. nia.
Qed.

(** *** Scrolling

    [for (r = lines; r < h; r++) memcpy(row r - lines, row r)]: every row but
    the last [lines] is the one [lines] below. *)
Lemma shift_rows_wp w h lines (m : window) :
  rows_ok w h m → 0 < lines ≤ h →
  wp (upto lines h (λ r, copy_words ((r - lines) * w) (r * w) w)) (λ _ m', rows_ok w h m' ∧
    zlen (words m') = zlen (words m) ∧
    ∀ y x, 0 ≤ y < h → 0 ≤ x < w → at_ w m' y x = at_ w m (if y <? h - lines then y + lines else y) x) m.
Proof.
  intros Hm Hn.
  apply (wp_upto (λ r m', rows_ok w h m' ∧ zlen (words m') = zlen (words m) ∧
    ∀ y x, 0 ≤ y < h → 0 ≤ x < w → at_ w m' y x = at_ w m (if y <? r - lines then y + lines else y) x));
    [lia| |].
  - split; [done|]. split; [done|]. intros y x Hy Hx. by rewrite (proj2 (Z.ltb_ge _ _)) by lia.
  - intros r m1 Hr (Hm1 & Hl1 & H1).
    eapply wp_mono; [apply (copy_row_at w h r (r - lines) m1); [done|lia..]|].
    intros _ m2 (Hm2 & Hl2 & H2). split; [done|]. split; [congruence|]. intros y x Hy Hx.
    rewrite H2 by done. destruct (Z.eqb_spec y (r - lines)) as [->|Hne].
    + rewrite H1, (proj2 (Z.ltb_ge r (r - lines))), (proj2 (Z.ltb_lt (r - lines) (r + 1 - lines))) by lia.
      f_equal; lia.
    + rewrite H1 by done. destruct (Z.ltb_spec y (r - lines)), (Z.ltb_spec y (r + 1 - lines)); done || lia.
Qed.
