(* ===== verification/Console.v ===== *)
(** * drivers/gpu/console.c, console.h: the console

    The layer between kprintf and a display. [console_ops] is what a display
    registers; the class [ConsoleLaws] is what the console expects of it, and
    [VgaText] and [FbConsole] are its two implementations. The theorems
    relate the console to an abstract terminal: a grid of cells and a cursor. *)
From S2P Require Import Prelude KString.

Definition CON_NORMAL : Z := 0x0F.

(** A display of type [D] and its operations; a NULL pointer is [None]. *)
Record console_ops (D : Type) := ConsoleOps {
  cols : Z;
  rows : Z;
  clear : option (M D unit);
  putc_at : Z → Z → Z → Z → M D unit;
  scroll : option (Z → M D unit);
}.
Arguments ConsoleOps {D}.
Arguments cols {D}.
Arguments rows {D}.
Arguments clear {D}.
Arguments putc_at {D}.
Arguments scroll {D}.

Section console.
Context {D : Type}.
(** [__console_fallback_putc]: an architecture may override the weak one. *)
Variable fallback_putc : Z → M D unit.

Definition weak_fallback_putc (ch : Z) : M D unit := ret tt.

Record console := Console {
  con : option (console_ops D);
  con_col : Z;
  con_row : Z;
  con_attr : Z;
  display : D;
}.
Definition console_boot (d : D) : console := Console None 0 0 CON_NORMAL d.

Definition set_cursor (col row : Z) : M console unit :=
  modify (λ s, Console (con s) col row (con_attr s) (display s)).
Definition on_display {A} (m : M D A) : M console A := λ s,
  '(a, d) ← m (display s); Some (a, Console (con s) (con_col s) (con_row s) (con_attr s) d).

(** [x + 1] on an int: past INT_MAX it is undefined behaviour. *)
Definition inc_int {S} (x : Z) : M S Z := λ s, if x =? 2147483647 then None else Some (x + 1, s).

Definition clear_display (o : option (console_ops D)) : M console unit :=
  match o ≫= clear with Some f => on_display f | None => ret tt end.

Definition console_install (ops : option (console_ops D)) : M console unit :=
  modify (λ s, Console ops 0 0 (con_attr s) (display s)) ;;
  clear_display ops.

Definition console_set_attr (attr : Z) : M console unit :=
  modify (λ s, Console (con s) (con_col s) (con_row s) attr (display s)).
Definition console_get_attr : M console Z := gets con_attr.

Definition console_clear : M console unit :=
  set_cursor 0 0 ;;
  let* o := gets con in
  clear_display o.

(** The switch of [console_putc]. *)
Definition put_char (o : console_ops D) (c : Z) : M console unit :=
  let* col := gets con_col in
  let* row := gets con_row in
  let* attr := gets con_attr in
  if c =? 10 then
    let* row := inc_int row in
    set_cursor 0 row
  else if c =? 13 then set_cursor 0 row
  else if c =? 8 then
    if 0 <? col then
      set_cursor (col - 1) row ;;
      on_display (putc_at o (col - 1) row 32 attr)
    else ret tt
  else
    on_display (putc_at o col row c attr) ;;
    let* col := inc_int col in
    set_cursor col row.

(** The lines that follow it. *)
Definition scroll_down (o : console_ops D) : M console unit :=
  let* row := gets con_row in
  if rows o <=? row then
    let lines := row - rows o + 1 in
    match scroll o, clear o with
    | Some f, _ => on_display (f lines)
    | None, Some f => on_display f
    | None, None => ret tt
    end ;;
    let* col := gets con_col in
    set_cursor col (rows o - 1)
  else ret tt.

Definition console_putc (c : Z) : M console unit :=
  let* o := gets con in
  match o with
  | None => on_display (fallback_putc c)
  | Some o => put_char o c ;; scroll_down o
  end.

Fixpoint console_print (s : list Z) : M console unit :=
  match s with
  | [] => fault
  | c :: s => if c =? 0 then ret tt else console_putc c ;; console_print s
  end.

Definition console_print_c (s : list Z) (attr : Z) : M console unit :=
  let* old := gets con_attr in
  console_set_attr attr ;;
  console_print s ;;
  console_set_attr old.

Definition console_flush : M console unit := ret tt.
End console.
Arguments console : clear implicits.

(** ** The abstract terminal

    A cell is a character and its colours; a grid gives the cell at each row
    and column. *)

Definition cell : Type := Z * Z.
Definition grid : Type := Z → Z → cell.
Definition blank : cell := (32, CON_NORMAL).

Definition put (row col : Z) (x : cell) (g : grid) : grid :=
  λ r c, if (r =? row) && (c =? col) then x else g r c.
(** All rows of a screen of [h] move up by [n]. *)
Definition scrolled (h n : Z) (g : grid) : grid :=
  λ r c, if r <? h - n then g (r + n) c else blank.

Record term := Term { tgrid : grid; tcol : Z; trow : Z; tattr : Z }.

Definition line_feed (h : Z) (t : term) : term :=
  if trow t + 1 <? h then Term (tgrid t) 0 (trow t + 1) (tattr t)
  else Term (scrolled h 1 (tgrid t)) 0 (h - 1) (tattr t).

Definition term_putc (h c : Z) (t : term) : term :=
  if c =? 10 then line_feed h t
  else if c =? 13 then Term (tgrid t) 0 (trow t) (tattr t)
  else if c =? 8 then
    if 0 <? tcol t then Term (put (trow t) (tcol t - 1) (32, tattr t) (tgrid t)) (tcol t - 1) (trow t) (tattr t) else t
  else Term (put (trow t) (tcol t) (c, tattr t) (tgrid t)) (tcol t + 1) (trow t) (tattr t).

Definition term_print (h : Z) (s : list Z) (t : term) : term := foldl (λ t c, term_putc h c t) t s.

(** Printed from column [col], no line of the text is longer than [w]. *)
Fixpoint fits (w col : Z) (s : list Z) : bool :=
  match s with
  | [] => true
  | c :: s =>
      if (c =? 10) || (c =? 13) then fits w 0 s
      else if c =? 8 then fits w (Z.max 0 (col - 1)) s
      else (col <? w) && fits w (col + 1) s
  end.

Lemma term_print_app h a b t : term_print h (a ++ b) t = term_print h b (term_print h a t).
Proof. apply foldl_app. Qed.

(** The cursor moves by one column a character at most, and a text shorter than
    the rest of the line fits. *)
Lemma term_print_col h s : ∀ t, 0 ≤ tcol t → 0 ≤ tcol (term_print h s t) ≤ tcol t + zlen s.
Proof.
  induction s as [|c s IH]; intros t Ht; [unfold zlen; cbn; lia|]. rewrite zlen_cons.
  change (term_print h (c :: s) t) with (term_print h s (term_putc h c t)).
  assert (Hc : 0 ≤ tcol (term_putc h c t) ≤ tcol t + 1).
  { unfold term_putc, line_feed. repeat case_if; cbn [tcol]; bool_prop; lia. }
  specialize (IH (term_putc h c t)). lia.
Qed.
Lemma fits_short w s : ∀ col, 0 ≤ col → col + zlen s ≤ w → fits w col s = true.
Proof.
  induction s as [|c s IH]; intros col Hc Hw; [done|]. rewrite zlen_cons in Hw. pose proof (zlen_nonneg s). cbn [fits].
  destruct ((c =? 10) || (c =? 13)); [apply IH; lia|]. destruct (c =? 8); [apply IH; lia|].
  rewrite (proj2 (Z.ltb_lt col w)) by lia. apply IH; lia.
Qed.

(** ** What the console expects of a display

    [shows g d]: the display [d] shows the grid [g]. [reach] is how far right it
    can be asked to draw: a display that clips has no limit. *)
Class ConsoleLaws {D} (o : console_ops D) := {
  ready : D → Prop;
  shows : grid → D → Prop;
  reach : Z;
  law_size : 0 < reach ≤ 2147483647 ∧ 0 < rows o < 2147483647;
  law_ready : ∀ g d, shows g d → ready d;
  law_clear : ∀ d, ready d → ∃ f, clear o = Some f ∧ wp f (λ _ d', shows (λ _ _, blank) d') d;
  law_putc : ∀ g d row col c attr,
    shows g d → 0 ≤ row < rows o → 0 ≤ col < reach → byte_ok c → byte_ok attr →
    wp (putc_at o col row c attr) (λ _ d', shows (put row col (c, attr) g) d') d;
  law_scroll : ∀ g d n, shows g d → 0 < n ≤ rows o →
    ∃ f, scroll o = Some f ∧ wp (f n) (λ _ d', shows (scrolled (rows o) n g) d') d;
}.

(** *** The console shows the terminal *)

Section laws.
Context {D : Type} (o : console_ops D) `{!ConsoleLaws o} (fallback : Z → M D unit).

Record represents (t : term) (s : console D) : Prop := {
  rep_con : con s = Some o;
  rep_col : con_col s = tcol t;
  rep_row : con_row s = trow t;
  rep_attr : con_attr s = tattr t;
  rep_byte : byte_ok (tattr t);
  rep_cursor : 0 ≤ tcol t ≤ reach (o := o) ∧ 0 ≤ trow t < rows o;
  rep_shows : shows (tgrid t) (display s);
}.

Lemma on_display_wp {A} (m : M D A) Q (s : console D) :
  wp m (λ a d, Q a (Console (con s) (con_col s) (con_row s) (con_attr s) d)) (display s) →
  wp (on_display m) Q s.
Proof. intros (a & d & E & HQ). exists a. eexists. unfold on_display. by rewrite E. Qed.

Lemma inc_int_wp {S} x Q (s : S) : x < 2147483647 → Q (x + 1) s → wp (inc_int x) Q s.
Proof. intros Hx HQ. exists (x + 1), s. unfold inc_int. by rewrite (proj2 (Z.eqb_neq _ _)) by lia. Qed.

(** The cursor is on the screen: nothing scrolls. *)
Lemma scroll_down_rest (s : console D) Q : con_row s < rows o → Q tt s → wp (scroll_down o) Q s.
Proof. intros Hr HQ. unfold scroll_down. wp_pure. rewrite (proj2 (Z.leb_gt _ _)) by lia. by apply wp_ret. Qed.

Lemma putc_wp c t (s : console D) :
  represents t s → byte_ok c → fits (reach (o := o)) (tcol t) [c] = true →
  wp (console_putc fallback c) (λ _, represents (term_putc (rows o) c t)) s.
Proof.
  intros [Hc Hcol Hrow Hat Hab [Hcc Hcr] Hs] Hb Hfit. destruct (law_size (o := o)) as [Hsw Hsh].
  unfold console_putc. wp_pure. rewrite Hc. apply wp_bind. unfold put_char. wp_pure.
  rewrite Hcol, Hrow, Hat. unfold term_putc. cbn [fits] in Hfit.
  destruct (Z.eqb_spec c 10) as [->|H10].
  - apply wp_bind, inc_int_wp; [lia|]. apply wp_modify. unfold line_feed.
    destruct (Z.ltb_spec (trow t + 1) (rows o)).
    + apply scroll_down_rest; [done|]. split; cbn [con con_col con_row con_attr tcol trow tattr]; done || lia.
    + unfold scroll_down. wp_pure. cbn [con_row]. rewrite (proj2 (Z.leb_le _ _)) by lia.
      destruct (law_scroll (o := o) _ _ 1 Hs ltac:(lia)) as (f & Ef & Hf). rewrite Ef. cbv iota.
      replace (trow t + 1 - rows o + 1) with 1 by lia.
      apply wp_bind, on_display_wp. cbn [display]. eapply wp_mono; [exact Hf|].
      intros [] d' Hd'. wp_pure. apply wp_modify.
      split; cbn [con con_col con_row con_attr tcol trow tattr]; done || lia.
  - destruct (Z.eqb_spec c 13) as [->|H13]; cbn [orb] in Hfit.
    { apply wp_modify, scroll_down_rest; [cbn; lia|].
      split; cbn [con con_col con_row con_attr tcol trow tattr]; done || lia. }
    destruct (Z.eqb_spec c 8) as [->|H8].
    + destruct (Z.ltb_spec 0 (tcol t)).
      * wp_pure. apply on_display_wp. cbn [display].
        eapply wp_mono; [apply (law_putc (o := o) _ _ _ _ 32 _ Hs); [lia|lia|by split|done]|].
        intros [] d' Hd'. apply scroll_down_rest; [cbn; lia|].
        split; cbn [con con_col con_row con_attr tcol trow tattr]; done || lia.
      * apply wp_ret, scroll_down_rest; [lia|]. by split.
    + rewrite andb_true_r in Hfit. bool_prop.
      apply wp_bind, on_display_wp.
      eapply wp_mono; [apply (law_putc (o := o) _ _ _ _ c _ Hs); done || lia|].
      intros [] d' Hd'. cbn beta. apply wp_bind, inc_int_wp; [lia|]. apply wp_modify, scroll_down_rest; [cbn; lia|].
      split; cbn [con con_col con_row con_attr tcol trow tattr]; done || lia.
Qed.

Lemma fits_cons w c s t : 0 ≤ tcol t → fits w (tcol t) (c :: s) = true →
  fits w (tcol t) [c] = true ∧ fits w (tcol (term_putc (rows o) c t)) s = true.
Proof.
  intros Ht H. cbn [fits] in *. unfold term_putc, line_feed. destruct (c =? 10); cbn [orb] in *.
  { split; [done|]. by case_if. }
  destruct (c =? 13); [by split|]. destruct (c =? 8).
  - split; [done|]. destruct (Z.ltb_spec 0 (tcol t)); cbn [tcol].
    + by rewrite Z.max_r in H by lia.
    + rewrite Z.max_l in H by lia. by replace (tcol t) with 0 by lia.
  - bool_prop. cbn [tcol]. split; [|done]. by rewrite andb_true_r, (proj2 (Z.ltb_lt _ _)) by lia.
Qed.

(** A whole string. *)
Lemma print_wp txt rest : ∀ t (s : console D),
  represents t s → nonul txt → fits (reach (o := o)) (tcol t) txt = true →
  wp (console_print fallback (txt ++ 0 :: rest)) (λ _, represents (term_print (rows o) txt t)) s.
Proof.
  induction txt as [|c txt IH]; intros t s Ht Hn Hf; [by apply wp_ret|].
  inversion_clear Hn as [|? ? [Hc0 Hcb] Hn']. cbn [app console_print].
  rewrite (proj2 (Z.eqb_neq c 0)) by done.
  destruct (fits_cons _ _ _ _ (proj1 (proj1 (rep_cursor _ _ Ht))) Hf) as [Hf1 Hf2].
  wp_apply (putc_wp c t s Ht Hcb Hf1). intros _ s1 H1. by apply IH.
Qed.

Lemma install_wp (s : console D) : ready (o := o) (display s) → byte_ok (con_attr s) →
  wp (console_install (Some o)) (λ _, represents (Term (λ _ _, blank) 0 0 (con_attr s))) s.
Proof.
  intros Hr Ha. destruct (law_size (o := o)). unfold console_install. wp_pure. unfold clear_display.
  destruct (law_clear (o := o) _ Hr) as (f & Ef & Hf). cbn [mbind option_bind]. rewrite Ef.
  apply on_display_wp. eapply wp_mono; [exact Hf|]. intros [] d' Hd'.
  split; cbn [con con_col con_row con_attr tcol trow tattr]; done || lia.
Qed.
Lemma console_clear_wp (s : console D) : con s = Some o → ready (o := o) (display s) → byte_ok (con_attr s) →
  wp console_clear (λ _, represents (Term (λ _ _, blank) 0 0 (con_attr s))) s.
Proof.
  intros Hc Hr Ha. destruct (law_size (o := o)). unfold console_clear. wp_pure. cbn [con]. rewrite Hc. unfold clear_display.
  destruct (law_clear (o := o) _ Hr) as (f & Ef & Hf). cbn [mbind option_bind]. rewrite Ef.
  apply on_display_wp. eapply wp_mono; [exact Hf|]. intros [] d' Hd'.
  split; cbn [con con_col con_row con_attr tcol trow tattr]; done || lia.
Qed.
End laws.
