(* ===== verification/Kprintf.v ===== *)
(** * lib/printk.c: printing on the console

    [kprintf] and [kputs], over any console: the formatter of [Printk] fills the
    buffer, [Console] shows it. What a call prints, as a text, is [printed]; on a
    display that keeps its laws, the console then shows the abstract terminal
    after that text. *)
From S2P Require Import Prelude KString Printk Console.

(** What the compiler, the linker and the build decide: the width of the argument
    slots, what is at an address, where the literals are, what lies behind the
    arguments of the call with a format, the contents of the uninitialised buffer
    of [kprintf], and the version. *)
Record linked := Linked {
  wide : bool;
  str : Z → option (list Z);
  addr : list Z → Z;
  behind : list Z → va_list;
  stackbuf : list Z;
  KERNEL_VERSION : list Z;
}.
Definition NL : list Z := [10].

(** The slots of a 64-bit argument. *)
Definition slots64 (wide : bool) (v : Z) : va_list := if wide then [v] else [u32 v; Z.shiftr v 32].

Section print.
Context {D : Type} (L : linked) (fallback : Z → M D unit).

Definition kprintf (fmt : list Z) (args : va_list) : M (console D) unit :=
  let* b := lift (Printk.kprintf (wide L) (str L) (stackbuf L) (fmt ++ [0]) (args ++ behind L fmt)) in
  console_print fallback b.
Definition kputs (s : list Z) : M (console D) unit :=
  console_print fallback (s ++ [0]) ;;
  console_putc fallback 10.
End print.

(** ** What is printed *)

Section text.
Context (L : linked).

(** The text of a call of [kprintf], when the formatter finds its arguments, and
    the part of it that fits in the buffer. *)
Definition text_of (fmt : list Z) (args : va_list) : option (list Z) :=
  text (wide L) (str L) (S (length (fmt ++ [0]))) (fmt ++ [0]) (args ++ behind L fmt).
Definition printed (fmt : list Z) (args : va_list) : list Z := take 511 (default [] (text_of fmt args)).
Definition printable (fmt : list Z) (args : va_list) : Prop :=
  ∃ l, text_of fmt args = Some l ∧ nonul l ∧ zlen l < 2 ^ 31.

Lemma printed_eq fmt args l : text_of fmt args = Some l → zlen l ≤ 511 → printed fmt args = l.
Proof. intros E Hl. unfold printed. rewrite E. cbn. apply take_ge. unfold zlen in Hl. lia. Qed.
Lemma printed_nonul fmt args : printable fmt args → nonul (printed fmt args).
Proof. intros (l & E & Hn & _). unfold printed. rewrite E. by apply list.Forall_take. Qed.

(** The buffer that is shown. *)
Lemma kprintf_buffer fmt args : printable fmt args → zlen (stackbuf L) = 512 → ∃ rest,
  Printk.kprintf (wide L) (str L) (stackbuf L) (fmt ++ [0]) (args ++ behind L fmt) = Some (printed fmt args ++ 0 :: rest).
Proof.
  intros (l & El & _ & Hl) Hb. unfold Printk.kprintf.
  rewrite (kvsnprintf_run (wide L) (str L) (stackbuf L) 512 _ _ l El Hl) by lia. unfold truncated. cbv zeta. change (512 - 1) with 511.
  assert (Ep : take (Z.to_nat (Z.min (zlen l) 511)) l = printed fmt args).
  { unfold printed. rewrite El. change (default [] (Some l)) with l. destruct (Z.le_ge_cases (zlen l) 511).
    - rewrite Z.min_l by done. rewrite !take_ge; [done|unfold zlen in *; lia..].
    - by rewrite Z.min_r. }
  cbn [mbind option_bind]. rewrite Ep. eexists. reflexivity.
Qed.
End text.
(** Terms that mention what is printed are compared without formatting it. *)
#[global] Strategy 100 [printed text_of].

(** On a display that keeps its laws. *)
Lemma kprintf_wp {D} (o : console_ops D) `{!ConsoleLaws o} L fallback fmt args t (s : console D) :
  printable L fmt args → zlen (stackbuf L) = 512 → represents o t s →
  fits (reach (o := o)) (tcol t) (printed L fmt args) = true →
  wp (kprintf L fallback fmt args) (λ _, represents o (term_print (rows o) (printed L fmt args) t)) s.
Proof.
  intros Hp Hb Hs Hf. destruct (kprintf_buffer L fmt args Hp Hb) as [rest E]. unfold kprintf. rewrite E.
  apply wp_bind. eapply wp_lift; [reflexivity|]. by apply (print_wp o); [|apply printed_nonul|].
Qed.
Lemma kputs_wp {D} (o : console_ops D) `{!ConsoleLaws o} fallback l t (s : console D) :
  nonul l → represents o t s → fits (reach (o := o)) (tcol t) l = true →
  wp (kputs fallback l) (λ _, represents o (term_print (rows o) (l ++ NL) t)) s.
Proof.
  intros Hn Hs Hf. unfold kputs. wp_apply (print_wp o fallback l []); [exact Hs|exact Hn|exact Hf|]. intros [] s1 Hs1.
  rewrite term_print_app. by apply (putc_wp o).
Qed.
