(* ===== verification/VgaText.v ===== *)
(** * drivers/gpu/vga_text.c: VGA text mode

    The 80 by 25 words at 0xB8000 and the cursor registers behind the ports. It
    is an instance of [ConsoleLaws]. *)
From S2P Require Import Prelude KString Vram Ports Console.

Definition VGA_COLS_ : Z := 80.
Definition VGA_ROWS_ : Z := 25.

Section vga.
Context {P : Type} `{Ports P}.

Record vga := Vga { vt : window; vga_hw : P }.
#[export] Instance vga_ports : HasPorts vga P :=
  {| ports := vga_hw; set_ports := λ p s, Vga (vt s) p |}.

Definition on_vt {A} (m : M window A) : M vga A := λ s,
  '(a, w) ← m (vt s); Some (a, Vga w (vga_hw s)).

(** The word of a character: [(u16)(u8)c | ((u16)attr << 8)]. *)
Definition vt_word (c attr : Z) : Z := u16 (Z.lor (u8 c) (Z.shiftl attr 8)).

Definition vt_clear : M vga unit :=
  on_vt (upto 0 (VGA_COLS_ * VGA_ROWS_) (λ i, store i (vt_word 32 CON_NORMAL))).

Definition vt_scroll (lines : Z) : M vga unit :=
  on_vt (
    upto lines VGA_ROWS_ (λ r, copy_words ((r - lines) * VGA_COLS_) (r * VGA_COLS_) VGA_COLS_) ;;
    upto (VGA_ROWS_ - lines) VGA_ROWS_ (λ r,
      upto 0 VGA_COLS_ (λ c, store (r * VGA_COLS_ + c) (vt_word 32 CON_NORMAL)))).

Definition vt_putc_at (col row c attr : Z) : M vga unit :=
  if (col <? 0) || (VGA_COLS_ <=? col) || (row <? 0) || (VGA_ROWS_ <=? row) then ret tt
  else
    on_vt (store (row * VGA_COLS_ + col) (vt_word c attr)) ;;
    let pos := u16 (row * VGA_COLS_ + col) in
    io_outb 0x3D4 0x0F ;; io_outb 0x3D5 (u8 (Z.land pos 0xFF)) ;;
    io_outb 0x3D4 0x0E ;; io_outb 0x3D5 (u8 (Z.land (Z.shiftr pos 8) 0xFF)).

Definition vga_text_ops : console_ops vga :=
  ConsoleOps VGA_COLS_ VGA_ROWS_ (Some vt_clear) vt_putc_at (Some vt_scroll).

(** [console_init] of console.c: the console starts on VGA text. *)
Definition console_init : M (console vga) unit := console_install (Some vga_text_ops).

(** ** Text memory shows a grid *)

Definition vga_ready (d : vga) : Prop := rows_ok VGA_COLS_ VGA_ROWS_ (vt d).
Definition vga_shows (g : grid) (d : vga) : Prop :=
  vga_ready d ∧
  ∀ row col, 0 ≤ row < VGA_ROWS_ → 0 ≤ col < VGA_COLS_ →
    at_ VGA_COLS_ (vt d) row col = Some (vt_word (g row col).1 (g row col).2).

Lemma on_vt_wp {A} (m : M window A) Q (d : vga) :
  wp m (λ a w, Q a (Vga w (vga_hw d))) (vt d) → wp (on_vt m) Q d.
Proof. intros (a & w & E & HQ). exists a. eexists. unfold on_vt. by rewrite E. Qed.

(** Blanking the words of whole rows. *)
Lemma blank_row_wp w h v r (m : window) :
  rows_ok w h m → 0 ≤ r < h →
  wp (upto 0 w (λ c, store (r * w + c) v)) (λ _ m', rows_ok w h m' ∧
    ∀ y x, 0 ≤ y < h → 0 ≤ x < w → at_ w m' y x = if y =? r then Some v else at_ w m y x) m.
Proof.
  intros Hm Hr. assert (0 < w) by apply Hm. eapply wp_mono.
  - apply (wp_upto (λ c m', rows_ok w h m' ∧ ∀ y x, 0 ≤ y < h → 0 ≤ x < w →
      at_ w m' y x = if (y =? r) && (x <? c) then Some v else at_ w m y x)); [lia| |].
    + split; [done|]. intros y x Hy Hx. by rewrite (proj2 (Z.ltb_ge x 0)), andb_false_r by lia.
    + intros c m1 Hc (Hm1 & H1). eapply wp_mono; [by apply (store_at w h)|].
      intros [] m2 (Hm2 & _ & H2). split; [done|]. intros y x Hy Hx. rewrite H2, H1 by (done || lia).
      destruct (Z.eqb_spec y r), (Z.eqb_spec x c), (Z.ltb_spec x c), (Z.ltb_spec x (c + 1)); done || lia.
  - intros [] m' (Hm' & H'). split; [done|]. intros y x Hy Hx.
    by rewrite H', (proj2 (Z.ltb_lt x w)), andb_true_r by (done || lia).
Qed.

Lemma blank_rows_wp w h v r0 (m : window) :
  rows_ok w h m → 0 ≤ r0 ≤ h →
  wp (upto r0 h (λ r, upto 0 w (λ c, store (r * w + c) v))) (λ _ m', rows_ok w h m' ∧
    ∀ y x, 0 ≤ y < h → 0 ≤ x < w → at_ w m' y x = if r0 <=? y then Some v else at_ w m y x) m.
Proof.
  intros Hm Hr. eapply wp_mono.
  - apply (wp_upto (λ r m', rows_ok w h m' ∧ ∀ y x, 0 ≤ y < h → 0 ≤ x < w →
      at_ w m' y x = if (r0 <=? y) && (y <? r) then Some v else at_ w m y x)); [lia| |].
    + split; [done|]. intros y x Hy Hx. destruct (Z.leb_spec r0 y), (Z.ltb_spec y r0); done || lia.
    + intros r m1 Hr1 (Hm1 & H1). eapply wp_mono; [apply (blank_row_wp w h); [done|lia]|].
      intros [] m2 (Hm2 & H2). split; [done|]. intros y x Hy Hx. rewrite H2, H1 by done.
      destruct (Z.eqb_spec y r), (Z.leb_spec r0 y), (Z.ltb_spec y r), (Z.ltb_spec y (r + 1)); done || lia.
  - intros [] m' (Hm' & H'). split; [done|]. intros y x Hy Hx.
    by rewrite H', (proj2 (Z.ltb_lt y h)), andb_true_r by (done || lia).
Qed.

(** [vt_clear] counts the words, not the rows. *)
Lemma fill_words_wp w h v (m : window) :
  rows_ok w h m → 0 ≤ h →
  wp (upto 0 (w * h) (λ i, store i v)) (λ _ m', rows_ok w h m' ∧
    ∀ y x, 0 ≤ y < h → 0 ≤ x < w → at_ w m' y x = Some v) m.
Proof.
  intros Hm Hh. assert (0 < w) by apply Hm. eapply wp_mono.
  - apply (wp_upto (λ i m', rows_ok w h m' ∧ ∀ y x, 0 ≤ y < h → 0 ≤ x < w →
      y * w + x < i → at_ w m' y x = Some v)); [nia| |].
    + split; [done|]. nia.
    + intros i m1 Hi (Hm1 & H1). rewrite (Z.div_mod i w) at 1 by lia.
      replace (w * (i / w) + i mod w) with (i / w * w + i mod w) by lia.
      assert (0 ≤ i / w < h).
      { split; [apply Z.div_pos; lia|]. apply Z.div_lt_upper_bound; lia. }
      pose proof (Z.mod_pos_bound i w). eapply wp_mono; [apply (store_at w h); [done|lia..]|].
      intros [] m2 (Hm2 & _ & Hst). split; [done|]. intros y x Hy Hx Hlt. rewrite Hst by lia.
      destruct (Z.eqb_spec y (i / w)), (Z.eqb_spec x (i mod w)); cbn [andb]; [done|..];
        apply H1; try done; pose proof (Z.div_mod i w); nia.
  - intros [] m' (Hm' & H'). split; [done|]. intros y x Hy Hx. apply H'; nia || done.
Qed.

(** A character past the right edge is dropped: no visible cell changes. *)
Lemma vt_putc_wp g (d : vga) row col c attr :
  vga_shows g d → 0 ≤ row < VGA_ROWS_ → 0 ≤ col →
  wp (vt_putc_at col row c attr) (λ _ d', vga_shows (put row col (c, attr) g) d') d.
Proof.
  intros [Hr Hg] Hrow Hcol. unfold vt_putc_at.
  rewrite (proj2 (Z.ltb_ge col 0)), (proj2 (Z.ltb_ge row 0)), (proj2 (Z.leb_gt _ row)) by lia.
  rewrite !orb_false_r. cbn [orb]. destruct (Z.leb_spec VGA_COLS_ col).
  { apply wp_ret. split; [exact Hr|]. intros y x Hy Hx. unfold put.
    rewrite (proj2 (Z.eqb_neq x col)), andb_false_r by lia. by apply Hg. }
  apply wp_bind, on_vt_wp.
  eapply wp_mono; [by apply (store_at VGA_COLS_ VGA_ROWS_)|]. intros [] w (Hw & _ & Hat).
  unfold io_outb, io_write. wp_pure. apply wp_modify.
  split; [exact Hw|]. intros y x Hy Hx. cbn [vt set_ports vga_ports]. rewrite Hat by (done || lia).
  unfold put. by destruct ((y =? row) && (x =? col)); [|apply Hg].
Qed.

#[export] Instance vga_laws : ConsoleLaws vga_text_ops.
Proof.
  refine {| ready := vga_ready; shows := vga_shows; reach := 2147483647 |}.
  - by cbv.
  - by intros g d [? _].
  - intros d Hd. eexists. split; [done|]. apply on_vt_wp.
    eapply wp_mono; [apply (fill_words_wp VGA_COLS_ VGA_ROWS_); [done|by cbv]|].
    intros [] w (Hw & Hat). split; [exact Hw|]. by apply Hat.
  - intros. apply vt_putc_wp; done || lia.
  - intros g d n [Hd Hg] Hn. eexists. split; [done|]. cbn [rows vga_text_ops] in *.
    apply on_vt_wp, wp_bind. eapply wp_mono; [by apply shift_rows_wp|].
    intros [] w1 (Hw1 & _ & H1).
    eapply wp_mono; [apply (blank_rows_wp VGA_COLS_ VGA_ROWS_); [done|lia]|].
    intros [] w2 (Hw2 & H2). split; [exact Hw2|]. intros y x Hy Hx. cbn [vt].
    rewrite H2, H1 by done. unfold scrolled.
    destruct (Z.leb_spec (VGA_ROWS_ - n) y), (Z.ltb_spec y (VGA_ROWS_ - n)); try lia; [done|]. apply Hg; lia.
Defined.

(** Refinement. From any contents of text memory, starting the console and
    printing a text leaves every visible cell as the abstract terminal shows it,
    for lines of any length that an int can count: what lies past column 80 is
    dropped, and the line is not wrapped. *)
Theorem vga_console_shows fallback (s : console vga) txt rest :
  vga_ready (display s) → byte_ok (con_attr s) →
  nonul txt → fits 2147483647 0 txt = true →
  let t := term_print VGA_ROWS_ txt (Term (λ _ _, blank) 0 0 (con_attr s)) in
  wp (console_init ;; console_print fallback (txt ++ 0 :: rest)) (λ _ s',
    con_col s' = tcol t ∧ con_row s' = trow t ∧
    ∀ row col, 0 ≤ row < VGA_ROWS_ → 0 ≤ col < VGA_COLS_ →
      at_ VGA_COLS_ (vt (display s')) row col = Some (vt_word (tgrid t row col).1 (tgrid t row col).2)) s.
Proof.
  intros Hd Ha Htxt Hfit t. wp_apply (install_wp vga_text_ops s); [done..|]. intros _ s1 H1.
  eapply wp_mono; [by apply (print_wp vga_text_ops fallback txt rest _ _ H1)|].
  intros [] s2 [_ Ecol Erow _ _ _ [_ Hg]]. done.
Qed.
End vga.
Arguments vga : clear implicits.

(** *** What the console leaves alone

    A property [I] of the ports' states before and after that writing the cursor
    registers has, every operation of the console has on this backend. *)
Section frame.
Context {P : Type} `{Ports P} (I : P → P → Prop) `{!PreOrder I} (fallback : Z → M (vga P) unit).
Context (Hout : ∀ port v p, port = 0x3D4 ∨ port = 0x3D5 → I p (outb port v p)).

Definition frames {A} (m : M (vga P) A) : Prop := ∀ d, wlp m (λ _ d', I (vga_hw d) (vga_hw d')) d.
Definition cframes {A} (m : M (console (vga P)) A) : Prop := ∀ s, con s = Some vga_text_ops →
  wlp m (λ _ s', con s' = Some vga_text_ops ∧ I (vga_hw (display s)) (vga_hw (display s'))) s.

Lemma frames_bind {A B} (m : M (vga P) A) (k : A → M (vga P) B) : frames m → (∀ a, frames (k a)) → frames (bind m k).
Proof.
  intros Hm Hk d. eapply wlp_call; [apply Hm|]. intros a d1 E1. eapply wlp_mono; [apply Hk|].
  intros b d2 E2. cbv beta in *. etrans; [exact E1|exact E2].
Qed.
Lemma frames_on_vt {A} (m : M window A) : frames (on_vt m).
Proof. intros d a d' E. unfold on_vt in E. destruct (m (vt d)) as [[b w]|]; [|done]. by injection E as <- <-; reflexivity. Qed.
Lemma frames_outb port v : port = 0x3D4 ∨ port = 0x3D5 → frames (io_outb port v).
Proof. intros Hp d. apply wlp_modify. cbn. apply Hout. by destruct Hp as [-> | ->]; [left|right]. Qed.
Lemma frames_ops : frames vt_clear ∧ (∀ n, frames (vt_scroll n)) ∧ (∀ col row c attr, frames (vt_putc_at col row c attr)).
Proof.
  split; [apply frames_on_vt|]. split; [intros n; apply frames_on_vt|]. intros col row c attr. unfold vt_putc_at.
  case_if; [intros d; apply wlp_ret; reflexivity|]. apply frames_bind; [apply frames_on_vt|intros []].
  repeat (apply frames_bind; [apply frames_outb; auto|intros _]). apply frames_outb; auto.
Qed.

Lemma cframes_bind {A B} (m : M (console (vga P)) A) (k : A → M (console (vga P)) B) :
  cframes m → (∀ a, cframes (k a)) → cframes (bind m k).
Proof.
  intros Hm Hk s Hs. eapply wlp_call; [by apply Hm|]. intros a s1 [Hs1 E1]. eapply wlp_mono; [by apply Hk|].
  intros b s2 [Hs2 E2]. split; [done|]. etrans; [exact E1|exact E2].
Qed.
Lemma cframes_ret {A} (a : A) : cframes (ret a).
Proof. intros s Hs. apply wlp_ret. by split. Qed.
Lemma cframes_gets {A} (f : console (vga P) → A) : cframes (gets f).
Proof. intros s Hs. by apply wlp_gets. Qed.
Lemma cframes_inc x : cframes (inc_int x).
Proof. intros s Hs a s' E. unfold inc_int in E. destruct (x =? _); [done|]. by injection E as <- <-. Qed.
Lemma cframes_cursor x y : cframes (set_cursor x y).
Proof. intros s Hs. by apply wlp_modify. Qed.
Lemma cframes_attr x : cframes (console_set_attr x).
Proof. intros s Hs. by apply wlp_modify. Qed.
Lemma cframes_display {A} (m : M (vga P) A) : frames m → cframes (on_display m).
Proof.
  intros Hm s Hs a s' E. unfold on_display in E. destruct (m (display s)) as [[b d]|] eqn:Em; [|done].
  injection E as <- <-. split; [done|]. apply (Hm _ _ _ Em).
Qed.

Lemma cframes_putc c : cframes (console_putc fallback c).
Proof.
  destruct frames_ops as (Kc & Ks & Kp). intros s Hs. unfold console_putc. apply wlp_bind, wlp_gets. rewrite Hs.
  revert s Hs. change (cframes (put_char vga_text_ops c ;; scroll_down vga_text_ops)). apply cframes_bind.
  - unfold put_char. do 3 (apply cframes_bind; [apply cframes_gets|intros ?]).
    repeat case_if; repeat first [apply cframes_ret | apply cframes_cursor | apply cframes_display, Kp
      | apply cframes_inc | apply cframes_bind; [|intros ?]].
  - intros []. unfold scroll_down. apply cframes_bind; [apply cframes_gets|intros row]. case_if; [|apply cframes_ret].
    apply cframes_bind; [apply cframes_display, Ks|intros []]. apply cframes_bind; [apply cframes_gets|intros col].
    apply cframes_cursor.
Qed.
Lemma cframes_print s : cframes (console_print fallback s).
Proof.
  induction s as [|c s IH]; [by intros s _ a s' E|]. cbn [console_print].
  case_if; [apply cframes_ret|]. apply cframes_bind; [apply cframes_putc|done].
Qed.
Lemma cframes_clear : cframes console_clear.
Proof.
  destruct frames_ops as (Kc & _). unfold console_clear. apply cframes_bind; [apply cframes_cursor|intros []].
  intros s Hs. apply wlp_bind, wlp_gets. rewrite Hs. by apply (cframes_display vt_clear Kc).
Qed.
Lemma init_frames s : wlp console_init (λ _ s', con s' = Some vga_text_ops ∧ I (vga_hw (display s)) (vga_hw (display s'))) s.
Proof.
  destruct frames_ops as (Kc & _). unfold console_init, console_install. apply wlp_bind, wlp_modify.
  exact (cframes_display vt_clear Kc (Console (Some vga_text_ops) 0 0 (con_attr s) (display s)) eq_refl).
Qed.
End frame.

(** *** Concrete ports *)

(** Ports nothing listens to. *)
Definition no_ports : Ports unit :=
  {| inb := λ _ p, (255, p); inw := λ _ p, (65535, p); inl := λ _ p, (4294967295, p);
     outb := λ _ _ p, p; outw := λ _ _ p, p; outl := λ _ _ p, p |}.

Definition demo_vga : console (vga unit) := console_boot (Vga (Window (zeros 2000) true) tt).

Lemma vga_console_shows_witness :
  let txt := chars "obsidian" ++ [10] in
  let t := term_print VGA_ROWS_ txt (Term (λ _ _, blank) 0 0 CON_NORMAL) in
  wp (console_init (H := no_ports) ;; console_print weak_fallback_putc (txt ++ 0 :: [])) (λ _ s',
    con_col s' = tcol t ∧ con_row s' = trow t ∧
    ∀ row col, 0 ≤ row < VGA_ROWS_ → 0 ≤ col < VGA_COLS_ →
      at_ VGA_COLS_ (vt (display s')) row col = Some (vt_word (tgrid t row col).1 (tgrid t row col).2)) demo_vga.
Proof.
  intros txt t. apply (vga_console_shows (H := no_ports) weak_fallback_putc demo_vga txt []); try by cbv.
  unfold txt. repeat constructor; by cbv.
Defined.
