(* ===== verification/FbConsole.v ===== *)
(** * drivers/gpu/fb_console.c: text on a framebuffer

    Glyphs of the 8 by 8 font in the video BIOS drawn twice as large. The video
    memory is a set of windows by physical address; [fb] selects one. The
    console is an instance of [ConsoleLaws] for every mode that fits its
    window: each cell shows its glyph pixel by pixel. *)
From stdpp Require Import gmap.
From S2P Require Import Prelude KString Vram Console.

Definition CELL : Z := 16.
Definition FB_BG : Z := 0xFF101418.

(** [struct gpu_device] of gpu.h. *)
Record gpu_device := GpuDevice {
  gname : option String.string;
  gvendor : Z;
  gdevice : Z;
  fb_active : bool;
  lfb_phys : Z;
  width : Z;
  height : Z;
  bpp : Z;
  pitch : Z;
}.

(** [rom] is the video BIOS at F000:FA6E. *)
Record fbcon := Fbcon {
  rom : list Z;
  font : list Z;
  vram : gmap Z window;
  fb : Z;
  fb_w : Z;
  fb_h : Z;
  fb_pitch_px : Z;
  cols_ : Z;
  rows_ : Z;
}.
Definition fb_boot (bios : list Z) (mem : gmap Z window) : fbcon := Fbcon bios (zeros (128 * 8)) mem 0 0 0 0 0 0.

Definition set_font (f : list Z) (d : fbcon) : fbcon :=
  Fbcon (rom d) f (vram d) (fb d) (fb_w d) (fb_h d) (fb_pitch_px d) (cols_ d) (rows_ d).
Definition set_vram (m : gmap Z window) (d : fbcon) : fbcon :=
  Fbcon (rom d) (font d) m (fb d) (fb_w d) (fb_h d) (fb_pitch_px d) (cols_ d) (rows_ d).

(** Accesses through [fb]. *)
Definition on_fb {A} (m : M window A) : M fbcon A := λ d,
  w ← vram d !! fb d;
  '(a, w) ← m w;
  Some (a, set_vram (<[fb d := w]> (vram d)) d).

Definition pal : list Z :=
  [0x00000000; 0x0000AAAA; 0x00AA0000; 0x00AAAA55;
   0x00550000; 0x005500AA; 0x0055AA00; 0x00AAAAAA;
   0x00555555; 0x005555FF; 0x0055FF55; 0x0055FFFF;
   0x00FF5555; 0x00FF55FF; 0x00FFFF55; 0x00FFFFFF].
Definition attr_fg_rgb (attr : Z) : Z := nth (Z.to_nat (Z.land attr 0x0F)) pal 0.

(** ** The font *)

Definition rom_at (i : Z) : M fbcon Z := λ d, v ← rom d !! Z.to_nat i; Some (v, d).
Definition font_at (i : Z) : M fbcon Z := λ d, v ← font d !! Z.to_nat i; Some (v, d).

Definition copy_bios_font : M fbcon bool :=
  let* first := rom_at 0 in
  let* real := for_ 1 1023 (λ i, let* x := rom_at i in ret (if x =? first then None else Some tt)) in
  match real with
  | None => ret false
  | Some _ =>
      upto 0 128 (λ g, upto 0 8 (λ b,
        let* x := rom_at (g * 8 + b) in
        modify (λ d, set_font (<[Z.to_nat (g * 8 + b) := x]> (font d)) d))) ;;
      let* a1 := font_at (65 * 8 + 1) in
      let* a3 := font_at (65 * 8 + 3) in
      if negb (truthy a1) && negb (truthy a3) then ret false
      else
        let* s3 := font_at (32 * 8 + 3) in
        ret (negb (truthy s3))
  end.

(** ** Drawing *)

(** The loop of [draw_cell] over one line of the glyph, [a] and [b] being the
    indices of the two lines of pixels. *)
Definition draw_line (bits fg a b : Z) : M window unit :=
  upto 0 8 (λ gx,
    let color := if has bits (Z.shiftr 0x80 gx) then fg else FB_BG in
    store (a + gx * 2) color ;; store (a + (gx * 2 + 1)) color ;;
    store (b + gx * 2) color ;; store (b + (gx * 2 + 1)) color).

Definition draw_glyph (f : list Z) (pitch_px col row c attr : Z) : M window unit :=
  let fg := attr_fg_rgb attr in
  let idx := Z.land (u8 c) 0x7F in
  let px := u32 (col * CELL) in
  let py := u32 (row * CELL) in
  upto 0 8 (λ gy,
    let* bits := lift (f !! Z.to_nat (idx * 8 + gy)) in
    let a := u32 (u32 (u32 (py + gy * 2) * pitch_px) + px) in
    draw_line bits fg a (a + pitch_px)).

Definition draw_cell (col row c attr : Z) : M fbcon unit :=
  let* f := gets font in
  let* p := gets fb_pitch_px in
  on_fb (draw_glyph f p col row c attr).

Definition fbc_clear : M fbcon unit :=
  let* h := gets fb_h in
  let* w := gets fb_w in
  let* p := gets fb_pitch_px in
  on_fb (upto 0 h (λ y, upto 0 w (λ x, store (u32 (y * p) + x) FB_BG))).

Definition fbc_scroll (lines : Z) : M fbcon unit :=
  let* rows := gets rows_ in
  let* cols := gets cols_ in
  let* p := gets fb_pitch_px in
  let row_bytes := u32 (u32 (CELL * p) * 4) in
  on_fb (upto lines rows (λ r,
    copy_words (u32 (u32 (u32 (r - lines) * CELL) * p)) (u32 (u32 (u32 r * CELL) * p)) (row_bytes / 4))) ;;
  upto (rows - lines) rows (λ r, upto 0 cols (λ c, draw_cell c r 32 CON_NORMAL)).

Definition fbc_putc_at (col row c attr : Z) : M fbcon unit := draw_cell col row c attr.

(** [fbc_ops], with the size [fb_console_install] gives it. *)
Definition fbc_ops (cols rows : Z) : console_ops fbcon :=
  ConsoleOps cols rows (Some fbc_clear) fbc_putc_at (Some fbc_scroll).

Definition fb_console_install (gpu : gpu_device) : M (console fbcon) unit :=
  if negb (fb_active gpu) then ret tt
  else
    let* ok := on_display copy_bios_font in
    if negb ok then ret tt
    else
      let w := width gpu in
      let h := height gpu in
      on_display (modify (λ d, Fbcon (rom d) (font d) (vram d) (lfb_phys gpu) w h (pitch gpu / 4) (w / CELL) (h / CELL))) ;;
      console_install (Some (fbc_ops (w / CELL) (h / CELL))).

(** ** Pixels

    The colour at line [y] and column [x] of a cell that shows [k]. *)
Definition pixel (f : list Z) (k : cell) (y x : Z) : Z :=
  if has (nth (Z.to_nat (Z.land (u8 k.1) 0x7F * 8 + y / 2)) f 0) (Z.shiftr 0x80 (x / 2))
  then attr_fg_rgb k.2 else FB_BG.

(** [d0] is the display the console was installed on: only the picture differs. *)
Record fb_ready (d0 : fbcon) (c r : Z) (d : fbcon) : Prop := {
  fb_size : cols_ d = c ∧ rows_ d = r ∧ 0 < c ∧ 0 < r;
  fb_mode : cols_ d = fb_w d / CELL ∧ rows_ d = fb_h d / CELL ∧ fb_w d ≤ fb_pitch_px d;
  fb_addr : fb_h d * fb_pitch_px d < 2 ^ 30;
  fb_window : ∃ w, vram d !! fb d = Some w ∧ rows_ok (fb_pitch_px d) (fb_h d) w;
  fb_font : length (font d) = 1024%nat;
  fb_space : ∀ i, 0 ≤ i < 8 → font d !! Z.to_nat (32 * 8 + i) = Some 0;
  fb_same : ∃ m, d = set_vram m d0;
}.

Definition draws (f : list Z) (p c r : Z) (g : grid) (w : window) : Prop :=
  ∀ row col y x, 0 ≤ row < r → 0 ≤ col < c → 0 ≤ y < CELL → 0 ≤ x < CELL →
    at_ p w (row * CELL + y) (col * CELL + x) = Some (pixel f (g row col) y x).

Definition fb_shows (d0 : fbcon) (c r : Z) (g : grid) (d : fbcon) : Prop :=
  fb_ready d0 c r d ∧ ∀ w, vram d !! fb d = Some w → draws (font d) (fb_pitch_px d) c r g w.

(** Both lines of a doubled pixel. *)
Lemma quad_wp p h y0 x0 v (m : window) :
  rows_ok p h m → 0 ≤ y0 → y0 + 2 ≤ h → 0 ≤ x0 → x0 + 2 ≤ p →
  wp (store (y0 * p + x0) v ;; store (y0 * p + (x0 + 1)) v ;;
      store ((y0 + 1) * p + x0) v ;; store ((y0 + 1) * p + (x0 + 1)) v) (λ _ m', rows_ok p h m' ∧
    ∀ y x, 0 ≤ y → 0 ≤ x < p → at_ p m' y x =
      if ((y0 <=? y) && (y <? y0 + 2)) && ((x0 <=? x) && (x <? x0 + 2)) then Some v else at_ p m y x) m.
Proof.
  intros Hm Hy0 Hy1 Hx0 Hx1.
  wp_apply (store_at p h y0 x0 v m Hm); [lia..|]. intros [] m1 (Hm1 & _ & A1).
  wp_apply (store_at p h y0 (x0 + 1) v m1 Hm1); [lia..|]. intros [] m2 (Hm2 & _ & A2).
  wp_apply (store_at p h (y0 + 1) x0 v m2 Hm2); [lia..|]. intros [] m3 (Hm3 & _ & A3).
  eapply wp_mono; [apply (store_at p h (y0 + 1) (x0 + 1) v m3 Hm3); lia|]. intros [] m4 (Hm4 & _ & A4).
  split; [done|]. intros y x Hy Hx. rewrite A4, A3, A2, A1 by done.
  destruct (Z.eqb_spec y y0), (Z.eqb_spec y (y0 + 1)), (Z.eqb_spec x x0), (Z.eqb_spec x (x0 + 1)),
    (Z.leb_spec y0 y), (Z.ltb_spec y (y0 + 2)), (Z.leb_spec x0 x), (Z.ltb_spec x (x0 + 2)); done || lia.
Qed.

(** One line of a glyph, [y0] and [x0] being where it goes. *)
Definition stroke (bits fg i : Z) : Z := if has bits (Z.shiftr 0x80 i) then fg else FB_BG.

Lemma draw_line_wp p h y0 x0 bits fg (m : window) :
  rows_ok p h m → 0 ≤ y0 → y0 + 2 ≤ h → 0 ≤ x0 → x0 + CELL ≤ p →
  wp (draw_line bits fg (y0 * p + x0) (y0 * p + x0 + p)) (λ _ m', rows_ok p h m' ∧
    ∀ y x, 0 ≤ y → 0 ≤ x < p → at_ p m' y x =
      if ((y0 <=? y) && (y <? y0 + 2)) && ((x0 <=? x) && (x <? x0 + CELL))
      then Some (stroke bits fg ((x - x0) / 2)) else at_ p m y x) m.
Proof.
  unfold CELL. intros Hm Hy0 Hy1 Hx0 Hx1.
  apply (wp_upto (λ gx m', rows_ok p h m' ∧ ∀ y x, 0 ≤ y → 0 ≤ x < p → at_ p m' y x =
      if ((y0 <=? y) && (y <? y0 + 2)) && ((x0 <=? x) && (x <? x0 + 2 * gx))
      then Some (stroke bits fg ((x - x0) / 2)) else at_ p m y x)); [lia| |].
  - split; [done|]. intros y x Hy Hx. destruct (Z.leb_spec x0 x), (Z.ltb_spec x (x0 + 2 * 0)); try lia;
      by rewrite ?andb_false_r.
  - intros gx m1 Hgx (Hm1 & A1). cbv zeta. fold (stroke bits fg gx).
    replace (y0 * p + x0 + gx * 2) with (y0 * p + (x0 + 2 * gx)) by lia.
    replace (y0 * p + x0 + (gx * 2 + 1)) with (y0 * p + (x0 + 2 * gx + 1)) by lia.
    replace (y0 * p + x0 + p + gx * 2) with ((y0 + 1) * p + (x0 + 2 * gx)) by lia.
    replace (y0 * p + x0 + p + (gx * 2 + 1)) with ((y0 + 1) * p + (x0 + 2 * gx + 1)) by lia.
    eapply wp_mono; [apply (quad_wp p h); done || lia|]. intros [] m2 (Hm2 & A2).
    split; [done|]. intros y x Hy Hx. rewrite A2, A1 by done.
    destruct (Z.leb_spec y0 y), (Z.ltb_spec y (y0 + 2)); cbn [andb]; try done.
    destruct (Z.leb_spec x0 x), (Z.leb_spec (x0 + 2 * gx) x), (Z.ltb_spec x (x0 + 2 * gx + 2)),
      (Z.ltb_spec x (x0 + 2 * gx)), (Z.ltb_spec x (x0 + 2 * (gx + 1))); cbn [andb]; try (done || lia).
    do 2 f_equal. mod_lia.
Qed.

(** A whole glyph changes its cell and nothing else. *)
Definition in_cell (row col y x : Z) : bool :=
  ((row * CELL <=? y) && (y <? row * CELL + CELL)) && ((col * CELL <=? x) && (x <? col * CELL + CELL)).

Lemma draw_glyph_wp f p h row col k (m : window) :
  rows_ok p h m → length f = 1024%nat → h * p < 2 ^ 30 → byte_ok k.1 →
  0 ≤ row → row * CELL + CELL ≤ h → 0 ≤ col → col * CELL + CELL ≤ p →
  wp (draw_glyph f p col row k.1 k.2) (λ _ m', rows_ok p h m' ∧
    ∀ y x, 0 ≤ y → 0 ≤ x < p → at_ p m' y x =
      if in_cell row col y x then Some (pixel f k (y - row * CELL) (x - col * CELL)) else at_ p m y x) m.
Proof.
  unfold in_cell. intros Hm Hf Hp Hc Hrow Hrow' Hcol Hcol'. unfold draw_glyph. cbv zeta.
  unfold byte_ok in Hc. pose proof (Z.land_ones k.1 7 ltac:(lia)) as Hidx. change (Z.ones 7) with 0x7F in Hidx.
  pose proof (Z.mod_pos_bound k.1 (2 ^ 7) ltac:(lia)) as Hi7. rewrite <- Hidx in Hi7. clear Hidx.
  assert (0 < p) by apply Hm. unfold CELL in *.
  rewrite (u8_small k.1), !(u32_small (_ * 16)) by (done || nia).
  eapply wp_mono.
  - apply (wp_upto (λ gy m', rows_ok p h m' ∧ ∀ y x, 0 ≤ y → 0 ≤ x < p → at_ p m' y x =
      if ((row * 16 <=? y) && (y <? row * 16 + 2 * gy)) && ((col * 16 <=? x) && (x <? col * 16 + 16))
      then Some (pixel f k (y - row * 16) (x - col * 16)) else at_ p m y x)); [lia| |].
    + split; [done|]. intros y x Hy Hx. destruct (Z.leb_spec (row * 16) y), (Z.ltb_spec y (row * 16 + 2 * 0)); done || lia.
    + intros gy m1 Hgy (Hm1 & A1).
      destruct (lookup_lt_is_Some_2 f (Z.to_nat (Z.land k.1 0x7F * 8 + gy)) ltac:(lia)) as [bits Hbits].
      rewrite Hbits. wp_apply (wp_lift _ _ (λ b m', b = bits ∧ m' = m1)); [done|done|]. intros b m' [-> ->].
      rewrite (u32_small (row * 16 + gy * 2)), (u32_small (_ * p)), (u32_small (_ * p + _)) by nia.
      eapply wp_mono; [apply (draw_line_wp p h); unfold CELL; done || lia|]. intros [] m2 (Hm2 & A2).
      split; [done|]. unfold CELL in A2. intros y x Hy Hx. rewrite A2, A1 by done.
      destruct (Z.leb_spec (col * 16) x), (Z.ltb_spec x (col * 16 + 16)); rewrite ?andb_false_r; try done.
      destruct (Z.leb_spec (row * 16) y), (Z.leb_spec (row * 16 + gy * 2) y), (Z.ltb_spec y (row * 16 + gy * 2 + 2)),
        (Z.ltb_spec y (row * 16 + 2 * gy)), (Z.ltb_spec y (row * 16 + 2 * (gy + 1))); cbn [andb]; try (done || lia).
      f_equal. unfold pixel, stroke. cbn [fst snd]. rewrite u8_small by done.
      replace ((y - row * 16) / 2) with gy by mod_lia. by rewrite (nth_lookup_Some _ _ _ _ Hbits).
  - intros [] m' (Hm' & A'). split; [done|]. intros y x Hy Hx. by rewrite A'.
Qed.

(** ** The operations *)

Section ops.
Context (d0 : fbcon) (c r : Z).

Lemma on_fb_wp {A} (m : M window A) Q (d : fbcon) w :
  vram d !! fb d = Some w →
  wp m (λ a w', Q a (set_vram (<[fb d := w']> (vram d)) d)) w → wp (on_fb m) Q d.
Proof. intros Hw (a & w' & E & HQ). exists a. eexists. unfold on_fb. rewrite Hw. cbn [mbind option_bind]. by rewrite E. Qed.

(** Another picture in the same window. *)
Lemma fb_ready_draw d w' :
  fb_ready d0 c r d → rows_ok (fb_pitch_px d) (fb_h d) w' → fb_ready d0 c r (set_vram (<[fb d := w']> (vram d)) d).
Proof.
  intros [? ? ? ? ? ? (m & E)] Hw. split; try done.
  - exists w'. split; [|done]. cbn [vram fb set_vram]. by rewrite lookup_insert_eq.
  - rewrite E. by eexists.
Qed.
Lemma fb_shows_draw g d w' :
  fb_ready d0 c r d → rows_ok (fb_pitch_px d) (fb_h d) w' → draws (font d) (fb_pitch_px d) c r g w' →
  fb_shows d0 c r g (set_vram (<[fb d := w']> (vram d)) d).
Proof.
  intros Hd Hw Hg. split; [by apply fb_ready_draw|]. intros w Ew. cbn [vram fb set_vram] in Ew.
  rewrite lookup_insert_eq in Ew. by injection Ew as <-.
Qed.

(** The cells lie inside the mode. *)
Lemma fb_cells d : fb_ready d0 c r d → c * CELL ≤ fb_pitch_px d ∧ r * CELL ≤ fb_h d.
Proof.
  intros [(E1 & E2 & _) (E3 & E4 & Hp) _ _ _ _ _].
  assert (c = fb_w d / CELL) as -> by congruence. assert (r = fb_h d / CELL) as -> by congruence.
  unfold CELL in *. split; mod_lia.
Qed.

Lemma in_cell_eq row col row' col' y x :
  0 ≤ y < CELL → 0 ≤ x < CELL →
  in_cell row col (row' * CELL + y) (col' * CELL + x) = (row' =? row) && (col' =? col).
Proof.
  unfold in_cell, CELL. intros Hy Hx.
  destruct (Z.eqb_spec row' row), (Z.eqb_spec col' col), (Z.leb_spec (row * 16) (row' * 16 + y)),
    (Z.ltb_spec (row' * 16 + y) (row * 16 + 16)), (Z.leb_spec (col * 16) (col' * 16 + x)),
    (Z.ltb_spec (col' * 16 + x) (col * 16 + 16)); done || lia.
Qed.

Lemma draw_cell_wp g d row col ch attr :
  fb_shows d0 c r g d → 0 ≤ row < r → 0 ≤ col < c → byte_ok ch →
  wp (draw_cell col row ch attr) (λ _ d', fb_shows d0 c r (put row col (ch, attr) g) d') d.
Proof.
  intros [Hd Hg] Hrow Hcol Hch. destruct (fb_cells d Hd). pose proof Hd as [_ _ Ha (w & Ew & Hw) Hf _ _].
  unfold draw_cell. wp_pure. apply (on_fb_wp _ _ _ _ Ew).
  unfold CELL in *. eapply wp_mono; [apply (draw_glyph_wp _ _ _ _ _ (ch, attr) _ Hw Hf Ha Hch); unfold CELL; lia|].
  intros [] w' (Hw' & A'). apply fb_shows_draw; [done..|].
  intros y x dy dx Hy Hx Hdy Hdx. unfold CELL in *. rewrite A' by lia.
  pose proof (in_cell_eq row col y x dy dx) as E. unfold CELL in E. rewrite E by done. unfold put.
  destruct (Z.eqb_spec y row) as [->|], (Z.eqb_spec x col) as [->|]; cbn [andb]; try (by apply Hg).
  do 2 f_equal; lia.
Qed.

(** A blank cell is all background: the glyph of the space has no ink. *)
Lemma pixel_blank d y x : fb_ready d0 c r d → 0 ≤ y < CELL → pixel (font d) blank y x = FB_BG.
Proof.
  intros Hd Hy. unfold pixel, blank. cbn [fst]. change (Z.land (u8 32) 0x7F) with 32.
  unfold CELL in Hy. rewrite (nth_lookup_Some _ _ _ _ (fb_space _ _ _ _ Hd (y / 2) ltac:(mod_lia))).
  unfold has. by rewrite Z.land_0_l.
Qed.

Lemma fbc_clear_wp d : fb_ready d0 c r d → wp fbc_clear (λ _ d', fb_shows d0 c r (λ _ _, blank) d') d.
Proof.
  intros Hd. destruct (fb_cells d Hd) as [Hcp Hrp]. pose proof Hd as [(_ & _ & Hc & Hr) (_ & _ & Hp) Ha (w & Ew & Hw) _ _ _].
  assert (0 < fb_pitch_px d) by apply Hw. unfold CELL in *.
  unfold fbc_clear. wp_pure. apply (on_fb_wp _ _ _ _ Ew). eapply wp_mono.
  - apply (wp_upto (λ y m', rows_ok (fb_pitch_px d) (fb_h d) m' ∧ ∀ y' x, 0 ≤ y' < y → 0 ≤ x < fb_w d →
      at_ (fb_pitch_px d) m' y' x = Some FB_BG)); [lia|split; [done|lia]|].
    intros y m1 Hy (Hm1 & A1). assert (0 ≤ fb_w d).
    { destruct Hd as [(? & _ & ? & _) (? & _) _ _ _ _ _]. unfold CELL in *. mod_lia. }
    rewrite (u32_small (y * _)) by nia. eapply wp_mono.
    + apply (wp_upto (λ x m', rows_ok (fb_pitch_px d) (fb_h d) m' ∧ ∀ y' x', 0 ≤ y' ≤ y → 0 ≤ x' < fb_w d →
        y' < y ∨ x' < x → at_ (fb_pitch_px d) m' y' x' = Some FB_BG)); [done| |].
      * split; [done|]. intros y' x' Hy' Hx' [?|?]; [apply A1|]; lia.
      * intros x m2 Hx (Hm2 & A2). eapply wp_mono; [apply (store_at (fb_pitch_px d) (fb_h d)); done || lia|].
        intros [] m3 (Hm3 & _ & A3). split; [done|]. intros y' x' Hy' Hx' Hor. rewrite A3 by lia.
        destruct (Z.eqb_spec y' y), (Z.eqb_spec x' x); try done; apply A2; lia.
    + intros [] m2 (Hm2 & A2). split; [done|]. intros y' x' Hy' Hx'. apply A2; lia.
  - intros [] w' (Hw' & A'). apply fb_shows_draw; [done..|].
    intros row col y x Hrow Hcol Hy Hx. rewrite (pixel_blank d) by done. unfold CELL in *.
    destruct Hd as [(? & ? & ? & _) (? & ? & _) _ _ _ _ _]. unfold CELL in *. apply A'; mod_lia.
Qed.

(** *** Scrolling

    A row of cells is one row of [CELL] lines. *)
Lemma at_cells p w row y x : at_ p w (row * CELL + y) x = at_ (CELL * p) w row (y * p + x).
Proof. unfold at_, CELL. f_equal. lia. Qed.

(** Only the cells on the screen matter. *)
Lemma fb_shows_ext g g' d :
  (∀ row col, 0 ≤ row < r → 0 ≤ col < c → g row col = g' row col) → fb_shows d0 c r g d → fb_shows d0 c r g' d.
Proof.
  intros E [Hd Hg]. split; [done|]. intros w Ew row col y x Hrow Hcol Hy Hx. rewrite <- E by done. by apply Hg.
Qed.

(** Redrawing whole rows as blanks. *)
Lemma redraw_wp g d r0 : fb_shows d0 c r g d → 0 ≤ r0 ≤ r → 0 < c →
  wp (upto r0 r (λ i, upto 0 c (λ j, draw_cell j i 32 CON_NORMAL)))
    (λ _ d', fb_shows d0 c r (λ row col, if r0 <=? row then blank else g row col) d') d.
Proof.
  intros Hg Hr0 Hc0. eapply wp_mono.
  - apply (wp_upto (λ i d', fb_shows d0 c r (λ row col, if (r0 <=? row) && (row <? i) then blank else g row col) d'));
      [lia| |].
    + eapply fb_shows_ext; [|exact Hg]. intros row col _ _. cbv beta.
      destruct (Z.leb_spec r0 row), (Z.ltb_spec row r0); done || lia.
    + intros i d1 Hi Hd1. eapply wp_mono.
      * apply (wp_upto (λ j d', fb_shows d0 c r (λ row col,
          if ((r0 <=? row) && (row <? i)) || ((row =? i) && (col <? j)) then blank else g row col) d')); [lia| |].
        { eapply fb_shows_ext; [|exact Hd1]. intros row col Hrow Hcol. cbv beta.
          by rewrite (proj2 (Z.ltb_ge col 0)), andb_false_r, orb_false_r by lia. }
        intros j d2 Hj Hd2. eapply wp_mono; [apply (draw_cell_wp _ _ i j 32 CON_NORMAL Hd2); [lia|lia|by cbv]|].
        intros [] d3. apply fb_shows_ext. intros row col _ _. unfold put. cbv beta.
        destruct (Z.leb_spec r0 row), (Z.ltb_spec row i), (Z.eqb_spec row i), (Z.eqb_spec col j), (Z.ltb_spec col j),
          (Z.ltb_spec col (j + 1)); done || lia.
      * intros [] d2. apply fb_shows_ext. intros row col _ Hcol. cbv beta. rewrite (proj2 (Z.ltb_lt col c)) by lia.
        destruct (Z.leb_spec r0 row), (Z.ltb_spec row i), (Z.eqb_spec row i), (Z.ltb_spec row (i + 1)); done || lia.
  - intros [] d'. apply fb_shows_ext. intros row col Hrow _. cbv beta.
    by rewrite (proj2 (Z.ltb_lt row r)), andb_true_r by lia.
Qed.

Lemma fbc_scroll_wp g d n : fb_shows d0 c r g d → 0 < n ≤ r →
  wp (fbc_scroll n) (λ _ d', fb_shows d0 c r (scrolled r n g) d') d.
Proof.
  intros [Hd Hg] Hn. destruct (fb_cells d Hd) as [Hcp Hrp].
  pose proof Hd as [(Ec & Er & Hc & Hr) (_ & _ & Hp) Ha (w & Ew & Hw) _ _ _].
  pose proof Hw as (Hram & Hp0 & Hlen). unfold fbc_scroll. wp_pure. rewrite Ec, Er.
  rewrite (u32_small (CELL * _)), (u32_small (CELL * _ * 4)), Z.div_mul by (unfold CELL in *; nia).
  rewrite (upto_ext n r _ (λ i, copy_words ((i - n) * (CELL * fb_pitch_px d)) (i * (CELL * fb_pitch_px d)) (CELL * fb_pitch_px d))).
  2: { intros i Hi. unfold CELL in *. by rewrite (u32_small (i - n)), (u32_small ((i - n) * 16)), (u32_small i), (u32_small (i * 16)),
         !(u32_small (_ * fb_pitch_px d)), !Z.mul_assoc by nia. }
  apply wp_bind, (on_fb_wp _ _ _ _ Ew).
  eapply wp_mono; [apply (shift_rows_wp (CELL * fb_pitch_px d) r n)|]; [|done|].
  { unfold CELL in *. split_and!; [done|lia|nia]. }
  intros [] w1 ((Hram1 & _ & _) & Hl1 & A1).
  assert (Hw1 : rows_ok (fb_pitch_px d) (fb_h d) w1) by (split_and!; [done|done|lia]).
  pose proof (fb_ready_draw d w1 Hd Hw1) as Hd1.
  eapply wp_mono; [apply (redraw_wp (λ row col, g (if row <? r - n then row + n else row) col)); [|lia|done]|].
  - apply fb_shows_draw; [done..|]. intros row col y x Hrow Hcol Hy Hx.
    assert (Hin : 0 ≤ y * fb_pitch_px d + (col * CELL + x) < CELL * fb_pitch_px d).
    { unfold CELL in *. apply row_in; lia. }
    rewrite at_cells, A1, <- at_cells by done. apply (Hg w Ew); try done. destruct (Z.ltb_spec row (r - n)); lia.
  - intros [] d'. apply fb_shows_ext. intros row col Hrow _. unfold scrolled. cbv beta.
    destruct (Z.leb_spec (r - n) row), (Z.ltb_spec row (r - n)); done || lia.
Qed.

(** The framebuffer console keeps what [console_ops] promises. *)
Lemma fb_laws : 0 < c < 2147483647 → 0 < r < 2147483647 → ConsoleLaws (fbc_ops c r).
Proof.
  intros Hc Hr. refine {| ready := fb_ready d0 c r; shows := fb_shows d0 c r; reach := c |}; cbn [rows cols fbc_ops].
  - lia.
  - by intros g d [? _].
  - intros d Hd. eexists. split; [done|]. by apply fbc_clear_wp.
  - intros. by apply draw_cell_wp.
  - intros g d n Hg Hn. eexists. split; [done|]. by apply fbc_scroll_wp.
Defined.
End ops.

(** ** Installing the console *)

(** What [copy_bios_font] accepts, and a space without ink in any of its lines
    (the code looks at one of them). *)
Record good_font (f : list Z) : Prop := {
  font_size : length f = 1024%nat;
  font_real : ∃ i, (1 ≤ i < 1024)%nat ∧ f !! i ≠ f !! 0%nat;
  font_ink : f !! 521%nat ≠ Some 0 ∨ f !! 523%nat ≠ Some 0;
  font_space : ∀ i, (i < 8)%nat → f !! (256 + i)%nat = Some 0;
}.

Lemma rom_at_wp i x Q (d : fbcon) : rom d !! Z.to_nat i = Some x → Q x d → wp (rom_at i) Q d.
Proof. intros E HQ. exists x, d. unfold rom_at. by rewrite E. Qed.
Lemma font_at_wp i x Q (d : fbcon) : font d !! Z.to_nat i = Some x → Q x d → wp (font_at i) Q d.
Proof. intros E HQ. exists x, d. unfold font_at. by rewrite E. Qed.

(** The copy: the first [n] bytes of the font are those of the ROM. *)
Definition copied (n : Z) (d d' : fbcon) : Prop :=
  ∃ f, d' = set_font f d ∧ length f = 1024%nat ∧ ∀ k, (k < Z.to_nat n)%nat → f !! k = rom d !! k.

Lemma copy_font_wp (d : fbcon) : length (rom d) = 1024%nat → length (font d) = 1024%nat →
  wp (upto 0 128 (λ g, upto 0 8 (λ b,
        let* x := rom_at (g * 8 + b) in
        modify (λ d, set_font (<[Z.to_nat (g * 8 + b) := x]> (font d)) d))))
    (λ _ d', d' = set_font (rom d) d) d.
Proof.
  intros Hr Hf. eapply wp_mono.
  - apply (wp_upto (λ g, copied (g * 8) d)); [lia| |].
    { exists (font d). split_and!; [by destruct d|done|]. intros k Hk. lia. }
    intros g d1 Hg H1. eapply wp_mono.
    + apply (wp_upto (λ b, copied (g * 8 + b) d)); [lia|by rewrite Z.add_0_r|].
      intros b d2 Hb (f & -> & Hlf & Hpre).
      destruct (lookup_lt_is_Some_2 (rom d) (Z.to_nat (g * 8 + b)) ltac:(lia)) as [x Ex].
      apply wp_bind, (rom_at_wp _ x); [done|]. apply wp_modify. eexists. split; [done|].
      split; [by rewrite length_insert|]. intros k Hk. cbn [font set_font].
      destruct (decide (k = Z.to_nat (g * 8 + b))) as [->|Hne].
      * rewrite list_lookup_insert_eq by lia. done.
      * rewrite list_lookup_insert_ne by done. apply Hpre. lia.
    + intros [] d2. by replace ((g + 1) * 8) with (g * 8 + 8) by lia.
  - intros [] d' (f & -> & Hlf & Hpre). f_equal. apply list_eq. intros k.
    destruct (decide (k < 1024)%nat); [apply Hpre; lia|]. by rewrite !lookup_ge_None_2 by lia.
Qed.

Lemma copy_bios_font_wp (d : fbcon) : good_font (rom d) → length (font d) = 1024%nat →
  wp copy_bios_font (λ ok d', ok = true ∧ d' = set_font (rom d) d) d.
Proof.
  intros [Hl (k & Hk & Hreal) Hink Hsp] Hf. unfold copy_bios_font.
  assert (Hrom : ∀ i, (i < 1024)%nat → ∃ x, rom d !! i = Some x).
  { intros i Hi. apply lookup_lt_is_Some_2. lia. }
  destruct (Hrom 0%nat ltac:(lia)) as [first E0]. apply wp_bind, (rom_at_wp _ first); [done|].
  eapply wp_call with (P := λ r d', d' = d ∧ r ≠ None).
  { apply (wp_for (λ i d', d' = d ∧ ∀ j, (1 ≤ j < Z.to_nat i)%nat → rom d !! j = Some first)).
    - split; [done|]. intros j Hj. lia.
    - intros d' [-> Hall]. exfalso. apply Hreal. rewrite E0. apply Hall. lia.
    - intros j d' Hj [-> Hall]. destruct (Hrom (Z.to_nat j) ltac:(lia)) as [x Ex].
      apply wp_bind, (rom_at_wp _ x); [done|]. apply wp_ret. destruct (Z.eqb_spec x first) as [->|]; [|done].
      split; [done|]. intros j' Hj'. destruct (decide (j' = Z.to_nat j)) as [->|]; [done|]. apply Hall. lia. }
  intros [[]|] d' [-> Hr]; [|done]. wp_apply (copy_font_wp d Hl Hf). intros _ d' ->.
  destruct (Hrom 521%nat ltac:(lia)) as [a1 E1]. destruct (Hrom 523%nat ltac:(lia)) as [a3 E3].
  apply wp_bind, (font_at_wp _ a1); [done|]. apply wp_bind, (font_at_wp _ a3); [done|].
  unfold truthy. rewrite !negb_involutive.
  assert (((a1 =? 0) && (a3 =? 0))%bool = false) as ->.
  { rewrite E1, E3 in Hink. apply andb_false_iff. rewrite !Z.eqb_neq. destruct Hink; [left|right]; congruence. }
  apply wp_bind, (font_at_wp _ 0); [apply (Hsp 3%nat); lia|]. by apply wp_ret.
Qed.

(** A framebuffer mode that fits its window. *)
Record mode_ok (gpu : gpu_device) (d : fbcon) : Prop := {
  mode_active : fb_active gpu = true;
  mode_size : CELL ≤ width gpu < 2 ^ 31 ∧ CELL ≤ height gpu < 2 ^ 31;
  mode_pitch : width gpu ≤ pitch gpu / 4;
  mode_addr : height gpu * (pitch gpu / 4) < 2 ^ 30;
  mode_window : ∃ w, vram d !! lfb_phys gpu = Some w ∧ rows_ok (pitch gpu / 4) (height gpu) w;
  mode_font : good_font (rom d) ∧ length (font d) = 1024%nat;
}.

(** What the installed console has on its display. *)
Definition fb_display (gpu : gpu_device) (d : fbcon) : fbcon :=
  Fbcon (rom d) (rom d) (vram d) (lfb_phys gpu) (width gpu) (height gpu) (pitch gpu / 4)
    (width gpu / CELL) (height gpu / CELL).

Lemma fb_install_wp gpu (s : console fbcon)
    (Hc : 0 < width gpu / CELL < 2147483647) (Hr : 0 < height gpu / CELL < 2147483647) :
  mode_ok gpu (display s) → byte_ok (con_attr s) →
  wp (fb_console_install gpu)
    (λ _, represents (ConsoleLaws0 := fb_laws (fb_display gpu (display s)) _ _ Hc Hr)
            (fbc_ops (width gpu / CELL) (height gpu / CELL)) (Term (λ _ _, blank) 0 0 (con_attr s))) s.
Proof.
  intros [Hact [Hw Hh] Hp Ha (w & Ew & Hwin) [Hfont Hlen]] Hattr. unfold fb_console_install. rewrite Hact. cbn [negb].
  apply wp_bind, on_display_wp. eapply wp_mono; [by apply copy_bios_font_wp|].
  intros ok d' [-> ->]. cbn [negb]. apply wp_bind, on_display_wp, wp_modify. cbn [display con con_col con_row con_attr].
  match goal with |- wp _ _ ?s1 =>
    apply (install_wp _ (ConsoleLaws0 := fb_laws (fb_display gpu (display s)) _ _ Hc Hr) s1); [|done] end.
  cbn [ready fb_laws display]. split; cbn; try done.
  - by destruct Hc, Hr.
  - by exists w.
  - by apply Hfont.
  - intros i Hi. assert (Z.to_nat (32 * 8 + i) = (256 + Z.to_nat i)%nat) as -> by lia. apply (font_space _ Hfont). lia.
  - by exists (vram (display s)).
Qed.

(** ** The theorems *)

(** Refinement. On every framebuffer mode that fits its window, installing
    the console and printing a text that no line of which is longer than the
    screen leaves in video memory, pixel by pixel, the picture of the abstract
    terminal after that text: each cell shows its character, in the font of the
    BIOS and in its colour, and the screen has scrolled as the terminal has. *)
Theorem fb_console_draws fallback gpu (s : console fbcon) txt rest :
  mode_ok gpu (display s) → byte_ok (con_attr s) →
  nonul txt → fits (width gpu / CELL) 0 txt = true →
  let h := height gpu / CELL in
  let t := term_print h txt (Term (λ _ _, blank) 0 0 (con_attr s)) in
  wp (fb_console_install gpu ;; console_print fallback (txt ++ 0 :: rest)) (λ _ s',
    con_col s' = tcol t ∧ con_row s' = trow t ∧
    ∃ w, vram (display s') !! lfb_phys gpu = Some w ∧
      draws (rom (display s)) (pitch gpu / 4) (width gpu / CELL) h (tgrid t) w) s.
Proof.
  intros Hmode Hattr Htxt Hfit h t. pose proof (mode_size _ _ Hmode) as [Hw Hh].
  assert (Hc : 0 < width gpu / CELL < 2147483647) by (unfold CELL in *; mod_lia).
  assert (Hr : 0 < height gpu / CELL < 2147483647) by (unfold CELL in *; mod_lia).
  wp_apply (fb_install_wp gpu s Hc Hr); [done..|]. intros _ s1 H1.
  eapply wp_mono; [by apply (print_wp _ (ConsoleLaws0 := fb_laws _ _ _ Hc Hr) fallback txt rest _ _ H1)|].
  intros [] s2 [_ Ecol Erow _ _ _ [Hrd Hg]]. split; [done|]. split; [done|].
  pose proof Hrd as [_ _ _ (w & Ew & _) _ _ (m & Em)]. rewrite Em in *. by exists w; split; [|apply Hg].
Qed.

(** *** A concrete mode

    Two rows of two characters, in a font where every glyph but the space is a
    bar. *)
Definition demo_font : list Z :=
  replicate 256 0 ++ zeros 8 ++ concat (replicate 95 [0; 0x18; 0x18; 0x18; 0; 0x18; 0; 0]).
Definition demo_gpu : gpu_device := GpuDevice None 0 0 true 0xE0000000 32 32 32 128.
Definition demo_screen : console fbcon :=
  console_boot (fb_boot demo_font {[ 0xE0000000 := Window (zeros 1024) true ]}).

Lemma demo_mode : mode_ok demo_gpu (display demo_screen).
Proof.
  split; try (by cbv); cbn.
  - eexists. split; [reflexivity|]. by cbv.
  - split; [|by cbv]. split; cbn.
    + reflexivity.
    + exists 265%nat. split; [lia|]. by vm_compute.
    + left. by vm_compute.
    + intros i Hi. do 8 (destruct i as [|i]; [reflexivity|]). lia.
Qed.

Lemma fb_console_draws_witness :
  let t := term_print 2 [65; 66; 10; 67; 10] (Term (λ _ _, blank) 0 0 CON_NORMAL) in
  fits 2 0 [65; 66; 10; 67; 10] = true ∧
  wp (fb_console_install demo_gpu ;; console_print weak_fallback_putc ([65; 66; 10; 67; 10] ++ 0 :: [])) (λ _ s',
    con_col s' = tcol t ∧ con_row s' = trow t ∧
    ∃ w, vram (display s') !! 0xE0000000 = Some w ∧ draws demo_font 32 2 2 (tgrid t) w) demo_screen.
Proof.
  split; [reflexivity|].
  apply (fb_console_draws weak_fallback_putc demo_gpu demo_screen [65; 66; 10; 67; 10] []); [apply demo_mode|by cbv| |reflexivity].
  repeat constructor; by cbv.
Defined.

(** A line that is too long is not wrapped: on the last row its glyphs leave the
    mode, here the window. *)
Definition text_on (txt : list Z) : bool :=
  match (fb_console_install demo_gpu ;; console_print weak_fallback_putc (txt ++ [0])) demo_screen with
  | Some _ => true
  | None => false
  end.
Lemma fb_long_line_overflows : text_on [10; 65; 66] = true ∧ text_on [10; 65; 66; 67] = false.
Proof. by split; vm_compute. Qed.
