(* ===== verification/Gpu.v ===== *)
(** * drivers/gpu/bochs.c, drivers/gpu/gpu.c: bringing up a display

    The Bochs mode registers behind the ports, the probe of the framebuffer, and
    [gpu_init], which joins the PCI table, the mode and the framebuffer
    console, and prints on it. Before the framebuffer the console is the text mode
    of [VgaText]; here it is a console without a display, so what is printed on it
    is formatted and then dropped. *)
From stdpp Require Import gmap.
From S2P Require Import Prelude KString Printk Vram Ports Pci Console Kprintf FbConsole.

Definition DISPI_INDEX : Z := 0x01CE.
Definition DISPI_DATA : Z := 0x01CF.
Definition DISPI_ID : Z := 0.
Definition DISPI_XRES : Z := 1.
Definition DISPI_YRES : Z := 2.
Definition DISPI_BPP : Z := 3.
Definition DISPI_ENABLE : Z := 4.
Definition DISPI_BANK : Z := 5.
Definition DISPI_VIRT_W : Z := 6.
Definition DISPI_VIRT_H : Z := 7.
Definition DISPI_X_OFF : Z := 8.
Definition DISPI_Y_OFF : Z := 9.
Definition ENABLE_ON : Z := 0x01.
Definition ENABLE_LFB : Z := 0x40.
Definition KEEP_MEMORY : Z := 0x80.

Definition gpu_zero : gpu_device := GpuDevice None 0 0 false 0 0 0 0 0.

(** [struct pci_dev_bar] of bochs.c. *)
Record pci_dev_bar := PciDevBar { base : Z; size : Z }.

(** [lfb_bar_of]: the largest memory BAR, [n] of the six to go. *)
Fixpoint lfb_bar_loop (n : nat) (i : Z) (d : pci_dev) (best : pci_dev_bar) : option pci_dev_bar :=
  match n with
  | O => Some best
  | S n =>
      io ← bar_is_io d !! Z.to_nat i;
      b ← bar_base d !! Z.to_nat i;
      sz ← bar_size d !! Z.to_nat i;
      lfb_bar_loop n (i + 1) d
        (if (io : bool) || (b =? 0) then best else if size best <? sz then PciDevBar b sz else best)
  end.
Definition lfb_bar_of (d : pci_dev) : option pci_dev_bar := lfb_bar_loop 6 0 d (PciDevBar 0 0).

Section gpu.
Context {P : Type} `{Ports P}.
(** The build with OBSIDIAN_SECURE never touches display registers. *)
Variable secure : bool.
Variable L : linked.

(** [g_gpu], the PCI table with the hardware, and the console with the video
    memory. *)
Record gpu := Gpu {
  g_gpu : gpu_device;
  gpci : pci P;
  gcon : console fbcon;
}.
#[export] Instance gpu_ports : HasPorts gpu P :=
  {| ports := λ s, hw (gpci s);
     set_ports := λ p s, Gpu (g_gpu s) (Pci (devices (gpci s)) (ndevices (gpci s)) p) (gcon s) |}.

Definition set_gpu (f : gpu_device → gpu_device) : M gpu unit :=
  modify (λ s, Gpu (f (g_gpu s)) (gpci s) (gcon s)).
Definition on_console {A} (m : M (console fbcon) A) : M gpu A := λ s,
  '(a, c) ← m (gcon s); Some (a, Gpu (g_gpu s) (gpci s) c).

(** A word of the window at a physical address. *)
Definition in_window {A} (addr : Z) (m : M window A) : M fbcon A := λ d,
  w ← vram d !! addr;
  '(a, w) ← m w;
  Some (a, set_vram (<[addr := w]> (vram d)) d).
Definition lfb_at {A} (addr : Z) (m : M window A) : M gpu A := on_console (on_display (in_window addr m)).

(** ** bochs.c *)

Definition dispi_read (index : Z) : M gpu Z := io_outw DISPI_INDEX index ;; io_inw DISPI_DATA.
Definition dispi_write (index val : Z) : M gpu unit := io_outw DISPI_INDEX index ;; io_outw DISPI_DATA val.

Definition want_w : Z := 1024.
Definition want_h : Z := 768.
Definition want_bpp : Z := 32.

(** The register writes that set the mode. *)
Definition program_mode : M gpu unit :=
  dispi_write DISPI_ENABLE 0 ;;
  dispi_write DISPI_XRES (u16 want_w) ;;
  dispi_write DISPI_YRES (u16 want_h) ;;
  dispi_write DISPI_BPP (u16 want_bpp) ;;
  dispi_write DISPI_VIRT_W (u16 want_w) ;;
  dispi_write DISPI_VIRT_H (u16 want_h) ;;
  dispi_write DISPI_BANK 0 ;;
  dispi_write DISPI_X_OFF 0 ;;
  dispi_write DISPI_Y_OFF 0 ;;
  dispi_write DISPI_ENABLE (u16 (Z.lor (Z.lor ENABLE_ON ENABLE_LFB) KEEP_MEMORY)).

Definition probe_word : Z := 0xA55A1357.

(** Is the aperture memory? The word that was there is put back. *)
Definition probe_lfb (addr : Z) : M gpu bool :=
  let probe_off := want_h / 2 * want_w + want_w / 2 in
  let* old := lfb_at addr (load probe_off) in
  lfb_at addr (store probe_off probe_word) ;;
  let* now := lfb_at addr (load probe_off) in
  lfb_at addr (store probe_off old) ;;
  ret (now =? probe_word).

Definition bochs_set_mode (d : pci_dev) : M gpu bool :=
  let* id := dispi_read DISPI_ID in
  if negb (Z.land id 0xFFF0 =? 0xB0C0) then ret false
  else
    let* bar := lift (lfb_bar_of d) in
    let needed := want_w * want_h * (want_bpp / 8) in
    if (base bar =? 0) || (size bar <? needed) then ret false
    else
      program_mode ;;
      let* ok := probe_lfb (base bar) in
      if negb ok then ret false
      else
        set_gpu (λ g, GpuDevice (gname g) (gvendor g) (gdevice g) true (base bar) want_w want_h want_bpp
          (want_w * (want_bpp / 8))) ;;
        ret true.

(** ** gpu.c *)

Definition kprintf (fmt : list Z) (args : va_list) : M gpu unit :=
  on_console (Kprintf.kprintf L weak_fallback_putc fmt args).

(** A pointer to a string, or NULL. *)
Definition name_addr (n : option String.string) : Z := match n with Some n => addr L (chars n) | None => 0 end.

Definition report_text_only (reason : String.string) : M gpu unit :=
  set_gpu (λ g, GpuDevice (gname g) (gvendor g) (gdevice g) false (lfb_phys g) (width g) (height g) (bpp g) (pitch g)) ;;
  let* g := gets g_gpu in
  kprintf (chars "gpu %s -- staying on text console (%s)" ++ NL)
    [if gname g is Some n then addr L (chars n) else addr L (chars "none"); addr L (chars reason)].

Definition is_bochs (v d : Z) : bool := (v =? 0x1234) && (d =? 0x1111).
Definition is_qxl (v d : Z) : bool := (v =? 0x1b36) && (d =? 0x0100).

(** The names [try_bochs_family] gives. *)
Definition display_name (v d : Z) : String.string :=
  if is_bochs v d then "QEMU/Bochs SVGA"
  else if is_qxl v d then "QXL"
  else if v =? 0x8086 then "Intel HD graphics"
  else if v =? 0x1002 then "AMD graphics"
  else if v =? 0x10de then "NVIDIA graphics"
  else if v =? 0x15ad then "VMware SVGA"
  else if v =? 0x80ee then "VirtualBox graphics"
  else "unknown display".

Definition try_bochs_family : M gpu unit :=
  let* i := gets (λ s, pci_display_controller (gpci s)) in
  let* i := lift i in
  match i with
  | None => ret tt
  | Some i =>
      let* l := gets (λ s, devices (gpci s)) in
      let* d := lift (l !! Z.to_nat i) in
      let v := vendor d in
      let dv := device d in
      set_gpu (λ g, GpuDevice (Some (display_name v dv)) v dv (fb_active g) (lfb_phys g) (width g) (height g) (bpp g) (pitch g)) ;;
      if secure then ret tt
      else if is_bochs v dv || is_qxl v dv then
        let* ok := bochs_set_mode d in
        if negb ok then report_text_only "mode set failed" else ret tt
      else ret tt
  end.

(** The message that a mode is live. *)
Definition live_format : list Z := chars "gpu %04x:%04x '%s' -> %ux%ux%u lfb @ %08x" ++ NL.
Definition live_args (g : gpu_device) : va_list :=
  [gvendor g; gdevice g; name_addr (gname g); width g; height g; bpp g; lfb_phys g].

Definition gpu_init : M gpu unit :=
  set_gpu (λ _, gpu_zero) ;;
  try_bochs_family ;;
  let* g := gets g_gpu in
  if fb_active g then
    on_console (fb_console_install g) ;;
    kprintf live_format (live_args g)
  else
    let* i := gets (λ s, pci_display_controller (gpci s)) in
    let* i := lift i in
    match gname g, i with
    | None, Some _ => report_text_only "unsupported"
    | _, _ => ret tt
    end.
End gpu.
Arguments gpu : clear implicits.

(** ** The card as an interface

    A Bochs display keeps a file of registers: the index port selects one, the
    data port reads and writes it. *)
Class DispiCard (P : Type) `{Ports P} := {
  dispi : P → Z → Z;
  selected : P → Z;
  law_select : ∀ i p, let p' := outw DISPI_INDEX i p in selected p' = i ∧ ∀ j, dispi p' j = dispi p j;
  law_set : ∀ v p, selected p ≠ DISPI_ID →
    ∀ j, dispi (outw DISPI_DATA v p) j = if j =? selected p then v else dispi p j;
  law_get : ∀ p, inw DISPI_DATA p = (dispi p (selected p), p);
}.

Section card.
Context {P : Type} `{DispiCard P} (L : linked).

(** The hardware moved on; everything else is as it was. *)
Definition with_hw (p : P) (s : gpu P) : gpu P := set_ports p s.

Lemma dispi_read_wp i (s : gpu P) : 0 ≤ i < 65536 →
  wp (dispi_read i) (λ v s', v = dispi (ports s) i ∧ ∃ p, s' = with_hw p s ∧ ∀ j, dispi p j = dispi (ports s) j) s.
Proof.
  intros Hi. unfold dispi_read, io_outw, io_write. wp_pure.
  change (u16 DISPI_INDEX) with DISPI_INDEX.
  destruct (law_select i (ports s)) as [Esel Eregs]. cbn [ports gpu_ports] in *.
  exists (dispi (ports s) i), (with_hw (outw DISPI_INDEX i (ports s)) s). split; [|by eauto].
  unfold io_inw, io_read. cbn [ports set_ports gpu_ports hw gpci]. change (u16 DISPI_DATA) with DISPI_DATA.
  rewrite law_get. cbv zeta in *. by rewrite Esel, Eregs.
Qed.

Lemma dispi_write_wp i v (s : gpu P) : i ≠ DISPI_ID →
  wp (dispi_write i v) (λ _ s', ∃ p, s' = with_hw p s ∧ ∀ j, dispi p j = if j =? i then v else dispi (ports s) j) s.
Proof.
  intros Hi. unfold dispi_write, io_outw, io_write. wp_pure. apply wp_modify.
  change (u16 DISPI_INDEX) with DISPI_INDEX. change (u16 DISPI_DATA) with DISPI_DATA.
  cbn [ports set_ports gpu_ports hw gpci]. destruct (law_select i (hw (gpci s))) as [Esel Eregs].
  eexists. split; [reflexivity|]. intros j. rewrite law_set, Esel by congruence. by rewrite Eregs.
Qed.

(** The registers of the mode. *)
Definition mode_regs : list (Z * Z) :=
  [(DISPI_XRES, 1024); (DISPI_YRES, 768); (DISPI_BPP, 32); (DISPI_VIRT_W, 1024); (DISPI_VIRT_H, 768);
   (DISPI_BANK, 0); (DISPI_X_OFF, 0); (DISPI_Y_OFF, 0); (DISPI_ENABLE, 0xC1)].
Definition in_mode (p : P) : Prop := Forall (λ '(i, v), dispi p i = v) mode_regs.

Lemma with_hw_hw p q (s : gpu P) : with_hw q (with_hw p s) = with_hw q s.
Proof. reflexivity. Qed.

Lemma program_mode_wp (s : gpu P) : wp program_mode (λ _ s', ∃ p, s' = with_hw p s ∧ in_mode p) s.
Proof.
  unfold program_mode.
  do 9 (wp_apply dispi_write_wp; [done|]; let p := fresh "p" in let E := fresh "E" in
    intros _ ? (p & -> & E); rewrite ?with_hw_hw; cbn [ports gpu_ports with_hw set_ports gpci hw] in E).
  eapply wp_mono; [by apply dispi_write_wp|]. intros [] ? (q & -> & Eq). rewrite with_hw_hw.
  exists q. split; [done|]. cbn [ports gpu_ports with_hw set_ports gpci hw] in Eq.
  unfold in_mode, mode_regs. repeat constructor; rewrite Eq, ?E7, ?E6, ?E5, ?E4, ?E3, ?E2, ?E1, ?E0, ?E; reflexivity.
Qed.

(** *** The probe *)

Lemma load_wp i x (m : window) Q : words m !! Z.to_nat i = Some x → 0 ≤ i → Q x m → wp (load i) Q m.
Proof. intros E Hi HQ. exists x, m. unfold load. by rewrite (proj2 (Z.leb_le _ _)), E by done. Qed.

Lemma lfb_at_wp {A} addr (m : M window A) w Q (s : gpu P) :
  vram (display (gcon s)) !! addr = Some w →
  wp m (λ a w', Q a (Gpu (g_gpu s) (gpci s)
    (Console (con (gcon s)) (con_col (gcon s)) (con_row (gcon s)) (con_attr (gcon s))
      (set_vram (<[addr := w']> (vram (display (gcon s)))) (display (gcon s)))))) w →
  wp (lfb_at addr m) Q s.
Proof.
  intros Ew (a & w' & E & HQ). exists a. eexists. unfold lfb_at, on_console, on_display, in_window.
  rewrite Ew. cbn [mbind option_bind]. by rewrite E.
Qed.

Lemma probe_range : 0 ≤ want_h / 2 * want_w + want_w / 2 < 786432.
Proof. by cbv. Qed.

(** The console with another window at [addr]. *)
Definition repaint (addr : Z) (w : window) (c : console fbcon) : console fbcon :=
  Console (con c) (con_col c) (con_row c) (con_attr c) (set_vram (<[addr := w]> (vram (display c))) (display c)).

Lemma repaint_same addr w c : vram (display c) !! addr = Some w → repaint addr w c = c.
Proof.
  intros E. destruct c as [o x y a d]. unfold repaint. f_equal. unfold set_vram. cbn [display] in *.
  rewrite insert_id by done. by destruct d.
Qed.

(** In real memory the probe succeeds and leaves no trace. *)
Lemma probe_lfb_wp addr w (s : gpu P) :
  vram (display (gcon s)) !! addr = Some w → ram w = true → 786432 ≤ zlen (words w) →
  wp (probe_lfb addr) (λ ok s', ok = true ∧ s' = s) s.
Proof.
  intros Ew Hr Hl. pose proof probe_range as Hin. unfold probe_lfb. cbv zeta.
  set (off := want_h / 2 * want_w + want_w / 2) in *.
  destruct (lookup_lt_is_Some_2 (words w) (Z.to_nat off)) as [old Eold]; [unfold zlen in Hl; lia|].
  apply wp_bind, (lfb_at_wp _ _ w); [done|]. apply (load_wp _ old); [done|lia|].
  fold (repaint addr w (gcon s)). rewrite repaint_same by done. replace (Gpu _ _ _) with s by by destruct s.
  apply wp_bind, (lfb_at_wp _ _ w); [done|]. eapply wp_mono; [apply store_wp; [done|lia]|]. intros [] w1 ->.
  apply wp_bind. eapply lfb_at_wp; [cbn [gcon display vram set_vram]; apply lookup_insert_eq|].
  apply (load_wp _ probe_word); [cbn [words]; apply list_lookup_insert_eq; unfold zlen in Hl; lia|lia|].
  apply wp_bind. eapply lfb_at_wp; [cbn [gcon display vram set_vram]; apply lookup_insert_eq|].
  eapply wp_mono; [apply store_wp; cbn [words ram]; [done|unfold zlen in *; rewrite length_insert; lia]|].
  intros [] w3 ->. apply wp_ret. split; [done|].
  cbn [gcon gpci g_gpu con con_col con_row con_attr display set_vram vram words ram].
  rewrite !insert_insert_eq, list_insert_insert_eq, list_insert_id by done.
  replace (Window (words w) true) with w by (destruct w; cbn in *; congruence).
  rewrite insert_id by done. destruct s as [g t [o x y a d]]. cbn. f_equal. f_equal. by destruct d.
Qed.

(** *** The mode *)

(** A card the driver takes: its identification, its largest memory BAR, and
    memory behind it that holds the mode. *)
Record bochs_ok (d : pci_dev) (bar : pci_dev_bar) (s : gpu P) : Prop := {
  card_id : Z.land (dispi (ports s) DISPI_ID) 0xFFF0 = 0xB0C0;
  card_bar : lfb_bar_of d = Some bar ∧ base bar ≠ 0 ∧ 3145728 ≤ size bar;
  card_memory : ∃ w, vram (display (gcon s)) !! base bar = Some w ∧ ram w = true ∧ 786432 ≤ zlen (words w);
}.

Definition mode_of (g : gpu_device) (addr : Z) : gpu_device :=
  GpuDevice (gname g) (gvendor g) (gdevice g) true addr 1024 768 32 4096.

Lemma bochs_set_mode_wp d bar (s : gpu P) :
  bochs_ok d bar s →
  wp (bochs_set_mode d) (λ ok s', ok = true ∧
    ∃ p, in_mode p ∧ s' = Gpu (mode_of (g_gpu s) (base bar)) (gpci (with_hw p s)) (gcon s)) s.
Proof.
  intros [Hid (Ebar & Hb & Hsz) (w & Ew & Hram & Hl)]. unfold bochs_set_mode.
  wp_apply dispi_read_wp; [done|]. intros id s1 (-> & p1 & -> & E1). rewrite Hid. cbn [Z.eqb negb].
  rewrite Ebar. wp_apply (wp_lift _ bar (λ b s', b = bar ∧ s' = with_hw p1 s)); [done|done|]. intros b s' [-> ->].
  cbv zeta. rewrite (proj2 (Z.eqb_neq _ _) Hb), (proj2 (Z.ltb_ge _ _)) by (exact Hsz). cbn [orb].
  wp_apply program_mode_wp. intros _ s2 (p & -> & Hp). rewrite with_hw_hw.
  wp_apply (probe_lfb_wp (base bar) w); [done..|]. intros ok s3 [-> ->]. cbn [negb].
  unfold set_gpu. wp_pure. apply wp_ret. split; [done|]. by exists p.
Qed.

Lemma on_console_wp {A} (m : M (console fbcon) A) Q (s : gpu P) :
  wp m (λ a c, Q a (Gpu (g_gpu s) (gpci s) c)) (gcon s) → wp (on_console m) Q s.
Proof. intros (a & c & E & HQ). exists a. eexists. unfold on_console. by rewrite E. Qed.

(** *** [gpu_init] *)

Lemma try_bochs_wp i d bar (s : gpu P) :
  pci_display_controller (gpci s) = Some (Some i) → devices (gpci s) !! Z.to_nat i = Some d →
  is_bochs (vendor d) (device d) || is_qxl (vendor d) (device d) = true →
  bochs_ok d bar s → g_gpu s = gpu_zero →
  wp (try_bochs_family false L) (λ _ s', ∃ p, in_mode p ∧ s' = Gpu
    (mode_of (GpuDevice (Some (display_name (vendor d) (device d))) (vendor d) (device d) false 0 0 0 0 0) (base bar))
    (gpci (with_hw p s)) (gcon s)) s.
Proof.
  intros Hi Hd Hfam Hok Hz. unfold try_bochs_family. wp_pure. rewrite Hi.
  wp_apply (wp_lift _ (Some i) (λ x s', x = Some i ∧ s' = s)); [done..|]. intros x s1 [-> ->]. wp_pure. rewrite Hd.
  wp_apply (wp_lift _ d (λ x s', x = d ∧ s' = s)); [done..|]. intros x s1 [-> ->]. unfold set_gpu. wp_pure.
  rewrite Hz, Hfam. wp_apply (bochs_set_mode_wp d bar).
  { destruct Hok as [? ? ?]. by split. }
  intros ok s1 (-> & p & Hp & ->). apply wp_ret. by exists p.
Qed.

(** Computations that keep the name of the card. *)
Definition keeps_name {A} (m : M (gpu P) A) : Prop := ∀ s, wlp m (λ _ s', gname (g_gpu s') = gname (g_gpu s)) s.

Lemma keeps_name_bind {A B} (m : M (gpu P) A) (k : A → M (gpu P) B) :
  keeps_name m → (∀ a, keeps_name (k a)) → keeps_name (bind m k).
Proof.
  intros Hm Hk s. eapply wlp_call; [apply Hm|]. intros a s1 E1. eapply wlp_mono; [apply Hk|]. intros b s2 E2. cbv beta in *. congruence.
Qed.
Lemma keeps_name_ret {A} (a : A) : keeps_name (ret a).
Proof. intros s. by apply wlp_ret. Qed.
Lemma keeps_name_lift {A} (o : option A) : keeps_name (lift o).
Proof. intros s. by apply wlp_lift. Qed.
Lemma keeps_name_write f port v : keeps_name (io_write f port v).
Proof. intros s. by apply wlp_modify. Qed.
Lemma keeps_name_read f port : keeps_name (io_read f port).
Proof. intros s a s' E. unfold io_read in E. destruct (f port _). by injection E as <- <-. Qed.
Lemma keeps_name_lfb {A} addr (m : M window A) : keeps_name (lfb_at addr m).
Proof.
  intros s a s' E. unfold lfb_at, on_console in E. destruct (on_display _ _) as [[b c]|]; [|done].
  by injection E as <- <-.
Qed.
Lemma keeps_name_set (f : gpu_device → gpu_device) : (∀ g, gname (f g) = gname g) → keeps_name (set_gpu f).
Proof. intros Hf s. apply wlp_modify, Hf. Qed.
Lemma keeps_name_gets {A} (f : gpu P → A) : keeps_name (gets f).
Proof. intros s. by apply wlp_gets. Qed.
Lemma keeps_name_console {A} (m : M (console fbcon) A) : keeps_name (on_console m).
Proof. intros s a s' E. unfold on_console in E. destruct (m (gcon s)) as [[b c]|]; [|done]. by injection E as <- <-. Qed.
Ltac keeps_name := repeat first
  [ apply keeps_name_bind; [|intros ?] | apply keeps_name_ret | apply keeps_name_lift | apply keeps_name_write
  | apply keeps_name_read | apply keeps_name_lfb | apply keeps_name_gets | apply keeps_name_console | apply keeps_name_set; reflexivity | case_if ].

Lemma bochs_keeps_name d : keeps_name (bochs_set_mode d).
Proof.
  unfold bochs_set_mode, program_mode, probe_lfb, dispi_read, dispi_write, io_outw, io_inw. cbv zeta. keeps_name.
Qed.

Lemma report_keeps_name reason : keeps_name (report_text_only L reason).
Proof. unfold report_text_only, kprintf. keeps_name. Qed.

(** [try_bochs_family] names every controller it finds, so the branch of
    [gpu_init] that reports an unsupported display is never taken. *)
Lemma controller_is_named secure i (s : gpu P) :
  pci_display_controller (gpci s) = Some (Some i) →
  wlp (try_bochs_family secure L) (λ _ s', gname (g_gpu s') ≠ None) s.
Proof.
  intros Hi. unfold try_bochs_family. apply wlp_bind, wlp_gets. rewrite Hi.
  apply wlp_bind, wlp_lift. intros _ [= <-]. apply wlp_bind, wlp_gets, wlp_bind, wlp_lift. intros d _. cbv zeta.
  apply wlp_bind, wlp_modify. eapply wlp_mono with (P := λ _ s', gname (g_gpu s') = Some (display_name (vendor d) (device d))).
  - case_if; [by apply wlp_ret|]. case_if; [|by apply wlp_ret].
    eapply wlp_call; [apply bochs_keeps_name|]. intros ok s1 E1. cbv beta in E1. cbn [gname g_gpu] in E1.
    case_if; [|by apply wlp_ret]. eapply wlp_mono; [apply report_keeps_name|]. intros [] s2 E9. cbv beta in E9. congruence.
  - intros [] s' E. cbv beta in E. by rewrite E.
Qed.
End card.

(** ** The theorem *)

(** A mode is installed, and a message is printed on it. *)
Lemma install_and_print gpu c r (s : console fbcon) L fmt args :
  mode_ok gpu (display s) → byte_ok (con_attr s) → width gpu / CELL = c → height gpu / CELL = r →
  printable L fmt args → zlen (stackbuf L) = 512 → fits c 0 (printed L fmt args) = true →
  let t := term_print r (printed L fmt args) (Term (λ _ _, blank) 0 0 (con_attr s)) in
  wp (fb_console_install gpu ;; Kprintf.kprintf L weak_fallback_putc fmt args) (λ _ s',
    con s' = Some (fbc_ops c r) ∧ con_col s' = tcol t ∧ con_row s' = trow t ∧
    fb_shows (fb_display gpu (display s)) c r (tgrid t) (display s')) s.
Proof.
  intros Hmode Hattr <- <- Hp Hb Hf t. pose proof (mode_size _ _ Hmode) as [Hw Hh].
  assert (Hc : 0 < width gpu / CELL < 2147483647) by (unfold CELL in *; mod_lia).
  assert (Hr : 0 < height gpu / CELL < 2147483647) by (unfold CELL in *; mod_lia).
  wp_apply (fb_install_wp gpu s Hc Hr); [exact Hmode|exact Hattr|]. intros _ s1 Hs1.
  eapply wp_mono; [by apply (kprintf_wp _ (ConsoleLaws0 := fb_laws _ _ _ Hc Hr) L _ _ _ _ _ Hp Hb Hs1)|].
  intros [] s2 [Hcon Hcol Hrow _ _ _ Hshow]. by split_and!.
Qed.
Lemma on_console_bind {P A B} (m : M (console fbcon) A) (k : A → M (console fbcon) B) (s : gpu P) :
  (let* x := on_console m in on_console (k x)) s = on_console (bind m k) s.
Proof.
  unfold bind, on_console. destruct (m (gcon s)) as [[a c]|]; [|done]. cbn. by destruct (k a c) as [[b c']|].
Qed.

(** What the console shows of the message that the mode of [g] is live. *)
Definition live_text (L : linked) (g : gpu_device) : list Z := printed L live_format (live_args L g).

(** C26: Refinement, of the composition. On a machine whose display controller, in the
    PCI table, is a Bochs or QXL card with its largest memory BAR in real memory,
    and whose BIOS has a font the console accepts, [gpu_init] records the card and
    the mode, sets every register of the mode, hands the console to the
    framebuffer, and prints on it that the mode is live: the 64 by 48 cells and the
    cursor are those of the blank abstract terminal after that message, whenever
    the formatter finds its arguments and the message fits a line of the screen. *)
Theorem gpu_init_draws {P} `{DispiCard P} L (s : gpu P) i d bar :
  pci_display_controller (gpci s) = Some (Some i) → devices (gpci s) !! Z.to_nat i = Some d →
  is_bochs (vendor d) (device d) || is_qxl (vendor d) (device d) = true →
  bochs_ok d bar s →
  good_font (rom (display (gcon s))) → length (font (display (gcon s))) = 1024%nat →
  byte_ok (con_attr (gcon s)) →
  let g := mode_of (GpuDevice (Some (display_name (vendor d) (device d))) (vendor d) (device d) false 0 0 0 0 0) (base bar) in
  printable L live_format (live_args L g) → zlen (stackbuf L) = 512 → fits 64 0 (live_text L g) = true →
  let t := term_print 48 (live_text L g) (Term (λ _ _, blank) 0 0 (con_attr (gcon s))) in
  wp (gpu_init false L) (λ _ s', g_gpu s' = g ∧ in_mode (ports s') ∧
    con (gcon s') = Some (fbc_ops 64 48) ∧ con_col (gcon s') = tcol t ∧ con_row (gcon s') = trow t ∧
    fb_shows (fb_display g (display (gcon s))) 64 48 (tgrid t) (display (gcon s'))) s.
Proof.
  intros Hi Hd Hfam Hok Hfont Hlen Hattr g Hp Hbuf Hfits t. unfold gpu_init, set_gpu. wp_pure.
  wp_apply (try_bochs_wp L i d bar); [done..| |done|].
  { destruct Hok as [? ? ?]. by split. }
  intros _ s1 (p & Hmode & ->). fold g. wp_pure. cbn [g_gpu]. change (fb_active g) with true. cbv iota.
  assert (Hm : mode_ok g (display (gcon s))).
  { destruct Hok as [_ _ (w & Ew & Hram & Hl)]. split; try (by cbv).
    exists w. split; [done|]. split_and!; [done|by cbv|exact Hl]. }
  assert (Hg : width g / CELL = 64 ∧ height g / CELL = 48 ∧ fb_active g = true) by by split_and!.
  unfold t, live_text in *. clear t. revert Hp Hfits. generalize live_format, (live_args L g). intros fmt args Hp Hfits.
  destruct Hg as (Hg1 & Hg2 & _).
  destruct (install_and_print g 64 48 (gcon s) L fmt args Hm Hattr Hg1 Hg2 Hp Hbuf Hfits) as ([] & c & E & Hcon & Hcol & Hrow & Hshow).
  exists tt, (Gpu g (gpci (with_hw p s)) c). split; [|split; [|split; [exact Hmode|by split_and!]]].
  - unfold kprintf. rewrite (on_console_bind _ (λ _, Kprintf.kprintf L weak_fallback_putc fmt args)).
    unfold on_console at 1. cbn [gcon]. rewrite E. reflexivity.
  - reflexivity.
Qed.

(** *** A concrete machine

    The registers of the card, and a PCI table with the card of QEMU. *)
Definition demo_regs : Type := Z * (Z → Z).
#[export] Instance demo_reg_ports : Ports demo_regs :=
  {| inb := λ _ p, (255, p); inl := λ _ p, (4294967295, p); outb := λ _ _ p, p; outl := λ _ _ p, p;
     inw := λ port p, (if port =? DISPI_DATA then p.2 p.1 else 65535, p);
     outw := λ port v p, if port =? DISPI_INDEX then (v, p.2) else if port =? DISPI_DATA
       then (p.1, λ j, if j =? p.1 then v else p.2 j) else p |}.
#[export] Instance demo_dispi : DispiCard demo_regs :=
  {| dispi := snd; selected := fst; law_select := λ _ _, conj eq_refl (λ _, eq_refl);
     law_set := λ _ _ _ _, eq_refl; law_get := λ _, eq_refl |}.

Definition demo_vga_dev : pci_dev :=
  PciDev 0 2 0 0x1234 0x1111 0x03 0 0 0 [0xFD000000; 0; 0xFEBF0000; 0; 0; 0] [0x00FFFFF8; 0; 0x1000; 0; 0; 0]
    (replicate 6 false) true.
Definition demo_gpu_machine : gpu demo_regs :=
  Gpu gpu_zero (Pci (demo_vga_dev :: replicate 31 pci_zero) 1 (0, λ j, if j =? 0 then 0xB0C5 else 0))
    (console_boot (fb_boot demo_font {[ 0xFD000000 := Window (zeros 786432) true ]})).

Lemma demo_room : 786432 ≤ zlen (zeros 786432).
Proof. unfold zeros. rewrite zlen_replicate, Z2Nat.id; lia. Qed.

(** The literals are at 4096, the BIOS has two characters at 1024, and behind the
    arguments there are zeros. *)
Definition demo_linked : linked :=
  Linked true (λ p, if p =? 1024 then Some [0xF8; 0x03; 0] else None) (λ _, 4096) (λ _, [0]) (zeros 512) (chars "1.0").
Definition demo_live : gpu_device :=
  GpuDevice (Some (display_name 0x1234 0x1111)) 0x1234 0x1111 true 0xFD000000 1024 768 32 4096.
Definition demo_text : list Z := chars "gpu 1234:1111 '" ++ [0xF8; 0x03] ++ chars "' -> 768x32x4244635648 lfb @ 00000000" ++ NL.

(** The name and the width are the two arguments that [%s] takes, so what is shown
    is not what is meant. *)
Example demo_live_text : text_of demo_linked live_format (live_args demo_linked demo_live) = Some demo_text.
Proof. vm_compute. reflexivity. Qed.

Lemma gpu_init_draws_witness :
  let t := term_print 48 demo_text (Term (λ _ _, blank) 0 0 CON_NORMAL) in
  wp (gpu_init false demo_linked) (λ _ s', g_gpu s' = demo_live ∧ in_mode (ports s') ∧
    con (gcon s') = Some (fbc_ops 64 48) ∧ con_col (gcon s') = 0 ∧ con_row (gcon s') = 1 ∧
    fb_shows (fb_display demo_live (display (gcon demo_gpu_machine))) 64 48 (tgrid t) (display (gcon s'))) demo_gpu_machine.
Proof.
  assert (Et : live_text demo_linked demo_live = demo_text).
  { apply (printed_eq demo_linked _ _ _ demo_live_text). by apply Z.leb_le. }
  intros t. eapply wp_mono; [apply (gpu_init_draws demo_linked demo_gpu_machine 0 demo_vga_dev (PciDevBar 0xFD000000 0x00FFFFF8)); try reflexivity|].
  - split; [reflexivity| |].
    + split_and!; [reflexivity|discriminate|by cbv].
    + eexists. split; [apply lookup_singleton_eq|]. split; [reflexivity|]. apply demo_room.
  - apply demo_mode.
  - by split.
  - exists demo_text. split; [exact demo_live_text|]. split; [repeat constructor; discriminate|done].
  - intros [] s' (Hg & Hm & Hc & Hx & Hy & Hs).
    change (mode_of _ _) with demo_live in Hg, Hx, Hy, Hs. rewrite Et in Hx, Hy, Hs. by split_and!.
Defined.
