(* ===== verification/Backlight.v ===== *)
(** * drivers/gpu/backlight.c: the panel backlight of Intel graphics

    The PWM register is a 32-bit register of the hardware ([Regs32]), at an
    address behind a memory BAR. *)
From S2P Require Import Prelude Ports Pci.

Definition BLC_PWM_CTL : Z := 0x61254.
Definition PWM_ENABLE : Z := 2 ^ 31.
Definition PWM_FREQ_MASK : Z := 0xFFFF0000.

(** [mmio_base_of]: the first memory BAR of 512 KiB or more, [n] to go. *)
Fixpoint mmio_base_loop (n : nat) (i : Z) (vga : pci_dev) : option (option Z) :=
  match n with
  | O => Some None
  | S n =>
      io ← bar_is_io vga !! Z.to_nat i;
      sz ← bar_size vga !! Z.to_nat i;
      if negb io && (0x80000 <=? sz) then Some <$> bar_base vga !! Z.to_nat i
      else mmio_base_loop n (i + 1) vga
  end.
(** NULL when there is none, or when its base is 0. *)
Definition mmio_base_of (vga : pci_dev) : option (option Z) :=
  b ← mmio_base_loop 6 0 vga;
  Some (match b with Some 0 => None | b => b end).

Definition intel_vga (d : pci_dev) : bool := (class_code d =? 0x03) && (vendor d =? 0x8086).

Section backlight.
Context {P : Type} `{Regs32 P}.

Record backlight := Backlight {
  pwm_mmio : option Z;
  cur_percent : Z;
  regs : P;
}.
Definition backlight_boot (p : P) : backlight := Backlight None 0 p.

Definition mmio_rd (addr : Z) : M backlight Z := λ s,
  let '(v, p) := reg_read addr (regs s) in Some (v, Backlight (pwm_mmio s) (cur_percent s) p).
Definition mmio_wr (addr v : Z) : M backlight unit :=
  modify (λ s, Backlight (pwm_mmio s) (cur_percent s) (reg_write addr v (regs s))).

(** [backlight_probe] over the PCI table. *)
Fixpoint probe_loop (l : list pci_dev) : M backlight bool :=
  match l with
  | [] => ret false
  | d :: l =>
      if negb (intel_vga d) then probe_loop l
      else
        let* mmio := lift (mmio_base_of d) in
        match mmio with
        | None => probe_loop l
        | Some mmio =>
            let* ctl := mmio_rd (mmio + BLC_PWM_CTL) in
            if Z.land ctl PWM_FREQ_MASK =? 0 then probe_loop l
            else
              modify (λ s, Backlight (Some (mmio + BLC_PWM_CTL)) 100 (regs s)) ;;
              ret true
        end
  end.
Definition backlight_probe {Q} (t : pci Q) : M backlight bool :=
  probe_loop (take (Z.to_nat (ndevices t)) (devices t)).

Definition backlight_present : M backlight bool :=
  gets (λ s, match pwm_mmio s with Some _ => true | None => false end).

Definition backlight_get : M backlight Z := gets cur_percent.

Definition backlight_set (percent : Z) : M backlight unit :=
  let* reg := gets pwm_mmio in
  match reg with
  | None => ret tt
  | Some reg =>
      let percent := if 100 <? percent then 100 else percent in
      let* ctl := mmio_rd reg in
      let freq := Z.shiftr (Z.land ctl PWM_FREQ_MASK) 16 in
      if freq =? 0 then ret tt
      else
        let duty := u32 (percent * freq) / 100 in
        mmio_wr reg (Z.lor (Z.lor PWM_ENABLE (u32 (Z.shiftl freq 16))) (if truthy duty then duty else 1)) ;;
        modify (λ s, Backlight (pwm_mmio s) percent (regs s))
  end.

(** ** The register keeps what is written *)

Class PwmRegister (value : P → Z) (reg : Z) : Prop := {
  law_read : ∀ p, reg_read reg p = (value p, p);
  law_write : ∀ v p, value (reg_write reg v p) = v;
}.

(** The frequency and duty fields of the register. *)
Definition freq_of (ctl : Z) : Z := ctl / 65536.
Definition duty_of (ctl : Z) : Z := ctl mod 65536.

(** What a setting of [percent] leaves there. *)
Definition level (percent freq : Z) : Z := Z.max 1 (Z.min 100 percent * freq / 100).

Lemma freq_field ctl : 0 ≤ ctl < 2 ^ 32 → Z.shiftr (Z.land ctl PWM_FREQ_MASK) 16 = freq_of ctl.
Proof.
  intros Hc. unfold PWM_FREQ_MASK, freq_of. rewrite Z.shiftr_land. change (Z.shiftr 0xFFFF0000 16) with (Z.ones 16).
  rewrite Z.land_ones, Z.shiftr_div_pow2 by lia. apply Z.mod_small. change (2 ^ 16) with 65536. mod_lia.
Qed.

(** The enable bit is the top bit of the frequency field. *)
Lemma packed freq duty : 0 < freq < 65536 → 0 ≤ duty < 65536 →
  Z.lor (Z.lor PWM_ENABLE (u32 (Z.shiftl freq 16))) duty = Z.lor 32768 freq * 65536 + duty.
Proof.
  intros Hf Hd. rewrite Z.shiftl_mul_pow2 by lia. rewrite u32_small by lia.
  change PWM_ENABLE with (32768 * 2 ^ 16). rewrite <- !Z.shiftl_mul_pow2, <- Z.shiftl_lor by lia.
  rewrite shiftl_lor by lia. done.
Qed.

Lemma top_bit freq : 0 < freq < 65536 → Z.lor 32768 freq = freq mod 32768 + 32768.
Proof.
  intros Hf. rewrite (Z.div_mod freq 32768) at 1 by lia.
  assert (Hq : freq / 32768 = 0 ∨ freq / 32768 = 1) by mod_lia.
  pose proof (Z.mod_pos_bound freq 32768 ltac:(lia)) as Hm.
  replace (32768 * (freq / 32768) + freq mod 32768) with (Z.lor (32768 * (freq / 32768)) (freq mod 32768)).
  - rewrite Z.lor_assoc. replace (Z.lor 32768 (32768 * (freq / 32768))) with 32768 by by destruct Hq as [-> | ->].
    rewrite (lor_disjoint 32768 _ 15) by (done || lia). lia.
  - apply (lor_disjoint _ _ 15); [lia| |exact Hm]. by destruct Hq as [-> | ->].
Qed.

Section set.
Context (value : P → Z) (reg : Z) `{!PwmRegister value reg}.

Definition present (s : backlight) : Prop := pwm_mmio s = Some reg ∧ 0 ≤ value (regs s) < 2 ^ 32.

Lemma backlight_set_run percent (s : backlight) :
  present s → 0 ≤ percent < 256 → freq_of (value (regs s)) ≠ 0 →
  wp (backlight_set percent) (λ _ s', pwm_mmio s' = Some reg ∧ cur_percent s' = Z.min 100 percent ∧
    value (regs s') = (freq_of (value (regs s)) mod 32768 + 32768) * 65536
                      + level percent (freq_of (value (regs s)))) s.
Proof.
  intros [Hp Hv] Hpc Hf. unfold backlight_set. wp_pure. rewrite Hp.
  assert (Hmin : (if 100 <? percent then 100 else percent) = Z.min 100 percent)
    by (destruct (Z.ltb_spec 100 percent); lia).
  unfold mmio_rd. apply wp_bind. exists (value (regs s)). eexists. rewrite law_read. split; [done|].
  cbv zeta. rewrite freq_field, (proj2 (Z.eqb_neq _ _) Hf), Hmin by done.
  set (f := freq_of (value (regs s))) in *. assert (Hfr : 0 < f < 65536) by (unfold f, freq_of in *; mod_lia).
  unfold mmio_wr. wp_pure. apply wp_modify. cbn [pwm_mmio cur_percent regs].
  split; [exact Hp|]. split; [done|]. rewrite law_write.
  assert (Hlt : 0 ≤ Z.min 100 percent * f ≤ 100 * f) by nia.
  rewrite (u32_small (Z.min 100 percent * f)) by lia.
  assert (Hd : (if truthy (Z.min 100 percent * f / 100) then Z.min 100 percent * f / 100 else 1) = level percent f).
  { unfold level, truthy. destruct (Z.eqb_spec (Z.min 100 percent * f / 100) 0); cbn [negb]; mod_lia. }
  rewrite Hd, packed, top_bit; [done|done|done|]. unfold level. mod_lia.
Qed.
End set.
End backlight.
Arguments backlight : clear implicits.

(** ** The theorems *)

(** Functional correctness, on every branch. Where there is a PWM register, setting
    a brightness remembers it, at most 100, and makes the duty cycle that
    fraction of the frequency the register holds, but never 0; a register without
    a frequency, or no register at all, is left alone. The enable bit lies in the
    frequency field: setting it is what makes the frequency read back afterwards
    differ from the one that was there. *)
Theorem backlight_set_spec {P} `{Regs32 P} (value : P → Z) reg `{!PwmRegister value reg} percent (s : backlight P) :
  0 ≤ percent < 256 → 0 ≤ value (regs s) < 2 ^ 32 →
  (pwm_mmio s = None → backlight_set percent s = Some (tt, s)) ∧
  (pwm_mmio s = Some reg → freq_of (value (regs s)) = 0 → wp (backlight_set percent) (λ _ s', s' = s) s) ∧
  (pwm_mmio s = Some reg → freq_of (value (regs s)) ≠ 0 →
     wp (backlight_set percent) (λ _ s', cur_percent s' = Z.min 100 percent ∧
       duty_of (value (regs s')) = level percent (freq_of (value (regs s))) ∧
       freq_of (value (regs s')) = freq_of (value (regs s)) mod 32768 + 32768) s).
Proof.
  intros Hp Hv. split_and!.
  - intros E. unfold backlight_set, bind, gets. by rewrite E.
  - intros E Hf. unfold backlight_set. wp_pure. rewrite E. unfold mmio_rd. apply wp_bind.
    exists (value (regs s)). eexists. rewrite law_read. split; [done|]. cbv zeta.
    rewrite freq_field, Hf by done. apply wp_ret. by destruct s.
  - intros E Hf. eapply wp_mono; [by apply (backlight_set_run value reg)|]. intros [] s' (_ & Hc & Hval).
    assert (Hfr : 0 < freq_of (value (regs s)) < 65536) by (unfold freq_of in *; mod_lia).
    assert (Hlv : 0 ≤ level percent (freq_of (value (regs s))) < 65536).
    { unfold level. assert (0 ≤ Z.min 100 percent * freq_of (value (regs s)) ≤ 100 * freq_of (value (regs s))) by nia. mod_lia. }
    split; [done|]. rewrite Hval. generalize dependent (level percent (freq_of (value (regs s)))). intros lv _ Hlv.
    unfold duty_of. rewrite Z.add_comm, Z_mod_plus_full. split; [by apply Z.mod_small|].
    unfold freq_of at 1. rewrite Z.div_add, Z.div_small by lia. lia.
Qed.

(** *** A concrete register *)

#[export] Instance demo_pwm : Regs32 Z := {| reg_read := λ _ v, (v, v); reg_write := λ _ v _, v |}.
#[export] Instance demo_pwm_law reg : PwmRegister id reg.
Proof. by split. Qed.
Definition demo_backlight : backlight Z := Backlight (Some 0xF0061254) 100 (1000 * 65536 + 1000).

Lemma backlight_set_spec_witness :
  wp (backlight_set 50) (λ _ s', cur_percent s' = 50 ∧ duty_of (regs s') = 500 ∧ freq_of (regs s') = 33768) demo_backlight.
Proof.
  destruct (backlight_set_spec id 0xF0061254 50 demo_backlight) as (_ & _ & Hset); [lia|by cbv|].
  apply Hset; [reflexivity|]. by cbv.
Defined.

(** Setting the same brightness again moves the duty cycle: 50 percent of the
    frequency with the enable bit in it. *)
Example backlight_set_drifts :
  (let* _ := backlight_set 50 in let* a := gets regs in let* _ := backlight_set 50 in let* b := gets regs in
   ret (duty_of a, duty_of b)) demo_backlight = Some ((500, 16884), Backlight (Some 0xF0061254) 50 (33768 * 65536 + 16884)).
Proof. reflexivity. Qed.
