(* ===== verification/Acpi.v ===== *)
(** * drivers/acpi/rsdp.c, drivers/acpi/fadt.c: finding and reading ACPI tables

    Physical memory is a function from addresses to bytes; every address can be
    read. What the code copies into an object of its own (the 36 bytes of
    [found_rsdp]) is a byte list, and reading past that object is undefined
    behaviour. Messages are left out. *)
From S2P Require Import Prelude KString.

Definition sizeof_rsdp : Z := 36.
Definition sizeof_sdt : Z := 36.

Record acpi_fadt := AcpiFadt {
  fadt_valid : bool;
  sci_int : Z;
  smi_cmd_port : Z;
  acpi_enable_val : Z;
  acpi_disable_val : Z;
  pm1a_cnt_port : Z;
  dsdt_addr : Z;
  dsdt_oem_table : list Z;
}.
Definition fadt_zero : acpi_fadt := AcpiFadt false 0 0 0 0 0 0 (zeros 9).

Record acpi := Acpi {
  found_rsdp : list Z;
  have_rsdp : bool;
  fadt : acpi_fadt;
  acpi_ready : bool;
}.
Definition acpi_boot : acpi := Acpi (zeros 36) false fadt_zero false.

Section acpi.
Variable mem : Z → Z.
(** [sizeof] has the width of an address. *)
Variable addr_bits : Z.

Definition bytes_at (p n : Z) : list Z := mem <$> seqZ p n.
Definition mem8 (p : Z) : Z := mem p.
Definition mem16 (p : Z) : Z := le_of (bytes_at p 2).
Definition mem32 (p : Z) : Z := le_of (bytes_at p 4).
Definition mem64 (p : Z) : Z := le_of (bytes_at p 8).

(** ** rsdp.c *)

Definition sum8 (l : list Z) : Z := foldl (λ s b, u8 (s + b)) 0 l.

(** [checksum_ok] on an object. *)
Definition checksum_ok (p : list Z) (len : Z) : option bool :=
  l ← slice p 0 len; Some (sum8 l =? 0).

Definition RSD_PTR : list Z := chars "RSD PTR ".

Definition validate_rsdp (r : list Z) : option bool :=
  cmp ← k_strncmp r (RSD_PTR ++ [0]) 8;
  if negb (cmp =? 0) then Some false
  else
    ok ← checksum_ok r 20;
    if negb (ok : bool) then Some false
    else
      revision ← ld8 r 15;
      if 2 <=? revision then
        len ← ld32 r 20;
        checksum_ok r len
      else Some true.

(** The body of both loops. *)
Definition try_rsdp (p : Z) : M acpi bool :=
  let r := bytes_at p sizeof_rsdp in
  modify (λ s, Acpi r (have_rsdp s) (fadt s) (acpi_ready s)) ;;
  let* ok := lift (validate_rsdp r) in
  modify (λ s, Acpi (found_rsdp s) ok (fadt s) (acpi_ready s)) ;;
  ret ok.

(** [for (p = start; p + sizeof(found_rsdp) <= end; p += 16)]: the addresses,
    and the loop over them. *)
Definition candidates (start end_ : Z) : list Z :=
  (λ i, start + 16 * i) <$> seqZ 0 ((end_ - sizeof_rsdp - start) / 16 + 1).
Fixpoint scan_rsdp (ps : list Z) : M acpi bool :=
  match ps with
  | [] => ret false
  | p :: ps => let* ok := try_rsdp p in if ok : bool then ret true else scan_rsdp ps
  end.

Definition acpi_find_rsdp : M acpi bool :=
  let ebda_seg := mem16 0x40E in
  let start := Z.shiftl ebda_seg 4 in
  let* ok := scan_rsdp (candidates start (start + 1024)) in
  if ok : bool then ret true else scan_rsdp (candidates 0xE0000 0xFFFFF).

(** NULL is [None]. *)
Definition acpi_rsdp_get : M acpi (option (list Z)) :=
  gets (λ s, if have_rsdp s then Some (found_rsdp s) else None).

(** ** fadt.c *)

(** Not called by the walk. *)
Definition header_ok (h : Z) : bool := sum8 (bytes_at h (mem32 (h + 4))) =? 0.

Definition FACP : list Z := chars "FACP".

(** The fields of the table at [h]. *)
Definition read_fadt (h : Z) : acpi_fadt :=
  let dsdt := mem32 (h + 40) in
  AcpiFadt true (mem16 (h + 46)) (mem32 (h + 48)) (mem8 (h + 52)) (mem8 (h + 53)) (mem32 (h + 64)) dsdt
    (bytes_at (dsdt + 16) 8 ++ [0]).

Definition handle_table (h : Z) : M acpi unit :=
  if (mem8 h =? 70) && (mem8 (h + 1) =? 65) && (mem8 (h + 2) =? 67) && (mem8 (h + 3) =? 80)
  then modify (λ s, Acpi (found_rsdp s) (have_rsdp s) (read_fadt h) (acpi_ready s))
  else ret tt.

(** [acpi_init] reads a pointer at address 0 and drops it. *)
Definition acpi_init : M acpi unit :=
  modify (λ s, Acpi (found_rsdp s) (have_rsdp s) (fadt s) false).

(** The loops over the entries, [n] rounds from entry [i]. *)
Fixpoint walk_xsdt (n : nat) (entries i : Z) : M acpi unit :=
  match n with
  | O => ret tt
  | S n =>
      let e := mem64 (entries + 8 * i) in
      (if 0x100000000 <=? e then ret tt else handle_table e) ;;
      walk_xsdt n entries (i + 1)
  end.
Fixpoint walk_rsdt (n : nat) (entries i : Z) : M acpi unit :=
  match n with
  | O => ret tt
  | S n =>
      let e := mem32 (entries + 4 * i) in
      (if e =? 0 then ret tt else handle_table e) ;;
      walk_rsdt n entries (i + 1)
  end.

(** The rounds of [for (i = 0; i < count && i < 32; i++)], the count being that
    of entries of [w] bytes after the header; the subtraction wraps at the
    width of [sizeof], the count is a u32. *)
Definition entry_rounds (h w : Z) : nat :=
  let count := u32 (((mem32 (h + 4) - sizeof_sdt) mod 2 ^ addr_bits) / w) in
  Z.to_nat (Z.min count 32).

Definition acpi_walk_tables (rsdp : option (list Z)) : M acpi unit :=
  modify (λ s, Acpi (found_rsdp s) (have_rsdp s) (fadt s) false) ;;
  match rsdp with
  | None => ret tt
  | Some r =>
      let* revision := lift (ld8 r 15) in
      let* xsdt := lift (ld64 r 24) in
      let* rsdt := lift (ld32 r 16) in
      (if (2 <=? revision) && negb (xsdt =? 0) && (xsdt <? 0x100000000)
       then walk_xsdt (entry_rounds xsdt 8) (xsdt + sizeof_sdt) 0
       else walk_rsdt (entry_rounds rsdt 4) (rsdt + sizeof_sdt) 0) ;;
      modify (λ s, Acpi (found_rsdp s) (have_rsdp s) (fadt s) (fadt_valid (fadt s)))
  end.

Definition acpi_available : M acpi bool := gets acpi_ready.

(** The part of [bringup_discovery] (init/boot_flow.c) about ACPI. *)
Definition acpi_bringup : M acpi unit :=
  let* ok := acpi_find_rsdp in
  if ok : bool then
    let* r := acpi_rsdp_get in
    acpi_walk_tables r
  else ret tt.
End acpi.

(** ** What the search is to find

    A root pointer: its signature, the checksum of its first 20 bytes and, from
    revision 2 on, that of the length it gives. *)
Definition zsum (l : list Z) : Z := foldr Z.add 0 l.
Definition valid_rsdp (l : list Z) : bool :=
  if bool_decide (take 8 l ≠ RSD_PTR) then false
  else if negb (zsum (take 20 l) mod 256 =? 0) then false
  else if nth 15 l 0 <? 2 then true
  else zsum (take (Z.to_nat (le_of (take 4 (drop 20 l)))) l) mod 256 =? 0.
(** A pointer of revision 2 that does not claim more bytes than the code copies. *)
Definition fits_rsdp (l : list Z) : Prop :=
  take 8 l = RSD_PTR → 2 ≤ nth 15 l 0 → le_of (take 4 (drop 20 l)) ≤ sizeof_rsdp.

Lemma sum8_eq l : sum8 l = zsum l mod 256.
Proof.
  unfold sum8. assert (H : ∀ a, 0 ≤ a < 256 → foldl (λ s b, u8 (s + b)) a l = (a + zsum l) mod 256).
  { induction l as [|b l IH]; intros a Ha; cbn [foldl zsum foldr].
    - rewrite Z.add_0_r. symmetry. by apply Z.mod_small.
    - rewrite IH by apply u8_range. unfold u8, zsum. rewrite Zplus_mod_idemp_l. f_equal. lia. }
  rewrite H by lia. by rewrite Z.add_0_l.
Qed.

Lemma checksum_eq l n : 0 ≤ n ≤ zlen l → checksum_ok l n = Some (zsum (take (Z.to_nat n) l) mod 256 =? 0).
Proof.
  intros Hn. unfold checksum_ok. assert (E : slice l 0 n = Some (take (Z.to_nat n) l)) by (apply slice_Some; split_and!; done || lia).
  rewrite E. cbn [mbind option_bind]. by rewrite sum8_eq.
Qed.

Lemma validate_eq l : length l = 36%nat → bytes_ok l → fits_rsdp l → validate_rsdp l = Some (valid_rsdp l).
Proof.
  intros Hl Hb Hf. unfold validate_rsdp, valid_rsdp, fits_rsdp, sizeof_rsdp in *.
  assert (Hz : zlen l = 36) by (unfold zlen; lia).
  destruct (k_strncmp_prefix 8 l (RSD_PTR ++ [0])) as (r & Er & Hr); [lia|by cbv; lia|done| |].
  { change (take 8 (RSD_PTR ++ [0])) with RSD_PTR. by repeat constructor; cbv. }
  change (Z.to_nat 8) with 8%nat. rewrite Er. cbn [mbind option_bind]. change (take 8 (RSD_PTR ++ [0])) with RSD_PTR in Hr.
  destruct (Z.eqb_spec r 0) as [E|E]; cbn [negb].
  2: { by rewrite bool_decide_true by tauto. }
  rewrite bool_decide_false by tauto. rewrite checksum_eq by lia. cbn [mbind option_bind].
  change (Z.to_nat 20) with 20%nat. destruct (zsum (take 20 l) mod 256 =? 0); cbn [negb]; [|done].
  destruct (lookup_lt_is_Some_2 l 15 ltac:(lia)) as [rev Erev].
  rewrite (ld8_eq l 15 rev) by done. rewrite (nth_lookup_Some _ _ _ _ Erev). cbn [mbind option_bind].
  destruct (Z.leb_spec 2 rev), (Z.ltb_spec rev 2); try lia; [|done].
  assert (E4 : ld32 l 20 = Some (le_of (take 4 (drop 20 l)))).
  { unfold ld32, ld. rewrite (proj2 (slice_Some l 20 4 (take 4 (drop 20 l)))) by (split_and!; done || lia). done. }
  rewrite E4. cbn [mbind option_bind]. apply checksum_eq. pose proof (ld_range 4 l 20 _ Hb E4).
  rewrite (nth_lookup_Some _ _ _ _ Erev) in Hf. split; [lia|]. rewrite Hz. apply Hf; tauto.
Qed.

(** A length that exceeds it makes the checksum run past the copy. *)
Lemma long_rsdp_undefined l :
  length l = 36%nat → bytes_ok l → take 8 l = RSD_PTR → zsum (take 20 l) mod 256 = 0 → 2 ≤ nth 15 l 0 →
  sizeof_rsdp < le_of (take 4 (drop 20 l)) → validate_rsdp l = None.
Proof.
  intros Hl Hb Hs Hc Hr Hf. unfold validate_rsdp, sizeof_rsdp in *. assert (Hz : zlen l = 36) by (unfold zlen; lia).
  destruct (k_strncmp_prefix 8 l (RSD_PTR ++ [0])) as (r & Er & Hr0); [lia|by cbv; lia|done| |].
  { change (take 8 (RSD_PTR ++ [0])) with RSD_PTR. by repeat constructor; cbv. }
  change (Z.to_nat 8) with 8%nat. rewrite Er. cbn [mbind option_bind]. rewrite (proj2 Hr0) by done. cbn [Z.eqb negb].
  rewrite checksum_eq by lia. change (Z.to_nat 20) with 20%nat. rewrite Hc. cbn [mbind option_bind Z.eqb negb].
  destruct (lookup_lt_is_Some_2 l 15 ltac:(lia)) as [rev Erev]. rewrite (nth_lookup_Some _ _ _ _ Erev) in Hr.
  rewrite (ld8_eq l 15 rev) by done. cbn [mbind option_bind]. rewrite (proj2 (Z.leb_le 2 rev)) by lia.
  assert (E4 : ld32 l 20 = Some (le_of (take 4 (drop 20 l)))).
  { unfold ld32, ld. rewrite (proj2 (slice_Some l 20 4 (take 4 (drop 20 l)))) by (split_and!; done || lia). done. }
  rewrite E4. cbn [mbind option_bind]. unfold checksum_ok, slice. rewrite (proj2 (Z.leb_gt (0 + _) _)) by lia.
  by rewrite andb_false_r.
Qed.

Section search.
Context (mem : Z → Z) (Hmem : ∀ a, byte_ok (mem a)).

Lemma bytes_at_ok p n : bytes_ok (bytes_at mem p n).
Proof. apply Forall_fmap, Forall_forall. intros a _. apply Hmem. Qed.
Lemma bytes_at_length p n : length (bytes_at mem p n) = Z.to_nat n.
Proof. unfold bytes_at. by rewrite length_fmap, length_seqZ. Qed.

Definition is_rsdp (p : Z) : bool := valid_rsdp (bytes_at mem p sizeof_rsdp).

(** The loop stops at the first root pointer. *)
Lemma scan_wp ps (s : acpi) :
  (∀ p, p ∈ ps → fits_rsdp (bytes_at mem p sizeof_rsdp)) →
  wp (scan_rsdp mem ps) (λ ok s', (fadt s' = fadt s ∧ acpi_ready s' = acpi_ready s) ∧ match find is_rsdp ps with
    | Some p => ok = true ∧ have_rsdp s' = true ∧ found_rsdp s' = bytes_at mem p sizeof_rsdp
    | None => ok = false ∧ have_rsdp s' = match ps with [] => have_rsdp s | _ => false end end) s.
Proof.
  revert s. induction ps as [|p ps IH]; intros s Hfit; cbn [scan_rsdp find]; [by apply wp_ret|].
  unfold try_rsdp. cbv zeta. apply wp_bind. wp_pure.
  rewrite validate_eq; [|by rewrite bytes_at_length|apply bytes_at_ok|apply Hfit; by left].
  wp_apply (wp_lift _ _ (λ ok s', ok = is_rsdp p ∧ s' = Acpi (bytes_at mem p sizeof_rsdp) (have_rsdp s) (fadt s) (acpi_ready s)));
    [done|done|]. intros ok s' [-> ->]. wp_pure. apply wp_ret. cbn [found_rsdp have_rsdp fadt acpi_ready].
  destruct (is_rsdp p); [by apply wp_ret|].
  eapply wp_mono; [apply IH; intros q Hq; apply Hfit; by right|]. intros ok s'. cbv beta.
  destruct (find is_rsdp ps) eqn:E; [done|]. intros (Hk & -> & Hhave). split; [exact Hk|]. split; [done|].
  rewrite Hhave. by destruct ps.
Qed.

Lemma find_app {A} (f : A → bool) l k : find f (l ++ k) = match find f l with Some x => Some x | None => find f k end.
Proof. induction l as [|x l IH]; [done|]. cbn. by destruct (f x). Qed.

(** The places the specification names, on 16-byte boundaries: those of the first
    kilobyte of the EBDA, then those of the BIOS area, where the structure fits. *)
Definition places (start len : Z) : list Z :=
  filter (λ p, p + 36 ≤ start + len) ((λ i, start + 16 * i) <$> seqZ 0 (len / 16)).
Definition search_area : list Z :=
  let ebda := 16 * mem16 mem 0x40E in places ebda 1024 ++ places 0xE0000 0x20000.

Lemma filter_all {A} (Q : A → Prop) `{∀ x, Decision (Q x)} l : Forall Q l → filter Q l = l.
Proof. induction 1; cbn; [done|]. rewrite decide_True by done. by f_equal. Qed.
Lemma filter_none {A} (Q : A → Prop) `{∀ x, Decision (Q x)} l : Forall (λ x, ¬ Q x) l → filter Q l = [].
Proof. induction 1; cbn; [done|]. by rewrite decide_False. Qed.

Lemma places_eq start len n : 0 ≤ n → 16 * n + 20 ≤ len → len < 16 * n + 36 →
  places start len = (λ i, start + 16 * i) <$> seqZ 0 n.
Proof.
  intros Hn H1 H2. unfold places. assert (n ≤ len / 16) by (apply Z.div_le_lower_bound; lia).
  replace (len / 16) with (n + (len / 16 - n)) by lia.
  rewrite seqZ_app by lia. rewrite fmap_app, list.filter_app. rewrite (filter_all _ (_ <$> seqZ 0 n)), filter_none, app_nil_r; [done|..].
  - apply list.Forall_fmap, list.Forall_forall. intros i Hi%elem_of_seqZ. cbn. lia.
  - apply list.Forall_fmap, list.Forall_forall. intros i Hi%elem_of_seqZ. cbn. lia.
Qed.

Lemma places_bound p start len : p ∈ places start len → start ≤ p ∧ p + 36 ≤ start + len.
Proof. unfold places. intros [Hp (i & -> & Hi%elem_of_seqZ)%list_elem_of_fmap]%list_elem_of_filter. lia. Qed.

Lemma candidates_places start len end_ : 36 ≤ len → end_ ≤ start + len → (end_ - 36 - start) / 16 = (len - 36) / 16 →
  candidates start end_ = places start len.
Proof. intros H1 H2 H3. unfold candidates, sizeof_rsdp. symmetry. apply places_eq; Z.to_euclidean_division_equations; lia. Qed.

Lemma find_rsdp_wp (s : acpi) :
  (∀ p, p ∈ search_area → fits_rsdp (bytes_at mem p sizeof_rsdp)) →
  wp (acpi_find_rsdp mem) (λ ok s', (fadt s' = fadt s ∧ acpi_ready s' = acpi_ready s) ∧ match find is_rsdp search_area with
    | Some p => ok = true ∧ have_rsdp s' = true ∧ found_rsdp s' = bytes_at mem p sizeof_rsdp
    | None => ok = false ∧ have_rsdp s' = false end) s.
Proof.
  intros Hfit. unfold acpi_find_rsdp, search_area in *. cbv zeta in *. set (e := mem16 mem 0x40E) in *.
  assert (Z.shiftl e 4 = 16 * e) as -> by (rewrite Z.shiftl_mul_pow2 by done; lia).
  rewrite <- (candidates_places (16 * e) 1024 (16 * e + 1024)) in Hfit |- * by (done || lia || (f_equal; lia)).
  rewrite <- (candidates_places 0xE0000 0x20000 0xFFFFF) in Hfit |- * by done. rewrite find_app.
  wp_apply scan_wp. { intros p Hp. apply Hfit, elem_of_app. by left. }
  intros ok s1 [[K1 K2] H1]. destruct (find is_rsdp (candidates (16 * _) _)) as [p|].
  { destruct H1 as (-> & ? & ?). by apply wp_ret. }
  destruct H1 as [-> _]. rewrite <- K1, <- K2. eapply wp_mono; [apply scan_wp; intros p Hp; apply Hfit, elem_of_app; by right|].
  intros ok s2. cbv beta. by destruct (find is_rsdp (candidates 0xE0000 _)).
Qed.

(** ** What the walk is to read

    The root table the pointer [r] leads to, the tables it lists, 32 at most,
    and the last of them that is a FADT. *)
Definition is_facp (h : Z) : bool := bool_decide (bytes_at mem h 4 = FACP).
Definition use_xsdt (r : list Z) : bool :=
  let x := le_of (take 8 (drop 24 r)) in (2 <=? nth 15 r 0) && negb (x =? 0) && (x <? 2 ^ 32).
Definition root_table (r : list Z) : Z :=
  if use_xsdt r then le_of (take 8 (drop 24 r)) else le_of (take 4 (drop 16 r)).
Definition listed (h w : Z) : list Z :=
  (λ i, le_of (bytes_at mem (h + sizeof_sdt + w * i) w)) <$> seqZ 0 (Z.min 32 ((mem32 mem (h + 4) - sizeof_sdt) / w)).
Definition tables (r : list Z) : list Z :=
  if use_xsdt r then filter (λ e, e < 2 ^ 32) (listed (root_table r) 8)
  else filter (λ e, e ≠ 0) (listed (root_table r) 4).
Definition fadt_among (ts : list Z) (d : acpi_fadt) : acpi_fadt :=
  match list.last (filter (λ h, is_facp h = true) ts) with Some h => read_fadt mem h | None => d end.

Lemma fadt_among_cons h ts d :
  fadt_among (h :: ts) d = fadt_among ts (if is_facp h then read_fadt mem h else d).
Proof.
  unfold fadt_among. rewrite filter_cons. destruct (is_facp h); [rewrite decide_True by done|by rewrite decide_False by done].
  rewrite list.last_cons. by destruct (list.last (filter _ ts)).
Qed.

(** The table changed the FADT alone. *)
Definition with_fadt (d : acpi_fadt) (s : acpi) : acpi := Acpi (found_rsdp s) (have_rsdp s) d (acpi_ready s).

Lemma handle_table_wp h (s : acpi) :
  wp (handle_table mem h) (λ _ s', s' = with_fadt (if is_facp h then read_fadt mem h else fadt s) s) s.
Proof.
  unfold handle_table, is_facp, mem8. change (bytes_at mem h 4) with [mem (0 + h); mem (1 + h); mem (2 + h); mem (3 + h)].
  change FACP with [70; 65; 67; 80]. rewrite Z.add_0_l, !(Z.add_comm _ h).
  destruct (Z.eqb_spec (mem h) 70), (Z.eqb_spec (mem (h + 1)) 65), (Z.eqb_spec (mem (h + 2)) 67), (Z.eqb_spec (mem (h + 3)) 80);
    cbn [andb]; first [rewrite bool_decide_true by congruence; by apply wp_modify
      | rewrite bool_decide_false by congruence; apply wp_ret; by destruct s].
Qed.

Lemma walk_xsdt_wp n e : ∀ i (s : acpi),
  wp (walk_xsdt mem n e i) (λ _ s', s' = with_fadt (fadt_among
    (filter (λ x, x < 2 ^ 32) ((λ i, mem64 mem (e + 8 * i)) <$> seqZ i (Z.of_nat n))) (fadt s)) s) s.
Proof.
  induction n as [|n IH]; intros i s; cbn [walk_xsdt]; [apply wp_ret; by destruct s|].
  rewrite seqZ_cons by lia. replace (Z.pred (Z.of_nat (S n))) with (Z.of_nat n) by lia. cbn [fmap list_fmap]. cbv zeta.
  rewrite filter_cons. fold (fmap (M := list) (λ i, mem64 mem (e + 8 * i))).
  destruct (Z.leb_spec 0x100000000 (mem64 mem (e + 8 * i))).
  - rewrite decide_False by lia. apply wp_bind, wp_ret. apply IH.
  - rewrite decide_True by lia. wp_apply handle_table_wp. intros _ s1 ->. rewrite fadt_among_cons.
    eapply wp_mono; [apply IH|]. by intros [] s2 ->.
Qed.

Lemma walk_rsdt_wp n e : ∀ i (s : acpi),
  wp (walk_rsdt mem n e i) (λ _ s', s' = with_fadt (fadt_among
    (filter (λ x, x ≠ 0) ((λ i, mem32 mem (e + 4 * i)) <$> seqZ i (Z.of_nat n))) (fadt s)) s) s.
Proof.
  induction n as [|n IH]; intros i s; cbn [walk_rsdt]; [apply wp_ret; by destruct s|].
  rewrite seqZ_cons by lia. replace (Z.pred (Z.of_nat (S n))) with (Z.of_nat n) by lia. cbn [fmap list_fmap]. cbv zeta.
  rewrite filter_cons. fold (fmap (M := list) (λ i, mem32 mem (e + 4 * i))).
  destruct (Z.eqb_spec (mem32 mem (e + 4 * i)) 0).
  - rewrite decide_False by congruence. apply wp_bind, wp_ret. apply IH.
  - rewrite decide_True by congruence. wp_apply handle_table_wp. intros _ s1 ->. rewrite fadt_among_cons.
    eapply wp_mono; [apply IH|]. by intros [] s2 ->.
Qed.

Lemma rounds_eq bits h w : bits = 32 ∨ bits = 64 → 0 < w → sizeof_sdt ≤ mem32 mem (h + 4) →
  Z.of_nat (entry_rounds mem bits h w) = Z.min 32 ((mem32 mem (h + 4) - sizeof_sdt) / w).
Proof.
  intros Hb Hw Hlen. unfold entry_rounds. cbv zeta.
  assert (Hr : 0 ≤ mem32 mem (h + 4) < 2 ^ 32).
  { unfold mem32. pose proof (le_of_range _ (bytes_at_ok (h + 4) 4)) as Hr. unfold zlen in Hr.
    by rewrite bytes_at_length in Hr. }
  unfold sizeof_sdt in *.
  assert (Hq : 0 ≤ (mem32 mem (h + 4) - 36) / w < 2 ^ 32).
  { split; [apply Z.div_pos; lia|]. apply Z.div_lt_upper_bound; nia. }
  rewrite (Z.mod_small _ (2 ^ bits)), u32_small by (destruct Hb as [-> | ->]; lia). lia.
Qed.

(** The fields of the pointer. *)
Lemma rsdp_fields r : length r = 36%nat →
  ld8 r 15 = Some (nth 15 r 0) ∧ ld64 r 24 = Some (le_of (take 8 (drop 24 r))) ∧ ld32 r 16 = Some (le_of (take 4 (drop 16 r))).
Proof.
  intros Hl. assert (Hz : zlen r = 36) by (unfold zlen; lia). split_and!.
  - destruct (lookup_lt_is_Some_2 r 15 ltac:(lia)) as [rev E]. rewrite (nth_lookup_Some _ _ _ _ E). by apply ld8_eq.
  - unfold ld64, ld. by rewrite (proj2 (slice_Some r 24 8 (take 8 (drop 24 r)))) by (split_and!; done || lia).
  - unfold ld32, ld. by rewrite (proj2 (slice_Some r 16 4 (take 4 (drop 16 r)))) by (split_and!; done || lia).
Qed.

Lemma walk_wp bits r (s : acpi) :
  bits = 32 ∨ bits = 64 → length r = 36%nat → sizeof_sdt ≤ mem32 mem (root_table r + 4) →
  wp (acpi_walk_tables mem bits (Some r)) (λ _ s', fadt s' = fadt_among (tables r) (fadt s) ∧
    acpi_ready s' = fadt_valid (fadt s')) s.
Proof.
  intros Hb Hl Hlen. unfold acpi_walk_tables. wp_pure. destruct (rsdp_fields r Hl) as (E1 & E2 & E3).
  rewrite E1, E2, E3.
  do 3 (apply wp_bind; eapply wp_lift; [reflexivity|]).
  unfold tables, root_table, use_xsdt in *. cbv zeta in *. change 0x100000000 with (2 ^ 32) in *.
  destruct ((2 <=? nth 15 r 0) && negb (le_of (take 8 (drop 24 r)) =? 0) && (le_of (take 8 (drop 24 r)) <? 2 ^ 32)).
  - wp_apply walk_xsdt_wp. intros _ s1 ->. apply wp_modify. unfold listed. by rewrite rounds_eq.
  - wp_apply walk_rsdt_wp. intros _ s1 ->. apply wp_modify. unfold listed. by rewrite rounds_eq.
Qed.
End search.

(** ** The theorem *)

(** C27: Refinement, of discovery and walk together. On every machine whose candidate pointers
    do not claim to be longer than the code copies, the search ends at the first
    valid root pointer of the EBDA and the BIOS area, in that order, or reports
    that there is none; and after the walk the FADT on record is that of the last
    FACP table among the first 32 the root table lists: the 64-bit entries below
    4 GiB where the pointer has an XSDT, otherwise the 32-bit ones that are not
    null. ACPI counts as available exactly when one was read. *)
Theorem acpi_bringup_spec mem bits (s : acpi) :
  (∀ a, byte_ok (mem a)) → bits = 32 ∨ bits = 64 →
  (∀ p, p ∈ search_area mem → fits_rsdp (bytes_at mem p sizeof_rsdp)) →
  (∀ p, find (is_rsdp mem) (search_area mem) = Some p →
     sizeof_sdt ≤ mem32 mem (root_table (bytes_at mem p sizeof_rsdp) + 4)) →
  wp (acpi_bringup mem bits) (λ _ s', match find (is_rsdp mem) (search_area mem) with
    | Some p => fadt s' = fadt_among mem (tables mem (bytes_at mem p sizeof_rsdp)) (fadt s) ∧
                acpi_ready s' = fadt_valid (fadt s')
    | None => have_rsdp s' = false ∧ fadt s' = fadt s ∧ acpi_ready s' = acpi_ready s end) s.
Proof.
  intros Hmem Hb Hfit Hlen. unfold acpi_bringup. wp_apply (find_rsdp_wp mem Hmem s Hfit).
  intros ok s1 [[K1 K2] H1]. destruct (find (is_rsdp mem) (search_area mem)) as [p|].
  - destruct H1 as (-> & Hh & Hf). unfold acpi_rsdp_get. apply wp_bind, wp_gets. rewrite Hh, Hf, <- K1.
    apply walk_wp; [done|done|by rewrite bytes_at_length|by apply Hlen].
  - destruct H1 as [-> Hh]. by apply wp_ret.
Qed.

(** *** A concrete machine

    A root pointer in the EBDA, a root table with a null entry and one FADT,
    and the table that names. *)
Definition segment : Type := Z * list Z.
Fixpoint seg_mem (l : list segment) (a : Z) : Z :=
  match l with
  | [] => 0
  | (base, bs) :: l => if (base <=? a) && (a <? base + zlen bs) then nth (Z.to_nat (a - base)) bs 0 else seg_mem l a
  end.
Lemma seg_mem_ok l a : Forall (λ s : segment, bytes_ok s.2) l → byte_ok (seg_mem l a).
Proof.
  induction 1 as [|[b bs] l Hb _ IH]; cbn [seg_mem]; [by cbv|]. case_if; [|done]. bool_prop. cbn in Hb.
  destruct (nth_in_or_default (Z.to_nat (a - b)) bs 0) as [Hin | ->]; [|by cbv].
  apply list_elem_of_In in Hin. by eapply list.Forall_forall in Hb.
Qed.

Definition demo_acpi : list segment := [
  (0x40E, [0xC0; 0x9F]);
  (0x9FC10, RSD_PTR ++ [18] ++ chars "OBSIDN" ++ [0] ++ le_to 4 0x1000 ++ zeros 16);
  (0x1000, chars "RSDT" ++ le_to 4 44 ++ zeros 28 ++ le_to 4 0 ++ le_to 4 0x2000);
  (0x2000, FACP ++ le_to 4 116 ++ zeros 32 ++ le_to 4 0x3000 ++ zeros 2 ++ le_to 2 9 ++ le_to 4 0xB2 ++ [0xA0; 0xA1]
           ++ zeros 10 ++ le_to 4 0x604);
  (0x3010, chars "TABLE001")].

(** Nothing lies above the EBDA. *)
Lemma seg_mem_above l lim a : Forall (λ s : segment, s.1 + zlen s.2 ≤ lim) l → lim ≤ a → seg_mem l a = 0.
Proof.
  induction 1 as [|[b bs] l Hb _ IH]; intros Ha; cbn [seg_mem]; [done|]. cbn in Hb.
  rewrite (proj2 (Z.ltb_ge a _)), andb_false_r by lia. by apply IH.
Qed.
Lemma bytes_at_above l lim p n : Forall (λ s : segment, s.1 + zlen s.2 ≤ lim) l → lim ≤ p →
  bytes_at (seg_mem l) p n = zeros n.
Proof.
  intros Hl Hp. apply list_eq. intros i. unfold bytes_at, zeros. rewrite list_lookup_fmap.
  destruct (decide (i < Z.to_nat n)%nat).
  - rewrite lookup_seqZ_lt, lookup_replicate_2 by lia. cbn. f_equal. apply (seg_mem_above _ lim); [done|lia].
  - by rewrite lookup_seqZ_ge, lookup_ge_None_2 by (rewrite ?length_replicate; lia).
Qed.

Lemma acpi_bringup_spec_witness :
  find (is_rsdp (seg_mem demo_acpi)) (search_area (seg_mem demo_acpi)) = Some 0x9FC10 ∧
  wp (acpi_bringup (seg_mem demo_acpi) 64) (λ _ s',
    fadt s' = AcpiFadt true 9 0xB2 0xA0 0xA1 0x604 0x3000 (chars "TABLE001" ++ [0]) ∧ acpi_ready s' = true) acpi_boot.
Proof.
  assert (E : find (is_rsdp (seg_mem demo_acpi)) (search_area (seg_mem demo_acpi)) = Some 0x9FC10) by by vm_compute.
  split; [exact E|]. eapply wp_mono.
  - apply (acpi_bringup_spec (seg_mem demo_acpi) 64 acpi_boot).
    + intros a. apply seg_mem_ok. repeat constructor; by cbv.
    + by right.
    + intros p [Hp|Hp]%elem_of_app.
      * assert (F : forallb (λ p, nth 15 (bytes_at (seg_mem demo_acpi) p sizeof_rsdp) 0 <? 2) (places 0x9FC00 1024) = true)
          by by vm_compute.
        rewrite forallb_forall in F. apply list_elem_of_In, F, Z.ltb_lt in Hp. intros _ ?. lia.
      * apply places_bound in Hp. unfold fits_rsdp.
        rewrite (bytes_at_above _ 0xE0000); [discriminate|repeat constructor; by cbv|lia].
    + rewrite E. intros p [= <-]. by vm_compute.
  - rewrite E. intros [] s' [-> ->]. by split; vm_compute.
Defined.
