(* ===== verification/Smbios.v ===== *)
(** * drivers/firmware/smbios.c: the SMBIOS tables

    Physical memory is a function from addresses to bytes, as in [Acpi]. The
    loops that look for the end of a string or of a string area have no bound in
    the code; they take fuel. *)
From S2P Require Import Prelude KString Acpi.

Definition SCAN_BASE : Z := 0xF0000.
Definition SCAN_LIMIT : Z := 0x100000.

Record smbios := Smbios { dmi_vendor : list Z; dmi_product : list Z }.
Definition smbios_boot : smbios := Smbios (zeros 64) (zeros 96).

Section smbios.
Variable mem : Z → Z.

(** [while ( *p) p++;] *)
Fixpoint skip_string (fuel : nat) (p : Z) : option Z :=
  match fuel with
  | O => None
  | S f => if mem p =? 0 then Some p else skip_string f (p + 1)
  end.

(** The characters at [p], up to [n] of them and to a NUL. *)
Fixpoint chars_at (n : nat) (p : Z) : list Z :=
  match n with
  | O => []
  | S n => if mem p =? 0 then [] else mem p :: chars_at n (p + 1)
  end.

(** The loop of [copy_string]; [dst] has room for [zlen dst] bytes, and the
    copy stops one short of it for the NUL. *)
Fixpoint copy_loop (fuel : nat) (p i n : Z) (dst : list Z) : option (list Z) :=
  match fuel with
  | O => None
  | S f =>
      if (mem p =? 0) || (n <? i) then Some dst
      else if i =? n then splice dst 0 (chars_at (length dst - 1) p ++ [0])
      else
        q ← skip_string fuel p;
        copy_loop f (q + 1) (i + 1) n dst
  end.
Definition copy_string (fuel : nat) (p n : Z) (dst : list Z) : option (list Z) :=
  dst ← st8 dst 0 0;
  copy_loop fuel p 1 n dst.

Definition parse_type1 (fuel : nat) (base len : Z) : M smbios bool :=
  if (len <? 27) || negb (mem8 mem (base + 4) =? 1) then ret false
  else
    let strings := base + mem8 mem (base + 2) in
    let* v := gets dmi_vendor in
    let* v := lift (copy_string fuel strings (mem8 mem (base + 8)) v) in
    modify (λ s, Smbios v (dmi_product s)) ;;
    let* q := gets dmi_product in
    let* q := lift (copy_string fuel strings (mem8 mem (base + 9)) q) in
    modify (λ s, Smbios (dmi_vendor s) q) ;;
    ret true.

(** [while (!(p[0] == 0 && p[1] == 0)) p++;] and its twin in [parse_smbios3]. *)
Fixpoint skip_area (fuel : nat) (p : Z) : option Z :=
  match fuel with
  | O => None
  | S f => if (mem p =? 0) && (mem (p + 1) =? 0) then Some p else skip_area f (p + 1)
  end.

(** The structures of a 2.x table, [n] to go. *)
Fixpoint walk2 (fuel n : nat) (p : Z) : M smbios bool :=
  match n with
  | O => ret false
  | S n =>
      if (mem8 mem (p + 1) =? 5) || (mem8 mem (p + 1) =? 127) then ret false
      else
        let len := mem8 mem (p + 1) in
        let* found := if mem8 mem p =? 1 then parse_type1 fuel p len else ret false in
        if found : bool then ret true
        else
          let* q := lift (skip_area fuel (p + len)) in
          walk2 fuel n (q + 2)
  end.

Definition parse_smbios2 (fuel : nat) (anchor : Z) : M smbios bool :=
  let table_addr := mem32 mem (anchor + 0x18) in
  let nstructs := mem16 mem (anchor + 0x16) in
  if (table_addr =? 0) || (nstructs =? 0) then ret false
  else walk2 fuel (Z.to_nat nstructs) table_addr.

(** [left] is unsigned and wraps. *)
Fixpoint walk3 (fuel : nat) (p left : Z) : M smbios bool :=
  match fuel with
  | O => fault
  | S f =>
      if negb ((4 <? left) && negb (mem8 mem (p + 1) =? 127)) then ret false
      else
        let len := mem8 mem (p + 1) in
        let* found := if mem8 mem p =? 1 then parse_type1 fuel p len else ret false in
        if found : bool then ret true
        else
          let* q := lift (skip_area fuel (p + len)) in
          walk3 f (q + 2) (u32 (u32 (left - len) - 2))
  end.

Definition parse_smbios3 (fuel : nat) (anchor : Z) : M smbios bool :=
  let addr := mem64 mem (anchor + 0x30) in
  let maxlen := mem32 mem (anchor + 0x28) in
  if (addr =? 0) || (0x100000000 <=? addr) || (maxlen =? 0) then ret false
  else walk3 fuel (u32 addr) maxlen.

Definition is_anchor (p : Z) (s : list Z) : option bool :=
  cmp ← k_strncmp (bytes_at mem p (zlen s)) (s ++ [0]) (length s); Some (cmp =? 0).

(** [for (p = SCAN_BASE; p < SCAN_LIMIT; p += 16)], [n] rounds to go. *)
Fixpoint scan_anchor (fuel n : nat) (p : Z) : M smbios bool :=
  match n with
  | O => ret false
  | S n =>
      if negb (mem8 mem p =? 95) then scan_anchor fuel n (p + 16)
      else if negb (mem8 mem (p + 1) =? 83) || negb (mem8 mem (p + 2) =? 77) then scan_anchor fuel n (p + 16)
      else
        let* sm2 := lift (is_anchor p (chars "_SM_")) in
        let* ok := if sm2 then parse_smbios2 fuel p else ret false in
        if ok : bool then ret true
        else
          let* sm3 := lift (is_anchor p (chars "_SM3_")) in
          let* ok := if sm3 then parse_smbios3 fuel p else ret false in
          if ok : bool then ret true else scan_anchor fuel n (p + 16)
  end.

Definition smbios_init (fuel : nat) : M smbios bool :=
  let* s := get in
  let* v := lift (st8 (dmi_vendor s) 0 0) in
  let* q := lift (st8 (dmi_product s) 0 0) in
  modify (λ _, Smbios v q) ;;
  scan_anchor fuel (Z.to_nat ((SCAN_LIMIT - SCAN_BASE) / 16)) SCAN_BASE.
End smbios.

(** ** Encoded structures

    A structure is its formatted area, whose second byte is its length, and its
    strings; the strings follow the formatted area, each with a NUL, and one
    more NUL ends them. *)
Definition texts (ss : list (list Z)) : list Z := concat (map (λ s, s ++ [0]) ss).
Definition area (ss : list (list Z)) : list Z := match ss with [] => [0] | _ => texts ss end ++ [0].

Record structure := Structure { fixed : list Z; strs : list (list Z) }.
Definition encode_structure (x : structure) : list Z := fixed x ++ area (strs x).

Definition text_ok (s : list Z) : Prop := nonul s ∧ s ≠ [].
Record structure_ok (x : structure) : Prop := {
  str_len : fixed x !! 1%nat = Some (zlen (fixed x)) ∧ (4 ≤ length (fixed x))%nat;
  str_strings : Forall text_ok (strs x);
}.

Section holds.
Context (mem : Z → Z).

(** The bytes [l] are at address [p]. *)
Fixpoint holds (p : Z) (l : list Z) : Prop :=
  match l with
  | [] => True
  | b :: l => mem p = b ∧ holds (p + 1) l
  end.

Lemma holds_app l k : ∀ p, holds p (l ++ k) ↔ holds p l ∧ holds (p + zlen l) k.
Proof.
  induction l as [|b l IH]; intros p; cbn [app holds]; [rewrite zlen_nil, Z.add_0_r; tauto|].
  rewrite IH, zlen_cons. replace (p + (1 + zlen l)) with (p + 1 + zlen l) by lia. tauto.
Qed.
Lemma holds_lookup l : ∀ p i b, holds p l → l !! i = Some b → mem (p + Z.of_nat i) = b.
Proof.
  induction l as [|c l IH]; intros p i b Hp Hi; [done|]. destruct Hp as [Hc Hp]. destruct i as [|i].
  - injection Hi as <-. by rewrite Z.add_0_r.
  - rewrite <- (IH (p + 1) i b Hp Hi). f_equal. lia.
Qed.

(** *** Strings *)

Lemma skip_string_spec s : ∀ p fuel, nonul s → holds p (s ++ [0]) → (length s < fuel)%nat →
  skip_string mem fuel p = Some (p + zlen s).
Proof.
  induction s as [|c s IH]; intros p fuel Hs Hp Hf; (destruct fuel as [|fuel]; [cbn in Hf; lia|]); cbn [skip_string].
  - destruct Hp as [-> _]. cbn. f_equal. rewrite zlen_nil. lia.
  - inversion_clear Hs as [|? ? [Hc _] Hs']. destruct Hp as [-> Hp]. rewrite (proj2 (Z.eqb_neq c 0)) by done.
    rewrite IH by (done || (cbn in Hf; lia)). f_equal. rewrite zlen_cons. lia.
Qed.

Lemma chars_at_spec s : ∀ p n, nonul s → holds p (s ++ [0]) → chars_at mem n p = take n s.
Proof.
  induction s as [|c s IH]; intros p n Hs Hp; (destruct n as [|n]; [done|]); cbn [chars_at take].
  - by destruct Hp as [-> _].
  - inversion_clear Hs as [|? ? [Hc _] Hs']. destruct Hp as [-> Hp]. rewrite (proj2 (Z.eqb_neq c 0)) by done.
    f_equal. by apply IH.
Qed.

(** String number [n], counted from 1, as a buffer holds it afterwards. *)
Definition nth_text (ss : list (list Z)) (n : Z) : option (list Z) := if 1 <=? n then ss !! Z.to_nat (n - 1) else None.
Definition held (t : option (list Z)) (dst : list Z) : list Z :=
  match t with
  | Some t => take (length dst - 1) t ++ 0 :: drop (S (length (take (length dst - 1) t))) dst
  | None => 0 :: drop 1 dst
  end.

Lemma texts_cons s ss : texts (s :: ss) = s ++ 0 :: texts ss.
Proof. unfold texts. cbn [map concat]. by rewrite <- app_assoc. Qed.

Lemma copy_loop_spec ss : ∀ p fuel i n dst,
  Forall text_ok ss → holds p (texts ss ++ [0]) → (length (texts ss) < fuel)%nat → 1 ≤ i → dst ≠ [] →
  copy_loop mem fuel p i n dst = Some (match (if i <=? n then ss !! Z.to_nat (n - i) else None) with
    | Some t => take (length dst - 1) t ++ 0 :: drop (S (length (take (length dst - 1) t))) dst
    | None => dst end).
Proof.
  induction ss as [|s ss IH]; intros p fuel i n dst Hss Hp Hf Hi Hd; (destruct fuel as [|fuel]; [cbn in Hf; lia|]); cbn [copy_loop].
  - destruct Hp as [-> _]. cbn [Z.eqb orb]. by destruct (i <=? n).
  - inversion_clear Hss as [|? ? [Hs Hne] Hss']. rewrite texts_cons, <- app_assoc in Hp. rewrite texts_cons, length_app in Hf.
    cbn [app length] in *. pose proof Hp as Hp0. apply holds_app in Hp as [Hp1 [Hz Hp2]].
    assert (Hs0 : holds p (s ++ [0])) by (apply holds_app; by split).
    destruct s as [|c s]; [done|]. pose proof Hs as Hs'. inversion_clear Hs' as [|? ? [Hc _] _].
    rewrite (proj1 Hp1), (proj2 (Z.eqb_neq c 0)) by done. cbn [orb].
    destruct (Z.ltb_spec n i), (Z.leb_spec i n); try lia; [done|].
    destruct (Z.eqb_spec i n) as [<-|Hin].
    + rewrite Z.sub_diag. cbn [lookup list_lookup Z.to_nat]. rewrite (chars_at_spec (c :: s)) by done.
      set (t := take (length dst - 1) (c :: s)).
      assert (Hd1 : (1 ≤ length dst)%nat) by (destruct dst; [done|cbn; lia]).
      assert (Ht : (length t ≤ length dst - 1)%nat) by (unfold t; rewrite length_take; lia).
      apply splice_Some. unfold zlen. rewrite length_app. cbn [length]. split_and!; [lia|lia|].
      change (Z.to_nat 0) with 0%nat. cbn [lookup list_lookup]. fold t. rewrite take_0, <- app_assoc. cbn [app].
      by rewrite Nat.add_1_r, Nat.add_0_l.
    + rewrite (skip_string_spec (c :: s)) by (done || (cbn [length] in *; lia)). cbn [mbind option_bind].
      rewrite IH; [|done| |cbn [length] in *; lia|lia|done].
      * destruct (Z.leb_spec (i + 1) n); [|lia]. do 2 f_equal.
        replace (Z.to_nat (n - i)) with (S (Z.to_nat (n - (i + 1)))) by lia. done.
      * by replace (p + zlen (c :: s) + 1) with (p + zlen (c :: s) + 1) by lia.
Qed.

Lemma copy_string_run ss p fuel n dst :
  Forall text_ok ss → holds p (texts ss ++ [0]) → (length (texts ss) < fuel)%nat → dst ≠ [] →
  copy_string mem fuel p n dst = Some (held (nth_text ss n) dst).
Proof.
  intros Hss Hp Hf Hd. destruct dst as [|d dst]; [done|]. unfold copy_string.
  assert (E : st8 (d :: dst) 0 0 = Some (0 :: dst)).
  { apply splice_Some. unfold zlen. rewrite length_le_to. cbn [length]. split_and!; [lia|lia|done]. }
  rewrite E. cbn [mbind option_bind]. rewrite (copy_loop_spec ss) by (done || lia). unfold held, nth_text.
  destruct (1 <=? n); [|done]. by destruct (ss !! Z.to_nat (n - 1)).
Qed.

(** *** String areas *)

(** Over a string, and over the NUL that does not end the area. *)
Lemma skip_area_string s : ∀ p fuel, nonul s → holds p s →
  skip_area mem (length s + fuel) p = skip_area mem fuel (p + zlen s).
Proof.
  induction s as [|c s IH]; intros p fuel Hs Hp; [by rewrite zlen_nil, Z.add_0_r|].
  inversion_clear Hs as [|? ? [Hc _] Hs']. destruct Hp as [Hpc Hp]. cbn [length Nat.add skip_area].
  rewrite Hpc, (proj2 (Z.eqb_neq c 0)) by done. cbn [andb]. rewrite IH by done. f_equal. rewrite zlen_cons. lia.
Qed.

Lemma skip_texts ss : ∀ p fuel, Forall text_ok ss → ss ≠ [] → holds p (texts ss ++ [0]) →
  (length (texts ss) ≤ fuel)%nat → skip_area mem fuel p = Some (p + zlen (texts ss) - 1).
Proof.
  induction ss as [|s ss IH]; intros p fuel Hss Hne Hp Hf; [done|].
  inversion_clear Hss as [|? ? [Hs Hsne] Hss']. rewrite texts_cons, <- app_assoc in Hp. rewrite texts_cons, length_app in Hf.
  rewrite texts_cons, zlen_app, zlen_cons. cbn [app length] in *. apply holds_app in Hp as [Hp1 [Hz Hp2]].
  replace fuel with (length s + S (fuel - length s - 1))%nat by lia.
  rewrite skip_area_string by done. cbn [skip_area]. rewrite Hz. cbn [Z.eqb andb].
  destruct ss as [|t ss].
  - destruct Hp2 as [Hz2 _]. rewrite Hz2. cbn [Z.eqb]. f_equal. cbn. rewrite zlen_nil. lia.
  - pose proof Hss' as Hss2. inversion_clear Hss2 as [|? ? [Ht Htne] _]. destruct t as [|c t]; [done|].
    pose proof Hp2 as Hp2'. rewrite texts_cons in Hp2'. cbn [app] in Hp2'. destruct Hp2' as [Hc _].
    inversion_clear Ht as [|? ? [Hc0 _] _]. rewrite Hc, (proj2 (Z.eqb_neq c 0)) by done.
    rewrite (IH (p + zlen s + 1)); [f_equal; lia|done|done|done|lia].
Qed.

Lemma skip_area_spec ss p fuel : Forall text_ok ss → holds p (area ss) →
  (length (area ss) ≤ fuel)%nat → skip_area mem fuel p = Some (p + zlen (area ss) - 2).
Proof.
  intros Hss Hp Hf. unfold area in *. destruct ss as [|s ss].
  - destruct fuel as [|fuel]; [cbn in Hf; lia|]. destruct Hp as (H0 & H1 & _). cbn [skip_area]. rewrite H0, H1. cbn.
    f_equal. unfold zlen. cbn. lia.
  - rewrite length_app in Hf. rewrite (skip_texts (s :: ss)); [|done|done|done|lia].
    f_equal. rewrite zlen_app. unfold zlen at 3. cbn [length]. lia.
Qed.

(** ** The walk of a 2.x table *)

Definition encode_table (xs : list structure) : list Z := concat (map encode_structure xs).

(** The structure the walk is to find, with its address: the first of type 1
    that has a UUID and whose byte 4 is 1. *)
Definition is_system (x : structure) : bool :=
  (nth 0 (fixed x) 0 =? 1) && (27 <=? zlen (fixed x)) && (nth 4 (fixed x) 0 =? 1).
Fixpoint find_system (p : Z) (xs : list structure) : option (Z * structure) :=
  match xs with
  | [] => None
  | x :: xs => if is_system x then Some (p, x) else find_system (p + zlen (encode_structure x)) xs
  end.

Lemma fixed_at x p i b : holds p (encode_structure x) → fixed x !! i = Some b → mem (p + Z.of_nat i) = b.
Proof. intros [Hp _]%holds_app Hi. by eapply holds_lookup. Qed.

Lemma parse_type1_other x p fuel (s : smbios) :
  structure_ok x → holds p (encode_structure x) → nth 0 (fixed x) 0 = 1 → is_system x = false →
  parse_type1 mem fuel p (zlen (fixed x)) s = Some (false, s).
Proof.
  intros [[_ Hl] _] Hp Ht Hs. unfold is_system, parse_type1 in *. rewrite Ht, Z.eqb_refl in Hs. cbn [andb] in Hs.
  destruct (Z.leb_spec 27 (zlen (fixed x))) as [Hlen|Hlen]; cbn [andb] in Hs.
  - rewrite (proj2 (Z.ltb_ge _ _)) by lia. destruct (lookup_lt_is_Some_2 (fixed x) 4) as [b Eb]; [unfold zlen in Hlen; lia|].
    unfold mem8. pose proof (fixed_at x p 4 b Hp Eb) as E4. change (Z.of_nat 4) with 4 in E4. rewrite E4.
    rewrite (nth_lookup_Some _ _ _ _ Eb) in Hs. by rewrite Hs.
  - by rewrite (proj2 (Z.ltb_lt _ _)) by lia.
Qed.

Lemma parse_type1_found x p fuel (s : smbios) :
  holds p (encode_structure x) → is_system x = true →
  match parse_type1 mem fuel p (zlen (fixed x)) s with Some (b, _) => b = true | None => True end.
Proof.
  intros Hp Hs. unfold is_system in Hs. bool_prop. unfold parse_type1.
  destruct (lookup_lt_is_Some_2 (fixed x) 4) as [b Eb]; [unfold zlen in *; lia|].
  pose proof (fixed_at x p 4 b Hp Eb) as E4. change (Z.of_nat 4) with 4 in E4. unfold mem8.
  rewrite (nth_lookup_Some _ _ _ _ Eb) in *. rewrite E4, (proj2 (Z.ltb_ge _ _)), (proj2 (Z.eqb_eq b 1)) by (done || lia).
  cbn [orb negb]. unfold bind, gets, lift, modify, ret. by destruct (copy_string _ _ _ _ _); [destruct (copy_string _ _ _ _ _)|].
Qed.

Lemma walk2_run xs : ∀ p fuel n (s : smbios),
  Forall structure_ok xs → Forall (λ x, zlen (fixed x) ≠ 5 ∧ zlen (fixed x) ≠ 127) xs →
  holds p (encode_table xs) → (length (encode_table xs) ≤ fuel)%nat → (n ≤ length xs)%nat →
  walk2 mem fuel n p s = match find_system p (take n xs) with
    | Some (a, x) => parse_type1 mem fuel a (zlen (fixed x)) s
    | None => Some (false, s) end.
Proof.
  induction xs as [|x xs IH]; intros p fuel n s Hok Hlens Hp Hf Hn; (destruct n as [|n]; [done|]); [cbn in Hn; lia|].
  cbn [walk2 take find_system]. inversion_clear Hok as [|? ? Hx Hok']. inversion_clear Hlens as [|? ? [H5 H127] Hlens'].
  unfold encode_table in *. cbn [map concat] in *. apply holds_app in Hp as [Hpx Hp'].
  pose proof Hx as [[Hlx Hl4] Hss]. rewrite length_app in Hf. cbn [length] in Hn.
  pose proof (fixed_at x p 1 _ Hpx Hlx) as E1. change (Z.of_nat 1) with 1 in E1. unfold mem8. rewrite E1.
  rewrite (proj2 (Z.eqb_neq _ 5)), (proj2 (Z.eqb_neq _ 127)) by done. cbn [orb].
  destruct (lookup_lt_is_Some_2 (fixed x) 0 ltac:(lia)) as [ty Ety].
  pose proof (fixed_at x p 0 _ Hpx Ety) as E0. change (Z.of_nat 0) with 0 in E0. rewrite Z.add_0_r in E0. rewrite E0.
  assert (Hnext : (let* q := lift (skip_area mem fuel (p + zlen (fixed x))) in walk2 mem fuel n (q + 2)) s
    = walk2 mem fuel n (p + zlen (encode_structure x)) s).
  { unfold encode_structure in *. rewrite length_app in Hf. apply holds_app in Hpx as [_ Hpa].
    rewrite (skip_area_spec (strs x)) by (done || lia). cbn [lift bind]. unfold bind, lift. f_equal. rewrite zlen_app. lia. }
  assert (Hrest : walk2 mem fuel n (p + zlen (encode_structure x)) s =
    match find_system (p + zlen (encode_structure x)) (take n xs) with
    | Some (a, x) => parse_type1 mem fuel a (zlen (fixed x)) s | None => Some (false, s) end) by (apply IH; done || lia).
  destruct (Z.eqb_spec ty 1) as [->|Hty].
  - destruct (is_system x) eqn:Esys.
    + pose proof (parse_type1_found x p fuel s Hpx Esys) as Hfound. unfold bind at 1.
      destruct (parse_type1 mem fuel p (zlen (fixed x)) s) as [[b s']|]; [|done]. by subst b.
    + unfold bind at 1. rewrite parse_type1_other; [|done|done|by apply nth_lookup_Some|done]. by rewrite Hnext.
  - assert (is_system x = false) as ->.
    { unfold is_system. by rewrite (nth_lookup_Some _ _ _ _ Ety), (proj2 (Z.eqb_neq ty 1)). }
    rewrite bind_ret, Hnext. exact Hrest.
Qed.

Lemma find_system_at xs a x : ∀ p n, holds p (encode_table xs) → Forall structure_ok xs →
  find_system p (take n xs) = Some (a, x) →
  holds a (encode_structure x) ∧ is_system x = true ∧ structure_ok x ∧ (length (area (strs x)) ≤ length (encode_table xs))%nat.
Proof.
  induction xs as [|y xs IH]; intros p n Hp Hok Hf; [by rewrite take_nil in Hf|]. destruct n as [|n]; [done|].
  unfold encode_table in *. cbn [take find_system map concat] in *. apply holds_app in Hp as [Hpy Hp].
  inversion_clear Hok as [|? ? Hy Hok']. rewrite length_app. destruct (is_system y) eqn:E.
  - injection Hf as <- <-. split_and!; try done. unfold encode_structure. rewrite length_app. lia.
  - destruct (IH _ _ Hp Hok' Hf) as (? & ? & ? & ?). split_and!; try done. lia.
Qed.

(** What [parse_type1] takes from a structure whose string area is where the
    code looks for it. *)
Lemma parse_type1_run x p fuel (s : smbios) :
  structure_ok x → holds p (encode_structure x) → is_system x = true → strs x ≠ [] →
  nth 2 (fixed x) 0 = zlen (fixed x) → (length (area (strs x)) ≤ fuel)%nat → dmi_vendor s ≠ [] → dmi_product s ≠ [] →
  parse_type1 mem fuel p (zlen (fixed x)) s =
    Some (true, Smbios (held (nth_text (strs x) (nth 8 (fixed x) 0)) (dmi_vendor s))
                       (held (nth_text (strs x) (nth 9 (fixed x) 0)) (dmi_product s))).
Proof.
  intros [_ Hss] Hp Hs Hne H2 Hf Hv Hq. unfold is_system in Hs. bool_prop. unfold parse_type1, mem8.
  assert (Hat : ∀ i, (i < 27)%nat → mem (p + Z.of_nat i) = nth i (fixed x) 0).
  { intros i Hi. destruct (lookup_lt_is_Some_2 (fixed x) i) as [b Eb]; [unfold zlen in *; lia|].
    rewrite (nth_lookup_Some _ _ _ _ Eb). by apply (fixed_at x). }
  pose proof (Hat 4%nat ltac:(lia)) as E4. pose proof (Hat 2%nat ltac:(lia)) as E2.
  pose proof (Hat 8%nat ltac:(lia)) as E8. pose proof (Hat 9%nat ltac:(lia)) as E9.
  change (Z.of_nat 4) with 4 in E4. change (Z.of_nat 2) with 2 in E2. change (Z.of_nat 8) with 8 in E8.
  change (Z.of_nat 9) with 9 in E9. rewrite E4, E2, E8, E9, H2.
  rewrite (proj2 (Z.ltb_ge _ _)), (proj2 (Z.eqb_eq (nth 4 _ _) 1)) by (done || lia). cbn [orb negb].
  apply holds_app in Hp as [_ Hpa]. unfold area in *. destruct (strs x) as [|t ts] eqn:Et; [done|]. rewrite length_app in Hf.
  cbn [length] in Hf. rewrite bind_gets, (copy_string_run (t :: ts)) by (done || lia). rewrite bind_lift, bind_modify, bind_gets.
  cbn [dmi_product]. rewrite (copy_string_run (t :: ts)) by (done || lia). by rewrite bind_lift, bind_modify.
Qed.
End holds.

(** ** The theorem *)

(** Functional correctness. A 2.x table whose string areas start where the code looks
    for them is walked from structure to structure, over formatted areas and
    strings, and the first structure of type 1 that qualifies gives the vendor and
    the product: the strings its bytes 8 and 9 number, cut to the buffers and
    NUL-terminated, empty where there is no such string. Without such a
    structure nothing changes and the result is false. *)
Theorem parse_smbios2_spec mem fuel anchor xs (s : smbios) :
  let n := mem16 mem (anchor + 0x16) in
  let table := mem32 mem (anchor + 0x18) in
  0 < n ≤ zlen xs → table ≠ 0 →
  Forall structure_ok xs → Forall (λ x, zlen (fixed x) ≠ 5 ∧ zlen (fixed x) ≠ 127) xs →
  holds mem table (encode_table xs) → (length (encode_table xs) ≤ fuel)%nat →
  (∀ p x, find_system table (take (Z.to_nat n) xs) = Some (p, x) → strs x ≠ [] ∧ nth 2 (fixed x) 0 = zlen (fixed x)) →
  dmi_vendor s ≠ [] → dmi_product s ≠ [] →
  parse_smbios2 mem fuel anchor s = Some (match find_system table (take (Z.to_nat n) xs) with
    | Some (_, x) => (true, Smbios (held (nth_text (strs x) (nth 8 (fixed x) 0)) (dmi_vendor s))
                                   (held (nth_text (strs x) (nth 9 (fixed x) 0)) (dmi_product s)))
    | None => (false, s) end).
Proof.
  intros n table Hn Ht Hok Hlens Hp Hf Hsys Hv Hq. unfold parse_smbios2. fold table n.
  rewrite (proj2 (Z.eqb_neq table 0)), (proj2 (Z.eqb_neq n 0)) by (done || lia). cbn [orb].
  rewrite (walk2_run mem xs) by (done || (unfold zlen in Hn; lia)).
  destruct (find_system table (take (Z.to_nat n) xs)) as [[p x]|] eqn:E; [|done].
  destruct (find_system_at mem xs p x table _ Hp Hok E) as (Hpx & Hsx & Hx & Hlen).
  destruct (Hsys p x eq_refl) as [Hne H2]. apply (parse_type1_run mem); try done. lia.
Qed.

(** *** Concrete tables

    A BIOS structure and a system structure, at [table]; the formatted area of
    the latter is as the code takes it, its byte 2 being its length. *)
Definition demo_table : Z := 0x9000.
Definition demo_bios : structure := Structure (0 :: 18 :: zeros 16) [chars "Acme"].
Definition demo_system : structure :=
  Structure ([1; 27; 27; 0; 1; 2; 3; 4; 1; 2] ++ zeros 17) [chars "LENOVO"; chars "ThinkPad X220"].
(** A system structure as the specification has it: its handle is 0x0100, its
    strings are numbered by bytes 4 and 5, and its UUID starts at byte 8. *)
Definition spec_system : structure :=
  Structure ([1; 27; 0; 1; 1; 2; 3; 4; 2; 3] ++ zeros 17) [chars "LENOVO"; chars "ThinkPad X220"].

Definition demo_anchor (xs : list structure) : list segment := [
  (0xF0000, chars "_SM_" ++ zeros 18 ++ le_to 2 (zlen xs) ++ le_to 4 demo_table);
  (demo_table, encode_table xs)].
Definition demo_mem : Z → Z := seg_mem (demo_anchor [demo_bios; demo_system]).

Fixpoint holds_b (mem : Z → Z) (p : Z) (l : list Z) : bool :=
  match l with [] => true | b :: l => (mem p =? b) && holds_b mem (p + 1) l end.
Lemma holds_b_holds mem l : ∀ p, holds_b mem p l = true → holds mem p l.
Proof. induction l as [|b l IH]; intros p H; [done|]. cbn in H. bool_prop. split; [done|]. by apply IH. Qed.

Lemma demo_structures : Forall structure_ok [demo_bios; demo_system].
Proof.
  repeat constructor; cbn; try (by vm_compute); try lia.
Qed.

Lemma parse_smbios2_spec_witness :
  ∃ v q, parse_smbios2 demo_mem 200 0xF0000 smbios_boot = Some (true, Smbios v q) ∧
    take 7 v = chars "LENOVO" ++ [0] ∧ take 14 q = chars "ThinkPad X220" ++ [0].
Proof.
  eexists _, _. split.
  - rewrite (parse_smbios2_spec demo_mem 200 0xF0000 [demo_bios; demo_system]).
    + reflexivity.
    + by vm_compute.
    + by vm_compute.
    + apply demo_structures.
    + repeat constructor; by vm_compute.
    + apply holds_b_holds. by vm_compute.
    + vm_compute. lia.
    + intros p x. vm_compute. by intros [= <- <-].
    + done.
    + done.
  - by split; vm_compute.
Defined.

(** A machine laid out as the specification says is not recognised: the string
    area is looked for at the low byte of the handle and the strings are numbered
    by bytes of the UUID, so the vendor is made of bytes of the structure. *)
Example smbios_spec_layout :
  (λ '(ok, s), (ok, take 4 (dmi_vendor s), take 4 (dmi_product s))) <$>
    smbios_init (seg_mem (demo_anchor [demo_bios; spec_system])) 200 smbios_boot =
  Some (true, [1; 1; 2; 3], [0; 0; 0; 0]).
Proof. vm_compute. reflexivity. Qed.
