(* ===== verification/Cmos.v ===== *)
(** * drivers/firmware/cmos.c: the panic marker in CMOS memory

    Two cells of the battery-backed memory tell the next boot that this one
    panicked. [Nvram] is what the clock chip promises of those cells. *)
From S2P Require Import Prelude Ports.

Definition CMOS_ADDR : Z := 0x70.
Definition CMOS_DATA : Z := 0x71.
Definition PANIC_MAGIC_ADDR : Z := 0x3A.
Definition PANIC_CODE_ADDR : Z := 0x3B.
Definition PANIC_MAGIC : Z := 0x4F.

Section cmos.
Context {S P : Type} `{Ports P, HasPorts S P}.

Definition cmos_read (reg : Z) : M S Z :=
  io_outb CMOS_ADDR (u8 (Z.lor reg 0x80)) ;;
  io_wait ;;
  io_inb CMOS_DATA.

Definition cmos_write (reg val : Z) : M S unit :=
  io_outb CMOS_ADDR (u8 (Z.lor (Z.land reg 0x7F) 0x80)) ;;
  io_wait ;;
  io_outb CMOS_DATA val ;;
  io_wait.

(** The code is returned where the caller asks for it ([code_out] not NULL). *)
Definition cmos_last_boot_panicked (want_code : bool) : M S (bool * option Z) :=
  let* magic := cmos_read PANIC_MAGIC_ADDR in
  if negb (magic =? PANIC_MAGIC) then ret (false, None)
  else if want_code then
    let* code := cmos_read PANIC_CODE_ADDR in
    ret (true, Some code)
  else ret (true, None).

Definition cmos_clear_panic_flag : M S unit :=
  cmos_write PANIC_MAGIC_ADDR 0 ;;
  cmos_write PANIC_CODE_ADDR 0.
End cmos.

(** ** The memory as an interface

    The address port selects a cell, without its top bit, which masks NMI; the
    data port reads and writes it. Other ports leave the cells alone. *)
Class Nvram (P : Type) `{Ports P} := {
  nv : P → Z → Z;
  cmos_sel : P → Z;
  law_address : ∀ v p, let p' := outb CMOS_ADDR v p in cmos_sel p' = Z.land v 0x7F ∧ ∀ j, nv p' j = nv p j;
  law_data : ∀ v p j, nv (outb CMOS_DATA v p) j = if j =? cmos_sel p then v else nv p j;
  law_fetch : ∀ p, let '(v, p') := inb CMOS_DATA p in v = nv p (cmos_sel p) ∧ ∀ j, nv p' j = nv p j;
  law_in : ∀ port p, port ≠ CMOS_DATA → ∀ j, nv (inb port p).2 j = nv p j;
  law_other : ∀ port v p, port ≠ CMOS_ADDR → port ≠ CMOS_DATA →
    cmos_sel (outb port v p) = cmos_sel p ∧ ∀ j, nv (outb port v p) j = nv p j;
}.

(** The cells are unchanged. *)
Definition same_cells {P} `{Nvram P} (p p' : P) : Prop := ∀ j, nv p' j = nv p j.
#[export] Instance same_cells_preorder {P} `{Nvram P} : PreOrder same_cells.
Proof. split; [by intros p j|]. intros p q r E1 E2 j. by rewrite E2. Qed.

Section nvram.
Context {S P : Type} `{Nvram P, HasPorts S P, !LawfulPorts S P}.

(** Only the hardware changed, and of it not the cells of the memory other than
    those [f] says. *)
Definition cells_are (f : Z → Z) (s s' : S) : Prop := ∃ p, s' = set_ports p s ∧ ∀ j, nv p j = f j.

Lemma cmos_read_wp reg (s : S) : 0 ≤ reg < 128 →
  wp (cmos_read reg) (λ v s', v = nv (ports s) reg ∧ cells_are (nv (ports s)) s s') s.
Proof.
  intros Hr. unfold cmos_read, io_wait, io_outb, io_write. wp_pure. rewrite !ports_set.
  change (u16 CMOS_ADDR) with CMOS_ADDR. change (u16 0x80) with 0x80.
  set (v := u8 (Z.lor reg 128)). destruct (law_address v (ports s)) as [Esel Env].
  set (p1 := outb CMOS_ADDR v (ports s)) in *. destruct (law_other 0x80 0 p1) as [Esel2 Env2]; [done..|].
  set (p2 := outb 0x80 0 p1) in *. assert (Hv : Z.land v 0x7F = reg).
  { unfold v. rewrite (Z.lor_comm reg), (lor_disjoint 128 reg 7) by (done || lia). rewrite u8_small by lia.
    change 0x7F with (Z.ones 7). rewrite Z.land_ones by lia. change (2 ^ 7) with 128. mod_lia. }
  pose proof (law_fetch p2) as Hf. destruct (inb CMOS_DATA p2) as [x p3] eqn:Ein. destruct Hf as [-> Env3].
  exists (nv p2 (cmos_sel p2)), (set_ports p3 s). unfold io_inb, io_read. rewrite !set_set, ports_set.
  change (u16 CMOS_DATA) with CMOS_DATA. rewrite Ein, set_set.
  split; [done|]. split; [by rewrite Esel2, Esel, Hv, Env2, Env|]. exists p3. split; [done|].
  intros j. by rewrite Env3, Env2, Env.
Qed.

Lemma cmos_write_wp reg v (s : S) : 0 ≤ reg < 128 →
  wp (cmos_write reg v) (λ _ s', cells_are (λ j, if j =? reg then v else nv (ports s) j) s s') s.
Proof.
  intros Hr. unfold cmos_write, io_wait, io_outb, io_write. wp_pure. rewrite !set_set, !ports_set.
  apply wp_modify. rewrite !set_set, !ports_set.
  change (u16 CMOS_ADDR) with CMOS_ADDR. change (u16 CMOS_DATA) with CMOS_DATA. change (u16 0x80) with 0x80.
  set (a := u8 _). destruct (law_address a (ports s)) as [Esel Env]. set (p1 := outb CMOS_ADDR a (ports s)) in *.
  destruct (law_other 0x80 0 p1) as [Esel2 Env2]; [done..|]. set (p2 := outb 0x80 0 p1) in *.
  pose proof (law_data v p2) as Env3. set (p3 := outb CMOS_DATA v p2) in *.
  destruct (law_other 0x80 0 p3) as [_ Env4]; [done..|].
  eexists. split; [done|]. intros j. rewrite Env4, Env3, Esel2, Esel, Env2, Env.
  assert (Ha : Z.land a 0x7F = reg); [|by rewrite Ha].
  unfold a. change 0x7F with (Z.ones 7). rewrite !Z.land_ones by lia. change (2 ^ 7) with 128.
  rewrite (Z.mod_small reg), (Z.lor_comm reg), (lor_disjoint 128 reg 7) by (done || lia). rewrite u8_small by lia. mod_lia.
Qed.

Lemma cells_are_ports f (s s' : S) j : cells_are f s s' → nv (ports s') j = f j.
Proof. intros (p & -> & E). by rewrite ports_set. Qed.
Lemma cells_are_trans f g (s s1 s2 : S) : cells_are f s s1 → cells_are g s1 s2 → cells_are g s s2.
Proof. intros (p & -> & _) (q & -> & E). exists q. by rewrite set_set. Qed.

(** What the next boot reads. *)
Lemma last_boot_wp want (s : S) :
  wp (cmos_last_boot_panicked want) (λ r s', r = (if nv (ports s) PANIC_MAGIC_ADDR =? PANIC_MAGIC
    then (true, if want then Some (nv (ports s) PANIC_CODE_ADDR) else None) else (false, None)) ∧
    cells_are (nv (ports s)) s s') s.
Proof.
  unfold cmos_last_boot_panicked. wp_apply cmos_read_wp; [done|]. intros magic s1 [-> Hc1].
  destruct (nv (ports s) PANIC_MAGIC_ADDR =? PANIC_MAGIC); cbn [negb]; [|by apply wp_ret].
  destruct want; [|by apply wp_ret]. wp_apply cmos_read_wp; [done|]. intros code s2 [-> Hc2]. apply wp_ret.
  split; [by rewrite (cells_are_ports _ _ _ _ Hc1)|]. destruct Hc1 as (p & -> & E1), Hc2 as (q & -> & E2).
  exists q. rewrite set_set. split; [done|]. intros j. by rewrite E2, ports_set, E1.
Qed.

Lemma clear_flag_wp (s : S) :
  wp cmos_clear_panic_flag (λ _ s', nv (ports s') PANIC_MAGIC_ADDR = 0 ∧ nv (ports s') PANIC_CODE_ADDR = 0) s.
Proof.
  unfold cmos_clear_panic_flag. wp_apply cmos_write_wp; [done|]. intros _ s1 Hc1.
  eapply wp_mono; [by apply cmos_write_wp|]. intros [] s2 Hc2. rewrite !(cells_are_ports _ _ _ _ Hc2). cbn.
  by rewrite (cells_are_ports _ _ _ _ Hc1).
Qed.
End nvram.
