(* ===== verification/Irq.v ===== *)
(** * arch/x86/isr.c and arch/x86_64/isr.c: interrupt controllers and dispatch

    Both architectures have the same code but for the width of the vector. The
    interface [Pic] is the pair of 8259 controllers behind ports 0x20 and 0xA0. *)
From stdpp Require Import sets.
From S2P Require Import Prelude Ports.

Definition PIC1_CMD : Z := 0x20.
Definition PIC1_DATA : Z := 0x21.
Definition PIC2_CMD : Z := 0xA0.
Definition PIC2_DATA : Z := 0xA1.
Definition PIC_EOI : Z := 0x20.
Definition PIT_CH0 : Z := 0x40.
Definition PIT_CMD : Z := 0x43.

#[local] Open Scope string_scope.
Definition exception_names : list String.string :=
  ["divide error"; "debug"; "NMI"; "breakpoint"; "overflow"; "bound range exceeded";
   "invalid opcode"; "device not available"; "double fault"; "coprocessor segment overrun";
   "invalid TSS"; "segment not present"; "stack-segment fault"; "general protection fault";
   "page fault"; "reserved"; "x87 floating-point exception"; "alignment check";
   "machine check"; "SIMD floating-point exception"].
Definition exception_name (vector : Z) : String.string :=
  if vector <? 20 then nth (Z.to_nat vector) exception_names String.EmptyString else "unknown exception".
#[local] Close Scope string_scope.

Section isr.
Context {S P : Type} `{Ports P, HasPorts S P}.

(** [regs_t]: the vector and the error code, as the stubs push them. *)
Record regs_t := Regs { int_no : Z; err_code : Z }.

(** The handlers drivers install run on the whole state [S]; the table is a
    static array of the component. *)
Record isr := Isr { irq_handlers : list (option (M S unit)); world : S }.
Definition isr_boot (s : S) : isr := Isr (replicate 16 None) s.

Definition on_world {A} (m : M S A) : M isr A := λ s,
  '(a, w) ← m (world s); Some (a, Isr (irq_handlers s) w).

Definition irq_install (irq : Z) (handler : option (M S unit)) : M isr unit :=
  if irq <? 16 then modify (λ s, Isr (<[Z.to_nat irq := handler]> (irq_handlers s)) (world s)) else ret tt.

Definition pic_send_eoi (irq : Z) : M S unit :=
  (if 8 <=? irq then io_outb PIC2_CMD PIC_EOI else ret tt) ;;
  io_outb PIC1_CMD PIC_EOI.

Definition line_port (irq : Z) : Z := if irq <? 8 then PIC1_DATA else PIC2_DATA.
Definition line_bit (irq : Z) : Z := if irq <? 8 then irq else u8 (irq - 8).

(** [~(u8)(1u << bit)], as an int; outb takes its low byte. *)
Definition pic_unmask_irq (irq : Z) : M S unit :=
  let* v := io_inb (line_port irq) in
  io_outb (line_port irq) (u8 (Z.land v (Z.lnot (u8 (Z.shiftl 1 (line_bit irq)))))).

Definition pic_mask_irq (irq : Z) : M S unit :=
  let* v := io_inb (line_port irq) in
  io_outb (line_port irq) (u8 (Z.lor v (u8 (Z.shiftl 1 (line_bit irq))))).

Definition pic_init : M S unit :=
  io_outb PIC1_CMD 0x11 ;; io_wait ;;
  io_outb PIC2_CMD 0x11 ;; io_wait ;;
  io_outb PIC1_DATA 0x20 ;; io_wait ;;
  io_outb PIC2_DATA 0x28 ;; io_wait ;;
  io_outb PIC1_DATA 0x04 ;; io_wait ;;
  io_outb PIC2_DATA 0x02 ;; io_wait ;;
  io_outb PIC1_DATA 0x01 ;; io_wait ;;
  io_outb PIC2_DATA 0x01 ;; io_wait ;;
  io_outb PIC1_DATA 0xFF ;;
  io_outb PIC2_DATA 0xFF.

Definition pit_init (hz : Z) : M S unit :=
  let* divisor := udiv 1193182 hz in
  io_outb PIT_CMD 0x36 ;;
  io_outb PIT_CH0 (u8 (Z.land divisor 0xFF)) ;;
  io_outb PIT_CH0 (u8 (Z.land (Z.shiftr divisor 8) 0xFF)).

(** [panic] and [time_tick] are components of their own. *)
Variable panic : Z → String.string → Z → M S unit.
Variable time_tick : M S unit.

Definition isr_handler (regs : regs_t) : M isr unit :=
  if int_no regs <? 32 then on_world (panic (int_no regs) (exception_name (int_no regs)) (err_code regs))
  else
    let irq := u8 (int_no regs - 32) in
    (if irq =? 0 then on_world time_tick else ret tt) ;;
    (if irq <? 16 then
       let* t := gets irq_handlers in
       let* h := lift (t !! Z.to_nat irq) in
       match h with Some f => on_world f | None => ret tt end
     else ret tt) ;;
    on_world (pic_send_eoi irq).
End isr.
Arguments isr : clear implicits.

(** ** The controllers as an interface

    [imr] is the mask of the master ([false]) and of the slave ([true]), [base]
    the vector of line 0, [icw] how many initialisation words are still to come
    on the data port, and [served] the ends of interrupt received. The first
    initialisation word clears the mask, the second sets the vector base. *)
Record pic_state := PicState { imr : bool → Z; vbase : bool → Z; icw : bool → nat; served : bool → nat }.

Definition upd {A} (b : bool) (x : A) (f : bool → A) : bool → A := λ c, if Bool.eqb c b then x else f c.
Definition pic_cmd (b : bool) (v : Z) (s : pic_state) : pic_state :=
  if v =? 0x11 then PicState (upd b 0 (imr s)) (vbase s) (upd b 3%nat (icw s)) (served s)
  else if v =? PIC_EOI then PicState (imr s) (vbase s) (icw s) (upd b (S (served s b)) (served s))
  else s.
Definition pic_data (b : bool) (v : Z) (s : pic_state) : pic_state :=
  match icw s b with
  | O => PicState (upd b v (imr s)) (vbase s) (icw s) (served s)
  | S n => PicState (imr s) (if Nat.eqb n 2 then upd b v (vbase s) else vbase s) (upd b n (icw s)) (served s)
  end.

Class Pic (P : Type) `{Ports P} := {
  pics : P → pic_state;
  law_cmd : ∀ b v p, pics (outb (if b : bool then PIC2_CMD else PIC1_CMD) v p) = pic_cmd b v (pics p);
  law_data : ∀ b v p, pics (outb (if b : bool then PIC2_DATA else PIC1_DATA) v p) = pic_data b v (pics p);
  law_mask : ∀ b p, icw (pics p) b = 0%nat →
    let '(v, p') := inb (if b : bool then PIC2_DATA else PIC1_DATA) p in v = imr (pics p) b ∧ pics p' = pics p;
  law_elsewhere : ∀ port v p, port ∉ [PIC1_CMD; PIC1_DATA; PIC2_CMD; PIC2_DATA] → pics (outb port v p) = pics p;
}.

(** A line reaches the processor when it is not masked and, on the slave, when
    the master's line 2, to which the slave is wired, is not masked either. *)
Definition unmasked (s : pic_state) (irq : Z) : bool :=
  if irq <? 8 then negb (Z.testbit (imr s false) irq) else negb (Z.testbit (imr s true) (irq - 8)).
Definition delivers (s : pic_state) (irq : Z) : bool :=
  unmasked s irq && ((irq <? 8) || unmasked s 2).

Section proof.
Context {S P : Type} `{Pic P, HasPorts S P, !LawfulPorts S P}.

(** Only the hardware changed, and the controllers are now in state [x]. *)
Definition pic_at (x : pic_state) (s s' : S) : Prop := ∃ p, s' = set_ports p s ∧ pics p = x.

Lemma outb_cmd_wp b v x (s0 s : S) : pic_at x s0 s →
  wp (io_outb (if b : bool then PIC2_CMD else PIC1_CMD) v) (λ _, pic_at (pic_cmd b v x) s0) s.
Proof.
  intros (p & -> & <-). unfold io_outb, io_write. apply wp_modify. rewrite ports_set, set_set.
  eexists. split; [done|]. replace (u16 _) with (if b then PIC2_CMD else PIC1_CMD) by by destruct b. apply law_cmd.
Qed.
Lemma outb_data_wp b v x (s0 s : S) : pic_at x s0 s →
  wp (io_outb (if b : bool then PIC2_DATA else PIC1_DATA) v) (λ _, pic_at (pic_data b v x) s0) s.
Proof.
  intros (p & -> & <-). unfold io_outb, io_write. apply wp_modify. rewrite ports_set, set_set.
  eexists. split; [done|]. replace (u16 _) with (if b then PIC2_DATA else PIC1_DATA) by by destruct b. apply law_data.
Qed.
Lemma outb_other_wp port v x (s0 s : S) : u16 port ∉ [PIC1_CMD; PIC1_DATA; PIC2_CMD; PIC2_DATA] → pic_at x s0 s →
  wp (io_outb port v) (λ _, pic_at x s0) s.
Proof.
  intros Hp (p & -> & <-). unfold io_outb, io_write. apply wp_modify. rewrite ports_set, set_set.
  eexists. split; [done|]. by apply law_elsewhere.
Qed.
Lemma io_wait_pic x (s0 s : S) : pic_at x s0 s → wp io_wait (λ _, pic_at x s0) s.
Proof. apply outb_other_wp. by apply (bool_decide_unpack _). Qed.
Lemma pic_at_refl (s : S) : pic_at (pics (ports s)) s s.
Proof. exists (ports s). split; [apply set_same|done]. Qed.

Ltac pic_step lem s Hs :=
  wp_apply (lem _ s _ Hs); clear Hs; intros _ ? Hs; wp_apply (io_wait_pic _ s _ Hs); clear Hs; intros _ ? Hs.

(** After initialisation every line is masked, and the lines are at vectors 32
    to 47. *)
Definition initialised (x : pic_state) : Prop :=
  (∀ b, icw x b = 0%nat) ∧ vbase x false = 0x20 ∧ vbase x true = 0x28 ∧ (∀ b, 0 ≤ imr x b < 256).

Lemma pic_init_wp (s : S) : wp pic_init (λ _ s', ∃ x, pic_at x s s' ∧ initialised x ∧ ∀ b, imr x b = 255) s.
Proof.
  pose proof (pic_at_refl s) as Hs. unfold pic_init.
  pic_step (outb_cmd_wp false 0x11) s Hs. pic_step (outb_cmd_wp true 0x11) s Hs.
  pic_step (outb_data_wp false 0x20) s Hs. pic_step (outb_data_wp true 0x28) s Hs.
  pic_step (outb_data_wp false 0x04) s Hs. pic_step (outb_data_wp true 0x02) s Hs.
  pic_step (outb_data_wp false 0x01) s Hs. pic_step (outb_data_wp true 0x01) s Hs.
  wp_apply (outb_data_wp false 0xFF _ s _ Hs). clear Hs. intros _ s1 Hs.
  eapply wp_mono; [apply (outb_data_wp true 0xFF _ s _ Hs)|]. intros [] s2 Hs'. eexists. split; [exact Hs'|].
  split; [|by intros []]. unfold initialised. split_and!; try done; by intros [].
Qed.

(** Programming the timer does not touch the controllers. *)
Lemma pit_init_pic hz x (s0 s : S) : hz ≠ 0 → pic_at x s0 s → wp (pit_init hz) (λ _, pic_at x s0) s.
Proof.
  intros Hz Hs. unfold pit_init. apply wp_bind, wp_udiv; [done|].
  assert (Hp : ∀ port, port ∈ [PIT_CMD; PIT_CH0] → u16 port ∉ [PIC1_CMD; PIC1_DATA; PIC2_CMD; PIC2_DATA]).
  { intros port Hin. repeat (apply elem_of_cons in Hin as [->|Hin]; [by apply (bool_decide_unpack _)|]).
    by apply not_elem_of_nil in Hin. }
  wp_apply (outb_other_wp PIT_CMD); [apply Hp; set_solver|exact Hs|]. intros _ s1 Hs1.
  wp_apply (outb_other_wp PIT_CH0); [apply Hp; set_solver|exact Hs1|]. intros _ s2 Hs2.
  apply outb_other_wp; [apply Hp; set_solver|exact Hs2].
Qed.

(** *** Masks *)

Lemma lor_range k a b : 0 ≤ k → 0 ≤ a < 2 ^ k → 0 ≤ b < 2 ^ k → 0 ≤ Z.lor a b < 2 ^ k.
Proof.
  intros Hk Ha Hb. assert (Hz : ∀ n, k ≤ n → Z.testbit a n = false ∧ Z.testbit b n = false).
  { intros n Hn. rewrite <- (Z.mod_small a (2 ^ k)), <- (Z.mod_small b (2 ^ k)) by done.
    by rewrite !Z.mod_pow2_bits_high by lia. }
  replace (Z.lor a b) with (Z.lor a b mod 2 ^ k); [apply Z.mod_pos_bound; lia|].
  apply Z.bits_inj'. intros n Hn. destruct (decide (n < k)); [by rewrite Z.mod_pow2_bits_low by lia|].
  destruct (Hz n) as [Ea Eb]; [lia|]. by rewrite Z.mod_pow2_bits_high, Z.lor_spec, Ea, Eb by lia.
Qed.

Lemma line_mask irq : 0 ≤ irq < 16 → 0 ≤ line_bit irq < 8 ∧ u8 (Z.shiftl 1 (line_bit irq)) = 2 ^ line_bit irq.
Proof.
  intros Hi. assert (Hb : 0 ≤ line_bit irq < 8).
  { unfold line_bit. destruct (Z.ltb_spec irq 8); [lia|]. rewrite u8_small; lia. }
  split; [done|]. rewrite Z.shiftl_1_l. apply u8_small.
  assert (2 ^ line_bit irq < 2 ^ 8) by (apply Z.pow_lt_mono_r; lia). pose proof (Z.pow_pos_nonneg 2 (line_bit irq)). lia.
Qed.

(** A read of the mask, and its new value [f v]. *)
Definition slave (irq : Z) : bool := negb (irq <? 8).
Lemma line_port_eq irq : line_port irq = if slave irq then PIC2_DATA else PIC1_DATA.
Proof. unfold line_port, slave. by destruct (irq <? 8). Qed.

Lemma change_mask_wp irq f x (s0 s : S) : initialised x → pic_at x s0 s →
  wp (let* v := io_inb (line_port irq) in io_outb (line_port irq) (f v))
    (λ _, pic_at (PicState (upd (slave irq) (f (imr x (slave irq))) (imr x)) (vbase x) (icw x) (served x)) s0) s.
Proof.
  intros (Hicw & _) (p & -> & <-). rewrite line_port_eq. apply wp_bind.
  unfold io_inb, io_read. replace (u16 _) with (if slave irq then PIC2_DATA else PIC1_DATA) by by destruct (slave irq).
  pose proof (law_mask (slave irq) p (Hicw _)) as Hl.
  destruct (inb (if slave irq then PIC2_DATA else PIC1_DATA) p) as [v q] eqn:E. destruct Hl as [-> Hq].
  eexists _, _. rewrite ports_set, E, set_set. split; [done|].
  assert (Hat : pic_at (pics p) s0 (set_ports q s0)) by by exists q.
  eapply wp_mono; [apply (outb_data_wp (slave irq) _ _ _ _ Hat)|]. intros [] s'. cbv beta.
  unfold pic_data. by rewrite (Hicw (slave irq)).
Qed.

(** What masking and unmasking a line does to the lines. *)
Definition set_line (irq : Z) (open : bool) (x x' : pic_state) : Prop :=
  initialised x' ∧ served x' = served x ∧
  ∀ n, 0 ≤ n < 16 → unmasked x' n = if n =? irq then open else unmasked x n.

Lemma set_line_upd irq open x v : 0 ≤ irq < 16 → initialised x → 0 ≤ v < 256 →
  (∀ k, 0 ≤ k < 8 → Z.testbit v k = if k =? line_bit irq then negb open else Z.testbit (imr x (slave irq)) k) →
  set_line irq open x (PicState (upd (slave irq) v (imr x)) (vbase x) (icw x) (served x)).
Proof.
  intros Hi (Hicw & Hb1 & Hb2 & Himr) Hv Hbits. split; [|split; [done|]].
  { split_and!; try done. intros b. cbn [imr]. unfold upd. case_if; [done|apply Himr]. }
  intros n Hn. unfold unmasked, upd, slave, line_bit in *. cbn [imr].
  destruct (Z.ltb_spec irq 8), (Z.ltb_spec n 8); cbn [negb Bool.eqb] in *.
  - rewrite Hbits by lia. destruct (n =? irq); [by rewrite negb_involutive|done].
  - rewrite (proj2 (Z.eqb_neq n irq)) by lia. done.
  - rewrite (proj2 (Z.eqb_neq n irq)) by lia. done.
  - rewrite Hbits, u8_small by lia. destruct (Z.eqb_spec (n - 8) (irq - 8)), (Z.eqb_spec n irq); try lia;
      [by rewrite negb_involutive|done].
Qed.

Lemma pic_unmask_wp irq x (s0 s : S) : 0 ≤ irq < 16 → initialised x → pic_at x s0 s →
  wp (pic_unmask_irq irq) (λ _ s', ∃ x', pic_at x' s0 s' ∧ set_line irq true x x') s.
Proof.
  intros Hi Hx Hs. eapply wp_mono.
  - apply (change_mask_wp irq (λ v, u8 (Z.land v (Z.lnot (u8 (Z.shiftl 1 (line_bit irq)))))) x s0 s Hx Hs).
  - intros [] s' Hs'. eexists. split; [exact Hs'|]. destruct (line_mask irq Hi) as [Hb Hm].
    pose proof Hx as (_ & _ & _ & Himr). specialize (Himr (slave irq)).
    pose proof (land_range 8 (imr x (slave irq)) (Z.lnot (2 ^ line_bit irq)) ltac:(lia) Himr) as Hr.
    rewrite Hm, u8_small by exact Hr. apply set_line_upd; [done|done|exact Hr|].
    intros k Hk. rewrite Z.land_spec, Z.lnot_spec, Z.pow2_bits_eqb, (Z.eqb_sym _ k) by lia.
    destruct (k =? line_bit irq); [by rewrite andb_false_r|by rewrite andb_true_r].
Qed.

Lemma pic_mask_wp irq x (s0 s : S) : 0 ≤ irq < 16 → initialised x → pic_at x s0 s →
  wp (pic_mask_irq irq) (λ _ s', ∃ x', pic_at x' s0 s' ∧ set_line irq false x x') s.
Proof.
  intros Hi Hx Hs. eapply wp_mono.
  - apply (change_mask_wp irq (λ v, u8 (Z.lor v (u8 (Z.shiftl 1 (line_bit irq))))) x s0 s Hx Hs).
  - intros [] s' Hs'. eexists. split; [exact Hs'|]. destruct (line_mask irq Hi) as [Hb Hm].
    pose proof Hx as (_ & _ & _ & Himr). specialize (Himr (slave irq)).
    assert (Hp : 0 ≤ 2 ^ line_bit irq < 2 ^ 8) by (split; [apply Z.pow_nonneg; lia|apply Z.pow_lt_mono_r; lia]).
    pose proof (lor_range 8 (imr x (slave irq)) (2 ^ line_bit irq) ltac:(lia) Himr Hp) as Hr.
    rewrite Hm, u8_small by exact Hr. apply set_line_upd; [done|done|exact Hr|].
    intros k Hk. rewrite Z.lor_spec, Z.pow2_bits_eqb, (Z.eqb_sym _ k) by lia.
    destruct (k =? line_bit irq); [by rewrite orb_true_r|by rewrite orb_false_r].
Qed.

(** *** Sequences of changes: a line and whether it is opened *)

Fixpoint set_lines (ops : list (Z * bool)) : M S unit :=
  match ops with
  | [] => ret tt
  | (irq, open) :: ops => (if open : bool then pic_unmask_irq irq else pic_mask_irq irq) ;; set_lines ops
  end.
(** The line is as the last change left it. *)
Definition opened (ops : list (Z * bool)) (before : bool) (n : Z) : bool :=
  foldl (λ b '(irq, open), if n =? irq then open else b) before ops.

Lemma set_lines_wp ops : ∀ x (s0 s : S), Forall (λ o, 0 ≤ o.1 < 16) ops → initialised x → pic_at x s0 s →
  wp (set_lines ops) (λ _ s', ∃ x', pic_at x' s0 s' ∧ initialised x' ∧
    ∀ n, 0 ≤ n < 16 → unmasked x' n = opened ops (unmasked x n) n) s.
Proof.
  induction ops as [|[irq open] ops IH]; intros x s0 s Hops Hx Hs; cbn [set_lines].
  { apply wp_ret. by exists x. }
  inversion_clear Hops as [|? ? Hi Hops']. cbn [fst] in Hi.
  eapply wp_call with (P := λ _ s', ∃ x', pic_at x' s0 s' ∧ set_line irq open x x').
  { destruct open; [by apply pic_unmask_wp|by apply pic_mask_wp]. }
  intros _ s1 (x1 & Hs1 & Hx1 & _ & Hl). eapply wp_mono; [by apply (IH x1 s0)|].
  intros [] s2 (x2 & Hs2 & Hx2 & Hl2). exists x2. split; [done|]. split; [done|]. intros n Hn.
  rewrite Hl2, Hl by done. done.
Qed.
End proof.

(** ** Dispatch *)

Section dispatch.
Context {S P : Type} `{Pic P, HasPorts S P, !LawfulPorts S P}.

Lemma on_world_wp {A} (m : M S A) Q (s : isr S) :
  wp m (λ a w, Q a (Isr (irq_handlers s) w)) (world s) → wp (on_world m) Q s.
Proof. intros (a & w & E & HQ). exists a. eexists. unfold on_world. by rewrite E. Qed.

(** The acknowledgements an interrupt on line [irq] needs. *)
Definition acknowledged (irq : Z) (n : bool → nat) : bool → nat :=
  λ b, if b then (if 8 <=? irq then Datatypes.S (n true) else n true) else Datatypes.S (n false).

Lemma send_eoi_wp irq x (s0 s : S) : pic_at x s0 s →
  wp (pic_send_eoi irq) (λ _ s', ∃ x', pic_at x' s0 s' ∧ imr x' = imr x ∧ ∀ b, served x' b = acknowledged irq (served x) b) s.
Proof.
  intros Hs. unfold pic_send_eoi, acknowledged. destruct (8 <=? irq).
  - wp_apply (outb_cmd_wp true PIC_EOI _ _ _ Hs). clear Hs. intros _ s1 Hs.
    eapply wp_mono; [apply (outb_cmd_wp false PIC_EOI _ _ _ Hs)|]. intros [] s2 Hs2. eexists. split; [exact Hs2|].
    split; [done|]. by intros [].
  - apply wp_bind, wp_ret. eapply wp_mono; [apply (outb_cmd_wp false PIC_EOI _ _ _ Hs)|]. intros [] s2 Hs2.
    eexists. split; [exact Hs2|]. split; [done|]. by intros [].
Qed.
End dispatch.

(** ** The theorems *)

(** C28: Invariant of the masks. After [pic_init] every line is masked, the lines are at
    the vectors 32 to 47, and after any sequence of maskings and unmaskings a line
    is open exactly when the last call for it opened it: no call touches another
    line of either controller. *)
Theorem pic_lines_spec {S P} `{Pic P, HasPorts S P, !LawfulPorts S P} ops (s : S) :
  Forall (λ o, 0 ≤ o.1 < 16) ops →
  wp (pic_init ;; set_lines ops) (λ _ s', let x := pics (ports s') in
    vbase x false = 32 ∧ vbase x true = 40 ∧ ∀ n, 0 ≤ n < 16 → unmasked x n = opened ops false n) s.
Proof.
  intros Hops. wp_apply pic_init_wp. intros _ s1 (x & Hs1 & Hx & Hff).
  eapply wp_mono; [by apply (set_lines_wp ops x s)|]. intros [] s2 (x2 & (p & -> & <-) & (_ & Hb1 & Hb2 & _) & Hl).
  rewrite ports_set. split; [done|]. split; [done|]. intros n Hn. rewrite Hl by done. f_equal.
  unfold unmasked. rewrite !Hff. change 255 with (Z.ones 8). destruct (Z.ltb_spec n 8); by rewrite Z.ones_spec_low by lia.
Qed.

(** Error behaviour. The drivers open two lines, 1 (keyboard.c) and 12 (mouse.c), and
    nothing opens line 0 or line 2. So after initialisation and any number of such
    calls the timer interrupt, which advances the clock, does not reach the
    processor, and neither does that of the mouse, whose controller is wired to
    line 2. *)
Theorem timer_and_mouse_masked {S P} `{Pic P, HasPorts S P, !LawfulPorts S P} lines (s : S) :
  Forall (λ n, n = 1 ∨ n = 12) lines →
  wp (pic_init ;; set_lines (map (λ n, (n, true)) lines)) (λ _ s', let x := pics (ports s') in
    delivers x 0 = false ∧ delivers x 12 = false ∧ delivers x 1 = bool_decide (1 ∈ lines)) s.
Proof.
  intros Hl. wp_apply pic_init_wp. intros _ s1 (x & Hs1 & Hx & Hff).
  eapply wp_mono; [apply (set_lines_wp _ x s); [|done|done]|].
  { apply list.Forall_fmap. eapply list.Forall_impl; [exact Hl|]. cbn. lia. }
  intros [] s2 (x2 & (p & -> & <-) & _ & Hlines). rewrite ports_set. unfold delivers.
  assert (Hoff : ∀ n, 0 ≤ n < 16 → unmasked x n = false).
  { intros n Hn. unfold unmasked. rewrite !Hff. change 255 with (Z.ones 8).
    destruct (Z.ltb_spec n 8); by rewrite Z.ones_spec_low by lia. }
  assert (Hopen : ∀ n b, opened (map (λ n, (n, true)) lines) b n = b || bool_decide (n ∈ lines)).
  { clear. intros n. unfold opened. induction lines as [|l lines IH]; intros b; cbn [map foldl].
    - by rewrite bool_decide_false, orb_false_r by apply not_elem_of_nil.
    - rewrite IH. destruct (Z.eqb_spec n l) as [->|Hne].
      + rewrite (bool_decide_true (l ∈ l :: lines)) by by left. by rewrite orb_true_r.
      + f_equal. apply bool_decide_ext. rewrite elem_of_cons. split; [by right|by intros [?|?]]. }
  assert (Hnot : ∀ n, n ≠ 1 → n ≠ 12 → bool_decide (n ∈ lines) = false).
  { intros n N1 N12. apply bool_decide_false. intros Hin. rewrite list.Forall_forall in Hl. destruct (Hl n Hin); done. }
  rewrite !Hlines, !Hopen, !Hoff by lia. rewrite !(Hnot 0), !(Hnot 2) by done. cbn. rewrite andb_false_r, andb_true_r. done.
Qed.

(** A hardware interrupt on line [irq] runs the clock when the line is the
    timer's and the handler that is installed, then acknowledges at the master
    and, for the upper lines, at the slave; the masks are what they were. *)
Lemma isr_dispatch {S P} `{Pic P, HasPorts S P, !LawfulPorts S P} panic time_tick regs h (Q : S → Prop) (s : isr S) :
  let irq := int_no regs - 32 in
  0 ≤ irq < 16 → irq_handlers s !! Z.to_nat irq = Some h →
  wp ((if irq =? 0 then time_tick else ret tt) ;; match h with Some f => f | None => ret tt end) (λ _, Q) (world s) →
  wp (isr_handler panic time_tick regs) (λ _ s', irq_handlers s' = irq_handlers s ∧ ∃ w p, Q w ∧ world s' = set_ports p w ∧
    imr (pics p) = imr (pics (ports w)) ∧ ∀ b, served (pics p) b = acknowledged irq (served (pics (ports w))) b) s.
Proof.
  intros irq Hi Hh (u & w & E & HQ). unfold isr_handler. rewrite (proj2 (Z.ltb_ge _ 32)) by (unfold irq in Hi; lia).
  cbv zeta. fold irq. rewrite u8_small, (proj2 (Z.ltb_lt irq 16)) by lia. unfold bind at 1 in E.
  destruct ((if irq =? 0 then time_tick else ret tt) (world s)) as [[t w1]|] eqn:E1; [|done].
  eapply wp_call with (P := λ _ s1, s1 = Isr (irq_handlers s) w1).
  { destruct (irq =? 0).
    - apply on_world_wp. exists t, w1. by rewrite E1.
    - injection E1 as _ <-. apply wp_ret. by destruct s. }
  intros _ s1 ->. eapply wp_call with (P := λ _ s2, s2 = Isr (irq_handlers s) w).
  { apply wp_bind, wp_gets. cbn [irq_handlers]. rewrite Hh. apply wp_bind. eapply wp_lift; [reflexivity|]. destruct h as [f|].
    - apply on_world_wp. by exists u, w.
    - injection E as _ <-. by apply wp_ret. }
  intros _ s2 ->. apply on_world_wp. cbn [world irq_handlers].
  eapply wp_mono; [apply (send_eoi_wp irq _ w w (pic_at_refl w))|].
  intros [] w' (x & (p & -> & <-) & Himr & Hserved). split; [done|]. exists w, p. done.
Qed.

(** *** Concrete controllers *)

#[export] Instance demo_pic_ports : Ports pic_state :=
  {| inb := λ port p, (if port =? PIC1_DATA then imr p false else if port =? PIC2_DATA then imr p true else 255, p);
     outb := λ port v p, if port =? PIC1_CMD then pic_cmd false v p else if port =? PIC2_CMD then pic_cmd true v p
       else if port =? PIC1_DATA then pic_data false v p else if port =? PIC2_DATA then pic_data true v p else p;
     inw := λ _ p, (65535, p); inl := λ _ p, (4294967295, p); outw := λ _ _ p, p; outl := λ _ _ p, p |}.
#[export] Instance demo_pic : Pic pic_state.
Proof.
  refine {| pics := id |}; [by intros []..|]. intros port v p Hp. cbn. unfold id.
  rewrite !(proj2 (Z.eqb_neq _ _)) by (intros ->; apply Hp; set_solver). done.
Defined.
Definition demo_reset : pic_state := PicState (λ _, 0) (λ _, 0) (λ _, 0%nat) (λ _, 0%nat).

Lemma pic_lines_spec_witness :
  Forall (λ o, 0 ≤ o.1 < 16) [(1, true); (12, true); (1, false); (5, true)] ∧
  wp (pic_init ;; set_lines [(1, true); (12, true); (1, false); (5, true)]) (λ _ s', let x := pics (ports s') in
    vbase x false = 32 ∧ vbase x true = 40 ∧
    ∀ n, 0 ≤ n < 16 → unmasked x n = opened [(1, true); (12, true); (1, false); (5, true)] false n) demo_reset.
Proof.
  assert (H : Forall (λ o : Z * bool, 0 ≤ o.1 < 16) [(1, true); (12, true); (1, false); (5, true)])
    by (repeat constructor; by cbv).
  split; [exact H|]. by apply (pic_lines_spec [(1, true); (12, true); (1, false); (5, true)] demo_reset).
Defined.

Lemma timer_and_mouse_masked_witness :
  wp (pic_init ;; set_lines (map (λ n, (n, true)) [1; 12])) (λ _ s', let x := pics (ports s') in
    delivers x 0 = false ∧ delivers x 12 = false ∧ delivers x 1 = true) demo_reset.
Proof. apply (timer_and_mouse_masked [1; 12] demo_reset). repeat constructor; lia. Defined.
