(* ===== verification/Descriptors.v ===== *)
(** * arch/x86*/gdt.c and arch/x86*/idt.c: segment descriptors and gates

    The packed structures as the records of the code, their bytes in memory, and
    what the processor reads out of those bytes. The instructions that load the
    tables (gdt_flush, idt_flush) are assembly. *)
From S2P Require Import Prelude.

(** [struct gdt_entry], the same on both architectures. *)
Record gdt_entry := GdtEntry {
  limit_low : Z;
  base_low : Z;
  base_mid : Z;
  access : Z;
  granularity : Z;
  base_high : Z;
}.
Definition gdt_bytes (e : gdt_entry) : list Z :=
  le_to 2 (limit_low e) ++ le_to 2 (base_low e) ++ [base_mid e; access e; granularity e; base_high e].
Definition gdt_blank : gdt_entry := GdtEntry 0 0 0 0 0 0.

(** A table and the operand of LGDT or LIDT: the limit and the address. *)
Record table (A : Type) := Table { entries : list A; limit : Z; base : Z }.
Arguments Table {A}.
Arguments entries {A}.
Arguments limit {A}.
Arguments base {A}.
Definition set_entry {A} (i : Z) (e : A) (t : table A) : table A := Table (<[Z.to_nat i := e]> (entries t)) (limit t) (base t).

Module X86.
Definition gdt_set_entry (i base limit access gran : Z) (t : table gdt_entry) : table gdt_entry :=
  set_entry i (GdtEntry (u16 (Z.land limit 0xFFFF)) (u16 (Z.land base 0xFFFF)) (u8 (Z.land (Z.shiftr base 16) 0xFF)) access
    (u8 (Z.lor (u8 (Z.land (Z.shiftr limit 16) 0x0F)) (Z.land gran 0xF0))) (u8 (Z.land (Z.shiftr base 24) 0xFF))) t.

(** [addr] is where the linker put the table. *)
Definition gdt_init (addr : Z) (t : table gdt_entry) : table gdt_entry :=
  let t := Table (entries t) (8 * 3 - 1) (u32 addr) in
  let t := gdt_set_entry 0 0 0 0 0 t in
  let t := gdt_set_entry 1 0 0xFFFFF 0x9A 0xC0 t in
  gdt_set_entry 2 0 0xFFFFF 0x92 0xC0 t.

Record idt_entry := IdtEntry { ibase_low : Z; selector : Z; zero : Z; flags : Z; ibase_high : Z }.
Definition idt_bytes (e : idt_entry) : list Z :=
  le_to 2 (ibase_low e) ++ le_to 2 (selector e) ++ [zero e; flags e] ++ le_to 2 (ibase_high e).
Definition idt_blank : idt_entry := IdtEntry 0 0 0 0 0.

Definition idt_set_gate (n handler : Z) (t : table idt_entry) : table idt_entry :=
  set_entry n (IdtEntry (u16 (Z.land handler 0xFFFF)) 0x08 0 0x8E (u16 (Z.land (Z.shiftr handler 16) 0xFFFF))) t.
End X86.

Module X64.
Definition gdt_set_entry (i access gran : Z) (t : table gdt_entry) : table gdt_entry :=
  set_entry i (GdtEntry 0xFFFF 0 0 access gran 0) t.

Definition gdt_init (addr : Z) (t : table gdt_entry) : table gdt_entry :=
  let t := Table (entries t) (8 * 3 - 1) (u64 addr) in
  let t := gdt_set_entry 0 0x00 0x00 t in
  let t := gdt_set_entry 1 0x9A 0xAF t in
  gdt_set_entry 2 0x92 0xAF t.

Record idt_entry := IdtEntry {
  ibase_low : Z; selector : Z; ist : Z; flags : Z; ibase_mid : Z; ibase_high : Z; reserved : Z }.
Definition idt_bytes (e : idt_entry) : list Z :=
  le_to 2 (ibase_low e) ++ le_to 2 (selector e) ++ [ist e; flags e] ++ le_to 2 (ibase_mid e) ++ le_to 4 (ibase_high e)
  ++ le_to 4 (reserved e).
Definition idt_blank : idt_entry := IdtEntry 0 0 0 0 0 0 0.

Definition idt_set_gate (n handler : Z) (t : table idt_entry) : table idt_entry :=
  set_entry n (IdtEntry (u16 (Z.land handler 0xFFFF)) 0x08 0 0x8E (u16 (Z.land (Z.shiftr handler 16) 0xFFFF))
    (u32 (Z.land (Z.shiftr handler 32) 0xFFFFFFFF)) 0) t.
End X64.

Definition IDT_ENTRIES : Z := 256.

(** The loops of [idt_init]: [n] gates from gate [i] on. *)
Fixpoint set_gates {A} (set_gate : Z → Z → table A → table A) (handler : Z → option Z) (n : nat) (i : Z) (t : table A)
  : option (table A) :=
  match n with
  | O => Some t
  | S n => h ← handler i; set_gates set_gate handler n (i + 1) (set_gate i h t)
  end.
Definition fill_idt {A} (set_gate : Z → Z → table A → table A) (stubs : list Z) (t : table A) : option (table A) :=
  t ← set_gates set_gate (λ i, stubs !! Z.to_nat i) 48 0 t;
  set_gates set_gate (λ _, Some 0) (Z.to_nat (IDT_ENTRIES - 48)) 48 t.

Definition idt_init32 (addr : Z) (stubs : list Z) (t : table X86.idt_entry) : option (table X86.idt_entry) :=
  fill_idt X86.idt_set_gate stubs (Table (entries t) (8 * 256 - 1) (u32 addr)).
Definition idt_init64 (addr : Z) (stubs : list Z) (t : table X64.idt_entry) : option (table X64.idt_entry) :=
  fill_idt X64.idt_set_gate stubs (Table (entries t) (16 * 256 - 1) (u64 addr)).

(** ** What the processor reads

    The fields of the 8-byte segment descriptor and of the gates, at the offsets
    of the architecture manual. *)
Definition byte (l : list Z) (i : nat) : Z := nth i l 0.
Definition seg_base (l : list Z) : Z := byte l 2 + 256 * byte l 3 + 65536 * byte l 4 + 16777216 * byte l 7.
Definition seg_limit (l : list Z) : Z := byte l 0 + 256 * byte l 1 + 65536 * (byte l 6 mod 16).
Definition seg_access (l : list Z) : Z := byte l 5.
Definition seg_flags (l : list Z) : Z := byte l 6 / 16.

(** The last address of a segment: 4 KiB units with the G flag (bit 3). *)
Definition seg_last (l : list Z) : Z := if Z.testbit (seg_flags l) 3 then seg_limit l * 4096 + 4095 else seg_limit l.

Definition gate_selector (l : list Z) : Z := byte l 2 + 256 * byte l 3.
Definition gate_flags (l : list Z) : Z := byte l 5.
Definition gate_offset32 (l : list Z) : Z := byte l 0 + 256 * byte l 1 + 65536 * (byte l 6 + 256 * byte l 7).
Definition gate_offset64 (l : list Z) : Z := gate_offset32 l + 2 ^ 32 * le_of (take 4 (drop 8 l)).

(** *** Lemmas *)

Lemma field16 v : u16 (Z.land v 0xFFFF) = v mod 65536.
Proof. change 0xFFFF with (Z.ones 16). rewrite Z.land_ones by lia. unfold u16. change (2 ^ 16) with 65536. by rewrite Zmod_mod. Qed.
Lemma field8 v : u8 (Z.land v 0xFF) = v mod 256.
Proof. change 0xFF with (Z.ones 8). rewrite Z.land_ones by lia. unfold u8. change (2 ^ 8) with 256. by rewrite Zmod_mod. Qed.
Lemma shift_div v k : 0 ≤ k → Z.shiftr v k = v / 2 ^ k.
Proof. apply Z.shiftr_div_pow2. Qed.

(** The low nibble of the limit's top and the flags share a byte. *)
Lemma nibbles l g : 0 ≤ l < 2 ^ 20 → 0 ≤ g < 256 →
  u8 (Z.lor (u8 (Z.land (Z.shiftr l 16) 0x0F)) (Z.land g 0xF0)) = l / 65536 + 16 * (g / 16).
Proof.
  intros Hl Hg. change 0x0F with (Z.ones 4). rewrite shift_div, Z.land_ones by lia. change (2 ^ 16) with 65536. change (2 ^ 4) with 16.
  assert (Hq : 0 ≤ l / 65536 < 16) by mod_lia. rewrite (Z.mod_small _ 16), (u8_small (l / 65536)) by lia.
  assert (E : Z.land g 0xF0 = 16 * (g / 16)).
  { change 0xF0 with (Z.shiftl 15 4). replace (16 * (g / 16)) with (Z.shiftl (g / 16) 4) by (rewrite Z.shiftl_mul_pow2 by lia; lia).
    rewrite <- (Z.mod_small g 256) at 1 by done. apply Z.bits_inj'. intros n Hn. rewrite Z.land_spec.
    destruct (decide (n < 4)).
    - rewrite !Z.shiftl_spec_low by done. by rewrite andb_false_r.
    - rewrite !Z.shiftl_spec by lia. change 15 with (Z.ones 4). change 16 with (2 ^ 4). rewrite <- shift_div, Z.shiftr_spec by lia.
      replace (n - 4 + 4) with n by lia. change 256 with (2 ^ 8). destruct (decide (n < 8)).
      + rewrite Z.mod_pow2_bits_low, Z.ones_spec_low by lia. by rewrite andb_true_r.
      + rewrite Z.mod_pow2_bits_high by lia. symmetry. rewrite <- (Z.mod_small g (2 ^ 8)) by done.
        by rewrite Z.mod_pow2_bits_high by lia. }
  rewrite E, Z.lor_comm, (lor_disjoint _ _ 4); [rewrite u8_small; mod_lia|lia|change (2 ^ 4) with 16; mod_lia|done].
Qed.

(** A descriptor of X86 as the processor reads it. *)
Lemma gdt_entry_decodes i b l a g t : (i < length (entries t))%nat →
  0 ≤ b < 2 ^ 32 → 0 ≤ l < 2 ^ 20 → 0 ≤ g < 256 →
  ∃ e, entries (X86.gdt_set_entry (Z.of_nat i) b l a g t) !! i = Some e ∧
    seg_base (gdt_bytes e) = b ∧ seg_limit (gdt_bytes e) = l ∧ seg_access (gdt_bytes e) = a ∧ seg_flags (gdt_bytes e) = g / 16.
Proof.
  intros Hi Hb Hl Hg. eexists. split.
  { unfold X86.gdt_set_entry, set_entry. cbn [entries]. rewrite Nat2Z.id. by apply list_lookup_insert_eq. }
  unfold gdt_bytes, seg_base, seg_limit, seg_access, seg_flags, byte. cbn [base_low base_mid base_high limit_low granularity access].
  rewrite !field16, !field8, nibbles, !shift_div by (done || lia). change (2 ^ 16) with 65536. change (2 ^ 24) with 16777216.
  cbn [le_to app nth]. split_and!; mod_lia.
Qed.

(** Gates. *)
Lemma gate32_decodes h : 0 ≤ h < 2 ^ 32 → ∀ n t, (n < length (entries t))%nat →
  ∃ e, entries (X86.idt_set_gate (Z.of_nat n) h t) !! n = Some e ∧
    gate_offset32 (X86.idt_bytes e) = h ∧ gate_selector (X86.idt_bytes e) = 8 ∧ gate_flags (X86.idt_bytes e) = 0x8E.
Proof.
  intros Hh n t Hn. eexists. split.
  { unfold X86.idt_set_gate, set_entry. cbn [entries]. rewrite Nat2Z.id. by apply list_lookup_insert_eq. }
  unfold X86.idt_bytes, gate_offset32, gate_selector, gate_flags, byte. cbn [X86.ibase_low X86.ibase_high X86.selector X86.zero X86.flags].
  rewrite !field16, shift_div by lia. change (2 ^ 16) with 65536. cbn [le_to app nth]. split_and!; mod_lia.
Qed.

Lemma gate64_decodes h : 0 ≤ h < 2 ^ 64 → ∀ n t, (n < length (entries t))%nat →
  ∃ e, entries (X64.idt_set_gate (Z.of_nat n) h t) !! n = Some e ∧
    gate_offset64 (X64.idt_bytes e) = h ∧ gate_selector (X64.idt_bytes e) = 8 ∧ gate_flags (X64.idt_bytes e) = 0x8E.
Proof.
  intros Hh n t Hn. eexists. split.
  { unfold X64.idt_set_gate, set_entry. cbn [entries]. rewrite Nat2Z.id. by apply list_lookup_insert_eq. }
  unfold X64.idt_bytes, gate_offset64, gate_offset32, gate_selector, gate_flags, byte.
  cbn [X64.ibase_low X64.ibase_mid X64.ibase_high X64.selector X64.ist X64.flags X64.reserved].
  rewrite !field16, !shift_div by lia. change 0xFFFFFFFF with (Z.ones 32). rewrite Z.land_ones by lia. unfold u32.
  change (2 ^ 16) with 65536. change (2 ^ 32) with 4294967296. rewrite Zmod_mod.
  cbn [le_to app nth drop take le_of]. split_and!; mod_lia.
Qed.

(** The loops touch each gate once, in its turn. *)
Section gates.
Context {A} (set_gate : Z → Z → table A → table A) (reads : A → Z → Prop).
Context (Hset : ∀ h n t, 0 ≤ h → ∃ e, set_gate (Z.of_nat n) h t = set_entry (Z.of_nat n) e t ∧ reads e h).

Lemma set_gates_run handler n : ∀ i t, (i + n ≤ length (entries t))%nat →
  (∀ k, (i ≤ k < i + n)%nat → ∃ h, handler (Z.of_nat k) = Some h ∧ 0 ≤ h) →
  ∃ t', set_gates set_gate handler n (Z.of_nat i) t = Some t' ∧ length (entries t') = length (entries t) ∧
    limit t' = limit t ∧ base t' = base t ∧
    (∀ k, (k < i ∨ i + n ≤ k)%nat → entries t' !! k = entries t !! k) ∧
    (∀ k, (i ≤ k < i + n)%nat → ∃ e h, entries t' !! k = Some e ∧ handler (Z.of_nat k) = Some h ∧ reads e h).
Proof.
  induction n as [|n IH]; intros i t Hl Hh; cbn [set_gates].
  { exists t. split_and!; try done. intros k Hk. lia. }
  destruct (Hh i ltac:(lia)) as (h & Eh & Hpos). rewrite Eh. cbn [mbind option_bind].
  destruct (Hset h i t Hpos) as (e & Ee & He). rewrite Ee. replace (Z.of_nat i + 1) with (Z.of_nat (S i)) by lia.
  destruct (IH (S i) (set_entry (Z.of_nat i) e t)) as (t' & Et & Hlen & Hlim & Hb & Hout & Hin).
  { cbn [entries set_entry]. rewrite length_insert. lia. }
  { intros k Hk. apply Hh. lia. }
  cbn [entries set_entry limit base] in *. rewrite length_insert, Nat2Z.id in *.
  exists t'. split_and!; try done.
  - intros k Hk. rewrite Hout by lia. apply list_lookup_insert_ne. lia.
  - intros k Hk. destruct (decide (k = i)) as [->|Hne]; [|apply Hin; lia].
    exists e, h. rewrite Hout by lia. rewrite list_lookup_insert_eq by lia. done.
Qed.

Lemma fill_idt_run stubs t : length (entries t) = 256%nat → length stubs = 48%nat → Forall (λ h, 0 ≤ h) stubs →
  ∃ t', fill_idt set_gate stubs t = Some t' ∧ limit t' = limit t ∧ base t' = base t ∧
    ∀ n, (n < 256)%nat → ∃ e, entries t' !! n = Some e ∧ reads e (nth n stubs 0).
Proof.
  intros Hl Hs Hpos. unfold fill_idt.
  destruct (set_gates_run (λ i, stubs !! Z.to_nat i) 48 0 t) as (t1 & E1 & L1 & M1 & B1 & _ & I1); [lia| |].
  { intros k Hk. rewrite Nat2Z.id. destruct (lookup_lt_is_Some_2 stubs k ltac:(lia)) as [h E]. exists h.
    split; [done|]. by eapply list.Forall_lookup in Hpos. }
  change (Z.of_nat 0) with 0 in E1. rewrite E1. cbn [mbind option_bind]. change (Z.to_nat (IDT_ENTRIES - 48)) with 208%nat.
  destruct (set_gates_run (λ _, Some 0) 208 48 t1) as (t2 & E2 & L2 & M2 & B2 & O2 & I2); [lia|by eexists|].
  change (Z.of_nat 48) with 48 in E2. exists t2. split; [exact E2|]. split; [congruence|]. split; [congruence|].
  intros n Hn. destruct (decide (n < 48)%nat).
  - rewrite O2 by lia. destruct (I1 n ltac:(lia)) as (e & h & Ee & Eh & He). exists e. split; [done|].
    rewrite Nat2Z.id in Eh. by rewrite (nth_lookup_Some _ _ _ _ Eh).
  - destruct (I2 n ltac:(lia)) as (e & h & Ee & [= <-] & He). exists e. split; [done|].
    by rewrite nth_overflow by lia.
Qed.
End gates.

(** ** The theorem *)

(** What the processor finds at a gate: a present ring-0 interrupt gate into the
    kernel code segment, with the handler [h]. *)
Definition gate32 (e : X86.idt_entry) (h : Z) : Prop := h < 2 ^ 32 →
  gate_offset32 (X86.idt_bytes e) = h ∧ gate_selector (X86.idt_bytes e) = 8 ∧ gate_flags (X86.idt_bytes e) = 0x8E.
Definition gate64 (e : X64.idt_entry) (h : Z) : Prop := h < 2 ^ 64 →
  gate_offset64 (X64.idt_bytes e) = h ∧ gate_selector (X64.idt_bytes e) = 8 ∧ gate_flags (X64.idt_bytes e) = 0x8E.

(** A flat segment: from 0 to the last address of 4 GiB. *)
Definition flat (e : gdt_entry) (acc : Z) : Prop :=
  seg_base (gdt_bytes e) = 0 ∧ seg_last (gdt_bytes e) = 2 ^ 32 - 1 ∧ seg_access (gdt_bytes e) = acc.

Lemma gdt_init_flat (g0 g1 g2 : gdt_entry) l b addr :
  let t32 := X86.gdt_init addr (Table [g0; g1; g2] l b) in
  let t64 := X64.gdt_init addr (Table [g0; g1; g2] l b) in
  limit t32 = 23 ∧ base t32 = u32 addr ∧ limit t64 = 23 ∧ base t64 = u64 addr ∧
  (∃ n c d, entries t32 = [n; c; d] ∧ gdt_bytes n = zeros 8 ∧ flat c 0x9A ∧ flat d 0x92) ∧
  (∃ n c d, entries t64 = [n; c; d] ∧ flat c 0x9A ∧ flat d 0x92 ∧ seg_flags (gdt_bytes c) = 10).
Proof. cbv zeta. split_and!; try reflexivity; eexists _, _, _; (split; [reflexivity|]); by vm_compute. Qed.

(** C30: Round trip with the processor, both architectures. The tables the kernel builds,
    read from their bytes as the processor reads them, are what the code means:
    the null descriptor, then a code and a data segment over all of 4 GiB, on
    x86_64 with the long-mode flag; and for every vector a gate to the stub of its
    number, or, from vector 48 on, to address 0, which the code marks present too. *)
Theorem descriptor_tables_read_back g0 g1 g2 l b addr (t32 : table X86.idt_entry) (t64 : table X64.idt_entry) stubs32 stubs64 :
  length (entries t32) = 256%nat → length (entries t64) = 256%nat →
  length stubs32 = 48%nat → length stubs64 = 48%nat →
  Forall (λ h, 0 ≤ h < 2 ^ 32) stubs32 → Forall (λ h, 0 ≤ h < 2 ^ 64) stubs64 →
  (∃ n c d, entries (X86.gdt_init addr (Table [g0; g1; g2] l b)) = [n; c; d] ∧ gdt_bytes n = zeros 8 ∧ flat c 0x9A ∧ flat d 0x92) ∧
  (∃ n c d, entries (X64.gdt_init addr (Table [g0; g1; g2] l b)) = [n; c; d] ∧ flat c 0x9A ∧ flat d 0x92 ∧
     seg_flags (gdt_bytes c) = 10) ∧
  (∃ t, idt_init32 addr stubs32 t32 = Some t ∧ limit t = 2047 ∧
     ∀ n, (n < 256)%nat → ∃ e, entries t !! n = Some e ∧ gate32 e (nth n stubs32 0)) ∧
  (∃ t, idt_init64 addr stubs64 t64 = Some t ∧ limit t = 4095 ∧
     ∀ n, (n < 256)%nat → ∃ e, entries t !! n = Some e ∧ gate64 e (nth n stubs64 0)).
Proof.
  intros L32 L64 S32 S64 H32 H64. destruct (gdt_init_flat g0 g1 g2 l b addr) as (_ & _ & _ & _ & G32 & G64).
  split; [exact G32|]. split; [exact G64|]. split.
  - destruct (fill_idt_run X86.idt_set_gate gate32) with (stubs := stubs32)
      (t := Table (entries t32) (8 * 256 - 1) (u32 addr)) as (t & E & Hl & _ & Hg); [|done|done| |by exists t].
    + intros h n t Hpos. eexists. split; [reflexivity|]. intros Hh.
      destruct (gate32_decodes h ltac:(lia) 0 (Table [X86.idt_blank] 0 0)) as (e & [= <-] & He); [cbn; lia|]. exact He.
    + eapply list.Forall_impl; [exact H32|]. intros h Hh. cbv beta in *. lia.
  - destruct (fill_idt_run X64.idt_set_gate gate64) with (stubs := stubs64)
      (t := Table (entries t64) (16 * 256 - 1) (u64 addr)) as (t & E & Hl & _ & Hg); [|done|done| |by exists t].
    + intros h n t Hpos. eexists. split; [reflexivity|]. intros Hh.
      destruct (gate64_decodes h ltac:(lia) 0 (Table [X64.idt_blank] 0 0)) as (e & [= <-] & He); [cbn; lia|]. exact He.
    + eapply list.Forall_impl; [exact H64|]. intros h Hh. cbv beta in *. lia.
Qed.

Lemma descriptor_tables_read_back_witness :
  let stubs := (λ i, 0x100000 + 16 * i) <$> seqZ 0 48 in
  ∃ t, idt_init64 0x200000 stubs (Table (replicate 256 X64.idt_blank) 0 0) = Some t ∧ limit t = 4095 ∧
    ∀ n, (n < 256)%nat → ∃ e, entries t !! n = Some e ∧ gate64 e (nth n stubs 0).
Proof.
  intros stubs. assert (Hs : ∀ w, 32 ≤ w → Forall (λ h, 0 ≤ h < 2 ^ w) stubs).
  { intros w Hw. apply list.Forall_fmap, list.Forall_forall. intros i Hi%elem_of_seqZ.
    assert (2 ^ 32 ≤ 2 ^ w) by (apply Z.pow_le_mono_r; lia). cbn. lia. }
  destruct (descriptor_tables_read_back gdt_blank gdt_blank gdt_blank 0 0 0x200000 (Table (replicate 256 X86.idt_blank) 0 0)
    (Table (replicate 256 X64.idt_blank) 0 0) stubs stubs) as (_ & _ & _ & H); try reflexivity; try (apply Hs; lia).
  exact H.
Defined.
