(* ===== verification/Cpuid.v ===== *)
(** * arch/x86/cpu/cpuid.c: what processor this is

    The CPUID instruction is an argument: the four registers of a leaf. The
    file of arch/x86_64 is the same. A caller's buffer is its bytes. *)
From S2P Require Import Prelude KString.
Open Scope c_scope.

Record cpu_regs := CpuRegs { ra : Z; rb : Z; rc : Z; rd : Z }.

Section cpuid.
Variable cpuid : Z → cpu_regs.

Definition get_cpu_vendor (out13 : list Z) : option (list Z) :=
  let r := cpuid 0 in
  out ← st32 out13 0 (rb r);
  out ← st32 out 4 (rd r);
  out ← st32 out 8 (rc r);
  st8 out 12 0.

Definition cpuid_max_extended : Z := ra (cpuid 0x80000000).

(** The loop over the three leaves. *)
Fixpoint store_leaves (leaves : list Z) (i : Z) (out : list Z) : option (list Z) :=
  match leaves with
  | [] => Some out
  | leaf :: leaves =>
      let r := cpuid leaf in
      out ← st32 out (4 * (i * 4 + 0)) (ra r);
      out ← st32 out (4 * (i * 4 + 1)) (rb r);
      out ← st32 out (4 * (i * 4 + 2)) (rc r);
      out ← st32 out (4 * (i * 4 + 3)) (rd r);
      store_leaves leaves (i + 1) out
  end.

(** [while ( *p == ' ') p++;] and the loop that moves the rest to the front.
    Neither looks for the end of the buffer: its last byte is 0. *)
Fixpoint skip_spaces (n : nat) (out : list Z) (p : Z) : option Z :=
  match n with
  | O => None
  | S n => c ← ld8 out p; if c =? 32 then skip_spaces n out (p + 1) else Some p
  end.
Fixpoint shift_down (n : nat) (out : list Z) (p i : Z) : option (list Z) :=
  match n with
  | O => None
  | S n =>
      c ← ld8 out (p + i);
      if c =? 0 then st8 out i 0
      else out ← st8 out i c; shift_down n out p (i + 1)
  end.

Definition brand_leaves : list Z := [0x80000002; 0x80000003; 0x80000004].

Definition get_cpu_brand (out49 : list Z) : option (list Z) :=
  out ← st8 out49 0 0;
  if cpuid_max_extended <? 0x80000004 then Some out
  else
    out ← store_leaves brand_leaves 0 out;
    out ← st8 out 48 0;
    p ← skip_spaces (length out) out 0;
    if p =? 0 then Some out else shift_down (length out) out p 0.

(** Family, model and stepping. *)
Definition get_cpu_fms : Z * Z * Z :=
  let a := ra (cpuid 1) in
  let base_family := Z.land (Z.shiftr a 8) 0xF in
  let base_model := Z.land (Z.shiftr a 4) 0xF in
  let ext_family := Z.land (Z.shiftr a 20) 0xFF in
  let ext_model := Z.land (Z.shiftr a 16) 0xF in
  (if base_family =? 0xF then base_family + ext_family else base_family,
   if (base_family =? 6) || (base_family =? 0xF) then Z.shiftl ext_model 4 + base_model else base_model,
   Z.land a 0xF).

Definition get_logical_cpus : Z :=
  let r := cpuid 1 in
  let htt := Z.land (Z.shiftr (rd r) 28) 1 in
  let logical := Z.land (Z.shiftr (rb r) 16) 0xFF in
  if (htt =? 0) || (logical =? 0) then 1 else logical.

(** One use of ADDFLAG; [name] comes with its space. *)
Definition add_flag (max reg bit : Z) (name : list Z) (st : list Z * Z) : option (list Z * Z) :=
  let '(out, pos) := st in
  if truthy (Z.land (Z.shiftr reg bit) 1) then
    let L := zlen name in
    if pos + L <? max - 1 then
      out ← splice out pos name;
      out ← st8 out (pos + L) 0;
      Some (out, pos + L)
    else Some st
  else Some st.

#[local] Open Scope string_scope.
Definition edx_flags : list (Z * String.string) := [
  (0, "fpu "); (4, "tsc "); (5, "msr "); (6, "pae ");
  (8, "cx8 "); (9, "apic "); (15, "cmov "); (23, "mmx ");
  (24, "fxsr "); (25, "sse "); (26, "sse2 "); (28, "htt ")].
Definition ecx_flags : list (Z * String.string) := [
  (0, "sse3 "); (9, "ssse3 "); (19, "sse4_1 "); (20, "sse4_2 ");
  (5, "vmx "); (28, "avx ")].
#[local] Close Scope string_scope.

Fixpoint add_flags (max reg : Z) (flags : list (Z * String.string)) (st : list Z * Z) : option (list Z * Z) :=
  match flags with
  | [] => Some st
  | (bit, name) :: flags =>
      st ← add_flag max reg bit (chars name) st;
      add_flags max reg flags st
  end.

Definition get_cpu_features (out : list Z) (max : Z) : option (list Z) :=
  let r := cpuid 1 in
  out ← st8 out 0 0;
  st ← add_flags max (rd r) edx_flags (out, 0);
  st ← add_flags max (rc r) ecx_flags st;
  let '(out, pos) := (st : list Z * Z) in
  if pos =? 0 then k_strcpy out (chars "(none detected)" ++ [0]) else Some out.

(** [cpu_report] of arch/x86/start.c, which nothing calls: what it prints, from
    the contents of its two buffers. The brand is left out when it is empty. *)
Definition cpu_report (vendor13 brand49 : list Z) : option (list Z * (Z * Z * Z) * option (list Z)) :=
  vendor ← get_cpu_vendor vendor13;
  brand ← get_cpu_brand brand49;
  c ← ld8 brand 0;
  Some (vendor, get_cpu_fms, if truthy c then Some brand else None).
End cpuid.

(** ** The brand string *)

Lemma ld8_mid (l1 l2 : list Z) c : ld8 (l1 ++ c :: l2) (zlen l1) = Some c.
Proof. apply ld8_eq; [|unfold zlen; lia]. unfold zlen. rewrite Nat2Z.id. by apply list_lookup_middle. Qed.
Lemma st8_mid (l1 l2 : list Z) c d : byte_ok d → st8 (l1 ++ c :: l2) (zlen l1) d = Some (l1 ++ d :: l2).
Proof.
  intros Hd. apply splice_Some. change (le_to (Z.to_nat 1) d) with [d mod 256]. rewrite Z.mod_small by done.
  unfold zlen. rewrite length_app. cbn [length]. split_and!; [lia|lia|].
  rewrite Nat2Z.id, take_app_length. by rewrite drop_app_ge, Nat.add_sub_swap, Nat.sub_diag by lia.
Qed.

Lemma skip_spaces_run k c rest n pre : c ≠ 32 → (k < n)%nat →
  skip_spaces n (pre ++ replicate k 32 ++ c :: rest) (zlen pre) = Some (zlen pre + Z.of_nat k).
Proof.
  intros Hc. revert n pre. induction k as [|k IH]; intros [|n] pre Hn; try lia; cbn [skip_spaces replicate app].
  - rewrite ld8_mid. cbn [mbind option_bind]. rewrite (proj2 (Z.eqb_neq c 32)) by done. f_equal. lia.
  - rewrite ld8_mid. cbn [mbind option_bind]. change (32 =? 32) with true. cbv iota.
    replace (pre ++ 32 :: replicate k 32 ++ c :: rest) with ((pre ++ [32]) ++ replicate k 32 ++ c :: rest) by by rewrite <- app_assoc.
    replace (zlen pre + 1) with (zlen (pre ++ [32])) by (unfold zlen; rewrite length_app; cbn; lia).
    rewrite IH by lia. unfold zlen. rewrite length_app. f_equal. cbn [length]. lia.
Qed.

(** [mid] is the gap the characters of [t] are moved over. *)
Lemma shift_down_run t : ∀ n pre mid rest, nonul t → mid ≠ [] → (length t < n)%nat →
  ∃ rest', shift_down n (pre ++ mid ++ t ++ 0 :: rest) (zlen mid) (zlen pre) = Some (pre ++ t ++ 0 :: rest') ∧
    length rest' = (length mid + length rest)%nat.
Proof.
  induction t as [|c t IH]; intros [|n] pre mid rest Ht Hmid Hn; cbn [length] in Hn; try lia; cbn [shift_down app].
  - replace (zlen mid + zlen pre) with (zlen (pre ++ mid)) by (unfold zlen; rewrite length_app; lia).
    rewrite app_assoc, ld8_mid. cbn [mbind option_bind Z.eqb]. rewrite <- app_assoc. destruct mid as [|m mid]; [done|].
    cbn [app]. rewrite st8_mid by done. exists (mid ++ 0 :: rest). split; [done|]. rewrite length_app. cbn. lia.
  - inversion_clear Ht as [|? ? [Hc Hcb] Ht'].
    replace (zlen mid + zlen pre) with (zlen (pre ++ mid)) by (unfold zlen; rewrite length_app; lia).
    rewrite app_assoc, ld8_mid. cbn [mbind option_bind]. rewrite (proj2 (Z.eqb_neq c 0)), <- app_assoc by done.
    destruct mid as [|m mid]; [done|]. cbn [app]. rewrite st8_mid by done. cbn [mbind option_bind].
    destruct (IH n (pre ++ [c]) (mid ++ [c]) rest) as (rest' & E & Hl); [done|by destruct mid|lia|].
    exists rest'. rewrite length_app in Hl. split; [|cbn [length] in *; lia].
    rewrite <- !app_assoc in E. cbn [app] in E. rewrite <- E. f_equal; unfold zlen; rewrite length_app; cbn; lia.
Qed.

Definition leaf_bytes (r : cpu_regs) : list Z := le_to 4 (ra r) ++ le_to 4 (rb r) ++ le_to 4 (rc r) ++ le_to 4 (rd r).

Lemma st32_mid (l1 old l2 : list Z) v : length old = 4%nat → st32 (l1 ++ old ++ l2) (zlen l1) v = Some (l1 ++ le_to 4 v ++ l2).
Proof.
  intros Hl. apply splice_Some. unfold zlen. rewrite length_le_to, !length_app. split_and!; [lia|lia|].
  rewrite Nat2Z.id, take_app_length. f_equal. f_equal. rewrite drop_app_ge, drop_app_ge by (cbn; lia).
  replace (_ - _ - _)%nat with 0%nat by (cbn; lia). done.
Qed.

Lemma store_leaves_run cpuid leaves : ∀ i (pre rest : list Z), zlen pre = 16 * i → (16 * length leaves ≤ length rest)%nat →
  store_leaves cpuid leaves i (pre ++ rest) =
    Some (pre ++ concat (map (λ l, leaf_bytes (cpuid l)) leaves) ++ drop (16 * length leaves) rest).
Proof.
  induction leaves as [|leaf leaves IH]; intros i pre rest Hpre Hl; cbn [store_leaves map concat length] in *; [done|].
  set (r := cpuid leaf).
  destruct (rest) as [|b0 [|b1 [|b2 [|b3 [|b4 [|b5 [|b6 [|b7 [|b8 [|b9 [|b10 [|b11 [|b12 [|b13 [|b14 [|b15 rest']]]]]]]]]]]]]]]];
    cbn [length] in Hl; try lia. clear rest.
  assert (E : ∀ k (done : list Z) a b c d (l2 : list Z) v, zlen done = 4 * k →
    st32 ((pre ++ done) ++ a :: b :: c :: d :: l2) (4 * (i * 4 + k)) v = Some ((pre ++ done ++ le_to 4 v) ++ l2)).
  { intros k dn a b c d l2 v Hd. replace (4 * (i * 4 + k)) with (zlen (pre ++ dn)) by (unfold zlen in *; rewrite length_app; lia).
    pose proof (st32_mid (pre ++ dn) [a; b; c; d] l2 v eq_refl) as Hst. cbn [app] in Hst. rewrite Hst. by rewrite <- !app_assoc. }
  pose proof (E 0 [] b0 b1 b2 b3 (b4 :: b5 :: b6 :: b7 :: b8 :: b9 :: b10 :: b11 :: b12 :: b13 :: b14 :: b15 :: rest') (ra r) eq_refl) as E1.
  rewrite app_nil_r in E1. rewrite E1. cbn [mbind option_bind app].
  do 3 (rewrite E by (unfold zlen; rewrite ?length_app, ?length_le_to; lia); cbn [mbind option_bind]).
  rewrite IH.
  - replace (16 * S (length leaves))%nat with (16 + 16 * length leaves)%nat by lia. cbn [Nat.add drop].
    unfold leaf_bytes. fold r. by rewrite <- !app_assoc.
  - unfold zlen in *. rewrite !length_app, !length_le_to. lia.
  - lia.
Qed.

(** The characters of the three leaves, without leading spaces and up to a NUL. *)
Fixpoint trim (l : list Z) : list Z := match l with c :: r => if c =? 32 then trim r else l | [] => [] end.
Fixpoint before_nul (l : list Z) : list Z := match l with c :: r => if c =? 0 then [] else c :: before_nul r | [] => [] end.

Lemma trim_spec l : ∃ k c r, l ++ [0] = replicate k 32 ++ c :: r ∧ c ≠ 32 ∧ trim l ++ [0] = c :: r ∧ (k ≤ length l)%nat.
Proof.
  induction l as [|x l IH]; cbn [trim app]; [by exists 0%nat, 0, []|].
  destruct (Z.eqb_spec x 32) as [->|Hx].
  - destruct IH as (k & c & r & E & Hc & Et & Hk). exists (S k), c, r. cbn. split; [by rewrite E|]. split; [done|]. split; [done|lia].
  - exists 0%nat, x, (l ++ [0]). split; [done|]. split; [done|]. split; [done|lia].
Qed.
Lemma before_nul_spec l : bytes_ok l → nonul (before_nul l) ∧ ∃ r, l ++ [0] = before_nul l ++ 0 :: r.
Proof.
  induction 1 as [|x l Hx _ [Hn [r Er]]]; cbn [before_nul]; [by split; [constructor|exists []]|].
  destruct (Z.eqb_spec x 0) as [->|Hne]; [split; [constructor|by exists (l ++ [0])]|].
  split; [by constructor|]. exists r. cbn. by rewrite Er.
Qed.
Lemma trim_bytes l : bytes_ok l → bytes_ok (trim l).
Proof. induction 1 as [|x l Hx Hl IH]; cbn [trim]; [constructor|]. destruct (x =? 32); [done|by constructor]. Qed.

Definition brand_text (cpuid : Z → cpu_regs) : list Z :=
  if cpuid_max_extended cpuid <? 0x80000004 then []
  else before_nul (trim (concat (map (λ l, leaf_bytes (cpuid l)) brand_leaves))).

Lemma st8_end (l : list Z) c d : byte_ok d → st8 (l ++ [c]) (zlen l) d = Some (l ++ [d]).
Proof. by apply st8_mid. Qed.

(** The brand, in a buffer of 49 bytes whatever the processor answers. *)
Lemma get_cpu_brand_run cpuid out : length out = 49%nat →
  ∃ out', get_cpu_brand cpuid out = Some out' ∧ length out' = 49%nat ∧ cstr out' (brand_text cpuid).
Proof.
  intros Hl. unfold get_cpu_brand, brand_text. destruct out as [|c0 out]; [done|]. cbn [length] in Hl.
  rewrite (st8_mid [] out c0 0 ltac:(done) : st8 (c0 :: out) 0 0 = _). cbn [mbind option_bind app]. destruct (_ <? _).
  { exists (0 :: out). split; [done|]. split; [cbn; lia|]. split; [constructor|by exists out]. }
  set (raw := concat (map (λ l, leaf_bytes (cpuid l)) brand_leaves)).
  assert (Hraw : length raw = 48%nat) by reflexivity.
  assert (Hb : bytes_ok raw).
  { unfold raw, leaf_bytes. cbn [map brand_leaves concat]. repeat first [apply le_to_bytes_ok|apply list.Forall_app_2|apply list.Forall_nil_2]. }
  pose proof (store_leaves_run cpuid brand_leaves 0 [] (0 :: out) eq_refl ltac:(cbn; lia)) as Es. cbn [app] in Es.
  rewrite Es. cbn [mbind option_bind]. fold raw. clear Es.
  destruct (drop (16 * length brand_leaves) (0 :: out)) as [|e [|e2 es]] eqn:Ed;
    apply (f_equal length) in Ed; rewrite length_drop in Ed; cbn in Ed; try lia.
  change 48 with (Z.of_nat 48). rewrite <- Hraw. cbn [app]. rewrite (st8_end raw) by done. cbn [mbind option_bind].
  destruct (trim_spec raw) as (k & c & r & Er & Hc & Et & Hk). rewrite Er.
  pose proof (skip_spaces_run k c r (length (replicate k 32 ++ c :: r)) [] Hc) as Ek. cbn [app] in Ek.
  change (zlen []) with 0 in Ek. rewrite Ek by (rewrite <- Er, length_app; cbn; lia). cbn [mbind option_bind].
  destruct (before_nul_spec (trim raw)) as [Hn [r' Er']]; [by apply trim_bytes|].
  assert (Hlen : length (replicate k 32 ++ c :: r) = 49%nat) by (rewrite <- Er, length_app, Hraw; done).
  rewrite <- Et, Er' in Hlen |- *. rewrite Z.add_0_l. destruct (Z.eqb_spec (Z.of_nat k) 0) as [E0|Hk0].
  - assert (k = 0%nat) as -> by lia. eexists. split; [done|]. split; [done|]. split; [done|by eexists].
  - destruct (shift_down_run (before_nul (trim raw)) 49 [] (replicate k 32) r') as (rest & E & Hrest); [done|by destruct k| |].
    { rewrite !length_app in Hlen. cbn [length] in Hlen. lia. }
    rewrite Hlen. unfold zlen in E. rewrite length_replicate in E. exists (before_nul (trim raw) ++ 0 :: rest).
    split; [exact E|]. rewrite !length_app in *. cbn [length] in *. split; [lia|]. split; [done|by eexists].
Qed.

(** ** The feature list *)

(** The names of the bits that are set, as long as there is room. *)
Definition present (reg : Z) (flags : list (Z * String.string)) : list (list Z) :=
  map (λ f, chars f.2) (base.filter (λ f, Z.testbit reg f.1 = true) flags).
Definition fitting (max : Z) (names : list (list Z)) : list Z :=
  foldl (λ s n, if zlen s + zlen n <? max - 1 then s ++ n else s) [] names.
Definition feature_text (cpuid : Z → cpu_regs) (max : Z) : list Z :=
  fitting max (present (rd (cpuid 1)) edx_flags ++ present (rc (cpuid 1)) ecx_flags).

(** The buffer holds [s] so far. *)
Definition held (n : nat) (s : list Z) (st : list Z * Z) : Prop :=
  st.2 = zlen s ∧ length st.1 = n ∧ cstr st.1 s.

Lemma flag_set reg bit : 0 ≤ bit → truthy (Z.land (Z.shiftr reg bit) 1) = Z.testbit reg bit.
Proof.
  intros Hb. change 1 with (Z.ones 1). rewrite Z.land_ones by lia. change (2 ^ 1) with 2.
  rewrite Z.shiftr_div_pow2, <- Z.testbit_spec' by lia. by destruct (Z.testbit _ _).
Qed.

Lemma add_flag_run max reg bit name s st n : 0 ≤ bit → nonul name → max ≤ Z.of_nat n → held n s st →
  ∃ st', add_flag max reg bit name st = Some st' ∧
    held n (if Z.testbit reg bit then if zlen s + zlen name <? max - 1 then s ++ name else s else s) st'.
Proof.
  intros Hb Hname Hmax (Hp & Hn & Hs & rest & Er). destruct st as [out pos]. cbn in *. subst pos out. unfold add_flag.
  rewrite flag_set by done.
  assert (Hsame : held n s (s ++ 0 :: rest, zlen s)) by (split; [done|]; split; [done|]; split; [done|by eexists]).
  destruct (Z.testbit reg bit); [|by eexists].
  destruct (Z.ltb_spec (zlen s + zlen name) (max - 1)) as [Hroom|]; [|by eexists].
  rewrite length_app in Hn. cbn [length] in Hn. unfold zlen in *.
  assert (E : splice (s ++ 0 :: rest) (zlen s) name = Some ((s ++ name) ++ drop (length name) (0 :: rest))).
  { apply splice_Some. unfold zlen. rewrite length_app. cbn [length]. split_and!; [lia|lia|].
    rewrite Nat2Z.id, take_app_length, drop_app_add, <- app_assoc. done. }
  unfold zlen in E. rewrite E. cbn [mbind option_bind].
  destruct (drop (length name) (0 :: rest)) as [|x rest'] eqn:Ed.
  { apply (f_equal length) in Ed. rewrite length_drop in Ed. cbn [length] in Ed. lia. }
  replace (Z.of_nat (length s) + Z.of_nat (length name)) with (zlen (s ++ name)) by (unfold zlen; rewrite length_app; lia).
  rewrite st8_mid by done. cbn [mbind option_bind]. exists ((s ++ name) ++ 0 :: rest', zlen (s ++ name)). split; [done|].
  split; [done|]. cbn [fst snd]. apply (f_equal length) in Ed. rewrite length_drop in Ed. cbn [length] in Ed.
  split; [rewrite !length_app; cbn [length]; lia|]. split; [by apply list.Forall_app_2|by eexists].
Qed.

Lemma add_flags_run max reg flags : ∀ s st n,
  Forall (λ f, 0 ≤ f.1 ∧ nonul (chars f.2)) flags → max ≤ Z.of_nat n → held n s st →
  ∃ st', add_flags max reg flags st = Some st' ∧
    held n (foldl (λ s n, if zlen s + zlen n <? max - 1 then s ++ n else s) s (present reg flags)) st'.
Proof.
  induction flags as [|[bit name] flags IH]; intros s st n Hf Hmax Hst; cbn [add_flags]; [by exists st|].
  inversion_clear Hf as [|? ? [Hb Hname] Hf']. cbn [fst snd] in *.
  destruct (add_flag_run max reg bit (chars name) s st n) as (st1 & -> & H1); [done..|]. cbn [mbind option_bind].
  destruct (IH _ _ _ Hf' Hmax H1) as (st2 & -> & H2). exists st2. split; [done|]. unfold present in *.
  rewrite list.filter_cons. cbn [fst]. destruct (Z.testbit reg bit); [rewrite decide_True by done|rewrite decide_False by done]; exact H2.
Qed.

Lemma flags_ok flags : forallb (λ f, (0 <=? f.1) && forallb (λ c, (1 <=? c) && (c <? 256)) (chars f.2)) flags = true →
  Forall (λ f, 0 ≤ f.1 ∧ nonul (chars f.2)) flags.
Proof.
  intros Hb. rewrite forallb_forall in Hb. apply list.Forall_forall. intros f Hin%list_elem_of_In.
  apply Hb, andb_true_iff in Hin as [H1%Z.leb_le H2]. split; [done|]. rewrite forallb_forall in H2.
  apply list.Forall_forall. intros c Hc%list_elem_of_In. apply H2, andb_true_iff in Hc as [?%Z.leb_le ?%Z.ltb_lt].
  unfold byte_ok. lia.
Qed.

Lemma k_strcpy_run s r : nonul s → ∀ dst : list Z, (length s < length dst)%nat →
  k_strcpy dst (s ++ 0 :: r) = Some (s ++ 0 :: drop (S (length s)) dst).
Proof.
  induction 1 as [|c s [Hc _] _ IH]; intros [|d dst] Hl; cbn [length] in Hl; try lia; cbn [k_strcpy app].
  - done.
  - rewrite (proj2 (Z.eqb_neq c 0)), IH by (done || lia). done.
Qed.

Lemma none_text : nonul (chars "(none detected)").
Proof. repeat (constructor; [by split|]). constructor. Qed.

Lemma get_cpu_features_run cpuid out max : 16 ≤ zlen out → max ≤ zlen out →
  ∃ out', get_cpu_features cpuid out max = Some out' ∧ zlen out' = zlen out ∧
    cstr out' (if decide (feature_text cpuid max = []) then chars "(none detected)" else feature_text cpuid max).
Proof.
  intros Hl Hm. unfold get_cpu_features. destruct out as [|c out]; [done|].
  rewrite (st8_mid [] out c 0 ltac:(done) : st8 (c :: out) 0 0 = _). cbn [mbind option_bind app].
  destruct (add_flags_run max (rd (cpuid 1)) edx_flags [] (0 :: out, 0) (length (0 :: out))) as (st1 & -> & H1);
    [by apply flags_ok; vm_compute|done|split; [done|]; split; [done|]; split; [constructor|by eexists]|]. cbn [mbind option_bind].
  destruct (add_flags_run max (rc (cpuid 1)) ecx_flags _ st1 _ ltac:(by apply flags_ok; vm_compute) Hm H1) as (st2 & -> & H2).
  cbn [mbind option_bind]. rewrite <- foldl_app in H2. change (foldl _ [] _) with (feature_text cpuid max) in H2.
  destruct st2 as [o pos]. destruct H2 as (Hp & Hn & Hc). cbn [fst snd] in *. subst pos.
  destruct (decide (feature_text cpuid max = [])) as [->|Hne].
  - change (zlen [] =? 0) with true. cbv iota. assert (Hlen : length (chars "(none detected)") = 15%nat) by done.
    unfold zlen in *. rewrite k_strcpy_run;
      [|exact none_text|lia].
    eexists. split; [done|]. rewrite length_app. cbn [length] in *. rewrite length_drop, Hlen. split; [lia|].
    split; [|by eexists].
    exact none_text.
  - rewrite (proj2 (Z.eqb_neq _ 0)); [|destruct (feature_text cpuid max); [done|unfold zlen; cbn; lia]].
    exists o. split; [done|]. split; [unfold zlen; by rewrite Hn|done].
Qed.

(** ** The vendor *)

Lemma get_cpu_vendor_run cpuid out : length out = 13%nat →
  get_cpu_vendor cpuid out = Some (le_to 4 (rb (cpuid 0)) ++ le_to 4 (rd (cpuid 0)) ++ le_to 4 (rc (cpuid 0)) ++ [0]).
Proof.
  intros Hl. unfold get_cpu_vendor. set (r := cpuid 0). clearbody r.
  assert (Hs : ∃ o1 o2 o3 x, out = o1 ++ o2 ++ o3 ++ [x] ∧ length o1 = 4%nat ∧ length o2 = 4%nat ∧ length o3 = 4%nat).
  { repeat (destruct out as [|? out]; [done|]). destruct out; [|done]. by eexists [_; _; _; _], [_; _; _; _], [_; _; _; _], _. }
  destruct Hs as (o1 & o2 & o3 & x & -> & L1 & L2 & L3).
  rewrite (st32_mid [] o1 (o2 ++ o3 ++ [x]) (rb r) L1 : st32 (o1 ++ o2 ++ o3 ++ [x]) 0 _ = _). cbn [mbind option_bind app].
  assert (Ez : ∀ v, zlen (le_to 4 v) = 4) by (intros v; unfold zlen; by rewrite length_le_to).
  replace 4 with (zlen (le_to 4 (rb r))) at 1 by apply Ez. rewrite (st32_mid (le_to 4 (rb r)) o2) by done.
  cbn [mbind option_bind]. rewrite (app_assoc (le_to 4 (rb r))).
  replace 8 with (zlen (le_to 4 (rb r) ++ le_to 4 (rd r))) at 1 by (unfold zlen; by rewrite length_app, !length_le_to).
  rewrite (st32_mid _ o3) by done. cbn [mbind option_bind]. rewrite (app_assoc (le_to 4 (rb r) ++ _)).
  replace 12 with (zlen ((le_to 4 (rb r) ++ le_to 4 (rd r)) ++ le_to 4 (rc r))) at 1
    by (unfold zlen; by rewrite !length_app, !length_le_to).
  rewrite st8_mid by done. by rewrite <- !app_assoc.
Qed.

(** ** Family, model and stepping *)

(** The signature as the architecture manual composes it; [t] is the type. *)
Definition signature (family model stepping t : Z) : Z :=
  stepping + 16 * (model mod 16) + 256 * Z.min family 15 + 4096 * t + 65536 * (model / 16) + 1048576 * (family - Z.min family 15).

Lemma field_eq a k n : 0 ≤ k → 0 ≤ n → Z.land (Z.shiftr a k) (Z.ones n) = (a / 2 ^ k) mod 2 ^ n.
Proof. intros. by rewrite Z.land_ones, Z.shiftr_div_pow2 by done. Qed.

(** Round trip: the manual's composition is decoded. *)
Theorem fms_roundtrip cpuid f m s t : 0 ≤ f ≤ 270 → 0 ≤ m < 256 → 0 ≤ s < 16 → 0 ≤ t < 4 → f = 6 ∨ 15 ≤ f ∨ m < 16 →
  ra (cpuid 1) = signature f m s t → get_cpu_fms cpuid = (f, m, s).
Proof.
  intros Hf Hm Hs Ht Hext E. unfold get_cpu_fms. rewrite E. clear E cpuid. set (a := signature f m s t).
  change 0xF with (Z.ones 4). change 0xFF with (Z.ones 8). rewrite !field_eq by lia. rewrite Z.land_ones by lia.
  assert (E1 : a / 2 ^ 8 mod 2 ^ 4 = Z.min f 15) by (unfold a, signature; mod_lia).
  assert (E2 : a / 2 ^ 4 mod 2 ^ 4 = m mod 16) by (unfold a, signature; mod_lia).
  assert (E3 : a / 2 ^ 20 mod 2 ^ 8 = f - Z.min f 15) by (unfold a, signature; mod_lia).
  assert (E4 : a / 2 ^ 16 mod 2 ^ 4 = m / 16) by (unfold a, signature; mod_lia).
  assert (E5 : a mod 2 ^ 4 = s) by (unfold a, signature; mod_lia).
  rewrite E1, E2, E3, E4, E5. change (Z.ones 4) with 15. rewrite Z.shiftl_mul_pow2 by lia. change (2 ^ 4) with 16.
  destruct (Z.eqb_spec (Z.min f 15) 15), (Z.eqb_spec (Z.min f 15) 6); cbn [orb]; repeat f_equal; revert Hext; mod_lia.
Qed.
Lemma fms_roundtrip_witness : get_cpu_fms (λ _, CpuRegs (signature 6 158 10 0) 0 0 0) = (6, 158, 10).
Proof. apply (fms_roundtrip _ 6 158 10 0); try lia. reflexivity. Defined.

(** ** The theorem *)


Definition demo_leaf (s : String.string) : cpu_regs :=
  CpuRegs (le_of (take 4 (chars s))) (le_of (take 4 (drop 4 (chars s)))) (le_of (take 4 (drop 8 (chars s)))) (le_of (take 4 (drop 12 (chars s)))).
Definition demo_cpuid (leaf : Z) : cpu_regs :=
  if leaf =? 0x80000000 then CpuRegs 0x80000008 0 0 0
  else if leaf =? 0x80000002 then demo_leaf "      Demo CPU  "
  else if leaf =? 0x80000003 then demo_leaf "1.0"
  else if leaf =? 1 then CpuRegs 0 0 1 (2 ^ 25 + 2 ^ 26)
  else CpuRegs 0 0 0 0.

