(* ===== verification/Guard.v ===== *)
(** * security/stack_guard.c, security/security.c: the canary

    [__stack_chk_guard] on a machine with addresses of [w] bits; the time stamp
    counter is an argument. [__stack_chk_fail] panics ([Panic]) and
    [security_report] prints. *)
From S2P Require Import Prelude.
Open Scope c_scope.

Section guard.
Variable w : Z.

Definition uptr (z : Z) : Z := z mod 2 ^ w.

(** The counter is cut to the width of a pointer, the exclusive or is of 64
    bits, and its result is cut again. *)
Definition stack_guard_init (tsc : Z) : Z :=
  let g := uptr (Z.lxor (uptr tsc) 0x4F6273696469616E) in
  if g =? 0 then uptr 0xDEADBEEFCAFEF00D else g.

Definition security_early_init (tsc : Z) : Z := stack_guard_init tsc.
End guard.

Lemma uptr_lxor w t K : 0 ≤ w → uptr w (Z.lxor (uptr w t) K) = Z.lxor (uptr w t) (uptr w K).
Proof.
  intros Hw. unfold uptr. rewrite <- !Z.land_ones by done. apply Z.bits_inj'. intros n Hn.
  rewrite !Z.land_spec, !Z.lxor_spec, !Z.land_spec. by destruct (Z.testbit t n), (Z.testbit K n), (Z.testbit (Z.ones w) n).
Qed.

Lemma lxor_cancel a b c : Z.lxor a c = Z.lxor b c → a = b.
Proof. intros E. apply (f_equal (λ x, Z.lxor x c)) in E. by rewrite !Z.lxor_assoc, !Z.lxor_nilpotent, !Z.lxor_0_r in E. Qed.

(** The canary is never zero, on 32 and on 64 bits; and it is different for
    counters that differ, but for the one counter that would make it zero. *)
Theorem guard_armed w tsc tsc' : w = 32 ∨ w = 64 → 0 ≤ tsc < 2 ^ w → 0 ≤ tsc' < 2 ^ w →
  0 < security_early_init w tsc < 2 ^ w ∧
  (security_early_init w tsc = security_early_init w tsc' → tsc = tsc' ∨
     tsc = uptr w 0x4F6273696469616E ∨ tsc' = uptr w 0x4F6273696469616E).
Proof.
  intros Hw Ht Ht'. unfold security_early_init, stack_guard_init. rewrite !uptr_lxor by (destruct Hw; lia).
  replace (uptr w tsc) with tsc by (symmetry; by apply Z.mod_small).
  replace (uptr w tsc') with tsc' by (symmetry; by apply Z.mod_small).
  set (K := uptr w 0x4F6273696469616E).
  assert (HK : 0 ≤ K < 2 ^ w) by (apply Z.mod_pos_bound; destruct Hw as [-> | ->]; lia).
  assert (Hx : 0 ≤ Z.lxor tsc K < 2 ^ w).
  { split; [apply Z.lxor_nonneg; lia|]. destruct (decide (Z.lxor tsc K = 0)) as [->|]; [lia|].
    assert (0 ≤ Z.lxor tsc K) by (apply Z.lxor_nonneg; lia). apply Z.log2_lt_pow2; [lia|].
    eapply Z.le_lt_trans; [apply Z.log2_lxor; lia|]. assert (0 < w) by (destruct Hw; lia).
    apply Z.max_lub_lt; [destruct (decide (tsc = 0)) as [->|]|destruct (decide (K = 0)) as [->|]];
      try (by cbn); apply Z.log2_lt_pow2; lia. }
  assert (Hfb : 0 < uptr w 0xDEADBEEFCAFEF00D < 2 ^ w) by (destruct Hw as [-> | ->]; by vm_compute).
  destruct (Z.eqb_spec (Z.lxor tsc K) 0) as [E|E]; [apply Z.lxor_eq in E; auto|].
  destruct (Z.eqb_spec (Z.lxor tsc' K) 0) as [E'|E']; [apply Z.lxor_eq in E'; split; [lia|auto]|].
  split; [lia|]. intros Eq. left. by apply lxor_cancel in Eq.
Qed.
Lemma guard_armed_witness : 0 < security_early_init 32 0x6469616E < 2 ^ 32.
Proof. apply (guard_armed 32 0x6469616E 0); [by left|done|done]. Defined.
