(* ===== verification/Start.v ===== *)
(** * arch/x86/start.c, arch/x86_64/start.c: from the boot loader to the kernel

    [arch_start] of both architectures, up to the call of [kernel_main]: it
    returns what that call is given, or [None] when the loader's magic number is
    wrong. Physical memory is a byte list from address 0, as in [Pmm]; what
    the linker decides (the addresses of the tables, of the stubs and of the end
    of the image) is an argument. The instructions that load the tables are
    assembly. *)
From stdpp Require Import relations.
From S2P Require Import Prelude Heap Ports Pmm Descriptors Irq Boot.
Open Scope c_scope.

Definition HEAP_BYTES : Z := 4 * 1024 * 1024.

(** boot_info_t; a string is the memory from its first character on. *)
Record boot_info := BootInfo {
  arch_name : String.string;
  cmdline : list Z;
  mem_usable_kb : Z;
  heap_base : Z;
  heap_size : Z;
}.
Definition boot_info_zero : boot_info := BootInfo String.EmptyString [] 0 0 0.
Definition EMPTY : list Z := [0].

(** What the boot code initialises; [E] is the architecture's gate. *)
Record cpu (E P : Type) := Cpu {
  c_gdt : table gdt_entry;
  c_idt : table E;
  c_if : bool;
  c_clock : clock_state;
  c_pmm : pmm;
  boot_state : boot_info;
  c_hw : P;
}.
Arguments Cpu {E P}.
Arguments c_gdt {E P}.
Arguments c_idt {E P}.
Arguments c_if {E P}.
Arguments c_clock {E P}.
Arguments c_pmm {E P}.
Arguments boot_state {E P}.
Arguments c_hw {E P}.

Section cpu.
Context {E P : Type} `{Ports P}.

#[export] Instance cpu_ports : HasPorts (cpu E P) P :=
  {| ports := c_hw; set_ports := λ p c, Cpu (c_gdt c) (c_idt c) (c_if c) (c_clock c) (c_pmm c) (boot_state c) p |}.
#[export] Instance cpu_lawful : LawfulPorts (cpu E P) P.
Proof. split; [done|done|by intros []]. Qed.

Definition set_gdt (f : table gdt_entry → table gdt_entry) (c : cpu E P) : cpu E P :=
  Cpu (f (c_gdt c)) (c_idt c) (c_if c) (c_clock c) (c_pmm c) (boot_state c) (c_hw c).
Definition set_idt (t : table E) (c : cpu E P) : cpu E P :=
  Cpu (c_gdt c) t (c_if c) (c_clock c) (c_pmm c) (boot_state c) (c_hw c).
Definition set_if (b : bool) (c : cpu E P) : cpu E P :=
  Cpu (c_gdt c) (c_idt c) b (c_clock c) (c_pmm c) (boot_state c) (c_hw c).
Definition set_clock (f : clock_state → clock_state) (c : cpu E P) : cpu E P :=
  Cpu (c_gdt c) (c_idt c) (c_if c) (f (c_clock c)) (c_pmm c) (boot_state c) (c_hw c).
Definition set_boot (f : boot_info → boot_info) (c : cpu E P) : cpu E P :=
  Cpu (c_gdt c) (c_idt c) (c_if c) (c_clock c) (c_pmm c) (f (boot_state c)) (c_hw c).
Definition on_pmm {A} (m : M pmm A) : M (cpu E P) A := λ c,
  '(a, p) ← m (c_pmm c); Some (a, Cpu (c_gdt c) (c_idt c) (c_if c) (c_clock c) p (boot_state c) (c_hw c)).

(** The steps the two architectures share: interrupt controllers, timer and
    clock; and the heap, put after the image and reserved. *)
Definition start_interrupts : M (cpu E P) unit :=
  pic_init ;;
  pit_init 100 ;;
  modify (set_clock (time_init 100)) ;;
  modify (set_if true).

Definition start_memory (A : arch) (name : String.string) (kernel_end : Z) (init : M pmm Z) (line : option (list Z))
  : M (cpu E P) unit :=
  let* kb := on_pmm init in
  modify (set_boot (λ b, BootInfo (arch_name b) (cmdline b) kb (heap_base b) (heap_size b))) ;;
  let* l := lift line in
  modify (set_boot (λ b, BootInfo name l (mem_usable_kb b) (heap_base b) (heap_size b))) ;;
  let base := Z.land (u32 (kernel_end + 4095)) (u32 (Z.lnot 4095)) in
  on_pmm (Frames.pmm_reserve A base (u32 (base + HEAP_BYTES))) ;;
  modify (set_boot (λ b, BootInfo (arch_name b) (cmdline b) (mem_usable_kb b) base HEAP_BYTES)).
End cpu.

(** [kernel_reboot], the same in both files, up to the reset: the wait for the
    keyboard controller has no bound in the code. *)
Fixpoint kernel_reboot {S P} `{Ports P, HasPorts S P} (fuel : nat) : M S unit :=
  match fuel with
  | O => fault
  | Datatypes.S f =>
      let* status := io_inb 0x64 in
      if has status 2 then kernel_reboot f
      else io_outb 0x64 0xFE
  end.

(** ** arch/x86/start.c *)
Module I686.
Section start.
Context {P : Type} `{Ports P}.
Context (mem : list Z) (gdt_addr idt_addr kernel_end : Z) (stubs : list Z).

Definition mbi_cmdline : Z := 16.

Definition extract_cmdline (mbi : Z) : option (list Z) :=
  flags ← ld32 mem (mbi + Pmm.X86.mbi_flags);
  p ← ld32 mem (mbi + mbi_cmdline);
  Some (if negb (has flags 4) || negb (truthy p) then EMPTY else drop (Z.to_nat p) mem).

Definition arch_start (fuel : nat) (magic mbi : Z) : M (cpu Descriptors.X86.idt_entry P) (option boot_info) :=
  if negb (magic =? 0x2BADB002) then ret None
  else
    modify (set_gdt (Descriptors.X86.gdt_init gdt_addr)) ;;
    let* t := gets c_idt in
    let* t := lift (idt_init32 idt_addr stubs t) in
    modify (set_idt t) ;;
    start_interrupts ;;
    start_memory x86 "x86" kernel_end (Pmm.X86.pmm_init fuel mem mbi kernel_end) (extract_cmdline mbi) ;;
    let* b := gets boot_state in
    ret (Some b).
End start.
End I686.

(** ** arch/x86_64/start.c *)
Module Amd64.
Definition MB2_TAG_CMDLINE : Z := 1.

Section start.
Context {P : Type} `{Ports P}.
Context (mem : list Z) (gdt_addr idt_addr kernel_end : Z) (stubs : list Z).

(** The loop over the tags. *)
Fixpoint cmdline_tag (fuel : nat) (tag : Z) : option (list Z) :=
  match fuel with
  | O => None
  | S fuel =>
      type ← ld32 mem (tag + X86_64.tag_type);
      if type =? X86_64.MB2_TAG_END then Some EMPTY
      else if type =? MB2_TAG_CMDLINE then Some (drop (Z.to_nat (tag + 8)) mem)
      else
        size ← ld32 mem (tag + X86_64.tag_size);
        cmdline_tag fuel (Z.land (u64 (tag + size + 7)) (u64 (Z.lnot 7)))
  end.
Definition extract_cmdline (fuel : nat) (mbi_addr : Z) : option (list Z) := cmdline_tag fuel (mbi_addr + 8).

Definition arch_start (fuel : nat) (magic mbi_addr : Z) : M (cpu Descriptors.X64.idt_entry P) (option boot_info) :=
  if negb (magic =? 0x36d76289) then ret None
  else
    modify (set_gdt (Descriptors.X64.gdt_init gdt_addr)) ;;
    let* t := gets c_idt in
    let* t := lift (idt_init64 idt_addr stubs t) in
    modify (set_idt t) ;;
    start_interrupts ;;
    start_memory x86_64 "x86_64" kernel_end (X86_64.pmm_init fuel mem mbi_addr kernel_end) (extract_cmdline fuel mbi_addr) ;;
    let* b := gets boot_state in
    ret (Some b).
End start.
End Amd64.

(** ** What the kernel is given *)

(** The next page boundary. *)
Definition page_up (a : Z) : Z := (a + 4095) / 4096 * 4096.

Lemma round_down x k w : 0 ≤ k ≤ w → 0 ≤ x < 2 ^ w → Z.land x (Z.shiftl (Z.ones (w - k)) k) = x / 2 ^ k * 2 ^ k.
Proof.
  intros Hk Hx. rewrite <- Z.shiftr_div_pow2, <- Z.shiftl_mul_pow2 by lia.
  apply Z.bits_inj'. intros n Hn. rewrite Z.land_spec, !Z.shiftl_spec by done.
  destruct (Z.ltb_spec n k); [by rewrite !(Z.testbit_neg_r _ (n - k)), andb_false_r by lia|].
  rewrite Z.shiftr_spec by lia. replace (n - k + k) with n by lia.
  destruct (Z.ltb_spec n w).
  - by rewrite Z.ones_spec_low, andb_true_r by lia.
  - rewrite Z.ones_spec_high, andb_false_r by lia. symmetry. destruct (decide (x = 0)) as [->|]; [apply Z.bits_0|].
    apply Z.bits_above_log2; [lia|]. apply Z.log2_lt_pow2; [lia|].
    assert (2 ^ w ≤ 2 ^ n) by (apply Z.pow_le_mono_r; lia). lia.
Qed.

Lemma page_up_mask a : 0 ≤ a → a + 4095 < 2 ^ 32 → Z.land (u32 (a + 4095)) (u32 (Z.lnot 4095)) = page_up a.
Proof.
  intros Ha Hw. rewrite (u32_small (a + 4095)) by lia. unfold page_up. change 4096 with (2 ^ 12).
  change (u32 (Z.lnot 4095)) with (Z.shiftl (Z.ones (32 - 12)) 12). apply round_down; lia.
Qed.

Section proof.
Context {E P : Type} `{Pic P}.
Implicit Types c : cpu E P.

Lemma on_pmm_wp {A} (m : M pmm A) (Q : A → cpu E P → Prop) c :
  wp m (λ a p, Q a (Cpu (c_gdt c) (c_idt c) (c_if c) (c_clock c) p (boot_state c) (c_hw c))) (c_pmm c) →
  wp (on_pmm m) Q c.
Proof. intros (a & p & Em & HQ). do 2 eexists. split; [|exact HQ]. unfold on_pmm. by rewrite Em. Qed.

(** Everything masked, the clock at 0, interrupts enabled. *)
Definition quiet c : Prop :=
  c_if c = true ∧ c_clock c = Clock 0 100 ∧ initialised (pics (c_hw c)) ∧
  ∀ n, 0 ≤ n < 16 → unmasked (pics (c_hw c)) n = false.

Lemma start_interrupts_wp c :
  wp start_interrupts (λ _ c', ∃ p, c' = Cpu (c_gdt c) (c_idt c) true (Clock 0 100) (c_pmm c) (boot_state c) p ∧ quiet c') c.
Proof.
  unfold start_interrupts. wp_apply pic_init_wp. intros _ c1 (x & H1 & Hx & Hff).
  wp_apply (pit_init_pic 100); [done|exact H1|]. intros _ c2 (p & -> & Hp). wp_pure. apply wp_modify.
  exists p. split; [done|]. split; [done|]. split; [done|]. cbn. rewrite Hp. split; [done|].
  intros n Hn. unfold unmasked. rewrite !Hff. change 255 with (Z.ones 8).
  destruct (Z.ltb_spec n 8); by rewrite Z.ones_spec_low by lia.
Qed.

(** Every frame that is handed out afterwards, whatever is allocated and freed,
    was reported available and lies above low memory, the image and the heap. *)
Definition frames_above (A : arch) (rs : list (Z * Z)) (low : Z) (s : pmm) : Prop :=
  ∀ s' live a, rtc (step A) (s, []) (s', live) → a ∈ live → covers rs (a / FRAME_SIZE) = true ∧ 2 ^ 20 ≤ a ∧ low ≤ a.

Lemma page_up_bound a : a ≤ page_up a < a + 4096.
Proof. unfold page_up. mod_lia. Qed.

Lemma reserve_heap_wp A rs kernel_end s : arch_ok A → fresh A s →
  (∀ f, 0 ≤ f < max_frames A → free A s f = usable rs kernel_end f) →
  0 ≤ kernel_end → kernel_end + 4096 + HEAP_BYTES + 4096 ≤ 2 ^ 32 → 2 ^ 32 ≤ 2 ^ wbits A →
  wp (Frames.pmm_reserve A (page_up kernel_end) (page_up kernel_end + HEAP_BYTES))
    (λ _, frames_above A rs (page_up kernel_end + HEAP_BYTES)) s.
Proof.
  intros HA (Hok & Hz & Htop) Hfree Hk Hk2 HA32. pose proof (page_up_bound kernel_end). unfold HEAP_BYTES in *.
  apply reserve_wp; [done|done|lia|lia|unfold FRAME_SIZE; lia|]. intros s1 Hok1 Hh1 Hu s' live a Hr Ha.
  assert (HA0 : 0 < max_frames A) by apply HA.
  assert (Hfresh : fresh A s1).
  { split; [done|]. split; [by rewrite Hu, Hz by lia|]. intros f Hf Ef. rewrite Hu in Ef by done.
    apply andb_true_iff in Ef as [Ef _]. rewrite Hh1. by apply Htop. }
  pose proof (inv_steps A HA s1 _ _ Hfresh Hr (inv_start A s1 Hfresh)) as [_ _ _ Hlive _]. cbn [fst snd] in Hlive.
  destruct (Hlive a Ha) as (f & -> & Hf & Ef). rewrite Hu, Hfree in Ef by done. unfold usable in Ef.
  apply andb_true_iff in Ef as [Ef Eh]. apply andb_true_iff in Ef as [Ef Ek%Z.leb_le]. apply andb_true_iff in Ef as [Ec E20%Z.leb_le].
  unfold FRAME_SIZE in *. rewrite Z.div_mul by done. split; [done|]. split; [lia|].
  apply negb_true_iff, andb_false_iff in Eh. unfold page_up in *. rewrite Z.div_mul in Eh by done.
  replace (kernel_end + 4096 - 1) with (kernel_end + 4095) in Ek by lia.
  destruct Eh as [Eh%Z.leb_gt|Eh%Z.ltb_ge]; [lia|]. revert Eh. mod_lia.
Qed.

Lemma start_memory_wp A name kernel_end init kb line l rs c : arch_ok A →
  0 ≤ kernel_end → kernel_end + 4096 + HEAP_BYTES + 4096 ≤ 2 ^ 32 → 2 ^ 32 ≤ 2 ^ wbits A → line = Some l →
  wp init (λ r s, r = kb ∧ fresh A s ∧ ∀ f, 0 ≤ f < max_frames A → free A s f = usable rs kernel_end f) (c_pmm c) →
  wp (start_memory A name kernel_end init line) (λ _ c', ∃ s,
    c' = Cpu (c_gdt c) (c_idt c) (c_if c) (c_clock c) s (BootInfo name l kb (page_up kernel_end) HEAP_BYTES) (c_hw c) ∧
    frames_above A rs (page_up kernel_end + HEAP_BYTES) s) c.
Proof.
  intros HA Hk Hk2 HA32 -> Hinit. unfold start_memory. pose proof (page_up_bound kernel_end). unfold HEAP_BYTES in *.
  apply wp_bind, on_pmm_wp. eapply wp_mono; [exact Hinit|]. intros r s (-> & Hf & Hu). cbv beta.
  apply wp_bind, wp_modify. apply wp_bind. eapply wp_lift; [done|]. apply wp_bind, wp_modify.
  rewrite page_up_mask by lia. cbv zeta. rewrite (u32_small (page_up _ + _)) by lia. apply wp_bind, on_pmm_wp. eapply wp_mono.
  { apply (reserve_heap_wp A rs kernel_end); [done|exact Hf|exact Hu|done|done|done]. }
  intros [] s2 Hs2. apply wp_modify. exists s2. split; [done|exact Hs2].
Qed.
End proof.

(** The loader's tags end, so the search for the command line does. *)
Lemma cmdline_tag_total mem tag ts : tags_at mem tag ts → ∀ fuel, (length ts < fuel)%nat →
  is_Some (Amd64.cmdline_tag mem fuel tag).
Proof.
  induction 1 as [tag Et|tag size es ts Et Es _ _ IH|tag type size ts Et Hne _ Es _ IH];
    intros [|fuel] Hf; cbn [length] in Hf; try lia; cbn [Amd64.cmdline_tag]; rewrite Et; cbn [mbind option_bind].
  - by eexists.
  - change (X86_64.MB2_TAG_MMAP =? _) with false. change (X86_64.MB2_TAG_MMAP =? Amd64.MB2_TAG_CMDLINE) with false.
    cbv iota. rewrite Es. apply IH. lia.
  - rewrite (proj2 (Z.eqb_neq _ _)) by done. case_if; [by eexists|]. rewrite Es. apply IH. lia.
Qed.

(** ** The theorems *)

(** What [kernel_main] is given and finds: the information, the interrupts, the
    frames, and a heap that initialises over the area kept for it. *)
Definition handed_over {E P} `{Pic P} (A : arch) (name : String.string) (line : list Z) (kb : Z) (rs : list (Z * Z))
    (kernel_end : Z) (b : option boot_info) (c : cpu E P) : Prop :=
  b = Some (boot_state c) ∧ boot_state c = BootInfo name line kb (page_up kernel_end) HEAP_BYTES ∧
  quiet c ∧ frames_above A rs (page_up kernel_end + HEAP_BYTES) (c_pmm c) ∧
  ∃ h, heap_init (heap_base (boot_state c)) (heap_size (boot_state c)) (heap_boot (wbits A =? 64)) = Some (true, h) ∧
    heap_wf h [(HEAP_BYTES - 16, false)] ∧ hbase h = page_up kernel_end.

Lemma boot_heap a64 kernel_end : 0 < kernel_end → kernel_end + 4096 ≤ 2 ^ 30 →
  ∃ h, heap_init (page_up kernel_end) HEAP_BYTES (heap_boot a64) = Some (true, h) ∧
    heap_wf h [(HEAP_BYTES - 16, false)] ∧ hbase h = page_up kernel_end.
Proof.
  intros Hk Hk2. pose proof (page_up_bound kernel_end).
  destruct (heap_init_run a64 (page_up kernel_end) HEAP_BYTES) as (h & E & Hwf & Hb & _); [lia|by split|].
  exists h. split; [exact E|]. split; [exact Hwf|]. rewrite Hb.
  destruct (align_up_spec (page_up kernel_end)) as [Hm Hle]; [lia|]. revert Hm Hle. unfold page_up. mod_lia.
Qed.

(** C24: Composition of the boot path, x86_64. For every image below 1 GiB and every
    well-formed list of multiboot2 tags, [arch_start] reaches [kernel_main]: with
    the memory and the command line of the tags; with interrupts enabled, every
    line masked and the clock at 0; with a heap area of 4 MiB from the page
    after the image on, over which [heap_init] makes one free block; and
    whatever page frames are handed out and back from then on, each was
    reported available and none lies below 1 MiB, in the image or in the heap. *)
Theorem boot_hands_over {P} `{Pic P} mem ga ia kernel_end stubs mbi ts fuel (c : cpu Descriptors.X64.idt_entry P) :
  bytes_ok mem → tags_at mem (mbi + 8) ts → (length ts + length (concat ts) < fuel)%nat →
  length (entries (c_idt c)) = 256%nat → length stubs = 48%nat → Forall (λ h, 0 ≤ h) stubs →
  0 ≤ highest_frame (c_pmm c) < max_frames x86_64 → 0 < kernel_end → kernel_end + 4096 ≤ 2 ^ 30 →
  ∃ line, Amd64.extract_cmdline mem fuel mbi = Some line ∧
    wp (Amd64.arch_start mem ga ia kernel_end stubs fuel 0x36d76289 mbi)
      (handed_over x86_64 "x86_64" line (u64 (kilobytes64 (concat ts))) (ranges64 (concat ts)) kernel_end) c.
Proof.
  intros Hmem Hts Hfuel Hidt Hst Hst64 Hhi Hk Hk2.
  destruct (cmdline_tag_total mem _ ts Hts fuel) as [line El]; [lia|]. exists line. split; [exact El|].
  destruct (fill_idt_run Descriptors.X64.idt_set_gate (λ _ _, True) ltac:(by eexists) stubs
    (Table (entries (c_idt c)) (16 * 256 - 1) (u64 ia))) as (t & Et & _); [done..|].
  unfold Amd64.arch_start. cbn [negb Z.eqb]. change (0x36d76289 =? 0x36d76289) with true. cbn [negb].
  apply wp_bind, wp_modify. apply wp_bind, wp_gets. apply wp_bind. eapply wp_lift; [exact Et|].
  apply wp_bind, wp_modify. wp_apply start_interrupts_wp. intros _ c1 (p & -> & Hq).
  wp_apply (start_memory_wp x86_64 "x86_64" kernel_end (X86_64.pmm_init fuel mem mbi kernel_end));
    [exact x86_64_ok|lia|unfold HEAP_BYTES; lia|done|exact El|apply (pmm_init64_wp mem Hmem mbi ts); [exact Hts|exact Hhi|lia|unfold FRAME_SIZE; lia|exact Hfuel]|].
  intros _ c2 (s & -> & Hs). apply wp_bind, wp_gets, wp_ret. split; [done|]. split; [done|]. split; [exact Hq|].
  split; [exact Hs|]. by apply boot_heap.
Qed.

(** The same of the multiboot 1 path, x86. *)
Theorem boot_hands_over_x86 {P} `{Pic P} mem ga ia kernel_end stubs mbi rs kb line (c : cpu Descriptors.X86.idt_entry P) :
  bytes_ok mem → boot_map mem mbi rs kb → I686.extract_cmdline mem mbi = Some line →
  length (entries (c_idt c)) = 256%nat → length stubs = 48%nat → Forall (λ h, 0 ≤ h) stubs →
  0 ≤ highest_frame (c_pmm c) < max_frames x86 → 0 < kernel_end → kernel_end + 4096 ≤ 2 ^ 30 →
  ∃ n, ∀ fuel, (n ≤ fuel)%nat →
    wp (I686.arch_start mem ga ia kernel_end stubs fuel 0x2BADB002 mbi) (handed_over x86 "x86" line (u32 kb) rs kernel_end) c.
Proof.
  intros Hmem Hmap El Hidt Hst Hst64 Hhi Hk Hk2.
  destruct (pmm_init_wp mem Hmem mbi rs kb kernel_end (c_pmm c) Hmap Hhi) as [n Hn]; [lia|unfold FRAME_SIZE; lia|].
  exists n. intros fuel Hfuel.
  destruct (fill_idt_run Descriptors.X86.idt_set_gate (λ _ _, True) ltac:(by eexists) stubs
    (Table (entries (c_idt c)) (8 * 256 - 1) (u32 ia))) as (t & Et & _); [done..|].
  unfold I686.arch_start. change (0x2BADB002 =? 0x2BADB002) with true. cbn [negb].
  apply wp_bind, wp_modify. apply wp_bind, wp_gets. apply wp_bind. eapply wp_lift; [exact Et|].
  apply wp_bind, wp_modify. wp_apply start_interrupts_wp. intros _ c1 (p & -> & Hq).
  wp_apply (start_memory_wp x86 "x86" kernel_end (Pmm.X86.pmm_init fuel mem mbi kernel_end));
    [exact x86_ok|lia|unfold HEAP_BYTES; lia|done|exact El|by apply Hn|].
  intros _ c2 (s & -> & Hs). apply wp_bind, wp_gets, wp_ret. split; [done|]. split; [done|]. split; [exact Hq|].
  split; [exact Hs|]. by apply boot_heap.
Qed.

(** With a wrong magic number nothing is touched. *)
Lemma bad_magic {P} `{Ports P} mem ga ia kernel_end stubs fuel magic mbi (c : cpu _ P) : magic ≠ 0x36d76289 →
  Amd64.arch_start mem ga ia kernel_end stubs fuel magic mbi c = Some (None, c).
Proof. intros Hm. unfold Amd64.arch_start. by rewrite (proj2 (Z.eqb_neq _ _)). Qed.

(** *** A machine with 64 KiB at 2 MiB, and a command line *)
Definition demo_tags : list Z :=
  le_to 4 0 ++ le_to 4 0 ++
  le_to 4 1 ++ le_to 4 14 ++ chars "quiet" ++ [0] ++ [0; 0] ++
  le_to 4 6 ++ le_to 4 40 ++ le_to 4 24 ++ le_to 4 0 ++
    le_to 8 2097152 ++ le_to 8 65536 ++ le_to 4 1 ++ le_to 4 0 ++
  le_to 4 0 ++ le_to 4 8.
Definition demo_cpu : cpu Descriptors.X64.idt_entry pic_state :=
  Cpu (Table (replicate 3 gdt_blank) 0 0) (Table (replicate 256 Descriptors.X64.idt_blank) 0 0) false clock_boot
    (Pmm (zeros 8192) 0) boot_info_zero demo_reset.

Lemma demo_tags_at : tags_at demo_tags 8 [[]; [(2097152, 65536, 1)]].
Proof.
  apply (tags_other demo_tags 8 1 14); [by vm_compute|done|done|by vm_compute|].
  apply (tags_map demo_tags 24 40); [by vm_compute|by vm_compute| |].
  - apply (entries_cons demo_tags 24 64 40 2097152 65536 1 24); try by vm_compute. by apply entries_end.
  - apply tags_end. by vm_compute.
Qed.

Lemma boot_hands_over_witness :
  ∃ line, Amd64.extract_cmdline demo_tags 10 0 = Some line ∧ take 6 line = chars "quiet" ++ [0] ∧
    wp (Amd64.arch_start demo_tags 0x110000 0x111000 1572864 (replicate 48 0x101000) 10 0x36d76289 0)
      (handed_over x86_64 "x86_64" line 64 [(2097152, 2162688)] 1572864) demo_cpu.
Proof.
  destruct (boot_hands_over demo_tags 0x110000 0x111000 1572864 (replicate 48 0x101000) 0 [[]; [(2097152, 65536, 1)]] 10 demo_cpu) as (line & El & Hw);
    [by apply bytes_dec|exact demo_tags_at|cbn; lia|reflexivity|reflexivity|by apply Forall_replicate|
     by split; vm_compute|by vm_compute|by vm_compute|].
  exists line. split; [exact El|]. split; [|exact Hw].
  assert (E : (take 6 <$> Amd64.extract_cmdline demo_tags 10 0) = Some (chars "quiet" ++ [0])) by by vm_compute.
  rewrite El in E. by injection E.
Defined.
