(* ===== verification/Panic.v ===== *)
(** * lib/panic.c: the last words of the kernel

    [panic] on the VGA text console of a PC: the message is formatted into a
    buffer ([Printk]), the marker for the next boot goes into CMOS memory
    ([Cmos]), the log is shown ([Console], [VgaText]) and the keyboard
    controller pulses the reset line. The halting that follows the pulse is not
    modelled. *)
From S2P Require Import Prelude KString Printk Vram Ports Console VgaText Cmos.
From S2P Require Start.

Definition PANIC_ATTR : Z := 0x1F.
Definition TICK_LOOPS : Z := 300000.

Section panic.
Context {P : Type} `{Ports P}.
Variable fallback_putc : Z → M (vga P) unit.

(** The console, and whether interrupts are enabled. *)
Record machine := Machine { mcon : console (vga P); irqs : bool }.

#[export] Instance machine_ports : HasPorts machine P :=
  {| ports := λ s, vga_hw (display (mcon s));
     set_ports := λ p s, Machine (Console (con (mcon s)) (con_col (mcon s)) (con_row (mcon s)) (con_attr (mcon s))
       (Vga (vt (display (mcon s))) p)) (irqs s) |}.

Definition irq_disable : M machine unit := modify (λ s, Machine (mcon s) false).
Definition irq_enable : M machine unit := modify (λ s, Machine (mcon s) true).

Definition on_mcon {A} (m : M (console (vga P)) A) : M machine A := λ s,
  '(a, c) ← m (mcon s); Some (a, Machine c (irqs s)).

(** The console's functions on string literals, and those of printk.c. *)
Definition say (s : list Z) : M machine unit := on_mcon (console_print fallback_putc (s ++ [0])).
Definition kputs (s : list Z) : M machine unit :=
  on_mcon (console_print fallback_putc s) ;; on_mcon (console_putc fallback_putc 10).
Definition kputc (c : Z) : M machine unit := on_mcon (console_putc fallback_putc c).
Definition kprint (b : list Z) : M machine unit := on_mcon (console_print fallback_putc b).

Definition panic_delay (ticks : Z) : M machine unit :=
  upto 0 ticks (λ _, upto 0 TICK_LOOPS (λ _, io_wait)).

Definition NL : list Z := [10].

Definition live_log (msg : list Z) : M machine unit :=
  say (chars "  [ ok ] ") ;;
  say msg ;;
  say NL ;;
  panic_delay 1.

(** [for (int s = 5; s > 0; s--)]. *)
Fixpoint countdown (n : nat) : M machine unit :=
  match n with
  | O => ret tt
  | S k =>
      kputc (48 + Z.of_nat n) ;;
      say (chars " ") ;;
      panic_delay 1 ;;
      countdown k
  end.

(** The first steps of [panic]: the marker, and a blank screen. *)
Definition panic_begin : M machine unit :=
  irq_disable ;;
  cmos_write 0x3A 0x4F ;;
  cmos_write 0x3B 0x01 ;;
  on_mcon (console_set_attr PANIC_ATTR) ;;
  on_mcon console_clear.

(** [buf] is the uninitialised 256-byte buffer. *)
Definition panic (wide : bool) (mem : Z → option (list Z)) (fuel : nat) (buf fmt : list Z) (ap : va_list) : M machine unit :=
  let* r := lift (kvsnprintf wide mem (Some buf) 256 fmt ap) in
  let* msg := lift r.2 in
  panic_begin ;;
  say (chars "  O B S I D I A N   K E R N E L   P A N I C" ++ NL ++ NL) ;;
  say (chars "  error : ") ;;
  kprint msg ;;
  say NL ;;
  say (chars "  action: switching to the Secure Kernel after reset" ++ NL ++ NL) ;;
  live_log (chars "console buffers flushed") ;;
  live_log (chars "interrupts disabled system-wide") ;;
  live_log (chars "fault context recorded to NVRAM") ;;
  live_log (chars "reset controller armed") ;;
  say (NL ++ chars "  rebooting in ") ;;
  countdown 5 ;;
  Start.kernel_reboot fuel.

(** What it puts on the screen. *)
Definition ok_line (msg : list Z) : list Z := chars "  [ ok ] " ++ msg ++ NL.
Definition panic_text (msg : list Z) : list Z :=
  chars "  O B S I D I A N   K E R N E L   P A N I C" ++ NL ++ NL ++ chars "  error : " ++ msg ++ NL ++
  chars "  action: switching to the Secure Kernel after reset" ++ NL ++ NL ++
  ok_line (chars "console buffers flushed") ++ ok_line (chars "interrupts disabled system-wide") ++
  ok_line (chars "fault context recorded to NVRAM") ++ ok_line (chars "reset controller armed") ++
  NL ++ chars "  rebooting in 5 4 3 2 1 ".
End panic.
Arguments machine : clear implicits.

(** ** The screen and the marker *)

Section proof.
Context {P : Type} `{Nvram P} (fallback : Z → M (vga P) unit).

#[export] Instance machine_lawful : LawfulPorts (machine P) P.
Proof. split; [done|done|]. by intros [[? ? ? ? []] ?]. Qed.

(** After [txt] of the panic: interrupts are off, the marker is written, and the
    console shows the text from a blank screen on. *)
Record told (txt : list Z) (s : machine P) : Prop := {
  told_screen : represents vga_text_ops (term_print VGA_ROWS_ txt (Term (λ _ _, blank) 0 0 PANIC_ATTR)) (mcon s);
  told_irqs : irqs s = false;
  told_magic : nv (ports s) PANIC_MAGIC_ADDR = PANIC_MAGIC;
  told_code : nv (ports s) PANIC_CODE_ADDR = 1;
}.

(** Steps of the hardware that keep the marker keep all of it. *)
Lemma told_ports txt p (s : machine P) : told txt s → (∀ j, nv p j = nv (ports s) j) → told txt (set_ports p s).
Proof.
  intros [Hs Hi Hm Hc] E. split; [|done|by etrans; [apply E|]..]. destruct Hs as [H1 H2 H3 H4 H5 H6 [H7 H8]]. by split.
Qed.

Lemma io_outb_told txt port v (s : machine P) : u16 port ≠ CMOS_ADDR → u16 port ≠ CMOS_DATA → told txt s →
  wp (io_outb port v) (λ _, told txt) s.
Proof.
  intros Ha Hd Hs. unfold io_outb, io_write. apply wp_modify, told_ports; [done|]. by apply law_other.
Qed.

Lemma delay_told txt n (s : machine P) : 0 ≤ n → told txt s → wp (panic_delay n) (λ _, told txt) s.
Proof.
  intros Hn Hs. unfold panic_delay. apply (wp_upto (λ _, told txt)); [done|done|]. intros _ s1 _ H1.
  apply (wp_upto (λ _, told txt)); [by cbv|done|]. intros _ s2 _ H2. by apply io_outb_told.
Qed.

(** *** The console keeps the marker *)

Lemma same_cells_cursor port v p : port = 0x3D4 ∨ port = 0x3D5 → same_cells p (outb port v p).
Proof. by intros [-> | ->]; refine (proj2 (law_other _ v p _ _)). Qed.

(** *** Telling *)

(** A step of the console that does its work and keeps the marker. *)
Lemma on_mcon_told {A} (m : M (console (vga P)) A) txt t (s : machine P) :
  told txt s → cframes same_cells m →
  wp m (λ _, represents vga_text_ops (term_print VGA_ROWS_ t (Term (λ _ _, blank) 0 0 PANIC_ATTR))) (mcon s) →
  wp (on_mcon m) (λ _, told t) s.
Proof.
  intros [Hs Hi Hm Hc] Hk (a & c & E & Hr). exists a, (Machine c (irqs s)). split.
  { unfold on_mcon. by rewrite E. }
  destruct (Hk _ (rep_con _ _ _ Hs) _ _ E) as [_ Hnv]. split; [done|done|by etrans; [apply Hnv|]..].
Qed.

Lemma print_told b txt rest (s : machine P) : told txt s → nonul b → zlen (txt ++ b) ≤ 2147483647 →
  wp (on_mcon (console_print fallback (b ++ 0 :: rest))) (λ _, told (txt ++ b)) s.
Proof.
  intros Hs Hb Hl. apply (on_mcon_told _ txt); [done|apply cframes_print, same_cells_cursor; apply _|]. rewrite term_print_app.
  apply (print_wp vga_text_ops); [apply Hs|done|].
  pose proof (term_print_col VGA_ROWS_ txt (Term (λ _ _, blank) 0 0 PANIC_ATTR) ltac:(done)) as Hcol.
  rewrite zlen_app in Hl. cbn [tcol reach vga_laws] in *. apply fits_short; lia.
Qed.
Lemma say_told b txt (s : machine P) : told txt s → nonul b → zlen (txt ++ b) ≤ 2147483647 →
  wp (say fallback b) (λ _, told (txt ++ b)) s.
Proof. apply print_told. Qed.
Lemma putc_told c txt (s : machine P) : told txt s → byte_ok c → c ≠ 0 → zlen (txt ++ [c]) ≤ 2147483647 →
  wp (kputc fallback c) (λ _, told (txt ++ [c])) s.
Proof.
  intros Hs Hb Hc Hl. apply (on_mcon_told _ txt); [done|apply cframes_putc, same_cells_cursor; apply _|]. rewrite term_print_app.
  apply (putc_wp vga_text_ops); [apply Hs|done|].
  pose proof (term_print_col VGA_ROWS_ txt (Term (λ _ _, blank) 0 0 PANIC_ATTR) ltac:(done)) as Hcol.
  rewrite zlen_app in Hl. cbn [tcol reach vga_laws] in *. apply fits_short; lia.
Qed.

(** ** The whole *)

(** The keyboard controller takes a command within [n] polls. *)
Fixpoint kbc_ready (n : nat) (p : P) : Prop :=
  match n with
  | O => False
  | Datatypes.S n => let '(v, p) := inb 0x64 p in has v 2 = false ∨ kbc_ready n p
  end.

(** The reset line is pulsed, and nothing after it. *)
Definition reset_pulsed (txt : list Z) (s : machine P) : Prop :=
  ∃ s', told txt s' ∧ s = set_ports (outb 0x64 0xFE (ports s')) s'.

Lemma kernel_reboot_wp txt fuel : ∀ (s : machine P), told txt s → kbc_ready fuel (ports s) →
  wp (Start.kernel_reboot fuel) (λ _, reset_pulsed txt) s.
Proof.
  induction fuel as [|fuel IH]; intros s Hs Hr; [done|]. cbn [Start.kernel_reboot kbc_ready] in *.
  pose proof (law_in 0x64 (ports s) ltac:(done)) as Hnv.
  apply wp_bind. unfold io_inb, io_read. change (u16 0x64) with 0x64.
  destruct (inb 0x64 (ports s)) as [v p] eqn:E. exists v, (set_ports p s). split; [by rewrite E|].
  assert (Hs' : told txt (set_ports p s)) by by apply told_ports.
  destruct (has v 2) eqn:Ev; [destruct Hr as [?|Hr]; [done|]; by apply IH|].
  unfold io_outb, io_write. apply wp_modify. by exists (set_ports p s).
Qed.

Lemma nonul_chars_byte l : forallb (λ c, negb (c =? 0) && (0 <=? c) && (c <? 256)) l = true → nonul l.
Proof.
  intros Hl. apply list.Forall_forall. intros c Hc. rewrite forallb_forall in Hl.
  specialize (Hl c (proj1 (list_elem_of_In _ _) Hc)). bool_prop. unfold byte_ok. lia.
Qed.

Lemma live_log_told msg txt (s : machine P) : told txt s → nonul msg → zlen (txt ++ ok_line msg) ≤ 2147483647 →
  wp (live_log fallback msg) (λ _, told (txt ++ ok_line msg)) s.
Proof.
  intros Hs Hm Hl. unfold live_log, ok_line in *. rewrite !zlen_app in Hl. change (zlen NL) with 1 in Hl.
  change (zlen (chars "  [ ok ] ")) with 9 in Hl. pose proof (zlen_nonneg msg).
  wp_apply (say_told (chars "  [ ok ] ") txt s Hs); [by apply nonul_chars_byte|rewrite zlen_app; change (zlen (chars "  [ ok ] ")) with 9; lia|]. intros _ s1 Hk1.
  wp_apply (say_told msg _ s1 Hk1); [done|rewrite !zlen_app; change (zlen (chars "  [ ok ] ")) with 9; lia|]. intros _ s2 Hk2.
  wp_apply (say_told NL _ s2 Hk2); [by apply nonul_chars_byte|rewrite !zlen_app; change (zlen (chars "  [ ok ] ")) with 9; change (zlen NL) with 1; lia|]. intros _ s3 Hk3.
  apply delay_told; [done|]. by rewrite !app_assoc in *.
Qed.

Fixpoint count_text (n : nat) : list Z :=
  match n with
  | O => []
  | Datatypes.S k => [48 + Z.of_nat n; 32] ++ count_text k
  end.

Lemma countdown_told n : ∀ txt (s : machine P), (n < 10)%nat → told txt s → zlen txt + 2 * Z.of_nat n ≤ 2147483647 →
  wp (countdown fallback n) (λ _, told (txt ++ count_text n)) s.
Proof.
  induction n as [|n IH]; intros txt s Hn Hs Hl; cbn [countdown count_text]; [apply wp_ret; by rewrite app_nil_r|].
  wp_apply (putc_told (48 + Z.of_nat (S n)) txt s Hs); [unfold byte_ok; lia|lia|rewrite zlen_snoc; lia|]. intros _ s1 Hk1.
  wp_apply (say_told (chars " ") _ s1 Hk1); [by apply nonul_chars_byte|rewrite zlen_app, zlen_snoc; change (zlen (chars " ")) with 1; lia|].
  intros _ s2 Hk2. wp_apply (delay_told ((txt ++ [48 + Z.of_nat (S n)]) ++ chars " ") 1 s2); [done|exact Hk2|]. intros _ s3 Hk3.
  eapply wp_mono; [eapply IH; [lia|exact Hk3|]|].
  { rewrite zlen_app, zlen_snoc. change (zlen (chars " ")) with 1. lia. }
  intros [] s4. cbv beta. by rewrite <- !app_assoc.
Qed.

(** The console, before. *)
Record standing (s : machine P) : Prop := {
  standing_con : con (mcon s) = Some vga_text_ops;
  standing_vga : vga_ready (display (mcon s));
}.

(** The marker and the blank screen. *)
Lemma panic_begins (s : machine P) : standing s → wp panic_begin (λ _, told []) s.
Proof.
  intros [Hc Hv]. unfold panic_begin, irq_disable. apply wp_bind, wp_modify.
  wp_apply (cmos_write_wp 0x3A 0x4F); [done|]. intros _ s1 Hs1.
  wp_apply (cmos_write_wp 0x3B 1); [done|]. intros _ s2 Hs2.
  pose proof (cells_are_ports _ _ _ PANIC_MAGIC_ADDR Hs2) as Hm. pose proof (cells_are_ports _ _ _ PANIC_CODE_ADDR Hs2) as Hcode.
  cbn in Hm, Hcode. rewrite (cells_are_ports _ _ _ _ Hs1) in Hm. cbn in Hm.
  destruct (cells_are_trans _ _ _ _ _ Hs1 Hs2) as (p & -> & _).
  apply wp_bind. eexists _, _. split; [reflexivity|].
  match goal with |- wp _ _ ?x => set (s3 := x) end.
  assert (Hv3 : vga_ready (display (mcon s3))) by exact Hv.
  destruct (console_clear_wp vga_text_ops (ConsoleLaws0 := vga_laws) (mcon s3) Hc Hv3 ltac:(by cbv)) as (a & c & E & Hr).
  exists a, (Machine c (irqs s3)). split; [unfold on_mcon; by rewrite E|].
  destruct (cframes_clear same_cells same_cells_cursor (mcon s3) Hc _ _ E) as [_ Hnv]. split; [exact Hr|done|by etrans; [apply Hnv|]..].
Qed.

(** The lengths of the fixed texts, by evaluation. *)
Ltac room :=
  rewrite ?zlen_app;
  repeat match goal with |- context [zlen ?l] =>
    let n := eval vm_compute in (zlen l) in
    lazymatch n with Z0 => idtac | Zpos _ => idtac end; change (zlen l) with n end;
  lia.

Lemma panic_told wide mem fuel buf fmt ap l (s : machine P) :
  standing s → (∀ p, kbc_ready fuel p) → zlen buf = 256 →
  text wide mem (S (length fmt)) fmt ap = Some l → nonul l → zlen l < 2 ^ 31 →
  wp (panic fallback wide mem fuel buf fmt ap)
    (λ _, reset_pulsed (panic_text (take (Z.to_nat (Z.min (zlen l) 255)) l))) s.
Proof.
  intros Hs Hkbc Hbuf Htext Hnon Hlen. unfold panic.
  rewrite (kvsnprintf_run wide mem buf 256 fmt ap l Htext Hlen) by lia.
  do 2 (apply wp_bind; eapply wp_lift; [reflexivity|]). unfold truncated. change (256 - 1) with 255.
  set (m := take (Z.to_nat (Z.min (zlen l) 255)) l).
  assert (Hm : zlen m ≤ 255) by (unfold m, zlen; rewrite length_take; lia).
  assert (Hmn : nonul m) by by apply list.Forall_take.
  wp_apply panic_begins; [done|]. intros _ s0 T.
  wp_apply (say_told _ _ _ T); [by apply nonul_chars_byte|room|]. clear T. intros _ s1 T.
  wp_apply (say_told _ _ _ T); [by apply nonul_chars_byte|room|]. clear T. intros _ s2 T.
  wp_apply (print_told _ _ _ _ T); [done|room|]. clear T. intros _ s3 T.
  do 2 (wp_apply (say_told _ _ _ T); [by apply nonul_chars_byte|room|]; clear T; intros _ ? T).
  do 4 (wp_apply (live_log_told _ _ _ T); [by apply nonul_chars_byte|room|]; clear T; intros _ ? T).
  wp_apply (say_told _ _ _ T); [by apply nonul_chars_byte|room|]. clear T. intros _ s10 T.
  wp_apply (countdown_told 5 _ _ ltac:(lia) T); [room|]. clear T. intros _ s11 T.
  eapply wp_mono; [apply (kernel_reboot_wp _ _ _ T), Hkbc|]. intros [] s12. cbv beta.
  match goal with |- reset_pulsed ?a _ → reset_pulsed ?b _ => assert (a = b) as ->; [|done] end.
  unfold panic_text, ok_line. rewrite <- !app_assoc. reflexivity.
Qed.
End proof.

(** ** The theorem *)

(** C20: Round trip, through a reset. On the VGA console, for every message that can be
    formatted, [panic] terminates: interrupts are off, the screen is the abstract
    terminal after the panic text with the first 255 characters of the message, and
    the reset line has been pulsed last. A machine that comes up with the CMOS
    memory as it was left finds the marker and the reason code; once
    [cmos_clear_panic_flag] has run, it finds none. *)
Theorem panic_recorded {P} `{Nvram P} fallback wide mem fuel buf fmt ap l (s : machine P) :
  standing s → (∀ p, kbc_ready fuel p) → zlen buf = 256 →
  text wide mem (S (length fmt)) fmt ap = Some l → nonul l → zlen l < 2 ^ 31 →
  wp (panic fallback wide mem fuel buf fmt ap) (λ _ s',
    reset_pulsed (panic_text (take (Z.to_nat (Z.min (zlen l) 255)) l)) s' ∧
    ∀ next : machine P, (∀ j, nv (ports next) j = nv (ports s') j) →
      wp (let* r := cmos_last_boot_panicked true in cmos_clear_panic_flag ;;
          let* r' := cmos_last_boot_panicked true in ret (r, r'))
        (λ r _, r = ((true, Some 1), (false, None))) next) s.
Proof.
  intros Hs Hkbc Hbuf Htext Hnon Hlen. eapply wp_mono; [by eapply panic_told|].
  intros [] s' Hreset. split; [done|]. intros next Hnext. destruct Hreset as (s1 & [_ _ Hmagic Hcode] & ->).
  assert (Hpulse : ∀ j, nv (outb 0x64 0xFE (ports s1)) j = nv (ports s1) j) by by apply law_other.
  assert (Hm : nv (ports next) PANIC_MAGIC_ADDR = PANIC_MAGIC) by by rewrite Hnext, ports_set, Hpulse.
  assert (Hc : nv (ports next) PANIC_CODE_ADDR = 1) by by rewrite Hnext, ports_set, Hpulse.
  wp_apply (last_boot_wp true next). intros r s2 [-> Hs2]. rewrite Hm, Hc, Z.eqb_refl.
  wp_apply (clear_flag_wp s2). intros _ s3 [Hz _].
  wp_apply (last_boot_wp true s3). intros r s4 [-> _]. apply wp_ret. by rewrite Hz.
Qed.

(** *** A concrete machine *)

Definition demo_cells : Type := Z * (Z → Z).
#[export] Instance demo_cell_ports : Ports demo_cells :=
  {| inb := λ port p, (if port =? CMOS_DATA then p.2 p.1 else 0, p);
     inw := λ _ p, (65535, p); inl := λ _ p, (4294967295, p);
     outb := λ port v p, if port =? CMOS_ADDR then (Z.land v 0x7F, p.2)
       else if port =? CMOS_DATA then (p.1, λ j, if j =? p.1 then v else p.2 j) else p;
     outw := λ _ _ p, p; outl := λ _ _ p, p |}.
#[export] Instance demo_nvram : Nvram demo_cells.
Proof.
  refine {| nv := snd; cmos_sel := fst |}; try done.
  intros port v p Ha Hd. cbn [outb demo_cell_ports]. by rewrite (proj2 (Z.eqb_neq _ _) Ha), (proj2 (Z.eqb_neq _ _) Hd).
Defined.

Definition demo_standing : machine demo_cells :=
  Machine (Console (Some vga_text_ops) 3 7 CON_NORMAL (Vga (Window (zeros 2000) true) (0, λ _, 0))) true.

Lemma panic_recorded_witness :
  let msg := chars "heap init failed" in
  wp (panic weak_fallback_putc false (λ _, None) 1 (zeros 256) (msg ++ [0]) []) (λ _ s',
    reset_pulsed (panic_text msg) s' ∧
    ∀ next : machine demo_cells, (∀ j, nv (ports next) j = nv (ports s') j) →
      wp (let* r := cmos_last_boot_panicked true in cmos_clear_panic_flag ;;
          let* r' := cmos_last_boot_panicked true in ret (r, r'))
        (λ r _, r = ((true, Some 1), (false, None))) next) demo_standing.
Proof.
  intros msg. apply (panic_recorded weak_fallback_putc false (λ _, None) 1 (zeros 256) (msg ++ [0]) [] msg demo_standing).
  - split; [reflexivity|by split_and!; cbv].
  - intros p. by left.
  - reflexivity.
  - by vm_compute.
  - by apply nonul_chars_byte.
  - by vm_compute.
Defined.
