(* ===== verification/Exceptions.v ===== *)
(** * arch/x86/isr.c and arch/x86_64/isr.c in the kernel: an exception is reported

    [Irq]'s dispatch put together with [Panic] and the clock of [Boot], as both
    architectures link them. The C compiler decides where the literals are
    ([addr]) and what lies behind the arguments of a call ([behind]). *)
From S2P Require Import Prelude KString Printk Ports Console VgaText Cmos Panic Irq.
From S2P Require Boot.
Open Scope c_scope.

(** The screen with the interrupt flag and the hardware, and the clock. *)
Record core (P : Type) := Core { scr : machine P; clk : Boot.clock_state }.
Arguments Core {P}.
Arguments scr {P}.
Arguments clk {P}.

Section exceptions.
Context {P : Type} `{Ports P} (fallback : Z → M (vga P) unit).
Context (mem : Z → option (list Z)) (addr : String.string → Z) (behind : va_list) (buf : list Z) (fuel : nat).

#[export] Instance core_ports : HasPorts (core P) P :=
  {| ports := λ c, ports (scr c); set_ports := λ p c, Core (set_ports p (scr c)) (clk c) |}.

Definition on_scr {A} (m : M (machine P) A) : M (core P) A := λ c,
  '(a, s) ← m (scr c); Some (a, Core s (clk c)).
Definition tick : M (core P) unit := modify (λ c, Core (scr c) (Boot.time_tick (clk c))).

(** The call of [panic] in [isr_handler], with the format [fmt]. *)
Definition panic_exception (wide : bool) (fmt : list Z) (vector : Z) (name : String.string) (err : Z) : M (core P) unit :=
  on_scr (panic fallback wide mem fuel buf fmt ([vector; addr name; err] ++ behind)).

Definition format_x86 : list Z := chars "cpu exception %u (%s) err=%u" ++ [0].
Definition format_x86_64 : list Z := chars "cpu exception %llu (%s) err=%llu" ++ [0].

Definition isr_handler_x86 (regs : regs_t) : M (isr (core P)) unit :=
  isr_handler (panic_exception false format_x86) tick regs.
Definition isr_handler_x86_64 (regs : regs_t) : M (isr (core P)) unit :=
  isr_handler (panic_exception true format_x86_64) tick regs.
End exceptions.

(** ** The text of the report *)

(** A number in decimal. *)
Definition dec (n : Z) : list Z := digit false <$> digits 65 10 n.

Section text.
Context (wide : bool) (mem : Z → option (list Z)).
Implicit Types ap : va_list.

Lemma text_lit l n rest ap : Forall (λ c, c ≠ 0 ∧ c ≠ PERCENT) l →
  text wide mem (length l + n) (l ++ rest) ap = app l <$> text wide mem n rest ap.
Proof.
  intros Hl. induction Hl as [|c l [Hc Hp] _ IH]; [cbn; by destruct (text wide mem n rest ap)|].
  cbn [length Nat.add app text head tail mbind option_bind].
  rewrite (proj2 (Z.eqb_neq c 0) Hc), (proj2 (Z.eqb_neq c PERCENT) Hp). cbn [negb].
  rewrite IH. by destruct (text wide mem n rest ap).
Qed.

Lemma num_dec v : text_num v 10 false false 0 false false = Some (dec v).
Proof.
  unfold text_num. cbn [andb negb app]. cbv zeta. f_equal. unfold dec.
  set (d := digit false <$> digits 65 10 v). unfold fill.
  pose proof (zlen_nonneg d). by replace (Z.to_nat (0 - zlen d)) with 0%nat by lia.
Qed.
(** A directive without flags and width. *)
Lemma text_dir n fmt ap c rest lmod l ap' :
  scan_flags fmt false false = Some (false, false, fmt) → scan_width fmt 0 = Some (0, fmt) →
  scan_lmod fmt 0 = Some (lmod, c :: rest) → text_conv wide mem c false false 0 lmod ap = Some (l, ap') →
  text wide mem (S n) (PERCENT :: fmt) ap = app l <$> text wide mem n rest ap'.
Proof.
  intros Ef Ew El Ec. cbn [text head tail mbind option_bind].
  change (PERCENT =? 0) with false. change (negb (PERCENT =? PERCENT)) with false. cbv iota.
  rewrite Ef. cbn [mbind option_bind]. rewrite Ew. cbn [mbind option_bind]. rewrite El. cbn [mbind option_bind head tail].
  by rewrite Ec.
Qed.

(** A pointer as [%s] reads it. *)
Definition as_ptr (p : Z) : Z := if wide then u64 p else u32 p.

Lemma conv_s p q ap s l : as_ptr p ≠ 0 → mem (as_ptr q) = Some s → cstring s = Some l →
  text_conv wide mem 115 false false 0 0 (p :: q :: ap) = Some (l, ap).
Proof.
  intros Hp Hs Hl. unfold text_conv, va_word, va_u64, va_u32, as_ptr in *.
  change (115 =? 37) with false. change (115 =? 99) with false. change (115 =? 115) with true. cbv iota.
  assert (Ht : ∀ x, text_str x 0 false = x).
  { intros x. unfold text_str, fill. pose proof (zlen_nonneg x). by replace (Z.to_nat (0 - zlen x)) with 0%nat by lia. }
  destruct wide; cbn [mbind option_bind]; unfold truthy; rewrite (proj2 (Z.eqb_neq _ 0) Hp); cbn [negb mbind option_bind];
    rewrite Hs; cbn [mbind option_bind]; rewrite Hl; cbn [mbind option_bind]; by rewrite Ht.
Qed.
End text.

(** [%u] takes 32 bits, [%llu] on 64-bit machines a slot. *)
Lemma conv_u wide mem v ap : text_conv wide mem 117 false false 0 0 (v :: ap) = Some (dec (u32 v), ap).
Proof. unfold text_conv. cbn [Z.leb]. change (117 =? 117) with true. cbn -[text_num u32]. by rewrite num_dec. Qed.
Lemma conv_llu mem v ap : text_conv true mem 117 false false 0 2 (v :: ap) = Some (dec (u64 v), ap).
Proof. cbn -[text_num u64]. by rewrite num_dec. Qed.

(** ** The report *)

(** The message: where the name of the exception should be, the string at the
    address that the error code happens to be; and where the error code should
    be, what lies behind the arguments. *)
Definition report_text (v : Z) (str : list Z) (next : Z) : list Z :=
  chars "cpu exception " ++ dec v ++ chars " (" ++ str ++ chars ") err=" ++ dec next.

Lemma text_end wide mem n ap : text wide mem (S n) [0] ap = Some [].
Proof. done. Qed.

(** Both formats have the same shape, with [%u] or [%llu] in it. *)
Definition shape (dir : list Z) : list Z :=
  chars "cpu exception " ++ PERCENT :: (dir ++ 117 :: (chars " (" ++ PERCENT :: 115 :: (chars ") err=" ++
    PERCENT :: (dir ++ 117 :: [0])))).
Lemma format_x86_shape : format_x86 = shape [].
Proof. vm_compute. reflexivity. Qed.
Lemma format_x86_64_shape : format_x86_64 = shape [108; 108].
Proof. vm_compute. reflexivity. Qed.
Lemma report_shape wide mem dir lmod num v name err next ap s str :
  (∀ rest', scan_flags (dir ++ 117 :: rest') false false = Some (false, false, dir ++ 117 :: rest') ∧
    scan_width (dir ++ 117 :: rest') 0 = Some (0, dir ++ 117 :: rest') ∧
    scan_lmod (dir ++ 117 :: rest') 0 = Some (lmod, 117 :: rest')) →
  (∀ x ap, text_conv wide mem 117 false false 0 lmod (x :: ap) = Some (dec (num x), ap)) →
  as_ptr wide name ≠ 0 → mem (as_ptr wide err) = Some s → cstring s = Some str →
  text wide mem (S (length (shape dir))) (shape dir) (v :: name :: err :: next :: ap)
  = Some (report_text (num v) str (num next)).
Proof.
  intros Hdir Hnum Hname Hs Hstr. unfold report_text.
  assert (Hf : S (length (shape dir)) = (length (chars "cpu exception ") + S (length (chars " (") + S (length (chars ") err=") +
    S (S (length dir + length dir + 4)))))%nat).
  { unfold shape. repeat first [rewrite length_app | progress cbn [length]]. change (length (chars "cpu exception ")) with 14%nat.
    change (length (chars " (")) with 2%nat. change (length (chars ") err=")) with 6%nat. lia. }
  rewrite Hf. unfold shape.
  rewrite text_lit by (repeat constructor; done).
  erewrite text_dir; [|apply Hdir..|apply Hnum].
  rewrite text_lit by (repeat constructor; done).
  erewrite (text_dir _ _ _ (115 :: _)); [|reflexivity..|by eapply conv_s].
  rewrite text_lit by (repeat constructor; done).
  erewrite text_dir; [|apply Hdir..|apply Hnum]. rewrite text_end. cbn [fmap option_fmap option_map].
  by rewrite app_nil_r.
Qed.

Lemma digits_small fuel val : 0 ≤ val → Forall (λ d, 0 ≤ d < 10) (digits fuel 10 val) ∧ (length (digits fuel 10 val) ≤ fuel)%nat.
Proof.
  revert val. induction fuel as [|fuel IH]; intros val Hv; [by split; [constructor|cbn]|]. cbn [digits].
  destruct (Z.ltb_spec val 10); [split; [by repeat constructor|cbn; lia]|].
  destruct (IH (val / 10)) as [Hd Hl]; [by apply Z.div_pos|]. split.
  - apply list.Forall_app. split; [done|]. constructor; [by apply Z.mod_pos_bound|constructor].
  - rewrite length_app. cbn. lia.
Qed.
Lemma dec_nonul n : 0 ≤ n → nonul (dec n) ∧ zlen (dec n) ≤ 65.
Proof.
  intros Hn. destruct (digits_small 65 n Hn) as [Hd Hl]. unfold dec. split.
  - apply list.Forall_fmap. eapply list.Forall_impl; [exact Hd|]. intros d Hr. cbv beta in Hr. cbn. unfold digit, byte_ok.
    rewrite (proj2 (Z.ltb_lt d 10)) by lia. lia.
  - unfold zlen. rewrite length_fmap. lia.
Qed.
Lemma cstr_cstring b s : cstr b s → cstring b = Some s.
Proof.
  intros [Hs [rest ->]]. induction Hs as [|c s [Hc _] _ IH]; [done|]. cbn [app cstring].
  rewrite (proj2 (Z.eqb_neq c 0) Hc). by rewrite IH.
Qed.

Lemma report_nonul v str next : 0 ≤ v → 0 ≤ next → nonul str → zlen str < 2 ^ 30 →
  nonul (report_text v str next) ∧ zlen (report_text v str next) < 2 ^ 31.
Proof.
  intros Hv Hn Hs Hl. destruct (dec_nonul v Hv) as [Hv1 Hv2], (dec_nonul next Hn) as [Hn1 Hn2].
  unfold report_text. split.
  - repeat apply list.Forall_app_2; try done; by apply nonul_chars_byte.
  - rewrite !zlen_app. change (zlen (chars "cpu exception ")) with 14. change (zlen (chars " (")) with 2.
    change (zlen (chars ") err=")) with 6. lia.
Qed.

Section report.
Context {P : Type} `{Nvram P} (fallback : Z → M (vga P) unit).
Context (mem : Z → option (list Z)) (addr : String.string → Z) (behind : va_list) (buf : list Z) (fuel : nat).

Definition shown (msg : list Z) (i : isr (core P)) : Prop :=
  reset_pulsed (panic_text (take (Z.to_nat (Z.min (zlen msg) 255)) msg)) (scr (world i)).

Lemma panic_exception_wp wide fmt v err msg (i : isr (core P)) :
  0 ≤ v < 32 → standing (scr (world i)) → (∀ p, kbc_ready fuel p) → zlen buf = 256 →
  text wide mem (S (length fmt)) fmt ([v; addr (exception_name v); err] ++ behind) = Some msg → nonul msg → zlen msg < 2 ^ 31 →
  wp (isr_handler (panic_exception fallback mem addr behind buf fuel wide fmt) tick (Regs v err)) (λ _, shown msg) i.
Proof.
  intros Hv Hs Hk Hb Ht Hn Hl. unfold isr_handler. cbn [int_no err_code]. rewrite (proj2 (Z.ltb_lt v 32)) by lia.
  destruct (panic_told fallback wide mem fuel buf fmt _ msg (scr (world i)) Hs Hk Hb Ht Hn Hl) as ([] & s' & E & Hr).
  exists tt, (Isr (irq_handlers i) (Core s' (clk (world i)))). split; [|exact Hr].
  unfold on_world, panic_exception, on_scr. by rewrite E.
Qed.

(** C23: the report of an exception. On both architectures an exception of the
    processor ends in the panic screen and a reset, and the screen shows the number
    of the exception. But because [%s] reads two arguments, the code does not show
    the exception's name: it takes the error code for the address of a string and
    shows that, and as the error code it shows whatever lies behind the
    arguments. *)
Theorem exception_report v err next ap s str (i : isr (core P)) :
  0 ≤ v < 32 → standing (scr (world i)) → (∀ p, kbc_ready fuel p) → zlen buf = 256 → behind = next :: ap →
  cstr s str → zlen str < 2 ^ 30 →
  (as_ptr false (addr (exception_name v)) ≠ 0 → mem (u32 err) = Some s →
   wp (isr_handler_x86 fallback mem addr behind buf fuel (Regs v err)) (λ _, shown (report_text v str (u32 next))) i) ∧
  (as_ptr true (addr (exception_name v)) ≠ 0 → mem (u64 err) = Some s →
   wp (isr_handler_x86_64 fallback mem addr behind buf fuel (Regs v err)) (λ _, shown (report_text v str (u64 next))) i).
Proof.
  intros Hv Hs Hk Hb Hbe Hc Hl. pose proof (proj1 Hc) as Hn. apply cstr_cstring in Hc. split; intros Ha Hm.
  - destruct (report_nonul v str (u32 next)) as [Hr1 Hr2]; [lia|apply u32_range|done|done|].
    apply panic_exception_wp; [done..| |done|done]. rewrite Hbe.
    replace (report_text v str (u32 next)) with (report_text (u32 v) str (u32 next)) by (by rewrite (u32_small v) by lia).
    rewrite format_x86_shape. apply (report_shape false mem [] 0 u32 v _ err next ap s str); try done.
    intros x ap'. apply conv_u.
  - destruct (report_nonul v str (u64 next)) as [Hr1 Hr2]; [lia|unfold u64; mod_lia|done|done|].
    apply panic_exception_wp; [done..| |done|done]. rewrite Hbe.
    replace (report_text v str (u64 next)) with (report_text (u64 v) str (u64 next)) by (unfold u64; by rewrite Z.mod_small by lia).
    rewrite format_x86_64_shape. apply (report_shape true mem [108; 108] 2 u64 v _ err next ap s str); try done.
    intros x ap'. apply conv_llu.
Qed.
End report.

(** A page fault with error code 2, on a machine with text at address 2. *)
Definition demo_mem (p : Z) : option (list Z) := if p =? 2 then Some (chars "text at 2" ++ [0]) else None.
Definition demo_isr : isr (core demo_cells) := isr_boot (Core demo_standing Boot.clock_boot).

Lemma exception_report_witness :
  wp (isr_handler_x86_64 weak_fallback_putc demo_mem (λ _, 4096) [7] (zeros 256) 1 (Regs 14 2))
    (λ _ i, reset_pulsed (panic_text (chars "cpu exception 14 (text at 2) err=7")) (scr (world i))) demo_isr.
Proof.
  refine (proj2 (exception_report weak_fallback_putc demo_mem (λ _, 4096) [7] (zeros 256) 1 14 2 7 []
    (chars "text at 2" ++ [0]) (chars "text at 2") demo_isr _ _ _ _ _ _ _) _ _).
  - done.
  - split; [reflexivity|by split_and!; cbv].
  - intros p. by left.
  - done.
  - done.
  - split; [by apply nonul_chars_byte|by exists []].
  - done.
  - done.
  - done.
Defined.
