(* ===== verification/Secure.v ===== *)
(** * secure/secure_boot.c: the recovery kernel

    [secure_main] with its menu, the memory test and the polling of keys. It
    prints with [Kprintf] on the console of [VgaText], which
    writes text memory and the ports of the cursor; the memory it tests is a
    machine of its own ([Regs32]), since the test is about what that memory does.
    The loops without a bound (the menu, the wait for a key) take fuel; the menu
    ends where the machine is reset. *)
From stdpp Require Import sets.
From S2P Require Import Prelude KString Printk Vram Ports Console Kprintf VgaText Pci Input Cmos Exceptions.
From S2P Require Start Panic.
Open Scope c_scope.

Definition KERNEL_NAME : list Z := chars "Obsidian".

Section secure.
Context {P D : Type} `{Ports P, Regs32 D} (L : linked).

(** The keyboard driver's state with the ports behind it, the PCI table, the
    memory, and the console. The hardware behind the console is the machine's:
    what is in its place is replaced when the console runs. *)
Record secure := Secure {
  inp : input P;
  devs : list pci_dev;
  ndevs : Z;
  dram : D;
  screen : console (vga P);
}.

#[export] Instance secure_ports : HasPorts secure P :=
  {| ports := λ s, ports (inp s); set_ports := λ p s, Secure (set_ports p (inp s)) (devs s) (ndevs s) (dram s) (screen s) |}.
#[export] Instance secure_lawful : LawfulPorts secure P.
Proof. split; [done|done|by intros [[] ? ? ? ?]]. Qed.

Definition set_vga_hw (p : P) (c : console (vga P)) : console (vga P) :=
  Console (con c) (con_col c) (con_row c) (con_attr c) (Vga (vt (display c)) p).
Definition on_screen {A} (m : M (console (vga P)) A) : M secure A := λ s,
  '(a, c) ← m (set_vga_hw (ports s) (screen s));
  Some (a, set_ports (vga_hw (display c)) (Secure (inp s) (devs s) (ndevs s) (dram s) c)).
Definition on_input {A} (m : M (input P) A) : M secure A := λ s,
  '(a, i) ← m (inp s); Some (a, Secure i (devs s) (ndevs s) (dram s) (screen s)).
Definition peek (addr : Z) : M secure Z := λ s,
  let '(v, d) := reg_read addr (dram s) in Some (v, Secure (inp s) (devs s) (ndevs s) d (screen s)).
Definition poke (addr v : Z) : M secure unit :=
  modify (λ s, Secure (inp s) (devs s) (ndevs s) (reg_write addr v (dram s)) (screen s)).

(** The calls of [kprintf] and [kputs]. *)
Definition kprintf (fmt : list Z) (args : va_list) : M secure unit :=
  on_screen (Kprintf.kprintf L weak_fallback_putc fmt args).
Definition kputs (s : list Z) : M secure unit := on_screen (Kprintf.kputs weak_fallback_putc s).

(** *** secure/secure_boot.c *)

Definition PATTERN : Z := 0x5A5AA5A5.

Definition memtest_region (base size_bytes : Z) : M secure unit :=
  let words := Z.to_nat (size_bytes / 4) in
  let* _ := for_ 0 words (λ i, poke (base + i * 4) PATTERN ;; ret (@None unit)) in
  let* bad := for_ 0 words (λ i,
    let* v := peek (base + i * 4) in
    ret (if negb (v =? PATTERN) then Some i else None)) in
  match bad with
  | Some i => kprintf (chars "memtest FAIL at %08x" ++ NL) [if wide L then u64 (base + i * 4) else u32 (base + i * 4)]
  | None => kprintf (chars "memtest ok %u KB" ++ NL) [size_bytes / 1024]
  end.

Definition device_format : list Z := chars "pci %02x:%02x.%d %04x:%04x %s" ++ NL.
Definition device_args (d : pci_dev) : va_list :=
  [pbus d; pdev d; pfn d; vendor d; device d; addr L (pci_class_name (class_code d))].

(** [pci_get] over the table. *)
Definition dump_devices : M secure unit :=
  let* n := gets ndevs in
  let* _ := for_ 0 (Z.to_nat n) (λ i,
    let* l := gets devs in
    let* d := lift (l !! Z.to_nat i) in
    kprintf device_format (device_args d) ;; ret (@None unit)) in
  ret tt.

(** The table of letters; 0 where it has none. *)
Definition key_map (sc : Z) : Z :=
  if sc =? 0x13 then 114 else if sc =? 0x2E then 99 else if sc =? 0x20 then 100
  else if sc =? 0x32 then 109 else if sc =? 0x23 then 104 else 0.

Fixpoint poll_key (fuel : nat) : M secure Z :=
  match fuel with
  | O => fault
  | S f =>
      let* sc := on_input ps2_poll_scancode in
      if (sc <? 0) || has sc 0x80 then poll_key f else ret (key_map (Z.land sc 0x7F))
  end.

(** [for (;;)]: each round takes a key. *)
Fixpoint menu_loop (fuel rounds : nat) (heap_base heap_size : Z) : M secure unit :=
  match rounds with
  | O => fault
  | S r =>
      let* k := poll_key fuel in
      if k =? 114 then cmos_clear_panic_flag ;; Start.kernel_reboot fuel
      else
        (if k =? 99 then cmos_clear_panic_flag ;; kputs (chars "panic flag cleared")
         else if k =? 100 then dump_devices
         else if k =? 109 then memtest_region heap_base heap_size
         else kputs (chars "menu: r c d m h")) ;;
        menu_loop fuel r heap_base heap_size
  end.

Definition banner_format : list Z := NL ++ chars "%s SECURE %s -- recovery environment" ++ NL.
Definition banner_args : va_list := [addr L KERNEL_NAME; addr L (KERNEL_VERSION L)].
Definition last_boot_format : list Z := chars "last boot: %s" ++ NL.
Definition last_boot_args (panicked : bool) : va_list :=
  [addr L (if panicked then chars "KERNEL PANIC detected" else chars "clean shutdown")].
Definition memory_format : list Z := chars "memory available to this session: %llu KB" ++ NL ++ NL.
Definition menu_lines : list (list Z) :=
  [chars "menu:" ++ NL; chars "  r reboot into the main kernel" ++ NL; chars "  c clear the panic flag" ++ NL;
   chars "  d list PCI devices" ++ NL; chars "  m memory self test" ++ NL; chars "  h show this help" ++ NL ++ NL].

Definition secure_main (fuel rounds : nat) (usable_kb heap_base heap_size : Z) : M secure unit :=
  kprintf banner_format banner_args ;;
  let* r := cmos_last_boot_panicked true in
  kprintf last_boot_format (last_boot_args r.1) ;;
  kprintf memory_format (slots64 (wide L) usable_kb) ;;
  kprintf (chars "menu:" ++ NL) [] ;;
  kprintf (chars "  r reboot into the main kernel" ++ NL) [] ;;
  kprintf (chars "  c clear the panic flag" ++ NL) [] ;;
  kprintf (chars "  d list PCI devices" ++ NL) [] ;;
  kprintf (chars "  m memory self test" ++ NL) [] ;;
  kprintf (chars "  h show this help" ++ NL ++ NL) [] ;;
  menu_loop fuel rounds heap_base heap_size.
End secure.
Arguments secure : clear implicits.

(** ** What is printed *)

Section text.
Context (L : linked).

(** A format without directives is printed as it is. *)
Lemma literal_text l : Forall (λ c, c ≠ 0 ∧ c ≠ PERCENT) l → text_of L l [] = Some l.
Proof.
  intros Hl. unfold text_of. replace (S (length (l ++ [0]))) with (length l + 2)%nat by (rewrite length_app; cbn; lia).
  rewrite text_lit by done. cbn. by rewrite app_nil_r.
Qed.
(** A format with one directive in it, [%u] or [%llu]. *)
Lemma number_text pre dir lmod post args n :
  Forall (λ c, c ≠ 0 ∧ c ≠ PERCENT) pre → Forall (λ c, c ≠ 0 ∧ c ≠ PERCENT) post →
  (∀ rest', scan_flags (dir ++ 117 :: rest') false false = Some (false, false, dir ++ 117 :: rest') ∧
    scan_width (dir ++ 117 :: rest') 0 = Some (0, dir ++ 117 :: rest') ∧
    scan_lmod (dir ++ 117 :: rest') 0 = Some (lmod, 117 :: rest')) →
  (∀ ap, text_conv (wide L) (str L) 117 false false 0 lmod (args ++ ap) = Some (dec n, ap)) →
  text_of L (pre ++ PERCENT :: dir ++ 117 :: post) args = Some (pre ++ dec n ++ post).
Proof.
  intros Hpre Hpost Hdir Hnum. unfold text_of.
  assert (Hf : S (length ((pre ++ PERCENT :: dir ++ 117 :: post) ++ [0])) = (length pre + S (length post + (length dir + 3)))%nat).
  { repeat first [rewrite length_app | progress cbn [length]]. lia. }
  rewrite Hf, <- app_assoc, text_lit by done. cbn [app]. rewrite <- app_assoc. cbn [app].
  erewrite text_dir; [|apply Hdir..|apply Hnum].
  rewrite text_lit by done. replace (length dir + 3)%nat with (S (length dir + 2)) by lia. rewrite text_end.
  cbn. by rewrite app_nil_r.
Qed.

Lemma memory_text kb : 0 ≤ kb < 2 ^ 64 →
  text_of L memory_format (slots64 (wide L) kb) = Some (chars "memory available to this session: " ++ dec kb ++ chars " KB" ++ NL ++ NL).
Proof.
  intros Hkb. apply (number_text (chars "memory available to this session: ") [108; 108] 2 (chars " KB" ++ NL ++ NL));
    [by repeat constructor..|done|].
  intros ap. unfold slots64. destruct (wide L).
  - cbn [app]. rewrite conv_llu. unfold u64. by rewrite Z.mod_small.
  - cbn -[text_num dec u32 Z.shiftr Z.pow]. rewrite num_dec. cbn -[dec u32 Z.shiftr Z.pow]. do 3 f_equal.
    rewrite Z.shiftr_div_pow2 by done. rewrite (u32_small (kb / 2 ^ 32)).
    + unfold u32. change (2 ^ 32) with 4294967296. rewrite Z.mod_mod by done. pose proof (Z.div_mod kb 4294967296 ltac:(done)). lia.
    + split; [apply Z.div_pos; lia|apply Z.div_lt_upper_bound; lia].
Qed.
Lemma memtest_text kb : 0 ≤ kb < 2 ^ 32 →
  text_of L (chars "memtest ok %u KB" ++ NL) [kb] = Some (chars "memtest ok " ++ dec kb ++ chars " KB" ++ NL).
Proof.
  intros Hkb. apply (number_text (chars "memtest ok ") [] 0 (chars " KB" ++ NL)); [by repeat constructor..|done|].
  intros ap. cbn [app]. by rewrite conv_u, u32_small.
Qed.
End text.

(** ** The machine as an interface

    The keyboard has sent the bytes [queue]; [written] are the ports written so
    far; the memory of the clock is that of [Nvram]. *)
Class Recovery (P : Type) `{Nvram P} := {
  queue : P → list Z;
  written : P → list Z;
  law_st : ∀ p, let '(v, p') := inb STATUS_PORT p in
    has v 1 = negb (bool_decide (queue p = [])) ∧ has v 2 = false ∧ queue p' = queue p ∧ written p' = written p;
  law_byte : ∀ p, let '(v, p') := inb DATA_PORT p in
    (∀ b q, queue p = b :: q → v = b ∧ queue p' = q) ∧ written p' = written p;
  law_cell : ∀ p, queue (inb CMOS_DATA p).2 = queue p ∧ written (inb CMOS_DATA p).2 = written p;
  law_write : ∀ port v p, queue (outb port v p) = queue p ∧ written (outb port v p) = written p ++ [port];
}.

(** Memory that keeps what is written. *)
Class Ram (D : Type) `{Regs32 D} := {
  word : D → Z → Z;
  law_load : ∀ a d, reg_read a d = (word d a, d);
  law_store : ∀ a v d b, word (reg_write a v d) b = if b =? a then v else word d b;
}.

Section proof.
Context {P D : Type} `{Recovery P, Ram D} (L : linked) (t0 : term).
Implicit Types s : secure P D.

(** The clock's ports, the delay port, and those of the screen's cursor. *)
Definition allowed : list Z := [CMOS_ADDR; CMOS_DATA; 0x80; 0x3D4; 0x3D5].

(** [m] leaves the keyboard alone and writes allowed ports only. *)
Definition calm {A} (m : M (secure P D) A) : Prop := ∀ s, wlp m (λ _ s', queue (ports s') = queue (ports s) ∧
  ∃ w, written (ports s') = written (ports s) ++ w ∧ Forall (λ x, x ∈ allowed) w) s.

Lemma calm_bind {A B} (m : M (secure P D) A) (k : A → M (secure P D) B) : calm m → (∀ a, calm (k a)) → calm (bind m k).
Proof.
  intros Hm Hk s. eapply wlp_call; [apply Hm|]. intros a s1 (Eq & w & Ew & Hw). eapply wlp_mono; [apply Hk|].
  intros b s2 (Eq2 & w2 & Ew2 & Hw2). split; [congruence|]. exists (w ++ w2). rewrite Ew2, Ew, <- app_assoc.
  split; [done|by apply list.Forall_app_2].
Qed.
Lemma calm_ret {A} (a : A) : calm (ret a).
Proof. intros s. apply wlp_ret. split; [done|]. exists []. rewrite app_nil_r. by split. Qed.
Lemma calm_outb port v : u16 port ∈ allowed → calm (io_outb port v).
Proof.
  intros Hp s. apply wlp_modify. rewrite ports_set. destruct (law_write (u16 port) v (ports s)) as [-> ->]. split; [done|]. eexists. split; [done|]. by constructor.
Qed.
Lemma calm_inb : calm (io_inb CMOS_DATA).
Proof.
  intros s v s' E. unfold io_inb, io_read in E. change (u16 CMOS_DATA) with CMOS_DATA in E.
  pose proof (law_cell (ports s)) as [E1 E2]. destruct (inb CMOS_DATA (ports s)) as [x p]. apply (inj Some), pair_eq in E as [_ <-].
  rewrite ports_set. cbn [snd] in *. split; [done|]. exists []. rewrite app_nil_r. by split.
Qed.
Create HintDb calm.
Hint Resolve calm_bind calm_ret calm_inb : calm.
Hint Extern 1 (calm (io_outb _ _)) => apply calm_outb; by apply (bool_decide_unpack _) : calm.

Lemma calm_read reg : calm (cmos_read reg).
Proof. unfold cmos_read, io_wait. auto 10 with calm. Qed.
Lemma calm_cmos_write reg v : calm (cmos_write reg v).
Proof. unfold cmos_write, io_wait. auto 10 with calm. Qed.
Lemma calm_clear : calm cmos_clear_panic_flag.
Proof. apply calm_bind; [apply calm_cmos_write|]. intros _. apply calm_cmos_write. Qed.
Lemma calm_last want : calm (cmos_last_boot_panicked want).
Proof.
  apply calm_bind; [apply calm_read|]. intros m. destruct (negb _); [apply calm_ret|].
  destruct want; [|apply calm_ret]. apply calm_bind; [apply calm_read|]. intros c. apply calm_ret.
Qed.

(** *** The session so far

    From [s0] on, with the screen as the terminal [t0]: the text printed, the cells
    of the clock, the keys left and the memory. *)
Record ran (s0 : secure P D) (txt : list Z) (f : Z → Z) (q : list Z) (mem : Z → Z) s : Prop := {
  r_table : devs s = devs s0 ∧ ndevs s = ndevs s0;
  r_screen : represents vga_text_ops (term_print VGA_ROWS_ txt t0) (screen s);
  r_cells : ∀ j, nv (ports s) j = f j;
  r_queue : queue (ports s) = q;
  r_written : ∃ w, written (ports s) = written (ports s0) ++ w ∧ Forall (λ x, x ∈ allowed) w;
  r_mem : ∀ a, word (dram s) a = mem a;
}.

Lemma ran_start s : represents vga_text_ops t0 (screen s) → ran s [] (nv (ports s)) (queue (ports s)) (word (dram s)) s.
Proof. intros Hs. split; [done|done|done|done|exists []; by rewrite app_nil_r|done]. Qed.

Lemma ran_ports s0 evs f q mem s p f' q' w : ran s0 evs f q mem s →
  (∀ j, nv p j = f' j) → queue p = q' → written p = written (ports s) ++ w → Forall (λ x, x ∈ allowed) w →
  ran s0 evs f' q' mem (set_ports p s).
Proof.
  intros [R1 R2 _ _ (w0 & Ew & Hw0) R6] Hf Hq Hw Ha.
  split; [exact R1|exact R2|by rewrite ports_set|by rewrite ports_set| |exact R6].
  exists (w0 ++ w). rewrite ports_set, Hw, Ew, <- app_assoc. split; [done|by apply list.Forall_app_2].
Qed.

(** A calm operation that leaves the cells [f']. *)
Lemma ran_calm {A} (m : M (secure P D) A) (R : A → Prop) s0 evs f q mem s f' : ran s0 evs f q mem s → calm m →
  wp m (λ a s', R a ∧ ∃ p, s' = set_ports p s ∧ ∀ j, nv p j = f' j) s →
  wp m (λ a s', R a ∧ ran s0 evs f' q mem s') s.
Proof.
  intros Hs Hc (a & s' & E & HR & p & -> & Hp). exists a, (set_ports p s). split; [done|]. split; [done|].
  destruct (Hc s _ _ E) as (Hq & w & Hw & Ha). rewrite ports_set in *.
  eapply ran_ports; [exact Hs|exact Hp|by rewrite Hq; apply (r_queue _ _ _ _ _ _ Hs)|exact Hw|exact Ha].
Qed.

(** What the console does to the hardware. *)
Definition quiet (p p' : P) : Prop :=
  (∀ j, nv p' j = nv p j) ∧ queue p' = queue p ∧ ∃ w, written p' = written p ++ w ∧ Forall (λ x, x ∈ allowed) w.
#[export] Instance quiet_order : PreOrder quiet.
Proof.
  split.
  - intros p. split; [done|]. split; [done|]. exists []. rewrite app_nil_r. by split.
  - intros p1 p2 p3 (N1 & Q1 & w1 & W1 & A1) (N2 & Q2 & w2 & W2 & A2). split; [by intros j; rewrite N2|].
    split; [congruence|]. exists (w1 ++ w2). rewrite W2, W1, <- app_assoc. split; [done|by apply list.Forall_app_2].
Qed.
Lemma quiet_cursor port v p : port = 0x3D4 ∨ port = 0x3D5 → quiet p (outb port v p).
Proof.
  intros Hp. destruct (law_write port v p) as [Hq Hw]. split.
  { by destruct Hp as [-> | ->]; refine (proj2 (law_other _ v p _ _)). }
  split; [done|]. exists [port]. split; [done|]. constructor; [|done].
  by destruct Hp as [-> | ->]; apply (bool_decide_unpack _).
Qed.

Lemma represents_hw t p (c : console (vga P)) : represents vga_text_ops t c → represents vga_text_ops t (set_vga_hw p c).
Proof. intros [? ? ? ? ? ? [? ?]]. by split. Qed.

Lemma on_screen_ran (m : M (console (vga P)) unit) l s0 txt f q mem s : ran s0 txt f q mem s → cframes quiet m →
  (∀ c, represents vga_text_ops (term_print VGA_ROWS_ txt t0) c →
    wp m (λ _, represents vga_text_ops (term_print VGA_ROWS_ (txt ++ l) t0)) c) →
  wp (on_screen m) (λ _, ran s0 (txt ++ l) f q mem) s.
Proof.
  intros [R1 R2 R3 R4 (w0 & W0 & A0) R6] Hq Hm. pose proof (represents_hw _ (ports s) _ R2) as Hc.
  destruct (Hm _ Hc) as ([] & c & E & Hr). destruct (Hq _ (rep_con _ _ _ Hc) _ _ E) as (_ & N & Q & w & W & A).
  eexists tt, _. split; [unfold on_screen; by rewrite E|]. cbn [vga_hw display set_vga_hw] in N, Q, W.
  split; rewrite ?ports_set; [exact R1|exact Hr|by intros j; rewrite N|by rewrite Q| |exact R6].
  exists (w0 ++ w). rewrite W, W0, <- app_assoc. split; [done|by apply list.Forall_app_2].
Qed.

(** The cursor stays where an int can count its column. *)
Definition room (txt : list Z) : Prop := tcol t0 + zlen txt ≤ 2147483647.
Lemma room_app txt l : room (txt ++ l) → room txt.
Proof. unfold room. rewrite zlen_app. pose proof (zlen_nonneg l). lia. Qed.
Lemma room_fits l txt (c : console (vga P)) : represents vga_text_ops (term_print VGA_ROWS_ txt t0) c → 0 ≤ tcol t0 → room (txt ++ l) →
  Console.fits 2147483647 (tcol (term_print VGA_ROWS_ txt t0)) l = true.
Proof.
  intros Hc Ht Hl. unfold room in Hl. rewrite zlen_app in Hl. pose proof (term_print_col VGA_ROWS_ txt t0 Ht).
  apply fits_short; lia.
Qed.

Hypothesis t0_col : 0 ≤ tcol t0.

Lemma kputs_quiet l : cframes quiet (Kprintf.kputs (D := vga P) weak_fallback_putc l).
Proof.
  apply cframes_bind; [apply _|apply cframes_print; [apply _|apply quiet_cursor]|]. intros _.
  apply cframes_putc, quiet_cursor; apply _.
Qed.
Lemma kputs_ran l s0 txt f q mem s : nonul l → room (txt ++ l ++ NL) → ran s0 txt f q mem s →
  wp (kputs l) (λ _, ran s0 (txt ++ l ++ NL) f q mem) s.
Proof.
  intros Hl Hroom Hs. apply on_screen_ran; [done|apply kputs_quiet|]. intros c Hc.
  rewrite term_print_app. apply (kputs_wp vga_text_ops); [done|done|]. eapply room_fits; [done|done|].
  rewrite app_assoc in Hroom. by eapply room_app.
Qed.
Hypothesis buffer : zlen (stackbuf L) = 512.
Lemma kprintf_quiet fmt args : cframes quiet (Kprintf.kprintf (D := vga P) L weak_fallback_putc fmt args).
Proof.
  apply cframes_bind; [apply _| |]; [intros s Hs; by apply wlp_lift|]. intros b.
  apply cframes_print, quiet_cursor; apply _.
Qed.
Lemma kprintf_ran fmt args s0 txt f q mem s : printable L fmt args → room (txt ++ printed L fmt args) →
  ran s0 txt f q mem s → wp (kprintf L fmt args) (λ _, ran s0 (txt ++ printed L fmt args) f q mem) s.
Proof.
  intros Hp Hroom Hs. apply on_screen_ran; [done|apply kprintf_quiet|]. intros c Hc.
  rewrite term_print_app. apply (kprintf_wp vga_text_ops); [done|done|done|]. by eapply room_fits.
Qed.
Lemma kprintf_text fmt args l s0 txt f q mem s : text_of L fmt args = Some l → nonul l → zlen l ≤ 511 → room (txt ++ l) →
  ran s0 txt f q mem s → wp (kprintf L fmt args) (λ _, ran s0 (txt ++ l) f q mem) s.
Proof.
  intros El Hn Hl Hroom Hs. rewrite <- (printed_eq L fmt args l El Hl) in *. apply kprintf_ran; [|done|done].
  exists l. rewrite (printed_eq L fmt args l El Hl) in Hn. split_and!; [done|done|lia].
Qed.

Definition cleared (f : Z → Z) (j : Z) : Z := if (j =? PANIC_MAGIC_ADDR) || (j =? PANIC_CODE_ADDR) then 0 else f j.

Lemma cleared_wp s0 evs f q mem s : ran s0 evs f q mem s →
  wp cmos_clear_panic_flag (λ _, ran s0 evs (cleared f) q mem) s.
Proof.
  intros Hs. eapply wp_mono; [eapply (ran_calm _ (λ _, True) _ _ _ _ _ _ (cleared f) Hs calm_clear)|by intros [] s' []].
  unfold cmos_clear_panic_flag. wp_apply cmos_write_wp; [done|]. intros _ s1 (p1 & -> & E1).
  eapply wp_mono; [by apply cmos_write_wp|]. intros [] s2 (p2 & -> & E2). split; [done|]. exists p2. rewrite set_set.
  split; [done|]. intros j. rewrite E2, ports_set, E1, (r_cells _ _ _ _ _ _ Hs). unfold cleared.
  destruct (j =? PANIC_CODE_ADDR); [by rewrite orb_true_r|]. by rewrite orb_false_r.
Qed.

Lemma last_boot_ran s0 evs f q mem s : ran s0 evs f q mem s →
  wp (cmos_last_boot_panicked true) (λ r s', r.1 = (f PANIC_MAGIC_ADDR =? PANIC_MAGIC) ∧ ran s0 evs f q mem s') s.
Proof.
  intros Hs. eapply (ran_calm _ (λ r, r.1 = _) _ _ _ _ _ _ f Hs (calm_last true)).
  eapply wp_mono; [apply last_boot_wp|]. intros r s' [-> (p & -> & E)].
  rewrite (r_cells _ _ _ _ _ _ Hs). split; [by destruct (_ =? _)|]. exists p. split; [done|].
  intros j. by rewrite E, (r_cells _ _ _ _ _ _ Hs).
Qed.

(** A key. *)
Lemma poll_scancode_wp s0 evs f b q mem s : ran s0 evs f (b :: q) mem s →
  wp (on_input ps2_poll_scancode) (λ sc s', sc = b ∧ ran s0 evs f q mem s') s.
Proof.
  intros Hs. pose proof (r_queue _ _ _ _ _ _ Hs) as Hq. pose proof (r_cells _ _ _ _ _ _ Hs) as Hf.
  pose proof (law_st (ports s)) as Hst. pose proof (law_in STATUS_PORT (ports s) ltac:(done)) as Hn1.
  destruct (inb STATUS_PORT (ports s)) as [v p1] eqn:E1. destruct Hst as (Hv & _ & Hq1 & Hw1).
  pose proof (law_byte p1) as Hb. pose proof (law_in DATA_PORT p1 ltac:(done)) as Hn2.
  destruct (inb DATA_PORT p1) as [x p2] eqn:E2. destruct Hb as [Hb Hw2]. destruct (Hb b q) as [-> Hq2]; [by rewrite Hq1|].
  exists b, (set_ports p2 s). split.
  - unfold on_input, ps2_poll_scancode, bind, io_inb, io_read. change (u16 STATUS_PORT) with STATUS_PORT.
    change (u16 DATA_PORT) with DATA_PORT. change (ports (inp s)) with (ports s). rewrite E1.
    change STAT_OUT_FULL with 1. rewrite Hv, Hq. cbn [negb bool_decide]. rewrite bool_decide_false by done. cbn [negb].
    rewrite ports_set, E2, set_set. done.
  - split; [done|]. eapply (ran_ports _ _ _ _ _ _ _ _ _ []); [exact Hs| |done| |constructor].
    + intros j. cbn [snd] in *. by rewrite Hn2, Hn1.
    + by rewrite Hw2, Hw1, app_nil_r.
Qed.

Lemma ran_mem s0 evs f q mem mem' s : ran s0 evs f q mem s → (∀ a, mem' a = mem a) → ran s0 evs f q mem' s.
Proof. intros [] E. split; try done. intros a. by rewrite E. Qed.

(** The make codes among the bytes; the other bytes are skipped. *)
Definition makes (ks : list Z) : list Z := base.filter (λ k, has k 0x80 = false) ks.

Lemma make_code k : byte_ok k → has k 0x80 = false → Z.land k 0x7F = k.
Proof.
  intros Hk Hm. pose proof (byte_forall (λ k, has k 0x80 || (Z.land k 0x7F =? k)) k ltac:(by vm_compute) Hk) as E.
  cbv beta in E. rewrite Hm in E. by apply Z.eqb_eq.
Qed.

Lemma poll_key_wp s0 evs f q mem ks : ∀ fuel s, (length ks < fuel)%nat → Forall byte_ok ks →
  ran s0 evs f (ks ++ 0x13 :: q) mem s →
  wp (poll_key fuel) (λ k s', match makes ks with
    | [] => k = 114 ∧ ran s0 evs f q mem s'
    | sc :: scs => k = key_map sc ∧ ∃ rest, scs = makes rest ∧ (∃ pre, ks = pre ++ rest) ∧ (length rest < length ks)%nat ∧
        ran s0 evs f (rest ++ 0x13 :: q) mem s' end) s.
Proof.
  induction ks as [|k ks IH]; intros [|fuel] s Hfuel Hb Hs; cbn [length] in Hfuel; try lia; cbn [poll_key app] in *;
    (wp_apply poll_scancode_wp; [exact Hs|]); intros sc s1 [-> H1'].
  - change ((0x13 <? 0) || has 0x13 0x80) with false. by apply wp_ret.
  - inversion_clear Hb as [|? ? Hk Hb']. unfold makes. rewrite list.filter_cons. fold (makes ks).
    rewrite (proj2 (Z.ltb_ge k 0)) by (unfold byte_ok in Hk; lia). cbn [orb]. destruct (has k 0x80) eqn:Ek.
    + rewrite decide_False by done. eapply wp_mono; [apply IH; [lia|done|exact H1']|]. intros r s2. cbv beta.
      destruct (makes ks); [done|]. intros (-> & rest & -> & (pre & ->) & Hl & Hr). split; [done|]. exists rest.
      split; [done|]. split; [by exists (k :: pre)|]. split; [cbn; lia|done].
    + rewrite decide_True by done. apply wp_ret. rewrite make_code by done. split; [done|]. exists ks.
      split; [done|]. split; [by exists [k]|]. split; [cbn; lia|done].
Qed.

(** The memory after a test. *)
Definition tested (base n a : Z) : bool := (base <=? a) && (a <? base + n * 4) && ((a - base) mod 4 =? 0).

Definition memtest_ok (size : Z) : list Z := chars "memtest ok " ++ dec (size / 1024) ++ chars " KB" ++ NL.
Lemma memtest_ok_nonul size : 0 ≤ size → nonul (memtest_ok size) ∧ zlen (memtest_ok size) ≤ 511.
Proof.
  intros Hsize. destruct (dec_nonul (size / 1024)) as [Hn Hl]; [by apply Z.div_pos|]. unfold memtest_ok. split.
  - repeat apply list.Forall_app_2; try done; by apply Panic.nonul_chars_byte.
  - rewrite !zlen_app. change (zlen (chars "memtest ok ")) with 11. change (zlen (chars " KB")) with 3. change (zlen NL) with 1. lia.
Qed.

Lemma memtest_wp base size s0 evs f q mem s : 0 ≤ size < 2 ^ 32 → room (evs ++ memtest_ok size) → ran s0 evs f q mem s →
  wp (memtest_region L base size) (λ _, ran s0 (evs ++ memtest_ok size) f q
    (λ a, if tested base (size / 4) a then PATTERN else mem a)) s.
Proof.
  intros Hsize Hroom Hs. unfold memtest_region. set (n := Z.to_nat (size / 4)).
  assert (Hn : 0 ≤ size / 4) by (apply Z.div_pos; lia).
  apply (wp_call _ _ (λ _, ran s0 evs f q (λ a, if tested base (size / 4) a then PATTERN else mem a))).
  { apply (wp_for (λ i, ran s0 evs f q (λ a, if tested base i a then PATTERN else mem a))).
    - eapply ran_mem; [exact Hs|]. intros a. unfold tested. destruct (Z.leb_spec base a), (Z.ltb_spec a (base + 0 * 4)); try lia; done.
    - intros s1. by replace (0 + Z.of_nat n) with (size / 4) by lia.
    - intros j s1 Hj [R1 R2 R3 R4 R5 R6]. apply wp_bind, wp_modify, wp_ret. split; try done. cbn [dram]. intros a.
      rewrite law_store, R6. unfold tested. destruct (Z.eqb_spec a (base + j * 4)) as [->|Hne].
      + rewrite (proj2 (Z.leb_le _ _)), (proj2 (Z.ltb_lt _ _)), (proj2 (Z.eqb_eq _ 0)) by (mod_lia || lia). done.
      + destruct (Z.leb_spec base a); [|done]. cbn [andb].
        destruct (Z.eqb_spec ((a - base) mod 4) 0); [|by rewrite !andb_false_r]. rewrite !andb_true_r.
        destruct (Z.ltb_spec a (base + j * 4)), (Z.ltb_spec a (base + (j + 1) * 4)); try lia; try done; exfalso; revert e; mod_lia. }
  intros _ s1 H1'. eapply (wp_call _ _ (λ r s', r = None ∧ ran s0 evs f q (λ a, if tested base (size / 4) a then PATTERN else mem a) s')).
  { apply (wp_for (λ _, ran s0 evs f q (λ a, if tested base (size / 4) a then PATTERN else mem a))); [done|done|].
    intros j s2 Hj H2'. unfold peek. apply wp_bind. pose proof (r_mem _ _ _ _ _ _ H2') as Hm.
    exists (word (dram s2) (base + j * 4)), s2. split; [by rewrite law_load; destruct s2|]. rewrite Hm.
    unfold tested. rewrite (proj2 (Z.leb_le _ _)), (proj2 (Z.ltb_lt _ _)), (proj2 (Z.eqb_eq _ 0)) by (mod_lia || lia).
    cbn [andb]. rewrite Z.eqb_refl. by apply wp_ret. }
  intros r s2 [-> H2']. destruct (memtest_ok_nonul size) as [Hok Hlen]; [lia|].
  apply kprintf_text; [|done|done|done|done]. apply memtest_text.
  split; [apply Z.div_pos; lia|apply Z.div_lt_upper_bound; lia].
Qed.

(** A line for a device. *)
Definition device_line (d : pci_dev) : list Z := printed L device_format (device_args L d).
Lemma device_line_eq d : printed L device_format (device_args L d) = device_line d.
Proof. unfold device_line. reflexivity. Qed.
Definition device_lines (s0 : secure P D) : list Z := concat (map device_line (take (Z.to_nat (ndevs s0)) (devs s0))).
Definition devices_ok (s0 : secure P D) : Prop :=
  0 ≤ ndevs s0 ≤ zlen (devs s0) ∧
  Forall (λ d, printable L device_format (device_args L d)) (take (Z.to_nat (ndevs s0)) (devs s0)).

Lemma dump_devices_wp s0 evs f q mem s : devices_ok s0 → room (evs ++ device_lines s0) → ran s0 evs f q mem s →
  wp (dump_devices L) (λ _, ran s0 (evs ++ device_lines s0) f q mem) s.
Proof.
  intros [Hn Hok] Hroom Hs. unfold dump_devices. apply wp_bind, wp_gets. rewrite (proj2 (r_table _ _ _ _ _ _ Hs)).
  unfold device_lines in *. set (n := Z.to_nat (ndevs s0)) in *.
  set (lines := λ i, concat (map device_line (take i (devs s0)))).
  eapply (wp_call _ _ (λ _, ran s0 (evs ++ lines n) f q mem)).
  - apply (wp_for (λ i, ran s0 (evs ++ lines (Z.to_nat i)) f q mem)).
    + by rewrite app_nil_r.
    + intros s1. by replace (Z.to_nat (0 + Z.of_nat n)) with n by lia.
    + intros j s1 Hj Hs1. apply wp_bind, wp_gets. rewrite (proj1 (r_table _ _ _ _ _ _ Hs1)).
      destruct (lookup_lt_is_Some_2 (devs s0) (Z.to_nat j)) as [d Ed]; [unfold zlen in Hn; lia|].
      apply wp_bind. eapply wp_lift; [exact Ed|].
      assert (El : lines (Z.to_nat (j + 1)) = lines (Z.to_nat j) ++ device_line d).
      { unfold lines. replace (Z.to_nat (j + 1)) with (S (Z.to_nat j)) by lia.
        rewrite (take_S_r _ _ _ Ed), map_app, concat_app. cbn [map concat]. by rewrite app_nil_r. }
      wp_apply (kprintf_ran device_format (device_args L d) s0 (evs ++ lines (Z.to_nat j)) f q mem s1); [| |exact Hs1|].
      * refine (proj1 (list.Forall_forall _ _) Hok d _). apply list_elem_of_lookup_2 with (Z.to_nat j).
        rewrite lookup_take_lt; [done|lia].
      * rewrite device_line_eq, <- app_assoc, <- El.
        assert (Et : lines n = lines (Z.to_nat (j + 1)) ++ concat (map device_line (drop (Z.to_nat (j + 1)) (take n (devs s0))))).
        { unfold lines. rewrite <- concat_app, <- map_app.
          replace (take (Z.to_nat (j + 1)) (devs s0)) with (take (Z.to_nat (j + 1)) (take n (devs s0)))
            by (rewrite take_take; f_equal; lia). by rewrite take_drop. }
        change (room (evs ++ lines n)) in Hroom. rewrite Et, app_assoc in Hroom. by eapply room_app.
      * rewrite device_line_eq. intros _ s2 Hs2. apply wp_ret. rewrite El, app_assoc. exact Hs2.
  - intros _ s1 Hs1. by apply wp_ret.
Qed.

(** What a key shows, and what a list of keys does to the memory. *)
Definition shown (s0 : secure P D) (size sc : Z) : list Z :=
  if sc =? 0x2E then chars "panic flag cleared" ++ NL
  else if sc =? 0x20 then device_lines s0
  else if sc =? 0x32 then memtest_ok size
  else chars "menu: r c d m h" ++ NL.
Definition retested (base size : Z) (ks : list Z) (mem : Z → Z) (a : Z) : Z :=
  if bool_decide (0x32 ∈ ks) && tested base (size / 4) a then PATTERN else mem a.

(** Reset, with the panic flag cleared. *)
Definition reset (s0 : secure P D) (evs : list Z) (f : Z → Z) (q : list Z) (mem : Z → Z) (s : secure P D) : Prop :=
  ∃ s1, ran s0 evs (cleared f) q mem s1 ∧ s = set_ports (outb 0x64 0xFE (ports s1)) s1.

Lemma reboot_wp fuel s0 evs f q mem s : (0 < fuel)%nat → ran s0 evs (cleared f) q mem s →
  wp (Start.kernel_reboot fuel) (λ _, reset s0 evs f q mem) s.
Proof.
  intros Hf Hs. destruct fuel as [|fuel]; [lia|]. cbn [Start.kernel_reboot].
  pose proof (law_st (ports s)) as Hst. pose proof (law_in STATUS_PORT (ports s) ltac:(done)) as Hn.
  change STATUS_PORT with 0x64 in *. destruct (inb 0x64 (ports s)) as [v p] eqn:E. destruct Hst as (_ & Hv & Hq & Hw).
  apply wp_bind. exists v, (set_ports p s). split; [unfold io_inb, io_read; change (u16 0x64) with 0x64; by rewrite E|].
  rewrite Hv. apply wp_modify. eexists. split; [|done].
  eapply (ran_ports _ _ _ _ _ _ _ _ _ []); [exact Hs| | | |constructor].
  - intros j. cbn [snd] in Hn. by rewrite Hn, (r_cells _ _ _ _ _ _ Hs).
  - by rewrite Hq, (r_queue _ _ _ _ _ _ Hs).
  - by rewrite Hw, app_nil_r.
Qed.

Lemma reset_ext s0 evs f f' q mem mem' s : reset s0 evs f q mem s →
  (∀ j, cleared f' j = cleared f j) → (∀ a, mem' a = mem a) → reset s0 evs f' q mem' s.
Proof.
  intros (s1 & [R1 R2 R3 R4 R5 R6] & ->) Hf Hm. exists s1. split; [|done]. split; try done; intros; by rewrite ?Hf, ?Hm.
Qed.

Lemma cleared_twice f j : cleared f j = cleared (cleared f) j.
Proof. unfold cleared. by destruct (_ || _). Qed.

(** One round that is not the last. *)
Lemma menu_step (next m : M (secure P D) unit) s0 evs evs' f f' q' q mem mem' base size sc scs s :
  wp m (λ _, ran s0 evs' f' q' mem') s →
  (∀ s', ran s0 evs' f' q' mem' s' →
     wp next (λ _, reset s0 (evs' ++ concat (map (shown s0 size) scs)) f' q (retested base size scs mem')) s') →
  evs' = evs ++ shown s0 size sc → (∀ j, cleared f' j = cleared f j) →
  (∀ a, retested base size scs mem' a = retested base size (sc :: scs) mem a) →
  wp (m ;; next) (λ _, reset s0 (evs ++ concat (map (shown s0 size) (sc :: scs))) f q (retested base size (sc :: scs) mem)) s.
Proof.
  intros Hm Hnext -> Hf Hmem. eapply wp_call; [exact Hm|]. intros [] s2 Hs2. eapply wp_mono; [by apply Hnext|].
  intros [] s3 Hs3. cbn [map concat]. rewrite app_assoc. eapply reset_ext; [exact Hs3|by intros; rewrite Hf|by intros; rewrite Hmem].
Qed.

Lemma retested_other base size sc scs mem a : sc ≠ 0x32 → retested base size scs mem a = retested base size (sc :: scs) mem a.
Proof.
  intros H32. unfold retested. by rewrite (bool_decide_ext (0x32 ∈ sc :: scs) (0x32 ∈ scs)) by (rewrite elem_of_cons; split; [by intros [?|?]|by right]).
Qed.
Lemma retested_again base size scs mem a :
  retested base size scs (λ a, if tested base (size / 4) a then PATTERN else mem a) a = retested base size (0x32 :: scs) mem a.
Proof.
  unfold retested. rewrite (bool_decide_true (0x32 ∈ 0x32 :: _)) by by left. cbn [andb].
  destruct (tested base (size / 4) a); [by destruct (bool_decide _)|by rewrite andb_false_r].
Qed.

(** The letter of any other key shows the help. *)
Lemma other_key sc : sc ≠ 0x13 → sc ≠ 0x2E → sc ≠ 0x20 → sc ≠ 0x32 →
  (key_map sc =? 114) = false ∧ (key_map sc =? 99) = false ∧ (key_map sc =? 100) = false ∧ (key_map sc =? 109) = false.
Proof. intros. unfold key_map. rewrite !(proj2 (Z.eqb_neq sc _)) by done. by destruct (sc =? 0x23) eqn:E; rewrite ?E. Qed.

Lemma menu_loop_wp fuel base size s0 q : 0 ≤ size < 2 ^ 32 → devices_ok s0 → ∀ rounds ks evs f mem s,
  (length ks < rounds)%nat → (length ks < fuel)%nat → Forall byte_ok ks → 0x13 ∉ ks →
  room (evs ++ concat (map (shown s0 size) (makes ks))) →
  ran s0 evs f (ks ++ 0x13 :: q) mem s →
  wp (menu_loop L fuel rounds base size)
    (λ _, reset s0 (evs ++ concat (map (shown s0 size) (makes ks))) f q (retested base size (makes ks) mem)) s.
Proof.
  intros Hsize Hn. induction rounds as [|rounds IH]; intros ks evs f mem s Hr Hfuel Hb Hno Hroom Hs; [lia|]. cbn [menu_loop].
  wp_apply (poll_key_wp s0 evs f q mem ks fuel s); [done..|exact Hs|]. intros k s1 Hk.
  destruct (makes ks) as [|sc scs] eqn:Em.
  - destruct Hk as [-> Hs1]. change (114 =? 114) with true. cbv iota. cbn [map concat]. rewrite app_nil_r.
    wp_apply cleared_wp; [exact Hs1|]. intros _ s2 Hs2. eapply wp_mono; [apply reboot_wp; [lia|exact Hs2]|].
    intros [] s3 Hs3. eapply reset_ext; [exact Hs3|done|done].
  - destruct Hk as (-> & rest & -> & (pre & ->) & Hl & Hs1).
    assert (Hsc : sc ∈ pre ++ rest) by (eapply list_elem_of_filter with (P := λ k, has k 0x80 = false); fold (makes (pre ++ rest)); rewrite Em; by left).
    assert (Hne : sc ≠ 0x13) by by intros ->.
    apply Forall_app in Hb as [_ Hb]. apply not_elem_of_app in Hno as [_ Hno].
    cbn [map concat] in Hroom. rewrite app_assoc in Hroom. pose proof (room_app _ _ Hroom) as Hroom1.
    pose proof (λ f mem s, IH rest _ f mem s ltac:(lia) ltac:(lia) Hb Hno Hroom) as Hgo. clear IH.
    destruct (decide (sc = 0x2E)) as [->|]; [|destruct (decide (sc = 0x20)) as [->|]; [|destruct (decide (sc = 0x32)) as [->|]]].
    + eapply menu_step; [|apply Hgo|done|by intros; rewrite <- cleared_twice|by intros; apply retested_other].
      wp_apply cleared_wp; [exact Hs1|]. intros _ s2 Hs2. apply kputs_ran; [by apply Panic.nonul_chars_byte|exact Hroom1|exact Hs2].
    + eapply menu_step; [by apply dump_devices_wp|apply Hgo|done|done|by intros; apply retested_other].
    + eapply menu_step; [by apply memtest_wp|apply Hgo|done|done|by intros; apply retested_again].
    + destruct (other_key sc) as (-> & -> & -> & ->); [done..|].
      assert (Eh : shown s0 size sc = chars "menu: r c d m h" ++ NL) by (unfold shown; by rewrite !(proj2 (Z.eqb_neq sc _)) by done).
      eapply menu_step; [|apply Hgo|done|done|by intros; apply retested_other].
      rewrite Eh in *. apply kputs_ran; [by apply Panic.nonul_chars_byte|exact Hroom1|exact Hs1].
Qed.

(** The formats of the greeting whose text is known. *)
Lemma literal_ran l s0 txt f q mem s :
  forallb (λ c, negb (c =? 0) && (0 <=? c) && (c <? 256)) l && forallb (λ c, negb (c =? PERCENT)) l = true →
  zlen l ≤ 511 → room (txt ++ l) → ran s0 txt f q mem s → wp (kprintf L l []) (λ _, ran s0 (txt ++ l) f q mem) s.
Proof.
  intros [Hb Hp]%andb_prop Hl Hroom Hs. pose proof (Panic.nonul_chars_byte l Hb) as Hn.
  apply kprintf_text; [|done|done|done|done]. apply literal_text.
  apply list.Forall_forall. intros c Hc. apply list_elem_of_In in Hc. rewrite forallb_forall in Hb, Hp.
  specialize (Hb c Hc). specialize (Hp c Hc). bool_prop. lia.
Qed.
Definition memory_line (kb : Z) : list Z := chars "memory available to this session: " ++ dec kb ++ chars " KB" ++ NL ++ NL.
Lemma memory_ran kb s0 txt f q mem s : 0 ≤ kb < 2 ^ 64 → room (txt ++ memory_line kb) → ran s0 txt f q mem s →
  wp (kprintf L memory_format (slots64 (wide L) kb)) (λ _, ran s0 (txt ++ memory_line kb) f q mem) s.
Proof.
  intros Hkb Hroom Hs. destruct (dec_nonul kb) as [Hn Hl]; [lia|].
  apply kprintf_text; [by apply memory_text| | |done|done]; unfold memory_line.
  - repeat apply list.Forall_app_2; try done; by apply Panic.nonul_chars_byte.
  - rewrite !zlen_app. change (zlen (chars "memory available to this session: ")) with 34. change (zlen (chars " KB")) with 3.
    change (zlen NL) with 1. lia.
Qed.

(** What is printed before the menu waits. *)
Definition greeting (panicked : bool) (kb : Z) : list Z :=
  printed L banner_format (banner_args L) ++ printed L last_boot_format (last_boot_args L panicked) ++
  memory_line kb ++ concat menu_lines.
Definition session_text (s0 : secure P D) (kb size : Z) (ks : list Z) : list Z :=
  greeting (nv (ports s0) PANIC_MAGIC_ADDR =? PANIC_MAGIC) kb ++ concat (map (shown s0 size) (makes ks)).
Lemma session_text_eq s0 kb size ks : session_text s0 kb size ks =
  printed L banner_format (banner_args L) ++
  printed L last_boot_format (last_boot_args L (nv (ports s0) PANIC_MAGIC_ADDR =? PANIC_MAGIC)) ++ memory_line kb ++
  (chars "menu:" ++ NL) ++ (chars "  r reboot into the main kernel" ++ NL) ++ (chars "  c clear the panic flag" ++ NL) ++
  (chars "  d list PCI devices" ++ NL) ++ (chars "  m memory self test" ++ NL) ++ (chars "  h show this help" ++ NL ++ NL) ++
  concat (map (shown s0 size) (makes ks)).
Proof. unfold session_text, greeting, menu_lines. cbn [concat]. rewrite app_nil_r, <- !app_assoc. reflexivity. Qed.

Lemma secure_main_wp fuel rounds kb base size s0 ks q :
  printable L banner_format (banner_args L) → (∀ b, printable L last_boot_format (last_boot_args L b)) → devices_ok s0 →
  Forall byte_ok ks → 0x13 ∉ ks → (length ks < fuel)%nat → (length ks < rounds)%nat →
  0 ≤ kb < 2 ^ 64 → 0 ≤ size < 2 ^ 32 → room (session_text s0 kb size ks) →
  ran s0 [] (nv (ports s0)) (ks ++ 0x13 :: q) (word (dram s0)) s0 →
  wp (secure_main L fuel rounds kb base size) (λ _,
    reset s0 (session_text s0 kb size ks) (nv (ports s0)) q (retested base size (makes ks) (word (dram s0)))) s0.
Proof.
  intros Hban Hboot Hdev Hb Hno Hfuel Hrounds Hkb Hsize Hroom Hs. rewrite session_text_eq in *. unfold secure_main.
  wp_apply (kprintf_ran _ _ _ [] _ _ _ _ Hban); [exact (room_app _ _ Hroom)|exact Hs|]. intros _ s1 Hs1.
  wp_apply last_boot_ran; [exact Hs1|]. intros r s2 [-> Hs2]. rewrite app_assoc in Hroom.
  wp_apply (kprintf_ran _ _ _ _ _ _ _ _ (Hboot _)); [|exact Hs2|]; [exact (room_app _ _ Hroom)|].
  clear Hs Hs1 Hs2. intros _ s3 Hs. rewrite app_assoc in Hroom |- *.
  wp_apply memory_ran; [exact Hkb| |exact Hs|]; [exact (room_app _ _ Hroom)|]. clear Hs s1 s2 s3.
  do 6 (intros _ ? Hs; rewrite app_assoc in Hroom;
    wp_apply (literal_ran _ s0); [reflexivity|by apply Z.leb_le| |exact Hs|]; [exact (room_app _ _ Hroom)|]; clear Hs).
  intros _ s4 Hs. rewrite !app_assoc in *. by apply menu_loop_wp.
Qed.
End proof.

(** ** The theorem *)

(** What the console was before the session, and what can be formatted. *)
Record session_ok {P D} `{Ports P} (L : linked) (t0 : term) (s : secure P D) : Prop := {
  so_screen : represents vga_text_ops t0 (screen s);
  so_buffer : zlen (stackbuf L) = 512;
  so_banner : printable L banner_format (banner_args L);
  so_boot : ∀ b, printable L last_boot_format (last_boot_args L b);
  so_devices : devices_ok L s;
}.

(** C25: Refinement, and what the recovery kernel may touch. On a machine whose keyboard
    sends [ks] and then r, [secure_main] reports the previous boot, answers every
    make code in its order (break codes are skipped), and resets the machine; the
    keys after the r are not read. The screen is then the abstract terminal after
    the text of the session. The panic flag is cleared and no other cell of the
    clock is touched; the ports written before the reset are the clock's, the
    delay's and those of the screen's cursor; of the memory apart from the screen
    only the heap is written, and its words hold the test pattern exactly when the
    test was asked for. The devices listed are those of the PCI table, which this
    kernel leaves empty: it never scans the bus. What [%s] prints are strings at
    the addresses the formatter reads for them, which have to be readable. *)
Theorem recovery_session {P D} `{Recovery P, Ram D} L t0 (s : secure P D) fuel rounds kb base size ks q :
  session_ok L t0 s →
  queue (ports s) = ks ++ 0x13 :: q → Forall byte_ok ks → 0x13 ∉ ks → (length ks < fuel)%nat → (length ks < rounds)%nat →
  0 ≤ kb < 2 ^ 64 → 0 ≤ size < 2 ^ 32 → tcol t0 + zlen (session_text L s kb size ks) ≤ 2147483647 →
  wp (secure_main L fuel rounds kb base size) (λ _ s', ∃ s1 w,
    represents vga_text_ops (term_print VGA_ROWS_ (session_text L s kb size ks) t0) (screen s1) ∧
    (∀ j, nv (ports s1) j = cleared (nv (ports s)) j) ∧ queue (ports s1) = q ∧
    written (ports s1) = written (ports s) ++ w ∧ Forall (λ port, port ∈ allowed) w ∧
    (∀ a, word (dram s1) a = retested base size (makes ks) (word (dram s)) a) ∧
    s' = set_ports (outb 0x64 0xFE (ports s1)) s1) s.
Proof.
  intros [Hscr Hbuf Hban Hboot Hdev] Hq Hb Hno Hfuel Hrounds Hkb Hsize Hroom.
  assert (Ht : 0 ≤ tcol t0) by apply (rep_cursor _ _ _ Hscr).
  pose proof (ran_start t0 s Hscr) as Hs. rewrite Hq in Hs.
  eapply wp_mono; [by apply (secure_main_wp L t0 Ht Hbuf fuel rounds kb base size s ks q)|].
  intros [] s' (s1 & [_ Hout Hcells Hqueue (w & Hw & Hall) Hmem] & ->). exists s1, w.
  split; [exact Hout|]. by repeat split.
Qed.

(** The test writes the same word everywhere before it reads: memory that
    answers every address with one cell passes. *)
#[export] Instance one_cell : Regs32 Z := {| reg_read := λ _ v, (v, v); reg_write := λ _ v _, v |}.
Lemma aliased_memory_passes {P} `{Ports P} L (s : secure P Z) :
  let s' := Secure (inp s) (devs s) (ndevs s) PATTERN (screen s) in
  memtest_region L 0x200000 64 s = kprintf L (chars "memtest ok %u KB" ++ NL) [0] s'.
Proof. destruct s as [i d n m c]. reflexivity. Qed.

(** *** A machine *)
Record demo_machine := DemoMachine { d_cells : Z → Z; d_sel : Z; d_queue : list Z; d_written : list Z }.
#[export] Instance demo_machine_ports : Ports demo_machine :=
  {| inb := λ port p,
       if port =? STATUS_PORT then (if bool_decide (d_queue p = []) then 0 else 1, p)
       else if port =? DATA_PORT then (nth 0 (d_queue p) 0, DemoMachine (d_cells p) (d_sel p) (tail (d_queue p)) (d_written p))
       else if port =? CMOS_DATA then (d_cells p (d_sel p), p)
       else (255, p);
     outb := λ port v p,
       if port =? CMOS_ADDR then DemoMachine (d_cells p) (Z.land v 0x7F) (d_queue p) (d_written p ++ [port])
       else if port =? CMOS_DATA then DemoMachine (λ j, if j =? d_sel p then v else d_cells p j) (d_sel p) (d_queue p) (d_written p ++ [port])
       else DemoMachine (d_cells p) (d_sel p) (d_queue p) (d_written p ++ [port]);
     inw := λ _ p, (65535, p); inl := λ _ p, (4294967295, p); outw := λ _ _ p, p; outl := λ _ _ p, p |}.
#[export] Instance demo_machine_nvram : Nvram demo_machine.
Proof.
  refine {| nv := d_cells; cmos_sel := d_sel |}.
  - intros v p. by split.
  - done.
  - intros p. by split.
  - intros port p _ j. cbn. by destruct (port =? STATUS_PORT), (port =? DATA_PORT), (port =? CMOS_DATA).
  - intros port v p H1 H2. cbn. by rewrite !(proj2 (Z.eqb_neq port _)) by done.
Defined.
#[export] Instance demo_recovery : Recovery demo_machine.
Proof.
  refine {| queue := d_queue; written := d_written |}.
  - intros p. cbn. destruct (d_queue p); by split_and!.
  - intros p. cbn. split; [|done]. by intros b q ->.
  - done.
  - intros port v p. cbn. by destruct (port =? CMOS_ADDR), (port =? CMOS_DATA).
Defined.
#[export] Instance demo_dram : Regs32 (Z → Z) :=
  {| reg_read := λ a m, (m a, m); reg_write := λ a v m b, if b =? a then v else m b |}.
#[export] Instance demo_ram : Ram (Z → Z).
Proof. by refine {| word := id |}. Defined.

(** The version is at 8192, the other literals at 4096; what lies behind the
    arguments of every call are pointers to a text at 2. *)
Definition demo_linked : linked :=
  Linked true (λ p, if p =? 8192 then Some (chars "1.0" ++ [0]) else if p =? 2 then Some (chars "?" ++ [0]) else None)
    (λ l, if bool_decide (l = chars "1.0") then 8192 else 4096) (λ _, [2; 2; 2]) (zeros 512) (chars "1.0").
(** After a panic the operator tests the memory, clears the flag and reboots. *)
Definition demo_secure : secure demo_machine (Z → Z) :=
  Secure (input_boot (DemoMachine (λ j, if j =? PANIC_MAGIC_ADDR then PANIC_MAGIC else j) 0 [0x32; 0xB2; 0x2E; 0x13; 0x20] []))
    [] 0 (λ _, 0) (Console (Some vga_text_ops) 0 3 CON_NORMAL (Vga (Window (zeros 2000) true) (DemoMachine (λ _, 0) 0 [] []))).

Lemma demo_screen : ∃ g, represents vga_text_ops (Term g 0 3 CON_NORMAL) (screen demo_secure).
Proof.
  exists (λ _ _, (0, 0)). split; try done. split; [by split_and!; cbv|]. intros row col Hr Hc.
  unfold at_. cbn [screen demo_secure display vt words]. unfold zeros, VGA_ROWS_, VGA_COLS_ in *.
  rewrite lookup_replicate_2 by lia. done.
Qed.

Lemma demo_banner : printable demo_linked banner_format (banner_args demo_linked).
Proof. eexists. split; [vm_compute; reflexivity|]. split; [by apply Panic.nonul_chars_byte|done]. Qed.
Lemma demo_boot b : printable demo_linked last_boot_format (last_boot_args demo_linked b).
Proof. eexists. split; [destruct b; vm_compute; reflexivity|]. split; [by apply Panic.nonul_chars_byte|done]. Qed.

Lemma recovery_session_witness :
  wp (secure_main demo_linked 5 5 65536 0x200000 4194304) (λ _ s', ∃ g,
    represents vga_text_ops (term_print VGA_ROWS_ (NL ++ chars "1.0 SECURE ? -- recovery environment" ++ NL ++
      chars "last boot: ?" ++ NL ++ chars "memory available to this session: 65536 KB" ++ NL ++ NL ++ concat menu_lines ++
      chars "memtest ok 4096 KB" ++ NL ++ chars "panic flag cleared" ++ NL) (Term g 0 3 CON_NORMAL)) (screen s') ∧
    nv (ports s') PANIC_MAGIC_ADDR = 0 ∧ nv (ports s') 9 = 9 ∧ queue (ports s') = [0x20]) demo_secure.
Proof.
  destruct demo_screen as [g Hg]. eapply wp_mono.
  - apply (recovery_session demo_linked (Term g 0 3 CON_NORMAL) demo_secure 5 5 65536 0x200000 4194304 [0x32; 0xB2; 0x2E] [0x20] ).
    + split; [exact Hg|done|exact demo_banner|exact demo_boot|].
      split; [done|constructor].
    + reflexivity.
    + by apply bytes_dec.
    + by apply (bool_decide_unpack _).
    + cbn; lia.
    + cbn; lia.
    + done.
    + done.
    + by vm_compute.
  - intros [] s' (s1 & w & Ho & Hc & Hq & _ & _ & _ & ->). exists g. split; [exact Ho|].
    split; [exact (Hc PANIC_MAGIC_ADDR)|]. split; [exact (Hc 9)|exact Hq].
Defined.
