(* ===== verification/Arm.v ===== *)
(** * arch/arm64/pl011.c, arch/arm64/start.c: the ARM64 entry and its serial line

    The UART's registers are 32-bit words ([Regs32]) from its base on. Where
    ARM has no port space, include/io.h has stubs: they are this file's instance
    of [Ports]. [arch_start] is modelled up to the call of [kernel_main], which
    [standard_console] starts as init/main.c does. *)
From S2P Require Import Prelude KString Vram Ports Console VgaText Fdt Boot Start.
Open Scope c_scope.

(** ** pl011.c *)

Definition REG_DR : Z := 0x000.
Definition REG_FR : Z := 0x018.
Definition REG_IBRD : Z := 0x024.
Definition REG_FBRD : Z := 0x028.
Definition REG_LCRH : Z := 0x02c.
Definition REG_CR : Z := 0x030.
Definition REG_IMSC : Z := 0x038.
Definition FR_BUSY : Z := 8.
Definition FR_TXFF : Z := 32.
Definition FR_RXFE : Z := 16.
Definition PL011_BASE_DEFAULT : Z := 0x09000000.

Section pl011.
Context {D : Type} `{Regs32 D}.

(** The statics, a NULL [uart] being 0, and the hardware. *)
Record pl011 := Pl011 { uart : Z; uart_base : Z; dev : D }.
Definition pl011_boot (d : D) : pl011 := Pl011 0 0 d.

Definition wr (off v : Z) : M pl011 unit :=
  modify (λ s, Pl011 (uart s) (uart_base s) (reg_write (uart s + off / 4 * 4) v (dev s))).
Definition rd (off : Z) : M pl011 Z := λ s,
  let '(v, d) := reg_read (uart s + off / 4 * 4) (dev s) in Some (v, Pl011 (uart s) (uart_base s) d).

Definition pl011_init (base : Z) : M pl011 unit :=
  modify (λ s, Pl011 base base (dev s)) ;;
  wr REG_IMSC 0 ;;
  wr REG_CR 0 ;;
  wr REG_IBRD 13 ;;
  wr REG_FBRD 1 ;;
  wr REG_LCRH (Z.lor (Z.shiftl 3 5) (Z.shiftl 1 4)) ;;
  wr REG_CR (Z.lor (Z.lor (Z.shiftl 1 0) (Z.shiftl 1 8)) (Z.shiftl 1 9)).

(** [while (rd(REG_FR) & FR_BUSY)]. *)
Fixpoint wait_idle (fuel : nat) : M pl011 unit :=
  match fuel with
  | O => fault
  | S f => let* v := rd REG_FR in if has v FR_BUSY then wait_idle f else ret tt
  end.

(** [depth] bounds the recursion: the call for a newline is with a carriage
    return, which does not recurse. *)
Fixpoint putc_rec (depth fuel : nat) (c : Z) : M pl011 unit :=
  let* u := gets uart in
  if u =? 0 then ret tt
  else
    wait_idle fuel ;;
    (if c =? 10 then match depth with O => fault | S n => putc_rec n fuel 13 end else ret tt) ;;
    wr REG_DR (u8 c).
Definition pl011_putc (fuel : nat) (c : Z) : M pl011 unit := putc_rec 1 fuel c.

Definition pl011_getc : M pl011 Z :=
  let* u := gets uart in
  if u =? 0 then ret (-1)
  else
    let* v := rd REG_FR in
    if has v FR_RXFE then ret (-1)
    else let* v := rd REG_DR in ret (Z.land v 0xFF).

(** Not called by anybody. *)
Definition pl011_base (s : pl011) : Z := if truthy (uart_base s) then uart_base s else PL011_BASE_DEFAULT.

(** The port stubs of include/io.h. *)
#[export] Instance arm_ports : Ports pl011 :=
  {| inb := λ _ p, (0, p); outb := λ _ _ p, p; inw := λ _ p, (0, p); outw := λ _ _ p, p;
     inl := λ _ p, (0, p); outl := λ _ _ p, p |}.

(** The console of this architecture: VGA text, or no backend and the UART. *)
Definition on_uart {A} (m : M pl011 A) : M (vga pl011) A := λ s,
  '(a, u) ← m (vga_hw s); Some (a, Vga (vt s) u).
Definition console_fallback_putc (fuel : nat) (ch : Z) : M (vga pl011) unit := on_uart (pl011_putc fuel ch).
Definition print (fuel : nat) (s : list Z) : M (console (vga pl011)) unit := console_print (console_fallback_putc fuel) s.

(** ** start.c *)

Definition ARM_HEAP_BYTES : Z := 8 * 1024 * 1024.

Record arm := Arm {
  a_fdt : fdt;
  a_console : console (vga pl011);
  a_clock : clock_state;
  a_boot : boot_info;
}.
Definition on_console {A} (m : M (console (vga pl011)) A) : M arm A := λ s,
  '(a, c) ← m (a_console s); Some (a, Arm (a_fdt s) c (a_clock s) (a_boot s)).

(** The implementer [cpu_report] prints. *)
Definition implementer (midr : Z) : list Z :=
  let i := Z.land (Z.shiftr midr 24) 0xFF in
  if i =? 0x41 then chars "ARM" else if i =? 0x51 then chars "Qualcomm"
  else if i =? 0x4E then chars "Nvidia" else if i =? 0x53 then chars "Samsung" else chars "unknown".

(** What [cpu_report] prints: implementer, part, revision, and the number of
    cores in the device tree. *)
Definition cpu_report (midr : Z) (t : fdt) : list Z * Z * Z * Z * Z :=
  (implementer midr, Z.land (Z.shiftr midr 24) 0xFF, Z.land (Z.shiftr midr 4) 0xFFF, Z.land midr 0xF, fdt_cpu_count t).

(** [kputs] of a literal. *)
Definition kputs (fuel : nat) (s : list Z) : M arm unit := on_console (print fuel (s ++ [0]) ;; console_putc (console_fallback_putc fuel) 10).

(** The reports of the processor and of the memory are left out. [None] is
    [kernel_halt]. *)
Definition arch_start (fuel : nat) (junk : list (list Z)) (dtb : option (list Z)) (bss_end : Z) : M arm (option boot_info) :=
  let* f := gets a_fdt in
  let* r := lift (fdt_init fuel junk dtb f) in
  modify (λ s, Arm r.2 (a_console s) (a_clock s) (a_boot s)) ;;
  if negb r.1 then kputs fuel (chars "fatal: no usable device tree, halting" ++ [10]) ;; ret None
  else
    let t := r.2 in
    on_console (on_display (on_uart (pl011_init (fdt_uart_base t)))) ;;
    let* line := lift (blob ← dtb; fdt_chosen_bootargs blob t) in
    let '(mb, ms) := fdt_memory_base t in
    let ms := if ms =? 0 then 128 * 1024 * 1024 else ms in
    let heap := Z.land (u64 (bss_end + 0xFFFFF)) (u64 (Z.lnot 0xFFFFF)) in
    let b := BootInfo "arm64" line (u32 (ms / 1024)) (u32 heap) ARM_HEAP_BYTES in
    modify (λ s, Arm (a_fdt s) (a_console s) (time_init 100 (a_clock s)) b) ;;
    ret (Some b).

(** What [kernel_main] does first. *)
Definition standard_console : M arm unit := on_console console_init.
End pl011.
Arguments pl011 : clear implicits.
Arguments arm : clear implicits.

(** ** The UART as an interface

    [sent] is what has gone to the wire or into the FIFO, [level] how much the
    FIFO, of 16 bytes, still holds at most. When the busy flag is down the FIFO
    is empty; within [polls] reads of the flag register it goes down. *)
Section idle.
Context {D : Type} `{Regs32 D}.
Fixpoint idle_within (base : Z) (n : nat) (d : D) : Prop :=
  match n with
  | O => False
  | S n => let '(v, d') := reg_read (base + REG_FR) d in has v FR_BUSY = false ∨ idle_within base n d'
  end.
End idle.

Class Uart (D : Type) `{Regs32 D} := {
  at_base : Z;
  polls : nat;
  sent : D → list Z;
  level : D → nat;
  law_flags : ∀ d, let '(v, d') := reg_read (at_base + REG_FR) d in
    sent d' = sent d ∧ (has v FR_BUSY = false → level d' = 0%nat);
  law_idle : ∀ d, idle_within at_base polls d;
  law_data : ∀ v d, (level d < 16)%nat → sent (reg_write at_base v d) = sent d ++ [v] ∧ level (reg_write at_base v d) = S (level d);
}.

Section proof.
Context {D : Type} `{Uart D}.
Implicit Types s : pl011 D.

(** What a character becomes on the wire. *)
Definition on_wire (c : Z) : list Z := if c =? 10 then [13; 10] else [c].

(** The driver is bound to the UART, which has sent [l]. *)
Definition bound (l : list Z) s : Prop := uart s = at_base ∧ at_base ≠ 0 ∧ sent (dev s) = l.

Lemma wait_idle_wp l s fuel : (polls ≤ fuel)%nat → bound l s →
  wp (wait_idle fuel) (λ _ s', bound l s' ∧ level (dev s') = 0%nat) s.
Proof.
  intros Hf (Hu & Hb & Hl). pose proof (law_idle (dev s)) as Hi. revert s Hu Hl Hi. revert fuel Hf.
  induction polls as [|n IH]; intros fuel Hf s Hu Hl Hi; [done|]. destruct fuel as [|fuel]; [lia|]. cbn [wait_idle idle_within] in *.
  pose proof (law_flags (dev s)) as Hfl. apply wp_bind.
  destruct (reg_read (at_base + REG_FR) (dev s)) as [v d] eqn:E. destruct Hfl as [Hs He].
  exists v, (Pl011 (uart s) (uart_base s) d). split; [unfold rd; change (REG_FR / 4 * 4) with REG_FR; by rewrite Hu, E|]. destruct (has v FR_BUSY) eqn:Ev.
  - destruct Hi as [?|Hi]; [done|]. apply IH; [lia|done|by cbn; rewrite Hs|done].
  - apply wp_ret. split; [|by apply He]. split; [done|]. split; [done|]. by cbn; rewrite Hs.
Qed.

Lemma wr_data_wp l s c n : bound l s → level (dev s) = n → (n < 16)%nat →
  wp (wr REG_DR (u8 c)) (λ _ s', bound (l ++ [u8 c]) s' ∧ level (dev s') = S n) s.
Proof.
  intros (Hu & Hb & Hl) Hn H16. apply wp_modify. rewrite Hu. change (REG_DR / 4 * 4) with 0. rewrite Z.add_0_r.
  destruct (law_data (u8 c) (dev s)) as [E1 E2]; [lia|]. unfold bound. cbn [uart dev]. by rewrite E1, E2, Hl, Hn.
Qed.

(** One character, a newline with the carriage return before it. *)
Lemma pl011_putc_wp l s fuel c : (polls ≤ fuel)%nat → byte_ok c → bound l s →
  wp (pl011_putc fuel c) (λ _, bound (l ++ on_wire c)) s.
Proof.
  intros Hf Hc Hs. unfold pl011_putc. cbn [putc_rec]. apply wp_bind, wp_gets. destruct Hs as (Hu & Hb & Hl).
  rewrite Hu, (proj2 (Z.eqb_neq _ _)) by done. wp_apply (wait_idle_wp l s fuel Hf); [by split|]. intros _ s1 [Hs1 L1].
  unfold on_wire. destruct (Z.eqb_spec c 10) as [->|].
  - pose proof Hs1 as (Hu1 & _). apply wp_bind. apply wp_bind, wp_gets. rewrite Hu1, (proj2 (Z.eqb_neq _ _)) by done.
    wp_apply (wait_idle_wp l s1 fuel Hf Hs1). intros _ s2 [Hs2 L2]. apply wp_bind, wp_ret.
    eapply wp_mono; [apply (wr_data_wp l s2 13 0 Hs2 L2); lia|]. intros [] s3 [Hs3 L3]. cbv beta.
    eapply wp_mono; [apply (wr_data_wp _ s3 10 1 Hs3 L3); lia|]. intros [] s4 [Hs4 _]. by rewrite <- app_assoc in Hs4.
  - apply wp_bind, wp_ret. eapply wp_mono; [apply (wr_data_wp l s1 c 0 Hs1 L1); lia|]. intros [] s2 [Hs2 _].
    by rewrite (u8_small c) in Hs2 by (unfold byte_ok in Hc; lia).
Qed.

(** No backend yet: a text goes to the wire. *)
Lemma print_wire fuel txt rest : (polls ≤ fuel)%nat → nonul txt → ∀ l (c : console (vga (pl011 D))),
  con c = None → bound l (vga_hw (display c)) →
  wp (print fuel (txt ++ 0 :: rest)) (λ _ c', con c' = None ∧ con_attr c' = con_attr c ∧ vt (display c') = vt (display c) ∧
    bound (l ++ concat (map on_wire txt)) (vga_hw (display c'))) c.
Proof.
  intros Hf. induction 1 as [|x txt [Hx0 Hxb] Hn IH]; intros l c Hc Hl; unfold print; cbn [app console_print].
  - apply wp_ret. cbn [map concat]. by rewrite app_nil_r.
  - rewrite (proj2 (Z.eqb_neq x 0)) by done. apply wp_bind. unfold console_putc. apply wp_bind, wp_gets. rewrite Hc.
    apply on_display_wp. destruct (pl011_putc_wp l (vga_hw (display c)) fuel x Hf Hxb Hl) as (a & s' & E & Hs').
    exists a. eexists. split; [unfold console_fallback_putc, on_uart; rewrite E; done|]. destruct a.
    eapply wp_mono; [apply (IH (l ++ on_wire x)); [done|exact Hs']|]. intros [] c' (Hc' & Ha' & Hv' & Hl').
    split; [done|]. split; [done|]. split; [done|]. cbn [map concat]. by rewrite <- app_assoc in Hl'.
Qed.

(** Once VGA text is installed the UART is not touched any more. *)
Lemma stubs_frame port v (p : pl011 D) : port = 0x3D4 ∨ port = 0x3D5 → p = outb port v p.
Proof. done. Qed.
Lemma print_dark fuel txt : cframes (P := pl011 D) eq (print fuel txt).
Proof. apply cframes_print, stubs_frame; apply _. Qed.
End proof.

(** ** The theorem *)

(** C31: The console of the ARM64 kernel. Until [kernel_main] starts the console every
    text goes to the serial line, newlines as carriage return and newline,
    whatever the FIFO holds: the wait before a character leaves room for two.
    [console_init] is the same for every architecture, so from then on the text
    goes to the words of VGA text memory, which this architecture does not have:
    even where there is memory at that address, nothing more is sent. *)
Theorem arm_console {D} `{Uart D} fuel l early late r1 r2 (c : console (vga (pl011 D))) :
  (polls ≤ fuel)%nat → con c = None → bound l (vga_hw (display c)) → vga_ready (display c) → byte_ok (con_attr c) →
  nonul early → nonul late → fits 2147483647 0 late = true →
  wp (print fuel (early ++ 0 :: r1)) (λ _ c1, sent (dev (vga_hw (display c1))) = l ++ concat (map on_wire early)) c ∧
  wp (print fuel (early ++ 0 :: r1) ;; console_init ;; print fuel (late ++ 0 :: r2))
    (λ _ c2, sent (dev (vga_hw (display c2))) = l ++ concat (map on_wire early)) c.
Proof.
  intros Hf Hc Hl Hr Ha He Hn Hfit. pose proof (print_wire fuel early r1 Hf He l c Hc Hl) as Hp. split.
  { eapply wp_mono; [exact Hp|]. intros [] c1 (_ & _ & _ & _ & _ & Hs). exact Hs. }
  wp_apply Hp. intros _ c1 (_ & Ea & Ev & _ & _ & Hs1).
  assert (Hr1 : vga_ready (display c1)) by (unfold vga_ready in *; by rewrite Ev).
  destruct (install_wp vga_text_ops (ConsoleLaws0 := vga_laws) c1 Hr1 ltac:(by rewrite Ea)) as ([] & c2 & E2 & Hrep).
  apply wp_bind. exists tt, c2. split; [exact E2|].
  destruct (init_frames eq stubs_frame c1 tt c2 E2) as [Hcon Ehw].
  destruct (print_wp vga_text_ops (ConsoleLaws0 := vga_laws) (console_fallback_putc fuel) late r2 _ c2 Hrep Hn Hfit) as ([] & c3 & E3 & _).
  exists tt, c3. split; [exact E3|]. destruct (print_dark fuel _ c2 Hcon tt c3 E3) as [_ Ehw3].
  by rewrite <- Ehw3, <- Ehw.
Qed.

(** *** A UART whose FIFO is only known to be empty after a read of the flags *)
Record demo_line := DemoLine { d_sent : list Z; d_level : nat }.
#[export] Instance demo_line_regs : Regs32 demo_line :=
  {| reg_read := λ a d, if a =? PL011_BASE_DEFAULT + REG_FR then (0, DemoLine (d_sent d) 0) else (0, d);
     reg_write := λ a v d, if a =? PL011_BASE_DEFAULT then DemoLine (d_sent d ++ [v]) (S (d_level d)) else d |}.
#[export] Instance demo_line_uart : Uart demo_line.
Proof.
  refine {| at_base := PL011_BASE_DEFAULT; polls := 1; sent := d_sent; level := d_level |}; try done. by left.
Defined.

Definition demo_arm_console : console (vga (pl011 demo_line)) :=
  console_boot (Vga (Window (zeros 2000) true) (Pl011 PL011_BASE_DEFAULT PL011_BASE_DEFAULT (DemoLine [] 7))).

Lemma arm_console_witness :
  let early := chars "mem 512" ++ [10] in
  let late := chars "ready" in
  wp (print 1 (early ++ 0 :: []) ;; console_init ;; print 1 (late ++ 0 :: []))
    (λ _ c2, sent (dev (vga_hw (display c2))) = chars "mem 512" ++ [13; 10]) demo_arm_console.
Proof.
  intros early late. destruct (arm_console (D := demo_line) 1 [] early late [] [] demo_arm_console) as [_ Hw];
    [cbn; lia|done|by split_and!|by split_and!|by split|unfold early; repeat constructor; by cbv|
     unfold late; repeat constructor; by cbv|by vm_compute|].
  exact Hw.
Defined.

(** ** The entry *)

Lemma bind_uart_wp {D} `{Regs32 D} b (s : arm D) :
  wp (on_console (on_display (on_uart (pl011_init b)))) (λ _ s', uart (vga_hw (display (a_console s'))) = b) s.
Proof. eexists tt, _. by split. Qed.

(** On every blob that encodes a device tree [arch_start] reaches [kernel_main]: the
    UART of the tree (or of the board, where it has none) is bound and
    programmed; the command line, the memory (128 MiB where the tree says
    nothing) and a heap of 8 MiB from the megabyte after the image on are
    handed over; and the clock starts at 0. *)
Theorem arm_hands_over {D} `{Regs32 D} blob root junk i fuel bss_end (s : arm D) :
  blob_ok blob root → rows_ok junk → node_info None root info0 = Some i → (tokens root < fuel)%nat →
  0 ≤ bss_end → bss_end + 2 ^ 20 < 2 ^ 32 →
  wp (arch_start fuel junk (Some blob) bss_end) (λ b s', ∃ line base,
    b = Some (BootInfo "arm64" line (u32 ((if (i_mem i).2 =? 0 then 134217728 else (i_mem i).2) / 1024)) base ARM_HEAP_BYTES) ∧
    a_boot s' = default boot_info_zero b ∧ a_clock s' = Clock 0 100 ∧
    (match i_args i with Some v => ∃ post, line = v ++ post | None => line = EMPTY end) ∧
    bss_end ≤ base < bss_end + 2 ^ 20 ∧ base mod 2 ^ 20 = 0 ∧
    uart (vga_hw (display (a_console s'))) = (if truthy (i_uart i) then i_uart i else PL011_BASE_DEFAULT)) s.
Proof.
  intros Hb Hj Hi Hf Hbss Hbss2. destruct (fdt_init_run blob root junk (a_fdt s) i fuel Hb Hj Hi Hf) as (r & Er & [_ _ Hm Hu _ Ha]).
  unfold arch_start. apply wp_bind, wp_gets. apply wp_bind. eapply wp_lift; [exact Er|]. apply wp_bind, wp_modify. cbn [fst snd negb].
  assert (Eline : ∃ line, fdt_chosen_bootargs blob r = Some line ∧ match i_args i with Some v => ∃ post, line = v ++ post | None => line = EMPTY end).
  { unfold fdt_chosen_bootargs. destruct (i_args i) as [v|].
    - destruct Ha as (p & post & -> & Hp). exists (v ++ post). split; [done|by exists post].
    - rewrite Ha. by exists EMPTY. }
  destruct Eline as (line & Eline & Hline).
  wp_apply bind_uart_wp. intros _ s1 Hs1. apply wp_bind. eapply wp_lift; [exact Eline|].
  unfold fdt_memory_base. destruct (i_mem i) as [mb ms]. injection Hm as Emb Ems. rewrite Ems. cbn [snd]. apply wp_bind, wp_modify, wp_ret.
  set (base := u32 (Z.land _ _)). exists line, base. split; [done|]. split; [done|]. split; [done|]. split; [exact Hline|].
  assert (Ebase : base = (bss_end + 0xFFFFF) / 2 ^ 20 * 2 ^ 20).
  { unfold base. rewrite (u64_small (_ + _)) by lia. change (u64 (Z.lnot 0xFFFFF)) with (Z.shiftl (Z.ones (64 - 20)) 20).
    rewrite round_down by lia. apply u32_small. mod_lia. }
  rewrite Ebase. split; [mod_lia|]. split; [apply Z.mod_mul; lia|].
  cbn [a_console]. rewrite Hs1. unfold fdt_uart_base. by rewrite Hu.
Qed.

Definition demo_arm : arm demo_line := Arm fdt_reset demo_arm_console clock_boot boot_info_zero.

Lemma arm_hands_over_witness :
  wp (arch_start 30 demo_junk (Some demo_blob) 0x40123456) (λ b s',
    b = Some (BootInfo "arm64" EMPTY 131072 0x40200000 ARM_HEAP_BYTES) ∧ a_clock s' = Clock 0 100) demo_arm.
Proof.
  eapply wp_mono.
  - apply (arm_hands_over demo_blob demo_tree demo_junk (Info 2 2 None (0, 0) 0 2) 30 0x40123456 demo_arm);
      [exact demo_blob_ok|exact demo_rows|by vm_compute|apply Nat.ltb_lt; by vm_compute|done|done].
  - intros b s' (line & base & -> & _ & Hc & Hl & Hb & Hm & _). cbn in Hl. subst line. split; [|exact Hc].
    assert (base = 0x40200000) as ->; [|reflexivity]. change (2 ^ 20) with 1048576 in *. revert Hm Hb. mod_lia.
Defined.
