(* ===== verification/Platform.v ===== *)
(** * drivers/platform: embedded controller, ThinkPad, keyboard light

    x86/ec.c talks to the embedded controller behind ports 0x62 and 0x66 with
    bounded polls; x86/lenovo/thinkpad.c reads sensors through it;
    kbd_light.c keeps the one backend that claimed the keyboard light. Messages
    are left out. *)
From S2P Require Import Prelude KString Ports.

Definition EC_DATA : Z := 0x62.
Definition EC_CMD : Z := 0x66.
Definition ST_OBF : Z := 0x01.
Definition ST_IBF : Z := 0x02.
Definition CMD_READ : Z := 0x80.
Definition CMD_WRITE : Z := 0x81.
Definition EC_SPINS : Z := 200000.

(** ** x86/ec.c *)

Section ec.
Context {S P : Type} `{Ports P, HasPorts S P}.

Definition wait_ibf_clear : M S bool :=
  let* r := spin EC_SPINS (let* v := io_inb EC_CMD in ret (if negb (has v ST_IBF) then Some true else None)) in
  ret (match r with Some b => b | None => false end).

Definition wait_obf_set : M S bool :=
  let* r := spin EC_SPINS (let* v := io_inb EC_CMD in ret (if has v ST_OBF then Some true else None)) in
  ret (match r with Some b => b | None => false end).

(** The value is stored only on success: [None] is false. *)
Definition ec_read (reg : Z) : M S (option Z) :=
  let* ok := wait_ibf_clear in
  if negb ok then ret None
  else
    io_outb EC_CMD CMD_READ ;;
    io_wait ;;
    let* ok := wait_ibf_clear in
    if negb ok then ret None
    else
      io_outb EC_DATA reg ;;
      io_wait ;;
      let* ok := wait_obf_set in
      if negb ok then ret None
      else
        let* v := io_inb EC_DATA in
        ret (Some v).

Definition ec_write (reg val : Z) : M S bool :=
  let* ok := wait_ibf_clear in
  if negb ok then ret false
  else
    io_outb EC_CMD CMD_WRITE ;;
    io_wait ;;
    let* ok := wait_ibf_clear in
    if negb ok then ret false
    else
      io_outb EC_DATA reg ;;
      io_wait ;;
      let* ok := wait_ibf_clear in
      if negb ok then ret false
      else
        io_outb EC_DATA val ;;
        io_wait ;;
        wait_obf_set ;;
        io_inb EC_DATA ;;
        ret true.

Definition ec_probe : M S bool :=
  let* v := ec_read 0x00 in
  ret (match v with Some _ => true | None => false end).
End ec.

(** ** x86/lenovo/thinkpad.c *)

Record tp_battery := TpBattery {
  percent : Z;
  voltage_mv : Z;
  power_mw : Z;
  charging : bool;
  discharging : bool;
  present : bool;
}.

Section thinkpad.
Context {P : Type} `{Ports P}.

Record thinkpad := Thinkpad {
  is_thinkpad : bool;
  ec_ok : bool;
  fanctl_enabled : bool;
  tp_hw : P;
}.
Definition thinkpad_boot (p : P) : thinkpad := Thinkpad false false false p.

#[export] Instance thinkpad_ports : HasPorts thinkpad P :=
  {| ports := tp_hw; set_ports := λ p s, Thinkpad (is_thinkpad s) (ec_ok s) (fanctl_enabled s) p |}.

Definition online : M thinkpad bool := gets (λ s, is_thinkpad s && ec_ok s).

Definition tp_fan_rpm : M thinkpad Z :=
  let* on := online in
  if negb on then ret 0
  else
    let* lo := ec_read 0x84 in
    match lo with
    | None => ret 0
    | Some lo =>
        let* hi := ec_read 0x85 in
        match hi with
        | None => ret 0
        | Some _ =>
            let* rpm := if truthy lo then udiv 491520 lo else ret 0 in
            ret (if (500 <? rpm) && (rpm <? 12000) then rpm else 0)
        end
    end.

Definition tp_cpu_temp_c : M thinkpad Z :=
  let* on := online in
  if negb on then ret (-1)
  else
    let* raw := ec_read 0x78 in
    match raw with
    | None => ret (-1)
    | Some raw => if (raw <? 10) || (110 <? raw) then ret (-1) else ret raw
    end.

(** The reads of [tp_battery_status], in their order; it fails with the first
    that does. *)
Fixpoint ec_reads (regs : list Z) : M thinkpad (option (list Z)) :=
  match regs with
  | [] => ret (Some [])
  | r :: regs =>
      let* v := ec_read r in
      match v with
      | None => ret None
      | Some v => let* vs := ec_reads regs in ret (cons v <$> vs)
      end
  end.

(** [out] is what the caller's structure holds before; a NULL one is [None]. *)
Definition tp_battery_status (out : option tp_battery) (index : Z) : M thinkpad (option tp_battery) :=
  let* on := online in
  match out with
  | None => ret None
  | Some out =>
      if negb on then ret None
      else
        let base := if index =? 1 then 0xD0 else 0xC0 in
        let* vs := ec_reads (map (λ o, u8 (base + o)) [0x02; 0x08; 0x09; 0x0A; 0x0B]) in
        match vs with
        | Some [status; v_hi; v_lo; p_hi; p_lo] =>
            let mv := Z.lor (Z.shiftl v_hi 8) v_lo in
            let mw := Z.lor (Z.shiftl p_hi 8) p_lo / 100 in
            if (mv <? 5000) || (20000 <? mv) then ret None
            else ret (Some (TpBattery (percent out) (u16 mv) (if mw <? 150000 then mw else 0)
              (has status 2) (has status 1) (truthy status)))
        | _ => ret None
        end
  end.

Definition tp_fan_set_level (level : Z) : M thinkpad bool :=
  let* on := online in
  if negb on then ret false
  else
    let* ctl := gets fanctl_enabled in
    if negb ctl || (7 <? level) then ret false
    else ec_write 0x2F (u8 (Z.lor level 0x40)).

(** [smbios_vendor] and [smbios_product] are arguments, as buffers. *)
Definition thinkpad_init (vendor product : list Z) (allow_fan_control : bool) : M thinkpad unit :=
  modify (λ s, Thinkpad false false allow_fan_control (tp_hw s)) ;;
  let* v1 := lift (k_strstr vendor (chars "LENOVO" ++ [0])) in
  let* v2 := match v1 with Some _ => ret v1 | None => lift (k_strstr vendor (chars "IBM" ++ [0])) end in
  let* v3 := match v2 with Some _ => ret v2 | None => lift (k_strstr product (chars "ThinkPad" ++ [0])) end in
  match v3 with
  | None => ret tt
  | Some _ =>
      modify (λ s, Thinkpad true (ec_ok s) (fanctl_enabled s) (tp_hw s)) ;;
      let* ok := ec_probe in
      modify (λ s, Thinkpad (is_thinkpad s) ok (fanctl_enabled s) (tp_hw s)) ;;
      if ok then tp_cpu_temp_c ;; ret tt else ret tt
  end.
End thinkpad.
Arguments thinkpad : clear implicits.

(** ** kbd_light.c *)

Section kbd_light.
Context {S : Type}.

(** A backend's functions; a NULL pointer is [None]. *)
Record kbd_light_backend := KbdLightBackend {
  probe : option (M S bool);
  set_level : option (Z → M S Z);
  get_level : option (M S (Z * Z));
  max_level : Z;
}.
Record kbd_light := KbdLight { active : option kbd_light_backend; machine : S }.

Definition on_machine {A} (m : M S A) : M kbd_light A := λ s,
  '(a, x) ← m (machine s); Some (a, KbdLight (active s) x).

Definition kbd_light_register (be : option kbd_light_backend) : M kbd_light bool :=
  match be with
  | None => ret false
  | Some be =>
      match probe be, set_level be with
      | Some probe, Some _ =>
          let* a := gets active in
          match a with
          | Some _ => ret false
          | None =>
              let* ok := on_machine probe in
              if negb ok then ret false
              else
                modify (λ s, KbdLight (Some be) (machine s)) ;;
                ret true
          end
      | _, _ => ret false
      end
  end.

Definition kbd_light_present : M kbd_light bool :=
  gets (λ s, match active s with Some _ => true | None => false end).
Definition kbd_light_max : M kbd_light Z :=
  gets (λ s, match active s with Some be => max_level be | None => 0 end).

(** A registered backend has [set_level]; without it the call would be one
    through NULL. *)
Definition kbd_light_set (level : Z) : M kbd_light Z :=
  let* a := gets active in
  match a with
  | None => ret (-1)
  | Some be =>
      if max_level be <? level then ret (-1)
      else match set_level be with Some f => on_machine (f level) | None => fault end
  end.

(** [get_level] returns a code, 0 for success, and the level. *)
Definition kbd_light_get : M kbd_light Z :=
  let* a := gets active in
  match a with
  | Some be =>
      match get_level be with
      | Some f =>
          let* r := on_machine f in
          let '(rc, lvl) := r in
          ret (if truthy rc then -1 else lvl)
      | None => ret (-1)
      end
  | None => ret (-1)
  end.
End kbd_light.
Arguments kbd_light_backend : clear implicits.
Arguments kbd_light : clear implicits.

(** ** The embedded controller as an interface

    It holds 256 registers. A command waits for a register number, a write then
    for a value; what a read asked for stays in the output buffer until it is
    taken. After every byte the controller is busy for a bounded number of polls. *)
Inductive ec_phase := Idle | Want (write : bool) | Full (v : Z) | WantVal (reg : Z).

Class EmbeddedController (P : Type) `{Ports P} := {
  ecr : P → Z → Z;
  phase : P → ec_phase;
  busy : P → nat;
  law_busy : ∀ p, Z.of_nat (busy p) < EC_SPINS;
  law_status : ∀ p, let '(v, p') := inb EC_CMD p in
    has v ST_IBF = negb (Nat.eqb (busy p) 0) ∧
    has v ST_OBF = (match phase p with Full _ => Nat.eqb (busy p) 0 | _ => false end) ∧
    ecr p' = ecr p ∧ phase p' = phase p ∧ busy p' = pred (busy p);
  law_cmd : ∀ p w, busy p = 0%nat → let p' := outb EC_CMD (if w : bool then CMD_WRITE else CMD_READ) p in
    phase p' = Want w ∧ ecr p' = ecr p;
  law_ask : ∀ p r, busy p = 0%nat → phase p = Want false → let p' := outb EC_DATA r p in
    phase p' = Full (ecr p r) ∧ ecr p' = ecr p;
  law_select : ∀ p r, busy p = 0%nat → phase p = Want true → let p' := outb EC_DATA r p in
    phase p' = WantVal r ∧ ecr p' = ecr p;
  law_store : ∀ p r v, busy p = 0%nat → phase p = WantVal r → let p' := outb EC_DATA v p in
    phase p' = Idle ∧ ecr p' = λ j, if j =? r then v else ecr p j;
  law_take : ∀ p, let '(v, p') := inb EC_DATA p in
    (∀ x, phase p = Full x → v = x) ∧ phase p' = Idle ∧ ecr p' = ecr p;
  law_iowait : ∀ p, let p' := outb 0x80 0 p in ecr p' = ecr p ∧ phase p' = phase p;
}.

Section controller.
Context {S P : Type} `{EmbeddedController P, HasPorts S P, !LawfulPorts S P}.

(** The hardware is now in phase [f], with registers [r]. *)
Definition ec_at (r : Z → Z) (f : ec_phase) (s s' : S) : Prop := ∃ p, s' = set_ports p s ∧ ecr p = r ∧ phase p = f.

Lemma poll_wp (s : S) : wp (io_inb EC_CMD) (λ v s', ∃ p, s' = set_ports p s ∧
  has v ST_IBF = negb (Nat.eqb (busy (ports s)) 0) ∧
  has v ST_OBF = (match phase (ports s) with Full _ => Nat.eqb (busy (ports s)) 0 | _ => false end) ∧
  ecr p = ecr (ports s) ∧ phase p = phase (ports s) ∧ busy p = pred (busy (ports s))) s.
Proof.
  unfold io_inb, io_read. change (u16 EC_CMD) with EC_CMD. pose proof (law_status (ports s)) as Hl.
  destruct (inb EC_CMD (ports s)) as [v p] eqn:E. exists v, (set_ports p s). rewrite E. split; [done|]. exists p. tauto.
Qed.

Lemma ibf_loop n : ∀ i (s : S), (busy (ports s) < n)%nat →
  wp (for_ i n (λ _, let* v := io_inb EC_CMD in ret (if negb (has v ST_IBF) then Some true else None)))
    (λ r s', r = Some true ∧ ∃ p, s' = set_ports p s ∧ ecr p = ecr (ports s) ∧ phase p = phase (ports s) ∧ busy p = 0%nat) s.
Proof.
  induction n as [|n IH]; intros i s Hb; [lia|]. cbn [for_]. apply wp_bind. wp_apply poll_wp.
  intros v s1 (p & -> & Hibf & _ & Er & Ep & Eb). rewrite Hibf, negb_involutive. apply wp_ret.
  destruct (Nat.eqb_spec (busy (ports s)) 0) as [E0|E0].
  - apply wp_ret. split; [done|]. exists p. rewrite Eb, E0. done.
  - eapply wp_mono; [apply IH; rewrite ports_set; lia|]. intros r s2 (-> & q & -> & Er2 & Ep2 & Eb2).
    rewrite ports_set in *. split; [done|]. exists q. rewrite set_set. split; [done|]. by rewrite Er2, Ep2.
Qed.

Lemma wait_ibf_wp (s : S) : wp wait_ibf_clear (λ ok s', ok = true ∧
  ∃ p, s' = set_ports p s ∧ ecr p = ecr (ports s) ∧ phase p = phase (ports s) ∧ busy p = 0%nat) s.
Proof.
  unfold wait_ibf_clear. apply wp_bind. unfold wp at 1. rewrite spin_for.
  destruct (ibf_loop (Z.to_nat EC_SPINS) 0 s) as (r & s' & E & -> & Hs'); [pose proof (law_busy (ports s)); lia|].
  exists (Some true), s'. split; [exact E|]. by apply wp_ret.
Qed.

Lemma obf_loop n x : ∀ i (s : S), (busy (ports s) < n)%nat → phase (ports s) = Full x →
  wp (for_ i n (λ _, let* v := io_inb EC_CMD in ret (if has v ST_OBF then Some true else None)))
    (λ r s', r = Some true ∧ ec_at (ecr (ports s)) (Full x) s s') s.
Proof.
  induction n as [|n IH]; intros i s Hb Hf; [lia|]. cbn [for_]. apply wp_bind. wp_apply poll_wp.
  intros v s1 (p & -> & _ & Hobf & Er & Ep & Eb). rewrite Hobf, Hf. apply wp_ret.
  destruct (Nat.eqb_spec (busy (ports s)) 0) as [E0|E0].
  - apply wp_ret. split; [done|]. exists p. by rewrite Ep.
  - eapply wp_mono; [apply IH; rewrite ports_set; [lia|congruence]|]. intros r s2 (-> & q & -> & Er2 & Ep2).
    rewrite ports_set in *. split; [done|]. exists q. rewrite set_set. split; [done|]. by rewrite Er2.
Qed.

Lemma no_obf_loop n : ∀ i (s : S), phase (ports s) = Idle →
  wp (for_ i n (λ _, let* v := io_inb EC_CMD in ret (if has v ST_OBF then Some true else None)))
    (λ r s', r = None ∧ ∃ p, s' = set_ports p s ∧ ecr p = ecr (ports s) ∧ phase p = Idle) s.
Proof.
  induction n as [|n IH]; intros i s Hf.
  { apply wp_ret. split; [done|]. exists (ports s). split; [|done]. apply set_same. }
  cbn [for_]. apply wp_bind. wp_apply poll_wp. intros v s1 (p & -> & _ & Hobf & Er & Ep & Eb). rewrite Hobf, Hf. apply wp_ret.
  eapply wp_mono; [apply IH; rewrite ports_set; congruence|]. intros r s2 (-> & q & -> & Er2 & Ep2).
  rewrite ports_set in *. split; [done|]. exists q. rewrite set_set. split; [done|]. by rewrite Er2.
Qed.

(** A byte to the controller and the delay after it, then the rest. *)
Lemma send_wp {A} port v (k : M S A) Q (s : S) :
  (∀ p, ecr p = ecr (outb (u16 port) v (ports s)) → phase p = phase (outb (u16 port) v (ports s)) → wp k Q (set_ports p s)) →
  wp (io_outb port v ;; io_wait ;; k) Q s.
Proof.
  intros Hk. unfold io_wait, io_outb, io_write. apply wp_bind, wp_modify, wp_bind, wp_modify.
  rewrite set_set, ports_set. change (u16 0x80) with 0x80.
  destruct (law_iowait (outb (u16 port) v (ports s))) as [E1 E2]. by apply Hk.
Qed.

Lemma take_wp (s : S) : wp (io_inb EC_DATA) (λ v s', (∀ x, phase (ports s) = Full x → v = x) ∧
  ec_at (ecr (ports s)) Idle s s') s.
Proof.
  unfold io_inb, io_read. change (u16 EC_DATA) with EC_DATA. pose proof (law_take (ports s)) as Hl.
  destruct (inb EC_DATA (ports s)) as [v p] eqn:E. exists v, (set_ports p s). rewrite E. split; [done|].
  destruct Hl as (Hv & Hp & Hr). split; [done|]. by exists p.
Qed.

Lemma wait_obf_wp x (s : S) : phase (ports s) = Full x →
  wp wait_obf_set (λ ok s', ok = true ∧ ec_at (ecr (ports s)) (Full x) s s') s.
Proof.
  intros Hf. unfold wait_obf_set. apply wp_bind. unfold wp at 1. rewrite spin_for.
  destruct (obf_loop (Z.to_nat EC_SPINS) x 0 s) as (r & s' & E & -> & Hs'); [pose proof (law_busy (ports s)); lia|done|].
  exists (Some true), s'. split; [exact E|]. by apply wp_ret.
Qed.
Lemma wait_no_obf_wp (s : S) : phase (ports s) = Idle →
  wp wait_obf_set (λ _ s', ec_at (ecr (ports s)) Idle s s') s.
Proof.
  intros Hf. unfold wait_obf_set. apply wp_bind. unfold wp at 1. rewrite spin_for.
  destruct (no_obf_loop (Z.to_nat EC_SPINS) 0 s Hf) as (r & s' & E & -> & Hs').
  exists None, s'. split; [exact E|]. by apply wp_ret.
Qed.

Lemma ec_read_wp reg (s : S) :
  wp (ec_read reg) (λ v s', v = Some (ecr (ports s) reg) ∧ ec_at (ecr (ports s)) Idle s s') s.
Proof.
  unfold ec_read. wp_apply wait_ibf_wp. intros ok s1 (-> & p1 & -> & R1 & _ & B1). cbn [negb].
  apply send_wp. rewrite ports_set. change (u16 EC_CMD) with EC_CMD.
  destruct (law_cmd p1 false B1) as [C1 C2]. intros p2 R2 F2. rewrite set_set.
  wp_apply wait_ibf_wp. rewrite ports_set. intros ok s2 (-> & p3 & -> & R3 & F3 & B3). cbn [negb].
  apply send_wp. rewrite set_set, ports_set. change (u16 EC_DATA) with EC_DATA.
  destruct (law_ask p3 reg B3) as [D1 D2]; [congruence|]. intros p4 R4 F4. rewrite set_set.
  wp_apply (wait_obf_wp (ecr p3 reg)); [rewrite ports_set; congruence|]. rewrite ports_set.
  intros ok s3 (-> & p5 & -> & R5 & F5). rewrite set_set. cbn [negb]. wp_apply take_wp. rewrite ports_set.
  intros v s4 (Hv & p6 & -> & R6 & F6). apply wp_ret. rewrite set_set.
  assert (E : ecr p3 = ecr (ports s)) by congruence. split; [by rewrite (Hv _ F5), E|].
  exists p6. split; [done|]. split; congruence.
Qed.

Lemma ec_write_wp reg v (s : S) :
  wp (ec_write reg v) (λ ok s', ok = true ∧ ec_at (λ j, if j =? reg then v else ecr (ports s) j) Idle s s') s.
Proof.
  unfold ec_write. wp_apply wait_ibf_wp. intros ok s1 (-> & p1 & -> & R1 & _ & B1). cbn [negb].
  apply send_wp. rewrite ports_set. change (u16 EC_CMD) with EC_CMD.
  destruct (law_cmd p1 true B1) as [C1 C2]. intros p2 R2 F2. rewrite set_set.
  wp_apply wait_ibf_wp. rewrite ports_set. intros ok s2 (-> & p3 & -> & R3 & F3 & B3). cbn [negb].
  apply send_wp. rewrite set_set, ports_set. change (u16 EC_DATA) with EC_DATA.
  destruct (law_select p3 reg B3) as [D1 D2]; [congruence|]. intros p4 R4 F4. rewrite set_set.
  wp_apply wait_ibf_wp. rewrite ports_set. intros ok s3 (-> & p5 & -> & R5 & F5 & B5). cbn [negb].
  apply send_wp. rewrite set_set, ports_set. change (u16 EC_DATA) with EC_DATA.
  destruct (law_store p5 reg v B5) as [G1 G2]; [congruence|]. intros p6 R6 F6. rewrite set_set.
  wp_apply wait_no_obf_wp; [rewrite ports_set; congruence|]. rewrite ports_set.
  intros _ s4 (p7 & -> & R7 & F7). rewrite set_set. wp_apply take_wp. rewrite ports_set.
  intros x s5 (_ & p8 & -> & R8 & F8). apply wp_ret. rewrite set_set. split; [done|].
  exists p8. split; [done|]. split; [|done]. rewrite R8, R7, R6, G2. assert (E : ecr p5 = ecr (ports s)) by congruence.
  by rewrite E.
Qed.
End controller.

(** ** On any hardware *)

Section any_hardware.
Context {S P : Type} `{Ports P, HasPorts S P}.

Lemma io_inb_total port (s : S) : wp (io_inb port) (λ _ _, True) s.
Proof. unfold io_inb, io_read, wp. destruct (inb (u16 port) (ports s)) as [v p]. by eauto. Qed.
Lemma io_outb_total port v (s : S) : wp (io_outb port v) (λ _ _, True) s.
Proof. by apply wp_modify. Qed.

Lemma spin_total {R} n (body : M S (option R)) : (∀ s, wp body (λ _ _, True) s) → ∀ s, wp (spin n body) (λ _ _, True) s.
Proof.
  intros Hb s. unfold wp at 1. rewrite spin_for. apply (wp_for (λ _ _, True)); [done|done|].
  intros j s1 _ _. eapply wp_mono; [apply Hb|]. by intros [x|] s2.
Qed.
Lemma wait_total (s : S) : wp wait_ibf_clear (λ _ _, True) s ∧ wp wait_obf_set (λ _ _, True) s.
Proof.
  split; unfold wait_ibf_clear, wait_obf_set;
    (eapply wp_call; [apply spin_total|by intros; apply wp_ret]); intros s1;
    (eapply wp_call; [apply io_inb_total|by intros; apply wp_ret]).
Qed.

(** The reads end, whatever answers: the polls are bounded. *)
Lemma ec_read_total reg (s : S) : wp (ec_read reg) (λ _ _, True) s.
Proof.
  unfold ec_read. wp_apply (proj1 (wait_total s)). intros [] s1 _; cbn [negb]; [|by apply wp_ret].
  wp_apply io_outb_total. intros _ s2 _. unfold io_wait. wp_apply io_outb_total. intros _ s3 _.
  wp_apply (proj1 (wait_total s3)). intros [] s4 _; cbn [negb]; [|by apply wp_ret].
  wp_apply io_outb_total. intros _ s5 _. wp_apply io_outb_total. intros _ s6 _.
  wp_apply (proj2 (wait_total s6)). intros [] s7 _; cbn [negb]; [|by apply wp_ret].
  wp_apply io_inb_total. intros v s8 _. by apply wp_ret.
Qed.
End any_hardware.

Lemma ec_reads_total {P} `{Ports P} regs : ∀ s : thinkpad P,
  wp (ec_reads regs) (λ vs _, ∀ l, vs = Some l → length l = length regs) s.
Proof.
  induction regs as [|r regs IH]; intros s; cbn [ec_reads]; [apply wp_ret; by intros l [= <-]|].
  wp_apply ec_read_total. intros [v|] s1 _; [|by apply wp_ret].
  wp_apply IH. intros vs s2 Hvs. apply wp_ret. intros l El. destruct vs as [vs|]; [|done].
  injection El as <-. cbn. by rewrite (Hvs vs).
Qed.

(** ** The theorems *)

(** C29: Round trip. With a controller that keeps the protocol, a byte written to a
    register is read back from it, every other register reads what it held, and
    both calls report success: the polls are long enough. *)
Theorem ec_write_read {S P} `{EmbeddedController P, HasPorts S P, !LawfulPorts S P} reg v reg' (s : S) :
  wp (let* ok := ec_write reg v in let* x := ec_read reg' in ret (ok, x))
    (λ r _, r = (true, Some (if reg' =? reg then v else ecr (ports s) reg'))) s.
Proof.
  wp_apply ec_write_wp. intros ok s1 (-> & p & -> & Er & _). wp_apply ec_read_wp. rewrite ports_set, Er.
  intros x s2 (-> & _). by apply wp_ret.
Qed.

(** Bounds, on every hardware. Whatever answers on the ports, reading the sensors
    terminates; the fan speed is 0 or between 500 and 12000, the temperature is -1
    or between 10 and 110, and a battery is reported only with 5 to 20 volts. The
    fan is not touched when its control was not allowed or the level exceeds 7, and
    nothing is touched on a machine that is not a ThinkPad. *)
Theorem thinkpad_plausible {P} `{Ports P} (s : thinkpad P) :
  wp tp_fan_rpm (λ r _, r = 0 ∨ 500 < r < 12000) s ∧
  wp tp_cpu_temp_c (λ t _, t = -1 ∨ 10 ≤ t ≤ 110) s ∧
  (∀ out i, wp (tp_battery_status out i) (λ b _, match b with
     | Some b => 5000 ≤ voltage_mv b ≤ 20000 ∧ power_mw b < 150000 | None => True end) s) ∧
  (∀ level, fanctl_enabled s = false ∨ 7 < level → tp_fan_set_level level s = Some (false, s)) ∧
  (is_thinkpad s = false → tp_fan_rpm s = Some (0, s) ∧ tp_cpu_temp_c s = Some (-1, s) ∧
     ∀ out i, tp_battery_status out i s = Some (None, s)).
Proof.
  split_and!.
  - unfold tp_fan_rpm, online. wp_pure. case_if; [apply wp_ret; by left|].
    wp_apply ec_read_total. intros [lo|] s1 _; [|apply wp_ret; by left].
    wp_apply ec_read_total. intros [hi|] s2 _; [|apply wp_ret; by left].
    apply wp_bind. unfold truthy. destruct (Z.eqb_spec lo 0); cbn [negb]; [apply wp_ret; apply wp_ret; by left|].
    apply wp_udiv; [done|]. apply wp_ret. case_if; bool_prop; [right; lia|by left].
  - unfold tp_cpu_temp_c, online. wp_pure. case_if; [apply wp_ret; by left|].
    wp_apply ec_read_total. intros [raw|] s1 _; [|apply wp_ret; by left].
    case_if; bool_prop; apply wp_ret; [by left|right; lia].
  - intros out i. unfold tp_battery_status, online. wp_pure. destruct out as [out|]; [|by apply wp_ret].
    case_if; [by apply wp_ret|]. cbv zeta. wp_apply ec_reads_total. intros vs s1 _.
    destruct vs as [[|status [|vh [|vl [|ph [|pl [|? ?]]]]]]|]; try by apply wp_ret.
    case_if; [by apply wp_ret|]. bool_prop. apply wp_ret. cbn [voltage_mv power_mw].
    rewrite u16_small by lia. split; [lia|]. case_if; bool_prop; lia.
  - intros level Hl. unfold tp_fan_set_level, online, bind, gets, ret.
    destruct (is_thinkpad s && ec_ok s); cbn [negb]; [|done].
    destruct Hl as [-> | Hl]; [done|]. rewrite (proj2 (Z.ltb_lt 7 level)) by done. by rewrite orb_true_r.
  - intros Ht. unfold tp_fan_rpm, tp_cpu_temp_c, tp_battery_status, online, bind, gets, ret. rewrite Ht. cbn [andb negb].
    split; [done|]. split; [done|]. by intros [].
Qed.

(** *** A concrete controller

    Busy for three polls after every byte. *)
Record demo_ec := DemoEc { d_regs : Z → Z; d_phase : ec_phase; d_busy : nat }.
Definition d_status (p : demo_ec) : Z :=
  if Nat.eqb (d_busy p) 0 then match d_phase p with Full _ => 1 | _ => 0 end else 2.
Definition d_data (v : Z) (p : demo_ec) : demo_ec :=
  match d_phase p with
  | Want false => DemoEc (d_regs p) (Full (d_regs p v)) 3
  | Want true => DemoEc (d_regs p) (WantVal v) 3
  | WantVal r => DemoEc (λ j, if j =? r then v else d_regs p j) Idle 3
  | _ => p
  end.
#[export] Instance demo_ec_ports : Ports demo_ec :=
  {| inb := λ port p,
       if port =? EC_CMD then (d_status p, DemoEc (d_regs p) (d_phase p) (pred (Nat.min 3 (d_busy p))))
       else if port =? EC_DATA then (match d_phase p with Full x => x | _ => 0 end, DemoEc (d_regs p) Idle (Nat.min 3 (d_busy p)))
       else (255, p);
     outb := λ port v p,
       if port =? EC_CMD then DemoEc (d_regs p) (Want (v =? CMD_WRITE)) 3
       else if port =? EC_DATA then d_data v p else p;
     inw := λ _ p, (65535, p); inl := λ _ p, (4294967295, p); outw := λ _ _ p, p; outl := λ _ _ p, p |}.

#[export] Instance demo_controller : EmbeddedController demo_ec.
Proof.
  refine {| ecr := d_regs; phase := d_phase; busy := λ p, Nat.min 3 (d_busy p) |}.
  - intros p. unfold EC_SPINS. lia.
  - intros [r f b]. by destruct f, b as [|[|[|b]]].
  - intros [r f b] [] _; done.
  - intros [r f b] x _ Hf. cbn in Hf. subst f. done.
  - intros [r f b] x _ Hf. cbn in Hf. subst f. done.
  - intros [r f b] x v _ Hf. cbn in Hf. subst f. done.
  - intros [r f b]. cbn. split; [|done]. by intros x ->.
  - done.
Defined.

Lemma ec_write_read_witness :
  wp (let* ok := ec_write 0x2F 0x47 in let* x := ec_read 0x2F in ret (ok, x))
    (λ r _, r = (true, Some 0x47)) (DemoEc (λ _, 0) (Full 9) 2).
Proof. apply (ec_write_read 0x2F 0x47 0x2F (DemoEc (λ _, 0) (Full 9) 2)). Defined.
