(* ===== verification/Frames.v ===== *)
(** * What the initialisers leave alone

    [keeps R m]: whatever state [m] runs from, the state it returns is related
    to it by [R]. With [R] about the hardware behind the ports ([cells_kept])
    this says that the drivers the boot initialises do not touch the CMOS
    memory. Nothing of the program is modelled here. *)
From S2P Require Import Prelude Ports Pci Input Cmos Ata Platform.
From S2P Require Alloc Blkdev Vram Console FbConsole Gpu Backlight Net E1000 Ext4Core Ext4Mount.

Open Scope c_scope.

Create HintDb keeps discriminated.
#[export] Hint Constants Opaque : keeps.

(** ** Relations kept by a computation *)
Section keeps.
Context {S : Type} (R : relation S) `{!PreOrder R}.

Definition keeps {A} (m : M S A) : Prop := ∀ s, wlp m (λ _ s', R s s') s.
(** Moreover what it returns satisfies [Q]. *)
Definition gives {A} (Q : A → Prop) (m : M S A) : Prop := ∀ s, wlp m (λ a s', Q a ∧ R s s') s.

Lemma keeps_ret {A} (a : A) : keeps (ret a).
Proof. intros s. by apply wlp_ret. Qed.
Lemma keeps_fault {A} : keeps (@fault S A).
Proof. intros s a s' E. discriminate E. Qed.
Lemma keeps_get : keeps get.
Proof. by intros s a s' [= _ <-]. Qed.
Lemma keeps_gets {A} (f : S → A) : keeps (gets f).
Proof. intros s. by apply wlp_gets. Qed.
Lemma keeps_lift {A} (o : option A) : keeps (lift o).
Proof. intros s. by apply wlp_lift. Qed.
Lemma keeps_modify f : (∀ s, R s (f s)) → keeps (modify f).
Proof. intros Hf s. by apply wlp_modify. Qed.
Lemma keeps_bind {A B} (m : M S A) (k : A → M S B) : keeps m → (∀ a, keeps (k a)) → keeps (bind m k).
Proof.
  intros Hm Hk s. eapply wlp_call; [apply Hm|]. intros a s1 H1. eapply wlp_mono; [apply Hk|].
  intros ? s2 H2. by trans s1.
Qed.
Lemma keeps_for {B} (body : Z → M S (option B)) n : (∀ i, keeps (body i)) → ∀ i, keeps (for_ i n body).
Proof.
  intros Hb. induction n as [|n IH]; intros i; cbn [for_]; [apply keeps_ret|].
  apply keeps_bind; [done|]. intros []; [apply keeps_ret|apply IH].
Qed.
Lemma keeps_spin {B} n (body : M S (option B)) : keeps body → keeps (spin n body).
Proof. intros Hb s a s'. rewrite spin_for. by apply keeps_for. Qed.

Lemma gives_ret {A} (Q : A → Prop) a : Q a → gives Q (ret a).
Proof. intros Ha s. by apply wlp_ret. Qed.
Lemma gives_bind {A B} Q (T : B → Prop) (m : M S A) (k : A → M S B) :
  gives Q m → (∀ a, Q a → gives T (k a)) → gives T (bind m k).
Proof.
  intros Hm Hk s. eapply wlp_call; [apply Hm|]. intros a s1 [Ha H1]. eapply wlp_mono; [by apply Hk|].
  intros b s2 [Hb H2]. split; [done|by trans s1].
Qed.
Lemma keeps_gives {A} (m : M S A) : keeps m → gives (λ _, True) m.
Proof. intros Hm s. eapply wlp_mono; [apply Hm|]. by split. Qed.
Lemma gives_after {A B} (T : B → Prop) (m : M S A) (k : A → M S B) :
  keeps m → (∀ a, gives T (k a)) → gives T (bind m k).
Proof. intros Hm Hk. eapply gives_bind; [by apply keeps_gives|auto]. Qed.
Lemma gives_keeps {A} (Q : A → Prop) (m : M S A) : gives Q m → keeps m.
Proof. intros Hm s. eapply wlp_mono; [apply Hm|]. by intros a s' []. Qed.
Lemma gives_lift {A} (Q : A → Prop) (o : option A) : (∀ a, o = Some a → Q a) → gives Q (lift o).
Proof. intros Ho s. apply wlp_lift. intros a E. split; [by apply Ho|done]. Qed.
End keeps.

(** One step into the code. *)
Ltac keeps_step :=
  lazymatch goal with
  | |- keeps _ (bind _ _) => apply keeps_bind; [apply _|..]
  | |- keeps _ (ret _) => apply keeps_ret; apply _
  | |- keeps _ (gets _) => apply keeps_gets; apply _
  | |- keeps _ get => apply keeps_get; apply _
  | |- keeps _ (lift _) => apply keeps_lift; apply _
  | |- keeps _ fault => apply keeps_fault
  | |- keeps _ (spin _ _) => apply keeps_spin; [apply _|]
  | |- keeps _ (for_ _ _ _) => apply keeps_for; [apply _|]
  | |- keeps _ (match ?x with _ => _ end) => destruct x
  | |- keeps _ (let _ := _ in _) => cbv zeta
  | |- keeps _ _ => solve [auto with keeps]
  | |- ∀ _, _ => intro; cbv beta
  end.
Ltac keeps := repeat keeps_step.

(** ** Port access beside the CMOS memory *)

(** Only single bytes written to the two ports of the clock chip can change its
    cells: not wider accesses elsewhere, not registers in memory. *)
Definition near_cmos (port : Z) : bool := (0x6D <=? port) && (port <=? 0x71).
Class CellsApart (P : Type) `{Nvram P} := {
  apart_inw : ∀ port p, near_cmos port = false → same_cells p (inw port p).2;
  apart_inl : ∀ port p, near_cmos port = false → same_cells p (inl port p).2;
  apart_outw : ∀ port v p, near_cmos port = false → same_cells p (outw port v p);
  apart_outl : ∀ port v p, near_cmos port = false → same_cells p (outl port v p);
}.

(** A relation that allows the hardware to change, but for those cells. *)
Class PortRel {S P : Type} `{Nvram P, HasPorts S P} (R : relation S) := {
  port_rel_order : PreOrder R;
  port_rel : ∀ s p, same_cells (ports s) p → R s (set_ports p s);
}.
#[export] Existing Instance port_rel_order.

Section ports.
Context {S P : Type} `{CellsApart P, HasPorts S P} (R : relation S) `{!PortRel R}.

Lemma inb_same port p : same_cells p (inb port p).2.
Proof.
  destruct (decide (port = CMOS_DATA)) as [->|Hp]; [|by intros j; apply law_in].
  pose proof (law_fetch p) as E. destruct (inb CMOS_DATA p) as [v p']. by destruct E.
Qed.
Lemma outb_same port v p : near_cmos port = false → same_cells p (outb port v p).
Proof. intros Hn. refine (proj2 (law_other port v p _ _)); intros ->; done. Qed.

Lemma io_read_keeps f port : (∀ p, same_cells p (f port p).2) → keeps R (io_read f port).
Proof.
  intros Hf s v s' E. unfold io_read in E. specialize (Hf (ports s)). destruct (f port (ports s)) as [x p].
  injection E as <- <-. by apply port_rel.
Qed.
Lemma io_write_keeps f port v : (∀ p, same_cells p (f port v p)) → keeps R (io_write f port v).
Proof. intros Hf s. apply wlp_modify. by apply port_rel. Qed.

Lemma io_inb_keeps port : keeps R (io_inb port).
Proof. apply io_read_keeps. intros p. apply inb_same. Qed.
Lemma io_inw_keeps port : near_cmos (u16 port) = false → keeps R (io_inw port).
Proof. intros Hp. apply io_read_keeps. intros p. by apply apart_inw. Qed.
Lemma io_inl_keeps port : near_cmos (u16 port) = false → keeps R (io_inl port).
Proof. intros Hp. apply io_read_keeps. intros p. by apply apart_inl. Qed.
Lemma io_outb_keeps port v : near_cmos (u16 port) = false → keeps R (io_outb port v).
Proof. intros Hp. apply io_write_keeps. intros p. by apply outb_same. Qed.
Lemma io_outw_keeps port v : near_cmos (u16 port) = false → keeps R (io_outw port v).
Proof. intros Hp. apply io_write_keeps. intros p. by apply apart_outw. Qed.
Lemma io_outl_keeps port v : near_cmos (u16 port) = false → keeps R (io_outl port v).
Proof. intros Hp. apply io_write_keeps. intros p. by apply apart_outl. Qed.
Lemma io_wait_keeps : keeps R io_wait.
Proof. by apply io_outb_keeps. Qed.
End ports.

(** The hardware, and nothing said of the rest. *)
Definition cells_kept {S P} `{Nvram P, HasPorts S P} (s s' : S) : Prop := same_cells (ports s) (ports s').
#[export] Instance cells_kept_rel {S P} `{Nvram P, HasPorts S P, !LawfulPorts S P} : PortRel (S := S) cells_kept.
Proof.
  split; [split; [by intros s|]|].
  - intros s1 s2 s3. unfold cells_kept. apply transitivity.
  - intros s p E. unfold cells_kept. by rewrite ports_set.
Qed.
#[export] Hint Extern 1 (keeps _ (io_inb _)) => apply io_inb_keeps; apply _ : keeps.
#[export] Hint Extern 1 (keeps _ io_wait) => apply io_wait_keeps; apply _ : keeps.
#[export] Hint Extern 1 (keeps cells_kept (modify _)) =>
  apply keeps_modify; intros; refine (_ : same_cells _ _); reflexivity : keeps.
#[export] Hint Extern 1 (keeps _ (io_inw _)) => apply io_inw_keeps; first [reflexivity | apply _] : keeps.
#[export] Hint Extern 1 (keeps _ (io_inl _)) => apply io_inl_keeps; first [reflexivity | apply _] : keeps.
#[export] Hint Extern 1 (keeps _ (io_outb _ _)) => apply io_outb_keeps; first [reflexivity | apply _] : keeps.
#[export] Hint Extern 1 (keeps _ (io_outw _ _)) => apply io_outw_keeps; first [reflexivity | apply _] : keeps.
#[export] Hint Extern 1 (keeps _ (io_outl _ _)) => apply io_outl_keeps; first [reflexivity | apply _] : keeps.

(** ** The drivers *)
Section drivers.
Context {P : Type} `{CellsApart P}.

#[export] Instance pci_lawful : LawfulPorts (pci P) P.
Proof. split; [done|done|by intros []]. Qed.
#[export] Instance thinkpad_lawful : LawfulPorts (thinkpad P) P.
Proof. split; [done|done|by intros []]. Qed.
#[export] Instance ata_lawful : LawfulPorts (ata P) P.
Proof. split; [done|done|by intros []]. Qed.

(** *** PCI *)
Lemma conf_read_keeps bus dev fn reg : keeps cells_kept (pci_conf_read bus dev fn reg).
Proof. unfold pci_conf_read. keeps. Qed.
Lemma conf_write_keeps bus dev fn reg v : keeps cells_kept (pci_conf_write bus dev fn reg v).
Proof. unfold pci_conf_write. keeps. Qed.
#[local] Hint Resolve conf_read_keeps conf_write_keeps : keeps.
Lemma bar_size_of_keeps d i : keeps cells_kept (bar_size_of d i).
Proof. unfold bar_size_of. keeps. Qed.
#[local] Hint Resolve bar_size_of_keeps : keeps.
Lemma read_bars_keeps n i d : keeps cells_kept (read_bars n i d).
Proof. revert i d. induction n; cbn [read_bars]; unfold read_bar; keeps. Qed.
#[local] Hint Resolve read_bars_keeps : keeps.
Lemma add_device_keeps bus dev fn : keeps cells_kept (add_device bus dev fn).
Proof. unfold add_device. keeps. Qed.
#[local] Hint Resolve add_device_keeps : keeps.
Lemma scan_functions_keeps scan bus dev fn n : (∀ b, keeps cells_kept (scan b)) → keeps cells_kept (scan_functions scan bus dev fn n).
Proof. intros Hs. revert fn. induction n; cbn [scan_functions]; unfold scan_function; keeps. Qed.
#[local] Hint Resolve scan_functions_keeps : keeps.
Lemma scan_slots_keeps scan bus dev n : (∀ b, keeps cells_kept (scan b)) → keeps cells_kept (scan_slots scan bus dev n).
Proof. intros Hs. revert dev. induction n; cbn [scan_slots]; unfold scan_slot; keeps. Qed.
Lemma scan_bus_keeps fuel bus : keeps cells_kept (pci_scan_bus fuel bus).
Proof. revert bus. induction fuel; intros bus; cbn [pci_scan_bus]; [keeps|by apply scan_slots_keeps]. Qed.
Lemma pci_init_keeps : keeps cells_kept pci_init.
Proof. pose proof scan_bus_keeps. unfold pci_init. keeps. Qed.

(** *** The embedded controller *)
Lemma wait_ibf_keeps : keeps cells_kept (wait_ibf_clear (S := thinkpad P)).
Proof. unfold wait_ibf_clear. keeps. Qed.
Lemma wait_obf_keeps : keeps cells_kept (wait_obf_set (S := thinkpad P)).
Proof. unfold wait_obf_set. keeps. Qed.
#[local] Hint Resolve wait_ibf_keeps wait_obf_keeps : keeps.
Lemma ec_read_keeps reg : keeps cells_kept (ec_read (S := thinkpad P) reg).
Proof. unfold ec_read. keeps. Qed.
#[local] Hint Resolve ec_read_keeps : keeps.
Lemma thinkpad_init_keeps vendor product fan : keeps cells_kept (thinkpad_init (P := P) vendor product fan).
Proof. unfold thinkpad_init, ec_probe, tp_cpu_temp_c, online. keeps. Qed.

(** *** Input: and an idle ring of the keyboard stays idle *)
Definition input_kept (s s' : input P) : Prop := cells_kept s s' ∧ (kbd_idle s → kbd_idle s').
#[export] Instance input_kept_rel : PortRel input_kept.
Proof.
  split; [split|].
  - by split.
  - intros s1 s2 s3 [E1 K1] [E2 K2]. split; [by trans s2|auto].
  - intros s p E. split; [by apply port_rel|done].
Qed.
#[local] Hint Extern 1 (keeps input_kept (modify _)) =>
  apply keeps_modify; intros; split; [refine (_ : same_cells _ _); reflexivity|done] : keeps.
Lemma wait_in_keeps : keeps input_kept (wait_in_ready (P := P)).
Proof. unfold wait_in_ready. keeps. Qed.
Lemma wait_out_keeps : keeps input_kept (wait_out_ready (P := P)).
Proof. unfold wait_out_ready. keeps. Qed.
#[local] Hint Resolve wait_in_keeps wait_out_keeps : keeps.
Lemma flush_output_keeps fuel : keeps input_kept (flush_output (P := P) fuel).
Proof. induction fuel; cbn [flush_output]; keeps. Qed.
Lemma controller_cmd_keeps c : keeps input_kept (controller_cmd (P := P) c).
Proof. unfold controller_cmd. keeps. Qed.
Lemma data_read_keeps : keeps input_kept (data_read (P := P)).
Proof. unfold data_read. keeps. Qed.
Lemma data_write_keeps v : keeps input_kept (data_write (P := P) v).
Proof. unfold data_write. keeps. Qed.
#[local] Hint Resolve flush_output_keeps controller_cmd_keeps data_read_keeps data_write_keeps : keeps.
Lemma aux_write_keeps v : keeps input_kept (ps2_aux_write (P := P) v).
Proof. unfold ps2_aux_write. keeps. Qed.
Lemma aux_read_keeps : keeps input_kept (ps2_aux_read (P := P)).
Proof. unfold ps2_aux_read. keeps. Qed.
#[local] Hint Resolve aux_write_keeps aux_read_keeps : keeps.
Lemma controller_init_keeps fuel : keeps input_kept (ps2_controller_init (P := P) fuel).
Proof. unfold ps2_controller_init. keeps. Qed.
Lemma keyboard_init_keeps : keeps input_kept (keyboard_init (P := P)).
Proof. unfold keyboard_init, enable_irq. keeps. Qed.
Lemma mouse_init_keeps : keeps input_kept (mouse_init (P := P)).
Proof. unfold mouse_init, enable_irq. keeps. Qed.
Lemma write_ack_keeps c : keeps input_kept (aux_write_ack (P := P) c).
Proof. unfold aux_write_ack. keeps. Qed.
Lemma read_within_keeps n : keeps input_kept (aux_read_within (P := P) n).
Proof. unfold aux_read_within. keeps. Qed.
#[local] Hint Resolve write_ack_keeps read_within_keeps : keeps.
Lemma knock_keeps l : keeps input_kept (knock (P := P) l).
Proof. induction l; cbn [knock]; keeps. Qed.
#[local] Hint Resolve knock_keeps : keeps.
Lemma synaptics_probe_keeps : keeps input_kept (synaptics_probe (P := P)).
Proof. unfold synaptics_probe, aux_read_byte. keeps. Qed.
Lemma serial_mouse_keeps : keeps input_kept (serial_mouse_probe (P := P)).
Proof. unfold serial_mouse_probe, uart_init. keeps. Qed.
Lemma axis_keeps n m t : keeps input_kept (axis_ticks (P := P) n m t).
Proof. revert t. induction n; intros t; cbn [axis_ticks]; keeps. Qed.
#[local] Hint Resolve axis_keeps : keeps.
Lemma gameport_keeps : keeps input_kept (gameport_probe (P := P)).
Proof. unfold gameport_probe, measure_axis. keeps. Qed.

(** *** ATA: and the drives stay where they were found *)
Definition drive_ok (d : ata_drive) : Prop :=
  near_cmos (u16 (ctl_base d)) = false ∧ ∀ r, 0 ≤ r < 8 → near_cmos (u16 (io_base d + r)) = false.
Lemma drive_ok_check d : near_cmos (u16 (ctl_base d)) = false →
  forallb (λ r, negb (near_cmos (u16 (io_base d + r)))) (seqZ 0 8) = true → drive_ok d.
Proof.
  intros Hc Hall. split; [done|]. intros j Hj. rewrite forallb_forall in Hall.
  apply negb_true_iff, Hall, list_elem_of_In, elem_of_seqZ. lia.
Qed.
Definition drives_ok (s : ata P) : Prop := Forall drive_ok (drives s).
Definition ata_kept (s s' : ata P) : Prop := cells_kept s s' ∧ (drives_ok s → drives_ok s').
#[export] Instance ata_kept_rel : PortRel ata_kept.
Proof.
  split; [split|].
  - by split.
  - intros s1 s2 s3 [E1 K1] [E2 K2]. split; [by trans s2|auto].
  - intros s p E. split; [by apply port_rel|done].
Qed.

Section drive.
Context (d : ata_drive) (Hd : drive_ok d).
#[local] Hint Extern 1 (keeps ata_kept (modify _)) =>
  apply keeps_modify; intros; split; [refine (_ : same_cells _ _); reflexivity|done] : keeps.
#[local] Hint Extern 1 (keeps _ (io_outb (io_base d + _) _)) => apply io_outb_keeps; [apply _..|by apply Hd] : keeps.
#[local] Hint Extern 1 (keeps _ (io_outb (ctl_base d) _)) => apply io_outb_keeps; [apply _..|apply Hd] : keeps.
#[local] Hint Extern 1 (keeps _ (io_inw (io_base d + _))) => apply io_inw_keeps; [apply _..|by apply Hd] : keeps.

Lemma status_of_keeps : keeps ata_kept (status_of d).
Proof. unfold status_of. keeps. Qed.
Lemma wait400ns_keeps : keeps ata_kept (wait400ns d).
Proof. unfold wait400ns. keeps. Qed.
#[local] Hint Resolve status_of_keeps wait400ns_keeps : keeps.
Lemma not_busy_keeps n : keeps ata_kept (wait_not_busy d n).
Proof. unfold wait_not_busy. keeps. Qed.
Lemma ready_keeps n : keeps ata_kept (wait_ready_for_data d n).
Proof. unfold wait_ready_for_data. keeps. Qed.
Lemma select_keeps : keeps ata_kept (select_drive d).
Proof. unfold select_drive. keeps. Qed.
#[local] Hint Resolve not_busy_keeps ready_keeps select_keeps : keeps.
Lemma reset_keeps : keeps ata_kept (reset_drive d).
Proof. unfold reset_drive. keeps. Qed.
Lemma read_words_keeps n : keeps ata_kept (read_words n d).
Proof. induction n; cbn [read_words]; keeps. Qed.
Lemma issue_keeps lba count cmd : keeps ata_kept (issue_lba48 d lba count cmd).
Proof. unfold issue_lba48. keeps. Qed.
#[local] Hint Resolve reset_keeps read_words_keeps issue_keeps : keeps.
Lemma move_in_keeps n idx i : keeps ata_kept (move_words n d idx i false).
Proof. revert i. induction n; intros i; cbn [move_words]; unfold get_buf, put_buf; keeps. Qed.
#[local] Hint Resolve move_in_keeps : keeps.
Lemma read_loop_keeps n idx lba i out : keeps ata_kept (read_loop n d idx lba i out).
Proof. revert i out. induction n; intros i out; cbn [read_loop]; unfold transfer_sector, get_buf; keeps. Qed.

(** A drive that is identified stays at its ports. *)
Lemma identify_gives : gives ata_kept (λ r, drive_ok r.2) (identify d).
Proof.
  unfold identify. do 7 (apply gives_after; [apply _|keeps|intros ?]). case_if; [by apply gives_ret, Hd; apply _|].
  apply gives_after; [apply _|keeps|intros mid]. apply gives_after; [apply _|keeps|intros []]; [by apply gives_ret, Hd; apply _|].
  apply gives_after; [apply _|keeps|intros rc]. case_if; [by apply gives_ret; [apply _|]|].
  apply gives_after; [apply _|keeps|intros id]. cbv zeta. repeat case_if; (apply gives_ret; [apply _|exact Hd]).
Qed.
Lemma put_drive_keeps idx : keeps ata_kept (put_drive idx d).
Proof.
  apply keeps_modify. intros s. split; [refine (_ : same_cells _ _); reflexivity|].
  intros Hs. by apply Forall_insert.
Qed.
End drive.

(** Every device in the registry is read through the ATA driver. *)
Definition ata_registry (r : Blkdev.registry (ata P)) : Prop :=
  Forall (λ dv, ∀ f, Blkdev.read_sectors dv = Some f → ∃ idx, f = readers idx) (Blkdev.devs r).

Lemma register_ata dv r b r' : (∀ f, Blkdev.read_sectors dv = Some f → ∃ idx, f = readers idx) →
  ata_registry r → Blkdev.blk_register (Some dv) r = Some (b, r') → ata_registry r'.
Proof.
  intros Hdv Hr E. unfold Blkdev.blk_register in E.
  destruct (Blkdev.read_sectors dv) as [f|] eqn:Ef; [|by injection E as _ <-].
  destruct (negb _); [by injection E as _ <-|]. destruct (_ || _); [by injection E as _ <-|].
  apply bind_Some in E as (nm & _ & E). cbv zeta in E. case_decide; [|done]. injection E as _ <-.
  by apply Forall_insert.
Qed.

Lemma probe_drive_gives idx io ctl prefix sl r : drive_ok (AtaDrive io ctl sl false 0 (zeros 41)) → ata_registry r →
  gives ata_kept (λ x, ∀ b r', x = Some (b, r') → ata_registry r') (probe_drive idx io ctl prefix sl r).
Proof.
  intros Hd Hr. unfold probe_drive.
  apply gives_after; [apply _|by apply put_drive_keeps|intros _].
  apply gives_after; [apply _|by apply reset_keeps|intros st]. case_if; [by apply gives_ret; [apply _|]|].
  eapply gives_bind; [apply _|by apply identify_gives|]. intros [ok d'] Hd'. cbn [snd] in Hd'.
  apply gives_after; [apply _|by apply put_drive_keeps|intros _].
  case_if; [by apply gives_ret; [apply _|]|].
  eapply gives_bind; [apply _|by apply gives_lift; [apply _|intros bd Ex; exact Ex]|]. intros bd Ebd.
  eapply gives_bind; [apply _|by apply gives_lift; [apply _|intros x Ex; exact Ex]|]. intros [b r1] Er.
  apply gives_ret; [apply _|]. intros ? ? [= -> ->]. eapply register_ata; [|exact Hr|exact Er].
  unfold drive_device in Ebd. apply bind_Some in Ebd as (nm & _ & Ebd). injection Ebd as <-.
  intros f [= <-]. by exists idx.
Qed.

Lemma ata_probe_gives r : ata_registry r → gives ata_kept ata_registry (ata_probe r).
Proof.
  intros Hr. unfold ata_probe.
  assert (Hb : Forall (λ '(io, ctl, _), ∀ sl, drive_ok (AtaDrive io ctl sl false 0 (zeros 41))) buses).
  { repeat constructor; by apply drive_ok_check. }
  generalize 0. revert r Hr. induction Hb as [|[[io ctl] prefix] bs Hd Hb IH]; intros r Hr idx; cbn [probe_buses].
  { by apply gives_ret; [apply _|]. }
  apply (gives_bind _ (λ x, ata_registry x.2)); [|intros [idx' r'] Hr'; by apply IH].
  clear IH Hb. generalize false. generalize 2%nat. intros n. revert idx r Hr.
  induction n as [|n IH]; intros idx r Hr sl; cbn [probe_bus]; [by apply gives_ret; [apply _|]|].
  case_if; [by apply gives_ret; [apply _|]|].
  eapply gives_bind; [apply _|by apply probe_drive_gives|]. intros [[[] r']|] Hx; [|apply gives_ret; [apply _|]|]; eauto.
Qed.

(** Reading a sector through the registry. *)
Lemma drv_read_calm idx lba n b (s : ata P) : drives_ok s →
  wlp (drv_read idx lba n b) (λ _ s', cells_kept s s' ∧ drives_ok s') s.
Proof.
  intros Hs. unfold drv_read.
  apply (wlp_call _ _ (λ d s', s' = s ∧ drive_ok d)).
  { unfold get_drive. wlp_pure. apply wlp_lift. intros d E. split; [done|]. by eapply (Forall_lookup_1 _ _ _ _ Hs). }
  intros d s' [-> Hd]. case_if; [by apply wlp_ret|].
  eapply wlp_mono; [by apply read_loop_keeps|]. intros _ s' [Hc Hk]. auto.
Qed.
Lemma blk_read_calm r dev lba n b (s s' : ata P) rc b' : ata_registry r → drives_ok s →
  Blkdev.blk_read r dev lba n b s = Some (rc, b', s') → cells_kept s s' ∧ drives_ok s'.
Proof.
  intros Hr Hs E. unfold Blkdev.blk_read in E.
  destruct dev as [i|]; [|by injection E as _ _ <-]. destruct b as [b|]; [|by injection E as _ _ <-].
  destruct (n =? 0); [by injection E as _ _ <-|]. apply bind_Some in E as (dv & Edv & E).
  destruct (Blkdev.out_of_range _ _ _); [by injection E as _ _ <-|]. apply bind_Some in E as (f & Ef & E).
  apply bind_Some in E as ([[rc1 b1] s1] & Erun & E). injection E as _ _ <-.
  assert (Hf : ∃ idx, f = readers idx).
  { unfold Blkdev.dev_at in Edv. apply bind_Some in Edv as (j & _ & Edv). exact (Forall_lookup_1 _ _ _ _ Hr Edv f Ef). }
  destruct Hf as [idx ->]. unfold readers in Erun. apply bind_Some in Erun as ([[rc2 b2] s2] & Erun & E).
  injection E as _ _ <-. exact (drv_read_calm idx lba n b s Hs _ _ Erun).
Qed.
End drivers.

(** ** The display *)
Import Gpu.

Section display.
Context {P : Type} `{CellsApart P}.
#[export] Instance gpu_lawful : LawfulPorts (gpu P) P.
Proof. split; [done|done|by intros [? [] ?]]. Qed.
Lemma on_console_keeps {A} (m : M (Console.console FbConsole.fbcon) A) : keeps cells_kept (on_console (P := P) m).
Proof.
  intros s a s' E. unfold on_console in E. destruct (m (gcon s)) as [[? ?]|]; [|done].
  apply (inj Some), pair_eq in E as [_ <-]. refine (_ : same_cells _ _). reflexivity.
Qed.
Lemma lfb_at_keeps {A} addr (m : M Vram.window A) : keeps cells_kept (lfb_at (P := P) addr m).
Proof. apply on_console_keeps. Qed.
#[local] Hint Resolve on_console_keeps lfb_at_keeps : keeps.
Lemma dispi_read_keeps i : keeps cells_kept (dispi_read (P := P) i).
Proof. unfold dispi_read. keeps. Qed.
Lemma dispi_write_keeps i v : keeps cells_kept (dispi_write (P := P) i v).
Proof. unfold dispi_write. keeps. Qed.
Lemma set_gpu_keeps f : keeps cells_kept (set_gpu (P := P) f).
Proof. unfold set_gpu. keeps. Qed.
#[local] Hint Resolve dispi_read_keeps dispi_write_keeps set_gpu_keeps : keeps.
Lemma gpu_init_keeps secure L : keeps cells_kept (gpu_init (P := P) secure L).
Proof.
  unfold gpu_init, try_bochs_family, bochs_set_mode, program_mode, probe_lfb, report_text_only, kprintf. keeps.
Qed.
End display.

(** ** Registers in memory *)
Import Backlight E1000.
Class MmioApart (P : Type) `{Nvram P, Regs32 P, Mmio P dma} := {
  apart_reg_read : ∀ a p, same_cells p (reg_read a p).2;
  apart_reg_write : ∀ a v p, same_cells p (reg_write a v p);
  apart_mmio_read : ∀ a p, same_cells p (mmio_read a p).2;
  apart_mmio_write : ∀ a v p, same_cells p (mmio_write a v p);
  apart_run : ∀ p m, same_cells p (run p m).1;
}.

Section mmio.
Context {P : Type} `{MmioApart P} (x86_64 : bool) (a : layout).

Definition card_kept (s s' : e1000 P) : Prop := same_cells (E1000.hw s) (E1000.hw s').
#[export] Instance card_kept_order : PreOrder card_kept.
Proof. split; [by intros s|]. intros s1 s2 s3. unfold card_kept. apply transitivity. Qed.
#[local] Hint Extern 1 (keeps card_kept (modify _)) =>
  apply keeps_modify; intros; refine (_ : same_cells _ _); reflexivity : keeps.

Lemma rd_keeps off : keeps card_kept (rd off).
Proof.
  intros s v s' E. unfold rd in E. pose proof (apart_mmio_read off (E1000.hw s)) as Hs.
  destruct (mmio_read off (E1000.hw s)). by injection E as _ <-.
Qed.
Lemma wr_keeps off v : keeps card_kept (wr off v).
Proof. apply keeps_modify. intros s. apply apart_mmio_write. Qed.
Lemma look_keeps : keeps card_kept look.
Proof.
  intros s v s' E. unfold look in E. pose proof (apart_run (E1000.hw s) (mem s)) as Hs.
  destruct (run (E1000.hw s) (mem s)). by injection E as _ <-.
Qed.
#[local] Hint Resolve rd_keeps wr_keeps look_keeps : keeps.
Lemma read_mac_keeps n i ok mac : keeps card_kept (read_mac n i ok mac).
Proof. revert i ok mac. induction n; intros i ok mac; cbn [read_mac]; unfold eeprom_read; keeps. Qed.
Lemma init_rx_keeps n i : keeps card_kept (init_rx a n i).
Proof. revert i. induction n; intros i; cbn [init_rx]; keeps. Qed.
Lemma init_tx_keeps n i : keeps card_kept (init_tx (D := P) n i).
Proof. revert i. induction n; intros i; cbn [init_tx]; keeps. Qed.
#[local] Hint Resolve read_mac_keeps init_rx_keeps init_tx_keeps : keeps.
Lemma e1000_init_keeps dev : keeps card_kept (e1000_init x86_64 a dev).
Proof. unfold e1000_init, setup_rx, setup_tx. keeps. Qed.
#[local] Hint Resolve e1000_init_keeps : keeps.
Lemma detect_loop_keeps {Q} (t : pci Q) n i w : keeps card_kept (detect_loop x86_64 a t n i w).
Proof. revert i w. induction n; intros i w; cbn [detect_loop]; unfold handle_device; keeps. Qed.
Lemma net_detect_keeps {Q} (t : pci Q) : keeps card_kept (net_detect_devices x86_64 a t).
Proof. pose proof (detect_loop_keeps t). unfold net_detect_devices. keeps. Qed.

(** *** The backlight *)
Definition panel_kept (s s' : backlight P) : Prop := same_cells (Backlight.regs s) (Backlight.regs s').
#[export] Instance panel_kept_order : PreOrder panel_kept.
Proof. split; [by intros s|]. intros s1 s2 s3. unfold panel_kept. apply transitivity. Qed.
#[local] Hint Extern 1 (keeps panel_kept (modify _)) =>
  apply keeps_modify; intros; refine (_ : same_cells _ _); reflexivity : keeps.
Lemma mmio_rd_keeps addr : keeps panel_kept (mmio_rd addr).
Proof.
  intros s v s' E. unfold mmio_rd in E. pose proof (apart_reg_read addr (Backlight.regs s)) as Hs.
  destruct (reg_read addr (Backlight.regs s)). by injection E as _ <-.
Qed.
Lemma mmio_wr_keeps addr v : keeps panel_kept (mmio_wr addr v).
Proof. apply keeps_modify. intros s. apply apart_reg_write. Qed.
#[local] Hint Resolve mmio_rd_keeps mmio_wr_keeps : keeps.
Lemma backlight_probe_keeps {Q} (t : pci Q) : keeps panel_kept (backlight_probe t).
Proof. unfold backlight_probe. induction (take _ _); cbn [probe_loop]; keeps. Qed.
Lemma backlight_set_keeps percent : keeps panel_kept (backlight_set percent).
Proof. unfold backlight_set. keeps. Qed.
End mmio.

(** ** Mounting

    The mount never gets past the descriptor table
    ([Ext4Mount.load_gdt_unmounted]), so all it does to the hardware is to read
    the superblock through the registry. *)
Import Alloc Blkdev Ext4Core Ext4Mount.

Section mount.
Context {P H : Type} `{CellsApart P, Allocator H}.
Implicit Types w : world (ata P) H.

(** No device is mounted and the registry is that of the ATA driver. *)
Definition probed w : Prop := dev (e4 w) = None ∧ ata_registry (reg w) ∧ drives_ok (Ext4Core.hw w).
Definition disk_calm w w' : Prop := probed w' ∧ cells_kept (Ext4Core.hw w) (Ext4Core.hw w').

Lemma calm_same w w1 w2 : disk_calm w w1 → dev (e4 w2) = None → reg w2 = reg w1 → Ext4Core.hw w2 = Ext4Core.hw w1 →
  disk_calm w w2.
Proof. intros [(_ & Hr & Hd) Hc] Hv Er Eh. split; [split|]; rewrite ?Er, ?Eh; auto. Qed.

Lemma heap_call_calm {A} (m : M H A) w0 w : disk_calm w0 w →
  wlp (heap_call m) (λ _ w', e4 w' = e4 w ∧ disk_calm w0 w') w.
Proof.
  intros Hw a w' E. unfold heap_call in E. destruct (m (hp w)) as [[? ?]|]; [|done]. injection E as _ <-.
  split; [done|]. apply (calm_same _ w); [done|apply Hw|done..].
Qed.
Lemma mount_fail_calm w0 w : disk_calm w0 w → wlp mount_fail (λ b w', b = false ∧ disk_calm w0 w') w.
Proof.
  intros Hw. unfold mount_fail. wlp_pure. apply wlp_ret. split; [done|]. by apply (calm_same _ w).
Qed.
Lemma bufset_calm b v w0 w : disk_calm w0 w → disk_calm w0 (bufset b v w).
Proof. intros Hw. destruct b; (apply (calm_same _ w); [done|apply Hw|done..]). Qed.
Lemma buf_zero_calm b n w0 w : disk_calm w0 w → wlp (buf_zero b n) (λ _ w', e4 w' = e4 w ∧ disk_calm w0 w') w.
Proof.
  intros Hw. unfold buf_zero, buf_splice. wlp_pure. apply wlp_modify. split; [by destruct b|by apply bufset_calm].
Qed.
Lemma init_scratch_calm bs w0 w : disk_calm w0 w →
  wlp (e4_init_scratch bs) (λ _ w', e4 w' = e4 w ∧ disk_calm w0 w') w.
Proof.
  intros Hw. unfold e4_init_scratch. wlp_pure.
  eapply wlp_call; [by apply heap_call_calm|]. intros p1 w1 [E1 Hc1]. wlp_pure.
  eapply wlp_call; [by apply heap_call_calm, bufset_calm|]. intros p2 w2 [E2 Hc2]. wlp_pure.
  assert (E : e4 w2 = e4 w) by (by rewrite E2).
  destruct p1; [destruct p2|]; try (apply wlp_ret; split; [done|by apply bufset_calm]).
  eapply wlp_call; [by apply buf_zero_calm, bufset_calm|]. intros ? w3 [E3 Hc3].
  eapply wlp_call; [by apply buf_zero_calm|]. intros ? w4 [E4 Hc4]. apply wlp_ret. split; [|done]. by rewrite E4, E3.
Qed.

Lemma load_gdt_calm w0 w : 0 < group_count (e4 w) → disk_calm w0 w →
  wlp e4_load_gdt (λ rc w', rc = -1 ∧ disk_calm w0 w') w.
Proof.
  intros Hgc Hw. unfold e4_load_gdt. wlp_pure.
  eapply wlp_call; [by apply heap_call_calm|]. intros p w1 [E1 Hc1]. wlp_pure.
  assert (Hg : ∀ g, disk_calm w0 (set_e4 (upd_gdt g) w1)).
  { intros g. apply (calm_same _ w1); [done|apply Hc1|done..]. }
  destruct p as [p|]; [|by apply wlp_ret]. wlp_pure.
  destruct (Z.to_nat (group_count (e4 w))) as [|n] eqn:En; [lia|]. cbn [for_].
  apply wlp_bind. apply wlp_bind. wlp_pure. apply wlp_bind.
  intros rc w2 E. rewrite read_into_unmounted in E by apply Hc1.
  apply (inj Some), pair_eq in E as [<- <-].
  change (truthy (-1)) with true. cbv iota. apply wlp_ret. apply wlp_ret. apply wlp_ret.
  split; [done|]. apply bufset_calm, Hg.
Qed.

Lemma mount_tables_calm w0 w : 0 < group_count (e4 w) → disk_calm w0 w →
  wlp mount_tables (λ b w', b = false ∧ disk_calm w0 w') w.
Proof.
  intros Hgc Hw. unfold mount_tables. wlp_pure.
  eapply wlp_call; [by apply init_scratch_calm|]. intros rc w1 [E1 Hc1].
  destruct (truthy rc); [by apply mount_fail_calm|]. wlp_pure.
  eapply wlp_call; [by apply heap_call_calm|]. intros p w2 [E2 Hc2]. wlp_pure.
  assert (Hg : ∀ g, disk_calm w0 (set_e4 (upd_gdt g) w2)).
  { intros g. apply (calm_same _ w2); [done|apply Hc2|done..]. }
  apply (wlp_call _ _ (λ rc w', rc = -1 ∧ disk_calm w0 w')).
  - destruct p; [|by apply wlp_ret]. apply load_gdt_calm; [|done]. cbn. by rewrite E2, E1.
  - intros ? w3 [-> Hc3]. by apply mount_fail_calm.
Qed.

Lemma read_super_calm dv w0 w : disk_calm w0 w → wlp (read_super dv) (λ _, disk_calm w0) w.
Proof.
  intros Hw. unfold read_super. eapply wlp_call; [by apply heap_call_calm|]. intros p w1 [E1 Hc1].
  destruct p; [|by apply wlp_ret]. apply (wlp_call _ _ (λ _, disk_calm w0)).
  - intros [rc x] w2 E. destruct (blk_read _ _ _ _ _ _) as [[[? ?] ?]|] eqn:Eb; [|done]. injection E as <- <- <-.
    destruct Hc1 as [(Hd & Hr & Hk) Hc]. destruct (blk_read_calm _ _ _ _ _ _ _ _ _ Hr Hk Eb) as [Hc2 Hk2].
    split; [done|]. by etrans; [exact Hc|].
  - intros r w2 Hc2. eapply wlp_call; [by apply heap_call_calm|]. intros ? w3 [E3 Hc3]. by apply wlp_ret.
Qed.

Lemma ext4_mount_calm w : probed w → wlp ext4_mount (λ b w', b = false ∧ disk_calm w w') w.
Proof.
  intros Hw. assert (Hc0 : disk_calm w w) by (by split). destruct (Hw) as (Hd & _ & _).
  unfold ext4_mount. wlp_pure. rewrite Hd. wlp_pure. cbn [reg set_e4].
  set (w1 := set_e4 (const e4_zero) w). assert (Hc1 : disk_calm w w1) by (by apply (calm_same _ w)).
  destruct (blk_first (reg w)) as [dv|]; [|by apply wlp_ret].
  eapply wlp_call; [by apply read_super_calm|]. intros [s|] w2 Hc2; [|by apply wlp_ret]. wlp_pure.
  assert (Hset : ∀ f w', disk_calm w w' → dev (f (e4 w')) = None → disk_calm w (set_e4 f w')).
  { intros f w' Hw' Hf. by apply (calm_same _ w'). }
  assert (Hc3 : disk_calm w (set_e4 (upd_sb s) w2)) by (apply Hset; [done|apply Hc2]).
  case_if; [by apply wlp_ret|]. do 3 (case_if; [by apply mount_fail_calm|]). wlp_pure.
  assert (Hc4 : disk_calm w (set_e4 (const (e4_of_sb s)) (set_e4 (upd_sb s) w2))) by (by apply Hset).
  case_if; [by apply mount_fail_calm|]. wlp_pure.
  match goal with |- context [set_e4 ?f _] => assert (Hc5 : disk_calm w (set_e4 f (set_e4 (const (e4_of_sb s)) (set_e4 (upd_sb s) w2)))) by (by apply Hset) end.
  case_if; [by apply mount_fail_calm|]. bool_prop. apply mount_tables_calm; [|done].
  cbn [e4 set_e4 upd_group_count group_count].
  match goal with |- 0 < u32 ?x => pose proof (u32_range x) end. lia.
Qed.
End mount.
