(* ===== verification/BootFlow.v ===== *)
(** * init/boot_flow.c, init/main.c: the kernel as a whole

    The standard kernel of x86, from [kernel_main] on: the components are put
    together as the kernel links them, each with the state of its own file, over
    one machine behind the ports and the registers, and over one heap. Messages
    are events. The code after the boot does not end: what is defined is the
    state after a number of rounds of its last loop, and after the interrupts
    that arrive in each of them, which the dispatcher of [Irq] hands to the
    handlers the drivers have installed. *)
From S2P Require Import Prelude Ports.
From S2P Require Alloc Heap Guard Cmos Pci Kprintf Gpu Backlight Acpi Smbios Platform Input E1000 Net Ramfs Blkdev Ata.
From S2P Require Ext4Core Boot Irq Start Panic Console FbConsole Frames.
Open Scope c_scope.

#[export] Existing Instances Gpu.gpu_ports Pci.pci_ports Platform.thinkpad_ports Input.input_ports Ata.ata_ports
  Heap.heap_allocator.

(** What [kprintf], [kputs] and the echo report. *)
Inductive event :=
  | Banner (arch : String.string)
  | VersionScreen (arch : String.string) (usable_kb : Z) (line : option (list Z))
  | SecurityReport
  | BacklightReady
  | NoRsdp
  | KeyboardAbsent
  | NoSerialMouse
  | GameportFound
  | Network (l : list E1000.detected)
  | RamfsMounted
  | BootRecorded (boots : Z) (sizes : list Z)
  | LastBootPanicked (code : Z)
  | Ready
  | Echo (c : Z).

(** What became of the kernel: it waits for input, it has reset the machine, or
    it has panicked because the heap could not be set up. *)
Inductive outcome := Waiting | Reset | HeapPanic.

(** A component inside the kernel: its state as it sees it, and the kernel after
    it has run. *)
Record part (K T : Type) := Part { view : K → T; update : T → K → K }.
Arguments Part {K T}.
Arguments view {K T}.
Arguments update {K T}.
Definition on {K T A} (p : part K T) (m : M T A) : M K A := λ k,
  '(a, t) ← m (view p k); Some (a, update p t k).

Section kernel.
Context {P : Type} `{Ports P, Regs32 P, Mmio P E1000.dma}.

(** The machine, the heap, and the static variables of the components. Where
    the record of a component has a place for the machine or for the heap, what
    is there is replaced by [k_hw] and [k_heap] when the component runs. *)
Record kernel := Kernel {
  k_hw : P;
  k_heap : Heap.heap;
  k_guard : Z;
  k_cmdline : Boot.cmdline;
  k_gpu : Gpu.gpu P;
  k_backlight : Backlight.backlight P;
  k_acpi : Acpi.acpi;
  k_smbios : Smbios.smbios;
  k_thinkpad : Platform.thinkpad P;
  k_input : Input.input P;
  k_net : Net.net (E1000.e1000 P);
  k_ramfs : Ramfs.ramfs Heap.heap;
  k_disk : Ext4Core.world (Ata.ata P) Heap.heap;
  k_log : list event;
  k_clock : Boot.clock_state;
}.

#[export] Instance kernel_ports : HasPorts kernel P :=
  {| ports := k_hw;
     set_ports := λ p k, Kernel p (k_heap k) (k_guard k) (k_cmdline k) (k_gpu k) (k_backlight k) (k_acpi k)
       (k_smbios k) (k_thinkpad k) (k_input k) (k_net k) (k_ramfs k) (k_disk k) (k_log k) (k_clock k) |}.
#[export] Instance kernel_lawful : LawfulPorts kernel P.
Proof. split; [done|done|by intros []]. Qed.

Definition set_guard (g : Z) (k : kernel) : kernel :=
  Kernel (k_hw k) (k_heap k) g (k_cmdline k) (k_gpu k) (k_backlight k) (k_acpi k)
    (k_smbios k) (k_thinkpad k) (k_input k) (k_net k) (k_ramfs k) (k_disk k) (k_log k) (k_clock k).
Definition set_cmdline (c : Boot.cmdline) (k : kernel) : kernel :=
  Kernel (k_hw k) (k_heap k) (k_guard k) c (k_gpu k) (k_backlight k) (k_acpi k)
    (k_smbios k) (k_thinkpad k) (k_input k) (k_net k) (k_ramfs k) (k_disk k) (k_log k) (k_clock k).
Definition set_heap (h : Heap.heap) (k : kernel) : kernel :=
  Kernel (k_hw k) h (k_guard k) (k_cmdline k) (k_gpu k) (k_backlight k) (k_acpi k)
    (k_smbios k) (k_thinkpad k) (k_input k) (k_net k) (k_ramfs k) (k_disk k) (k_log k) (k_clock k).
Definition set_disk (w : Ext4Core.world (Ata.ata P) Heap.heap) (k : kernel) : kernel :=
  Kernel (k_hw k) (k_heap k) (k_guard k) (k_cmdline k) (k_gpu k) (k_backlight k) (k_acpi k)
    (k_smbios k) (k_thinkpad k) (k_input k) (k_net k) (k_ramfs k) w (k_log k) (k_clock k).
Definition set_net (n : Net.net (E1000.e1000 P)) (k : kernel) : kernel :=
  Kernel (k_hw k) (k_heap k) (k_guard k) (k_cmdline k) (k_gpu k) (k_backlight k) (k_acpi k)
    (k_smbios k) (k_thinkpad k) (k_input k) n (k_ramfs k) (k_disk k) (k_log k) (k_clock k).
Definition set_gpu (g : Gpu.gpu P) (k : kernel) : kernel :=
  Kernel (k_hw k) (k_heap k) (k_guard k) (k_cmdline k) g (k_backlight k) (k_acpi k)
    (k_smbios k) (k_thinkpad k) (k_input k) (k_net k) (k_ramfs k) (k_disk k) (k_log k) (k_clock k).

Definition say (e : event) : M kernel unit := modify (λ k,
  Kernel (k_hw k) (k_heap k) (k_guard k) (k_cmdline k) (k_gpu k) (k_backlight k) (k_acpi k)
    (k_smbios k) (k_thinkpad k) (k_input k) (k_net k) (k_ramfs k) (k_disk k) (k_log k ++ [e]) (k_clock k)).

(** ** The parts *)

Definition heap_part : part kernel Heap.heap := Part k_heap set_heap.

Definition gpu_part : part kernel (Gpu.gpu P) := Part
  (λ k, set_ports (k_hw k) (k_gpu k))
  (λ g k, set_ports (S := kernel) (P := P) (ports g) (set_gpu g k)).
(** The table of PCI devices, which the display code reads. *)
Definition pci_part : part kernel (Pci.pci P) := Part
  (λ k, set_ports (k_hw k) (Gpu.gpci (k_gpu k)))
  (λ t k, set_ports (ports t) (set_gpu (Gpu.Gpu (Gpu.g_gpu (k_gpu k)) t (Gpu.gcon (k_gpu k))) k)).
Definition backlight_part : part kernel (Backlight.backlight P) := Part
  (λ k, Backlight.Backlight (Backlight.pwm_mmio (k_backlight k)) (Backlight.cur_percent (k_backlight k)) (k_hw k))
  (λ b k, Kernel (Backlight.regs b) (k_heap k) (k_guard k) (k_cmdline k) (k_gpu k) b (k_acpi k)
    (k_smbios k) (k_thinkpad k) (k_input k) (k_net k) (k_ramfs k) (k_disk k) (k_log k) (k_clock k)).
Definition acpi_part : part kernel Acpi.acpi := Part k_acpi
  (λ a k, Kernel (k_hw k) (k_heap k) (k_guard k) (k_cmdline k) (k_gpu k) (k_backlight k) a
    (k_smbios k) (k_thinkpad k) (k_input k) (k_net k) (k_ramfs k) (k_disk k) (k_log k) (k_clock k)).
Definition smbios_part : part kernel Smbios.smbios := Part k_smbios
  (λ s k, Kernel (k_hw k) (k_heap k) (k_guard k) (k_cmdline k) (k_gpu k) (k_backlight k) (k_acpi k)
    s (k_thinkpad k) (k_input k) (k_net k) (k_ramfs k) (k_disk k) (k_log k) (k_clock k)).
Definition thinkpad_part : part kernel (Platform.thinkpad P) := Part
  (λ k, set_ports (k_hw k) (k_thinkpad k))
  (λ t k, Kernel (ports t) (k_heap k) (k_guard k) (k_cmdline k) (k_gpu k) (k_backlight k) (k_acpi k)
    (k_smbios k) t (k_input k) (k_net k) (k_ramfs k) (k_disk k) (k_log k) (k_clock k)).
Definition input_part : part kernel (Input.input P) := Part
  (λ k, set_ports (k_hw k) (k_input k))
  (λ i k, Kernel (ports i) (k_heap k) (k_guard k) (k_cmdline k) (k_gpu k) (k_backlight k) (k_acpi k)
    (k_smbios k) (k_thinkpad k) i (k_net k) (k_ramfs k) (k_disk k) (k_log k) (k_clock k)).
(** The network stack has the driver inside. *)
Definition net_part : part kernel (Net.net (E1000.e1000 P)) := Part
  (λ k, Net.set_nic (E1000.set_hw (k_hw k) (Net.nic (k_net k))) (k_net k))
  (λ n k, set_ports (E1000.hw (Net.nic n)) (set_net n k)).
Definition card_part : part kernel (E1000.e1000 P) := Part
  (λ k, E1000.set_hw (k_hw k) (Net.nic (k_net k)))
  (λ c k, set_ports (E1000.hw c) (set_net (Net.set_nic c (k_net k)) k)).
Definition ramfs_part : part kernel (Ramfs.ramfs Heap.heap) := Part
  (λ k, Ramfs.Ramfs (Ramfs.files (k_ramfs k)) (Ramfs.ready (k_ramfs k)) (k_heap k) (Ramfs.objs (k_ramfs k)))
  (λ r k, Kernel (k_hw k) (Ramfs.heap r) (k_guard k) (k_cmdline k) (k_gpu k) (k_backlight k) (k_acpi k)
    (k_smbios k) (k_thinkpad k) (k_input k) (k_net k) r (k_disk k) (k_log k) (k_clock k)).
(** ext4 has the block devices and their registry inside, and reads the clock. *)
Definition disk_part : part kernel (Ext4Core.world (Ata.ata P) Heap.heap) := Part
  (λ k, let v := k_disk k in
    Ext4Core.World _ _ (Ext4Core.e4 v) (Ext4Core.scratch1 v) (Ext4Core.scratch2 v) (Ext4Core.reg v)
      (set_ports (k_hw k) (Ext4Core.hw v)) (k_heap k) (default 0 (Boot.uptime_ms (k_clock k)))
      (Ext4Core.uninit v) (Ext4Core.jnl v))
  (λ w k, set_ports (ports (Ext4Core.hw w)) (set_heap (Ext4Core.hp w) (set_disk w k))).
Definition ata_part : part kernel (Ata.ata P) := Part
  (λ k, set_ports (k_hw k) (Ext4Core.hw (k_disk k)))
  (λ a k, set_ports (ports a) (set_disk (Ext4Core.set_hw a (k_disk k)) k)).

Definition pci_table (k : kernel) : Pci.pci P := Gpu.gpci (k_gpu k).
Definition set_registry (r : Blkdev.registry (Ata.ata P)) (k : kernel) : kernel :=
  let w := k_disk k in
  set_disk (Ext4Core.World _ _ (Ext4Core.e4 w) (Ext4Core.scratch1 w) (Ext4Core.scratch2 w) r (Ext4Core.hw w)
    (Ext4Core.hp w) (Ext4Core.clock w) (Ext4Core.uninit w) (Ext4Core.jnl w)) k.

(** ** init/boot_flow.c

    Physical memory, the counter the canary is made of, where the linker put the
    card's rings, what the formatter finds behind its arguments, and the fuel of
    the loops that have no bound, are arguments. *)
Context (w : Z) (mem : Z → Z) (tsc : Z) (rings : E1000.layout) (L : Kprintf.linked) (fuel : nat).

(** False where the code panics. *)
Definition bringup_security_and_heap (boot : Start.boot_info) : M kernel bool :=
  modify (set_guard (Guard.security_early_init w tsc)) ;;
  let* ok := on heap_part (Heap.heap_init (Start.heap_base boot) (Start.heap_size boot)) in
  if negb ok then ret false
  else say SecurityReport ;; ret true.

Definition bringup_discovery : M kernel unit :=
  on pci_part Pci.pci_init ;;
  on gpu_part (Gpu.gpu_init false L) ;;
  let* t := gets pci_table in
  let* lit := on backlight_part (Backlight.backlight_probe t) in
  (if lit : bool then on backlight_part (Backlight.backlight_set 80) ;; say BacklightReady else ret tt) ;;
  let* found := on acpi_part (Acpi.acpi_find_rsdp mem) in
  (if negb found then say NoRsdp
   else
     let* r := on acpi_part Acpi.acpi_rsdp_get in
     on acpi_part (Acpi.acpi_walk_tables mem w r)) ;;
  let* _ := on smbios_part (Smbios.smbios_init mem fuel) in
  let* c := gets k_cmdline in
  let* fan := lift (Boot.cmdline_flag (chars "thinkpad_fanctl" ++ [0]) c) in
  let* dmi := gets k_smbios in
  on thinkpad_part (Platform.thinkpad_init (Smbios.dmi_vendor dmi) (Smbios.dmi_product dmi) fan).

Definition bringup_drivers : M kernel unit :=
  let* ps2 := on input_part (Input.ps2_controller_init fuel) in
  (if ps2 : bool then
     let* kbd := on input_part Input.keyboard_init in
     (if negb kbd then say KeyboardAbsent else ret tt) ;;
     let* _ := on input_part Input.mouse_init in
     let* _ := on input_part Input.synaptics_probe in
     ret tt
   else
     let* _ := on input_part Input.synaptics_probe in
     ret tt) ;;
  let* mouse := on input_part Input.serial_mouse_probe in
  (if negb mouse then say NoSerialMouse else ret tt) ;;
  let* game := on input_part Input.gameport_probe in
  if game : bool then say GameportFound else ret tt.

(** [blkdev_init], [ata_probe]; [virtio_blk_probe] is empty on x86. *)
Definition probe_disks : M kernel unit :=
  modify (set_registry Blkdev.blkdev_init) ;;
  let* r := on ata_part (Ata.ata_probe Blkdev.blkdev_init) in
  modify (set_registry r).

(** [standard_boot] up to the loop. *)
Definition standard_init (boot : Start.boot_info) : M kernel bool :=
  let* ok := bringup_security_and_heap boot in
  if negb ok then ret false
  else
    bringup_discovery ;;
    bringup_drivers ;;
    let* t := gets pci_table in
    let* l := on card_part (E1000.net_detect_devices (w =? 64) rings t) in
    say (Network l) ;;
    let* mac := gets (λ k, E1000.netdev_mac_first (E1000.netdevs_of (Net.nic (k_net k)))) in
    on net_part (Net.net_stack_init mac) ;;
    let* _ := on ramfs_part Ramfs.ramfs_init in
    say RamfsMounted ;;
    probe_disks ;;
    let* demo := on disk_part Boot.ext4_persistence_demo in
    match demo with Some (boots, sizes) => say (BootRecorded boots sizes) | None => ret tt end ;;
    let* last := Cmos.cmos_last_boot_panicked true in
    match last with (true, Some code) => say (LastBootPanicked code) | _ => ret tt end ;;
    Cmos.cmos_clear_panic_flag ;;
    ret true.

(** [while (c >= 0)], over the characters at hand; true when the machine was
    reset. *)
Fixpoint echo_keys (n : nat) : M kernel bool :=
  match n with
  | O => fault
  | S n =>
      let* c := on input_part Input.keyboard_try_getchar in
      if c <? 0 then ret false
      else if c =? 0x1B then Start.kernel_reboot fuel ;; ret true
      else (if (32 <=? c) || (c =? 10) || (c =? 13) then say (Echo c) else ret tt) ;; echo_keys n
  end.

(** ** Interrupts *)

(** The timer's. *)
Definition clock_tick : M kernel unit := modify (λ k,
  Kernel (k_hw k) (k_heap k) (k_guard k) (k_cmdline k) (k_gpu k) (k_backlight k) (k_acpi k)
    (k_smbios k) (k_thinkpad k) (k_input k) (k_net k) (k_ramfs k) (k_disk k) (k_log k) (Boot.time_tick (k_clock k))).

(** The handlers that [keyboard_init] and [mouse_init] install; no other code
    calls [irq_install]. *)
Definition irq_handler (n : Z) : option (M kernel unit) :=
  if n =? 1 then Some (on input_part (Input.keyboard_irq_handler fuel))
  else if n =? 12 then Some (on input_part Input.mouse_irq_handler)
  else None.
Definition irq_table (k : kernel) : list (option (M kernel unit)) :=
  map (λ n, if bool_decide (n ∈ Input.irqs (k_input k)) then irq_handler n else None) (seqZ 0 16).

(** An interrupt on line [irq]. Its vector is no exception's. *)
Definition serve (irq : nat) : M kernel unit := λ k,
  '(_, s) ← Irq.isr_handler (λ _ _ _, fault) clock_tick (Irq.Regs (32 + Z.of_nat irq) 0) (Irq.Isr (irq_table k) k);
  Some (tt, Irq.world s).
Fixpoint interrupts (l : list nat) : M kernel unit :=
  match l with [] => ret tt | irq :: l => serve irq ;; interrupts l end.

(** The lines that are served in a round of a loop: before it looks for a key,
    and while the processor is halted. *)
Record round := Round { before_keys : list nat; in_halt : list nat }.

(** Rounds of [for (;;)]. *)
Fixpoint idle_rounds (rs : list round) : M kernel outcome :=
  match rs with
  | [] => ret Waiting
  | r :: rs =>
      on net_part (Net.net_poll (H := E1000.e1000_nic rings) fuel) ;;
      interrupts (before_keys r) ;;
      let* reset := echo_keys fuel in
      if reset : bool then ret Reset
      else interrupts (in_halt r) ;; idle_rounds rs
  end.

Definition standard_boot (rs : list round) (boot : Start.boot_info) : M kernel outcome :=
  let* ok := standard_init boot in
  if negb ok then ret HeapPanic
  else say Ready ;; idle_rounds rs.

(** ** init/main.c *)

(** Rounds of [while (keyboard_try_getchar() < 0)]. *)
Fixpoint key_rounds (rs : list round) : M kernel bool :=
  match rs with
  | [] => ret false
  | r :: rs =>
      interrupts (before_keys r) ;;
      let* c := on input_part Input.keyboard_try_getchar in
      if c <? 0 then interrupts (in_halt r) ;; key_rounds rs else ret true
  end.

Definition version_screen (rs : list round) (boot : Start.boot_info) : M kernel outcome :=
  let* c0 := lift (ld8 (Start.cmdline boot) 0) in
  say (VersionScreen (Start.arch_name boot) (Start.mem_usable_kb boot)
    (if truthy c0 then Some (Start.cmdline boot) else None)) ;;
  let* key := key_rounds rs in
  if key then Start.kernel_reboot fuel ;; ret Reset else ret Waiting.

(** The console is that of [Console]; [standard_boot] is reached because
    [version_screen] does not return. *)
Definition kernel_main (rs : list round) (boot : Start.boot_info) : M kernel outcome :=
  let* c := gets k_cmdline in
  let* c := lift (Boot.cmdline_parse (Some (Start.cmdline boot)) c) in
  modify (set_cmdline c) ;;
  say (Banner (Start.arch_name boot)) ;;
  match Boot.action c with
  | Boot.CMDLINE_ACTION_VERSION => version_screen rs boot
  | Boot.CMDLINE_ACTION_NONE => standard_boot rs boot
  end.
End kernel.
Arguments kernel : clear implicits.

(** ** What the boot does to the rest *)

Section boot_proofs.
Context {P : Type} `{Frames.CellsApart P, Regs32 P, Mmio P E1000.dma, !Frames.MmioApart P}.
Implicit Types k : kernel P.
Import Cmos Frames.

(** No device mounted, the registry empty or of ATA devices, and the ring of the
    keyboard empty. *)
Definition untouched k : Prop := probed (k_disk k) ∧ Input.kbd_idle (k_input k).

(** Not a report on the last boot, nor of the boot counter, nor an echo. *)
Definition ordinary (e : event) : Prop :=
  match e with LastBootPanicked _ | BootRecorded _ _ | Echo _ => False | _ => True end.

(** What every step of the boot keeps: the cells of the CMOS memory, and the
    parts as above; it reports nothing out of the ordinary. *)
Definition steady k k' : Prop :=
  untouched k →
    untouched k' ∧ same_cells (k_hw k) (k_hw k') ∧ ∃ l, k_log k' = k_log k ++ l ∧ Forall ordinary l.
#[export] Instance steady_order : PreOrder steady.
Proof.
  split.
  - intros k Hk. split; [done|]. split; [done|]. exists []. by rewrite app_nil_r.
  - intros k1 k2 k3 E1 E2 Hk. destruct (E1 Hk) as (U1 & C1 & l1 & L1 & O1).
    destruct (E2 U1) as (U2 & C2 & l2 & L2 & O2). split; [done|]. split; [by etrans|].
    exists (l1 ++ l2). split; [by rewrite L2, L1, app_assoc|by apply Forall_app].
Qed.

(** A part that leaves the rest alone. *)
Lemma on_keeps {T A} (p : part (kernel P) T) (R : relation T) (m : M T A) :
  keeps R m → (∀ k t, untouched k → R (view p k) t →
    untouched (update p t k) ∧ same_cells (k_hw k) (k_hw (update p t k)) ∧ k_log (update p t k) = k_log k) →
  keeps steady (on p m).
Proof.
  intros Hm Hp k a k' E Hk. unfold on in E. apply bind_Some in E as ([x t] & Em & E).
  apply (inj Some), pair_eq in E as [_ <-]. destruct (Hp k t Hk (Hm _ _ _ Em)) as (U & C & L).
  split; [done|]. split; [done|]. exists []. by rewrite L, app_nil_r.
Qed.
Lemma set_keeps (f : kernel P → kernel P) : (∀ k, untouched k →
  untouched (f k) ∧ same_cells (k_hw k) (k_hw (f k)) ∧ k_log (f k) = k_log k) → keeps steady (modify f).
Proof.
  intros Hf. apply keeps_modify. intros k Hk. destruct (Hf k Hk) as (U & C & L). split; [done|]. split; [done|].
  exists []. by rewrite L, app_nil_r.
Qed.
Lemma say_keeps e : ordinary e → keeps steady (say e).
Proof. intros He. apply keeps_modify. intros k Hk. split; [done|]. split; [done|]. exists [e]. by rewrite Forall_singleton. Qed.

(** Pure parts. *)
Lemma any_keeps {S A} (m : M S A) : keeps (λ _ _, True) m.
Proof. by intros s a s' _. Qed.

Lemma on_pci_keeps {A} (m : M _ A) : keeps cells_kept m → keeps steady (on pci_part m).
Proof. intros Hm. eapply on_keeps; [exact Hm|]. by intros k t. Qed.
Lemma on_gpu_keeps {A} (m : M _ A) : keeps cells_kept m → keeps steady (on gpu_part m).
Proof. intros Hm. eapply on_keeps; [exact Hm|]. by intros k t. Qed.
Lemma on_thinkpad_keeps {A} (m : M _ A) : keeps cells_kept m → keeps steady (on thinkpad_part m).
Proof. intros Hm. eapply on_keeps; [exact Hm|]. by intros k t. Qed.
Lemma on_backlight_keeps {A} (m : M _ A) : keeps panel_kept m → keeps steady (on backlight_part m).
Proof. intros Hm. eapply on_keeps; [exact Hm|]. by intros k t. Qed.
Lemma on_card_keeps {A} (m : M _ A) : keeps card_kept m → keeps steady (on card_part m).
Proof. intros Hm. eapply on_keeps; [exact Hm|]. by intros k t. Qed.
Lemma on_input_keeps {A} (m : M _ A) : keeps input_kept m → keeps steady (on input_part m).
Proof.
  intros Hm. eapply on_keeps; [exact Hm|]. intros k t [Hd Hi] [Hc Hk]. split; [split; [done|by apply Hk]|done].
Qed.
Lemma on_acpi_keeps {A} (m : M _ A) : keeps steady (on acpi_part m).
Proof. eapply on_keeps; [apply any_keeps|]. by intros k t. Qed.
Lemma on_smbios_keeps {A} (m : M _ A) : keeps steady (on smbios_part m).
Proof. eapply on_keeps; [apply any_keeps|]. by intros k t. Qed.
Lemma on_heap_keeps {A} (m : M _ A) : keeps steady (on heap_part m).
Proof. eapply on_keeps; [apply any_keeps|]. by intros k t. Qed.
Lemma on_ramfs_keeps {A} (m : M _ A) : keeps steady (on ramfs_part m).
Proof. eapply on_keeps; [apply any_keeps|]. by intros k t. Qed.
Lemma net_init_keeps mac : keeps steady (on net_part (Net.net_stack_init mac)).
Proof.
  apply (on_keeps _ (λ n n', Net.nic n' = Net.nic n)).
  - intros n. destruct mac as [mac|]; cbn [Net.net_stack_init]; [|by apply wlp_ret].
    unfold Net.net_stack_set_mac. wlp_pure. by apply wlp_modify.
  - intros k n Hk Hn. split; [done|]. split; [|done]. change (same_cells (k_hw k) (E1000.hw (Net.nic n))). by rewrite Hn.
Qed.

(** The disks are probed again, the file system is not mounted. *)
Lemma probe_disks_keeps : keeps steady probe_disks.
Proof.
  intros k. unfold probe_disks. wlp_pure.
  assert (He : ata_registry (P := P) Blkdev.blkdev_init).
  { apply Forall_replicate. by intros f. }
  apply wlp_bind. intros r k' E. apply wlp_modify. intros [(Hd & Hr & Ho) Hi].
  unfold on in E. apply bind_Some in E as ([r1 a] & Ea & E). apply (inj Some), pair_eq in E as [<- <-].
  destruct (ata_probe_gives _ He _ _ _ Ea) as [Hr' [Hc Hk]].
  split; [split; [split; [done|split; [done|by apply Hk]]|done]|]. split; [exact Hc|]. exists []. by rewrite app_nil_r.
Qed.
Lemma demo_keeps k : untouched k → wlp (on disk_part Boot.ext4_persistence_demo) (λ r k', r = None ∧ steady k k') k.
Proof.
  intros [(Hd & Hr & Ho) Hi] r k' E. unfold on in E. apply bind_Some in E as ([r1 w'] & Ed & E).
  apply (inj Some), pair_eq in E as [<- <-].
  assert (Hp : probed (view disk_part k)) by (split; [done|by split]).
  revert Ed. unfold Boot.ext4_persistence_demo. intros (b & w1 & Em & Ed)%bind_inv.
  destruct (ext4_mount_calm _ Hp _ _ Em) as [-> [Hp1 Hc]]. apply (inj Some), pair_eq in Ed as [<- <-].
  split; [done|]. intros _. split; [by split|]. split; [exact Hc|]. exists []. by rewrite app_nil_r.
Qed.

#[local] Hint Extern 1 (keeps steady (say _)) => by apply say_keeps : keeps.
#[local] Hint Extern 1 (keeps steady (on acpi_part _)) => apply on_acpi_keeps : keeps.
#[local] Hint Extern 1 (keeps steady (on smbios_part _)) => apply on_smbios_keeps : keeps.
#[local] Hint Extern 1 (keeps steady (on heap_part _)) => apply on_heap_keeps : keeps.
#[local] Hint Extern 1 (keeps steady (on ramfs_part _)) => apply on_ramfs_keeps : keeps.
#[local] Hint Extern 1 (keeps steady (on net_part (Net.net_stack_init _))) => apply net_init_keeps : keeps.
#[local] Hint Extern 1 (keeps steady (on pci_part _)) => apply on_pci_keeps, pci_init_keeps : keeps.
#[local] Hint Extern 1 (keeps steady (on gpu_part _)) => apply on_gpu_keeps, gpu_init_keeps : keeps.
#[local] Hint Extern 1 (keeps steady (on thinkpad_part _)) => apply on_thinkpad_keeps, thinkpad_init_keeps : keeps.
#[local] Hint Extern 1 (keeps steady (on card_part _)) => apply on_card_keeps, net_detect_keeps : keeps.
#[local] Hint Extern 1 (keeps steady (on backlight_part _)) =>
  apply on_backlight_keeps; first [apply backlight_probe_keeps | apply backlight_set_keeps] : keeps.
#[local] Hint Extern 1 (keeps steady (on input_part _)) => apply on_input_keeps; first
  [ apply controller_init_keeps | apply keyboard_init_keeps | apply mouse_init_keeps | apply synaptics_probe_keeps
  | apply serial_mouse_keeps | apply gameport_keeps ] : keeps.
#[local] Hint Extern 1 (keeps steady probe_disks) => apply probe_disks_keeps : keeps.
#[local] Hint Extern 1 (keeps steady (modify (set_guard _))) => by apply set_keeps : keeps.

Context (w : Z) (mem : Z → Z) (tsc : Z) (rings : E1000.layout) (L : Kprintf.linked) (fuel : nat).

Lemma security_keeps boot : keeps steady (bringup_security_and_heap w tsc boot).
Proof. unfold bringup_security_and_heap. keeps. Qed.
Lemma discovery_keeps : keeps steady (bringup_discovery w mem L fuel).
Proof. unfold bringup_discovery. keeps. Qed.
Lemma drivers_keeps : keeps steady (bringup_drivers fuel).
Proof. unfold bringup_drivers. keeps. Qed.
#[local] Hint Extern 1 (keeps steady (bringup_security_and_heap _ _ _)) => apply security_keeps : keeps.
#[local] Hint Extern 1 (keeps steady (bringup_discovery _ _ _ _)) => apply discovery_keeps : keeps.
#[local] Hint Extern 1 (keeps steady (bringup_drivers _)) => apply drivers_keeps : keeps.

Lemma steady_untouched k k' : steady k k' → untouched k → untouched k'.
Proof. intros Hs Hk. by apply Hs. Qed.
Lemma step_steady {A B} (m : M (kernel P) A) (c : A → M (kernel P) B) k0 k Q :
  keeps steady m → steady k0 k → (∀ a k', steady k0 k' → wlp (c a) Q k') → wlp (bind m c) Q k.
Proof. intros Hm Hk Hc. eapply wlp_call; [apply Hm|]. intros a k' Hk'. apply Hc. by trans k. Qed.

(** Two accesses to the CMOS memory change no other part. *)
Lemma cells_are_parts f k k' : cells_are f k k' →
  k_log k' = k_log k ∧ k_disk k' = k_disk k ∧ k_input k' = k_input k ∧ ∀ j, nv (k_hw k') j = f j.
Proof. by intros (p & -> & Hf). Qed.

Lemma clear_wlp k : wlp cmos_clear_panic_flag (λ _ k',
  k_log k' = k_log k ∧ k_disk k' = k_disk k ∧ k_input k' = k_input k ∧
  ∀ j, nv (k_hw k') j = if (j =? PANIC_MAGIC_ADDR) || (j =? PANIC_CODE_ADDR) then 0 else nv (k_hw k) j) k.
Proof.
  unfold cmos_clear_panic_flag.
  eapply wlp_call; [by apply wp_wlp, cmos_write_wp|]. intros [] k1 (L1 & D1 & I1 & N1)%cells_are_parts.
  eapply wlp_mono; [by apply wp_wlp, cmos_write_wp|]. intros [] k2 (L2 & D2 & I2 & N2)%cells_are_parts.
  rewrite L2, D2, I2. do 3 (split; [done|]). intros j. rewrite N2. change (ports k1) with (k_hw k1). rewrite N1.
  by destruct (j =? PANIC_MAGIC_ADDR), (j =? PANIC_CODE_ADDR).
Qed.

(** What the boot has to say in the end, and what it leaves in the cells. *)
Definition last_report k : list event :=
  if nv (k_hw k) PANIC_MAGIC_ADDR =? PANIC_MAGIC then [LastBootPanicked (nv (k_hw k) PANIC_CODE_ADDR)] else [].
Definition forgotten k (j : Z) : Z :=
  if (j =? PANIC_MAGIC_ADDR) || (j =? PANIC_CODE_ADDR) then 0 else nv (k_hw k) j.
Definition reported k k' : Prop :=
  untouched k' ∧ (∃ l, Forall ordinary l ∧ k_log k' = k_log k ++ l ++ last_report k) ∧
  ∀ j, nv (k_hw k') j = forgotten k j.

Lemma report_wlp k k1 : untouched k → steady k k1 →
  wlp (let* last := cmos_last_boot_panicked true in
       match last with (true, Some code) => say (LastBootPanicked code) | _ => ret tt end ;;
       cmos_clear_panic_flag ;; ret true) (λ b k', b = true → reported k k') k1.
Proof.
  intros Hk Hs. destruct (Hs Hk) as (U1 & C1 & l & L1 & O1).
  eapply wlp_call; [by apply wp_wlp, last_boot_wp|]. intros r k2 [-> (L2 & D2 & I2 & N2)%cells_are_parts].
  change (ports k1) with (k_hw k1). rewrite !C1.
  set (rest := cmos_clear_panic_flag ;; ret true).
  assert (Hrest : ∀ k3, untouched k3 → (∀ j, nv (k_hw k3) j = nv (k_hw k) j) → k_log k3 = k_log k ++ l ++ last_report k →
    wlp rest (λ b k', b = true → reported k k') k3).
  { intros k3 U3 N3 L3. unfold rest. eapply wlp_call; [apply clear_wlp|]. intros [] k4 (L4 & D4 & I4 & N4).
    apply wlp_ret. intros _. split; [by unfold untouched; rewrite D4, I4|]. split; [exists l; by rewrite L4|].
    intros j. rewrite N4. unfold forgotten. by rewrite N3. }
  assert (U2 : untouched k2) by (by unfold untouched; rewrite D2, I2).
  assert (N2' : ∀ j, nv (k_hw k2) j = nv (k_hw k) j) by (intros j; rewrite N2; apply C1).
  assert (HL : k_log k2 = k_log k ++ l) by (by rewrite L2).
  unfold last_report in Hrest. destruct (nv (k_hw k) PANIC_MAGIC_ADDR =? PANIC_MAGIC).
  - unfold say. apply wlp_bind, wlp_modify. apply Hrest; [done|done|]. cbn. by rewrite HL, app_assoc.
  - apply wlp_bind, wlp_ret. apply Hrest; [done|done|]. by rewrite app_nil_r.
Qed.

Lemma standard_init_wlp boot k : untouched k →
  wlp (standard_init w mem tsc rings L fuel boot) (λ b k', b = true → reported k k') k.
Proof.
  intros Hk. assert (Hs : steady k k) by done. unfold standard_init.
  apply (step_steady _ _ k); [keeps|done|]. intros ok k1 Hs1. case_if; [by apply wlp_ret|].
  do 10 (apply (step_steady _ _ k); [keeps|done|intros ? ? ?]).
  eapply wlp_call; [by eapply demo_keeps, steady_untouched|]. intros ? k3 [-> Hs3]. apply wlp_bind, wlp_ret.
  apply report_wlp; [done|]. by etrans.
Qed.
Lemma standard_init_untouched boot k k' :
  untouched k → standard_init w mem tsc rings L fuel boot k = Some (true, k') → untouched k'.
Proof. intros Hk E. by destruct (standard_init_wlp boot k Hk _ _ E) as [Hu _]. Qed.

(** C21: the boot reports the last panic and forgets it. Whatever the machine is
    like, when the boot reaches its last loop, the cells in which the previous
    boot left the marker of its panic have not been touched by the drivers set up
    meanwhile: the panic is reported if and only if the marker was there at the
    start, with its code, as the last message; the marker is then gone, and the
    other cells are as they were. No boot number is ever recorded, and no key
    was echoed. *)
Theorem boot_reports_last_panic boot k k' :
  untouched k → standard_init w mem tsc rings L fuel boot k = Some (true, k') → reported k k'.
Proof. intros Hk E. by apply (standard_init_wlp boot k Hk _ _ E). Qed.

(** ** The loops after the boot *)

Definition ring_idle k : Prop := Input.kbd_idle (k_input k).
(** What every interrupt does to the ring of the keyboard. *)
Definition ring_kept k k' : Prop := ring_idle k → ring_idle k'.
#[export] Instance ring_kept_order : PreOrder ring_kept.
Proof. split; [by intros k Hk|]. intros k1 k2 k3 H12 H23 Hk. by apply H23, H12. Qed.

Lemma on_input_ring {A} (m : M (Input.input P) A) :
  (∀ i, Input.kbd_idle i → wlp m (λ _, Input.kbd_idle) i) → keeps ring_kept (on input_part m).
Proof.
  intros Hm k a k' E Hk. unfold on in E. apply bind_Some in E as ([x i] & Ei & E).
  apply (inj Some), pair_eq in E as [_ <-]. exact (Hm (view input_part k) Hk _ _ Ei).
Qed.
Lemma irq_table_kept k n h : irq_table fuel k !! n = Some (Some h) → keeps ring_kept h.
Proof.
  unfold irq_table. intros E. apply list_lookup_fmap_Some in E as (j & E & _). revert E. case_if; [|done].
  unfold irq_handler. case_if; [|case_if; [|done]]; intros [= ->]; apply on_input_ring; intros i Hi.
  - by apply Input.keyboard_irq_idle.
  - by apply Input.mouse_irq_idle.
Qed.
Lemma on_world_kept {A} (m : M (kernel P) A) : keeps ring_kept m →
  keeps (λ s s' : Irq.isr (kernel P), ring_kept (Irq.world s) (Irq.world s')) (Irq.on_world m).
Proof.
  intros Hm s a s' E. unfold Irq.on_world in E. apply bind_Some in E as ([x k] & Ek & E).
  apply (inj Some), pair_eq in E as [_ <-]. exact (Hm _ _ _ Ek).
Qed.
Lemma serve_kept irq : keeps ring_kept (serve fuel irq).
Proof.
  intros k [] k' E. unfold serve in E. apply bind_Some in E as ([[] s] & Es & E). injection E as <-.
  set (s0 := Irq.Isr (irq_table fuel k) k) in Es. change (ring_kept (Irq.world s0) (Irq.world s)). revert Es.
  set (R := λ s s' : Irq.isr (kernel P), ring_kept (Irq.world s) (Irq.world s')).
  assert (HR : PreOrder R) by (split; [by intros ? ?|intros s1 s2 s3 H12 H23; red; by etrans]).
  enough (Hw : wlp (Irq.isr_handler (λ _ _ _, fault) clock_tick (Irq.Regs (32 + Z.of_nat irq) 0)) (λ _, R s0) s0)
    by apply Hw.
  unfold Irq.isr_handler. cbn [Irq.int_no]. rewrite (proj2 (Z.ltb_ge _ 32)) by lia. cbv zeta.
  eapply wlp_call with (P := λ _ s', R s0 s' ∧ Irq.irq_handlers s' = irq_table fuel k).
  { case_if; [intros [] s' [= <-]|apply wlp_ret]; (split; [by intros Hk|done]). }
  intros [] s1 [R1 T1]. eapply wlp_call with (P := λ _ s', R s0 s').
  { case_if; [|by apply wlp_ret]. wlp_pure. intros h s2 E2. case_match; subst.
    2: { by injection E2 as <- <-. }
    etrans; [exact R1|]. eapply on_world_kept; [|exact E2].
    match goal with H : _ !! _ = Some _ |- _ => rewrite T1 in H; exact (irq_table_kept _ _ _ H) end. }
  intros [] s2 R2 [] s3 E3. etrans; [exact R2|]. eapply on_world_kept; [|exact E3].
  unfold Irq.pic_send_eoi. keeps; intros k1 [] k2 [= <-] Hk; exact Hk.
Qed.
Lemma interrupts_kept l : keeps ring_kept (interrupts fuel l).
Proof.
  induction l as [|irq l IH]; intros k; [by apply wlp_ret|]. cbn [interrupts].
  eapply wlp_call; [apply serve_kept|]. intros [] k1 Hr1. eapply wlp_mono; [apply IH|]. intros [] k2. by etrans.
Qed.
Lemma net_part_kept {A} (m : M _ A) : keeps ring_kept (on net_part m).
Proof. intros k a k' E. unfold on in E. apply bind_Some in E as ([x n] & _ & E). apply (inj Some), pair_eq in E as [_ <-]. by intros Hk. Qed.

(** A round that hears nothing. *)
Definition no_key : M (kernel P) unit := on input_part (ret tt).
Fixpoint poll_rounds (rs : list round) : M (kernel P) unit :=
  match rs with
  | [] => ret tt
  | r :: rs =>
      on net_part (Net.net_poll (H := E1000.e1000_nic rings) fuel) ;;
      interrupts fuel (before_keys r) ;;
      no_key ;;
      interrupts fuel (in_halt r) ;;
      poll_rounds rs
  end.
Fixpoint wait_rounds (rs : list round) : M (kernel P) unit :=
  match rs with
  | [] => ret tt
  | r :: rs => interrupts fuel (before_keys r) ;; no_key ;; interrupts fuel (in_halt r) ;; wait_rounds rs
  end.

Lemma getchar_none {B} (c : Z → M (kernel P) B) k : ring_idle k →
  (let* x := on input_part Input.keyboard_try_getchar in c x) k = (no_key ;; c (-1)) k.
Proof.
  intros Hk. unfold no_key, on, bind.
  by rewrite (Input.keyboard_try_idle (view input_part k) Hk).
Qed.

(** The same continuation after a step that keeps the ring idle. *)
Lemma bind_idle {A B} (m : M (kernel P) A) (c d : A → M (kernel P) B) k :
  keeps ring_kept m → ring_idle k → (∀ a k', ring_idle k' → c a k' = d a k') → bind m c k = bind m d k.
Proof.
  intros Hm Hk Hc. unfold bind. destruct (m k) as [[a k']|] eqn:E; [|done]. apply Hc. exact (Hm _ _ _ E Hk).
Qed.
Lemma no_key_kept : keeps ring_kept no_key.
Proof. intros k [] k' [= <-] Hk. exact Hk. Qed.

Lemma wait_rounds_eq rs k : ring_idle k → key_rounds fuel rs k = (wait_rounds rs ;; ret false) k.
Proof.
  revert k. induction rs as [|r rs IH]; intros k Hk; [done|]. cbn [key_rounds wait_rounds].
  rewrite bind_assoc. apply bind_idle; [apply interrupts_kept|done|]. intros [] k1 Hr1.
  rewrite getchar_none by done. rewrite bind_assoc. apply bind_idle; [apply no_key_kept|done|]. intros [] k2 Hr2.
  rewrite bind_assoc. apply bind_idle; [apply interrupts_kept|done|]. intros [] k3 Hr3. by apply IH.
Qed.
Lemma poll_rounds_eq rs k : (0 < fuel)%nat → ring_idle k →
  idle_rounds rings fuel rs k = (poll_rounds rs ;; ret Waiting) k.
Proof.
  intros Hf. revert k. induction rs as [|r rs IH]; intros k Hk; [done|]. cbn [idle_rounds poll_rounds].
  rewrite bind_assoc. apply bind_idle; [apply net_part_kept|done|]. intros _ k1 Hr1.
  rewrite bind_assoc. apply bind_idle; [apply interrupts_kept|done|]. intros [] k2 Hr2.
  destruct fuel as [|f] eqn:Ef; [lia|]. cbn [echo_keys]. rewrite bind_assoc, getchar_none by done. rewrite <- Ef.
  rewrite bind_assoc. apply bind_idle; [apply no_key_kept|done|]. intros [] k3 Hr3.
  change (-1 <? 0) with true. cbv beta iota. rewrite bind_ret. cbv iota. rewrite bind_assoc.
  apply bind_idle; [apply interrupts_kept|done|]. intros [] k4 Hr4. rewrite Ef. by apply IH.
Qed.

Lemma bind_ext_at {S A B} (m : M S A) (c d : A → M S B) s :
  (∀ a s', m s = Some (a, s') → c a s' = d a s') → bind m c s = bind m d s.
Proof. intros Hc. unfold bind. destruct (m s) as [[a s']|]; [by apply Hc|done]. Qed.
Lemma standard_boot_eq boot rs k : (0 < fuel)%nat → untouched k →
  standard_boot w mem tsc rings L fuel rs boot k =
    (let* ok := standard_init w mem tsc rings L fuel boot in
     if negb ok then ret HeapPanic else say Ready ;; poll_rounds rs ;; ret Waiting) k.
Proof.
  intros Hf Hk. unfold standard_boot. apply bind_ext_at. intros ok k1 E1. destruct ok; [cbn [negb]|done].
  apply bind_ext_at. intros [] k2 E2. apply poll_rounds_eq; [done|].
  injection E2 as <-. destruct (standard_init_untouched boot k _ Hk E1) as [_ Hi]. exact Hi.
Qed.
Lemma version_screen_eq boot rs k : ring_idle k →
  version_screen fuel rs boot k =
    (let* c0 := lift (ld8 (Start.cmdline boot) 0) in
     say (VersionScreen (Start.arch_name boot) (Start.mem_usable_kb boot)
       (if truthy c0 then Some (Start.cmdline boot) else None)) ;;
     wait_rounds rs ;; ret Waiting) k.
Proof.
  intros Hk. unfold version_screen. apply bind_ext_at. intros c0 k1 E1. apply bind_ext_at. intros [] k2 E2.
  assert (Hi : ring_idle k2).
  { injection E2 as <-. unfold lift in E1. destruct (ld8 _ _); [|done]. injection E1 as _ <-. exact Hk. }
  unfold bind at 1. rewrite (wait_rounds_eq rs k2 Hi). unfold bind. by destruct (wait_rounds rs k2) as [[[] k3]|].
Qed.
Lemma kernel_main_waits boot rs k : (0 < fuel)%nat → untouched k →
  wlp (kernel_main w mem tsc rings L fuel rs boot) (λ o _, o ≠ Reset) k.
Proof.
  intros Hf Hk. unfold kernel_main, say. wlp_pure.
  match goal with |- wlp _ _ ?k1 => assert (Hk1 : untouched k1) by exact Hk; revert Hk1; generalize k1 end.
  intros k1 Hk1. destruct (Boot.action _); intros o k2 E.
  - rewrite standard_boot_eq in E by done. revert o k2 E. apply wlp_bind. intros ok k2 _.
    case_if; [by apply wlp_ret|]. apply wlp_bind. intros [] k3 _. apply wlp_bind. intros [] k4 _. by apply wlp_ret.
  - rewrite version_screen_eq in E by apply Hk1. revert o k2 E. apply wlp_bind. intros c0 k2 _.
    apply wlp_bind. intros [] k3 _. apply wlp_bind. intros [] k4 _. by apply wlp_ret.
Qed.

(** C22: the booted kernel hears no key. Whatever bytes the keyboard controller
    holds, and whichever lines interrupt, in any number and order, before the
    loops look for a key and while the processor is halted: every round of the
    last loop of the boot polls the network, serves the interrupts and halts, and
    does nothing else, so nothing is echoed and ESC does not reset the machine;
    the screen of the version entry waits for ever for the key that would reset
    it; and however the kernel is started, it never resets itself. The cause is
    the test for a full ring in [push_char], which the keyboard's handler runs. *)
Theorem kernel_hears_no_key boot rs k : (0 < fuel)%nat → untouched k →
  standard_boot w mem tsc rings L fuel rs boot k =
    (let* ok := standard_init w mem tsc rings L fuel boot in
     if negb ok then ret HeapPanic else say Ready ;; poll_rounds rs ;; ret Waiting) k ∧
  version_screen fuel rs boot k =
    (let* c0 := lift (ld8 (Start.cmdline boot) 0) in
     say (VersionScreen (Start.arch_name boot) (Start.mem_usable_kb boot)
       (if truthy c0 then Some (Start.cmdline boot) else None)) ;;
     wait_rounds rs ;; ret Waiting) k ∧
  (∀ o k', kernel_main w mem tsc rings L fuel rs boot k = Some (o, k') → o ≠ Reset).
Proof.
  intros Hf Hk. split; [by apply standard_boot_eq|]. split; [by apply version_screen_eq, Hk|].
  by apply kernel_main_waits.
Qed.
End boot_proofs.

(** ** A machine

    Nothing is attached but the clock chip, whose cells hold the marker of a
    panic with code 7, and a PS/2 controller with a keyboard: the answer to its
    last command, and the scancodes that are to be typed. *)
#[export] Existing Instances Panic.demo_cell_ports Panic.demo_nvram.
Record demo_pc := DemoPc { pc_cells : Panic.demo_cells; pc_answer : option Z; pc_typed : list Z }.
Definition pc_command (v : Z) (p : demo_pc) : demo_pc :=
  DemoPc (pc_cells p)
    (if v =? Input.CMD_SELF_TEST then Some 0x55
     else if (v =? Input.CMD_READ_CFG) || (v =? Input.CMD_PORT1_TEST) then Some 0
     else if v =? Input.CMD_PORT2_TEST then Some 1 else pc_answer p) (pc_typed p).
#[export] Instance demo_pc_ports : Ports demo_pc :=
  {| inb := λ port p,
       if port =? Input.STATUS_PORT then (if pc_answer p is Some _ then Input.STAT_OUT_FULL else 0, p)
       else if port =? Input.DATA_PORT then
         match pc_answer p with
         | Some v => (v, DemoPc (pc_cells p) None (pc_typed p))
         | None => (default 0 (head (pc_typed p)), DemoPc (pc_cells p) None (tail (pc_typed p)))
         end
       else let '(v, c) := inb port (pc_cells p) in (v, DemoPc c (pc_answer p) (pc_typed p));
     inw := λ _ p, (65535, p); inl := λ _ p, (4294967295, p);
     outb := λ port v p,
       if port =? Input.CMD_PORT then pc_command v p
       else DemoPc (outb port v (pc_cells p)) (pc_answer p) (pc_typed p);
     outw := λ _ _ p, p; outl := λ _ _ p, p |}.
#[export] Instance demo_pc_nvram : Cmos.Nvram demo_pc.
Proof.
  refine {| Cmos.nv := λ p, Cmos.nv (pc_cells p); Cmos.cmos_sel := λ p, Cmos.cmos_sel (pc_cells p) |}; try done.
  - intros port p Hp. cbn [inb demo_pc_ports]. case_match; [done|]. case_match; [by case_match|].
    intros j. exact (Cmos.law_in port (pc_cells p) Hp j).
  - intros port v p Ha Hd. cbn [outb demo_pc_ports]. case_match; [done|]. exact (Cmos.law_other port v (pc_cells p) Ha Hd).
Defined.
#[export] Instance demo_regs : Regs32 demo_pc := {| reg_read := λ _ p, (0, p); reg_write := λ _ _ p, p |}.
#[export] Instance demo_mmio : Mmio demo_pc E1000.dma :=
  {| mmio_read := λ _ p, (0, p); mmio_write := λ _ _ p, p; run := λ p m, (p, m) |}.
#[export] Instance demo_apart : Frames.CellsApart demo_pc.
Proof. by split. Qed.
#[export] Instance demo_mmio_apart : Frames.MmioApart demo_pc.
Proof. by split. Qed.

(** The letter a is typed, then ESC. *)
Definition demo_hw : demo_pc :=
  DemoPc (0, λ j, if j =? 0x3A then 0x4F else if j =? 0x3B then 7 else 0) None [0x1E; 0x9E; 0x01; 0x81].
Definition demo_info : Start.boot_info := Start.BootInfo "x86_64" (chars "quiet" ++ [0]) 65536 0x200000 0x10000.
Definition demo_rings : E1000.layout := E1000.Layout 0 0 0 0 true.
Definition demo_linked : Kprintf.linked := Kprintf.Linked true (λ _, None) (λ _, 4096) (λ _, []) (zeros 512) (chars "1.0").
Definition demo_kernel : kernel demo_pc :=
  Kernel demo_hw (Heap.heap_boot true) 0 Boot.cmdline_boot
    (Gpu.Gpu Gpu.gpu_zero (Pci.pci_boot demo_hw) (Console.console_boot (FbConsole.fb_boot [] ∅)))
    (Backlight.backlight_boot demo_hw) Acpi.acpi_boot Smbios.smbios_boot (Platform.thinkpad_boot demo_hw)
    (Input.input_boot demo_hw) (Net.net0 (E1000.e1000_boot demo_hw))
    (Ramfs.Ramfs [] false (Heap.heap_boot true) ∅)
    (Ext4Core.World _ _ Ext4Core.e4_zero None None (Blkdev.Registry [] 0) (Ata.ata0 demo_hw) (Heap.heap_boot true) 0
      (λ k, replicate (Z.to_nat k) 0xA5) (Ext4Core.Journal (zeros 256) [] 0 None)) [] Boot.clock_boot.
Lemma demo_untouched : untouched demo_kernel.
Proof.
  split; [split; [done|split; [constructor|]]|done].
  apply Forall_replicate. by apply Frames.drive_ok_check.
Qed.

(** The boot reaches its last loop. *)
Lemma demo_boots : ∃ k', standard_init 64 (λ _, 0) 0x123456789 demo_rings demo_linked 10 demo_info demo_kernel = Some (true, k').
Proof.
  assert (Hb : match standard_init 64 (λ _, 0) 0x123456789 demo_rings demo_linked 10 demo_info demo_kernel with
               | Some (b, _) => b | None => false end = true) by (vm_compute; reflexivity).
  revert Hb. generalize (standard_init 64 (λ _, 0) 0x123456789 demo_rings demo_linked 10 demo_info demo_kernel).
  intros [[[] k']|]; [by exists k'|done..].
Qed.

Lemma boot_reports_last_panic_witness : ∃ k',
  standard_init 64 (λ _, 0) 0x123456789 demo_rings demo_linked 10 demo_info demo_kernel = Some (true, k') ∧
  untouched demo_kernel ∧ reported demo_kernel k'.
Proof.
  destruct demo_boots as [k' E]. exists k'. split; [exact E|]. split; [exact demo_untouched|].
  exact (boot_reports_last_panic _ _ _ _ _ _ _ _ _ demo_untouched E).
Defined.

(** Three rounds, with the timer's interrupts and those of the four scancodes. *)
Definition demo_rounds : list round := [Round [0%nat; 1%nat] [1%nat]; Round [] [0%nat; 1%nat]; Round [1%nat] [0%nat]].

Lemma kernel_hears_no_key_witness :
  standard_boot 64 (λ _, 0) 0x123456789 demo_rings demo_linked 10 demo_rounds demo_info demo_kernel =
    (let* ok := standard_init 64 (λ _, 0) 0x123456789 demo_rings demo_linked 10 demo_info in
     if negb ok then ret HeapPanic else say Ready ;; poll_rounds demo_rings 10 demo_rounds ;; ret Waiting) demo_kernel.
Proof. exact (proj1 (kernel_hears_no_key 64 (λ _, 0) 0x123456789 demo_rings demo_linked 10 demo_info demo_rounds demo_kernel ltac:(lia) demo_untouched)). Defined.

(** And it does wait, after the report on the last boot: the keyboard's handler is
    installed, the timer has ticked, and all that was typed has been read from the
    controller; none of it was heard. *)
Example demo_waits :
  match standard_boot 64 (λ _, 0) 0x123456789 demo_rings demo_linked 10 demo_rounds demo_info demo_kernel with
  | Some (Waiting, k) =>
      k_log k = [SecurityReport; NoRsdp; NoSerialMouse; Network []; RamfsMounted; LastBootPanicked 7; Ready] ∧
      Input.irqs (k_input k) = [1] ∧ Boot.g_ticks (k_clock k) = 3 ∧ pc_typed (k_hw k) = []
  | _ => False
  end.
Proof. vm_compute. done. Qed.
